(* ===== verification/_CoqProject ===== *)
-Q . S2P
Prelude.v
Shared.v
DecisionStateMachine.v
DecisionEdges.v
DecisionsHelper.v
DecisionsInvariant.v
DecisionsDrain.v
Decisions.v
DecisionsProps.v
Replay.v
History.v
LRU.v
SharedSchedule.v
Enums.v
Channels.v
ChannelsProps.v
Errors.v
HistorySize.v
Environment.v
EventHandlers.v
EnvironmentInvariant.v
EnvironmentProps.v
WorkflowTask.v
WorkflowTaskSample.v
WorkflowTaskProps.v
WorkflowTaskHistory.v
Dispatcher.v
DispatcherProps.v
Coroutines.v
CoroutinesProps.v
WaitGroup.v
Contexts.v
ContextsProps.v
ContextCache.v
TaskHandler.v
TaskHandlerProps.v
TaskHandlerSample.v
Backoff.v
Floats.v
Schedule.v
ScheduleClient.v
ScheduleCopy.v
ScheduleProps.v
ScheduleSample.v
SharedActivity.v
Heartbeat.v
ActivityTask.v
HeartbeatProps.v
Goroutines.v
Session.v
SessionProps.v
ActivityOptions.v
SessionWorkflow.v
SessionWorkflowProps.v
AutoScaler.v
AutoScalerProps.v
BaseWorker.v
BaseWorkerProps.v
SharedPoll.v
DecisionPoller.v
ActivityPoller.v
PollerProps.v
SharedClient.v
HistorySerializer.v
ClientHistory.v
ClientHistoryProps.v
WorkflowClient.v
WorkflowClientProps.v
Registry.v
RegistryProps.v
