(* ===== verification/Prelude.v ===== *)
(** * cadence-go-client

    The Go client of the Cadence workflow service runs workflow code
    deterministically: a worker polls for decision tasks, each of which carries
    (a page of) the history of one workflow execution; the client replays the
    events of that history into the workflow code, which runs in coroutines that
    the client schedules itself, and collects the decisions that the code makes.
    This development models that core, component by component, and proves what
    makes it correct.  All the sources below are under [src/internal/].

    ** The parts and how they interact

    - The _decisions helper_ ([internal_decision_state_machine.go]) holds one
      state machine per activity, timer, child workflow, signal, cancellation,
      marker and search attribute upsert, creates the decisions that are sent to
      the service and matches the history events with them.
    - The _workflow environment_ and the _event handler_
      ([internal_event_handlers.go]) offer workflow code its operations, keep
      the closure that waits for each result as the data of a decision, and
      dispatch each history event to the helper and to that closure.
    - The _history iterator_ ([internal_task_handlers.go],
      [internal_task_pollers.go]) cuts the paged history into the batches of
      events that one decision task saw.
    - The _replay check_ ([workflow_replayer_utils.go]) compares the decisions
      that a replay made with the events of the history.
    - _Channels, futures, selectors_ ([internal_workflow.go]) are how coroutines
      of workflow code synchronise; the _dispatcher_ of the same file runs the
      coroutines one at a time until all of them are blocked.
    - A _decision task_ ([internal_task_handlers.go]) drives all of them: it reads
      the history in batches, feeds the events to the event handler, compares the
      decisions of the replay, and answers with the new ones.
    - _Errors_ ([error.go], [internal_utils.go]) are turned into a reason and
      bytes for the service and back.
    - A _worker_ ([internal_worker_base.go], [worker/]) polls for tasks as its
      permits allow, and _sessions_ ([session.go]) bind activities of a workflow
      to one worker.
    - The _workflow client_ ([internal_workflow_client.go]) starts workflows, signals,
      queries and cancels them, reads their histories and waits for their results.
    - The _LRU cache_ ([common/cache/lru.go]) holds the workflow executions of a
      worker; the _enum mappers_ ([compatibility/proto/enum.go] and
      [compatibility/thrift/enum.go]) translate between the two wire formats.

    ** Files

    - [Prelude]: Go values (strings, nil-able bytes, wrapped integers, the typed
      values that a data converter encodes), the state and panic monad [M] with
      its notation and the tactics and hint databases for it ([M S A] is
      [S → outcome A * S]: a panic keeps the state that it left behind), the
      interface [DataConverter] and its law [DataConverterRoundTrip], and the
      invariant reasoning ([spec], [pres]) that the components share.
    - [Shared]: the thrift structs and enums of [.gen/go/shared/shared.go] that
      the code reads.
    - [DecisionStateMachine], [DecisionsHelper]: the machines, as records on a
      heap indexed by [ptr] because the list and the map of the helper share
      them, and every method and helper operation.  [DecisionEdges] has the
      diagram of every kind of machine, [DecisionsInvariant] the invariant [wf],
      [DecisionsDrain] what [getDecisions] does to the list, [Decisions] the
      operations as one type [op] with its execution, and [DecisionsProps] the
      theorems.
    - [Replay]: [matchReplayWithHistory], [isDecisionMatchEvent] and the
      reference they are compared with.
    - [History]: the iterator, with the service as a parameter [pageFunc].
    - [LRU]: the cache and the list of entries that specifies it.
    - [Enums]: all enum mappers and the policies of schedules; the generated proto
      constants are a parameter.
    - [Channels], [ChannelsProps]: the store of channels, futures, the variables
      that the callbacks capture, and the sessions of [Select].
    - [Errors], [HistorySize]: the errors and the size estimate.
    - [Environment], [EventHandlers]: [workflowEnvironmentImpl] and
      [workflowExecutionEventHandlerImpl]; [EnvironmentInvariant] has the
      invariant of the closures and [EnvironmentProps] the theorems.
    - [WorkflowTask]: [workflowExecutionContextImpl] of
      [internal_task_handlers.go]: a decision task from its arrival to its answer,
      composed of the history iterator, the event handler, the replay check and
      the decisions helper.  [WorkflowTaskProps] has its theorems,
      [WorkflowTaskHistory] the one on the loop over the history,
      [WorkflowTaskSample] the executions that instantiate them.
    - [Dispatcher], [DispatcherProps]: [dispatcherImpl]; the code of a coroutine
      is an abstract type, and what runs between two yields is a parameter.
      [Coroutines] instantiates it: workflow code as trees of the operations of
      [Channels], with the calls of [yield] and [unblocked] of the source, the
      stack of calls of [Select] and [Await].  [CoroutinesProps] has the theorems
      on the whole.
    - [WaitGroup]: [waitGroupImpl] on the store of [Channels].
    - [Contexts], [ContextsProps]: [context.go], with the state of the cancelable
      contexts in a heap.
    - [ContextCache]: the cache of workflow contexts as the classes [Cache] and
      [CacheLaws], of which the LRU cache is an instance.  [TaskHandler]:
      [workflowTaskHandlerImpl] over any such cache, in atomic steps.
      [TaskHandlerProps] has the relation in which the steps of several tasks
      and the evictions interleave and its invariant, [TaskHandlerSample] an
      executable scheduler of it.
    - [Backoff]: [common/backoff] and [internal_retry.go].
    - [SharedSchedule], [Schedule], [ScheduleClient]: the thrift types of
      schedules, [schedule.go] with [internal_schedule_convert_thrift.go], and
      [internal_schedule_client.go].  [Floats] shows that whole seconds survive
      their float64, [ScheduleCopy] that the copy for an update is deep,
      [ScheduleProps] has the theorems and [ScheduleSample] executions.
    - [SharedActivity], [Heartbeat], [ActivityTask]: [cadenceInvoker] of
      [internal_task_handlers.go], whose methods and goroutine are steps, and
      [activity_task_handler.go] with the parts of [activity.go] and
      [auto_heartbeater.go] it uses.  [HeartbeatProps] has the theorems.
    - [Goroutines]: runs of labelled steps and counting, which the models of
      goroutines share.  [Session], [SessionProps]: the side of the worker of
      [session.go].  [ActivityOptions]: the options that contexts carry and
      [ExecuteActivity] ([workflow.go], [internal_activity.go], [convert.go]).
      [SessionWorkflow], [SessionWorkflowProps]: the side of the workflow of
      [session.go], on a heap of contexts, options and session objects.
    - [AutoScaler], [AutoScalerProps]: [worker/concurrency_auto_scaler.go] over
      any semaphore (classes [Semaphore] and [SemaphoreLaws]).  [BaseWorker],
      [BaseWorkerProps]: [internal_worker_base.go] and
      [worker/resizable_permit.go], a step being what one goroutine does between
      two points where it can wait.
    - [SharedPoll], [DecisionPoller], [ActivityPoller], [PollerProps]: the pollers
      of [internal_task_pollers.go]; a task handler is a tree of the heartbeats
      that it sends and its result.
    - [SharedClient], [HistorySerializer], [ClientHistory], [WorkflowClient]:
      [common/serializer] and the client of [internal_workflow_client.go], the
      histories and the handle of a run apart from the other calls.
      [ClientHistoryProps] and [WorkflowClientProps] have the theorems.
    - [Registry], [RegistryProps]: [registry.go], with types of functions as a class.

    ** What the theorems show

    - The helper keeps its list and map consistent and its machines on their
      diagrams, which are exact for all but markers and upserts; [getDecisions]
      hands over every decision once;
      a panic moves nothing; a decision cancelled before it was sent leaves no
      trace; an activity goes through its life without a panic.
    - Every result is delivered to its closure at most once, whatever the order
      of events; the result of an activity reaches the closure that waits for
      it; versions and side effects are the same in a replay; workflow time does
      not go backwards.
    - The replay check is the comparison of two filtered lists and reports the
      first difference; a history is read once and in order however it is cut into
      pages that have events.
    - A channel is a bounded queue; blocked senders and receivers never coexist;
      a selector takes one branch; a future is set once and wakes its readers.
    - The cache is a least-recently-used list of bounded size; pinned entries stay;
      it never holds as many entries as its maximal size.
    - Errors survive their round trip; enums do, but for the values that panic or
      become invalid.
    - A decision task is answered only after its replay was compared with the
      history, with the decisions that were not sent and the decision that closes
      the workflow; every event of the history reaches the handler once; state of
      an earlier task is used only if the task continues it; local activities are
      retried exactly as their policy says.
    - The dispatcher ends for workflow code whose runs are finite, loses no wake-up
      unless a function of [Select] blocks or a signal is corrupt, and stops at a
      panic; a wait group releases its waiter when its counter reaches zero; a cancel
      function cancels its context and the contexts derived from it, and no other.
    - A workflow context is destroyed or kept in the cache when its task ends,
      for one task of a run at a time; retries of service calls end.
    - The schedule client sends well-formed requests only; an update sends the
      fields that its callback changed, which are found although the callback
      may change every object it can reach; schedules survive their round trip.
    - Heartbeats are batched, every activity task is answered, and the progress
      of an activity that did not complete is flushed.
    - Session tokens are neither lost nor created, a completed session is
      released, its activities run on its worker, and its context is canceled
      when it ends; a worker runs at most as many tasks as it may, loses no
      permit and can always be stopped; the quota of pollers stays in its bounds.
    - The decision poller balances its polls; an activity runs locally only when
      the service has agreed; local activities end by their deadlines.
    - The client starts workflows with well-formed requests only, delivers a
      history completely, in order and once (by a long poll, or in pages that have
      events), and waits for the last of the runs as
      which a workflow continued; encoded batches of events survive their round
      trip; a registered function is found again under the name by which it is
      referred to.

    ** Loops, fuel and bounds

    Loops over a list are structural.  The loops that are not are given fuel:
    [getDecisions_loop] runs at most once per element of the list
    ([getDecisions_drains] shows that this suffices), [matchLoop] at most once
    per decision and event ([matchReplay_reference]), the history reader twice
    per event ([history_read_once]), and [Receive], which drops values that
    cannot be assigned ([attempts_enough] for the turns that a slice allows it), and
    [Set_], which follows chained futures, take it as an argument, as does the loop
    of the dispatcher ([execution_terminates] shows that some fuel suffices) and that over the batches of a task
    ([task_handles_history] says how much); [cancel] needs as much as there are
    contexts younger than the one it cancels ([cancel_exact]), and [retryLoop] one
    more than the calls after which the policy gives up ([retry_bounded]); a history
    needs as many polls as it has pages ([history_delivered]) and [Get] as many
    turns as there are runs ([get_follows_runs]).  Running out of fuel is the panic
    [OutOfFuel], so a theorem that gives a result excludes it.  Integers that the code keeps at a width are
    wrapped ([int32], [int64]) where they are incremented or converted.

    ** Not modelled

    The options of the aggregated worker, the shadower, logging,
    metrics, tracing, authorization, the test suite, and reflection on user
    functions.  Workflow code is a parameter of the event handlers
    ([workflow]), constrained where a theorem needs it to be built from the
    operations of the environment; the data converter, the JSON encoder and the
    service are parameters too. *)

From stdpp Require Import base list gmap strings relations option numbers pretty.
From Stdlib Require Import ZArith Ascii.

(** ** Go values *)

(** A Go [string] is a byte sequence ([String.string]); a Go [[]byte] is
    [nil] or a byte sequence, hence an [option].  A Go pointer to an immutable
    value ([*string], [*int64], ...) is an [option]. *)
Abbreviation bytes := (option string).

Definition bytes_to_string (b : bytes) : string := default "" b.
Definition string_to_bytes (s : string) : bytes := Some s.
Definition len_bytes (b : bytes) : nat := String.length (bytes_to_string b).

(** [bytes.Compare(a, b) == 0]: a nil slice equals an empty one. *)
Definition bytes_equal (a b : bytes) : bool :=
  bool_decide (bytes_to_string a = bytes_to_string b).

(** Thrift getters [(v *T).GetF()]: the zero value on a nil receiver or a nil
    field, otherwise the value the field points to. *)
Definition get_string {A} (f : A → option string) (o : option A) : string :=
  default "" (o ≫= f).
Definition get_int {A} (f : A → option Z) (o : option A) : Z :=
  default 0%Z (o ≫= f).

(** ** Machine integers *)

Definition wrap (w : Z) (z : Z) : Z :=
  ((z + 2 ^ (w - 1)) `mod` 2 ^ w - 2 ^ (w - 1))%Z.
Definition int64 (z : Z) : Z := wrap 64 z.
Definition int32 (z : Z) : Z := wrap 32 z.
Definition in_int64 (z : Z) : Prop := (- 2 ^ 63 ≤ z < 2 ^ 63)%Z.
Definition in_int32 (z : Z) : Prop := (- 2 ^ 31 ≤ z < 2 ^ 31)%Z.

Lemma int64_id z : in_int64 z → int64 z = z.
Proof. unfold in_int64, int64, wrap. intros ?. rewrite Z.mod_small; lia. Qed.

Lemma int32_id z : in_int32 z → int32 z = z.
Proof. unfold in_int32, int32, wrap. intros ?. rewrite Z.mod_small; lia. Qed.

Lemma int64_add a b : int64 (int64 a + int64 b)%Z = int64 (a + b)%Z.
Proof.
  unfold int64, wrap. f_equal.
  replace ((a + 2 ^ (64 - 1)) mod 2 ^ 64 - 2 ^ (64 - 1) +
           ((b + 2 ^ (64 - 1)) mod 2 ^ 64 - 2 ^ (64 - 1)) + 2 ^ (64 - 1))%Z
    with ((a + 2 ^ (64 - 1)) mod 2 ^ 64 + (b + 2 ^ (64 - 1)) mod 2 ^ 64 - 2 ^ (64 - 1))%Z by lia.
  rewrite <- Zminus_mod_idemp_l, <- Zplus_mod, Zminus_mod_idemp_l. f_equal. lia.
Qed.
Lemma int64_range z : in_int64 (int64 z).
Proof.
  unfold in_int64, int64, wrap.
  pose proof (Z.mod_pos_bound (z + 2 ^ (64 - 1)) (2 ^ 64)). lia.
Qed.

Lemma int32_range z : in_int32 (int32 z).
Proof.
  unfold in_int32, int32, wrap.
  pose proof (Z.mod_pos_bound (z + 2 ^ (32 - 1)) (2 ^ 32)). lia.
Qed.

(** ** Linked lists

    [container/list] with its elements named by numbers. *)

(** [container/list]: [Remove] of an element that is not in the list does
    nothing, neither does [MoveToBack]. *)
Definition list_Remove (p : nat) (l : list nat) : list nat := filter (.≠ p) l.
Definition list_MoveToBack (p : nat) (l : list nat) : list nat :=
  if decide (p ∈ l) then list_Remove p l ++ [p] else l.
Definition list_MoveToFront (p : nat) (l : list nat) : list nat :=
  if decide (p ∈ l) then p :: list_Remove p l else l.

Section linked_lists.
Implicit Types (p q : nat) (l : list nat).

Lemma elem_of_Remove p q l : q ∈ list_Remove p l ↔ q ∈ l ∧ q ≠ p.
Proof. unfold list_Remove. rewrite list_elem_of_filter. tauto. Qed.

Lemma NoDup_Remove p l : NoDup l → NoDup (list_Remove p l).
Proof. apply NoDup_filter. Qed.

Lemma Remove_notin p l : p ∉ l → list_Remove p l = l.
Proof.
  intros Hp. unfold list_Remove. induction l as [|q l IH]; [done|].
  rewrite filter_cons. rewrite decide_True by set_solver. f_equal. apply IH. set_solver.
Qed.

Lemma Remove_mid l1 p l2 :
  NoDup (l1 ++ p :: l2) → list_Remove p (l1 ++ p :: l2) = l1 ++ l2.
Proof.
  intros (_ & Hd & [Hp _]%NoDup_cons)%NoDup_app. unfold list_Remove.
  rewrite filter_app, filter_cons, decide_False by naive_solver.
  f_equal; apply Remove_notin; set_solver.
Qed.

Lemma elem_of_MoveToBack p q l : q ∈ list_MoveToBack p l ↔ q ∈ l.
Proof.
  unfold list_MoveToBack. case_decide; [|done].
  rewrite elem_of_app, elem_of_Remove, list_elem_of_singleton.
  destruct (decide (q = p)); naive_solver.
Qed.

Lemma NoDup_MoveToBack p l : NoDup l → NoDup (list_MoveToBack p l).
Proof.
  intros Hl. unfold list_MoveToBack. case_decide; [|done]. apply NoDup_app. split_and!.
  - by apply NoDup_Remove.
  - intros q [? ?]%elem_of_Remove. by rewrite list_elem_of_singleton.
  - apply NoDup_singleton.
Qed.

Lemma Permutation_MoveToBack p l : NoDup l → list_MoveToBack p l ≡ₚ l.
Proof.
  intros Hl. apply NoDup_Permutation; [by apply NoDup_MoveToBack|done|].
  intros q. apply elem_of_MoveToBack.
Qed.

Lemma elem_of_MoveToFront p q l : q ∈ list_MoveToFront p l ↔ q ∈ l.
Proof.
  unfold list_MoveToFront. case_decide; [|done].
  rewrite elem_of_cons, elem_of_Remove. destruct (decide (q = p)); naive_solver.
Qed.

Lemma NoDup_MoveToFront p l : NoDup l → NoDup (list_MoveToFront p l).
Proof.
  intros Hl. unfold list_MoveToFront. case_decide; [|done]. constructor.
  - rewrite elem_of_Remove. naive_solver.
  - by apply NoDup_Remove.
Qed.

Lemma Permutation_MoveToFront p l : NoDup l → list_MoveToFront p l ≡ₚ l.
Proof.
  intros Hl. apply NoDup_Permutation; [by apply NoDup_MoveToFront|done|].
  intros q. apply elem_of_MoveToFront.
Qed.

Lemma length_Remove p l : NoDup l → p ∈ l → length l = S (length (list_Remove p l)).
Proof.
  intros Hl (l1 & l2 & ->)%list_elem_of_split. rewrite Remove_mid by done.
  rewrite !length_app. simpl. lia.
Qed.

End linked_lists.

(** ** Data converters

    [DataConverter] (internal/encoded.go) is an interface that the users of the
    library implement: a class of the model.  [goValue] are the values the
    modelled code passes to it and [goType] the types of the pointers it decodes
    into. *)

Inductive goType := TNil | TString | TInt | TBytes | TEnum | TEncodedValues | TStruct.
Inductive goValue :=
| GNil                               (** the nil interface *)
| GString (s : string)
| GInt (z : Z)
| GBytes (b : bytes)
| GEnum (z : Z)                      (** an enum of the Thrift API *)
| GEncodedValues (values : bytes)    (** an [*EncodedValues] *)
| GStruct (fields : list (string + Z)).  (** a struct, its fields in order *)

Definition typeOf (v : goValue) : goType :=
  match v with
  | GNil => TNil
  | GString _ => TString
  | GInt _ => TInt
  | GBytes _ => TBytes
  | GEnum _ => TEnum
  | GEncodedValues _ => TEncodedValues
  | GStruct _ => TStruct
  end.

Class DataConverter := {
  ToData : list goValue → string + bytes;
  FromData : bytes → list goType → string + list goValue }.

(** What a converter promises: decoding at the types of the encoded values
    gives the values back. *)
Class DataConverterRoundTrip (dc : DataConverter) : Prop :=
  FromData_ToData vs b : ToData vs = inr b → FromData b (typeOf <$> vs) = inr vs.

(** A converter that keeps the promise: the values as a string of bits. *)
Global Instance goType_eq_dec : EqDecision goType.
Proof. solve_decision. Defined.
Global Instance goValue_eq_dec : EqDecision goValue.
Proof. solve_decision. Defined.
Global Instance goValue_countable : Countable goValue.
Proof.
  apply (inj_countable'
    (λ v, match v with
          | GString s => inl (inl s) | GInt z => inl (inr (inl z)) | GBytes b => inl (inr (inr b))
          | GEnum z => inr (inl z) | GEncodedValues b => inr (inr (inl b))
          | GStruct l => inr (inr (inr (Some l))) | GNil => inr (inr (inr None))
          end)
    (λ v, match v with
          | inl (inl s) => GString s | inl (inr (inl z)) => GInt z | inl (inr (inr b)) => GBytes b
          | inr (inl z) => GEnum z | inr (inr (inl b)) => GEncodedValues b
          | inr (inr (inr (Some l))) => GStruct l | inr (inr (inr None)) => GNil
          end)).
  by intros [].
Defined.

Fixpoint bits_of_pos (p : positive) : string :=
  match p with
  | xH => ""
  | xO p => String "0"%char (bits_of_pos p)
  | xI p => String "1"%char (bits_of_pos p)
  end.
Fixpoint pos_of_bits (s : string) : positive :=
  match s with
  | "" => xH
  | String c s => if decide (c = "0"%char) then xO (pos_of_bits s) else xI (pos_of_bits s)
  end.

Lemma pos_of_bits_of_pos p : pos_of_bits (bits_of_pos p) = p.
Proof. induction p as [p IH|p IH|]; simpl; by rewrite ?IH. Qed.

Definition bitConverter : DataConverter := {|
  ToData vs := inr (Some (bits_of_pos (encode vs)));
  FromData b ts :=
    match b ≫= λ s, decode (pos_of_bits s) with
    | Some vs => if decide (typeOf <$> vs = ts) then inr vs else inl "types differ"
    | None => inl "no values"
    end |}.

Lemma bitConverter_RoundTrip : DataConverterRoundTrip bitConverter.
Proof.
  intros vs b [= <-]. simpl. rewrite pos_of_bits_of_pos, decode_encode.
  by rewrite decide_True.
Qed.

(** ** Panics and stateful code

    A Go function that mutates a heap and may panic is a computation
    [M S A]: a panic keeps the state the function had reached, because the
    callers of this package recover from panics and go on with that state. *)

Inductive panic :=
| IllegalStatePanic (message : string)  (** [stateMachineIllegalStatePanic] *)
| StringPanic (message : string)        (** [panic("...")] *)
| ErrorPanic (err : string)             (** [panic(err)] with an error value *)
| NilDereference                        (** run-time error: nil dereference *)
| IndexOutOfRange                       (** run-time error: index out of range *)
| OutOfFuel.                            (** not of the code: a loop of the model exhausted its bound *)

Inductive outcome (A : Type) :=
| Ret (a : A)
| Panic (p : panic).
Arguments Ret {A} a.
Arguments Panic {A} p.

Definition M (S A : Type) : Type := S → outcome A * S.

Global Instance M_ret {S} : MRet (M S) := λ A a s, (Ret a, s).
Global Instance M_bind {S} : MBind (M S) := λ A B f c s,
  match c s with
  | (Ret a, s') => f a s'
  | (Panic p, s') => (Panic p, s')
  end.

Definition throw {S A} (p : panic) : M S A := λ s, (Panic p, s).
Definition get {S} : M S S := λ s, (Ret s, s).
Definition modify {S} (f : S → S) : M S unit := λ s, (Ret tt, f s).

(** Code that may panic but changes no state. *)
Global Instance outcome_ret : MRet outcome := λ A a, Ret a.
Global Instance outcome_fmap : FMap outcome := λ A B f o,
  match o with Ret a => Ret (f a) | Panic p => Panic p end.
Global Instance outcome_bind : MBind outcome := λ A B f o,
  match o with Ret a => f a | Panic p => Panic p end.

(** Access to a field through a pointer that may be nil. *)
Definition deref {A} (o : option A) : outcome A :=
  match o with Some a => Ret a | None => Panic NilDereference end.

(** [a || b] and [a && b]: the second operand is evaluated only when needed. *)
Definition or_else (a b : outcome bool) : outcome bool := x ← a; if (x : bool) then Ret true else b.
Definition and_then (a b : outcome bool) : outcome bool :=
  x ← a; if (x : bool) then b else Ret false.

(** Whether the outcome is a normal return. *)
Definition returns {A} (o : outcome A) : Prop :=
  match o with Ret _ => True | Panic _ => False end.

(** ** Specifications of computations

    [spec P c Q]: from a state in [P], [c] ends with an outcome and a state
    related by [Q]; [pres P c]: [c] keeps [P], whether it returns or panics. *)

Definition spec {S A} (P : S → Prop) (c : M S A) (Q : outcome A → S → Prop) : Prop :=
  ∀ s, P s → Q (fst (c s)) (snd (c s)).

Definition pres {S A} (P : S → Prop) (c : M S A) : Prop :=
  ∀ s, P s → P (snd (c s)).

Create HintDb pres.

Section pres.
Context {S : Type}.
Implicit Types (P : S → Prop).

Lemma pres_ret {A} P (a : A) : pres P (mret a).
Proof. intros s Hs. exact Hs. Qed.

Lemma pres_throw {A} P p : pres P (throw (A:=A) p).
Proof. intros s Hs. exact Hs. Qed.

Lemma pres_get P : pres P get.
Proof. intros s Hs. exact Hs. Qed.

Lemma pres_modify P f : (∀ s, P s → P (f s)) → pres P (modify f).
Proof. intros Hf s Hs. by apply Hf. Qed.

Lemma pres_bind {A B} P (c : M S A) (f : A → M S B) :
  pres P c → (∀ a, pres P (f a)) → pres P (c ≫= f).
Proof.
  intros Hc Hf s Hs. specialize (Hc s Hs).
  unfold mbind, M_bind. destruct (c s) as [[a|p] s'] eqn:E; simpl in *; [|done].
  by apply Hf.
Qed.

(** A continuation that needs to know what the first computation established. *)
Lemma pres_bind_spec {A B} P (Q : outcome A → S → Prop) (c : M S A) (f : A → M S B) :
  spec P c Q → (∀ p s, Q (Panic p) s → P s) →
  (∀ a s, Q (Ret a) s → P (snd (f a s))) → pres P (c ≫= f).
Proof.
  intros Hc Hp Hf s Hs. specialize (Hc s Hs).
  unfold mbind, M_bind. destruct (c s) as [[a|p] s'] eqn:E; simpl in *; eauto.
Qed.

Lemma pres_if {A} P (b : bool) (c d : M S A) :
  pres P c → pres P d → pres P (if b then c else d).
Proof. by destruct b. Qed.

Lemma pres_decide {A} P (X : Prop) `{!Decision X} (c d : M S A) :
  (X → pres P c) → (¬ X → pres P d) → pres P (if decide X then c else d).
Proof. intros ??. case_decide; eauto. Qed.

End pres.

#[export] Hint Resolve pres_ret pres_throw pres_get pres_bind pres_if : pres.

(** Execute the monadic operations themselves, leaving the primitives of the
    state (loads, stores, ...) folded. *)
Ltac run := cbv beta iota zeta delta [mbind M_bind mret M_ret throw get modify fst snd].
Ltac run_in H :=
  cbv beta iota zeta delta [mbind M_bind mret M_ret throw get modify fst snd] in H.
