(* ===== verification/Shared.v ===== *)
(** * Thrift data types

    The structs and enums of the wire protocol that the modelled code reads and
    writes, from the generated package [.gen/go/shared] (shared.go): every
    decision and every history event with all of their fields.  A pointer field
    is an [option], [[]byte] is [bytes], a possibly nil map is an [option] of a
    [gmap]; a [float64] field is only carried around and is kept as the integer
    of its bit pattern.  A thrift enum is an int32 type: its declared constants
    are constructors, and [...Unknown] is any other value of the type. *)

From stdpp Require Import base gmap strings.
From S2P Require Import Prelude.

Inductive DecisionType :=
| DecisionTypeScheduleActivityTask
| DecisionTypeRequestCancelActivityTask
| DecisionTypeStartTimer
| DecisionTypeCompleteWorkflowExecution
| DecisionTypeFailWorkflowExecution
| DecisionTypeCancelTimer
| DecisionTypeCancelWorkflowExecution
| DecisionTypeRequestCancelExternalWorkflowExecution
| DecisionTypeRecordMarker
| DecisionTypeContinueAsNewWorkflowExecution
| DecisionTypeStartChildWorkflowExecution
| DecisionTypeSignalExternalWorkflowExecution
| DecisionTypeUpsertWorkflowSearchAttributes
| DecisionTypeUnknown (value : Z).

Record ActivityType := MkActivityType {
  ActivityType_Name : option string }.

Inductive TaskListKind :=
| TaskListKindNormal
| TaskListKindSticky
| TaskListKindEphemeral
| TaskListKindUnknown (value : Z).

Record TaskList := MkTaskList {
  TaskList_Name : option string;
  TaskList_Kind : option TaskListKind;
  TaskList_BaseName : option string }.

Record RetryPolicy := MkRetryPolicy {
  RetryPolicy_InitialIntervalInSeconds : option Z;
  RetryPolicy_BackoffCoefficient : option Z;
  RetryPolicy_MaximumIntervalInSeconds : option Z;
  RetryPolicy_MaximumAttempts : option Z;
  RetryPolicy_NonRetriableErrorReasons : option (list string);
  RetryPolicy_ExpirationIntervalInSeconds : option Z }.

Record Header := MkHeader {
  Header_Fields : option (gmap string bytes) }.

Record ScheduleActivityTaskDecisionAttributes := MkScheduleActivityTaskDecisionAttributes {
  ScheduleActivityTaskDecisionAttributes_ActivityId : option string;
  ScheduleActivityTaskDecisionAttributes_ActivityType : option ActivityType;
  ScheduleActivityTaskDecisionAttributes_Domain : option string;
  ScheduleActivityTaskDecisionAttributes_TaskList : option TaskList;
  ScheduleActivityTaskDecisionAttributes_Input : bytes;
  ScheduleActivityTaskDecisionAttributes_ScheduleToCloseTimeoutSeconds : option Z;
  ScheduleActivityTaskDecisionAttributes_ScheduleToStartTimeoutSeconds : option Z;
  ScheduleActivityTaskDecisionAttributes_StartToCloseTimeoutSeconds : option Z;
  ScheduleActivityTaskDecisionAttributes_HeartbeatTimeoutSeconds : option Z;
  ScheduleActivityTaskDecisionAttributes_RetryPolicy : option RetryPolicy;
  ScheduleActivityTaskDecisionAttributes_Header : option Header;
  ScheduleActivityTaskDecisionAttributes_RequestLocalDispatch : option bool }.

Record StartTimerDecisionAttributes := MkStartTimerDecisionAttributes {
  StartTimerDecisionAttributes_TimerId : option string;
  StartTimerDecisionAttributes_StartToFireTimeoutSeconds : option Z }.

Record CompleteWorkflowExecutionDecisionAttributes := MkCompleteWorkflowExecutionDecisionAttributes {
  CompleteWorkflowExecutionDecisionAttributes_Result : bytes }.

Record FailWorkflowExecutionDecisionAttributes := MkFailWorkflowExecutionDecisionAttributes {
  FailWorkflowExecutionDecisionAttributes_Reason : option string;
  FailWorkflowExecutionDecisionAttributes_Details : bytes }.

Record RequestCancelActivityTaskDecisionAttributes := MkRequestCancelActivityTaskDecisionAttributes {
  RequestCancelActivityTaskDecisionAttributes_ActivityId : option string }.

Record CancelTimerDecisionAttributes := MkCancelTimerDecisionAttributes {
  CancelTimerDecisionAttributes_TimerId : option string }.

Record CancelWorkflowExecutionDecisionAttributes := MkCancelWorkflowExecutionDecisionAttributes {
  CancelWorkflowExecutionDecisionAttributes_Details : bytes }.

Record RequestCancelExternalWorkflowExecutionDecisionAttributes := MkRequestCancelExternalWorkflowExecutionDecisionAttributes {
  RequestCancelExternalWorkflowExecutionDecisionAttributes_Domain : option string;
  RequestCancelExternalWorkflowExecutionDecisionAttributes_WorkflowId : option string;
  RequestCancelExternalWorkflowExecutionDecisionAttributes_RunId : option string;
  RequestCancelExternalWorkflowExecutionDecisionAttributes_Control : bytes;
  RequestCancelExternalWorkflowExecutionDecisionAttributes_ChildWorkflowOnly : option bool }.

Record RecordMarkerDecisionAttributes := MkRecordMarkerDecisionAttributes {
  RecordMarkerDecisionAttributes_MarkerName : option string;
  RecordMarkerDecisionAttributes_Details : bytes;
  RecordMarkerDecisionAttributes_Header : option Header }.

Record WorkflowType := MkWorkflowType {
  WorkflowType_Name : option string }.

Inductive ContinueAsNewInitiator :=
| ContinueAsNewInitiatorDecider
| ContinueAsNewInitiatorRetryPolicy
| ContinueAsNewInitiatorCronSchedule
| ContinueAsNewInitiatorUnknown (value : Z).

Record Memo := MkMemo {
  Memo_Fields : option (gmap string bytes) }.

Record SearchAttributes := MkSearchAttributes {
  SearchAttributes_IndexedFields : option (gmap string bytes) }.

Inductive CronOverlapPolicy :=
| CronOverlapPolicySkipped
| CronOverlapPolicyBufferone
| CronOverlapPolicyUnknown (value : Z).

Record ClusterAttribute := MkClusterAttribute {
  ClusterAttribute_Scope : option string;
  ClusterAttribute_Name : option string }.

Record ActiveClusterSelectionPolicy := MkActiveClusterSelectionPolicy {
  ActiveClusterSelectionPolicy_ClusterAttribute : option ClusterAttribute }.

Record ContinueAsNewWorkflowExecutionDecisionAttributes := MkContinueAsNewWorkflowExecutionDecisionAttributes {
  ContinueAsNewWorkflowExecutionDecisionAttributes_WorkflowType : option WorkflowType;
  ContinueAsNewWorkflowExecutionDecisionAttributes_TaskList : option TaskList;
  ContinueAsNewWorkflowExecutionDecisionAttributes_Input : bytes;
  ContinueAsNewWorkflowExecutionDecisionAttributes_ExecutionStartToCloseTimeoutSeconds : option Z;
  ContinueAsNewWorkflowExecutionDecisionAttributes_TaskStartToCloseTimeoutSeconds : option Z;
  ContinueAsNewWorkflowExecutionDecisionAttributes_BackoffStartIntervalInSeconds : option Z;
  ContinueAsNewWorkflowExecutionDecisionAttributes_RetryPolicy : option RetryPolicy;
  ContinueAsNewWorkflowExecutionDecisionAttributes_Initiator : option ContinueAsNewInitiator;
  ContinueAsNewWorkflowExecutionDecisionAttributes_FailureReason : option string;
  ContinueAsNewWorkflowExecutionDecisionAttributes_FailureDetails : bytes;
  ContinueAsNewWorkflowExecutionDecisionAttributes_LastCompletionResult : bytes;
  ContinueAsNewWorkflowExecutionDecisionAttributes_CronSchedule : option string;
  ContinueAsNewWorkflowExecutionDecisionAttributes_Header : option Header;
  ContinueAsNewWorkflowExecutionDecisionAttributes_Memo : option Memo;
  ContinueAsNewWorkflowExecutionDecisionAttributes_SearchAttributes : option SearchAttributes;
  ContinueAsNewWorkflowExecutionDecisionAttributes_JitterStartSeconds : option Z;
  ContinueAsNewWorkflowExecutionDecisionAttributes_CronOverlapPolicy : option CronOverlapPolicy;
  ContinueAsNewWorkflowExecutionDecisionAttributes_ActiveClusterSelectionPolicy : option ActiveClusterSelectionPolicy }.

Inductive ParentClosePolicy :=
| ParentClosePolicyAbandon
| ParentClosePolicyRequestCancel
| ParentClosePolicyTerminate
| ParentClosePolicyUnknown (value : Z).

Inductive WorkflowIdReusePolicy :=
| WorkflowIdReusePolicyAllowDuplicateFailedOnly
| WorkflowIdReusePolicyAllowDuplicate
| WorkflowIdReusePolicyRejectDuplicate
| WorkflowIdReusePolicyTerminateIfRunning
| WorkflowIdReusePolicyUnknown (value : Z).

Record StartChildWorkflowExecutionDecisionAttributes := MkStartChildWorkflowExecutionDecisionAttributes {
  StartChildWorkflowExecutionDecisionAttributes_Domain : option string;
  StartChildWorkflowExecutionDecisionAttributes_WorkflowId : option string;
  StartChildWorkflowExecutionDecisionAttributes_WorkflowType : option WorkflowType;
  StartChildWorkflowExecutionDecisionAttributes_TaskList : option TaskList;
  StartChildWorkflowExecutionDecisionAttributes_Input : bytes;
  StartChildWorkflowExecutionDecisionAttributes_ExecutionStartToCloseTimeoutSeconds : option Z;
  StartChildWorkflowExecutionDecisionAttributes_TaskStartToCloseTimeoutSeconds : option Z;
  StartChildWorkflowExecutionDecisionAttributes_ParentClosePolicy : option ParentClosePolicy;
  StartChildWorkflowExecutionDecisionAttributes_Control : bytes;
  StartChildWorkflowExecutionDecisionAttributes_WorkflowIdReusePolicy : option WorkflowIdReusePolicy;
  StartChildWorkflowExecutionDecisionAttributes_RetryPolicy : option RetryPolicy;
  StartChildWorkflowExecutionDecisionAttributes_CronSchedule : option string;
  StartChildWorkflowExecutionDecisionAttributes_Header : option Header;
  StartChildWorkflowExecutionDecisionAttributes_Memo : option Memo;
  StartChildWorkflowExecutionDecisionAttributes_SearchAttributes : option SearchAttributes;
  StartChildWorkflowExecutionDecisionAttributes_CronOverlapPolicy : option CronOverlapPolicy;
  StartChildWorkflowExecutionDecisionAttributes_ActiveClusterSelectionPolicy : option ActiveClusterSelectionPolicy }.

Record WorkflowExecution := MkWorkflowExecution {
  WorkflowExecution_WorkflowId : option string;
  WorkflowExecution_RunId : option string }.

Record SignalExternalWorkflowExecutionDecisionAttributes := MkSignalExternalWorkflowExecutionDecisionAttributes {
  SignalExternalWorkflowExecutionDecisionAttributes_Domain : option string;
  SignalExternalWorkflowExecutionDecisionAttributes_Execution : option WorkflowExecution;
  SignalExternalWorkflowExecutionDecisionAttributes_SignalName : option string;
  SignalExternalWorkflowExecutionDecisionAttributes_Input : bytes;
  SignalExternalWorkflowExecutionDecisionAttributes_Control : bytes;
  SignalExternalWorkflowExecutionDecisionAttributes_ChildWorkflowOnly : option bool }.

Record UpsertWorkflowSearchAttributesDecisionAttributes := MkUpsertWorkflowSearchAttributesDecisionAttributes {
  UpsertWorkflowSearchAttributesDecisionAttributes_SearchAttributes : option SearchAttributes }.

Record Decision := MkDecision {
  Decision_DecisionType : option DecisionType;
  Decision_ScheduleActivityTaskDecisionAttributes : option ScheduleActivityTaskDecisionAttributes;
  Decision_StartTimerDecisionAttributes : option StartTimerDecisionAttributes;
  Decision_CompleteWorkflowExecutionDecisionAttributes : option CompleteWorkflowExecutionDecisionAttributes;
  Decision_FailWorkflowExecutionDecisionAttributes : option FailWorkflowExecutionDecisionAttributes;
  Decision_RequestCancelActivityTaskDecisionAttributes : option RequestCancelActivityTaskDecisionAttributes;
  Decision_CancelTimerDecisionAttributes : option CancelTimerDecisionAttributes;
  Decision_CancelWorkflowExecutionDecisionAttributes : option CancelWorkflowExecutionDecisionAttributes;
  Decision_RequestCancelExternalWorkflowExecutionDecisionAttributes : option RequestCancelExternalWorkflowExecutionDecisionAttributes;
  Decision_RecordMarkerDecisionAttributes : option RecordMarkerDecisionAttributes;
  Decision_ContinueAsNewWorkflowExecutionDecisionAttributes : option ContinueAsNewWorkflowExecutionDecisionAttributes;
  Decision_StartChildWorkflowExecutionDecisionAttributes : option StartChildWorkflowExecutionDecisionAttributes;
  Decision_SignalExternalWorkflowExecutionDecisionAttributes : option SignalExternalWorkflowExecutionDecisionAttributes;
  Decision_UpsertWorkflowSearchAttributesDecisionAttributes : option UpsertWorkflowSearchAttributesDecisionAttributes }.

Inductive EventType :=
| EventTypeWorkflowExecutionStarted
| EventTypeWorkflowExecutionCompleted
| EventTypeWorkflowExecutionFailed
| EventTypeWorkflowExecutionTimedOut
| EventTypeDecisionTaskScheduled
| EventTypeDecisionTaskStarted
| EventTypeDecisionTaskCompleted
| EventTypeDecisionTaskTimedOut
| EventTypeDecisionTaskFailed
| EventTypeActivityTaskScheduled
| EventTypeActivityTaskStarted
| EventTypeActivityTaskCompleted
| EventTypeActivityTaskFailed
| EventTypeActivityTaskTimedOut
| EventTypeActivityTaskCancelRequested
| EventTypeRequestCancelActivityTaskFailed
| EventTypeActivityTaskCanceled
| EventTypeTimerStarted
| EventTypeTimerFired
| EventTypeCancelTimerFailed
| EventTypeTimerCanceled
| EventTypeWorkflowExecutionCancelRequested
| EventTypeWorkflowExecutionCanceled
| EventTypeRequestCancelExternalWorkflowExecutionInitiated
| EventTypeRequestCancelExternalWorkflowExecutionFailed
| EventTypeExternalWorkflowExecutionCancelRequested
| EventTypeMarkerRecorded
| EventTypeWorkflowExecutionSignaled
| EventTypeWorkflowExecutionTerminated
| EventTypeWorkflowExecutionContinuedAsNew
| EventTypeStartChildWorkflowExecutionInitiated
| EventTypeStartChildWorkflowExecutionFailed
| EventTypeChildWorkflowExecutionStarted
| EventTypeChildWorkflowExecutionCompleted
| EventTypeChildWorkflowExecutionFailed
| EventTypeChildWorkflowExecutionCanceled
| EventTypeChildWorkflowExecutionTimedOut
| EventTypeChildWorkflowExecutionTerminated
| EventTypeSignalExternalWorkflowExecutionInitiated
| EventTypeSignalExternalWorkflowExecutionFailed
| EventTypeExternalWorkflowExecutionSignaled
| EventTypeUpsertWorkflowSearchAttributes
| EventTypeUnknown (value : Z).

Record ResetPointInfo := MkResetPointInfo {
  ResetPointInfo_BinaryChecksum : option string;
  ResetPointInfo_RunId : option string;
  ResetPointInfo_FirstDecisionCompletedId : option Z;
  ResetPointInfo_CreatedTimeNano : option Z;
  ResetPointInfo_ExpiringTimeNano : option Z;
  ResetPointInfo_Resettable : option bool }.

Record ResetPoints := MkResetPoints {
  ResetPoints_Points : list (option ResetPointInfo) }.

Record WorkflowExecutionStartedEventAttributes := MkWorkflowExecutionStartedEventAttributes {
  WorkflowExecutionStartedEventAttributes_WorkflowType : option WorkflowType;
  WorkflowExecutionStartedEventAttributes_ParentWorkflowDomain : option string;
  WorkflowExecutionStartedEventAttributes_ParentWorkflowExecution : option WorkflowExecution;
  WorkflowExecutionStartedEventAttributes_ParentInitiatedEventId : option Z;
  WorkflowExecutionStartedEventAttributes_TaskList : option TaskList;
  WorkflowExecutionStartedEventAttributes_Input : bytes;
  WorkflowExecutionStartedEventAttributes_ExecutionStartToCloseTimeoutSeconds : option Z;
  WorkflowExecutionStartedEventAttributes_TaskStartToCloseTimeoutSeconds : option Z;
  WorkflowExecutionStartedEventAttributes_ContinuedExecutionRunId : option string;
  WorkflowExecutionStartedEventAttributes_Initiator : option ContinueAsNewInitiator;
  WorkflowExecutionStartedEventAttributes_ContinuedFailureReason : option string;
  WorkflowExecutionStartedEventAttributes_ContinuedFailureDetails : bytes;
  WorkflowExecutionStartedEventAttributes_LastCompletionResult : bytes;
  WorkflowExecutionStartedEventAttributes_OriginalExecutionRunId : option string;
  WorkflowExecutionStartedEventAttributes_Identity : option string;
  WorkflowExecutionStartedEventAttributes_FirstExecutionRunId : option string;
  WorkflowExecutionStartedEventAttributes_FirstScheduledTimeNano : option Z;
  WorkflowExecutionStartedEventAttributes_RetryPolicy : option RetryPolicy;
  WorkflowExecutionStartedEventAttributes_Attempt : option Z;
  WorkflowExecutionStartedEventAttributes_ExpirationTimestamp : option Z;
  WorkflowExecutionStartedEventAttributes_CronSchedule : option string;
  WorkflowExecutionStartedEventAttributes_FirstDecisionTaskBackoffSeconds : option Z;
  WorkflowExecutionStartedEventAttributes_Memo : option Memo;
  WorkflowExecutionStartedEventAttributes_SearchAttributes : option SearchAttributes;
  WorkflowExecutionStartedEventAttributes_PrevAutoResetPoints : option ResetPoints;
  WorkflowExecutionStartedEventAttributes_Header : option Header;
  WorkflowExecutionStartedEventAttributes_PartitionConfig : option (gmap string string);
  WorkflowExecutionStartedEventAttributes_RequestId : option string;
  WorkflowExecutionStartedEventAttributes_CronOverlapPolicy : option CronOverlapPolicy;
  WorkflowExecutionStartedEventAttributes_ActiveClusterSelectionPolicy : option ActiveClusterSelectionPolicy }.

Record WorkflowExecutionCompletedEventAttributes := MkWorkflowExecutionCompletedEventAttributes {
  WorkflowExecutionCompletedEventAttributes_Result : bytes;
  WorkflowExecutionCompletedEventAttributes_DecisionTaskCompletedEventId : option Z }.

Record WorkflowExecutionFailedEventAttributes := MkWorkflowExecutionFailedEventAttributes {
  WorkflowExecutionFailedEventAttributes_Reason : option string;
  WorkflowExecutionFailedEventAttributes_Details : bytes;
  WorkflowExecutionFailedEventAttributes_DecisionTaskCompletedEventId : option Z }.

Inductive TimeoutType :=
| TimeoutTypeStartToClose
| TimeoutTypeScheduleToStart
| TimeoutTypeScheduleToClose
| TimeoutTypeHeartbeat
| TimeoutTypeUnknown (value : Z).

Record WorkflowExecutionTimedOutEventAttributes := MkWorkflowExecutionTimedOutEventAttributes {
  WorkflowExecutionTimedOutEventAttributes_TimeoutType : option TimeoutType }.

Record DecisionTaskScheduledEventAttributes := MkDecisionTaskScheduledEventAttributes {
  DecisionTaskScheduledEventAttributes_TaskList : option TaskList;
  DecisionTaskScheduledEventAttributes_StartToCloseTimeoutSeconds : option Z;
  DecisionTaskScheduledEventAttributes_Attempt : option Z }.

Record DecisionTaskStartedEventAttributes := MkDecisionTaskStartedEventAttributes {
  DecisionTaskStartedEventAttributes_ScheduledEventId : option Z;
  DecisionTaskStartedEventAttributes_Identity : option string;
  DecisionTaskStartedEventAttributes_RequestId : option string }.

Record DecisionTaskCompletedEventAttributes := MkDecisionTaskCompletedEventAttributes {
  DecisionTaskCompletedEventAttributes_ExecutionContext : bytes;
  DecisionTaskCompletedEventAttributes_ScheduledEventId : option Z;
  DecisionTaskCompletedEventAttributes_StartedEventId : option Z;
  DecisionTaskCompletedEventAttributes_Identity : option string;
  DecisionTaskCompletedEventAttributes_BinaryChecksum : option string }.

Inductive DecisionTaskTimedOutCause :=
| DecisionTaskTimedOutCauseTimeout
| DecisionTaskTimedOutCauseReset
| DecisionTaskTimedOutCauseUnknown (value : Z).

Record DecisionTaskTimedOutEventAttributes := MkDecisionTaskTimedOutEventAttributes {
  DecisionTaskTimedOutEventAttributes_ScheduledEventId : option Z;
  DecisionTaskTimedOutEventAttributes_StartedEventId : option Z;
  DecisionTaskTimedOutEventAttributes_TimeoutType : option TimeoutType;
  DecisionTaskTimedOutEventAttributes_BaseRunId : option string;
  DecisionTaskTimedOutEventAttributes_NewRunId : option string;
  DecisionTaskTimedOutEventAttributes_ForkEventVersion : option Z;
  DecisionTaskTimedOutEventAttributes_Reason : option string;
  DecisionTaskTimedOutEventAttributes_Cause : option DecisionTaskTimedOutCause;
  DecisionTaskTimedOutEventAttributes_RequestId : option string }.

Inductive DecisionTaskFailedCause :=
| DecisionTaskFailedCauseUnhandledDecision
| DecisionTaskFailedCauseBadScheduleActivityAttributes
| DecisionTaskFailedCauseBadRequestCancelActivityAttributes
| DecisionTaskFailedCauseBadStartTimerAttributes
| DecisionTaskFailedCauseBadCancelTimerAttributes
| DecisionTaskFailedCauseBadRecordMarkerAttributes
| DecisionTaskFailedCauseBadCompleteWorkflowExecutionAttributes
| DecisionTaskFailedCauseBadFailWorkflowExecutionAttributes
| DecisionTaskFailedCauseBadCancelWorkflowExecutionAttributes
| DecisionTaskFailedCauseBadRequestCancelExternalWorkflowExecutionAttributes
| DecisionTaskFailedCauseBadContinueAsNewAttributes
| DecisionTaskFailedCauseStartTimerDuplicateID
| DecisionTaskFailedCauseResetStickyTasklist
| DecisionTaskFailedCauseWorkflowWorkerUnhandledFailure
| DecisionTaskFailedCauseBadSignalWorkflowExecutionAttributes
| DecisionTaskFailedCauseBadStartChildExecutionAttributes
| DecisionTaskFailedCauseForceCloseDecision
| DecisionTaskFailedCauseFailoverCloseDecision
| DecisionTaskFailedCauseBadSignalInputSize
| DecisionTaskFailedCauseResetWorkflow
| DecisionTaskFailedCauseBadBinary
| DecisionTaskFailedCauseScheduleActivityDuplicateID
| DecisionTaskFailedCauseBadSearchAttributes
| DecisionTaskFailedCauseUnknown (value : Z).

Record DecisionTaskFailedEventAttributes := MkDecisionTaskFailedEventAttributes {
  DecisionTaskFailedEventAttributes_ScheduledEventId : option Z;
  DecisionTaskFailedEventAttributes_StartedEventId : option Z;
  DecisionTaskFailedEventAttributes_Cause : option DecisionTaskFailedCause;
  DecisionTaskFailedEventAttributes_Details : bytes;
  DecisionTaskFailedEventAttributes_Identity : option string;
  DecisionTaskFailedEventAttributes_Reason : option string;
  DecisionTaskFailedEventAttributes_BaseRunId : option string;
  DecisionTaskFailedEventAttributes_NewRunId : option string;
  DecisionTaskFailedEventAttributes_ForkEventVersion : option Z;
  DecisionTaskFailedEventAttributes_BinaryChecksum : option string;
  DecisionTaskFailedEventAttributes_RequestId : option string }.

Record ActivityTaskScheduledEventAttributes := MkActivityTaskScheduledEventAttributes {
  ActivityTaskScheduledEventAttributes_ActivityId : option string;
  ActivityTaskScheduledEventAttributes_ActivityType : option ActivityType;
  ActivityTaskScheduledEventAttributes_Domain : option string;
  ActivityTaskScheduledEventAttributes_TaskList : option TaskList;
  ActivityTaskScheduledEventAttributes_Input : bytes;
  ActivityTaskScheduledEventAttributes_ScheduleToCloseTimeoutSeconds : option Z;
  ActivityTaskScheduledEventAttributes_ScheduleToStartTimeoutSeconds : option Z;
  ActivityTaskScheduledEventAttributes_StartToCloseTimeoutSeconds : option Z;
  ActivityTaskScheduledEventAttributes_HeartbeatTimeoutSeconds : option Z;
  ActivityTaskScheduledEventAttributes_DecisionTaskCompletedEventId : option Z;
  ActivityTaskScheduledEventAttributes_RetryPolicy : option RetryPolicy;
  ActivityTaskScheduledEventAttributes_Header : option Header }.

Inductive FailureCategory :=
| FailureCategoryPoll
| FailureCategoryStandard
| FailureCategoryFatal
| FailureCategoryUnknown (value : Z).

Record FailureOptions := MkFailureOptions {
  FailureOptions_FailureCategory : option FailureCategory;
  FailureOptions_NextRetryIntervalSeconds : option Z }.

Record ActivityTaskStartedEventAttributes := MkActivityTaskStartedEventAttributes {
  ActivityTaskStartedEventAttributes_ScheduledEventId : option Z;
  ActivityTaskStartedEventAttributes_Identity : option string;
  ActivityTaskStartedEventAttributes_RequestId : option string;
  ActivityTaskStartedEventAttributes_Attempt : option Z;
  ActivityTaskStartedEventAttributes_LastFailureReason : option string;
  ActivityTaskStartedEventAttributes_LastFailureDetails : bytes;
  ActivityTaskStartedEventAttributes_LastFailureOptions : option FailureOptions }.

Record ActivityTaskCompletedEventAttributes := MkActivityTaskCompletedEventAttributes {
  ActivityTaskCompletedEventAttributes_Result : bytes;
  ActivityTaskCompletedEventAttributes_ScheduledEventId : option Z;
  ActivityTaskCompletedEventAttributes_StartedEventId : option Z;
  ActivityTaskCompletedEventAttributes_Identity : option string }.

Record ActivityTaskFailedEventAttributes := MkActivityTaskFailedEventAttributes {
  ActivityTaskFailedEventAttributes_Reason : option string;
  ActivityTaskFailedEventAttributes_Details : bytes;
  ActivityTaskFailedEventAttributes_FailureOptions : option FailureOptions;
  ActivityTaskFailedEventAttributes_ScheduledEventId : option Z;
  ActivityTaskFailedEventAttributes_StartedEventId : option Z;
  ActivityTaskFailedEventAttributes_Identity : option string }.

Record ActivityTaskTimedOutEventAttributes := MkActivityTaskTimedOutEventAttributes {
  ActivityTaskTimedOutEventAttributes_Details : bytes;
  ActivityTaskTimedOutEventAttributes_ScheduledEventId : option Z;
  ActivityTaskTimedOutEventAttributes_StartedEventId : option Z;
  ActivityTaskTimedOutEventAttributes_TimeoutType : option TimeoutType;
  ActivityTaskTimedOutEventAttributes_LastFailureReason : option string;
  ActivityTaskTimedOutEventAttributes_LastFailureDetails : bytes;
  ActivityTaskTimedOutEventAttributes_LastFailureOptions : option FailureOptions }.

Record TimerStartedEventAttributes := MkTimerStartedEventAttributes {
  TimerStartedEventAttributes_TimerId : option string;
  TimerStartedEventAttributes_StartToFireTimeoutSeconds : option Z;
  TimerStartedEventAttributes_DecisionTaskCompletedEventId : option Z }.

Record TimerFiredEventAttributes := MkTimerFiredEventAttributes {
  TimerFiredEventAttributes_TimerId : option string;
  TimerFiredEventAttributes_StartedEventId : option Z }.

Record ActivityTaskCancelRequestedEventAttributes := MkActivityTaskCancelRequestedEventAttributes {
  ActivityTaskCancelRequestedEventAttributes_ActivityId : option string;
  ActivityTaskCancelRequestedEventAttributes_DecisionTaskCompletedEventId : option Z }.

Record RequestCancelActivityTaskFailedEventAttributes := MkRequestCancelActivityTaskFailedEventAttributes {
  RequestCancelActivityTaskFailedEventAttributes_ActivityId : option string;
  RequestCancelActivityTaskFailedEventAttributes_Cause : option string;
  RequestCancelActivityTaskFailedEventAttributes_DecisionTaskCompletedEventId : option Z }.

Record ActivityTaskCanceledEventAttributes := MkActivityTaskCanceledEventAttributes {
  ActivityTaskCanceledEventAttributes_Details : bytes;
  ActivityTaskCanceledEventAttributes_LatestCancelRequestedEventId : option Z;
  ActivityTaskCanceledEventAttributes_ScheduledEventId : option Z;
  ActivityTaskCanceledEventAttributes_StartedEventId : option Z;
  ActivityTaskCanceledEventAttributes_Identity : option string }.

Record TimerCanceledEventAttributes := MkTimerCanceledEventAttributes {
  TimerCanceledEventAttributes_TimerId : option string;
  TimerCanceledEventAttributes_StartedEventId : option Z;
  TimerCanceledEventAttributes_DecisionTaskCompletedEventId : option Z;
  TimerCanceledEventAttributes_Identity : option string }.

Record CancelTimerFailedEventAttributes := MkCancelTimerFailedEventAttributes {
  CancelTimerFailedEventAttributes_TimerId : option string;
  CancelTimerFailedEventAttributes_Cause : option string;
  CancelTimerFailedEventAttributes_DecisionTaskCompletedEventId : option Z;
  CancelTimerFailedEventAttributes_Identity : option string }.

Record MarkerRecordedEventAttributes := MkMarkerRecordedEventAttributes {
  MarkerRecordedEventAttributes_MarkerName : option string;
  MarkerRecordedEventAttributes_Details : bytes;
  MarkerRecordedEventAttributes_DecisionTaskCompletedEventId : option Z;
  MarkerRecordedEventAttributes_Header : option Header }.

Record WorkflowExecutionSignaledEventAttributes := MkWorkflowExecutionSignaledEventAttributes {
  WorkflowExecutionSignaledEventAttributes_SignalName : option string;
  WorkflowExecutionSignaledEventAttributes_Input : bytes;
  WorkflowExecutionSignaledEventAttributes_Identity : option string;
  WorkflowExecutionSignaledEventAttributes_RequestId : option string }.

Record WorkflowExecutionTerminatedEventAttributes := MkWorkflowExecutionTerminatedEventAttributes {
  WorkflowExecutionTerminatedEventAttributes_Reason : option string;
  WorkflowExecutionTerminatedEventAttributes_Details : bytes;
  WorkflowExecutionTerminatedEventAttributes_Identity : option string }.

Record WorkflowExecutionCancelRequestedEventAttributes := MkWorkflowExecutionCancelRequestedEventAttributes {
  WorkflowExecutionCancelRequestedEventAttributes_Cause : option string;
  WorkflowExecutionCancelRequestedEventAttributes_ExternalInitiatedEventId : option Z;
  WorkflowExecutionCancelRequestedEventAttributes_ExternalWorkflowExecution : option WorkflowExecution;
  WorkflowExecutionCancelRequestedEventAttributes_Identity : option string;
  WorkflowExecutionCancelRequestedEventAttributes_RequestId : option string }.

Record WorkflowExecutionCanceledEventAttributes := MkWorkflowExecutionCanceledEventAttributes {
  WorkflowExecutionCanceledEventAttributes_DecisionTaskCompletedEventId : option Z;
  WorkflowExecutionCanceledEventAttributes_Details : bytes }.

Record RequestCancelExternalWorkflowExecutionInitiatedEventAttributes := MkRequestCancelExternalWorkflowExecutionInitiatedEventAttributes {
  RequestCancelExternalWorkflowExecutionInitiatedEventAttributes_DecisionTaskCompletedEventId : option Z;
  RequestCancelExternalWorkflowExecutionInitiatedEventAttributes_Domain : option string;
  RequestCancelExternalWorkflowExecutionInitiatedEventAttributes_WorkflowExecution : option WorkflowExecution;
  RequestCancelExternalWorkflowExecutionInitiatedEventAttributes_Control : bytes;
  RequestCancelExternalWorkflowExecutionInitiatedEventAttributes_ChildWorkflowOnly : option bool }.

Inductive CancelExternalWorkflowExecutionFailedCause :=
| CancelExternalWorkflowExecutionFailedCauseUnknownExternalWorkflowExecution
| CancelExternalWorkflowExecutionFailedCauseWorkflowAlreadyCompleted
| CancelExternalWorkflowExecutionFailedCauseUnknown (value : Z).

Record RequestCancelExternalWorkflowExecutionFailedEventAttributes := MkRequestCancelExternalWorkflowExecutionFailedEventAttributes {
  RequestCancelExternalWorkflowExecutionFailedEventAttributes_Cause : option CancelExternalWorkflowExecutionFailedCause;
  RequestCancelExternalWorkflowExecutionFailedEventAttributes_DecisionTaskCompletedEventId : option Z;
  RequestCancelExternalWorkflowExecutionFailedEventAttributes_Domain : option string;
  RequestCancelExternalWorkflowExecutionFailedEventAttributes_WorkflowExecution : option WorkflowExecution;
  RequestCancelExternalWorkflowExecutionFailedEventAttributes_InitiatedEventId : option Z;
  RequestCancelExternalWorkflowExecutionFailedEventAttributes_Control : bytes }.

Record ExternalWorkflowExecutionCancelRequestedEventAttributes := MkExternalWorkflowExecutionCancelRequestedEventAttributes {
  ExternalWorkflowExecutionCancelRequestedEventAttributes_InitiatedEventId : option Z;
  ExternalWorkflowExecutionCancelRequestedEventAttributes_Domain : option string;
  ExternalWorkflowExecutionCancelRequestedEventAttributes_WorkflowExecution : option WorkflowExecution }.

Record WorkflowExecutionContinuedAsNewEventAttributes := MkWorkflowExecutionContinuedAsNewEventAttributes {
  WorkflowExecutionContinuedAsNewEventAttributes_NewExecutionRunId : option string;
  WorkflowExecutionContinuedAsNewEventAttributes_WorkflowType : option WorkflowType;
  WorkflowExecutionContinuedAsNewEventAttributes_TaskList : option TaskList;
  WorkflowExecutionContinuedAsNewEventAttributes_Input : bytes;
  WorkflowExecutionContinuedAsNewEventAttributes_ExecutionStartToCloseTimeoutSeconds : option Z;
  WorkflowExecutionContinuedAsNewEventAttributes_TaskStartToCloseTimeoutSeconds : option Z;
  WorkflowExecutionContinuedAsNewEventAttributes_DecisionTaskCompletedEventId : option Z;
  WorkflowExecutionContinuedAsNewEventAttributes_BackoffStartIntervalInSeconds : option Z;
  WorkflowExecutionContinuedAsNewEventAttributes_Initiator : option ContinueAsNewInitiator;
  WorkflowExecutionContinuedAsNewEventAttributes_FailureReason : option string;
  WorkflowExecutionContinuedAsNewEventAttributes_FailureDetails : bytes;
  WorkflowExecutionContinuedAsNewEventAttributes_LastCompletionResult : bytes;
  WorkflowExecutionContinuedAsNewEventAttributes_Header : option Header;
  WorkflowExecutionContinuedAsNewEventAttributes_Memo : option Memo;
  WorkflowExecutionContinuedAsNewEventAttributes_SearchAttributes : option SearchAttributes;
  WorkflowExecutionContinuedAsNewEventAttributes_CronOverlapPolicy : option CronOverlapPolicy;
  WorkflowExecutionContinuedAsNewEventAttributes_ActiveClusterSelectionPolicy : option ActiveClusterSelectionPolicy }.

Record StartChildWorkflowExecutionInitiatedEventAttributes := MkStartChildWorkflowExecutionInitiatedEventAttributes {
  StartChildWorkflowExecutionInitiatedEventAttributes_Domain : option string;
  StartChildWorkflowExecutionInitiatedEventAttributes_WorkflowId : option string;
  StartChildWorkflowExecutionInitiatedEventAttributes_WorkflowType : option WorkflowType;
  StartChildWorkflowExecutionInitiatedEventAttributes_TaskList : option TaskList;
  StartChildWorkflowExecutionInitiatedEventAttributes_Input : bytes;
  StartChildWorkflowExecutionInitiatedEventAttributes_ExecutionStartToCloseTimeoutSeconds : option Z;
  StartChildWorkflowExecutionInitiatedEventAttributes_TaskStartToCloseTimeoutSeconds : option Z;
  StartChildWorkflowExecutionInitiatedEventAttributes_ParentClosePolicy : option ParentClosePolicy;
  StartChildWorkflowExecutionInitiatedEventAttributes_Control : bytes;
  StartChildWorkflowExecutionInitiatedEventAttributes_DecisionTaskCompletedEventId : option Z;
  StartChildWorkflowExecutionInitiatedEventAttributes_WorkflowIdReusePolicy : option WorkflowIdReusePolicy;
  StartChildWorkflowExecutionInitiatedEventAttributes_RetryPolicy : option RetryPolicy;
  StartChildWorkflowExecutionInitiatedEventAttributes_CronSchedule : option string;
  StartChildWorkflowExecutionInitiatedEventAttributes_Header : option Header;
  StartChildWorkflowExecutionInitiatedEventAttributes_Memo : option Memo;
  StartChildWorkflowExecutionInitiatedEventAttributes_SearchAttributes : option SearchAttributes;
  StartChildWorkflowExecutionInitiatedEventAttributes_DelayStartSeconds : option Z;
  StartChildWorkflowExecutionInitiatedEventAttributes_JitterStartSeconds : option Z;
  StartChildWorkflowExecutionInitiatedEventAttributes_FirstRunAtTimestamp : option Z;
  StartChildWorkflowExecutionInitiatedEventAttributes_CronOverlapPolicy : option CronOverlapPolicy;
  StartChildWorkflowExecutionInitiatedEventAttributes_ActiveClusterSelectionPolicy : option ActiveClusterSelectionPolicy }.

Inductive ChildWorkflowExecutionFailedCause :=
| ChildWorkflowExecutionFailedCauseWorkflowAlreadyRunning
| ChildWorkflowExecutionFailedCauseUnknown (value : Z).

Record StartChildWorkflowExecutionFailedEventAttributes := MkStartChildWorkflowExecutionFailedEventAttributes {
  StartChildWorkflowExecutionFailedEventAttributes_Domain : option string;
  StartChildWorkflowExecutionFailedEventAttributes_WorkflowId : option string;
  StartChildWorkflowExecutionFailedEventAttributes_WorkflowType : option WorkflowType;
  StartChildWorkflowExecutionFailedEventAttributes_Cause : option ChildWorkflowExecutionFailedCause;
  StartChildWorkflowExecutionFailedEventAttributes_Control : bytes;
  StartChildWorkflowExecutionFailedEventAttributes_InitiatedEventId : option Z;
  StartChildWorkflowExecutionFailedEventAttributes_DecisionTaskCompletedEventId : option Z }.

Record ChildWorkflowExecutionStartedEventAttributes := MkChildWorkflowExecutionStartedEventAttributes {
  ChildWorkflowExecutionStartedEventAttributes_Domain : option string;
  ChildWorkflowExecutionStartedEventAttributes_InitiatedEventId : option Z;
  ChildWorkflowExecutionStartedEventAttributes_WorkflowExecution : option WorkflowExecution;
  ChildWorkflowExecutionStartedEventAttributes_WorkflowType : option WorkflowType;
  ChildWorkflowExecutionStartedEventAttributes_Header : option Header }.

Record ChildWorkflowExecutionCompletedEventAttributes := MkChildWorkflowExecutionCompletedEventAttributes {
  ChildWorkflowExecutionCompletedEventAttributes_Result : bytes;
  ChildWorkflowExecutionCompletedEventAttributes_Domain : option string;
  ChildWorkflowExecutionCompletedEventAttributes_WorkflowExecution : option WorkflowExecution;
  ChildWorkflowExecutionCompletedEventAttributes_WorkflowType : option WorkflowType;
  ChildWorkflowExecutionCompletedEventAttributes_InitiatedEventId : option Z;
  ChildWorkflowExecutionCompletedEventAttributes_StartedEventId : option Z }.

Record ChildWorkflowExecutionFailedEventAttributes := MkChildWorkflowExecutionFailedEventAttributes {
  ChildWorkflowExecutionFailedEventAttributes_Reason : option string;
  ChildWorkflowExecutionFailedEventAttributes_Details : bytes;
  ChildWorkflowExecutionFailedEventAttributes_Domain : option string;
  ChildWorkflowExecutionFailedEventAttributes_WorkflowExecution : option WorkflowExecution;
  ChildWorkflowExecutionFailedEventAttributes_WorkflowType : option WorkflowType;
  ChildWorkflowExecutionFailedEventAttributes_InitiatedEventId : option Z;
  ChildWorkflowExecutionFailedEventAttributes_StartedEventId : option Z }.

Record ChildWorkflowExecutionCanceledEventAttributes := MkChildWorkflowExecutionCanceledEventAttributes {
  ChildWorkflowExecutionCanceledEventAttributes_Details : bytes;
  ChildWorkflowExecutionCanceledEventAttributes_Domain : option string;
  ChildWorkflowExecutionCanceledEventAttributes_WorkflowExecution : option WorkflowExecution;
  ChildWorkflowExecutionCanceledEventAttributes_WorkflowType : option WorkflowType;
  ChildWorkflowExecutionCanceledEventAttributes_InitiatedEventId : option Z;
  ChildWorkflowExecutionCanceledEventAttributes_StartedEventId : option Z }.

Record ChildWorkflowExecutionTimedOutEventAttributes := MkChildWorkflowExecutionTimedOutEventAttributes {
  ChildWorkflowExecutionTimedOutEventAttributes_TimeoutType : option TimeoutType;
  ChildWorkflowExecutionTimedOutEventAttributes_Domain : option string;
  ChildWorkflowExecutionTimedOutEventAttributes_WorkflowExecution : option WorkflowExecution;
  ChildWorkflowExecutionTimedOutEventAttributes_WorkflowType : option WorkflowType;
  ChildWorkflowExecutionTimedOutEventAttributes_InitiatedEventId : option Z;
  ChildWorkflowExecutionTimedOutEventAttributes_StartedEventId : option Z }.

Record ChildWorkflowExecutionTerminatedEventAttributes := MkChildWorkflowExecutionTerminatedEventAttributes {
  ChildWorkflowExecutionTerminatedEventAttributes_Domain : option string;
  ChildWorkflowExecutionTerminatedEventAttributes_WorkflowExecution : option WorkflowExecution;
  ChildWorkflowExecutionTerminatedEventAttributes_WorkflowType : option WorkflowType;
  ChildWorkflowExecutionTerminatedEventAttributes_InitiatedEventId : option Z;
  ChildWorkflowExecutionTerminatedEventAttributes_StartedEventId : option Z }.

Record SignalExternalWorkflowExecutionInitiatedEventAttributes := MkSignalExternalWorkflowExecutionInitiatedEventAttributes {
  SignalExternalWorkflowExecutionInitiatedEventAttributes_DecisionTaskCompletedEventId : option Z;
  SignalExternalWorkflowExecutionInitiatedEventAttributes_Domain : option string;
  SignalExternalWorkflowExecutionInitiatedEventAttributes_WorkflowExecution : option WorkflowExecution;
  SignalExternalWorkflowExecutionInitiatedEventAttributes_SignalName : option string;
  SignalExternalWorkflowExecutionInitiatedEventAttributes_Input : bytes;
  SignalExternalWorkflowExecutionInitiatedEventAttributes_Control : bytes;
  SignalExternalWorkflowExecutionInitiatedEventAttributes_ChildWorkflowOnly : option bool }.

Inductive SignalExternalWorkflowExecutionFailedCause :=
| SignalExternalWorkflowExecutionFailedCauseUnknownExternalWorkflowExecution
| SignalExternalWorkflowExecutionFailedCauseWorkflowAlreadyCompleted
| SignalExternalWorkflowExecutionFailedCauseUnknown (value : Z).

Record SignalExternalWorkflowExecutionFailedEventAttributes := MkSignalExternalWorkflowExecutionFailedEventAttributes {
  SignalExternalWorkflowExecutionFailedEventAttributes_Cause : option SignalExternalWorkflowExecutionFailedCause;
  SignalExternalWorkflowExecutionFailedEventAttributes_DecisionTaskCompletedEventId : option Z;
  SignalExternalWorkflowExecutionFailedEventAttributes_Domain : option string;
  SignalExternalWorkflowExecutionFailedEventAttributes_WorkflowExecution : option WorkflowExecution;
  SignalExternalWorkflowExecutionFailedEventAttributes_InitiatedEventId : option Z;
  SignalExternalWorkflowExecutionFailedEventAttributes_Control : bytes }.

Record ExternalWorkflowExecutionSignaledEventAttributes := MkExternalWorkflowExecutionSignaledEventAttributes {
  ExternalWorkflowExecutionSignaledEventAttributes_InitiatedEventId : option Z;
  ExternalWorkflowExecutionSignaledEventAttributes_Domain : option string;
  ExternalWorkflowExecutionSignaledEventAttributes_WorkflowExecution : option WorkflowExecution;
  ExternalWorkflowExecutionSignaledEventAttributes_Control : bytes }.

Record UpsertWorkflowSearchAttributesEventAttributes := MkUpsertWorkflowSearchAttributesEventAttributes {
  UpsertWorkflowSearchAttributesEventAttributes_DecisionTaskCompletedEventId : option Z;
  UpsertWorkflowSearchAttributesEventAttributes_SearchAttributes : option SearchAttributes }.

Record HistoryEvent := MkHistoryEvent {
  HistoryEvent_EventId : option Z;
  HistoryEvent_Timestamp : option Z;
  HistoryEvent_EventType : option EventType;
  HistoryEvent_Version : option Z;
  HistoryEvent_TaskId : option Z;
  HistoryEvent_WorkflowExecutionStartedEventAttributes : option WorkflowExecutionStartedEventAttributes;
  HistoryEvent_WorkflowExecutionCompletedEventAttributes : option WorkflowExecutionCompletedEventAttributes;
  HistoryEvent_WorkflowExecutionFailedEventAttributes : option WorkflowExecutionFailedEventAttributes;
  HistoryEvent_WorkflowExecutionTimedOutEventAttributes : option WorkflowExecutionTimedOutEventAttributes;
  HistoryEvent_DecisionTaskScheduledEventAttributes : option DecisionTaskScheduledEventAttributes;
  HistoryEvent_DecisionTaskStartedEventAttributes : option DecisionTaskStartedEventAttributes;
  HistoryEvent_DecisionTaskCompletedEventAttributes : option DecisionTaskCompletedEventAttributes;
  HistoryEvent_DecisionTaskTimedOutEventAttributes : option DecisionTaskTimedOutEventAttributes;
  HistoryEvent_DecisionTaskFailedEventAttributes : option DecisionTaskFailedEventAttributes;
  HistoryEvent_ActivityTaskScheduledEventAttributes : option ActivityTaskScheduledEventAttributes;
  HistoryEvent_ActivityTaskStartedEventAttributes : option ActivityTaskStartedEventAttributes;
  HistoryEvent_ActivityTaskCompletedEventAttributes : option ActivityTaskCompletedEventAttributes;
  HistoryEvent_ActivityTaskFailedEventAttributes : option ActivityTaskFailedEventAttributes;
  HistoryEvent_ActivityTaskTimedOutEventAttributes : option ActivityTaskTimedOutEventAttributes;
  HistoryEvent_TimerStartedEventAttributes : option TimerStartedEventAttributes;
  HistoryEvent_TimerFiredEventAttributes : option TimerFiredEventAttributes;
  HistoryEvent_ActivityTaskCancelRequestedEventAttributes : option ActivityTaskCancelRequestedEventAttributes;
  HistoryEvent_RequestCancelActivityTaskFailedEventAttributes : option RequestCancelActivityTaskFailedEventAttributes;
  HistoryEvent_ActivityTaskCanceledEventAttributes : option ActivityTaskCanceledEventAttributes;
  HistoryEvent_TimerCanceledEventAttributes : option TimerCanceledEventAttributes;
  HistoryEvent_CancelTimerFailedEventAttributes : option CancelTimerFailedEventAttributes;
  HistoryEvent_MarkerRecordedEventAttributes : option MarkerRecordedEventAttributes;
  HistoryEvent_WorkflowExecutionSignaledEventAttributes : option WorkflowExecutionSignaledEventAttributes;
  HistoryEvent_WorkflowExecutionTerminatedEventAttributes : option WorkflowExecutionTerminatedEventAttributes;
  HistoryEvent_WorkflowExecutionCancelRequestedEventAttributes : option WorkflowExecutionCancelRequestedEventAttributes;
  HistoryEvent_WorkflowExecutionCanceledEventAttributes : option WorkflowExecutionCanceledEventAttributes;
  HistoryEvent_RequestCancelExternalWorkflowExecutionInitiatedEventAttributes : option RequestCancelExternalWorkflowExecutionInitiatedEventAttributes;
  HistoryEvent_RequestCancelExternalWorkflowExecutionFailedEventAttributes : option RequestCancelExternalWorkflowExecutionFailedEventAttributes;
  HistoryEvent_ExternalWorkflowExecutionCancelRequestedEventAttributes : option ExternalWorkflowExecutionCancelRequestedEventAttributes;
  HistoryEvent_WorkflowExecutionContinuedAsNewEventAttributes : option WorkflowExecutionContinuedAsNewEventAttributes;
  HistoryEvent_StartChildWorkflowExecutionInitiatedEventAttributes : option StartChildWorkflowExecutionInitiatedEventAttributes;
  HistoryEvent_StartChildWorkflowExecutionFailedEventAttributes : option StartChildWorkflowExecutionFailedEventAttributes;
  HistoryEvent_ChildWorkflowExecutionStartedEventAttributes : option ChildWorkflowExecutionStartedEventAttributes;
  HistoryEvent_ChildWorkflowExecutionCompletedEventAttributes : option ChildWorkflowExecutionCompletedEventAttributes;
  HistoryEvent_ChildWorkflowExecutionFailedEventAttributes : option ChildWorkflowExecutionFailedEventAttributes;
  HistoryEvent_ChildWorkflowExecutionCanceledEventAttributes : option ChildWorkflowExecutionCanceledEventAttributes;
  HistoryEvent_ChildWorkflowExecutionTimedOutEventAttributes : option ChildWorkflowExecutionTimedOutEventAttributes;
  HistoryEvent_ChildWorkflowExecutionTerminatedEventAttributes : option ChildWorkflowExecutionTerminatedEventAttributes;
  HistoryEvent_SignalExternalWorkflowExecutionInitiatedEventAttributes : option SignalExternalWorkflowExecutionInitiatedEventAttributes;
  HistoryEvent_SignalExternalWorkflowExecutionFailedEventAttributes : option SignalExternalWorkflowExecutionFailedEventAttributes;
  HistoryEvent_ExternalWorkflowExecutionSignaledEventAttributes : option ExternalWorkflowExecutionSignaledEventAttributes;
  HistoryEvent_UpsertWorkflowSearchAttributesEventAttributes : option UpsertWorkflowSearchAttributesEventAttributes }.

Record AutoConfigHint := MkAutoConfigHint {
  AutoConfigHint_EnableAutoConfig : option bool;
  AutoConfigHint_PollerWaitTimeInMs : option Z }.

Inductive TaskListType :=
| TaskListTypeDecision
| TaskListTypeActivity
| TaskListTypeUnknown (value : Z).

Inductive HistoryEventFilterType :=
| HistoryEventFilterTypeAllEvent
| HistoryEventFilterTypeCloseEvent
| HistoryEventFilterTypeUnknown (value : Z).

Inductive QueryRejectCondition :=
| QueryRejectConditionNotOpen
| QueryRejectConditionNotCompletedCleanly
| QueryRejectConditionUnknown (value : Z).

Inductive QueryConsistencyLevel :=
| QueryConsistencyLevelEventual
| QueryConsistencyLevelStrong
| QueryConsistencyLevelUnknown (value : Z).

Inductive QueryResultType :=
| QueryResultTypeAnswered
| QueryResultTypeFailed
| QueryResultTypeUnknown (value : Z).

Inductive ArchivalStatus :=
| ArchivalStatusDisabled
| ArchivalStatusEnabled
| ArchivalStatusUnknown (value : Z).

Inductive WorkflowExecutionCloseStatus :=
| WorkflowExecutionCloseStatusCompleted
| WorkflowExecutionCloseStatusFailed
| WorkflowExecutionCloseStatusCanceled
| WorkflowExecutionCloseStatusTerminated
| WorkflowExecutionCloseStatusContinuedAsNew
| WorkflowExecutionCloseStatusTimedOut
| WorkflowExecutionCloseStatusUnknown (value : Z).

Inductive QueryTaskCompletedType :=
| QueryTaskCompletedTypeCompleted
| QueryTaskCompletedTypeFailed
| QueryTaskCompletedTypeUnknown (value : Z).

Inductive DomainStatus :=
| DomainStatusRegistered
| DomainStatusDeprecated
| DomainStatusDeleted
| DomainStatusUnknown (value : Z).

Inductive PendingActivityState :=
| PendingActivityStateScheduled
| PendingActivityStateStarted
| PendingActivityStateCancelRequested
| PendingActivityStateUnknown (value : Z).

Inductive PendingDecisionState :=
| PendingDecisionStateScheduled
| PendingDecisionStateStarted
| PendingDecisionStateUnknown (value : Z).

Inductive IndexedValueType :=
| IndexedValueTypeString
| IndexedValueTypeKeyword
| IndexedValueTypeInt
| IndexedValueTypeDouble
| IndexedValueTypeBool
| IndexedValueTypeDatetime
| IndexedValueTypeUnknown (value : Z).

Inductive EncodingType :=
| EncodingTypeThriftRW
| EncodingTypeJSON
| EncodingTypeUnknown (value : Z).

Inductive FailoverType :=
| FailoverTypeInvalid
| FailoverTypeForce
| FailoverTypeGraceful
| FailoverTypeUnknown (value : Z).

Record WorkflowQuery := MkWorkflowQuery {
  WorkflowQuery_QueryType : option string;
  WorkflowQuery_QueryArgs : bytes }.

(** The struct [History] has the single field [Events], which holds no nil
    pointers. *)
Record PollForDecisionTaskResponse := MkPollForDecisionTaskResponse {
  PollForDecisionTaskResponse_TaskToken : bytes;
  PollForDecisionTaskResponse_WorkflowExecution : option WorkflowExecution;
  PollForDecisionTaskResponse_WorkflowType : option WorkflowType;
  PollForDecisionTaskResponse_PreviousStartedEventId : option Z;
  PollForDecisionTaskResponse_StartedEventId : option Z;
  PollForDecisionTaskResponse_Attempt : option Z;
  PollForDecisionTaskResponse_BacklogCountHint : option Z;
  PollForDecisionTaskResponse_History : option (list HistoryEvent);
  PollForDecisionTaskResponse_NextPageToken : bytes;
  PollForDecisionTaskResponse_Query : option WorkflowQuery;
  PollForDecisionTaskResponse_WorkflowExecutionTaskList : option TaskList;
  PollForDecisionTaskResponse_ScheduledTimestamp : option Z;
  PollForDecisionTaskResponse_StartedTimestamp : option Z;
  PollForDecisionTaskResponse_Queries : option (gmap string (option WorkflowQuery));
  PollForDecisionTaskResponse_NextEventId : option Z;
  PollForDecisionTaskResponse_TotalHistoryBytes : option Z;
  PollForDecisionTaskResponse_AutoConfigHint : option AutoConfigHint }.

Record StickyExecutionAttributes := MkStickyExecutionAttributes {
  StickyExecutionAttributes_WorkerTaskList : option TaskList;
  StickyExecutionAttributes_ScheduleToStartTimeoutSeconds : option Z }.

Record WorkflowQueryResult := MkWorkflowQueryResult {
  WorkflowQueryResult_ResultType : option QueryResultType;
  WorkflowQueryResult_Answer : bytes;
  WorkflowQueryResult_ErrorMessage : option string }.

Record RespondDecisionTaskCompletedRequest := MkRespondDecisionTaskCompletedRequest {
  RespondDecisionTaskCompletedRequest_TaskToken : bytes;
  RespondDecisionTaskCompletedRequest_Decisions : list Decision;
  RespondDecisionTaskCompletedRequest_ExecutionContext : bytes;
  RespondDecisionTaskCompletedRequest_Identity : option string;
  RespondDecisionTaskCompletedRequest_StickyAttributes : option StickyExecutionAttributes;
  RespondDecisionTaskCompletedRequest_ReturnNewDecisionTask : option bool;
  RespondDecisionTaskCompletedRequest_ForceCreateNewDecisionTask : option bool;
  RespondDecisionTaskCompletedRequest_BinaryChecksum : option string;
  RespondDecisionTaskCompletedRequest_QueryResults : option (gmap string WorkflowQueryResult) }.

Record RespondDecisionTaskFailedRequest := MkRespondDecisionTaskFailedRequest {
  RespondDecisionTaskFailedRequest_TaskToken : bytes;
  RespondDecisionTaskFailedRequest_Cause : option DecisionTaskFailedCause;
  RespondDecisionTaskFailedRequest_Details : bytes;
  RespondDecisionTaskFailedRequest_Identity : option string;
  RespondDecisionTaskFailedRequest_BinaryChecksum : option string }.

Record WorkerVersionInfo := MkWorkerVersionInfo {
  WorkerVersionInfo_Impl : option string;
  WorkerVersionInfo_FeatureVersion : option string }.

Record RespondQueryTaskCompletedRequest := MkRespondQueryTaskCompletedRequest {
  RespondQueryTaskCompletedRequest_TaskToken : bytes;
  RespondQueryTaskCompletedRequest_CompletedType : option QueryTaskCompletedType;
  RespondQueryTaskCompletedRequest_QueryResult : bytes;
  RespondQueryTaskCompletedRequest_ErrorMessage : option string;
  RespondQueryTaskCompletedRequest_WorkerVersionInfo : option WorkerVersionInfo }.

(** The zero values of the two variant structs, and the assignments to their
    fields ([d.F = v] in the source). *)

Definition Decision_nil : Decision := MkDecision
    None None None None None None None None None None None None None None.

Definition HistoryEvent_nil : HistoryEvent := MkHistoryEvent
    None None None None None None None None None None None None None None None None None None None None
    None None None None None None None None None None None None None None None None None None None None
    None None None None None None None.

Definition set_Decision_DecisionType (v : option DecisionType) (r : Decision) : Decision :=
  MkDecision v (Decision_ScheduleActivityTaskDecisionAttributes r) (Decision_StartTimerDecisionAttributes r)
    (Decision_CompleteWorkflowExecutionDecisionAttributes r)
    (Decision_FailWorkflowExecutionDecisionAttributes r)
    (Decision_RequestCancelActivityTaskDecisionAttributes r) (Decision_CancelTimerDecisionAttributes r)
    (Decision_CancelWorkflowExecutionDecisionAttributes r)
    (Decision_RequestCancelExternalWorkflowExecutionDecisionAttributes r)
    (Decision_RecordMarkerDecisionAttributes r)
    (Decision_ContinueAsNewWorkflowExecutionDecisionAttributes r)
    (Decision_StartChildWorkflowExecutionDecisionAttributes r)
    (Decision_SignalExternalWorkflowExecutionDecisionAttributes r)
    (Decision_UpsertWorkflowSearchAttributesDecisionAttributes r).

Definition set_Decision_ScheduleActivityTaskDecisionAttributes (v : option ScheduleActivityTaskDecisionAttributes) (r : Decision) : Decision :=
  MkDecision (Decision_DecisionType r) v (Decision_StartTimerDecisionAttributes r)
    (Decision_CompleteWorkflowExecutionDecisionAttributes r)
    (Decision_FailWorkflowExecutionDecisionAttributes r)
    (Decision_RequestCancelActivityTaskDecisionAttributes r) (Decision_CancelTimerDecisionAttributes r)
    (Decision_CancelWorkflowExecutionDecisionAttributes r)
    (Decision_RequestCancelExternalWorkflowExecutionDecisionAttributes r)
    (Decision_RecordMarkerDecisionAttributes r)
    (Decision_ContinueAsNewWorkflowExecutionDecisionAttributes r)
    (Decision_StartChildWorkflowExecutionDecisionAttributes r)
    (Decision_SignalExternalWorkflowExecutionDecisionAttributes r)
    (Decision_UpsertWorkflowSearchAttributesDecisionAttributes r).

Definition set_Decision_StartTimerDecisionAttributes (v : option StartTimerDecisionAttributes) (r : Decision) : Decision :=
  MkDecision (Decision_DecisionType r) (Decision_ScheduleActivityTaskDecisionAttributes r) v
    (Decision_CompleteWorkflowExecutionDecisionAttributes r)
    (Decision_FailWorkflowExecutionDecisionAttributes r)
    (Decision_RequestCancelActivityTaskDecisionAttributes r) (Decision_CancelTimerDecisionAttributes r)
    (Decision_CancelWorkflowExecutionDecisionAttributes r)
    (Decision_RequestCancelExternalWorkflowExecutionDecisionAttributes r)
    (Decision_RecordMarkerDecisionAttributes r)
    (Decision_ContinueAsNewWorkflowExecutionDecisionAttributes r)
    (Decision_StartChildWorkflowExecutionDecisionAttributes r)
    (Decision_SignalExternalWorkflowExecutionDecisionAttributes r)
    (Decision_UpsertWorkflowSearchAttributesDecisionAttributes r).

Definition set_Decision_CompleteWorkflowExecutionDecisionAttributes (v : option CompleteWorkflowExecutionDecisionAttributes) (r : Decision) : Decision :=
  MkDecision (Decision_DecisionType r) (Decision_ScheduleActivityTaskDecisionAttributes r)
    (Decision_StartTimerDecisionAttributes r) v (Decision_FailWorkflowExecutionDecisionAttributes r)
    (Decision_RequestCancelActivityTaskDecisionAttributes r) (Decision_CancelTimerDecisionAttributes r)
    (Decision_CancelWorkflowExecutionDecisionAttributes r)
    (Decision_RequestCancelExternalWorkflowExecutionDecisionAttributes r)
    (Decision_RecordMarkerDecisionAttributes r)
    (Decision_ContinueAsNewWorkflowExecutionDecisionAttributes r)
    (Decision_StartChildWorkflowExecutionDecisionAttributes r)
    (Decision_SignalExternalWorkflowExecutionDecisionAttributes r)
    (Decision_UpsertWorkflowSearchAttributesDecisionAttributes r).

Definition set_Decision_FailWorkflowExecutionDecisionAttributes (v : option FailWorkflowExecutionDecisionAttributes) (r : Decision) : Decision :=
  MkDecision (Decision_DecisionType r) (Decision_ScheduleActivityTaskDecisionAttributes r)
    (Decision_StartTimerDecisionAttributes r) (Decision_CompleteWorkflowExecutionDecisionAttributes r) v
    (Decision_RequestCancelActivityTaskDecisionAttributes r) (Decision_CancelTimerDecisionAttributes r)
    (Decision_CancelWorkflowExecutionDecisionAttributes r)
    (Decision_RequestCancelExternalWorkflowExecutionDecisionAttributes r)
    (Decision_RecordMarkerDecisionAttributes r)
    (Decision_ContinueAsNewWorkflowExecutionDecisionAttributes r)
    (Decision_StartChildWorkflowExecutionDecisionAttributes r)
    (Decision_SignalExternalWorkflowExecutionDecisionAttributes r)
    (Decision_UpsertWorkflowSearchAttributesDecisionAttributes r).

Definition set_Decision_RequestCancelActivityTaskDecisionAttributes (v : option RequestCancelActivityTaskDecisionAttributes) (r : Decision) : Decision :=
  MkDecision (Decision_DecisionType r) (Decision_ScheduleActivityTaskDecisionAttributes r)
    (Decision_StartTimerDecisionAttributes r) (Decision_CompleteWorkflowExecutionDecisionAttributes r)
    (Decision_FailWorkflowExecutionDecisionAttributes r) v (Decision_CancelTimerDecisionAttributes r)
    (Decision_CancelWorkflowExecutionDecisionAttributes r)
    (Decision_RequestCancelExternalWorkflowExecutionDecisionAttributes r)
    (Decision_RecordMarkerDecisionAttributes r)
    (Decision_ContinueAsNewWorkflowExecutionDecisionAttributes r)
    (Decision_StartChildWorkflowExecutionDecisionAttributes r)
    (Decision_SignalExternalWorkflowExecutionDecisionAttributes r)
    (Decision_UpsertWorkflowSearchAttributesDecisionAttributes r).

Definition set_Decision_CancelTimerDecisionAttributes (v : option CancelTimerDecisionAttributes) (r : Decision) : Decision :=
  MkDecision (Decision_DecisionType r) (Decision_ScheduleActivityTaskDecisionAttributes r)
    (Decision_StartTimerDecisionAttributes r) (Decision_CompleteWorkflowExecutionDecisionAttributes r)
    (Decision_FailWorkflowExecutionDecisionAttributes r)
    (Decision_RequestCancelActivityTaskDecisionAttributes r) v
    (Decision_CancelWorkflowExecutionDecisionAttributes r)
    (Decision_RequestCancelExternalWorkflowExecutionDecisionAttributes r)
    (Decision_RecordMarkerDecisionAttributes r)
    (Decision_ContinueAsNewWorkflowExecutionDecisionAttributes r)
    (Decision_StartChildWorkflowExecutionDecisionAttributes r)
    (Decision_SignalExternalWorkflowExecutionDecisionAttributes r)
    (Decision_UpsertWorkflowSearchAttributesDecisionAttributes r).

Definition set_Decision_CancelWorkflowExecutionDecisionAttributes (v : option CancelWorkflowExecutionDecisionAttributes) (r : Decision) : Decision :=
  MkDecision (Decision_DecisionType r) (Decision_ScheduleActivityTaskDecisionAttributes r)
    (Decision_StartTimerDecisionAttributes r) (Decision_CompleteWorkflowExecutionDecisionAttributes r)
    (Decision_FailWorkflowExecutionDecisionAttributes r)
    (Decision_RequestCancelActivityTaskDecisionAttributes r) (Decision_CancelTimerDecisionAttributes r) v
    (Decision_RequestCancelExternalWorkflowExecutionDecisionAttributes r)
    (Decision_RecordMarkerDecisionAttributes r)
    (Decision_ContinueAsNewWorkflowExecutionDecisionAttributes r)
    (Decision_StartChildWorkflowExecutionDecisionAttributes r)
    (Decision_SignalExternalWorkflowExecutionDecisionAttributes r)
    (Decision_UpsertWorkflowSearchAttributesDecisionAttributes r).

Definition set_Decision_RequestCancelExternalWorkflowExecutionDecisionAttributes (v : option RequestCancelExternalWorkflowExecutionDecisionAttributes) (r : Decision) : Decision :=
  MkDecision (Decision_DecisionType r) (Decision_ScheduleActivityTaskDecisionAttributes r)
    (Decision_StartTimerDecisionAttributes r) (Decision_CompleteWorkflowExecutionDecisionAttributes r)
    (Decision_FailWorkflowExecutionDecisionAttributes r)
    (Decision_RequestCancelActivityTaskDecisionAttributes r) (Decision_CancelTimerDecisionAttributes r)
    (Decision_CancelWorkflowExecutionDecisionAttributes r) v (Decision_RecordMarkerDecisionAttributes r)
    (Decision_ContinueAsNewWorkflowExecutionDecisionAttributes r)
    (Decision_StartChildWorkflowExecutionDecisionAttributes r)
    (Decision_SignalExternalWorkflowExecutionDecisionAttributes r)
    (Decision_UpsertWorkflowSearchAttributesDecisionAttributes r).

Definition set_Decision_RecordMarkerDecisionAttributes (v : option RecordMarkerDecisionAttributes) (r : Decision) : Decision :=
  MkDecision (Decision_DecisionType r) (Decision_ScheduleActivityTaskDecisionAttributes r)
    (Decision_StartTimerDecisionAttributes r) (Decision_CompleteWorkflowExecutionDecisionAttributes r)
    (Decision_FailWorkflowExecutionDecisionAttributes r)
    (Decision_RequestCancelActivityTaskDecisionAttributes r) (Decision_CancelTimerDecisionAttributes r)
    (Decision_CancelWorkflowExecutionDecisionAttributes r)
    (Decision_RequestCancelExternalWorkflowExecutionDecisionAttributes r) v
    (Decision_ContinueAsNewWorkflowExecutionDecisionAttributes r)
    (Decision_StartChildWorkflowExecutionDecisionAttributes r)
    (Decision_SignalExternalWorkflowExecutionDecisionAttributes r)
    (Decision_UpsertWorkflowSearchAttributesDecisionAttributes r).

Definition set_Decision_ContinueAsNewWorkflowExecutionDecisionAttributes (v : option ContinueAsNewWorkflowExecutionDecisionAttributes) (r : Decision) : Decision :=
  MkDecision (Decision_DecisionType r) (Decision_ScheduleActivityTaskDecisionAttributes r)
    (Decision_StartTimerDecisionAttributes r) (Decision_CompleteWorkflowExecutionDecisionAttributes r)
    (Decision_FailWorkflowExecutionDecisionAttributes r)
    (Decision_RequestCancelActivityTaskDecisionAttributes r) (Decision_CancelTimerDecisionAttributes r)
    (Decision_CancelWorkflowExecutionDecisionAttributes r)
    (Decision_RequestCancelExternalWorkflowExecutionDecisionAttributes r)
    (Decision_RecordMarkerDecisionAttributes r) v
    (Decision_StartChildWorkflowExecutionDecisionAttributes r)
    (Decision_SignalExternalWorkflowExecutionDecisionAttributes r)
    (Decision_UpsertWorkflowSearchAttributesDecisionAttributes r).

Definition set_Decision_StartChildWorkflowExecutionDecisionAttributes (v : option StartChildWorkflowExecutionDecisionAttributes) (r : Decision) : Decision :=
  MkDecision (Decision_DecisionType r) (Decision_ScheduleActivityTaskDecisionAttributes r)
    (Decision_StartTimerDecisionAttributes r) (Decision_CompleteWorkflowExecutionDecisionAttributes r)
    (Decision_FailWorkflowExecutionDecisionAttributes r)
    (Decision_RequestCancelActivityTaskDecisionAttributes r) (Decision_CancelTimerDecisionAttributes r)
    (Decision_CancelWorkflowExecutionDecisionAttributes r)
    (Decision_RequestCancelExternalWorkflowExecutionDecisionAttributes r)
    (Decision_RecordMarkerDecisionAttributes r)
    (Decision_ContinueAsNewWorkflowExecutionDecisionAttributes r) v
    (Decision_SignalExternalWorkflowExecutionDecisionAttributes r)
    (Decision_UpsertWorkflowSearchAttributesDecisionAttributes r).

Definition set_Decision_SignalExternalWorkflowExecutionDecisionAttributes (v : option SignalExternalWorkflowExecutionDecisionAttributes) (r : Decision) : Decision :=
  MkDecision (Decision_DecisionType r) (Decision_ScheduleActivityTaskDecisionAttributes r)
    (Decision_StartTimerDecisionAttributes r) (Decision_CompleteWorkflowExecutionDecisionAttributes r)
    (Decision_FailWorkflowExecutionDecisionAttributes r)
    (Decision_RequestCancelActivityTaskDecisionAttributes r) (Decision_CancelTimerDecisionAttributes r)
    (Decision_CancelWorkflowExecutionDecisionAttributes r)
    (Decision_RequestCancelExternalWorkflowExecutionDecisionAttributes r)
    (Decision_RecordMarkerDecisionAttributes r)
    (Decision_ContinueAsNewWorkflowExecutionDecisionAttributes r)
    (Decision_StartChildWorkflowExecutionDecisionAttributes r) v
    (Decision_UpsertWorkflowSearchAttributesDecisionAttributes r).

Definition set_Decision_UpsertWorkflowSearchAttributesDecisionAttributes (v : option UpsertWorkflowSearchAttributesDecisionAttributes) (r : Decision) : Decision :=
  MkDecision (Decision_DecisionType r) (Decision_ScheduleActivityTaskDecisionAttributes r)
    (Decision_StartTimerDecisionAttributes r) (Decision_CompleteWorkflowExecutionDecisionAttributes r)
    (Decision_FailWorkflowExecutionDecisionAttributes r)
    (Decision_RequestCancelActivityTaskDecisionAttributes r) (Decision_CancelTimerDecisionAttributes r)
    (Decision_CancelWorkflowExecutionDecisionAttributes r)
    (Decision_RequestCancelExternalWorkflowExecutionDecisionAttributes r)
    (Decision_RecordMarkerDecisionAttributes r)
    (Decision_ContinueAsNewWorkflowExecutionDecisionAttributes r)
    (Decision_StartChildWorkflowExecutionDecisionAttributes r)
    (Decision_SignalExternalWorkflowExecutionDecisionAttributes r) v.

Definition set_HistoryEvent_EventId (v : option Z) (r : HistoryEvent) : HistoryEvent :=
  MkHistoryEvent v (HistoryEvent_Timestamp r) (HistoryEvent_EventType r) (HistoryEvent_Version r)
    (HistoryEvent_TaskId r) (HistoryEvent_WorkflowExecutionStartedEventAttributes r)
    (HistoryEvent_WorkflowExecutionCompletedEventAttributes r)
    (HistoryEvent_WorkflowExecutionFailedEventAttributes r)
    (HistoryEvent_WorkflowExecutionTimedOutEventAttributes r)
    (HistoryEvent_DecisionTaskScheduledEventAttributes r)
    (HistoryEvent_DecisionTaskStartedEventAttributes r)
    (HistoryEvent_DecisionTaskCompletedEventAttributes r)
    (HistoryEvent_DecisionTaskTimedOutEventAttributes r)
    (HistoryEvent_DecisionTaskFailedEventAttributes r)
    (HistoryEvent_ActivityTaskScheduledEventAttributes r)
    (HistoryEvent_ActivityTaskStartedEventAttributes r)
    (HistoryEvent_ActivityTaskCompletedEventAttributes r)
    (HistoryEvent_ActivityTaskFailedEventAttributes r)
    (HistoryEvent_ActivityTaskTimedOutEventAttributes r) (HistoryEvent_TimerStartedEventAttributes r)
    (HistoryEvent_TimerFiredEventAttributes r)
    (HistoryEvent_ActivityTaskCancelRequestedEventAttributes r)
    (HistoryEvent_RequestCancelActivityTaskFailedEventAttributes r)
    (HistoryEvent_ActivityTaskCanceledEventAttributes r) (HistoryEvent_TimerCanceledEventAttributes r)
    (HistoryEvent_CancelTimerFailedEventAttributes r) (HistoryEvent_MarkerRecordedEventAttributes r)
    (HistoryEvent_WorkflowExecutionSignaledEventAttributes r)
    (HistoryEvent_WorkflowExecutionTerminatedEventAttributes r)
    (HistoryEvent_WorkflowExecutionCancelRequestedEventAttributes r)
    (HistoryEvent_WorkflowExecutionCanceledEventAttributes r)
    (HistoryEvent_RequestCancelExternalWorkflowExecutionInitiatedEventAttributes r)
    (HistoryEvent_RequestCancelExternalWorkflowExecutionFailedEventAttributes r)
    (HistoryEvent_ExternalWorkflowExecutionCancelRequestedEventAttributes r)
    (HistoryEvent_WorkflowExecutionContinuedAsNewEventAttributes r)
    (HistoryEvent_StartChildWorkflowExecutionInitiatedEventAttributes r)
    (HistoryEvent_StartChildWorkflowExecutionFailedEventAttributes r)
    (HistoryEvent_ChildWorkflowExecutionStartedEventAttributes r)
    (HistoryEvent_ChildWorkflowExecutionCompletedEventAttributes r)
    (HistoryEvent_ChildWorkflowExecutionFailedEventAttributes r)
    (HistoryEvent_ChildWorkflowExecutionCanceledEventAttributes r)
    (HistoryEvent_ChildWorkflowExecutionTimedOutEventAttributes r)
    (HistoryEvent_ChildWorkflowExecutionTerminatedEventAttributes r)
    (HistoryEvent_SignalExternalWorkflowExecutionInitiatedEventAttributes r)
    (HistoryEvent_SignalExternalWorkflowExecutionFailedEventAttributes r)
    (HistoryEvent_ExternalWorkflowExecutionSignaledEventAttributes r)
    (HistoryEvent_UpsertWorkflowSearchAttributesEventAttributes r).

Definition set_HistoryEvent_EventType (v : option EventType) (r : HistoryEvent) : HistoryEvent :=
  MkHistoryEvent (HistoryEvent_EventId r) (HistoryEvent_Timestamp r) v (HistoryEvent_Version r)
    (HistoryEvent_TaskId r) (HistoryEvent_WorkflowExecutionStartedEventAttributes r)
    (HistoryEvent_WorkflowExecutionCompletedEventAttributes r)
    (HistoryEvent_WorkflowExecutionFailedEventAttributes r)
    (HistoryEvent_WorkflowExecutionTimedOutEventAttributes r)
    (HistoryEvent_DecisionTaskScheduledEventAttributes r)
    (HistoryEvent_DecisionTaskStartedEventAttributes r)
    (HistoryEvent_DecisionTaskCompletedEventAttributes r)
    (HistoryEvent_DecisionTaskTimedOutEventAttributes r)
    (HistoryEvent_DecisionTaskFailedEventAttributes r)
    (HistoryEvent_ActivityTaskScheduledEventAttributes r)
    (HistoryEvent_ActivityTaskStartedEventAttributes r)
    (HistoryEvent_ActivityTaskCompletedEventAttributes r)
    (HistoryEvent_ActivityTaskFailedEventAttributes r)
    (HistoryEvent_ActivityTaskTimedOutEventAttributes r) (HistoryEvent_TimerStartedEventAttributes r)
    (HistoryEvent_TimerFiredEventAttributes r)
    (HistoryEvent_ActivityTaskCancelRequestedEventAttributes r)
    (HistoryEvent_RequestCancelActivityTaskFailedEventAttributes r)
    (HistoryEvent_ActivityTaskCanceledEventAttributes r) (HistoryEvent_TimerCanceledEventAttributes r)
    (HistoryEvent_CancelTimerFailedEventAttributes r) (HistoryEvent_MarkerRecordedEventAttributes r)
    (HistoryEvent_WorkflowExecutionSignaledEventAttributes r)
    (HistoryEvent_WorkflowExecutionTerminatedEventAttributes r)
    (HistoryEvent_WorkflowExecutionCancelRequestedEventAttributes r)
    (HistoryEvent_WorkflowExecutionCanceledEventAttributes r)
    (HistoryEvent_RequestCancelExternalWorkflowExecutionInitiatedEventAttributes r)
    (HistoryEvent_RequestCancelExternalWorkflowExecutionFailedEventAttributes r)
    (HistoryEvent_ExternalWorkflowExecutionCancelRequestedEventAttributes r)
    (HistoryEvent_WorkflowExecutionContinuedAsNewEventAttributes r)
    (HistoryEvent_StartChildWorkflowExecutionInitiatedEventAttributes r)
    (HistoryEvent_StartChildWorkflowExecutionFailedEventAttributes r)
    (HistoryEvent_ChildWorkflowExecutionStartedEventAttributes r)
    (HistoryEvent_ChildWorkflowExecutionCompletedEventAttributes r)
    (HistoryEvent_ChildWorkflowExecutionFailedEventAttributes r)
    (HistoryEvent_ChildWorkflowExecutionCanceledEventAttributes r)
    (HistoryEvent_ChildWorkflowExecutionTimedOutEventAttributes r)
    (HistoryEvent_ChildWorkflowExecutionTerminatedEventAttributes r)
    (HistoryEvent_SignalExternalWorkflowExecutionInitiatedEventAttributes r)
    (HistoryEvent_SignalExternalWorkflowExecutionFailedEventAttributes r)
    (HistoryEvent_ExternalWorkflowExecutionSignaledEventAttributes r)
    (HistoryEvent_UpsertWorkflowSearchAttributesEventAttributes r).

Definition set_HistoryEvent_ActivityTaskScheduledEventAttributes (v : option ActivityTaskScheduledEventAttributes) (r : HistoryEvent) : HistoryEvent :=
  MkHistoryEvent (HistoryEvent_EventId r) (HistoryEvent_Timestamp r) (HistoryEvent_EventType r)
    (HistoryEvent_Version r) (HistoryEvent_TaskId r)
    (HistoryEvent_WorkflowExecutionStartedEventAttributes r)
    (HistoryEvent_WorkflowExecutionCompletedEventAttributes r)
    (HistoryEvent_WorkflowExecutionFailedEventAttributes r)
    (HistoryEvent_WorkflowExecutionTimedOutEventAttributes r)
    (HistoryEvent_DecisionTaskScheduledEventAttributes r)
    (HistoryEvent_DecisionTaskStartedEventAttributes r)
    (HistoryEvent_DecisionTaskCompletedEventAttributes r)
    (HistoryEvent_DecisionTaskTimedOutEventAttributes r)
    (HistoryEvent_DecisionTaskFailedEventAttributes r) v
    (HistoryEvent_ActivityTaskStartedEventAttributes r)
    (HistoryEvent_ActivityTaskCompletedEventAttributes r)
    (HistoryEvent_ActivityTaskFailedEventAttributes r)
    (HistoryEvent_ActivityTaskTimedOutEventAttributes r) (HistoryEvent_TimerStartedEventAttributes r)
    (HistoryEvent_TimerFiredEventAttributes r)
    (HistoryEvent_ActivityTaskCancelRequestedEventAttributes r)
    (HistoryEvent_RequestCancelActivityTaskFailedEventAttributes r)
    (HistoryEvent_ActivityTaskCanceledEventAttributes r) (HistoryEvent_TimerCanceledEventAttributes r)
    (HistoryEvent_CancelTimerFailedEventAttributes r) (HistoryEvent_MarkerRecordedEventAttributes r)
    (HistoryEvent_WorkflowExecutionSignaledEventAttributes r)
    (HistoryEvent_WorkflowExecutionTerminatedEventAttributes r)
    (HistoryEvent_WorkflowExecutionCancelRequestedEventAttributes r)
    (HistoryEvent_WorkflowExecutionCanceledEventAttributes r)
    (HistoryEvent_RequestCancelExternalWorkflowExecutionInitiatedEventAttributes r)
    (HistoryEvent_RequestCancelExternalWorkflowExecutionFailedEventAttributes r)
    (HistoryEvent_ExternalWorkflowExecutionCancelRequestedEventAttributes r)
    (HistoryEvent_WorkflowExecutionContinuedAsNewEventAttributes r)
    (HistoryEvent_StartChildWorkflowExecutionInitiatedEventAttributes r)
    (HistoryEvent_StartChildWorkflowExecutionFailedEventAttributes r)
    (HistoryEvent_ChildWorkflowExecutionStartedEventAttributes r)
    (HistoryEvent_ChildWorkflowExecutionCompletedEventAttributes r)
    (HistoryEvent_ChildWorkflowExecutionFailedEventAttributes r)
    (HistoryEvent_ChildWorkflowExecutionCanceledEventAttributes r)
    (HistoryEvent_ChildWorkflowExecutionTimedOutEventAttributes r)
    (HistoryEvent_ChildWorkflowExecutionTerminatedEventAttributes r)
    (HistoryEvent_SignalExternalWorkflowExecutionInitiatedEventAttributes r)
    (HistoryEvent_SignalExternalWorkflowExecutionFailedEventAttributes r)
    (HistoryEvent_ExternalWorkflowExecutionSignaledEventAttributes r)
    (HistoryEvent_UpsertWorkflowSearchAttributesEventAttributes r).

Definition set_HistoryEvent_ActivityTaskCompletedEventAttributes (v : option ActivityTaskCompletedEventAttributes) (r : HistoryEvent) : HistoryEvent :=
  MkHistoryEvent (HistoryEvent_EventId r) (HistoryEvent_Timestamp r) (HistoryEvent_EventType r)
    (HistoryEvent_Version r) (HistoryEvent_TaskId r)
    (HistoryEvent_WorkflowExecutionStartedEventAttributes r)
    (HistoryEvent_WorkflowExecutionCompletedEventAttributes r)
    (HistoryEvent_WorkflowExecutionFailedEventAttributes r)
    (HistoryEvent_WorkflowExecutionTimedOutEventAttributes r)
    (HistoryEvent_DecisionTaskScheduledEventAttributes r)
    (HistoryEvent_DecisionTaskStartedEventAttributes r)
    (HistoryEvent_DecisionTaskCompletedEventAttributes r)
    (HistoryEvent_DecisionTaskTimedOutEventAttributes r)
    (HistoryEvent_DecisionTaskFailedEventAttributes r)
    (HistoryEvent_ActivityTaskScheduledEventAttributes r)
    (HistoryEvent_ActivityTaskStartedEventAttributes r) v
    (HistoryEvent_ActivityTaskFailedEventAttributes r)
    (HistoryEvent_ActivityTaskTimedOutEventAttributes r) (HistoryEvent_TimerStartedEventAttributes r)
    (HistoryEvent_TimerFiredEventAttributes r)
    (HistoryEvent_ActivityTaskCancelRequestedEventAttributes r)
    (HistoryEvent_RequestCancelActivityTaskFailedEventAttributes r)
    (HistoryEvent_ActivityTaskCanceledEventAttributes r) (HistoryEvent_TimerCanceledEventAttributes r)
    (HistoryEvent_CancelTimerFailedEventAttributes r) (HistoryEvent_MarkerRecordedEventAttributes r)
    (HistoryEvent_WorkflowExecutionSignaledEventAttributes r)
    (HistoryEvent_WorkflowExecutionTerminatedEventAttributes r)
    (HistoryEvent_WorkflowExecutionCancelRequestedEventAttributes r)
    (HistoryEvent_WorkflowExecutionCanceledEventAttributes r)
    (HistoryEvent_RequestCancelExternalWorkflowExecutionInitiatedEventAttributes r)
    (HistoryEvent_RequestCancelExternalWorkflowExecutionFailedEventAttributes r)
    (HistoryEvent_ExternalWorkflowExecutionCancelRequestedEventAttributes r)
    (HistoryEvent_WorkflowExecutionContinuedAsNewEventAttributes r)
    (HistoryEvent_StartChildWorkflowExecutionInitiatedEventAttributes r)
    (HistoryEvent_StartChildWorkflowExecutionFailedEventAttributes r)
    (HistoryEvent_ChildWorkflowExecutionStartedEventAttributes r)
    (HistoryEvent_ChildWorkflowExecutionCompletedEventAttributes r)
    (HistoryEvent_ChildWorkflowExecutionFailedEventAttributes r)
    (HistoryEvent_ChildWorkflowExecutionCanceledEventAttributes r)
    (HistoryEvent_ChildWorkflowExecutionTimedOutEventAttributes r)
    (HistoryEvent_ChildWorkflowExecutionTerminatedEventAttributes r)
    (HistoryEvent_SignalExternalWorkflowExecutionInitiatedEventAttributes r)
    (HistoryEvent_SignalExternalWorkflowExecutionFailedEventAttributes r)
    (HistoryEvent_ExternalWorkflowExecutionSignaledEventAttributes r)
    (HistoryEvent_UpsertWorkflowSearchAttributesEventAttributes r).

Definition set_HistoryEvent_DecisionTaskCompletedEventAttributes (v : option DecisionTaskCompletedEventAttributes)
    (r : HistoryEvent) : HistoryEvent :=
  MkHistoryEvent (HistoryEvent_EventId r) (HistoryEvent_Timestamp r) (HistoryEvent_EventType r)
    (HistoryEvent_Version r) (HistoryEvent_TaskId r)
    (HistoryEvent_WorkflowExecutionStartedEventAttributes r)
    (HistoryEvent_WorkflowExecutionCompletedEventAttributes r)
    (HistoryEvent_WorkflowExecutionFailedEventAttributes r)
    (HistoryEvent_WorkflowExecutionTimedOutEventAttributes r)
    (HistoryEvent_DecisionTaskScheduledEventAttributes r)
    (HistoryEvent_DecisionTaskStartedEventAttributes r) v
    (HistoryEvent_DecisionTaskTimedOutEventAttributes r)
    (HistoryEvent_DecisionTaskFailedEventAttributes r)
    (HistoryEvent_ActivityTaskScheduledEventAttributes r)
    (HistoryEvent_ActivityTaskStartedEventAttributes r)
    (HistoryEvent_ActivityTaskCompletedEventAttributes r)
    (HistoryEvent_ActivityTaskFailedEventAttributes r)
    (HistoryEvent_ActivityTaskTimedOutEventAttributes r)
    (HistoryEvent_TimerStartedEventAttributes r) (HistoryEvent_TimerFiredEventAttributes r)
    (HistoryEvent_ActivityTaskCancelRequestedEventAttributes r)
    (HistoryEvent_RequestCancelActivityTaskFailedEventAttributes r)
    (HistoryEvent_ActivityTaskCanceledEventAttributes r)
    (HistoryEvent_TimerCanceledEventAttributes r) (HistoryEvent_CancelTimerFailedEventAttributes r)
    (HistoryEvent_MarkerRecordedEventAttributes r)
    (HistoryEvent_WorkflowExecutionSignaledEventAttributes r)
    (HistoryEvent_WorkflowExecutionTerminatedEventAttributes r)
    (HistoryEvent_WorkflowExecutionCancelRequestedEventAttributes r)
    (HistoryEvent_WorkflowExecutionCanceledEventAttributes r)
    (HistoryEvent_RequestCancelExternalWorkflowExecutionInitiatedEventAttributes r)
    (HistoryEvent_RequestCancelExternalWorkflowExecutionFailedEventAttributes r)
    (HistoryEvent_ExternalWorkflowExecutionCancelRequestedEventAttributes r)
    (HistoryEvent_WorkflowExecutionContinuedAsNewEventAttributes r)
    (HistoryEvent_StartChildWorkflowExecutionInitiatedEventAttributes r)
    (HistoryEvent_StartChildWorkflowExecutionFailedEventAttributes r)
    (HistoryEvent_ChildWorkflowExecutionStartedEventAttributes r)
    (HistoryEvent_ChildWorkflowExecutionCompletedEventAttributes r)
    (HistoryEvent_ChildWorkflowExecutionFailedEventAttributes r)
    (HistoryEvent_ChildWorkflowExecutionCanceledEventAttributes r)
    (HistoryEvent_ChildWorkflowExecutionTimedOutEventAttributes r)
    (HistoryEvent_ChildWorkflowExecutionTerminatedEventAttributes r)
    (HistoryEvent_SignalExternalWorkflowExecutionInitiatedEventAttributes r)
    (HistoryEvent_SignalExternalWorkflowExecutionFailedEventAttributes r)
    (HistoryEvent_ExternalWorkflowExecutionSignaledEventAttributes r)
    (HistoryEvent_UpsertWorkflowSearchAttributesEventAttributes r).

Definition set_HistoryEvent_TimerStartedEventAttributes (v : option TimerStartedEventAttributes) (r : HistoryEvent) : HistoryEvent :=
  MkHistoryEvent (HistoryEvent_EventId r) (HistoryEvent_Timestamp r) (HistoryEvent_EventType r)
    (HistoryEvent_Version r) (HistoryEvent_TaskId r)
    (HistoryEvent_WorkflowExecutionStartedEventAttributes r)
    (HistoryEvent_WorkflowExecutionCompletedEventAttributes r)
    (HistoryEvent_WorkflowExecutionFailedEventAttributes r)
    (HistoryEvent_WorkflowExecutionTimedOutEventAttributes r)
    (HistoryEvent_DecisionTaskScheduledEventAttributes r)
    (HistoryEvent_DecisionTaskStartedEventAttributes r)
    (HistoryEvent_DecisionTaskCompletedEventAttributes r)
    (HistoryEvent_DecisionTaskTimedOutEventAttributes r)
    (HistoryEvent_DecisionTaskFailedEventAttributes r)
    (HistoryEvent_ActivityTaskScheduledEventAttributes r)
    (HistoryEvent_ActivityTaskStartedEventAttributes r)
    (HistoryEvent_ActivityTaskCompletedEventAttributes r)
    (HistoryEvent_ActivityTaskFailedEventAttributes r)
    (HistoryEvent_ActivityTaskTimedOutEventAttributes r) v (HistoryEvent_TimerFiredEventAttributes r)
    (HistoryEvent_ActivityTaskCancelRequestedEventAttributes r)
    (HistoryEvent_RequestCancelActivityTaskFailedEventAttributes r)
    (HistoryEvent_ActivityTaskCanceledEventAttributes r) (HistoryEvent_TimerCanceledEventAttributes r)
    (HistoryEvent_CancelTimerFailedEventAttributes r) (HistoryEvent_MarkerRecordedEventAttributes r)
    (HistoryEvent_WorkflowExecutionSignaledEventAttributes r)
    (HistoryEvent_WorkflowExecutionTerminatedEventAttributes r)
    (HistoryEvent_WorkflowExecutionCancelRequestedEventAttributes r)
    (HistoryEvent_WorkflowExecutionCanceledEventAttributes r)
    (HistoryEvent_RequestCancelExternalWorkflowExecutionInitiatedEventAttributes r)
    (HistoryEvent_RequestCancelExternalWorkflowExecutionFailedEventAttributes r)
    (HistoryEvent_ExternalWorkflowExecutionCancelRequestedEventAttributes r)
    (HistoryEvent_WorkflowExecutionContinuedAsNewEventAttributes r)
    (HistoryEvent_StartChildWorkflowExecutionInitiatedEventAttributes r)
    (HistoryEvent_StartChildWorkflowExecutionFailedEventAttributes r)
    (HistoryEvent_ChildWorkflowExecutionStartedEventAttributes r)
    (HistoryEvent_ChildWorkflowExecutionCompletedEventAttributes r)
    (HistoryEvent_ChildWorkflowExecutionFailedEventAttributes r)
    (HistoryEvent_ChildWorkflowExecutionCanceledEventAttributes r)
    (HistoryEvent_ChildWorkflowExecutionTimedOutEventAttributes r)
    (HistoryEvent_ChildWorkflowExecutionTerminatedEventAttributes r)
    (HistoryEvent_SignalExternalWorkflowExecutionInitiatedEventAttributes r)
    (HistoryEvent_SignalExternalWorkflowExecutionFailedEventAttributes r)
    (HistoryEvent_ExternalWorkflowExecutionSignaledEventAttributes r)
    (HistoryEvent_UpsertWorkflowSearchAttributesEventAttributes r).

Definition set_HistoryEvent_WorkflowExecutionStartedEventAttributes (v : option WorkflowExecutionStartedEventAttributes) (r : HistoryEvent) : HistoryEvent :=
  MkHistoryEvent (HistoryEvent_EventId r) (HistoryEvent_Timestamp r) (HistoryEvent_EventType r)
    (HistoryEvent_Version r) (HistoryEvent_TaskId r)
    v
    (HistoryEvent_WorkflowExecutionCompletedEventAttributes r)
    (HistoryEvent_WorkflowExecutionFailedEventAttributes r)
    (HistoryEvent_WorkflowExecutionTimedOutEventAttributes r)
    (HistoryEvent_DecisionTaskScheduledEventAttributes r)
    (HistoryEvent_DecisionTaskStartedEventAttributes r)
    (HistoryEvent_DecisionTaskCompletedEventAttributes r)
    (HistoryEvent_DecisionTaskTimedOutEventAttributes r)
    (HistoryEvent_DecisionTaskFailedEventAttributes r)
    (HistoryEvent_ActivityTaskScheduledEventAttributes r)
    (HistoryEvent_ActivityTaskStartedEventAttributes r)
    (HistoryEvent_ActivityTaskCompletedEventAttributes r)
    (HistoryEvent_ActivityTaskFailedEventAttributes r)
    (HistoryEvent_ActivityTaskTimedOutEventAttributes r) (HistoryEvent_TimerStartedEventAttributes r)
    (HistoryEvent_TimerFiredEventAttributes r)
    (HistoryEvent_ActivityTaskCancelRequestedEventAttributes r)
    (HistoryEvent_RequestCancelActivityTaskFailedEventAttributes r)
    (HistoryEvent_ActivityTaskCanceledEventAttributes r) (HistoryEvent_TimerCanceledEventAttributes r)
    (HistoryEvent_CancelTimerFailedEventAttributes r) (HistoryEvent_MarkerRecordedEventAttributes r)
    (HistoryEvent_WorkflowExecutionSignaledEventAttributes r)
    (HistoryEvent_WorkflowExecutionTerminatedEventAttributes r)
    (HistoryEvent_WorkflowExecutionCancelRequestedEventAttributes r)
    (HistoryEvent_WorkflowExecutionCanceledEventAttributes r)
    (HistoryEvent_RequestCancelExternalWorkflowExecutionInitiatedEventAttributes r)
    (HistoryEvent_RequestCancelExternalWorkflowExecutionFailedEventAttributes r)
    (HistoryEvent_ExternalWorkflowExecutionCancelRequestedEventAttributes r)
    (HistoryEvent_WorkflowExecutionContinuedAsNewEventAttributes r)
    (HistoryEvent_StartChildWorkflowExecutionInitiatedEventAttributes r)
    (HistoryEvent_StartChildWorkflowExecutionFailedEventAttributes r)
    (HistoryEvent_ChildWorkflowExecutionStartedEventAttributes r)
    (HistoryEvent_ChildWorkflowExecutionCompletedEventAttributes r)
    (HistoryEvent_ChildWorkflowExecutionFailedEventAttributes r)
    (HistoryEvent_ChildWorkflowExecutionCanceledEventAttributes r)
    (HistoryEvent_ChildWorkflowExecutionTimedOutEventAttributes r)
    (HistoryEvent_ChildWorkflowExecutionTerminatedEventAttributes r)
    (HistoryEvent_SignalExternalWorkflowExecutionInitiatedEventAttributes r)
    (HistoryEvent_SignalExternalWorkflowExecutionFailedEventAttributes r)
    (HistoryEvent_ExternalWorkflowExecutionSignaledEventAttributes r)
    (HistoryEvent_UpsertWorkflowSearchAttributesEventAttributes r).

Definition set_HistoryEvent_MarkerRecordedEventAttributes (v : option MarkerRecordedEventAttributes) (r : HistoryEvent) : HistoryEvent :=
  MkHistoryEvent (HistoryEvent_EventId r) (HistoryEvent_Timestamp r) (HistoryEvent_EventType r)
    (HistoryEvent_Version r) (HistoryEvent_TaskId r)
    (HistoryEvent_WorkflowExecutionStartedEventAttributes r)
    (HistoryEvent_WorkflowExecutionCompletedEventAttributes r)
    (HistoryEvent_WorkflowExecutionFailedEventAttributes r)
    (HistoryEvent_WorkflowExecutionTimedOutEventAttributes r)
    (HistoryEvent_DecisionTaskScheduledEventAttributes r)
    (HistoryEvent_DecisionTaskStartedEventAttributes r)
    (HistoryEvent_DecisionTaskCompletedEventAttributes r)
    (HistoryEvent_DecisionTaskTimedOutEventAttributes r)
    (HistoryEvent_DecisionTaskFailedEventAttributes r)
    (HistoryEvent_ActivityTaskScheduledEventAttributes r)
    (HistoryEvent_ActivityTaskStartedEventAttributes r)
    (HistoryEvent_ActivityTaskCompletedEventAttributes r)
    (HistoryEvent_ActivityTaskFailedEventAttributes r)
    (HistoryEvent_ActivityTaskTimedOutEventAttributes r) (HistoryEvent_TimerStartedEventAttributes r)
    (HistoryEvent_TimerFiredEventAttributes r)
    (HistoryEvent_ActivityTaskCancelRequestedEventAttributes r)
    (HistoryEvent_RequestCancelActivityTaskFailedEventAttributes r)
    (HistoryEvent_ActivityTaskCanceledEventAttributes r) (HistoryEvent_TimerCanceledEventAttributes r)
    (HistoryEvent_CancelTimerFailedEventAttributes r) v
    (HistoryEvent_WorkflowExecutionSignaledEventAttributes r)
    (HistoryEvent_WorkflowExecutionTerminatedEventAttributes r)
    (HistoryEvent_WorkflowExecutionCancelRequestedEventAttributes r)
    (HistoryEvent_WorkflowExecutionCanceledEventAttributes r)
    (HistoryEvent_RequestCancelExternalWorkflowExecutionInitiatedEventAttributes r)
    (HistoryEvent_RequestCancelExternalWorkflowExecutionFailedEventAttributes r)
    (HistoryEvent_ExternalWorkflowExecutionCancelRequestedEventAttributes r)
    (HistoryEvent_WorkflowExecutionContinuedAsNewEventAttributes r)
    (HistoryEvent_StartChildWorkflowExecutionInitiatedEventAttributes r)
    (HistoryEvent_StartChildWorkflowExecutionFailedEventAttributes r)
    (HistoryEvent_ChildWorkflowExecutionStartedEventAttributes r)
    (HistoryEvent_ChildWorkflowExecutionCompletedEventAttributes r)
    (HistoryEvent_ChildWorkflowExecutionFailedEventAttributes r)
    (HistoryEvent_ChildWorkflowExecutionCanceledEventAttributes r)
    (HistoryEvent_ChildWorkflowExecutionTimedOutEventAttributes r)
    (HistoryEvent_ChildWorkflowExecutionTerminatedEventAttributes r)
    (HistoryEvent_SignalExternalWorkflowExecutionInitiatedEventAttributes r)
    (HistoryEvent_SignalExternalWorkflowExecutionFailedEventAttributes r)
    (HistoryEvent_ExternalWorkflowExecutionSignaledEventAttributes r)
    (HistoryEvent_UpsertWorkflowSearchAttributesEventAttributes r).

Definition set_HistoryEvent_UpsertWorkflowSearchAttributesEventAttributes (v : option UpsertWorkflowSearchAttributesEventAttributes) (r : HistoryEvent) : HistoryEvent :=
  MkHistoryEvent (HistoryEvent_EventId r) (HistoryEvent_Timestamp r) (HistoryEvent_EventType r)
    (HistoryEvent_Version r) (HistoryEvent_TaskId r)
    (HistoryEvent_WorkflowExecutionStartedEventAttributes r)
    (HistoryEvent_WorkflowExecutionCompletedEventAttributes r)
    (HistoryEvent_WorkflowExecutionFailedEventAttributes r)
    (HistoryEvent_WorkflowExecutionTimedOutEventAttributes r)
    (HistoryEvent_DecisionTaskScheduledEventAttributes r)
    (HistoryEvent_DecisionTaskStartedEventAttributes r)
    (HistoryEvent_DecisionTaskCompletedEventAttributes r)
    (HistoryEvent_DecisionTaskTimedOutEventAttributes r)
    (HistoryEvent_DecisionTaskFailedEventAttributes r)
    (HistoryEvent_ActivityTaskScheduledEventAttributes r)
    (HistoryEvent_ActivityTaskStartedEventAttributes r)
    (HistoryEvent_ActivityTaskCompletedEventAttributes r)
    (HistoryEvent_ActivityTaskFailedEventAttributes r)
    (HistoryEvent_ActivityTaskTimedOutEventAttributes r) (HistoryEvent_TimerStartedEventAttributes r)
    (HistoryEvent_TimerFiredEventAttributes r)
    (HistoryEvent_ActivityTaskCancelRequestedEventAttributes r)
    (HistoryEvent_RequestCancelActivityTaskFailedEventAttributes r)
    (HistoryEvent_ActivityTaskCanceledEventAttributes r) (HistoryEvent_TimerCanceledEventAttributes r)
    (HistoryEvent_CancelTimerFailedEventAttributes r) (HistoryEvent_MarkerRecordedEventAttributes r)
    (HistoryEvent_WorkflowExecutionSignaledEventAttributes r)
    (HistoryEvent_WorkflowExecutionTerminatedEventAttributes r)
    (HistoryEvent_WorkflowExecutionCancelRequestedEventAttributes r)
    (HistoryEvent_WorkflowExecutionCanceledEventAttributes r)
    (HistoryEvent_RequestCancelExternalWorkflowExecutionInitiatedEventAttributes r)
    (HistoryEvent_RequestCancelExternalWorkflowExecutionFailedEventAttributes r)
    (HistoryEvent_ExternalWorkflowExecutionCancelRequestedEventAttributes r)
    (HistoryEvent_WorkflowExecutionContinuedAsNewEventAttributes r)
    (HistoryEvent_StartChildWorkflowExecutionInitiatedEventAttributes r)
    (HistoryEvent_StartChildWorkflowExecutionFailedEventAttributes r)
    (HistoryEvent_ChildWorkflowExecutionStartedEventAttributes r)
    (HistoryEvent_ChildWorkflowExecutionCompletedEventAttributes r)
    (HistoryEvent_ChildWorkflowExecutionFailedEventAttributes r)
    (HistoryEvent_ChildWorkflowExecutionCanceledEventAttributes r)
    (HistoryEvent_ChildWorkflowExecutionTimedOutEventAttributes r)
    (HistoryEvent_ChildWorkflowExecutionTerminatedEventAttributes r)
    (HistoryEvent_SignalExternalWorkflowExecutionInitiatedEventAttributes r)
    (HistoryEvent_SignalExternalWorkflowExecutionFailedEventAttributes r)
    (HistoryEvent_ExternalWorkflowExecutionSignaledEventAttributes r) v.

Definition set_HistoryEvent_StartChildWorkflowExecutionInitiatedEventAttributes (v : option StartChildWorkflowExecutionInitiatedEventAttributes) (r : HistoryEvent) : HistoryEvent :=
  MkHistoryEvent (HistoryEvent_EventId r) (HistoryEvent_Timestamp r) (HistoryEvent_EventType r)
    (HistoryEvent_Version r) (HistoryEvent_TaskId r)
    (HistoryEvent_WorkflowExecutionStartedEventAttributes r)
    (HistoryEvent_WorkflowExecutionCompletedEventAttributes r)
    (HistoryEvent_WorkflowExecutionFailedEventAttributes r)
    (HistoryEvent_WorkflowExecutionTimedOutEventAttributes r)
    (HistoryEvent_DecisionTaskScheduledEventAttributes r)
    (HistoryEvent_DecisionTaskStartedEventAttributes r)
    (HistoryEvent_DecisionTaskCompletedEventAttributes r)
    (HistoryEvent_DecisionTaskTimedOutEventAttributes r)
    (HistoryEvent_DecisionTaskFailedEventAttributes r)
    (HistoryEvent_ActivityTaskScheduledEventAttributes r)
    (HistoryEvent_ActivityTaskStartedEventAttributes r)
    (HistoryEvent_ActivityTaskCompletedEventAttributes r)
    (HistoryEvent_ActivityTaskFailedEventAttributes r)
    (HistoryEvent_ActivityTaskTimedOutEventAttributes r) (HistoryEvent_TimerStartedEventAttributes r)
    (HistoryEvent_TimerFiredEventAttributes r)
    (HistoryEvent_ActivityTaskCancelRequestedEventAttributes r)
    (HistoryEvent_RequestCancelActivityTaskFailedEventAttributes r)
    (HistoryEvent_ActivityTaskCanceledEventAttributes r) (HistoryEvent_TimerCanceledEventAttributes r)
    (HistoryEvent_CancelTimerFailedEventAttributes r) (HistoryEvent_MarkerRecordedEventAttributes r)
    (HistoryEvent_WorkflowExecutionSignaledEventAttributes r)
    (HistoryEvent_WorkflowExecutionTerminatedEventAttributes r)
    (HistoryEvent_WorkflowExecutionCancelRequestedEventAttributes r)
    (HistoryEvent_WorkflowExecutionCanceledEventAttributes r)
    (HistoryEvent_RequestCancelExternalWorkflowExecutionInitiatedEventAttributes r)
    (HistoryEvent_RequestCancelExternalWorkflowExecutionFailedEventAttributes r)
    (HistoryEvent_ExternalWorkflowExecutionCancelRequestedEventAttributes r)
    (HistoryEvent_WorkflowExecutionContinuedAsNewEventAttributes r) v
    (HistoryEvent_StartChildWorkflowExecutionFailedEventAttributes r)
    (HistoryEvent_ChildWorkflowExecutionStartedEventAttributes r)
    (HistoryEvent_ChildWorkflowExecutionCompletedEventAttributes r)
    (HistoryEvent_ChildWorkflowExecutionFailedEventAttributes r)
    (HistoryEvent_ChildWorkflowExecutionCanceledEventAttributes r)
    (HistoryEvent_ChildWorkflowExecutionTimedOutEventAttributes r)
    (HistoryEvent_ChildWorkflowExecutionTerminatedEventAttributes r)
    (HistoryEvent_SignalExternalWorkflowExecutionInitiatedEventAttributes r)
    (HistoryEvent_SignalExternalWorkflowExecutionFailedEventAttributes r)
    (HistoryEvent_ExternalWorkflowExecutionSignaledEventAttributes r)
    (HistoryEvent_UpsertWorkflowSearchAttributesEventAttributes r).

(** Decidable equality on the two enums the code compares. *)
Global Instance EventType_eq_dec : EqDecision EventType.
Proof. solve_decision. Defined.

Global Instance DecisionType_eq_dec : EqDecision DecisionType.
Proof. solve_decision. Defined.

(** Enum getters: the zero value of the type on a nil field. *)
Definition GetEventType (e : HistoryEvent) : EventType :=
  default EventTypeWorkflowExecutionStarted (HistoryEvent_EventType e).
Definition GetDecisionType (d : Decision) : DecisionType :=
  default DecisionTypeScheduleActivityTask (Decision_DecisionType d).
Definition GetEventId (e : HistoryEvent) : Z := default 0%Z (HistoryEvent_EventId e).
Definition GetTimestamp (e : HistoryEvent) : Z := default 0%Z (HistoryEvent_Timestamp e).
