(* ===== verification/DecisionStateMachine.v ===== *)
(** * Decision state machines

    internal/internal_decision_state_machine.go, lines 32-690: the states, the
    seven kinds of machine and their methods.  A machine is reached through a
    pointer: the machines live in a heap that is part of the helper they belong
    to ([decisionStateMachineBase.helper] is that same helper), so that a
    pointer returned to a caller still reads the machine after it has left the
    helper's list and map.  An element of the [container/list] list holds one
    machine and a machine is pushed once, when it is created: the pointer of the
    machine is also the identity of its list element. *)

From stdpp Require Import base list gmap strings.
From S2P Require Import Prelude.
From S2P Require Import Shared.

(** ** States, types and identifiers *)

Inductive decisionState :=
| decisionStateCreated
| decisionStateDecisionSent
| decisionStateCanceledBeforeInitiated
| decisionStateInitiated
| decisionStateStarted
| decisionStateCanceledAfterInitiated
| decisionStateCanceledAfterStarted
| decisionStateCancellationDecisionSent
| decisionStateCompletedAfterCancellationDecisionSent
| decisionStateCompleted.

Inductive decisionType :=
| decisionTypeActivity
| decisionTypeChildWorkflow
| decisionTypeCancellation
| decisionTypeMarker
| decisionTypeTimer
| decisionTypeSignal
| decisionTypeUpsertSearchAttributes.

Global Instance decisionState_eq_dec : EqDecision decisionState.
Proof. solve_decision. Defined.

Global Instance decisionType_eq_dec : EqDecision decisionType.
Proof. solve_decision. Defined.

Definition decisionType_to_nat (t : decisionType) : nat :=
  match t with
  | decisionTypeActivity => 0
  | decisionTypeChildWorkflow => 1
  | decisionTypeCancellation => 2
  | decisionTypeMarker => 3
  | decisionTypeTimer => 4
  | decisionTypeSignal => 5
  | decisionTypeUpsertSearchAttributes => 6
  end.

Global Instance decisionType_countable : Countable decisionType.
Proof.
  apply (inj_countable' decisionType_to_nat
    (λ n, nth n [decisionTypeActivity; decisionTypeChildWorkflow; decisionTypeCancellation;
                 decisionTypeMarker; decisionTypeTimer; decisionTypeSignal;
                 decisionTypeUpsertSearchAttributes] decisionTypeActivity)).
  by intros [].
Defined.

(** A [decisionID] is a comparable struct used as a map key. *)
Definition decisionID : Type := decisionType * string.

Definition makeDecisionID (decisionType : decisionType) (id : string) : decisionID :=
  (decisionType, id).

Definition eventCancel := "cancel".
Definition eventDecisionSent := "handleDecisionSent".
Definition eventInitiated := "handleInitiatedEvent".
Definition eventInitiationFailed := "handleInitiationFailedEvent".
Definition eventStarted := "handleStartedEvent".
Definition eventCompletion := "handleCompletionEvent".
Definition eventCancelInitiated := "handleCancelInitiatedEvent".
Definition eventCancelFailed := "handleCancelFailedEvent".
Definition eventCanceled := "handleCanceledEvent".

Definition sideEffectMarkerName := "SideEffect".
Definition versionMarkerName := "Version".
Definition localActivityMarkerName := "LocalActivity".
Definition mutableSideEffectMarkerName := "MutableSideEffect".

Definition decisionState_String (d : decisionState) : string :=
  match d with
  | decisionStateCreated => "Created"
  | decisionStateDecisionSent => "DecisionSent"
  | decisionStateCanceledBeforeInitiated => "CanceledBeforeInitiated"
  | decisionStateInitiated => "Initiated"
  | decisionStateStarted => "Started"
  | decisionStateCanceledAfterInitiated => "CanceledAfterInitiated"
  | decisionStateCanceledAfterStarted => "CanceledAfterStarted"
  | decisionStateCancellationDecisionSent => "CancellationDecisionSent"
  | decisionStateCompletedAfterCancellationDecisionSent =>
      "CompletedAfterCancellationDecisionSent"
  | decisionStateCompleted => "Completed"
  end.

Definition decisionType_String (d : decisionType) : string :=
  match d with
  | decisionTypeActivity => "Activity"
  | decisionTypeChildWorkflow => "ChildWorkflow"
  | decisionTypeCancellation => "Cancellation"
  | decisionTypeMarker => "Marker"
  | decisionTypeTimer => "Timer"
  | decisionTypeSignal => "Signal"
  | decisionTypeUpsertSearchAttributes => "Unknown"
  end.

Definition decisionID_String (d : decisionID) : string :=
  "DecisionType: " +:+ decisionType_String d.1 +:+ ", ID: " +:+ d.2.

(** ** Machines *)

(** The structs that embed the base: what each adds to it. *)
Inductive kind :=
| activityDecisionStateMachine (attributes : ScheduleActivityTaskDecisionAttributes)
| timerDecisionStateMachine (attributes : StartTimerDecisionAttributes) (canceled : bool)
| childWorkflowDecisionStateMachine
    (attributes : StartChildWorkflowExecutionDecisionAttributes)
| cancelExternalWorkflowDecisionStateMachine (decision : Decision)
| signalExternalWorkflowDecisionStateMachine (decision : Decision)
| markerDecisionStateMachine (decision : Decision)
| upsertSearchAttributesDecisionStateMachine (decision : Decision).

(** [decisionStateMachineBase] together with the struct that embeds it;
    [data] is the [interface{}] its owner stores there ([None] is nil). *)
Record machine (D : Type) := Machine {
  m_id : decisionID;
  m_state : decisionState;
  m_history : list string;
  m_data : option D;
  m_kind : kind }.
Arguments Machine {D} _ _ _ _ _.
Arguments m_id {D} _.
Arguments m_state {D} _.
Arguments m_history {D} _.
Arguments m_data {D} _.
Arguments m_kind {D} _.

Abbreviation ptr := nat.

Record decisionsHelper (D : Type) := DecisionsHelper {
  heap : gmap ptr (machine D);
  heap_next : ptr;
  orderedDecisions : list ptr;
  decisions : gmap decisionID ptr;
  scheduledEventIDToActivityID : gmap Z string;
  scheduledEventIDToCancellationID : gmap Z string;
  scheduledEventIDToSignalID : gmap Z string }.
Arguments DecisionsHelper {D} _ _ _ _ _ _ _.
Arguments heap {D} _.
Arguments heap_next {D} _.
Arguments orderedDecisions {D} _.
Arguments decisions {D} _.
Arguments scheduledEventIDToActivityID {D} _.
Arguments scheduledEventIDToCancellationID {D} _.
Arguments scheduledEventIDToSignalID {D} _.

Definition newDecisionsHelper {D} : decisionsHelper D :=
  DecisionsHelper ∅ 0 [] ∅ ∅ ∅ ∅.

Section machines.
Context {D : Type}.
Implicit Types (p : ptr) (m : machine D) (h : decisionsHelper D).

Definition set_heap (v : gmap ptr (machine D)) h : decisionsHelper D :=
  DecisionsHelper v (heap_next h) (orderedDecisions h) (decisions h)
    (scheduledEventIDToActivityID h) (scheduledEventIDToCancellationID h)
    (scheduledEventIDToSignalID h).

Definition set_lists (l : list ptr) (d : gmap decisionID ptr) h : decisionsHelper D :=
  DecisionsHelper (heap h) (heap_next h) l d
    (scheduledEventIDToActivityID h) (scheduledEventIDToCancellationID h)
    (scheduledEventIDToSignalID h).

Definition load (p : ptr) : M (decisionsHelper D) (machine D) :=
  λ h, (match heap h !! p with Some m => Ret m | None => Panic NilDereference end, h).

Definition store (p : ptr) (m : machine D) : M (decisionsHelper D) unit :=
  modify (λ h, set_heap (<[p := m]> (heap h)) h).

(** ** Methods of the base *)

Definition set_state (s : decisionState) (hist : list string) m : machine D :=
  Machine (m_id m) s hist (m_data m) (m_kind m).
Definition set_kind (k : kind) m : machine D :=
  Machine (m_id m) (m_state m) (m_history m) (m_data m) k.
Definition set_data (d : D) m : machine D :=
  Machine (m_id m) (m_state m) (m_history m) (Some d) (m_kind m).

Definition base_isDone m : bool :=
  bool_decide (m_state m = decisionStateCompleted)
  || bool_decide (m_state m = decisionStateCompletedAfterCancellationDecisionSent).

Definition setData (p : ptr) (data : D) : M (decisionsHelper D) unit :=
  m ← load p; store p (set_data data m).

Definition getData (p : ptr) : M (decisionsHelper D) (option D) :=
  m ← load p; mret (m_data m).

(** The removal [moveState] performs through [d.helper]. *)
Definition forget (id : decisionID) h : decisionsHelper D :=
  match decisions h !! id with
  | Some elem => set_lists (list_Remove elem (orderedDecisions h)) (delete id (decisions h)) h
  | None => h
  end.

Definition moveState (p : ptr) (newState : decisionState) (event : string)
    : M (decisionsHelper D) unit :=
  m ← load p;
  store p (set_state newState (m_history m ++ [event] ++ [decisionState_String newState]) m);;
  if decide (newState = decisionStateCompleted) then modify (forget (m_id m)) else mret tt.

(** [fmt.Sprintf("%v", history)] *)
Definition strings_String (l : list string) : string := "[" +:+ String.concat " " l +:+ "]".

Definition base_String m : string :=
  decisionID_String (m_id m) +:+ ", state=" +:+ decisionState_String (m_state m)
  +:+ ", isDone()=" +:+ (if base_isDone m then "true" else "false")
  +:+ ", history=" +:+ strings_String (m_history m).

Definition panicIllegalState {A} (message : string) : M (decisionsHelper D) A :=
  throw (IllegalStatePanic message).

Definition failStateTransition (p : ptr) (event : string) : M (decisionsHelper D) unit :=
  m ← load p;
  panicIllegalState ("invalid state transition: attempt to " +:+ event +:+ ", " +:+ base_String m).

Definition base_handleDecisionSent (p : ptr) : M (decisionsHelper D) unit :=
  m ← load p;
  match m_state m with
  | decisionStateCreated => moveState p decisionStateDecisionSent eventDecisionSent
  | _ => mret tt
  end.

Definition base_cancel (p : ptr) : M (decisionsHelper D) unit :=
  m ← load p;
  match m_state m with
  | decisionStateCompleted | decisionStateCompletedAfterCancellationDecisionSent => mret tt
  | decisionStateCreated => moveState p decisionStateCompleted eventCancel
  | decisionStateDecisionSent => moveState p decisionStateCanceledBeforeInitiated eventCancel
  | decisionStateInitiated => moveState p decisionStateCanceledAfterInitiated eventCancel
  | _ => failStateTransition p eventCancel
  end.

Definition base_handleInitiatedEvent (p : ptr) : M (decisionsHelper D) unit :=
  m ← load p;
  match m_state m with
  | decisionStateDecisionSent => moveState p decisionStateInitiated eventInitiated
  | decisionStateCanceledBeforeInitiated =>
      moveState p decisionStateCanceledAfterInitiated eventInitiated
  | _ => failStateTransition p eventInitiated
  end.

Definition base_handleInitiationFailedEvent (p : ptr) : M (decisionsHelper D) unit :=
  m ← load p;
  match m_state m with
  | decisionStateInitiated | decisionStateDecisionSent
  | decisionStateCanceledBeforeInitiated =>
      moveState p decisionStateCompleted eventInitiationFailed
  | _ => failStateTransition p eventInitiationFailed
  end.

Definition append_history (p : ptr) (event : string) : M (decisionsHelper D) unit :=
  m ← load p; store p (set_state (m_state m) (m_history m ++ [event]) m).

Definition base_handleStartedEvent (p : ptr) : M (decisionsHelper D) unit :=
  append_history p eventStarted.

Definition base_handleCompletionEvent (p : ptr) : M (decisionsHelper D) unit :=
  m ← load p;
  match m_state m with
  | decisionStateCanceledAfterInitiated | decisionStateInitiated =>
      moveState p decisionStateCompleted eventCompletion
  | decisionStateCancellationDecisionSent =>
      moveState p decisionStateCompletedAfterCancellationDecisionSent eventCompletion
  | _ => failStateTransition p eventCompletion
  end.

Definition base_handleCancelInitiatedEvent (p : ptr) : M (decisionsHelper D) unit :=
  append_history p eventCancelInitiated;;
  m ← load p;
  match m_state m with
  | decisionStateCancellationDecisionSent => mret tt
  | _ => failStateTransition p eventCancelInitiated
  end.

Definition base_handleCancelFailedEvent (p : ptr) : M (decisionsHelper D) unit :=
  m ← load p;
  match m_state m with
  | decisionStateCompletedAfterCancellationDecisionSent =>
      moveState p decisionStateCompleted eventCancelFailed
  | _ => failStateTransition p eventCancelFailed
  end.

Definition base_handleCanceledEvent (p : ptr) : M (decisionsHelper D) unit :=
  m ← load p;
  match m_state m with
  | decisionStateCancellationDecisionSent => moveState p decisionStateCompleted eventCanceled
  | _ => failStateTransition p eventCanceled
  end.

(** ** Methods of the embedding structs *)

(** [createNewDecision] (internal_task_handlers.go) *)
Definition createNewDecision (decisionType : DecisionType) : Decision :=
  set_Decision_DecisionType (Some decisionType) Decision_nil.

Definition activity_getDecision (state : decisionState)
    (attributes : ScheduleActivityTaskDecisionAttributes) : option Decision :=
  match state with
  | decisionStateCreated =>
      Some (set_Decision_ScheduleActivityTaskDecisionAttributes (Some attributes)
              (createNewDecision DecisionTypeScheduleActivityTask))
  | decisionStateCanceledAfterInitiated =>
      Some (set_Decision_RequestCancelActivityTaskDecisionAttributes
              (Some (MkRequestCancelActivityTaskDecisionAttributes
                       (ScheduleActivityTaskDecisionAttributes_ActivityId attributes)))
              (createNewDecision DecisionTypeRequestCancelActivityTask))
  | _ => None
  end.

Definition activity_handleDecisionSent (p : ptr) : M (decisionsHelper D) unit :=
  m ← load p;
  match m_state m with
  | decisionStateCanceledAfterInitiated =>
      moveState p decisionStateCancellationDecisionSent eventDecisionSent
  | _ => base_handleDecisionSent p
  end.

Definition activity_handleCancelFailedEvent (p : ptr) : M (decisionsHelper D) unit :=
  m ← load p;
  match m_state m with
  | decisionStateCancellationDecisionSent =>
      moveState p decisionStateInitiated eventCancelFailed
  | _ => base_handleCancelFailedEvent p
  end.

Definition timer_cancel (p : ptr) : M (decisionsHelper D) unit :=
  m ← load p;
  match m_kind m with
  | timerDecisionStateMachine attributes _ =>
      store p (set_kind (timerDecisionStateMachine attributes true) m)
  | _ => mret tt
  end;;
  base_cancel p.

Definition timer_isDone m (canceled : bool) : bool :=
  bool_decide (m_state m = decisionStateCompleted) || canceled.

Definition timer_handleDecisionSent (p : ptr) : M (decisionsHelper D) unit :=
  m ← load p;
  match m_state m with
  | decisionStateCanceledAfterInitiated =>
      moveState p decisionStateCancellationDecisionSent eventDecisionSent
  | _ => base_handleDecisionSent p
  end.

Definition timer_handleCancelFailedEvent (p : ptr) : M (decisionsHelper D) unit :=
  m ← load p;
  match m_state m with
  | decisionStateCancellationDecisionSent =>
      moveState p decisionStateInitiated eventCancelFailed
  | _ => base_handleCancelFailedEvent p
  end.

Definition timer_getDecision (state : decisionState)
    (attributes : StartTimerDecisionAttributes) : option Decision :=
  match state with
  | decisionStateCreated =>
      Some (set_Decision_StartTimerDecisionAttributes (Some attributes)
              (createNewDecision DecisionTypeStartTimer))
  | decisionStateCanceledAfterInitiated =>
      Some (set_Decision_CancelTimerDecisionAttributes
              (Some (MkCancelTimerDecisionAttributes
                       (StartTimerDecisionAttributes_TimerId attributes)))
              (createNewDecision DecisionTypeCancelTimer))
  | _ => None
  end.

Definition childWorkflow_getDecision (state : decisionState)
    (attributes : StartChildWorkflowExecutionDecisionAttributes) : option Decision :=
  match state with
  | decisionStateCreated =>
      Some (set_Decision_StartChildWorkflowExecutionDecisionAttributes (Some attributes)
              (createNewDecision DecisionTypeStartChildWorkflowExecution))
  | decisionStateCanceledAfterStarted =>
      Some (set_Decision_RequestCancelExternalWorkflowExecutionDecisionAttributes
              (Some (MkRequestCancelExternalWorkflowExecutionDecisionAttributes
                       (StartChildWorkflowExecutionDecisionAttributes_Domain attributes)
                       (StartChildWorkflowExecutionDecisionAttributes_WorkflowId attributes)
                       None None (Some true)))
              (createNewDecision DecisionTypeRequestCancelExternalWorkflowExecution))
  | _ => None
  end.

Definition childWorkflow_handleDecisionSent (p : ptr) : M (decisionsHelper D) unit :=
  m ← load p;
  match m_state m with
  | decisionStateCanceledAfterStarted =>
      moveState p decisionStateCancellationDecisionSent eventDecisionSent
  | _ => base_handleDecisionSent p
  end.

Definition childWorkflow_handleStartedEvent (p : ptr) : M (decisionsHelper D) unit :=
  m ← load p;
  match m_state m with
  | decisionStateInitiated => moveState p decisionStateStarted eventStarted
  | decisionStateCanceledAfterInitiated =>
      moveState p decisionStateCanceledAfterStarted eventStarted
  | _ => base_handleStartedEvent p
  end.

Definition childWorkflow_handleCancelFailedEvent (p : ptr) : M (decisionsHelper D) unit :=
  m ← load p;
  match m_state m with
  | decisionStateCancellationDecisionSent =>
      moveState p decisionStateStarted eventCancelFailed
  | _ => base_handleCancelFailedEvent p
  end.

Definition childWorkflow_cancel (p : ptr) : M (decisionsHelper D) unit :=
  m ← load p;
  match m_state m with
  | decisionStateStarted => moveState p decisionStateCanceledAfterStarted eventCancel
  | _ => base_cancel p
  end.

Definition childWorkflow_handleCanceledEvent (p : ptr) : M (decisionsHelper D) unit :=
  m ← load p;
  match m_state m with
  | decisionStateStarted => moveState p decisionStateCompleted eventCanceled
  | _ => base_handleCanceledEvent p
  end.

Definition childWorkflow_handleCompletionEvent (p : ptr) : M (decisionsHelper D) unit :=
  m ← load p;
  match m_state m with
  | decisionStateStarted | decisionStateCanceledAfterStarted =>
      moveState p decisionStateCompleted eventCompletion
  | _ => base_handleCompletionEvent p
  end.

Definition naive_getDecision (state : decisionState) (decision : Decision) : option Decision :=
  match state with
  | decisionStateCreated => Some decision
  | _ => None
  end.

(** Every other method of [naiveDecisionStateMachine]. *)
Definition naive_unsupported : M (decisionsHelper D) unit :=
  throw (StringPanic "unsupported operation").

Definition cancelExternalWorkflow_handleInitiatedEvent (p : ptr) : M (decisionsHelper D) unit :=
  m ← load p;
  match m_state m with
  | decisionStateDecisionSent => moveState p decisionStateInitiated eventInitiated
  | _ => failStateTransition p eventInitiated
  end.

Definition cancelExternalWorkflow_handleCompletionEvent (p : ptr) : M (decisionsHelper D) unit :=
  m ← load p;
  match m_state m with
  | decisionStateInitiated => moveState p decisionStateCompleted eventCompletion
  | _ => failStateTransition p eventCompletion
  end.

Definition signalExternalWorkflow_handleInitiatedEvent (p : ptr) : M (decisionsHelper D) unit :=
  m ← load p;
  match m_state m with
  | decisionStateDecisionSent => moveState p decisionStateInitiated eventInitiated
  | _ => failStateTransition p eventInitiated
  end.

Definition signalExternalWorkflow_handleCompletionEvent (p : ptr) : M (decisionsHelper D) unit :=
  m ← load p;
  match m_state m with
  | decisionStateInitiated => moveState p decisionStateCompleted eventCompletion
  | _ => failStateTransition p eventCompletion
  end.

Definition marker_handleDecisionSent (p : ptr) : M (decisionsHelper D) unit :=
  m ← load p;
  match m_state m with
  | decisionStateCreated => moveState p decisionStateCompleted eventDecisionSent
  | _ => mret tt
  end.

Definition upsertSearchAttributes_handleDecisionSent (p : ptr) : M (decisionsHelper D) unit :=
  m ← load p;
  match m_state m with
  | decisionStateCreated => moveState p decisionStateCompleted eventDecisionSent
  | _ => mret tt
  end.

(** ** The interface [decisionStateMachine]: dynamic dispatch

    A method call goes to the most specific override of the embedding chain
    (external cancellation, signal, marker, upsert -> naive -> base). *)

Definition getDecision_of m : option Decision :=
  match m_kind m with
  | activityDecisionStateMachine attributes => activity_getDecision (m_state m) attributes
  | timerDecisionStateMachine attributes _ => timer_getDecision (m_state m) attributes
  | childWorkflowDecisionStateMachine attributes =>
      childWorkflow_getDecision (m_state m) attributes
  | cancelExternalWorkflowDecisionStateMachine decision
  | signalExternalWorkflowDecisionStateMachine decision
  | markerDecisionStateMachine decision
  | upsertSearchAttributesDecisionStateMachine decision =>
      naive_getDecision (m_state m) decision
  end.

Definition isDone m : bool :=
  match m_kind m with
  | timerDecisionStateMachine _ canceled => timer_isDone m canceled
  | _ => base_isDone m
  end.

Definition cancel (p : ptr) : M (decisionsHelper D) unit :=
  m ← load p;
  match m_kind m with
  | activityDecisionStateMachine _ => base_cancel p
  | timerDecisionStateMachine _ _ => timer_cancel p
  | childWorkflowDecisionStateMachine _ => childWorkflow_cancel p
  | _ => naive_unsupported
  end.

Definition handleStartedEvent (p : ptr) : M (decisionsHelper D) unit :=
  m ← load p;
  match m_kind m with
  | activityDecisionStateMachine _ | timerDecisionStateMachine _ _ => base_handleStartedEvent p
  | childWorkflowDecisionStateMachine _ => childWorkflow_handleStartedEvent p
  | _ => naive_unsupported
  end.

Definition handleCancelInitiatedEvent (p : ptr) : M (decisionsHelper D) unit :=
  m ← load p;
  match m_kind m with
  | activityDecisionStateMachine _ | timerDecisionStateMachine _ _
  | childWorkflowDecisionStateMachine _ => base_handleCancelInitiatedEvent p
  | _ => naive_unsupported
  end.

Definition handleCanceledEvent (p : ptr) : M (decisionsHelper D) unit :=
  m ← load p;
  match m_kind m with
  | activityDecisionStateMachine _ | timerDecisionStateMachine _ _ => base_handleCanceledEvent p
  | childWorkflowDecisionStateMachine _ => childWorkflow_handleCanceledEvent p
  | _ => naive_unsupported
  end.

Definition handleCancelFailedEvent (p : ptr) : M (decisionsHelper D) unit :=
  m ← load p;
  match m_kind m with
  | activityDecisionStateMachine _ => activity_handleCancelFailedEvent p
  | timerDecisionStateMachine _ _ => timer_handleCancelFailedEvent p
  | childWorkflowDecisionStateMachine _ => childWorkflow_handleCancelFailedEvent p
  | _ => naive_unsupported
  end.

Definition handleCompletionEvent (p : ptr) : M (decisionsHelper D) unit :=
  m ← load p;
  match m_kind m with
  | activityDecisionStateMachine _ | timerDecisionStateMachine _ _ => base_handleCompletionEvent p
  | childWorkflowDecisionStateMachine _ => childWorkflow_handleCompletionEvent p
  | cancelExternalWorkflowDecisionStateMachine _ => cancelExternalWorkflow_handleCompletionEvent p
  | signalExternalWorkflowDecisionStateMachine _ => signalExternalWorkflow_handleCompletionEvent p
  | _ => naive_unsupported
  end.

Definition handleInitiationFailedEvent (p : ptr) : M (decisionsHelper D) unit :=
  m ← load p;
  match m_kind m with
  | activityDecisionStateMachine _ | timerDecisionStateMachine _ _
  | childWorkflowDecisionStateMachine _ => base_handleInitiationFailedEvent p
  | _ => naive_unsupported
  end.

Definition handleInitiatedEvent (p : ptr) : M (decisionsHelper D) unit :=
  m ← load p;
  match m_kind m with
  | activityDecisionStateMachine _ | timerDecisionStateMachine _ _
  | childWorkflowDecisionStateMachine _ => base_handleInitiatedEvent p
  | cancelExternalWorkflowDecisionStateMachine _ => cancelExternalWorkflow_handleInitiatedEvent p
  | signalExternalWorkflowDecisionStateMachine _ => signalExternalWorkflow_handleInitiatedEvent p
  | _ => naive_unsupported
  end.

Definition handleDecisionSent (p : ptr) : M (decisionsHelper D) unit :=
  m ← load p;
  match m_kind m with
  | activityDecisionStateMachine _ => activity_handleDecisionSent p
  | timerDecisionStateMachine _ _ => timer_handleDecisionSent p
  | childWorkflowDecisionStateMachine _ => childWorkflow_handleDecisionSent p
  | cancelExternalWorkflowDecisionStateMachine _
  | signalExternalWorkflowDecisionStateMachine _ => base_handleDecisionSent p
  | markerDecisionStateMachine _ => marker_handleDecisionSent p
  | upsertSearchAttributesDecisionStateMachine _ => upsertSearchAttributes_handleDecisionSent p
  end.

End machines.
