(* ===== verification/DecisionEdges.v ===== *)
(** * Transitions of the decision state machines

    The abstract transition diagram of each kind of machine ([edge]) and the
    refinement: whatever method is called on whatever machine, in whatever
    state, the machine stays where it is or follows one edge of its diagram, and
    exactly the machines that reach [Completed] leave the helper. *)

From stdpp Require Import base list gmap strings relations.
From S2P Require Import Prelude.
From S2P Require Import Shared.
From S2P Require Import DecisionStateMachine.

(** ** The abstract diagrams *)

Inductive class :=
| Activity | Timer | ChildWorkflow | CancelExternal | SignalExternal | Marker | Upsert.

Global Instance class_eq_dec : EqDecision class.
Proof. solve_decision. Defined.

Definition class_of (k : kind) : class :=
  match k with
  | activityDecisionStateMachine _ => Activity
  | timerDecisionStateMachine _ _ => Timer
  | childWorkflowDecisionStateMachine _ => ChildWorkflow
  | cancelExternalWorkflowDecisionStateMachine _ => CancelExternal
  | signalExternalWorkflowDecisionStateMachine _ => SignalExternal
  | markerDecisionStateMachine _ => Marker
  | upsertSearchAttributesDecisionStateMachine _ => Upsert
  end.

Definition type_of_class (c : class) : decisionType :=
  match c with
  | Activity => decisionTypeActivity
  | Timer => decisionTypeTimer
  | ChildWorkflow => decisionTypeChildWorkflow
  | CancelExternal => decisionTypeCancellation
  | SignalExternal => decisionTypeSignal
  | Marker => decisionTypeMarker
  | Upsert => decisionTypeUpsertSearchAttributes
  end.

(** Activities, timers and child workflows can be cancelled. *)
Definition cancellable (c : class) : Prop := c = Activity ∨ c = Timer ∨ c = ChildWorkflow.
(** Activities and timers are cancelled from [Initiated]. *)
Definition simple (c : class) : Prop := c = Activity ∨ c = Timer.
(** External cancellations and signals wait for their outcome. *)
Definition external (c : class) : Prop := c = CancelExternal ∨ c = SignalExternal.
(** Markers and upserts are done once they are sent. *)
Definition immediate (c : class) : Prop := c = Marker ∨ c = Upsert.

Inductive edge : class → decisionState → decisionState → Prop :=
(* sending *)
| edge_sent c : ¬ immediate c →
    edge c decisionStateCreated decisionStateDecisionSent
| edge_sent_immediate c : immediate c →
    edge c decisionStateCreated decisionStateCompleted
| edge_cancel_sent c : simple c →
    edge c decisionStateCanceledAfterInitiated decisionStateCancellationDecisionSent
| edge_cancel_sent_child :
    edge ChildWorkflow decisionStateCanceledAfterStarted decisionStateCancellationDecisionSent
(* initiation *)
| edge_initiated c : ¬ immediate c →
    edge c decisionStateDecisionSent decisionStateInitiated
| edge_initiated_canceled c : cancellable c →
    edge c decisionStateCanceledBeforeInitiated decisionStateCanceledAfterInitiated
| edge_initiation_failed c s : cancellable c →
    s = decisionStateInitiated ∨ s = decisionStateDecisionSent
      ∨ s = decisionStateCanceledBeforeInitiated →
    edge c s decisionStateCompleted
(* children start *)
| edge_started : edge ChildWorkflow decisionStateInitiated decisionStateStarted
| edge_started_canceled :
    edge ChildWorkflow decisionStateCanceledAfterInitiated decisionStateCanceledAfterStarted
(* cancellation by the workflow *)
| edge_cancel_created c : cancellable c →
    edge c decisionStateCreated decisionStateCompleted
| edge_cancel_early c : cancellable c →
    edge c decisionStateDecisionSent decisionStateCanceledBeforeInitiated
| edge_cancel_initiated c : cancellable c →
    edge c decisionStateInitiated decisionStateCanceledAfterInitiated
| edge_cancel_started :
    edge ChildWorkflow decisionStateStarted decisionStateCanceledAfterStarted
(* completion *)
| edge_completed c : ¬ immediate c →
    edge c decisionStateInitiated decisionStateCompleted
| edge_completed_canceled c : cancellable c →
    edge c decisionStateCanceledAfterInitiated decisionStateCompleted
| edge_completed_child s :
    s = decisionStateStarted ∨ s = decisionStateCanceledAfterStarted →
    edge ChildWorkflow s decisionStateCompleted
| edge_completed_late c : cancellable c →
    edge c decisionStateCancellationDecisionSent
           decisionStateCompletedAfterCancellationDecisionSent
(* outcome of a cancellation *)
| edge_canceled c : cancellable c →
    edge c decisionStateCancellationDecisionSent decisionStateCompleted
| edge_cancel_failed_late c : cancellable c →
    edge c decisionStateCompletedAfterCancellationDecisionSent decisionStateCompleted
| edge_cancel_failed c : simple c →
    edge c decisionStateCancellationDecisionSent decisionStateInitiated
| edge_cancel_failed_child :
    edge ChildWorkflow decisionStateCancellationDecisionSent decisionStateStarted.

Create HintDb edges.
#[export] Hint Constructors edge : edges.
#[export] Hint Unfold cancellable simple external immediate : edges.
#[export] Hint Extern 1 (¬ immediate _) => intros [?|?]; discriminate : edges.

Lemma edge_from_completed c s : ¬ edge c decisionStateCompleted s.
Proof. inversion 1; destruct_or?; congruence. Qed.

Lemma edge_irrefl c s s' : edge c s s' → s ≠ s'.
Proof. inversion 1; destruct_or?; congruence. Qed.

(** The states that a class of machine can be in at all. *)
Definition state_ok (c : class) (s : decisionState) : Prop :=
  rtc (edge c) decisionStateCreated s.

(** ** The effect of a method call on the helper *)

Section effect.
Context {D : Type}.
Implicit Types (p : ptr) (m : machine D) (h : decisionsHelper D).

(** [settle p m' h]: [m'] is written back at [p], and leaves the list and the
    map if it is now completed. *)
Definition put p m' h : decisionsHelper D := set_heap (<[p := m']> (heap h)) h.

Inductive effect p h : decisionsHelper D → Prop :=
| effect_stay m m' :
    heap h !! p = Some m → m_id m' = m_id m → class_of (m_kind m') = class_of (m_kind m) →
    m_data m' = m_data m → m_state m' = m_state m →
    effect p h (put p m' h)
| effect_move m m' :
    heap h !! p = Some m → m_id m' = m_id m → class_of (m_kind m') = class_of (m_kind m) →
    m_data m' = m_data m → edge (class_of (m_kind m)) (m_state m) (m_state m') →
    m_state m' ≠ decisionStateCompleted →
    effect p h (put p m' h)
| effect_complete m m' :
    heap h !! p = Some m → m_id m' = m_id m → class_of (m_kind m') = class_of (m_kind m) →
    m_data m' = m_data m → edge (class_of (m_kind m)) (m_state m) (m_state m') →
    m_state m' = decisionStateCompleted →
    effect p h (forget (m_id m) (put p m' h)).

Lemma effect_refl p h m : heap h !! p = Some m → effect p h h.
Proof.
  intros Hm.
  assert (h = put p m h) as Hh.
  { unfold put, set_heap. rewrite insert_id by done. by destruct h. }
  rewrite Hh at 2. by eapply effect_stay.
Qed.

(** The methods of the interface. *)
Inductive method :=
| mCancel | mStarted | mCancelInitiated | mCanceled | mCancelFailed | mCompletion
| mInitiationFailed | mInitiated | mDecisionSent.

Definition call (c : method) p : M (decisionsHelper D) unit :=
  match c with
  | mCancel => cancel p
  | mStarted => handleStartedEvent p
  | mCancelInitiated => handleCancelInitiatedEvent p
  | mCanceled => handleCanceledEvent p
  | mCancelFailed => handleCancelFailedEvent p
  | mCompletion => handleCompletionEvent p
  | mInitiationFailed => handleInitiationFailedEvent p
  | mInitiated => handleInitiatedEvent p
  | mDecisionSent => handleDecisionSent p
  end.

Lemma load_run p m h : heap h !! p = Some m → load p h = (Ret m, h).
Proof. unfold load. by intros ->. Qed.

Lemma store_run p m h : store p m h = (Ret tt, put p m h).
Proof. done. Qed.

Lemma heap_put p m h : heap (put p m h) !! p = Some m.
Proof. apply lookup_insert_eq. Qed.

Lemma put_put p m m' h : put p m' (put p m h) = put p m' h.
Proof. unfold put, set_heap; simpl. by rewrite insert_insert_eq. Qed.

Lemma moveState_run p s ev m h :
  heap h !! p = Some m →
  ∃ hist, moveState p s ev h =
    (Ret tt, let h' := put p (set_state s hist m) h in
             if decide (s = decisionStateCompleted) then forget (m_id m) h' else h').
Proof.
  intros Hm. eexists. unfold moveState. run. rewrite (load_run _ _ _ Hm), store_run.
  by case_decide.
Qed.

Lemma failStateTransition_run p ev m h :
  heap h !! p = Some m → ∃ msg, failStateTransition p ev h = (Panic (IllegalStatePanic msg), h).
Proof. intros Hm. eexists. unfold failStateTransition. run. by rewrite (load_run _ _ _ Hm). Qed.

Lemma append_history_run p ev m h :
  heap h !! p = Some m →
  append_history p ev h = (Ret tt, put p (set_state (m_state m) (m_history m ++ [ev]) m) h).
Proof. intros Hm. unfold append_history. run. by rewrite (load_run _ _ _ Hm). Qed.

End effect.

(** Case analysis of a method on a machine of known kind and state. *)
Ltac unfold_methods :=
  unfold call, cancel, handleStartedEvent, handleCancelInitiatedEvent, handleCanceledEvent,
    handleCancelFailedEvent, handleCompletionEvent, handleInitiationFailedEvent,
    handleInitiatedEvent, handleDecisionSent, naive_unsupported,
    activity_handleDecisionSent, activity_handleCancelFailedEvent,
    timer_cancel, timer_handleDecisionSent, timer_handleCancelFailedEvent,
    childWorkflow_handleDecisionSent, childWorkflow_handleStartedEvent,
    childWorkflow_handleCancelFailedEvent, childWorkflow_cancel,
    childWorkflow_handleCanceledEvent, childWorkflow_handleCompletionEvent,
    cancelExternalWorkflow_handleInitiatedEvent, cancelExternalWorkflow_handleCompletionEvent,
    signalExternalWorkflow_handleInitiatedEvent, signalExternalWorkflow_handleCompletionEvent,
    marker_handleDecisionSent, upsertSearchAttributes_handleDecisionSent,
    base_handleDecisionSent, base_cancel, base_handleInitiatedEvent,
    base_handleInitiationFailedEvent, base_handleStartedEvent, base_handleCompletionEvent,
    base_handleCancelInitiatedEvent, base_handleCancelFailedEvent, base_handleCanceledEvent,
    panicIllegalState.

(** One step of symbolic execution of a method. *)
Ltac method_step :=
  match goal with
  | |- context [load ?p ?h] => erewrite (load_run p _ h) by (done || apply heap_put)
  | |- context [store ?p ?m ?h] => rewrite (store_run p m h)
  | |- context [moveState ?p ?s ?ev ?h] =>
      let hist := fresh "hist" in
      destruct (moveState_run p s ev _ h ltac:(first [eassumption | apply heap_put])) as [hist ->]
  | |- context [failStateTransition ?p ?ev ?h] =>
      let msg := fresh "msg" in
      destruct (failStateTransition_run p ev _ h ltac:(first [eassumption | apply heap_put]))
        as [msg ->]
  | |- context [append_history ?p ?ev ?h] =>
      erewrite (append_history_run p ev _ h) by (done || apply heap_put)
  end;
  run; cbn [m_id m_state m_history m_data m_kind set_state set_kind];
  rewrite ?put_put, ?decide_True, ?decide_False by done.

Section call.
Context {D : Type}.
Implicit Types (p : ptr) (m : machine D) (h : decisionsHelper D).

Lemma call_effect c p m h :
  heap h !! p = Some m → effect p h (snd (call c p h)).
Proof.
  intros Hm. destruct m as [id st hist data k]. destruct c, k, st; unfold_methods; run;
    repeat method_step;
    first [ by eapply effect_refl
          | by eapply (effect_stay p h _ _ Hm)
          | by eapply (effect_move p h _ _ Hm); simpl; auto 7 with edges
          | by eapply (effect_complete p h _ _ Hm); simpl; auto 7 with edges ].
Qed.

End call.
