(* ===== verification/DecisionsHelper.v ===== *)
(** * The decisions helper

    internal/internal_decision_state_machine.go, lines 221-290 and 679-1065: the
    list and the map of live decision state machines of one workflow execution,
    and the operations through which workflow code (schedule, cancel, record)
    and history events (scheduled, started, completed, ...) drive them. *)

From stdpp Require Import base list gmap strings pretty.
From S2P Require Import Prelude.
From S2P Require Import Shared.
From S2P Require Import DecisionStateMachine.

Section helper.
Context {D : Type} {dc : DataConverter}.
Implicit Types (p : ptr) (m : machine D) (h : decisionsHelper D).

(** ** Constructors of machines *)

(** [&T{...}]: allocation of a new machine. *)
Definition alloc (m : machine D) : M (decisionsHelper D) ptr :=
  λ h, (Ret (heap_next h),
        DecisionsHelper (<[heap_next h := m]> (heap h)) (S (heap_next h))
          (orderedDecisions h) (decisions h) (scheduledEventIDToActivityID h)
          (scheduledEventIDToCancellationID h) (scheduledEventIDToSignalID h)).

Definition newDecisionStateMachineBase (decisionType : decisionType) (id : string) (k : kind)
    : machine D :=
  Machine (makeDecisionID decisionType id) decisionStateCreated
    [decisionState_String decisionStateCreated] None k.

Definition newActivityDecisionStateMachine
    (attributes : ScheduleActivityTaskDecisionAttributes) : M (decisionsHelper D) ptr :=
  alloc (newDecisionStateMachineBase decisionTypeActivity
           (get_string ScheduleActivityTaskDecisionAttributes_ActivityId (Some attributes))
           (activityDecisionStateMachine attributes)).

Definition newTimerDecisionStateMachine
    (attributes : StartTimerDecisionAttributes) : M (decisionsHelper D) ptr :=
  alloc (newDecisionStateMachineBase decisionTypeTimer
           (get_string StartTimerDecisionAttributes_TimerId (Some attributes))
           (timerDecisionStateMachine attributes false)).

Definition newChildWorkflowDecisionStateMachine
    (attributes : StartChildWorkflowExecutionDecisionAttributes) : M (decisionsHelper D) ptr :=
  alloc (newDecisionStateMachineBase decisionTypeChildWorkflow
           (get_string StartChildWorkflowExecutionDecisionAttributes_WorkflowId (Some attributes))
           (childWorkflowDecisionStateMachine attributes)).

Definition newMarkerDecisionStateMachine (id : string)
    (attributes : RecordMarkerDecisionAttributes) : M (decisionsHelper D) ptr :=
  let d := set_Decision_RecordMarkerDecisionAttributes (Some attributes)
             (createNewDecision DecisionTypeRecordMarker) in
  alloc (newDecisionStateMachineBase decisionTypeMarker id (markerDecisionStateMachine d)).

Definition newCancelExternalWorkflowStateMachine
    (attributes : RequestCancelExternalWorkflowExecutionDecisionAttributes)
    (cancellationID : string) : M (decisionsHelper D) ptr :=
  let d := set_Decision_RequestCancelExternalWorkflowExecutionDecisionAttributes (Some attributes)
             (createNewDecision DecisionTypeRequestCancelExternalWorkflowExecution) in
  alloc (newDecisionStateMachineBase decisionTypeCancellation cancellationID
           (cancelExternalWorkflowDecisionStateMachine d)).

Definition newSignalExternalWorkflowStateMachine
    (attributes : SignalExternalWorkflowExecutionDecisionAttributes)
    (signalID : string) : M (decisionsHelper D) ptr :=
  let d := set_Decision_SignalExternalWorkflowExecutionDecisionAttributes (Some attributes)
             (createNewDecision DecisionTypeSignalExternalWorkflowExecution) in
  alloc (newDecisionStateMachineBase decisionTypeSignal signalID
           (signalExternalWorkflowDecisionStateMachine d)).

Definition newUpsertSearchAttributesStateMachine
    (attributes : UpsertWorkflowSearchAttributesDecisionAttributes)
    (upsertID : string) : M (decisionsHelper D) ptr :=
  let d := set_Decision_UpsertWorkflowSearchAttributesDecisionAttributes (Some attributes)
             (createNewDecision DecisionTypeUpsertWorkflowSearchAttributes) in
  alloc (newDecisionStateMachineBase decisionTypeUpsertSearchAttributes upsertID
           (upsertSearchAttributesDecisionStateMachine d)).

(** ** Lookup and insertion *)

Definition getDecision (id : decisionID) : M (decisionsHelper D) ptr :=
  h ← get;
  match decisions h !! id with
  | None =>
      panicIllegalState ("unknown decision " +:+ decisionID_String id
        +:+ ", possible causes are nondeterministic workflow definition code"
        +:+ " or incompatible change in the workflow definition")
  | Some decision =>
      modify (λ h, set_lists (list_MoveToBack decision (orderedDecisions h)) (decisions h) h);;
      mret decision
  end.

Definition addDecision (decision : ptr) : M (decisionsHelper D) unit :=
  m ← load decision;
  h ← get;
  match decisions h !! m_id m with
  | Some _ => panicIllegalState ("adding duplicate decision " +:+ base_String m)
  | None =>
      modify (λ h, set_lists (orderedDecisions h ++ [decision])
                     (<[m_id m := decision]> (decisions h)) h)
  end.

(** [decision := new...(...); h.addDecision(decision); return decision] *)
Definition add_new (new : M (decisionsHelper D) ptr) : M (decisionsHelper D) ptr :=
  decision ← new; addDecision decision;; mret decision.

(** [decision := h.getDecision(id); decision.method(); return decision] *)
Definition on_decision (id : decisionID) (method : ptr → M (decisionsHelper D) unit)
    : M (decisionsHelper D) ptr :=
  decision ← getDecision id; method decision;; mret decision.

Definition set_activityIDs v h : decisionsHelper D :=
  DecisionsHelper (heap h) (heap_next h) (orderedDecisions h) (decisions h)
    v (scheduledEventIDToCancellationID h) (scheduledEventIDToSignalID h).
Definition set_cancellationIDs v h : decisionsHelper D :=
  DecisionsHelper (heap h) (heap_next h) (orderedDecisions h) (decisions h)
    (scheduledEventIDToActivityID h) v (scheduledEventIDToSignalID h).
Definition set_signalIDs v h : decisionsHelper D :=
  DecisionsHelper (heap h) (heap_next h) (orderedDecisions h) (decisions h)
    (scheduledEventIDToActivityID h) (scheduledEventIDToCancellationID h) v.

(** ** Activities *)

Definition scheduleActivityTask (attributes : ScheduleActivityTaskDecisionAttributes)
    : M (decisionsHelper D) ptr :=
  add_new (newActivityDecisionStateMachine attributes).

Definition requestCancelActivityTask (activityID : string) : M (decisionsHelper D) ptr :=
  on_decision (makeDecisionID decisionTypeActivity activityID) cancel.

Definition handleActivityTaskClosed (activityID : string) : M (decisionsHelper D) ptr :=
  on_decision (makeDecisionID decisionTypeActivity activityID) handleCompletionEvent.

Definition handleActivityTaskScheduled (scheduledEventID : Z) (activityID : string)
    : M (decisionsHelper D) unit :=
  modify (λ h, set_activityIDs
            (<[scheduledEventID := activityID]> (scheduledEventIDToActivityID h)) h);;
  on_decision (makeDecisionID decisionTypeActivity activityID) handleInitiatedEvent;;
  mret tt.

Definition handleActivityTaskCancelRequested (activityID : string) : M (decisionsHelper D) unit :=
  on_decision (makeDecisionID decisionTypeActivity activityID) handleCancelInitiatedEvent;;
  mret tt.

Definition handleActivityTaskCanceled (activityID : string) : M (decisionsHelper D) ptr :=
  on_decision (makeDecisionID decisionTypeActivity activityID) handleCanceledEvent.

Definition handleRequestCancelActivityTaskFailed (activityID : string)
    : M (decisionsHelper D) unit :=
  on_decision (makeDecisionID decisionTypeActivity activityID) handleCancelFailedEvent;;
  mret tt.

(** [getActivityID]: the scheduled event id is that of the attributes of the
    event's own type. *)
Definition activity_scheduledEventID (event : HistoryEvent) : option Z :=
  match GetEventType event with
  | EventTypeActivityTaskCanceled =>
      Some (get_int ActivityTaskCanceledEventAttributes_ScheduledEventId
              (HistoryEvent_ActivityTaskCanceledEventAttributes event))
  | EventTypeActivityTaskCompleted =>
      Some (get_int ActivityTaskCompletedEventAttributes_ScheduledEventId
              (HistoryEvent_ActivityTaskCompletedEventAttributes event))
  | EventTypeActivityTaskFailed =>
      Some (get_int ActivityTaskFailedEventAttributes_ScheduledEventId
              (HistoryEvent_ActivityTaskFailedEventAttributes event))
  | EventTypeActivityTaskTimedOut =>
      Some (get_int ActivityTaskTimedOutEventAttributes_ScheduledEventId
              (HistoryEvent_ActivityTaskTimedOutEventAttributes event))
  | _ => None
  end.

(** The panic messages below print the event with [%v]; the model keeps their
    fixed prefix. *)
Definition getActivityID (event : HistoryEvent) : M (decisionsHelper D) string :=
  h ← get;
  match activity_scheduledEventID event with
  | None => panicIllegalState "unexpected event type"
  | Some scheduledEventID =>
      match scheduledEventIDToActivityID h !! scheduledEventID with
      | None => panicIllegalState "unable to find activity ID for the event"
      | Some activityID => mret activityID
      end
  end.

(** ** Markers *)

Definition encodeArgs (args : list goValue) : string + bytes := ToData args.

Definition recordVersionMarker (changeID : string) (version : Z) : M (decisionsHelper D) ptr :=
  let markerID := versionMarkerName +:+ "_" +:+ changeID in
  match encodeArgs [GString changeID; GInt version] with
  | inl err => throw (ErrorPanic err)
  | inr details =>
      add_new (newMarkerDecisionStateMachine markerID
        (MkRecordMarkerDecisionAttributes (Some versionMarkerName) details None))
  end.

Definition recordSideEffectMarker (sideEffectID : Z) (data : bytes) : M (decisionsHelper D) ptr :=
  let markerID := sideEffectMarkerName +:+ "_" +:+ pretty sideEffectID in
  add_new (newMarkerDecisionStateMachine markerID
    (MkRecordMarkerDecisionAttributes (Some sideEffectMarkerName) data None)).

Definition recordLocalActivityMarker (activityID : string) (result : bytes)
    : M (decisionsHelper D) ptr :=
  let markerID := localActivityMarkerName +:+ "_" +:+ activityID in
  add_new (newMarkerDecisionStateMachine markerID
    (MkRecordMarkerDecisionAttributes (Some localActivityMarkerName) result None)).

Definition recordMutableSideEffectMarker (mutableSideEffectID : string) (data : bytes)
    : M (decisionsHelper D) ptr :=
  let markerID := mutableSideEffectMarkerName +:+ "_" +:+ mutableSideEffectID in
  add_new (newMarkerDecisionStateMachine markerID
    (MkRecordMarkerDecisionAttributes (Some mutableSideEffectMarkerName) data None)).

(** ** Child workflows *)

Definition startChildWorkflowExecution
    (attributes : StartChildWorkflowExecutionDecisionAttributes) : M (decisionsHelper D) ptr :=
  add_new (newChildWorkflowDecisionStateMachine attributes).

Definition handleStartChildWorkflowExecutionInitiated (workflowID : string)
    : M (decisionsHelper D) unit :=
  on_decision (makeDecisionID decisionTypeChildWorkflow workflowID) handleInitiatedEvent;;
  mret tt.

Definition handleStartChildWorkflowExecutionFailed (workflowID : string)
    : M (decisionsHelper D) ptr :=
  on_decision (makeDecisionID decisionTypeChildWorkflow workflowID) handleInitiationFailedEvent.

Definition handleChildWorkflowExecutionStarted (workflowID : string) : M (decisionsHelper D) ptr :=
  on_decision (makeDecisionID decisionTypeChildWorkflow workflowID) handleStartedEvent.

Definition handleChildWorkflowExecutionClosed (workflowID : string) : M (decisionsHelper D) ptr :=
  on_decision (makeDecisionID decisionTypeChildWorkflow workflowID) handleCompletionEvent.

Definition handleChildWorkflowExecutionCanceled (workflowID : string)
    : M (decisionsHelper D) ptr :=
  on_decision (makeDecisionID decisionTypeChildWorkflow workflowID) handleCanceledEvent.

(** ** Cancellation of external workflows *)

Definition requestCancelExternalWorkflowExecution
    (domain workflowID runID cancellationID : string) (childWorkflowOnly : bool)
    : M (decisionsHelper D) ptr :=
  if childWorkflowOnly then
    if decide (cancellationID ≠ "") then
      throw (StringPanic "cancellation on child workflow should not use cancellation ID")
    else if decide (runID ≠ "") then
      throw (StringPanic "cancellation on child workflow should not use run ID")
    else on_decision (makeDecisionID decisionTypeChildWorkflow workflowID) cancel
  else if decide (cancellationID = "") then
    throw (StringPanic "cancellation on external workflow should use cancellation ID")
  else
    add_new (newCancelExternalWorkflowStateMachine
      (MkRequestCancelExternalWorkflowExecutionDecisionAttributes
         (Some domain) (Some workflowID) (Some runID)
         (string_to_bytes cancellationID) (Some false))
      cancellationID).

Definition isCancelExternalWorkflowEventForChildWorkflow (cancellationID : string) : bool :=
  bool_decide (cancellationID = "").

Definition handleRequestCancelExternalWorkflowExecutionInitiated
    (initiatedeventID : Z) (workflowID cancellationID : string) : M (decisionsHelper D) unit :=
  if isCancelExternalWorkflowEventForChildWorkflow cancellationID then
    on_decision (makeDecisionID decisionTypeChildWorkflow workflowID) handleCancelInitiatedEvent;;
    mret tt
  else
    modify (λ h, set_cancellationIDs
              (<[initiatedeventID := cancellationID]> (scheduledEventIDToCancellationID h)) h);;
    on_decision (makeDecisionID decisionTypeCancellation cancellationID) handleInitiatedEvent;;
    mret tt.

Definition handleExternalWorkflowExecutionCancelRequested
    (initiatedeventID : Z) (workflowID : string) : M (decisionsHelper D) (bool * ptr) :=
  h ← get;
  match scheduledEventIDToCancellationID h !! initiatedeventID with
  | None =>
      decision ← getDecision (makeDecisionID decisionTypeChildWorkflow workflowID);
      mret (false, decision)
  | Some cancellationID =>
      decision ← on_decision (makeDecisionID decisionTypeCancellation cancellationID)
                   handleCompletionEvent;
      mret (true, decision)
  end.

Definition handleRequestCancelExternalWorkflowExecutionFailed
    (initiatedeventID : Z) (workflowID : string) : M (decisionsHelper D) (bool * ptr) :=
  h ← get;
  match scheduledEventIDToCancellationID h !! initiatedeventID with
  | None =>
      decision ← on_decision (makeDecisionID decisionTypeChildWorkflow workflowID)
                   handleCancelFailedEvent;
      mret (false, decision)
  | Some cancellationID =>
      decision ← on_decision (makeDecisionID decisionTypeCancellation cancellationID)
                   handleCompletionEvent;
      mret (true, decision)
  end.

(** ** Signals and search attributes *)

Definition signalExternalWorkflowExecution
    (domain workflowID runID signalName : string) (input : bytes) (signalID : string)
    (childWorkflowOnly : bool) : M (decisionsHelper D) ptr :=
  add_new (newSignalExternalWorkflowStateMachine
    (MkSignalExternalWorkflowExecutionDecisionAttributes
       (Some domain) (Some (MkWorkflowExecution (Some workflowID) (Some runID)))
       (Some signalName) input (string_to_bytes signalID) (Some childWorkflowOnly))
    signalID).

Definition upsertSearchAttributes (upsertID : string) (searchAttr : option SearchAttributes)
    : M (decisionsHelper D) ptr :=
  add_new (newUpsertSearchAttributesStateMachine
    (MkUpsertWorkflowSearchAttributesDecisionAttributes searchAttr) upsertID).

Definition handleSignalExternalWorkflowExecutionInitiated (initiatedEventID : Z)
    (signalID : string) : M (decisionsHelper D) unit :=
  modify (λ h, set_signalIDs
            (<[initiatedEventID := signalID]> (scheduledEventIDToSignalID h)) h);;
  on_decision (makeDecisionID decisionTypeSignal signalID) handleInitiatedEvent;;
  mret tt.

Definition getSignalID (initiatedEventID : Z) : M (decisionsHelper D) string :=
  h ← get;
  match scheduledEventIDToSignalID h !! initiatedEventID with
  | None => throw (StringPanic ("unable to find signal ID: " +:+ pretty initiatedEventID))
  | Some signalID => mret signalID
  end.

Definition handleSignalExternalWorkflowExecutionCompleted (initiatedEventID : Z)
    : M (decisionsHelper D) ptr :=
  signalID ← getSignalID initiatedEventID;
  on_decision (makeDecisionID decisionTypeSignal signalID) handleCompletionEvent.

Definition handleSignalExternalWorkflowExecutionFailed (initiatedEventID : Z)
    : M (decisionsHelper D) ptr :=
  signalID ← getSignalID initiatedEventID;
  on_decision (makeDecisionID decisionTypeSignal signalID) handleCompletionEvent.

(** ** Timers *)

Definition startTimer (attributes : StartTimerDecisionAttributes) : M (decisionsHelper D) ptr :=
  add_new (newTimerDecisionStateMachine attributes).

Definition cancelTimer (timerID : string) : M (decisionsHelper D) ptr :=
  on_decision (makeDecisionID decisionTypeTimer timerID) cancel.

Definition handleTimerClosed (timerID : string) : M (decisionsHelper D) ptr :=
  on_decision (makeDecisionID decisionTypeTimer timerID) handleCompletionEvent.

Definition handleTimerStarted (timerID : string) : M (decisionsHelper D) unit :=
  on_decision (makeDecisionID decisionTypeTimer timerID) handleInitiatedEvent;; mret tt.

Definition handleTimerCanceled (timerID : string) : M (decisionsHelper D) unit :=
  on_decision (makeDecisionID decisionTypeTimer timerID) handleCanceledEvent;; mret tt.

Definition handleCancelTimerFailed (timerID : string) : M (decisionsHelper D) unit :=
  on_decision (makeDecisionID decisionTypeTimer timerID) handleCancelFailedEvent;; mret tt.

(** ** Draining the decisions of a decision task *)

(** [e.Next()]: the element after [p] in the list. *)
Fixpoint list_Next (p : ptr) (l : list ptr) : option ptr :=
  match l with
  | [] => None
  | q :: l' => if decide (q = p) then head l' else list_Next p l'
  end.

(** The loop of [getDecisions]: [next] is read before the body runs, because
    the body may take [curr] out of the list.  [fuel] bounds the iterations;
    [getDecisions] gives it the length of the list, and the theorems show that
    this is always enough. *)
Fixpoint getDecisions_loop (fuel : nat) (markAsSent : bool) (curr : option ptr)
    (result : list Decision) : M (decisionsHelper D) (list Decision) :=
  match fuel, curr with
  | _, None => mret result
  | 0, Some _ => throw OutOfFuel
  | S fuel, Some curr =>
      h ← get;
      let next := list_Next curr (orderedDecisions h) in
      d ← load curr;
      let result :=
        match getDecision_of d with
        | Some decision => result ++ [decision]
        | None => result
        end in
      (if markAsSent then handleDecisionSent curr else mret tt);;
      d' ← load curr;
      (if decide (m_state d' = decisionStateCompleted) then
         modify (λ h, set_lists (list_Remove curr (orderedDecisions h))
                        (delete (m_id d') (decisions h)) h)
       else mret tt);;
      getDecisions_loop fuel markAsSent next result
  end.

Definition getDecisions (markAsSent : bool) : M (decisionsHelper D) (list Decision) :=
  h ← get;
  getDecisions_loop (length (orderedDecisions h)) markAsSent (head (orderedDecisions h)) [].

End helper.
