(* ===== verification/DecisionsInvariant.v ===== *)
(** * Well-formedness of the decisions helper

    The list and the map of a helper describe the same set of live machines,
    every machine is in a state its diagram allows, and every operation of the
    helper keeps it so, whether it returns or panics. *)

From stdpp Require Import base list gmap strings relations.
From S2P Require Import Prelude.
From S2P Require Import Shared.
From S2P Require Import DecisionStateMachine.
From S2P Require Import DecisionEdges.
From S2P Require Import DecisionsHelper.

Section invariant.
Context {D : Type} {dc : DataConverter}.
Implicit Types (p q : ptr) (m : machine D) (h : decisionsHelper D) (k : decisionID).

Record wf h : Prop := {
  wf_nodup : NoDup (orderedDecisions h);
  wf_listed p : p ∈ orderedDecisions h →
    ∃ m, heap h !! p = Some m ∧ decisions h !! m_id m = Some p
         ∧ m_state m ≠ decisionStateCompleted;
  wf_mapped k p : decisions h !! k = Some p →
    p ∈ orderedDecisions h ∧ ∃ m, heap h !! p = Some m ∧ m_id m = k;
  wf_machine p m : heap h !! p = Some m →
    p < heap_next h ∧ state_ok (class_of (m_kind m)) (m_state m)
    ∧ (m_id m).1 = type_of_class (class_of (m_kind m)) }.

Lemma wf_new : wf newDecisionsHelper.
Proof. split; simpl; [constructor|set_solver..]. Qed.

(** ** Method calls *)

Lemma state_ok_step c s s' : state_ok c s → edge c s s' → state_ok c s'.
Proof. apply rtc_r. Qed.

(** Writing back a machine with the same identity, still not completed. *)
Lemma wf_put p m m' h :
  wf h → heap h !! p = Some m → m_id m' = m_id m →
  class_of (m_kind m') = class_of (m_kind m) →
  state_ok (class_of (m_kind m')) (m_state m') →
  (m_state m' = decisionStateCompleted → m_state m = decisionStateCompleted) →
  wf (put p m' h).
Proof.
  intros [Hnd Hl Hm Hh] Hp Hid Hc Hs Hcomp. split; simpl; [done| | |].
  - intros q Hq. destruct (Hl q Hq) as (n & Hn & Hd & Hst).
    destruct (decide (p = q)) as [->|Hne].
    + rewrite lookup_insert_eq. exists m'. naive_solver congruence.
    + rewrite lookup_insert_ne by done. eauto.
  - intros k q Hk. destruct (Hm k q Hk) as (Hin & n & Hn & Hk'). split; [done|].
    destruct (decide (p = q)) as [->|Hne].
    + rewrite lookup_insert_eq. exists m'. naive_solver congruence.
    + rewrite lookup_insert_ne by done. eauto.
  - intros q n. rewrite lookup_insert. case_decide as Hpq; [|apply Hh].
    intros [= <-]. subst q. destruct (Hh p m Hp) as (? & ? & ?). split_and!; [done..|congruence].
Qed.

(** Completing a machine: it is written back and leaves the list and the map. *)
Lemma wf_complete p m m' h :
  wf h → heap h !! p = Some m → m_id m' = m_id m →
  class_of (m_kind m') = class_of (m_kind m) →
  state_ok (class_of (m_kind m')) (m_state m') →
  m_state m ≠ decisionStateCompleted →
  wf (forget (m_id m) (put p m' h)).
Proof.
  intros Hwf Hp Hid Hc Hs Hst. destruct Hwf as [Hnd Hl Hm Hh].
  assert (∀ q n, <[p:=m']> (heap h) !! q = Some n →
    q < heap_next h ∧ state_ok (class_of (m_kind n)) (m_state n)
    ∧ (m_id n).1 = type_of_class (class_of (m_kind n))) as Hh'.
  { intros q n. rewrite lookup_insert. case_decide as Hpq; [|apply Hh].
    intros [= <-]. subst q. destruct (Hh p m Hp) as (? & ? & ?). split_and!; [done..|congruence]. }
  assert (p ∈ orderedDecisions h → decisions h !! m_id m = Some p) as Hlp.
  { intros Hin. destruct (Hl p Hin) as (n & Hn & Hd & _). congruence. }
  unfold forget. simpl. destruct (decisions h !! m_id m) as [e|] eqn:He; simpl.
  - destruct (Hm _ _ He) as (Hein & n & Hn & Hnid).
    split; simpl; [by apply NoDup_Remove| | |done].
    + intros q [Hq Hqe]%elem_of_Remove. destruct (Hl q Hq) as (n' & Hn' & Hd & Hst').
      assert (p ≠ q) as Hpq by naive_solver congruence.
      exists n'. rewrite lookup_insert_ne, lookup_delete_ne; [done|naive_solver congruence|done].
    + intros k q [Hne Hk]%lookup_delete_Some. destruct (Hm _ _ Hk) as (Hq & n' & Hn' & Hk').
      assert (q ≠ e) as Hqe by naive_solver congruence. split; [by apply elem_of_Remove|].
      destruct (decide (p = q)) as [->|]; [naive_solver congruence|].
      exists n'. by rewrite lookup_insert_ne.
  - split; simpl; [done| | |done].
    + intros q Hq. destruct (Hl q Hq) as (n & Hn & Hd & ?).
      destruct (decide (p = q)) as [->|]; [naive_solver|]. exists n. by rewrite lookup_insert_ne.
    + intros k q Hk. destruct (Hm _ _ Hk) as (Hq & n & Hn & Hk'). split; [done|].
      destruct (decide (p = q)) as [->|]; [naive_solver|]. exists n. by rewrite lookup_insert_ne.
Qed.

Lemma wf_effect p h h' : wf h → effect p h h' → wf h'.
Proof.
  intros Hwf Heff. inversion Heff as [m m' Hp Hid Hc Hd Hs|m m' Hp Hid Hc Hd He Hs
    |m m' Hp Hid Hc Hd He Hs]; subst h';
    destruct (wf_machine _ Hwf _ _ Hp) as (_ & Hok & _).
  - eapply wf_put; [done..|congruence|congruence].
  - eapply wf_put; [done..| |congruence]. rewrite Hc. by eapply state_ok_step.
  - eapply wf_complete; [done..| |].
    + rewrite Hc. by eapply state_ok_step.
    + intros Hm. rewrite Hm in He. by eapply edge_from_completed.
Qed.

(** ** Properties of the heap that the operations keep

    A property of the machines that holds after every step of a machine along
    its diagram and after every allocation can be carried along any operation
    together with the invariant; [setData] asks more of it. *)

Class HeapStable (Q : gmap ptr (machine D) → Prop) : Prop := {
  stable_step H p m m' :
    Q H → H !! p = Some m → m_id m' = m_id m →
    class_of (m_kind m') = class_of (m_kind m) → m_data m' = m_data m →
    m_state m' = m_state m ∨ edge (class_of (m_kind m)) (m_state m) (m_state m') →
    Q (<[p := m']> H);
  stable_alloc H p m :
    Q H → H !! p = None → m_state m = decisionStateCreated → m_data m = None →
    Q (<[p := m]> H) }.

Class DataStable (Q : gmap ptr (machine D) → Prop) : Prop :=
  stable_data H p m d : Q H → H !! p = Some m → Q (<[p := set_data d m]> H).

Definition inv (Q : gmap ptr (machine D) → Prop) h : Prop := wf h ∧ Q (heap h).

Global Instance HeapStable_True : HeapStable (λ _, True).
Proof. by split. Qed.
Global Instance DataStable_True : DataStable (λ _, True).
Proof. done. Qed.

Section stable.
Context (Q : gmap ptr (machine D) → Prop) `{!HeapStable Q}.

Lemma heap_forget k h : heap (forget k h) = heap h.
Proof. unfold forget. by destruct (decisions h !! k). Qed.

Lemma inv_effect p h h' : inv Q h → effect p h h' → inv Q h'.
Proof.
  intros [Hwf HQ] Heff. split; [by eapply wf_effect|].
  inversion Heff; subst h'; rewrite ?heap_forget; simpl; eapply stable_step; eauto.
Qed.

(** ** Operations of the helper *)

(** The fields the invariant does not mention can change freely. *)
Lemma inv_ext h h' :
  heap h' = heap h → heap_next h' = heap_next h → orderedDecisions h' = orderedDecisions h →
  decisions h' = decisions h → inv Q h → inv Q h'.
Proof.
  intros E1 E2 E3 E4 [[? ? ? ?] HQ]. split; [|by rewrite E1].
  split; rewrite ?E1, ?E2, ?E3, ?E4; auto.
Qed.

(** A successful lookup finds a live machine and moves it to the back. *)
Lemma getDecision_run k h :
  getDecision k h =
    match decisions h !! k with
    | Some p => (Ret p, set_lists (list_MoveToBack p (orderedDecisions h)) (decisions h) h)
    | None => (fst (getDecision k h), h)
    end.
Proof. unfold getDecision. run. by destruct (decisions h !! k). Qed.

Lemma wf_MoveToBack p h :
  wf h → wf (set_lists (list_MoveToBack p (orderedDecisions h)) (decisions h) h).
Proof.
  intros [? ? ? ?]. split; simpl; auto using NoDup_MoveToBack.
  - intros q. rewrite elem_of_MoveToBack. auto.
  - intros k q Hk. rewrite elem_of_MoveToBack. auto.
Qed.

Lemma getDecision_spec k :
  spec (inv Q) (getDecision k) (λ o h', inv Q h' ∧
    ∀ p, o = Ret p → ∃ m, heap h' !! p = Some m ∧ m_id m = k).
Proof.
  intros h [Hwf HQ]. rewrite getDecision_run.
  destruct (decisions h !! k) as [p|] eqn:Hk; simpl.
  - split; [split; [by apply wf_MoveToBack|done]|]. intros q [= <-].
    by destruct (wf_mapped _ Hwf _ _ Hk) as (_ & m & ? & ?); eauto.
  - split; [done|]. unfold getDecision. run. by rewrite Hk.
Qed.

Lemma pres_on_decision k method c :
  (∀ p, method p = call c p) → pres (inv Q) (on_decision k method).
Proof.
  intros Hc. eapply pres_bind_spec; [apply getDecision_spec|naive_solver|].
  intros p h [Hwf Hp]. destruct (Hp p eq_refl) as (m & Hm & _).
  pose proof (call_effect c p m h Hm) as Heff%(inv_effect p h); [|done].
  rewrite Hc. run. by destruct (call c p h) as [[[]|] h'].
Qed.

(** Allocation and insertion of a new machine. *)
Lemma wf_alloc m h :
  wf h → m_state m = decisionStateCreated →
  (m_id m).1 = type_of_class (class_of (m_kind m)) → wf (snd (alloc m h)).
Proof.
  intros [Hnd Hl Hm Hh] Hs Ht.
  assert (∀ q n, heap h !! q = Some n → <[heap_next h := m]> (heap h) !! q = Some n) as Hold.
  { intros q n Hq. rewrite lookup_insert_ne; [done|]. destruct (Hh q n Hq). lia. }
  split; simpl; [done|naive_solver|naive_solver|].
  intros q n. rewrite lookup_insert. case_decide.
  - intros [= <-]. split_and!; [lia| |done]. rewrite Hs. apply rtc_refl.
  - intros Hq. destruct (Hh q n Hq) as (? & ? & ?). split_and!; [lia|done..].
Qed.

Lemma wf_add p m h :
  wf h → heap h !! p = Some m → decisions h !! m_id m = None →
  m_state m ≠ decisionStateCompleted →
  wf (set_lists (orderedDecisions h ++ [p]) (<[m_id m := p]> (decisions h)) h).
Proof.
  intros [Hnd Hl Hm Hh] Hp Hk Hs.
  assert (p ∉ orderedDecisions h) as Hnew by (intros Hin; naive_solver congruence).
  split; simpl; [| | |done].
  - apply NoDup_app. split_and!; [done| |apply NoDup_singleton].
    intros q Hq. rewrite list_elem_of_singleton. naive_solver.
  - intros q [Hq| ->%list_elem_of_singleton]%elem_of_app.
    + destruct (Hl q Hq) as (n & ? & Hd & ?). exists n. split_and!; [done| |done].
      rewrite lookup_insert_ne; [done|congruence].
    + exists m. by rewrite lookup_insert_eq.
  - intros k q. rewrite lookup_insert. case_decide as Hkk.
    + intros [= <-]. split; [set_solver|eauto].
    + intros Hq. destruct (Hm k q Hq) as (? & ?). split; [set_solver|done].
Qed.

Lemma addDecision_run p m h :
  heap h !! p = Some m →
  addDecision p h =
    match decisions h !! m_id m with
    | Some _ => (Panic (IllegalStatePanic ("adding duplicate decision " +:+ base_String m)), h)
    | None => (Ret tt, set_lists (orderedDecisions h ++ [p]) (<[m_id m := p]> (decisions h)) h)
    end.
Proof.
  intros Hm. unfold addDecision. run. rewrite (load_run _ _ _ Hm).
  by destruct (decisions h !! m_id m).
Qed.

Lemma pres_add_new m :
  m_state m = decisionStateCreated → m_data m = None →
  (m_id m).1 = type_of_class (class_of (m_kind m)) → pres (inv Q) (add_new (alloc m)).
Proof.
  intros Hs Hda Ht h [Hwf HQ]. unfold add_new. run.
  pose proof (wf_alloc m h Hwf Hs Ht) as Hwf'.
  destruct (alloc m h) as [o h'] eqn:Ha. unfold alloc in Ha.
  injection Ha as <- <-. simpl in Hwf'.
  assert (Q (<[heap_next h := m]> (heap h))) as HQ'.
  { apply stable_alloc; [done| |done..]. destruct (heap h !! heap_next h) eqn:Hn; [|done].
    apply (wf_machine _ Hwf) in Hn as [? _]. lia. }
  rewrite (addDecision_run _ m) by apply lookup_insert_eq. simpl.
  destruct (decisions h !! m_id m) eqn:Hd; simpl; [done|]. split; [|done].
  apply (wf_add _ m _ Hwf'); [apply lookup_insert_eq|done|by rewrite Hs].
Qed.

Lemma pres_set_data `{!DataStable Q} p d : pres (inv Q) (setData p d).
Proof.
  intros h [Hwf HQ]. unfold setData, load. run. destruct (heap h !! p) as [m|] eqn:Hm; [|done].
  rewrite store_run. destruct (wf_machine _ Hwf _ _ Hm) as (_ & ? & _).
  split; [by eapply (wf_put p m)|]. by apply stable_data.
Qed.

Lemma pres_fields (f : decisionsHelper D → decisionsHelper D) :
  (∀ h, heap (f h) = heap h) → (∀ h, heap_next (f h) = heap_next h) →
  (∀ h, orderedDecisions (f h) = orderedDecisions h) → (∀ h, decisions (f h) = decisions h) →
  pres (inv Q) (modify f).
Proof. intros ????. apply pres_modify. intros h. by apply inv_ext. Qed.

End stable.

End invariant.

#[export] Hint Resolve pres_set_data : pres.
#[export] Hint Extern 1 (pres (inv _) (add_new _)) => apply pres_add_new; first [assumption | reflexivity] : pres.
#[export] Hint Extern 1 (pres (inv _) (getDecision _)) =>
  intros ? ?; apply getDecision_spec; assumption : pres.
#[export] Hint Extern 1 (pres (inv _) (on_decision _ cancel)) =>
  apply (pres_on_decision _ _ _ mCancel); first [assumption | reflexivity] : pres.
#[export] Hint Extern 1 (pres (inv _) (on_decision _ handleStartedEvent)) =>
  apply (pres_on_decision _ _ _ mStarted); first [assumption | reflexivity] : pres.
#[export] Hint Extern 1 (pres (inv _) (on_decision _ handleCancelInitiatedEvent)) =>
  apply (pres_on_decision _ _ _ mCancelInitiated); first [assumption | reflexivity] : pres.
#[export] Hint Extern 1 (pres (inv _) (on_decision _ handleCanceledEvent)) =>
  apply (pres_on_decision _ _ _ mCanceled); first [assumption | reflexivity] : pres.
#[export] Hint Extern 1 (pres (inv _) (on_decision _ handleCancelFailedEvent)) =>
  apply (pres_on_decision _ _ _ mCancelFailed); first [assumption | reflexivity] : pres.
#[export] Hint Extern 1 (pres (inv _) (on_decision _ handleCompletionEvent)) =>
  apply (pres_on_decision _ _ _ mCompletion); first [assumption | reflexivity] : pres.
#[export] Hint Extern 1 (pres (inv _) (on_decision _ handleInitiationFailedEvent)) =>
  apply (pres_on_decision _ _ _ mInitiationFailed); first [assumption | reflexivity] : pres.
#[export] Hint Extern 1 (pres (inv _) (on_decision _ handleInitiatedEvent)) =>
  apply (pres_on_decision _ _ _ mInitiated); first [assumption | reflexivity] : pres.
#[export] Hint Extern 2 (pres (inv _) (modify _)) => apply pres_fields; first [assumption | reflexivity] : pres.
