(* ===== verification/DecisionsDrain.v ===== *)
(** * Draining the decisions of a decision task

    [getDecisions] walks the linked list while the body of its loop takes
    elements out of it.  It is shown to compute the decisions of the live
    machines in list order and to mark each of them as sent, which is what
    [pending] and [drain] describe without the loop. *)

From stdpp Require Import base list gmap strings relations.
From S2P Require Import Prelude.
From S2P Require Import Shared.
From S2P Require Import DecisionStateMachine.
From S2P Require Import DecisionEdges.
From S2P Require Import DecisionsHelper.
From S2P Require Import DecisionsInvariant.

Section drain.
Context {D : Type}.
Implicit Types (p q : ptr) (m : machine D) (h : decisionsHelper D) (l : list ptr).

(** ** The reference description *)

Definition moved (s : decisionState) m : machine D :=
  set_state s (m_history m ++ [eventDecisionSent] ++ [decisionState_String s]) m.

(** A machine after its decision, if it has one, was sent. *)
Definition after_sent m : machine D :=
  match class_of (m_kind m), m_state m with
  | (Marker | Upsert), decisionStateCreated => moved decisionStateCompleted m
  | _, decisionStateCreated => moved decisionStateDecisionSent m
  | (Activity | Timer), decisionStateCanceledAfterInitiated
  | ChildWorkflow, decisionStateCanceledAfterStarted =>
      moved decisionStateCancellationDecisionSent m
  | _, _ => m
  end.

(** Writing a machine back, and forgetting it once it is completed. *)
Definition settle p m' h : decisionsHelper D :=
  if decide (m_state m' = decisionStateCompleted) then forget (m_id m') (put p m' h)
  else put p m' h.

Definition drain1 h p : decisionsHelper D :=
  match heap h !! p with Some m => settle p (after_sent m) h | None => h end.
Definition drain l h : decisionsHelper D := foldl drain1 h l.

Definition pending_at h p : option Decision := heap h !! p ≫= getDecision_of.
Definition pending l h : list Decision := omap (pending_at h) l.

Lemma pending_ext l h h' :
  (∀ q, q ∈ l → heap h' !! q = heap h !! q) → pending l h' = pending l h.
Proof.
  unfold pending, pending_at. induction l as [|q l IH]; intros Hq; [done|]. csimpl.
  rewrite Hq by set_solver. rewrite IH by set_solver. done.
Qed.

(** ** One machine *)

Lemma after_sent_id m : m_id (after_sent m) = m_id m.
Proof. unfold after_sent. by destruct (class_of _), (m_state m). Qed.

Lemma after_sent_kind m : m_kind (after_sent m) = m_kind m.
Proof. unfold after_sent. by destruct (class_of _), (m_state m). Qed.

Lemma after_sent_data m : m_data (after_sent m) = m_data m.
Proof. unfold after_sent. by destruct (class_of _), (m_state m). Qed.

(** Once sent, a machine has nothing to send. *)
Lemma after_sent_nothing m : getDecision_of (after_sent m) = None.
Proof. destruct m as [id st hist data k]. by destruct k, st. Qed.

Lemma after_sent_nothing_id m : getDecision_of m = None → after_sent m = m.
Proof. destruct m as [id st hist data k]. by destruct k, st. Qed.

Lemma after_sent_effect m :
  m_state (after_sent m) = m_state m ∨
  edge (class_of (m_kind m)) (m_state m) (m_state (after_sent m)).
Proof.
  destruct m as [id st hist data k].
  destruct k, st; simpl; first [by left | right; by auto 7 with edges].
Qed.

Lemma handleDecisionSent_run p m h :
  heap h !! p = Some m → m_state m ≠ decisionStateCompleted →
  handleDecisionSent p h = (Ret tt, settle p (after_sent m) h).
Proof.
  intros Hm Hs. unfold settle.
  assert (h = put p m h) as Hput.
  { unfold put, set_heap. rewrite insert_id by done. by destruct h. }
  destruct m as [id st hist data k].
  destruct k, st; try done; unfold_methods; unfold moveState; run; repeat method_step;
    first [done | f_equal; exact Hput].
Qed.

(** ** The walk over the list *)

Lemma list_Next_mid l1 p l2 : p ∉ l1 → list_Next p (l1 ++ p :: l2) = head l2.
Proof.
  induction l1 as [|q l1 IH]; simpl; intros Hp; [by rewrite decide_True|].
  rewrite decide_False by set_solver. apply IH. set_solver.
Qed.

(** Settling a listed machine keeps the invariant, the other machines and the
    rest of the list. *)
Lemma settle_sent p m h l1 l2 :
  wf h → heap h !! p = Some m → orderedDecisions h = l1 ++ p :: l2 →
  let h' := settle p (after_sent m) h in
  wf h' ∧ heap h' = <[p := after_sent m]> (heap h) ∧
  orderedDecisions h' =
    l1 ++ (if decide (m_state (after_sent m) = decisionStateCompleted) then [] else [p]) ++ l2 ∧
  (m_state (after_sent m) = decisionStateCompleted → decisions h' !! m_id m = None).
Proof.
  intros Hwf Hm Hl h'. subst h'.
  destruct (wf_listed _ Hwf p) as (m0 & Hm0 & Hd & Hst); [rewrite Hl; set_solver|].
  replace m0 with m in * by congruence. clear Hm0.
  pose proof (wf_nodup _ Hwf) as Hnd. rewrite Hl in Hnd.
  assert (wf (settle p (after_sent m) h)) as Hwf'.
  { eapply (wf_effect p h); [done|]. unfold settle. rewrite after_sent_id.
    destruct (after_sent_effect m) as [Hs|He].
    - rewrite decide_False by congruence.
      eapply (effect_stay p h m); auto using after_sent_id; rewrite ?after_sent_kind; try done.
      unfold after_sent. by destruct (class_of _), (m_state m).
    - assert (m_data (after_sent m) = m_data m) as Hda
        by (unfold after_sent; by destruct (class_of _), (m_state m)).
      case_decide; [eapply (effect_complete p h m)|eapply (effect_move p h m)];
        rewrite ?after_sent_id, ?after_sent_kind; done. }
  split; [done|]. unfold settle in *. rewrite after_sent_id in *. case_decide as Hc.
  - unfold forget in *. simpl in *. rewrite Hd in *. simpl. rewrite Hl, Remove_mid by done.
    split_and!; [done..|intros _; apply lookup_delete_eq].
  - simpl. rewrite Hl. split_and!; [done..|congruence].
Qed.

(** What the loop does after [handleDecisionSent] changes nothing more. *)
Lemma cleanup_noop p m' h :
  wf h → heap h !! p = Some m' → m_state m' = decisionStateCompleted →
  p ∉ orderedDecisions h → decisions h !! m_id m' = None →
  set_lists (list_Remove p (orderedDecisions h)) (delete (m_id m') (decisions h)) h = h.
Proof.
  intros Hwf Hm Hs Hp Hd. rewrite Remove_notin, delete_id by done. by destruct h.
Qed.

(** One iteration on a listed machine. *)
Lemma getDecisions_loop_step fuel p acc h l1 l2 :
  wf h → orderedDecisions h = l1 ++ p :: l2 →
  getDecisions_loop (S fuel) true (Some p) acc h =
    getDecisions_loop fuel true (head l2) (acc ++ pending [p] h) (drain1 h p).
Proof.
  intros Hwf Hl. destruct (wf_listed _ Hwf p) as (m & Hm & Hd & Hst); [rewrite Hl; set_solver|].
  pose proof (wf_nodup _ Hwf) as Hnd. rewrite Hl in Hnd.
  assert (p ∉ l1 ++ l2) as Hp.
  { apply NoDup_app in Hnd as (_ & Hdis & [Hp _]%NoDup_cons). set_solver. }
  cbn [getDecisions_loop]. run. rewrite (load_run _ _ _ Hm).
  rewrite (handleDecisionSent_run _ _ _ Hm Hst).
  destruct (settle_sent p m h l1 l2 Hwf Hm Hl) as (Hwf' & Hheap & Hord & Hdec).
  assert (heap (settle p (after_sent m) h) !! p = Some (after_sent m)) as Hm'
    by (rewrite Hheap; apply lookup_insert_eq).
  rewrite (load_run _ _ _ Hm'). unfold pending, pending_at, drain1. simpl. rewrite Hm. simpl.
  rewrite Hl, list_Next_mid by set_solver.
  assert (∀ acc' : list Decision, acc' ++ [] = acc') as Happ by (intros; apply app_nil_r).
  destruct (decide (m_state (after_sent m) = decisionStateCompleted)) as [Hc|Hc]; run.
  - rewrite (cleanup_noop p (after_sent m)); try done.
    + by destruct (getDecision_of m); rewrite ?Happ.
    + rewrite Hord. set_solver.
    + rewrite after_sent_id. auto.
  - by destruct (getDecision_of m); rewrite ?Happ.
Qed.

Lemma drain1_ordered h p l1 l2 :
  wf h → orderedDecisions h = l1 ++ p :: l2 →
  wf (drain1 h p) ∧ (∀ q, q ≠ p → heap (drain1 h p) !! q = heap h !! q) ∧
  ∃ l1', l1' ⊆ l1 ++ [p] ∧ orderedDecisions (drain1 h p) = l1' ++ l2.
Proof.
  intros Hwf Hl. destruct (wf_listed _ Hwf p) as (m & Hm & Hd & Hst); [rewrite Hl; set_solver|].
  destruct (settle_sent p m h l1 l2 Hwf Hm Hl) as (Hwf' & Hheap & Hord & Hdec).
  unfold drain1. rewrite Hm. split_and!; [done| |].
  - intros q Hq. rewrite Hheap. by rewrite lookup_insert_ne.
  - rewrite Hord, app_assoc. eexists. split; [|done]. case_decide; set_solver.
Qed.

Lemma getDecisions_loop_run l l1 fuel acc h :
  wf h → orderedDecisions h = l1 ++ l → length l ≤ fuel →
  getDecisions_loop fuel true (head l) acc h = (Ret (acc ++ pending l h), drain l h).
Proof.
  revert l1 fuel acc h. induction l as [|p l IH]; intros l1 fuel acc h Hwf Hl Hf.
  { destruct fuel; simpl; run; by rewrite app_nil_r. }
  destruct fuel as [|fuel]; simpl in Hf; [lia|].
  pose proof (wf_nodup _ Hwf) as Hnd. rewrite Hl in Hnd.
  apply NoDup_app in Hnd as (_ & _ & [Hpl _]%NoDup_cons).
  destruct (drain1_ordered h p l1 l Hwf Hl) as (Hwf' & Hheap & l1' & _ & Hord).
  simpl head. rewrite (getDecisions_loop_step _ _ _ _ _ _ Hwf Hl).
  rewrite (IH l1' fuel); [|done..|lia]. f_equal. f_equal. rewrite <- app_assoc. f_equal.
  unfold pending. change (p :: l) with ([p] ++ l). rewrite omap_app. f_equal.
  apply pending_ext. intros q Hq. apply Hheap. set_solver.
Qed.

(** [getDecisions(true)] computes the reference description. *)
Lemma getDecisions_run h :
  wf h → getDecisions true h = (Ret (pending (orderedDecisions h) h), drain (orderedDecisions h) h).
Proof.
  intros Hwf. unfold getDecisions. run.
  by rewrite (getDecisions_loop_run (orderedDecisions h) []).
Qed.

End drain.
