(* ===== verification/Decisions.v ===== *)
(** * Properties of the decisions helper

    The operations of the helper as an alphabet ([op]), sequences of operations
    in which a panic is recovered by the caller (as [ProcessEvent] does) and the
    execution goes on with the state that was reached, and what holds along
    every such sequence. *)

From stdpp Require Import base list gmap strings relations.
From S2P Require Import Prelude.
From S2P Require Import Shared.
From S2P Require Import DecisionStateMachine.
From S2P Require Import DecisionEdges.
From S2P Require Import DecisionsHelper.
From S2P Require Import DecisionsInvariant.
From S2P Require Import DecisionsDrain.

Inductive op (D : Type) :=
| opScheduleActivityTask (attributes : ScheduleActivityTaskDecisionAttributes)
| opRequestCancelActivityTask (activityID : string)
| opActivityTaskClosed (activityID : string)
| opActivityTaskScheduled (scheduledEventID : Z) (activityID : string)
| opActivityTaskCancelRequested (activityID : string)
| opActivityTaskCanceled (activityID : string)
| opRequestCancelActivityTaskFailed (activityID : string)
| opRecordVersionMarker (changeID : string) (version : Z)
| opRecordSideEffectMarker (sideEffectID : Z) (data : bytes)
| opRecordLocalActivityMarker (activityID : string) (result : bytes)
| opRecordMutableSideEffectMarker (mutableSideEffectID : string) (data : bytes)
| opStartChildWorkflow (attributes : StartChildWorkflowExecutionDecisionAttributes)
| opStartChildWorkflowInitiated (workflowID : string)
| opStartChildWorkflowFailed (workflowID : string)
| opChildWorkflowStarted (workflowID : string)
| opChildWorkflowClosed (workflowID : string)
| opChildWorkflowCanceled (workflowID : string)
| opRequestCancelExternal (domain workflowID runID cancellationID : string) (childOnly : bool)
| opRequestCancelExternalInitiated (eventID : Z) (workflowID cancellationID : string)
| opExternalCancelRequested (eventID : Z) (workflowID : string)
| opRequestCancelExternalFailed (eventID : Z) (workflowID : string)
| opSignalExternal (domain workflowID runID signalName : string) (input : bytes)
    (signalID : string) (childOnly : bool)
| opSignalExternalInitiated (eventID : Z) (signalID : string)
| opSignalExternalCompleted (eventID : Z)
| opSignalExternalFailed (eventID : Z)
| opUpsertSearchAttributes (upsertID : string) (attr : option SearchAttributes)
| opStartTimer (attributes : StartTimerDecisionAttributes)
| opCancelTimer (timerID : string)
| opTimerClosed (timerID : string)
| opTimerStarted (timerID : string)
| opTimerCanceled (timerID : string)
| opCancelTimerFailed (timerID : string)
| opGetDecisions (markAsSent : bool)
| opSetData (p : ptr) (data : D).
Arguments opScheduleActivityTask {D}.
Arguments opRequestCancelActivityTask {D}.
Arguments opActivityTaskClosed {D}.
Arguments opActivityTaskScheduled {D}.
Arguments opActivityTaskCancelRequested {D}.
Arguments opActivityTaskCanceled {D}.
Arguments opRequestCancelActivityTaskFailed {D}.
Arguments opRecordVersionMarker {D}.
Arguments opRecordSideEffectMarker {D}.
Arguments opRecordLocalActivityMarker {D}.
Arguments opRecordMutableSideEffectMarker {D}.
Arguments opStartChildWorkflow {D}.
Arguments opStartChildWorkflowInitiated {D}.
Arguments opStartChildWorkflowFailed {D}.
Arguments opChildWorkflowStarted {D}.
Arguments opChildWorkflowClosed {D}.
Arguments opChildWorkflowCanceled {D}.
Arguments opRequestCancelExternal {D}.
Arguments opRequestCancelExternalInitiated {D}.
Arguments opExternalCancelRequested {D}.
Arguments opRequestCancelExternalFailed {D}.
Arguments opSignalExternal {D}.
Arguments opSignalExternalInitiated {D}.
Arguments opSignalExternalCompleted {D}.
Arguments opSignalExternalFailed {D}.
Arguments opUpsertSearchAttributes {D}.
Arguments opStartTimer {D}.
Arguments opCancelTimer {D}.
Arguments opTimerClosed {D}.
Arguments opTimerStarted {D}.
Arguments opTimerCanceled {D}.
Arguments opCancelTimerFailed {D}.
Arguments opGetDecisions {D}.
Arguments opSetData {D}.

(** The operations unfold to their primitives in proofs. *)
Create HintDb ops.
#[export] Hint Unfold
  scheduleActivityTask
  requestCancelActivityTask
  handleActivityTaskClosed
  handleActivityTaskScheduled
  handleActivityTaskCancelRequested
  handleActivityTaskCanceled
  handleRequestCancelActivityTaskFailed
  recordVersionMarker
  recordSideEffectMarker
  recordLocalActivityMarker
  recordMutableSideEffectMarker
  startChildWorkflowExecution
  handleStartChildWorkflowExecutionInitiated
  handleStartChildWorkflowExecutionFailed
  handleChildWorkflowExecutionStarted
  handleChildWorkflowExecutionClosed
  handleChildWorkflowExecutionCanceled
  handleSignalExternalWorkflowExecutionInitiated
  handleSignalExternalWorkflowExecutionCompleted
  handleSignalExternalWorkflowExecutionFailed
  upsertSearchAttributes
  startTimer
  cancelTimer
  handleTimerClosed
  handleTimerStarted
  handleTimerCanceled
  handleCancelTimerFailed
  encodeArgs
  handleExternalWorkflowExecutionCancelRequested
  requestCancelExternalWorkflowExecution 
  handleRequestCancelExternalWorkflowExecutionInitiated 
  handleRequestCancelExternalWorkflowExecutionFailed 
  signalExternalWorkflowExecution : ops.

Section theorems.
Context {D : Type} {dc : DataConverter}.
Implicit Types (p q : ptr) (m : machine D) (h : decisionsHelper D)
  (Q : gmap ptr (machine D) → Prop).

Definition ignore {S A} (c : M S A) : M S unit := c;; mret tt.

Definition exec (o : op D) : M (decisionsHelper D) unit :=
  match o with
  | opScheduleActivityTask attributes => ignore (scheduleActivityTask attributes)
  | opRequestCancelActivityTask id => ignore (requestCancelActivityTask id)
  | opActivityTaskClosed id => ignore (handleActivityTaskClosed id)
  | opActivityTaskScheduled ev id => handleActivityTaskScheduled ev id
  | opActivityTaskCancelRequested id => handleActivityTaskCancelRequested id
  | opActivityTaskCanceled id => ignore (handleActivityTaskCanceled id)
  | opRequestCancelActivityTaskFailed id => handleRequestCancelActivityTaskFailed id
  | opRecordVersionMarker id v => ignore (recordVersionMarker id v)
  | opRecordSideEffectMarker id data => ignore (recordSideEffectMarker id data)
  | opRecordLocalActivityMarker id data => ignore (recordLocalActivityMarker id data)
  | opRecordMutableSideEffectMarker id data => ignore (recordMutableSideEffectMarker id data)
  | opStartChildWorkflow attributes => ignore (startChildWorkflowExecution attributes)
  | opStartChildWorkflowInitiated id => handleStartChildWorkflowExecutionInitiated id
  | opStartChildWorkflowFailed id => ignore (handleStartChildWorkflowExecutionFailed id)
  | opChildWorkflowStarted id => ignore (handleChildWorkflowExecutionStarted id)
  | opChildWorkflowClosed id => ignore (handleChildWorkflowExecutionClosed id)
  | opChildWorkflowCanceled id => ignore (handleChildWorkflowExecutionCanceled id)
  | opRequestCancelExternal domain wid rid cid child =>
      ignore (requestCancelExternalWorkflowExecution domain wid rid cid child)
  | opRequestCancelExternalInitiated ev wid cid =>
      handleRequestCancelExternalWorkflowExecutionInitiated ev wid cid
  | opExternalCancelRequested ev wid =>
      ignore (handleExternalWorkflowExecutionCancelRequested ev wid)
  | opRequestCancelExternalFailed ev wid =>
      ignore (handleRequestCancelExternalWorkflowExecutionFailed ev wid)
  | opSignalExternal domain wid rid name input sid child =>
      ignore (signalExternalWorkflowExecution domain wid rid name input sid child)
  | opSignalExternalInitiated ev sid => handleSignalExternalWorkflowExecutionInitiated ev sid
  | opSignalExternalCompleted ev => ignore (handleSignalExternalWorkflowExecutionCompleted ev)
  | opSignalExternalFailed ev => ignore (handleSignalExternalWorkflowExecutionFailed ev)
  | opUpsertSearchAttributes id attr => ignore (upsertSearchAttributes id attr)
  | opStartTimer attributes => ignore (startTimer attributes)
  | opCancelTimer id => ignore (cancelTimer id)
  | opTimerClosed id => ignore (handleTimerClosed id)
  | opTimerStarted id => handleTimerStarted id
  | opTimerCanceled id => handleTimerCanceled id
  | opCancelTimerFailed id => handleCancelTimerFailed id
  | opGetDecisions markAsSent => ignore (getDecisions markAsSent)
  | opSetData p data => setData p data
  end.

(** The state after a sequence of operations, panics recovered. *)
Definition execs (os : list (op D)) h : decisionsHelper D := foldl (λ h o, snd (exec o h)) h os.

(** ** Every operation keeps the invariant *)

Lemma pres_ignore {A} P (c : M (decisionsHelper D) A) : pres P c → pres P (ignore c).
Proof. intros Hc. apply pres_bind; [done|intros; apply pres_ret]. Qed.

Lemma getDecisions_false_run h :
  wf h → getDecisions false h = (Ret (pending (orderedDecisions h) h), h).
Proof.
  intros Hwf. unfold getDecisions. run.
  enough (∀ l l1 fuel acc, orderedDecisions h = l1 ++ l → length l ≤ fuel →
    getDecisions_loop fuel false (head l) acc h = (Ret (acc ++ pending l h), h)) as Hloop
    by exact (Hloop _ [] _ _ eq_refl (le_n _)).
  induction l as [|p l IH]; intros l1 fuel acc Hl Hf.
  { destruct fuel; simpl; run; by rewrite app_nil_r. }
  destruct fuel as [|fuel]; simpl in Hf; [lia|].
  destruct (wf_listed _ Hwf p) as (m & Hm & Hd & Hst); [rewrite Hl; set_solver|].
  pose proof (wf_nodup _ Hwf) as Hnd. rewrite Hl in Hnd.
  apply NoDup_app in Hnd as (_ & Hdis & _).
  cbn [getDecisions_loop head]. run. rewrite !(load_run _ _ _ Hm). rewrite decide_False by done.
  rewrite Hl, list_Next_mid by set_solver. rewrite (IH (l1 ++ [p])).
  - unfold pending, pending_at. csimpl. rewrite Hm. simpl.
    by destruct (getDecision_of m); rewrite <- ?app_assoc.
  - rewrite Hl. by rewrite <- app_assoc.
  - lia.
Qed.

Lemma inv_drain Q `{!HeapStable Q} l l1 h :
  inv Q h → orderedDecisions h = l1 ++ l → inv Q (drain l h).
Proof.
  revert l1 h. induction l as [|p l IH]; intros l1 h [Hwf HQ] Hl; [done|]. simpl.
  destruct (drain1_ordered h p l1 l Hwf Hl) as (Hwf' & _ & l1' & _ & Hord).
  apply (IH l1'); [|done]. split; [done|].
  destruct (wf_listed _ Hwf p) as (m & Hm & Hd & Hst); [rewrite Hl; set_solver|].
  destruct (settle_sent p m h l1 l Hwf Hm Hl) as (_ & Hheap & _).
  unfold drain1. rewrite Hm, Hheap.
  apply (stable_step _ _ m); auto using after_sent_id, after_sent_data, after_sent_effect.
  by rewrite after_sent_kind.
Qed.

Lemma pres_getDecisions Q `{!HeapStable Q} b : pres (inv Q) (getDecisions (D:=D) b).
Proof.
  intros h [Hwf HQ]. destruct b.
  - rewrite getDecisions_run by done. by apply (inv_drain Q _ []).
  - by rewrite getDecisions_false_run by done.
Qed.

Hint Resolve pres_ignore pres_getDecisions : pres.
Hint Extern 1 (pres _ (match ?x with _ => _ end)) => destruct x : pres.
Hint Extern 1 (pres _ (if ?x then _ else _)) => destruct x : pres.

Lemma exec_pres Q `{!HeapStable Q, !DataStable Q} o : pres (inv Q) (exec o).
Proof.
  destruct o; cbn [exec]; autounfold with ops; unfold getSignalID; auto 14 with pres.
Qed.

Lemma execs_inv Q `{!HeapStable Q, !DataStable Q} os h : inv Q h → inv Q (execs os h).
Proof.
  revert h. induction os as [|o os IH]; intros h Hh; [done|].
  simpl. apply IH. by apply exec_pres.
Qed.

(** ** Machines only move forward *)

(** [H'] extends [H]: its machines are still there, with their identity and
    their class, in a state that their diagram reaches. *)
Definition evolves (H H' : gmap ptr (machine D)) : Prop :=
  ∀ p m, H !! p = Some m → ∃ m', H' !! p = Some m' ∧ m_id m' = m_id m
    ∧ class_of (m_kind m') = class_of (m_kind m)
    ∧ rtc (edge (class_of (m_kind m))) (m_state m) (m_state m').

Lemma evolves_refl (H : gmap ptr (machine D)) : evolves H H.
Proof. intros p m Hm. exists m. by split_and!; [..|apply rtc_refl]. Qed.

Global Instance evolves_stable H0 : HeapStable (evolves H0).
Proof.
  split.
  - intros H p m m' HQ Hm Hid Hc _ Hs q n Hq. destruct (HQ q n Hq) as (n' & Hn' & Hid' & Hc' & Hr).
    rewrite lookup_insert. case_decide as Hpq; [subst q|by exists n'].
    replace n' with m in * by congruence. exists m'. split_and!; [done|congruence..|].
    destruct Hs as [->|He]; [done|]. rewrite Hc' in He. by eapply rtc_r.
  - intros H p m HQ Hp Hs _ q n Hq. destruct (HQ q n Hq) as (n' & Hn' & ?).
    rewrite lookup_insert_ne by congruence. by exists n'.
Qed.

Global Instance evolves_data H0 : DataStable (evolves H0).
Proof.
  intros H p m d HQ Hm q n Hq. destruct (HQ q n Hq) as (n' & Hn' & Hr).
  rewrite lookup_insert. case_decide; [subst q|by exists n'].
  replace n' with m in * by congruence. by exists (set_data d m).
Qed.

Lemma execs_evolves os h : wf h → evolves (heap h) (heap (execs os h)).
Proof. intros Hwf. eapply execs_inv; [apply _..|]. split; [done|apply evolves_refl]. Qed.

Lemma execs_wf os h : wf h → wf (execs os h).
Proof. intros Hwf. by eapply (execs_inv (λ _, True)). Qed.

Lemma no_edge_to_created c s : ¬ edge c s decisionStateCreated.
Proof. inversion 1. Qed.

Lemma rtc_edge_created c s : rtc (edge c) s decisionStateCreated → s = decisionStateCreated.
Proof.
  remember decisionStateCreated as s' eqn:Hs'. induction 1 as [|s1 s2 s3 He _ IH]; [done|].
  rewrite IH in He by done. subst s3. by apply no_edge_to_created in He.
Qed.

(** ** Adding a machine *)

Definition added m h : decisionsHelper D :=
  DecisionsHelper (<[heap_next h := m]> (heap h)) (S (heap_next h))
    (orderedDecisions h ++ [heap_next h]) (<[m_id m := heap_next h]> (decisions h))
    (scheduledEventIDToActivityID h) (scheduledEventIDToCancellationID h)
    (scheduledEventIDToSignalID h).

Lemma add_new_run m h :
  decisions h !! m_id m = None → add_new (alloc m) h = (Ret (heap_next h), added m h).
Proof.
  intros Hd. unfold add_new, alloc. run.
  rewrite (addDecision_run _ m) by apply lookup_insert_eq. simpl. by rewrite Hd.
Qed.

Lemma heap_next_fresh h : wf h → heap h !! heap_next h = None.
Proof.
  intros Hwf. destruct (heap h !! heap_next h) eqn:Hn; [|done].
  apply (wf_machine _ Hwf) in Hn as [? _]. lia.
Qed.

Lemma heap_next_unlisted h : wf h → heap_next h ∉ orderedDecisions h.
Proof.
  intros Hwf Hin. destruct (wf_listed _ Hwf _ Hin) as (m & Hm & _).
  by rewrite heap_next_fresh in Hm.
Qed.

Lemma wf_added m h :
  wf h → decisions h !! m_id m = None → m_state m = decisionStateCreated →
  (m_id m).1 = type_of_class (class_of (m_kind m)) → wf (added m h).
Proof.
  intros Hwf Hd Hs Ht. refine (wf_add (λ _, True) (heap_next h) m (snd (alloc m h)) _ _ _ _).
  - by apply wf_alloc.
  - apply lookup_insert_eq.
  - done.
  - by rewrite Hs.
Qed.

(** Looking up the machine at the back of the list leaves the list as it is. *)
Lemma on_decision_back k (f : ptr → M (decisionsHelper D) unit) p l h :
  decisions h !! k = Some p → orderedDecisions h = l ++ [p] → p ∉ l →
  on_decision k f h = match f p h with
                      | (Ret _, h') => (Ret p, h')
                      | (Panic e, h') => (Panic e, h')
                      end.
Proof.
  intros Hk Hl Hp. unfold on_decision. run. rewrite getDecision_run, Hk.
  assert (set_lists (list_MoveToBack p (orderedDecisions h)) (decisions h) h = h) as ->; [|done].
  unfold list_MoveToBack. rewrite decide_True by (rewrite Hl; set_solver).
  rewrite Hl. unfold list_Remove. rewrite filter_app, filter_cons, decide_False by naive_solver.
  rewrite filter_nil, app_nil_r. fold (list_Remove p l). rewrite Remove_notin by done.
  rewrite <- Hl. by destruct h.
Qed.

(** Cancelling a machine that was never sent completes it. *)
Lemma cancel_created p m h :
  heap h !! p = Some m → m_state m = decisionStateCreated → cancellable (class_of (m_kind m)) →
  ∃ m', cancel p h = (Ret tt, forget (m_id m) (put p m' h)) ∧ m_id m' = m_id m
        ∧ m_state m' = decisionStateCompleted.
Proof.
  intros Hm Hs Hc. destruct m as [id st hist data k]; simpl in *; subst st.
  destruct k; simpl in Hc; try (exfalso; by destruct Hc as [?|[?|?]]);
    unfold_methods; run; repeat method_step; by eexists.
Qed.

Lemma create_cancel_run m h :
  wf h → decisions h !! m_id m = None → m_state m = decisionStateCreated →
  cancellable (class_of (m_kind m)) →
  ∃ h', on_decision (m_id m) cancel (added m h) = (Ret (heap_next h), h')
    ∧ orderedDecisions h' = orderedDecisions h ∧ decisions h' = decisions h
    ∧ (∀ p, p ∈ orderedDecisions h → heap h' !! p = heap h !! p).
Proof.
  intros Hwf Hd Hs Hc. pose proof (heap_next_unlisted h Hwf) as Hnew.
  erewrite on_decision_back; [|apply lookup_insert_eq|done|done].
  destruct (cancel_created (heap_next h) m (added m h)) as (m' & -> & Hid & Hs');
    [apply lookup_insert_eq|done..|].
  eexists. split; [done|]. unfold forget. simpl. rewrite lookup_insert_eq. simpl. split_and!.
  - rewrite Remove_mid, app_nil_r; [done|]. apply NoDup_app. split_and!.
    + apply Hwf.
    + set_solver.
    + apply NoDup_singleton.
  - rewrite delete_insert_id; done.
  - intros p Hp. rewrite !lookup_insert_ne by set_solver. done.
Qed.

(** ** The way of an activity *)

Lemma initiated_sent p m h :
  heap h !! p = Some m → m_state m = decisionStateDecisionSent →
  class_of (m_kind m) = Activity →
  ∃ m', handleInitiatedEvent p h = (Ret tt, put p m' h) ∧ m_id m' = m_id m
    ∧ m_kind m' = m_kind m ∧ m_state m' = decisionStateInitiated.
Proof.
  intros Hm Hs Hc. destruct m as [id st hist data k]; simpl in *; subst st.
  destruct k; try done; unfold_methods; run; repeat method_step; by eexists.
Qed.

Lemma completion_initiated p m h :
  heap h !! p = Some m → m_state m = decisionStateInitiated →
  class_of (m_kind m) = Activity →
  ∃ m', handleCompletionEvent p h = (Ret tt, forget (m_id m) (put p m' h))
    ∧ m_state m' = decisionStateCompleted ∧ class_of (m_kind m') = Activity
    ∧ m_data m' = m_data m.
Proof.
  intros Hm Hs Hc. destruct m as [id st hist data k]; simpl in *; subst st.
  destruct k; try done; unfold_methods; run; repeat method_step; by eexists.
Qed.

(** ** Panics *)

(** No machine has moved and no machine has entered or left the helper. *)
Definition frozen h h' : Prop :=
  (∀ p m, heap h !! p = Some m → ∃ m', heap h' !! p = Some m' ∧ m_id m' = m_id m
     ∧ class_of (m_kind m') = class_of (m_kind m) ∧ m_state m' = m_state m)
  ∧ decisions h' = decisions h ∧ orderedDecisions h' ≡ₚ orderedDecisions h.

Lemma frozen_refl h : frozen h h.
Proof. split; [|done]. intros p m Hm. by exists m. Qed.

Lemma frozen_trans h1 h2 h3 : frozen h1 h2 → frozen h2 h3 → frozen h1 h3.
Proof.
  intros (H1 & D1 & O1) (H2 & D2 & O2). split; [|split; [congruence|by rewrite O2]].
  intros p m Hm. destruct (H1 p m Hm) as (m' & Hm' & ? & ? & ?).
  destruct (H2 p m' Hm') as (m'' & Hm'' & ? & ? & ?). exists m''. split_and!; congruence.
Qed.

Definition atomic {A} (c : M (decisionsHelper D) A) : Prop :=
  ∀ h, wf h → match c h with (Panic _, h') => frozen h h' | (Ret _, _) => True end.

(** A method that panics has not moved its machine. *)
Lemma call_panic c p m h :
  heap h !! p = Some m →
  match call c p h with
  | (Panic _, h') => h' = h ∨ ∃ m', h' = put p m' h ∧ m_id m' = m_id m
      ∧ class_of (m_kind m') = class_of (m_kind m) ∧ m_state m' = m_state m
  | (Ret _, _) => True
  end.
Proof.
  intros Hm. destruct m as [id st hist data k]. destruct c, k, st; unfold_methods; run;
    repeat method_step; first [done | by left | right; by eexists].
Qed.

Lemma frozen_put p m m' h :
  heap h !! p = Some m → m_id m' = m_id m → class_of (m_kind m') = class_of (m_kind m) →
  m_state m' = m_state m → frozen h (put p m' h).
Proof.
  intros Hp Hid Hc Hs. split; [|done]. intros q n Hq. simpl. rewrite lookup_insert.
  case_decide; [|by exists n]. subst q. exists m'. split_and!; congruence.
Qed.

Lemma frozen_MoveToBack p h :
  wf h → frozen h (set_lists (list_MoveToBack p (orderedDecisions h)) (decisions h) h).
Proof.
  intros Hwf. split; [intros q m Hq; by exists m|]. split; [done|].
  apply Permutation_MoveToBack, Hwf.
Qed.

Lemma atomic_on_decision k method c : (∀ p, method p = call c p) → atomic (on_decision k method).
Proof.
  intros Hc h Hwf. unfold on_decision. run. rewrite getDecision_run.
  destruct (decisions h !! k) as [p|] eqn:Hk; simpl.
  2: { unfold getDecision. run. rewrite Hk. simpl. apply frozen_refl. }
  destruct (wf_mapped _ Hwf _ _ Hk) as (_ & m & Hm & _). rewrite Hc.
  set (h1 := set_lists _ _ h).
  pose proof (call_panic c p m h1 Hm) as Hp. destruct (call c p h1) as [[[]|e] h']; [done|].
  eapply frozen_trans; [by apply frozen_MoveToBack|]. fold h1.
  destruct Hp as [->|(m' & -> & ? & ? & ?)]; [apply frozen_refl|by eapply frozen_put].
Qed.

Lemma frozen_alloc m h : wf h → frozen h (snd (alloc m h)).
Proof.
  intros Hwf. split; [|done]. intros p n Hn. exists n. simpl. rewrite lookup_insert_ne; [done|].
  intros <-. by rewrite heap_next_fresh in Hn.
Qed.

Lemma atomic_add_new m : atomic (add_new (alloc m)).
Proof.
  intros h Hwf. unfold add_new. run. pose proof (frozen_alloc m h Hwf) as Hf.
  destruct (alloc m h) as [o h'] eqn:Ha. unfold alloc in Ha. injection Ha as <- <-.
  rewrite (addDecision_run _ m) by apply lookup_insert_eq. simpl in *.
  by destruct (decisions h !! m_id m).
Qed.

Lemma atomic_mret {A} (a : A) : atomic (mret a).
Proof. intros h Hh. exact I. Qed.

Lemma atomic_throw {A} e : atomic (throw (A:=A) e).
Proof. intros h Hh. apply frozen_refl. Qed.

Lemma atomic_bind_mret {A B} (c : M (decisionsHelper D) A) (f : A → B) :
  atomic c → atomic (a ← c; mret (f a)).
Proof. intros Hc h Hwf. specialize (Hc h Hwf). run. by destruct (c h) as [[]]. Qed.

Lemma atomic_get_bind {A} (f : decisionsHelper D → M (decisionsHelper D) A) :
  (∀ h, atomic (f h)) → atomic (h ← get; f h).
Proof. intros Hf h Hwf. run. by apply Hf. Qed.

Lemma atomic_modify_bind {A} f (c : M (decisionsHelper D) A) :
  (∀ h, wf h → wf (f h)) → (∀ h, frozen h (f h)) → atomic c → atomic (modify f;; c).
Proof.
  intros Hwf' Hf Hc h Hwf. run. specialize (Hc (f h) (Hwf' h Hwf)).
  destruct (c (f h)) as [[]]; [done|]. by eapply frozen_trans.
Qed.

Lemma atomic_signal {A} ev (f : string → M (decisionsHelper D) A) :
  (∀ id, atomic (f id)) → atomic (getSignalID ev ≫= f).
Proof.
  intros Hf h Hwf. unfold getSignalID. run.
  destruct (scheduledEventIDToSignalID h !! ev); [by apply Hf|apply frozen_refl].
Qed.

Lemma atomic_getDecision k : atomic (getDecision k).
Proof.
  intros h Hwf. unfold getDecision. run.
  destruct (decisions h !! k); [done|apply frozen_refl].
Qed.

Lemma atomic_setData p d : atomic (setData p d).
Proof.
  intros h Hwf. unfold setData, load. run. destruct (heap h !! p); [done|apply frozen_refl].
Qed.

Lemma atomic_getDecisions b : atomic (getDecisions b).
Proof.
  intros h Hwf. destruct b; [by rewrite getDecisions_run|by rewrite getDecisions_false_run].
Qed.

Lemma atomic_fields {A} f (c : M (decisionsHelper D) A) :
  (∀ h, heap (f h) = heap h) → (∀ h, heap_next (f h) = heap_next h) →
  (∀ h, orderedDecisions (f h) = orderedDecisions h) → (∀ h, decisions (f h) = decisions h) →
  atomic c → atomic (modify f;; c).
Proof.
  intros E1 E2 E3 E4 Hc. apply atomic_modify_bind; [| |done].
  - intros h Hwf. by apply (inv_ext (λ _, True) h (f h)).
  - intros h. split; [|by rewrite E3, E4]. intros p m Hp. exists m. by rewrite E1.
Qed.

(** What holds of a method call on a machine, for each operation. *)
Ltac atomic_step :=
  lazymatch goal with
  | |- atomic (mret _) => apply atomic_mret
  | |- atomic (throw _) => apply atomic_throw
  | |- atomic (getDecision _) => apply atomic_getDecision
  | |- atomic (setData _ _) => apply atomic_setData
  | |- atomic (getDecisions _) => apply atomic_getDecisions
  | |- atomic (add_new _) => apply atomic_add_new
  | |- atomic (on_decision _ cancel) => apply (atomic_on_decision _ _ mCancel)
  | |- atomic (on_decision _ handleStartedEvent) => apply (atomic_on_decision _ _ mStarted)
  | |- atomic (on_decision _ handleCancelInitiatedEvent) =>
      apply (atomic_on_decision _ _ mCancelInitiated)
  | |- atomic (on_decision _ handleCanceledEvent) => apply (atomic_on_decision _ _ mCanceled)
  | |- atomic (on_decision _ handleCancelFailedEvent) =>
      apply (atomic_on_decision _ _ mCancelFailed)
  | |- atomic (on_decision _ handleCompletionEvent) =>
      apply (atomic_on_decision _ _ mCompletion)
  | |- atomic (on_decision _ handleInitiationFailedEvent) =>
      apply (atomic_on_decision _ _ mInitiationFailed)
  | |- atomic (on_decision _ handleInitiatedEvent) => apply (atomic_on_decision _ _ mInitiated)
  | |- atomic (modify _ ≫= _) => apply atomic_fields
  | |- atomic (get ≫= _) => apply atomic_get_bind; intros
  | |- atomic (getSignalID _ ≫= _) => apply atomic_signal; intros
  | |- atomic (_ ≫= _) => apply atomic_bind_mret
  | |- atomic (match ?x with _ => _ end) => destruct x
  | |- _ => reflexivity
  end.

Lemma exec_atomic o : atomic (exec o).
Proof.
  destruct o; cbn [exec]; unfold ignore; autounfold with ops; repeat atomic_step.
Qed.

End theorems.
