(* ===== verification/DecisionsProps.v ===== *)
(** * What the decisions helper guarantees

    The theorems about the decisions helper: its invariant, the refinement of
    the machines to their diagrams, what [getDecisions] returns, what a panic
    leaves behind, and the life of a decision from its creation to its end. *)

From stdpp Require Import base list gmap strings relations.
From S2P Require Import Prelude.
From S2P Require Import Shared.
From S2P Require Import DecisionStateMachine.
From S2P Require Import DecisionEdges.
From S2P Require Import DecisionsHelper.
From S2P Require Import DecisionsInvariant.
From S2P Require Import DecisionsDrain.
From S2P Require Import Decisions.

Section props.
Context {D : Type} {dc : DataConverter}.
Implicit Types (p q : ptr) (m : machine D) (h : decisionsHelper D).

(** ** Draining a prefix of the list *)

Lemma drain_ordered l h l1 l2 :
  wf h → orderedDecisions h = l1 ++ l ++ l2 →
  wf (drain l h) ∧ (∀ q, q ∉ l → heap (drain l h) !! q = heap h !! q) ∧
  ∃ l1', l1' ⊆ l1 ++ l ∧ orderedDecisions (drain l h) = l1' ++ l2.
Proof.
  revert l1 h. induction l as [|p l IH]; intros l1 h Hwf Hl; simpl.
  { split_and!; [done..|]. exists l1. split; [set_solver|done]. }
  destruct (drain1_ordered h p l1 (l ++ l2) Hwf Hl) as (Hwf' & Hheap & l1' & Hsub & Hord).
  destruct (IH l1' (drain1 h p) Hwf' Hord) as (Hwf'' & Hheap' & l1'' & Hsub' & Hord').
  split_and!; [done| |].
  - intros q Hq. rewrite Hheap', Hheap by set_solver. done.
  - exists l1''. split; [set_solver|done].
Qed.

(** The machine at the back of the list after everything was sent. *)
Lemma drain_back l p m h :
  wf h → orderedDecisions h = l ++ [p] → heap h !! p = Some m →
  m_state (after_sent m) ≠ decisionStateCompleted →
  let h' := drain (l ++ [p]) h in
  wf h' ∧ heap h' !! p = Some (after_sent m) ∧ decisions h' !! m_id m = Some p ∧
  ∃ l', (p ∉ l') ∧ orderedDecisions h' = l' ++ [p].
Proof.
  intros Hwf Hl Hm Hs h'. subst h'. unfold drain. rewrite foldl_app. fold (drain l h). simpl.
  pose proof (wf_nodup _ Hwf) as Hnd. rewrite Hl in Hnd.
  apply NoDup_app in Hnd as (_ & Hdis & _).
  destruct (drain_ordered l h [] [p] Hwf Hl) as (Hwf' & Hheap & l' & Hsub & Hord).
  assert (heap (drain l h) !! p = Some m) as Hm' by (rewrite Hheap; set_solver).
  destruct (settle_sent p m (drain l h) l' [] Hwf' Hm' Hord) as (Hwf'' & Hheap' & Hord' & _).
  unfold drain1. rewrite Hm'. rewrite decide_False in Hord' by done.
  assert (heap (settle p (after_sent m) (drain l h)) !! p = Some (after_sent m)) as Hp
    by (rewrite Hheap'; apply lookup_insert_eq).
  destruct (wf_listed _ Hwf'' p) as (m' & Hm'' & Hd & _); [rewrite Hord'; set_solver|].
  split_and!; [done..| |].
  - rewrite Hp in Hm''. injection Hm'' as <-. by rewrite after_sent_id in Hd.
  - exists l'. split; [set_solver|done].
Qed.

Lemma wf_drain h : wf h → wf (drain (orderedDecisions h) h).
Proof.
  intros Hwf. by destruct (drain_ordered (orderedDecisions h) h [] [])
    as (? & _); rewrite ?app_nil_r.
Qed.

(** Nothing is left to send after a drain. *)
Lemma pending_drained h : wf h → pending (orderedDecisions (drain (orderedDecisions h) h))
    (drain (orderedDecisions h) h) = [].
Proof.
  intros Hwf.
  enough (∀ l l1 h, wf h → orderedDecisions h = l1 ++ l → pending l1 h = [] →
    pending (orderedDecisions (drain l h)) (drain l h) = []) as Hgen by by eapply (Hgen _ []).
  clear. induction l as [|p l IH]; intros l1 h Hwf Hl Hp; simpl.
  { by rewrite Hl, app_nil_r. }
  pose proof (wf_nodup _ Hwf) as Hnd. rewrite Hl in Hnd.
  apply NoDup_app in Hnd as (_ & Hdis & _).
  destruct (wf_listed _ Hwf p) as (m & Hm & _ & _); [rewrite Hl; set_solver|].
  destruct (settle_sent p m h l1 l Hwf Hm Hl) as (Hwf' & Hheap & Hord & _).
  unfold drain1. rewrite Hm. eapply IH; [done|by rewrite Hord, app_assoc|].
  unfold pending. rewrite omap_app. fold (pending l1 (settle p (after_sent m) h)).
  rewrite (pending_ext l1 h), Hp; [simpl|].
  - case_decide; csimpl; [done|]. unfold pending_at. rewrite Hheap, lookup_insert_eq. simpl.
    by rewrite after_sent_nothing.
  - intros q Hq. rewrite Hheap, lookup_insert_ne; [done|]. set_solver.
Qed.

(** ** Every edge is taken *)

Definition sample_kind (c : class) : kind :=
  match c with
  | Activity => activityDecisionStateMachine
      (MkScheduleActivityTaskDecisionAttributes None None None None None None None None None
         None None None)
  | Timer => timerDecisionStateMachine (MkStartTimerDecisionAttributes None None) false
  | ChildWorkflow => childWorkflowDecisionStateMachine
      (MkStartChildWorkflowExecutionDecisionAttributes None None None None None None None None
         None None None None None None None None None)
  | CancelExternal => cancelExternalWorkflowDecisionStateMachine Decision_nil
  | SignalExternal => signalExternalWorkflowDecisionStateMachine Decision_nil
  | Marker => markerDecisionStateMachine Decision_nil
  | Upsert => upsertSearchAttributesDecisionStateMachine Decision_nil
  end.

Definition sample (c : class) (s : decisionState) : machine D :=
  Machine (type_of_class c, "id") s [] None (sample_kind c).

Definition sample_helper (c : class) (s : decisionState) : decisionsHelper D :=
  put 0 (sample c s) newDecisionsHelper.

Definition takes (c : class) (s s' : decisionState) (meth : method) : bool :=
  match heap (snd (call meth 0 (sample_helper c s))) !! 0 with
  | Some m' => bool_decide (m_state m' = s')
  | None => false
  end.

Lemma edge_taken c s s' : edge c s s' → ∃ meth, takes c s s' meth = true.
Proof.
  intros He. destruct He; destruct_or?; subst; try destruct c;
    try (exfalso; unfold immediate, cancellable, simple in *; naive_solver congruence);
    first [ by exists mCancel | by exists mStarted | by exists mCanceled | by exists mCancelFailed
          | by exists mCompletion | by exists mInitiationFailed | by exists mInitiated
          | by exists mDecisionSent ].
Qed.

(** ** The theorems *)

(** C3: After any sequence of operations on a new helper, panics recovered
    by the caller included, the ordered list and the map hold the same machines,
    each once, none of them completed, and every machine ever created is in a
    state that the diagram of its kind reaches from [Created]. *)
Theorem decisions_invariant (os : list (op D)) : wf (execs os newDecisionsHelper).
Proof. apply execs_wf, wf_new. Qed.

(** Along any further sequence of operations, a machine keeps its
    identity and its kind, moves only along the edges of its diagram, and once it
    has left [Created] it never returns there, so that the decision that
    initiates it is never produced again. *)
Theorem decisions_move_forward (os os' : list (op D)) p m :
  heap (execs os newDecisionsHelper) !! p = Some m →
  ∃ m', heap (execs os' (execs os newDecisionsHelper)) !! p = Some m'
    ∧ m_id m' = m_id m ∧ class_of (m_kind m') = class_of (m_kind m)
    ∧ rtc (edge (class_of (m_kind m))) (m_state m) (m_state m')
    ∧ (m_state m' = decisionStateCreated → m_state m = decisionStateCreated).
Proof.
  intros Hm. destruct (execs_evolves os' _ (execs_wf os _ wf_new) p m Hm)
    as (m' & Hm' & Hid & Hc & Hr).
  exists m'. split_and!; [done..|]. intros Hs. rewrite Hs in Hr. by eapply rtc_edge_created.
Qed.

(** A method that moves a machine moves it along an edge. *)
Lemma call_edge meth p (h : decisionsHelper D) m m' :
  heap h !! p = Some m → heap (snd (call meth p h)) !! p = Some m' → m_state m ≠ m_state m' →
  edge (class_of (m_kind m)) (m_state m) (m_state m').
Proof.
  intros Hm Hm' Hne. destruct (call_effect meth p m h Hm) as [n n' Hn|n n' Hn|n n' Hn];
    rewrite ?heap_forget in Hm'; simpl in Hm'; rewrite lookup_insert_eq in Hm';
    simplify_eq; congruence || done.
Qed.

(** A marker is completed as soon as it is sent: it is never in the state
    between, which a comment of the source describes. *)
Lemma marker_never_sent meth p (h : decisionsHelper D) m m' :
  heap h !! p = Some m → class_of (m_kind m) = Marker → m_state m = decisionStateCreated →
  heap (snd (call meth p h)) !! p = Some m' →
  m_state m' = decisionStateCreated ∨ m_state m' = decisionStateCompleted.
Proof.
  intros Hm Hc Hs Hm'. destruct (decide (m_state m = m_state m')) as [|Hne]; [left; congruence|].
  right. pose proof (call_edge _ _ _ _ _ Hm Hm' Hne) as He. rewrite Hc, Hs in He.
  inversion He; subst; destruct_or?; try done; exfalso; eauto with edges.
Qed.

(** C34: The diagrams are exact: a class of machine has an edge between two
    states if and only if some method, called on some machine of that class in the
    first state, leaves it in the second.  This is for activities, timers, child
    workflows and external cancellations and signals; what the source says about
    markers is not what they do ([marker_never_sent]). *)
Theorem diagram_exact c s s' :
  ¬ immediate c → s ≠ s' →
  edge c s s' ↔ ∃ meth p (h : decisionsHelper D) m m', heap h !! p = Some m
    ∧ class_of (m_kind m) = c ∧ m_state m = s
    ∧ heap (snd (call meth p h)) !! p = Some m' ∧ m_state m' = s'.
Proof.
  intros _ Hne. split.
  - intros He. destruct (edge_taken c s s' He) as [meth Ht]. unfold takes in Ht.
    destruct (heap (snd (call meth 0 (sample_helper c s))) !! 0) as [m'|] eqn:Hm'; [|done].
    apply bool_decide_eq_true in Ht. exists meth, 0, (sample_helper c s), (sample c s), m'.
    split_and!; [apply lookup_insert_eq|by destruct c|done..].
  - intros (meth & p & h & m & m' & Hm & <- & <- & Hm' & <-). by apply (call_edge meth p h).
Qed.

(** C2: In every state the helper can reach, [getDecisions(true)] returns,
    without a panic and without running out of iterations, the decisions of the
    live machines in list order; it marks each of them as sent; a second call
    returns no decision; and [getDecisions(false)] returns the same decisions and
    changes nothing. *)
Theorem getDecisions_drains (os : list (op D)) :
  let h := execs os newDecisionsHelper in
  let sent := drain (orderedDecisions h) h in
  getDecisions true h = (Ret (pending (orderedDecisions h) h), sent)
  ∧ fst (getDecisions true sent) = Ret []
  ∧ getDecisions false h = (Ret (pending (orderedDecisions h) h), h).
Proof.
  intros h sent. assert (wf h) as Hwf by apply execs_wf, wf_new.
  split_and!; [by apply getDecisions_run| |by apply getDecisions_false_run].
  rewrite getDecisions_run by by apply wf_drain. simpl. f_equal. by apply pending_drained.
Qed.

(** An activity, a timer or a child workflow that is created and then
    cancelled before its decision was sent leaves no trace: the list and the map
    are what they were, and the next decision task sends exactly what it would
    have sent without it. *)
Theorem cancel_before_sent m h :
  wf h → decisions h !! m_id m = None → m_state m = decisionStateCreated →
  cancellable (class_of (m_kind m)) → (m_id m).1 = type_of_class (class_of (m_kind m)) →
  ∃ p h1 h2, add_new (alloc m) h = (Ret p, h1) ∧ on_decision (m_id m) cancel h1 = (Ret p, h2)
    ∧ orderedDecisions h2 = orderedDecisions h ∧ decisions h2 = decisions h
    ∧ fst (getDecisions true h2) = fst (getDecisions true h).
Proof.
  intros Hwf Hd Hs Hc Ht. exists (heap_next h), (added m h).
  destruct (create_cancel_run m h Hwf Hd Hs Hc) as (h2 & Hrun & Ho & Hdec & Hheap).
  exists h2. split_and!; [by apply add_new_run|done..|].
  assert (wf h2) as Hwf2.
  { destruct (pres_on_decision (λ _, True) (m_id m) cancel mCancel (λ _, eq_refl) (added m h))
      as [Hw _]; [split; [by apply wf_added|done]|]. by rewrite Hrun in Hw. }
  rewrite !getDecisions_run by done. simpl. rewrite Ho. by rewrite (pending_ext _ h).
Qed.

(** C33: An operation that panics has moved no machine to another state and
    has neither added a machine to the helper nor taken one out, so a caller that
    recovers from the panic still has the decisions it had. *)
Theorem panic_moves_nothing (os : list (op D)) (o : op D) e h' :
  let h := execs os newDecisionsHelper in
  exec o h = (Panic e, h') → frozen h h'.
Proof.
  intros h He. pose proof (exec_atomic o h (execs_wf os _ wf_new)) as Ha. by rewrite He in Ha.
Qed.

(** The life of an activity that completes: scheduling it on a helper
    that does not have its id appends exactly its schedule decision to what the
    next decision task sends; the scheduled event finds it by its id; the
    completed event is resolved to that id through the scheduled event id; and
    closing it takes it out of the helper, done.  None of the steps panics. *)
Theorem activity_lifecycle h attributes scheduledEventID completed :
  let id := get_string ScheduleActivityTaskDecisionAttributes_ActivityId (Some attributes) in
  let k := makeDecisionID decisionTypeActivity id in
  wf h → decisions h !! k = None →
  activity_scheduledEventID completed = Some scheduledEventID →
  ∃ p h1 h2 h3 h4 m, scheduleActivityTask attributes h = (Ret p, h1)
    ∧ getDecisions true h1 = (Ret (pending (orderedDecisions h) h ++
         [set_Decision_ScheduleActivityTaskDecisionAttributes (Some attributes)
            (createNewDecision DecisionTypeScheduleActivityTask)]), h2)
    ∧ handleActivityTaskScheduled scheduledEventID id h2 = (Ret tt, h3)
    ∧ getActivityID completed h3 = (Ret id, h3)
    ∧ handleActivityTaskClosed id h3 = (Ret p, h4)
    ∧ decisions h4 !! k = None ∧ (p ∉ orderedDecisions h4)
    ∧ heap h4 !! p = Some m ∧ isDone m = true.
Proof.
  intros id k Hwf Hk Hev.
  set (m := newDecisionStateMachineBase decisionTypeActivity id
              (activityDecisionStateMachine attributes) : machine D).
  assert (wf (added m h)) as Hwf1 by by apply wf_added.
  destruct (drain_back (orderedDecisions h) (heap_next h) m (added m h)) as
    (Hwf2 & Hm2 & Hd2 & l' & Hl' & Ho2); [done|done|apply lookup_insert_eq|done|].
  set (h2 := drain (orderedDecisions h ++ [heap_next h]) (added m h)) in *.
  change (m_id m) with k in Hd2.
  destruct (initiated_sent (heap_next h) (after_sent m)
    (set_activityIDs (<[scheduledEventID := id]> (scheduledEventIDToActivityID h2)) h2))
    as (m3 & Hrun3 & Hid3 & Hk3 & Hs3); [done..|].
  destruct (completion_initiated (heap_next h) m3 (put (heap_next h) m3
    (set_activityIDs (<[scheduledEventID := id]> (scheduledEventIDToActivityID h2)) h2)))
    as (m4 & Hrun4 & Hs4 & Hc4 & _); [apply heap_put|done|by rewrite Hk3|].
  exists (heap_next h), (added m h), h2. do 2 eexists. exists m4.
  split_and!; [by apply add_new_run| | | | | | | |].
  - rewrite getDecisions_run by done. f_equal. f_equal. simpl. unfold pending.
    rewrite omap_app. f_equal.
    + apply pending_ext. intros q Hq. simpl. rewrite lookup_insert_ne; [done|].
      intros <-. by apply (heap_next_unlisted h).
    + unfold pending_at. csimpl. by rewrite lookup_insert_eq.
  - unfold handleActivityTaskScheduled. run.
    erewrite on_decision_back; [|exact Hd2|exact Ho2|done]. rewrite Hrun3. run. reflexivity.
  - unfold getActivityID. run. rewrite Hev. simpl. by rewrite lookup_insert_eq.
  - unfold handleActivityTaskClosed. erewrite on_decision_back; [|exact Hd2|exact Ho2|done].
    rewrite Hrun4. reflexivity.
  - rewrite Hid3. change (m_id (after_sent m)) with k. unfold forget. simpl. rewrite Hd2. simpl. apply lookup_delete_eq.
  - rewrite Hid3. change (m_id (after_sent m)) with k. unfold forget. simpl. rewrite Hd2. simpl. rewrite elem_of_Remove. naive_solver.
  - rewrite heap_forget. apply heap_put.
  - unfold isDone. destruct (m_kind m4); simpl in Hc4; try done.
    unfold base_isDone. by rewrite Hs4.
Qed.

End props.

(** ** The hypotheses can hold *)

Definition sample_activity : ScheduleActivityTaskDecisionAttributes :=
  MkScheduleActivityTaskDecisionAttributes (Some "a1") None None None None None None None None
    None None None.

Definition sample_completed : HistoryEvent :=
  set_HistoryEvent_ActivityTaskCompletedEventAttributes
    (Some (MkActivityTaskCompletedEventAttributes None (Some 5%Z) None None))
    (set_HistoryEvent_EventType (Some EventTypeActivityTaskCompleted) HistoryEvent_nil).

Definition sample_timer : machine unit :=
  newDecisionStateMachineBase decisionTypeTimer "t1"
    (timerDecisionStateMachine (MkStartTimerDecisionAttributes (Some "t1") None) false).

Local Instance sample_converter : DataConverter := bitConverter.

Lemma decisions_move_forward_witness : ∃ m', heap
    (execs [opGetDecisions true] (execs [opScheduleActivityTask sample_activity]
       (newDecisionsHelper (D:=unit)))) !! 0 = Some m'
  ∧ m_state m' = decisionStateDecisionSent.
Proof.
  destruct (decisions_move_forward [opScheduleActivityTask sample_activity]
    [opGetDecisions true] 0 (newDecisionStateMachineBase (D:=unit) decisionTypeActivity "a1"
      (activityDecisionStateMachine sample_activity))) as (m' & Hm' & _).
  - vm_compute. reflexivity.
  - exists m'. split; [exact Hm'|]. vm_compute in Hm'. injection Hm' as <-. reflexivity.
Defined.

Lemma diagram_exact_witness : edge Timer decisionStateCreated decisionStateDecisionSent.
Proof.
  apply (diagram_exact (D:=unit) Timer decisionStateCreated decisionStateDecisionSent);
    [intros [?|?]; discriminate|discriminate|].
  exists mDecisionSent, 0, (sample_helper Timer decisionStateCreated),
    (sample Timer decisionStateCreated). eexists.
  split_and!; vm_compute; reflexivity.
Defined.

Lemma cancel_before_sent_witness : ∃ h1 h2,
  add_new (alloc sample_timer) newDecisionsHelper = (Ret 0, h1) ∧
  on_decision (decisionTypeTimer, "t1") cancel h1 = (Ret 0, h2) ∧
  fst (getDecisions true h2) = Ret [].
Proof.
  destruct (cancel_before_sent sample_timer newDecisionsHelper) as (p & h1 & h2 & H1 & H2 & H3).
  - apply wf_new.
  - reflexivity.
  - reflexivity.
  - right. left. reflexivity.
  - reflexivity.
  - assert (p = 0) as -> by (vm_compute in H1; congruence).
    exists h1, h2. split_and!; [exact H1|exact H2|].
    destruct H3 as (_ & _ & ->). vm_compute. reflexivity.
Defined.

Lemma panic_moves_nothing_witness :
  frozen (D:=unit) newDecisionsHelper newDecisionsHelper.
Proof.
  eapply (panic_moves_nothing [] (opCancelTimer "t1")). vm_compute. reflexivity.
Defined.

Lemma activity_lifecycle_witness : ∃ p h1,
  scheduleActivityTask sample_activity (newDecisionsHelper (D:=unit)) = (Ret p, h1) ∧
  fst (getDecisions true h1) =
    Ret [set_Decision_ScheduleActivityTaskDecisionAttributes (Some sample_activity)
           (createNewDecision DecisionTypeScheduleActivityTask)].
Proof.
  destruct (activity_lifecycle (D:=unit) newDecisionsHelper sample_activity 5 sample_completed)
    as (p & h1 & h2 & h3 & h4 & m & H1 & H2 & _).
  - apply wf_new.
  - reflexivity.
  - reflexivity.
  - exists p, h1. split; [exact H1|]. rewrite H2. reflexivity.
Defined.
