(* ===== verification/Replay.v ===== *)
(** * Replay of a history against the decisions of the workflow code

    internal/workflow_replayer_utils.go: the comparison of the decisions that a
    replay produced with the events that history has for them, which detects
    workflow code that is not deterministic. *)

From stdpp Require Import base list gmap strings.
From Stdlib Require Import Ascii.
From S2P Require Import Prelude.
From S2P Require Import Shared.
From S2P Require Import DecisionStateMachine.

Local Notation "a ||ₒ b" := (or_else a b) (at level 50, left associativity).
Local Notation "a &&ₒ b" := (and_then a b) (at level 40, left associativity).

(** ** Strings *)

(** The functions of package [strings], on the bytes of the string. *)
Definition chars (s : string) : list ascii := String.list_ascii_of_string s.
Definition str (l : list ascii) : string := String.string_of_list_ascii l.

Definition TrimSuffix (s suffix : string) : string :=
  if decide (chars suffix `suffix_of` chars s)
  then str (take (length (chars s) - length (chars suffix)) (chars s)) else s.

(** [strings.LastIndex] for a separator of one byte; [-1] when it is absent. *)
Fixpoint LastIndex (s : list ascii) (c : ascii) : Z :=
  match s with
  | [] => -1
  | c' :: s' =>
      let r := LastIndex s' c in
      if decide (0 ≤ r)%Z then r + 1 else if decide (c' = c) then 0 else -1
  end%Z.

Definition dot : ascii := "."%char.

Definition lastPartOfName (name : string) : string :=
  let name := TrimSuffix name "-fm" in
  let lastDotIdx := LastIndex (chars name) dot in
  if bool_decide (lastDotIdx < 0)%Z
     || bool_decide (lastDotIdx = Z.of_nat (String.length name) - 1)%Z
  then name
  else str (drop (Z.to_nat (lastDotIdx + 1)) (chars name)).

(** ** Events and decisions that are not compared *)

Definition CadenceChangeVersion := "CadenceChangeVersion".
Definition replayDomainName := "ReplayDomain".

Definition is_skipped_marker (markerName : string) : bool :=
  bool_decide (markerName = versionMarkerName)
  || bool_decide (markerName = mutableSideEffectMarkerName).

Definition skipDeterministicCheckForEvent (e : HistoryEvent) : bool :=
  if decide (GetEventType e = EventTypeMarkerRecorded) then
    is_skipped_marker (get_string MarkerRecordedEventAttributes_MarkerName
                         (HistoryEvent_MarkerRecordedEventAttributes e))
  else false.

(** [events[idx]] and [events[idx+1]] are the heads of the suffix at [idx]. *)
Definition skipDeterministicCheckForUpsertChangeVersion (events : list HistoryEvent) (idx : nat)
    : outcome bool :=
  e ← deref (events !! idx);
  if bool_decide (GetEventType e = EventTypeMarkerRecorded)
     && bool_decide (get_string MarkerRecordedEventAttributes_MarkerName
                       (HistoryEvent_MarkerRecordedEventAttributes e) = versionMarkerName)
     && bool_decide (Z.of_nat idx < Z.of_nat (length events) - 1)%Z then
    e' ← deref (events !! (idx + 1));
    if decide (GetEventType e' = EventTypeUpsertWorkflowSearchAttributes) then
      a ← deref (HistoryEvent_UpsertWorkflowSearchAttributesEventAttributes e');
      sa ← deref (UpsertWorkflowSearchAttributesEventAttributes_SearchAttributes a);
      Ret (bool_decide (is_Some (default ∅ (SearchAttributes_IndexedFields sa)
                                   !! CadenceChangeVersion)))
    else Ret false
  else Ret false.

Definition skipDeterministicCheckForDecision (d : Decision) : bool :=
  if decide (GetDecisionType d = DecisionTypeRecordMarker) then
    is_skipped_marker (get_string RecordMarkerDecisionAttributes_MarkerName
                         (Decision_RecordMarkerDecisionAttributes d))
  else false.

(** ** One decision against one event *)

Definition IsReplayDomain (dn : string) : bool := bool_decide (replayDomainName = dn).

Definition checkDomainsInDecisionAndEvent (eventDomainName decisionDomainName : string) : bool :=
  if bool_decide (decisionDomainName = "") || IsReplayDomain decisionDomainName then false
  else bool_decide (eventDomainName ≠ decisionDomainName).

(** [reflect.DeepEqual] on [map[string][]byte]: a nil map differs from an empty
    one, and so does a nil slice. *)
Definition isSearchAttributesMatched (attrFromEvent attrFromDecision : option SearchAttributes)
    : bool :=
  match attrFromEvent, attrFromDecision with
  | Some e, Some d =>
      bool_decide (SearchAttributes_IndexedFields e = SearchAttributes_IndexedFields d)
  | None, None => true
  | _, _ => false
  end.

(** [a != b] on the strings two getters return. *)
Definition differ (a b : string) : bool := bool_decide (a ≠ b).

Definition isDecisionMatchEvent (d : Decision) (e : HistoryEvent) (strictMode : bool)
    : outcome bool :=
  match GetDecisionType d with
  | DecisionTypeScheduleActivityTask =>
      if decide (GetEventType e ≠ EventTypeActivityTaskScheduled) then Ret false else
      let eventAttributes := HistoryEvent_ActivityTaskScheduledEventAttributes e in
      let decisionAttributes := Decision_ScheduleActivityTaskDecisionAttributes d in
      negb <$>
        (Ret (differ (get_string ActivityTaskScheduledEventAttributes_ActivityId eventAttributes)
                (get_string ScheduleActivityTaskDecisionAttributes_ActivityId decisionAttributes))
         ||ₒ (ea ← deref eventAttributes; da ← deref decisionAttributes;
              Ret (differ
                (lastPartOfName (get_string ActivityType_Name
                   (ActivityTaskScheduledEventAttributes_ActivityType ea)))
                (lastPartOfName (get_string ActivityType_Name
                   (ScheduleActivityTaskDecisionAttributes_ActivityType da)))))
         ||ₒ (Ret strictMode &&ₒ
              (ea ← deref eventAttributes; da ← deref decisionAttributes;
               Ret (differ
                 (get_string TaskList_Name (ActivityTaskScheduledEventAttributes_TaskList ea))
                 (get_string TaskList_Name (ScheduleActivityTaskDecisionAttributes_TaskList da)))))
         ||ₒ (Ret strictMode &&ₒ
              (ea ← deref eventAttributes; da ← deref decisionAttributes;
               Ret (negb (bytes_equal (ActivityTaskScheduledEventAttributes_Input ea)
                            (ScheduleActivityTaskDecisionAttributes_Input da))))))
  | DecisionTypeRequestCancelActivityTask =>
      if decide (GetEventType e ≠ EventTypeActivityTaskCancelRequested) then Ret false else
      Ret (negb (differ
        (get_string ActivityTaskCancelRequestedEventAttributes_ActivityId
           (HistoryEvent_ActivityTaskCancelRequestedEventAttributes e))
        (get_string RequestCancelActivityTaskDecisionAttributes_ActivityId
           (Decision_RequestCancelActivityTaskDecisionAttributes d))))
  | DecisionTypeStartTimer =>
      if decide (GetEventType e ≠ EventTypeTimerStarted) then Ret false else
      let eventAttributes := HistoryEvent_TimerStartedEventAttributes e in
      let decisionAttributes := Decision_StartTimerDecisionAttributes d in
      Ret (negb
        (differ (get_string TimerStartedEventAttributes_TimerId eventAttributes)
                (get_string StartTimerDecisionAttributes_TimerId decisionAttributes)
         || strictMode && bool_decide
              (get_int TimerStartedEventAttributes_StartToFireTimeoutSeconds eventAttributes
               ≠ get_int StartTimerDecisionAttributes_StartToFireTimeoutSeconds
                   decisionAttributes)))
  | DecisionTypeCancelTimer =>
      let timerID := get_string CancelTimerDecisionAttributes_TimerId
                       (Decision_CancelTimerDecisionAttributes d) in
      if decide (GetEventType e ≠ EventTypeTimerCanceled
                 ∧ GetEventType e ≠ EventTypeCancelTimerFailed) then Ret false else
      Ret (negb
        (if decide (GetEventType e = EventTypeTimerCanceled) then
           differ (get_string TimerCanceledEventAttributes_TimerId
                     (HistoryEvent_TimerCanceledEventAttributes e)) timerID
         else
           differ (get_string CancelTimerFailedEventAttributes_TimerId
                     (HistoryEvent_CancelTimerFailedEventAttributes e)) timerID))
  | DecisionTypeCompleteWorkflowExecution =>
      if decide (GetEventType e ≠ EventTypeWorkflowExecutionCompleted) then Ret false else
      if strictMode then
        ea ← deref (HistoryEvent_WorkflowExecutionCompletedEventAttributes e);
        da ← deref (Decision_CompleteWorkflowExecutionDecisionAttributes d);
        Ret (bytes_equal (WorkflowExecutionCompletedEventAttributes_Result ea)
               (CompleteWorkflowExecutionDecisionAttributes_Result da))
      else Ret true
  | DecisionTypeFailWorkflowExecution =>
      if decide (GetEventType e ≠ EventTypeWorkflowExecutionFailed) then Ret false else
      if strictMode then
        let eventAttributes := HistoryEvent_WorkflowExecutionFailedEventAttributes e in
        let decisionAttributes := Decision_FailWorkflowExecutionDecisionAttributes d in
        negb <$>
          (Ret (differ (get_string WorkflowExecutionFailedEventAttributes_Reason eventAttributes)
                  (get_string FailWorkflowExecutionDecisionAttributes_Reason decisionAttributes))
           ||ₒ (ea ← deref eventAttributes; da ← deref decisionAttributes;
                Ret (negb (bytes_equal (WorkflowExecutionFailedEventAttributes_Details ea)
                             (FailWorkflowExecutionDecisionAttributes_Details da)))))
      else Ret true
  | DecisionTypeRecordMarker =>
      if decide (GetEventType e ≠ EventTypeMarkerRecorded) then Ret false else
      Ret (negb (differ
        (get_string MarkerRecordedEventAttributes_MarkerName
           (HistoryEvent_MarkerRecordedEventAttributes e))
        (get_string RecordMarkerDecisionAttributes_MarkerName
           (Decision_RecordMarkerDecisionAttributes d))))
  | DecisionTypeRequestCancelExternalWorkflowExecution =>
      if decide (GetEventType e ≠ EventTypeRequestCancelExternalWorkflowExecutionInitiated)
      then Ret false else
      let eventAttributes :=
        HistoryEvent_RequestCancelExternalWorkflowExecutionInitiatedEventAttributes e in
      let decisionAttributes :=
        Decision_RequestCancelExternalWorkflowExecutionDecisionAttributes d in
      negb <$>
        (Ret (checkDomainsInDecisionAndEvent
                (get_string RequestCancelExternalWorkflowExecutionInitiatedEventAttributes_Domain
                   eventAttributes)
                (get_string RequestCancelExternalWorkflowExecutionDecisionAttributes_Domain
                   decisionAttributes))
         ||ₒ (ea ← deref eventAttributes;
              Ret (differ
                (get_string WorkflowExecution_WorkflowId
                   (RequestCancelExternalWorkflowExecutionInitiatedEventAttributes_WorkflowExecution
                      ea))
                (get_string RequestCancelExternalWorkflowExecutionDecisionAttributes_WorkflowId
                   decisionAttributes))))
  | DecisionTypeSignalExternalWorkflowExecution =>
      if decide (GetEventType e ≠ EventTypeSignalExternalWorkflowExecutionInitiated)
      then Ret false else
      let eventAttributes :=
        HistoryEvent_SignalExternalWorkflowExecutionInitiatedEventAttributes e in
      let decisionAttributes := Decision_SignalExternalWorkflowExecutionDecisionAttributes d in
      negb <$>
        (Ret (checkDomainsInDecisionAndEvent
                (get_string SignalExternalWorkflowExecutionInitiatedEventAttributes_Domain
                   eventAttributes)
                (get_string SignalExternalWorkflowExecutionDecisionAttributes_Domain
                   decisionAttributes))
         ||ₒ Ret (differ
                (get_string SignalExternalWorkflowExecutionInitiatedEventAttributes_SignalName
                   eventAttributes)
                (get_string SignalExternalWorkflowExecutionDecisionAttributes_SignalName
                   decisionAttributes))
         ||ₒ (ea ← deref eventAttributes; da ← deref decisionAttributes;
              Ret (differ
                (get_string WorkflowExecution_WorkflowId
                   (SignalExternalWorkflowExecutionInitiatedEventAttributes_WorkflowExecution ea))
                (get_string WorkflowExecution_WorkflowId
                   (SignalExternalWorkflowExecutionDecisionAttributes_Execution da)))))
  | DecisionTypeCancelWorkflowExecution =>
      if decide (GetEventType e ≠ EventTypeWorkflowExecutionCanceled) then Ret false else
      if strictMode then
        ea ← deref (HistoryEvent_WorkflowExecutionCanceledEventAttributes e);
        da ← deref (Decision_CancelWorkflowExecutionDecisionAttributes d);
        Ret (bytes_equal (WorkflowExecutionCanceledEventAttributes_Details ea)
               (CancelWorkflowExecutionDecisionAttributes_Details da))
      else Ret true
  | DecisionTypeContinueAsNewWorkflowExecution =>
      Ret (bool_decide (GetEventType e = EventTypeWorkflowExecutionContinuedAsNew))
  | DecisionTypeStartChildWorkflowExecution =>
      if decide (GetEventType e ≠ EventTypeStartChildWorkflowExecutionInitiated)
      then Ret false else
      let eventAttributes := HistoryEvent_StartChildWorkflowExecutionInitiatedEventAttributes e in
      let decisionAttributes := Decision_StartChildWorkflowExecutionDecisionAttributes d in
      negb <$>
        ((ea ← deref eventAttributes; da ← deref decisionAttributes;
          Ret (differ
            (lastPartOfName (get_string WorkflowType_Name
               (StartChildWorkflowExecutionInitiatedEventAttributes_WorkflowType ea)))
            (lastPartOfName (get_string WorkflowType_Name
               (StartChildWorkflowExecutionDecisionAttributes_WorkflowType da)))))
         ||ₒ (Ret strictMode &&ₒ
              Ret (checkDomainsInDecisionAndEvent
                (get_string StartChildWorkflowExecutionInitiatedEventAttributes_Domain
                   eventAttributes)
                (get_string StartChildWorkflowExecutionDecisionAttributes_Domain
                   decisionAttributes)))
         ||ₒ (Ret strictMode &&ₒ
              (ea ← deref eventAttributes; da ← deref decisionAttributes;
               Ret (differ
                 (get_string TaskList_Name
                    (StartChildWorkflowExecutionInitiatedEventAttributes_TaskList ea))
                 (get_string TaskList_Name
                    (StartChildWorkflowExecutionDecisionAttributes_TaskList da))))))
  | DecisionTypeUpsertWorkflowSearchAttributes =>
      if decide (GetEventType e ≠ EventTypeUpsertWorkflowSearchAttributes) then Ret false else
      let eventAttributes := HistoryEvent_UpsertWorkflowSearchAttributesEventAttributes e in
      let decisionAttributes := Decision_UpsertWorkflowSearchAttributesDecisionAttributes d in
      negb <$>
        (Ret strictMode &&ₒ
         (ea ← deref eventAttributes; da ← deref decisionAttributes;
          Ret (negb (isSearchAttributesMatched
            (UpsertWorkflowSearchAttributesEventAttributes_SearchAttributes ea)
            (UpsertWorkflowSearchAttributesDecisionAttributes_SearchAttributes da)))))
  | DecisionTypeUnknown _ => Ret false
  end.

(** ** A replay against a history *)

(** [NewNonDeterminsticError]: the reason with the event and the decision it
    reports; the model keeps them instead of their texts. *)
Record nonDeterministicError := NonDeterministicError {
  Reason : string;
  nd_history : option HistoryEvent;
  nd_decision : option Decision }.

(** [matchLoop]: [fuel] bounds the iterations, each of which advances [hi] or
    [di]; the error is [None] when the replay matches. *)
Fixpoint matchLoop (fuel : nat) (replayDecisions : list Decision)
    (historyEvents : list HistoryEvent) (di hi : nat) : outcome (option nonDeterministicError) :=
  if decide (hi < length historyEvents ∨ di < length replayDecisions) then
    match fuel with
    | 0 => Panic OutOfFuel
    | S fuel =>
        let again := matchLoop fuel replayDecisions historyEvents in
        let check (e : option HistoryEvent) :=
          let d := replayDecisions !! di in
          match d with
          | Some d' =>
              if skipDeterministicCheckForDecision d' then again (di + 1) hi else
              match e with
              | None => Ret (Some (NonDeterministicError "extra replay decision" None d))
              | Some e' =>
                  matched ← isDecisionMatchEvent d' e' false;
                  if (matched : bool) then again (di + 1) (hi + 1)
                  else Ret (Some (NonDeterministicError "mismatch" e d))
              end
          | None => Ret (Some (NonDeterministicError "missing replay decision" e None))
          end in
        match historyEvents !! hi with
        | Some e =>
            skip ← skipDeterministicCheckForUpsertChangeVersion historyEvents hi;
            if (skip : bool) then again di (hi + 2)
            else if skipDeterministicCheckForEvent e then again di (hi + 1)
            else check (Some e)
        | None => check None
        end
    end
  else Ret None.

Definition matchReplayWithHistory (replayDecisions : list Decision)
    (historyEvents : list HistoryEvent) : outcome (option nonDeterministicError) :=
  matchLoop (length replayDecisions + length historyEvents) replayDecisions historyEvents 0 0.

(** ** The reference comparison *)

Definition is_version_marker (e : HistoryEvent) : bool :=
  bool_decide (GetEventType e = EventTypeMarkerRecorded)
  && bool_decide (get_string MarkerRecordedEventAttributes_MarkerName
                    (HistoryEvent_MarkerRecordedEventAttributes e) = versionMarkerName).

Definition indexed_fields (e : HistoryEvent) : gmap string bytes :=
  default ∅ ((HistoryEvent_UpsertWorkflowSearchAttributesEventAttributes e
              ≫= UpsertWorkflowSearchAttributesEventAttributes_SearchAttributes)
             ≫= SearchAttributes_IndexedFields).

Definition is_change_version_upsert (e : HistoryEvent) : bool :=
  bool_decide (GetEventType e = EventTypeUpsertWorkflowSearchAttributes)
  && bool_decide (is_Some (indexed_fields e !! CadenceChangeVersion)).

(** The server sends an upsert event with its attributes. *)
Definition event_ok (e : HistoryEvent) : Prop :=
  GetEventType e = EventTypeUpsertWorkflowSearchAttributes →
  is_Some (HistoryEvent_UpsertWorkflowSearchAttributesEventAttributes e
           ≫= UpsertWorkflowSearchAttributesEventAttributes_SearchAttributes).

(** The events that are compared: markers of versions and of mutable side
    effects are dropped, and so is the upsert that follows a version marker when
    it records the change version. *)
Fixpoint relevant (es : list HistoryEvent) : list HistoryEvent :=
  match es with
  | [] => []
  | e :: es' =>
      match es' with
      | e' :: es'' =>
          if is_version_marker e && is_change_version_upsert e' then relevant es''
          else if skipDeterministicCheckForEvent e then relevant es' else e :: relevant es'
      | [] => if skipDeterministicCheckForEvent e then [] else [e]
      end
  end.

Definition compared (d : Decision) : Prop := skipDeterministicCheckForDecision d = false.

Fixpoint compare (ds : list Decision) (es : list HistoryEvent)
    : outcome (option nonDeterministicError) :=
  match ds, es with
  | [], [] => Ret None
  | [], e :: _ => Ret (Some (NonDeterministicError "missing replay decision" (Some e) None))
  | d :: _, [] => Ret (Some (NonDeterministicError "extra replay decision" None (Some d)))
  | d :: ds, e :: es =>
      matched ← isDecisionMatchEvent d e false;
      if (matched : bool) then compare ds es
      else Ret (Some (NonDeterministicError "mismatch" (Some e) (Some d)))
  end.

Lemma relevant_cons e es :
  relevant (e :: es) =
    if is_version_marker e && (if es is e' :: _ then is_change_version_upsert e' else false)
    then relevant (drop 1 es)
    else if skipDeterministicCheckForEvent e then relevant es else e :: relevant es.
Proof. destruct es as [|e' es]; simpl; [by rewrite andb_false_r|]. by destruct es. Qed.

Lemma is_cv_upsert_run e :
  event_ok e →
  (if decide (GetEventType e = EventTypeUpsertWorkflowSearchAttributes) then
      a ← deref (HistoryEvent_UpsertWorkflowSearchAttributesEventAttributes e);
      sa ← deref (UpsertWorkflowSearchAttributesEventAttributes_SearchAttributes a);
      Ret (bool_decide (is_Some (default ∅ (SearchAttributes_IndexedFields sa)
                                   !! CadenceChangeVersion)))
    else Ret false) = Ret (is_change_version_upsert e).
Proof.
  intros Hok. unfold is_change_version_upsert, indexed_fields. case_decide as Ht.
  - destruct (Hok Ht) as [sa Hsa]. rewrite bool_decide_eq_true_2 by done.
    destruct (HistoryEvent_UpsertWorkflowSearchAttributesEventAttributes e) as [a|]; [|done].
    simpl in *. rewrite Hsa. done.
  - by rewrite bool_decide_eq_false_2.
Qed.

Lemma skip_upsert_run es hi e es' :
  Forall event_ok es → drop hi es = e :: es' →
  skipDeterministicCheckForUpsertChangeVersion es hi =
    Ret (is_version_marker e && (if es' is e' :: _ then is_change_version_upsert e' else false)).
Proof.
  intros Hok Hd. unfold skipDeterministicCheckForUpsertChangeVersion.
  assert (es !! hi = Some e) as -> by (rewrite <- (Nat.add_0_r hi), <- lookup_drop, Hd; done).
  assert (es !! (hi + 1) = head es') as Hnext
    by (rewrite <- lookup_drop, Hd; by destruct es').
  assert (length es = hi + S (length es')) as Hlen.
  { apply (f_equal length) in Hd as Hl. rewrite length_drop in Hl. simpl in Hl.
    assert (hi < length es); [|lia].
    destruct (decide (hi < length es)); [done|]. by rewrite drop_ge in Hd by lia. }
  cbn [deref mbind outcome_bind].
  change (bool_decide (GetEventType e = EventTypeMarkerRecorded) && _) with (is_version_marker e).
  destruct (is_version_marker e); [|done]. cbn [andb]. rewrite Hnext.
  destruct es' as [|e' es'']; simpl in *.
  - rewrite bool_decide_eq_false_2 by lia. done.
  - rewrite bool_decide_eq_true_2 by lia. apply is_cv_upsert_run.
    rewrite Forall_forall in Hok. apply Hok. by apply list_elem_of_lookup_2 with (hi + 1).
Qed.

Lemma drop_lookup_cons {A} (l : list A) i x :
  l !! i = Some x → drop i l = x :: drop (i + 1) l ∧ i < length l.
Proof.
  intros Hi. split; [|by eapply lookup_lt_Some]. rewrite Nat.add_1_r. by apply drop_S.
Qed.

Lemma filter_compared_cons d ds :
  filter compared (d :: ds) =
    if skipDeterministicCheckForDecision d then filter compared ds
    else d :: filter compared ds.
Proof.
  rewrite filter_cons. unfold compared. by destruct (skipDeterministicCheckForDecision d).
Qed.

(** The loop computes the comparison of what is left of the two lists, and the
    number of elements left is enough fuel for it. *)
Lemma matchLoop_run fuel ds es di hi :
  Forall event_ok es → (length ds - di) + (length es - hi) ≤ fuel →
  matchLoop fuel ds es di hi = compare (filter compared (drop di ds)) (relevant (drop hi es)).
Proof.
  intros Hok. revert di hi. induction fuel as [|fuel IH]; intros di hi Hf.
  { simpl. rewrite decide_False by lia. by rewrite !drop_ge by lia. }
  cbn [matchLoop]. case_decide as Hin; [|by rewrite !drop_ge by lia].
  destruct (es !! hi) as [e|] eqn:He.
  - destruct (drop_lookup_cons es hi e He) as [Hdrop Hlt].
    rewrite (skip_upsert_run es hi e _ Hok Hdrop), Hdrop, relevant_cons.
    cbn [mbind outcome_bind]. case_match eqn:Hskip.
    { rewrite IH by lia. by rewrite drop_drop, <- Nat.add_assoc. }
    destruct (skipDeterministicCheckForEvent e) eqn:Hse; [by rewrite IH by lia|].
    destruct (ds !! di) as [d|] eqn:Hd.
    + destruct (drop_lookup_cons ds di d Hd) as [-> Hlt']. rewrite filter_compared_cons.
      destruct (skipDeterministicCheckForDecision d).
      { rewrite IH by lia. by rewrite Hdrop, relevant_cons, Hskip, Hse. }
      simpl. destruct (isDecisionMatchEvent d e false) as [[]|]; simpl; [|done..].
      by rewrite IH by lia.
    + apply lookup_ge_None in Hd. by rewrite (drop_ge ds) by lia.
  - apply lookup_ge_None in He. rewrite (drop_ge es) by lia. cbn [relevant].
    destruct (ds !! di) as [d|] eqn:Hd.
    + destruct (drop_lookup_cons ds di d Hd) as [-> Hlt']. rewrite filter_compared_cons.
      destruct (skipDeterministicCheckForDecision d); [|done].
      rewrite IH by lia. by rewrite (drop_ge es) by lia.
    + apply lookup_ge_None in Hd. lia.
Qed.

Lemma matchReplay_run ds es :
  Forall event_ok es →
  matchReplayWithHistory ds es = compare (filter compared ds) (relevant es).
Proof. intros Hok. unfold matchReplayWithHistory. by rewrite matchLoop_run by (done || lia). Qed.

Lemma compare_accepts ds es :
  compare ds es = Ret None ↔ Forall2 (λ d e, isDecisionMatchEvent d e false = Ret true) ds es.
Proof.
  split.
  - revert es. induction ds as [|d ds IH]; intros [|e es]; simpl; try done.
    destruct (isDecisionMatchEvent d e false) as [[]|] eqn:Hm; simpl; try done.
    intros Hc. constructor; auto.
  - induction 1 as [|d e ds es Hm _ IH]; [done|]. simpl. by rewrite Hm.
Qed.

(** Where a rejected replay diverges: after a matching prefix. *)
Lemma compare_rejects ds es err :
  compare ds es = Ret (Some err) →
  ∃ n, Forall2 (λ d e, isDecisionMatchEvent d e false = Ret true) (take n ds) (take n es)
    ∧ nd_decision err = (if decide (Reason err = "missing replay decision") then None else ds !! n)
    ∧ nd_history err = (if decide (Reason err = "extra replay decision") then None else es !! n)
    ∧ match ds !! n, es !! n with
      | Some d, Some e => isDecisionMatchEvent d e false = Ret false ∧ Reason err = "mismatch"
      | Some d, None => Reason err = "extra replay decision"
      | None, Some e => Reason err = "missing replay decision"
      | None, None => False
      end.
Proof.
  revert es. induction ds as [|d ds IH]; intros [|e es]; simpl; try done.
  - intros [= <-]. by exists 0.
  - intros [= <-]. by exists 0.
  - destruct (isDecisionMatchEvent d e false) as [[]|] eqn:Hm; simpl; try done.
    + intros (n & Hn & Hrest)%IH. exists (S n). split; [by constructor|done].
    + intros [= <-]. exists 0. split_and!; done.
Qed.

(** ** Names *)

Lemma str_chars s : str (chars s) = s.
Proof. apply String.string_of_list_ascii_of_string. Qed.
Lemma chars_str l : chars (str l) = l.
Proof. apply String.list_ascii_of_string_of_list_ascii. Qed.
Lemma length_chars s : length (chars s) = String.length s.
Proof. induction s; simpl; congruence. Qed.
Lemma chars_app s t : chars (s +:+ t) = chars s ++ chars t.
Proof. induction s; simpl; [done|]. f_equal. done. Qed.

Lemma LastIndex_absent l c : c ∉ l → LastIndex l c = (-1)%Z.
Proof.
  induction l as [|c' l IH]; intros Hc; simpl; [done|].
  rewrite IH by set_solver. rewrite decide_False by lia. rewrite decide_False; [done|set_solver].
Qed.

Lemma LastIndex_app l c l' : c ∉ l' → LastIndex (l ++ c :: l') c = Z.of_nat (length l).
Proof.
  intros Hc. induction l as [|c' l IH]; simpl.
  - rewrite LastIndex_absent by done. rewrite decide_False by lia. by rewrite decide_True.
  - rewrite IH, decide_True by lia. lia.
Qed.

Lemma fm_suffix (p n : list ascii) :
  chars "-fm" `suffix_of` p ++ dot :: n ↔ chars "-fm" `suffix_of` n.
Proof.
  split; [|intros Hn; by apply suffix_app_r, suffix_cons_r].
  intros Hs. destruct (suffix_weak_total (chars "-fm") (dot :: n) (p ++ dot :: n)) as [H|H];
    [done|by exists p| |].
  - by apply suffix_cons_inv in H as [H|H].
  - apply (elem_of_suffix _ _ dot) in H; [|set_solver]. cbv in H. set_solver.
Qed.

Lemma TrimSuffix_qualified p n :
  TrimSuffix (p +:+ "." +:+ n) "-fm" = p +:+ "." +:+ TrimSuffix n "-fm".
Proof.
  unfold TrimSuffix. rewrite (chars_app p). change (chars ("." +:+ n)) with (dot :: chars n).
  destruct (decide (chars "-fm" `suffix_of` chars n)) as [Hn|Hn].
  - rewrite decide_True by by apply fm_suffix. pose proof (suffix_length _ _ Hn) as HL.
    rewrite length_app. cbn [length]. rewrite take_app_ge by lia.
    replace (length (chars p) + S (length (chars n)) - length (chars "-fm") - length (chars p))
      with (S (length (chars n) - length (chars "-fm"))) by lia.
    cbn [take]. rewrite <- (str_chars (p +:+ "." +:+ _)), chars_app. f_equal. f_equal.
    change (chars ("." +:+ ?s)) with (dot :: chars s). by rewrite chars_str.
  - by rewrite decide_False by by rewrite fm_suffix.
Qed.

Lemma lastPartOfName_nodot n :
  dot ∉ chars (TrimSuffix n "-fm") → lastPartOfName n = TrimSuffix n "-fm".
Proof.
  intros Hn. unfold lastPartOfName. rewrite LastIndex_absent by done.
  by rewrite bool_decide_eq_true_2 by lia.
Qed.

Lemma TrimSuffix_chars n c : c ∈ chars (TrimSuffix n "-fm") → c ∈ chars n.
Proof.
  unfold TrimSuffix. case_decide; [|done]. rewrite chars_str.
  intros Hc. eapply elem_of_subseteq; [|exact Hc]. apply subseteq_take.
Qed.

(** ** Conditions *)

Lemma or_else_rejects a b : a ||ₒ b = Ret false ↔ a = Ret false ∧ b = Ret false.
Proof. unfold or_else. destruct a as [[]|]; simpl; naive_solver. Qed.

Lemma negb_accepts (o : outcome bool) : negb <$> o = Ret true ↔ o = Ret false.
Proof. destruct o as [[]|]; simpl; naive_solver. Qed.

(** ** The theorems *)

(** C4: Replay detection is the comparison of two filtered lists: on a history
    whose upsert events carry their attributes, [matchReplayWithHistory] always
    returns within its iterations, and what it returns is the pairwise comparison
    of the decisions other than version and mutable side effect markers with the
    events other than those markers and the change-version upserts that follow a
    version marker. *)
Theorem matchReplay_reference replayDecisions historyEvents :
  Forall event_ok historyEvents →
  matchReplayWithHistory replayDecisions historyEvents =
    compare (filter compared replayDecisions) (relevant historyEvents).
Proof. apply matchReplay_run. Qed.

(** A replay is accepted exactly when every compared decision matches the
    compared event at its position and neither list is longer, and a rejected
    replay reports the first position at which they differ, with the reason that
    fits it. *)
Theorem matchReplay_verdict replayDecisions historyEvents :
  Forall event_ok historyEvents →
  let ds := filter compared replayDecisions in
  let es := relevant historyEvents in
  (matchReplayWithHistory replayDecisions historyEvents = Ret None ↔
     Forall2 (λ d e, isDecisionMatchEvent d e false = Ret true) ds es) ∧
  (∀ err, matchReplayWithHistory replayDecisions historyEvents = Ret (Some err) →
     ∃ n, Forall2 (λ d e, isDecisionMatchEvent d e false = Ret true) (take n ds) (take n es)
       ∧ match ds !! n, es !! n with
         | Some d, Some e => isDecisionMatchEvent d e false = Ret false
             ∧ err = NonDeterministicError "mismatch" (Some e) (Some d)
         | Some d, None => err = NonDeterministicError "extra replay decision" None (Some d)
         | None, Some e => err = NonDeterministicError "missing replay decision" (Some e) None
         | None, None => False
         end).
Proof.
  intros Hok ds es. rewrite matchReplay_run by done. fold ds es.
  split; [apply compare_accepts|]. intros err Herr%compare_rejects.
  destruct Herr as (n & Hn & Hd & Hh & Hm). exists n. split; [done|].
  destruct err as [r oh od]; simpl in *.
  destruct (ds !! n) as [d|], (es !! n) as [e|]; destruct_and?; simplify_eq/=; done.
Qed.

(** The strict comparison refines the lenient one: a decision that matches
    an event strictly also matches it leniently. *)
Theorem strict_match_lenient d e :
  isDecisionMatchEvent d e true = Ret true → isDecisionMatchEvent d e false = Ret true.
Proof.
  unfold isDecisionMatchEvent. destruct (GetDecisionType d); try case_decide; try done;
    rewrite ?negb_accepts, ?or_else_rejects; cbn [and_then mbind outcome_bind andb]; try tauto.
  intros [= Hd]. f_equal. by destruct (differ _ _).
Qed.

(** An activity or workflow type is compared by the last part of its name:
    qualifying a name that has no dot with any package or receiver does not
    change it, nor does the suffix that Go gives to a method value. *)
Theorem lastPartOfName_qualified pkg name :
  dot ∉ chars name → TrimSuffix name "-fm" ≠ "" →
  lastPartOfName (pkg +:+ "." +:+ name) = lastPartOfName name
  ∧ lastPartOfName name = TrimSuffix name "-fm".
Proof.
  intros Hn Hne. assert (dot ∉ chars (TrimSuffix name "-fm")) as Hn'
    by (intros H%TrimSuffix_chars; done).
  rewrite (lastPartOfName_nodot name) by done. split; [|done].
  unfold lastPartOfName. rewrite TrimSuffix_qualified, chars_app.
  set (t := TrimSuffix name "-fm") in *.
  change (chars ("." +:+ t)) with (dot :: chars t). rewrite LastIndex_app by done.
  rewrite bool_decide_eq_false_2 by lia. rewrite bool_decide_eq_false_2.
  - simpl. replace (Z.to_nat _) with (length (chars pkg) + 1) by lia.
    rewrite drop_app_add. simpl. apply str_chars.
  - rewrite <- length_chars, chars_app, length_app. simpl.
    destruct t as [|c t]; [done|]. simpl. lia.
Qed.

(** ** The hypotheses can hold *)

Definition sample_version_marker : HistoryEvent :=
  set_HistoryEvent_MarkerRecordedEventAttributes
    (Some (MkMarkerRecordedEventAttributes (Some versionMarkerName) None None None))
    (set_HistoryEvent_EventType (Some EventTypeMarkerRecorded) HistoryEvent_nil).

Definition sample_timer_started : HistoryEvent :=
  set_HistoryEvent_TimerStartedEventAttributes
    (Some (MkTimerStartedEventAttributes (Some "1") (Some 10%Z) None))
    (set_HistoryEvent_EventType (Some EventTypeTimerStarted) HistoryEvent_nil).

Definition sample_start_timer : Decision :=
  set_Decision_StartTimerDecisionAttributes
    (Some (MkStartTimerDecisionAttributes (Some "1") (Some 10%Z)))
    (createNewDecision DecisionTypeStartTimer).

Lemma matchReplay_reference_witness :
  matchReplayWithHistory [sample_start_timer] [sample_version_marker; sample_timer_started]
  = compare [sample_start_timer] [sample_timer_started].
Proof.
  rewrite (matchReplay_reference [sample_start_timer]
             [sample_version_marker; sample_timer_started]); [reflexivity|].
  repeat constructor; discriminate.
Defined.

Lemma matchReplay_verdict_witness :
  matchReplayWithHistory [sample_start_timer] [sample_version_marker; sample_timer_started]
  = Ret None.
Proof.
  apply (matchReplay_verdict [sample_start_timer] [sample_version_marker; sample_timer_started]).
  - repeat constructor; discriminate.
  - change (Forall2 (λ d e, isDecisionMatchEvent d e false = Ret true)
              [sample_start_timer] [sample_timer_started]).
    constructor; [reflexivity|constructor].
Defined.

Lemma strict_match_lenient_witness :
  isDecisionMatchEvent sample_start_timer sample_timer_started false = Ret true.
Proof. apply strict_match_lenient. vm_compute. reflexivity. Defined.

Lemma lastPartOfName_qualified_witness :
  lastPartOfName "example.com/pkg.(*Worker).Run-fm" = lastPartOfName "Run-fm"
  ∧ lastPartOfName "Run-fm" = "Run".
Proof.
  apply (lastPartOfName_qualified "example.com/pkg.(*Worker)" "Run-fm").
  - vm_compute. intros H. repeat (apply elem_of_cons in H as [H|H]; [discriminate|]).
    inversion H.
  - vm_compute. discriminate.
Defined.
