(* ===== verification/History.v ===== *)
(** * The history of a decision task

    internal/internal_task_handlers.go, lines 154-399, and the iterator of
    internal/internal_task_pollers.go, lines 953-985: the events of a decision
    task arrive in pages and are handed to the workflow in batches, one batch per
    decision that was completed.  The page function that the iterator calls is
    the service: a parameter. *)

From stdpp Require Import base list gmap strings pretty.
From S2P Require Import Prelude.
From S2P Require Import Shared.

(** What [GetWorkflowExecutionHistory] answers: an error, or a page of events
    and the token of the next page (nil after the last page). *)
Definition pageFunc : Type := bytes → string + (list HistoryEvent * bytes).

(** A slice that may be nil. *)
Abbreviation slice A := (option (list A)).
Definition slice_append {A} (s : slice A) (x : A) : slice A := Some (default [] s ++ [x]).
Definition slice_len {A} (s : slice A) : nat := length (default [] s).

Record history := History {
  loadedEvents : list HistoryEvent;
  currentIndex : nat;
  nextEventID : Z;
  lastEventID : Z;
  next : slice HistoryEvent;
  binaryChecksum : option string;
  (** of the iterator *)
  nextPageToken : bytes }.

Definition isDecisionEvent (eventType : EventType) : bool :=
  match eventType with
  | EventTypeWorkflowExecutionCompleted
  | EventTypeWorkflowExecutionFailed
  | EventTypeWorkflowExecutionCanceled
  | EventTypeWorkflowExecutionContinuedAsNew
  | EventTypeActivityTaskScheduled
  | EventTypeActivityTaskCancelRequested
  | EventTypeTimerStarted
  | EventTypeTimerCanceled
  | EventTypeCancelTimerFailed
  | EventTypeMarkerRecorded
  | EventTypeStartChildWorkflowExecutionInitiated
  | EventTypeRequestCancelExternalWorkflowExecutionInitiated
  | EventTypeSignalExternalWorkflowExecutionInitiated
  | EventTypeUpsertWorkflowSearchAttributes => true
  | _ => false
  end.

Definition isPreloadMarkerEvent (event : HistoryEvent) : bool :=
  bool_decide (GetEventType event = EventTypeMarkerRecorded).

(** [newHistory]: [Events] and [StartedEventId] are those of the task, [token]
    the iterator's. *)
Definition newHistory (Events : list HistoryEvent) (StartedEventId : Z) (token : bytes) : history :=
  History Events 0 (match Events with e :: _ => GetEventId e | [] => 0%Z end)
    StartedEventId None None token.

Definition GetWorkflowStartedEvent (Events : list HistoryEvent) : string + HistoryEvent :=
  match Events with
  | e :: _ =>
      if decide (GetEventType e ≠ EventTypeWorkflowExecutionStarted)
      then inl "unable to find WorkflowExecutionStartedEventAttributes in the history"
      else inr e
  | [] => inl "unable to find WorkflowExecutionStartedEventAttributes in the history"
  end.

Definition IsReplayEvent (PreviousStartedEventId : Z) (event : HistoryEvent) : bool :=
  bool_decide (GetEventId event ≤ PreviousStartedEventId)%Z || isDecisionEvent (GetEventType event).

Section history.
Context (page : pageFunc).
Implicit Types (eh : history).

Definition set_loaded (l : list HistoryEvent) (n : Z) (token : bytes) eh : history :=
  History l (currentIndex eh) n (lastEventID eh) (next eh) (binaryChecksum eh) token.
Definition set_index (i : nat) eh : history :=
  History (loadedEvents eh) i (nextEventID eh) (lastEventID eh) (next eh) (binaryChecksum eh)
    (nextPageToken eh).
Definition set_nextEventID (n : Z) eh : history :=
  History (loadedEvents eh) (currentIndex eh) n (lastEventID eh) (next eh) (binaryChecksum eh)
    (nextPageToken eh).
Definition set_next (n : slice HistoryEvent) eh : history :=
  History (loadedEvents eh) (currentIndex eh) (nextEventID eh) (lastEventID eh) n
    (binaryChecksum eh) (nextPageToken eh).
Definition set_checksum (c : option string) eh : history :=
  History (loadedEvents eh) (currentIndex eh) (nextEventID eh) (lastEventID eh) (next eh) c
    (nextPageToken eh).

(** [historyIterator != nil && historyIterator.HasNextPage()]; a task without
    an iterator has no token. *)
Definition hasMoreEvents eh : bool :=
  match nextPageToken eh with Some _ => true | None => false end.

Definition HasNextDecisionEvents eh : bool :=
  bool_decide (slice_len (next eh) ≠ 0)
  || bool_decide (currentIndex eh ≠ length (loadedEvents eh)) || hasMoreEvents eh.

(** [getMoreEvents] and [GetNextPage] inlined: an error leaves the token. *)
Definition loadMoreEvents : M history (option string) :=
  eh ← get;
  match page (nextPageToken eh) with
  | inl err => mret (Some err)
  | inr (events, token) =>
      let loaded := loadedEvents eh ++ events in
      let n := if decide (nextEventID eh = 0%Z)
               then match loaded with e :: _ => GetEventId e | [] => nextEventID eh end
               else nextEventID eh in
      modify (set_loaded loaded n token);; mret None
  end.

(** Returns [isFailed], the checksum and the error. *)
Definition IsNextDecisionFailed : M history (bool * option string * option string) :=
  eh ← get;
  let nextIndex := currentIndex eh + 1 in
  err ← (if bool_decide (length (loadedEvents eh) ≤ nextIndex) && hasMoreEvents eh
         then loadMoreEvents else mret None);
  match (err : option string) with
  | Some err => mret (false, None, Some err)
  | None =>
      eh ← get;
      match loadedEvents eh !! nextIndex with
      | Some nextEvent =>
          let nextEventType := GetEventType nextEvent in
          let isFailed := bool_decide (nextEventType = EventTypeDecisionTaskTimedOut)
                          || bool_decide (nextEventType = EventTypeDecisionTaskFailed) in
          if decide (nextEventType = EventTypeDecisionTaskCompleted) then
            match HistoryEvent_DecisionTaskCompletedEventAttributes nextEvent with
            | Some a => mret (isFailed, DecisionTaskCompletedEventAttributes_BinaryChecksum a, None)
            | None => throw NilDereference
            end
          else mret (isFailed, None, None)
      | None => mret (false, None, None)
      end
  end.

Definition verifyAllEventsProcessed eh : option string :=
  if bool_decide (lastEventID eh > 0)%Z && bool_decide (nextEventID eh ≤ lastEventID eh)%Z then
    Some ("history_events: premature end of stream, expectedLastEventID="
          +:+ pretty (lastEventID eh) +:+ " but no more events after eventID="
          +:+ pretty (int64 (nextEventID eh - 1)))
  else None.

(** The named results of [nextDecisionEvents]: a return in the middle of the
    loop hands over what was collected so far together with the error. *)
Record batch := Batch {
  nextEvents : slice HistoryEvent;
  markers : slice HistoryEvent;
  batch_err : option string }.

(** The end of the loop: the processed events are dropped. *)
Definition shrink (r : batch) : M history batch :=
  modify (λ eh, History (drop (currentIndex eh) (loadedEvents eh)) 0 (nextEventID eh)
                  (lastEventID eh) (next eh) (binaryChecksum eh) (nextPageToken eh));;
  mret (Batch (nextEvents r) (markers r) None).

Definition with_err (r : batch) (err : string) : batch :=
  Batch (nextEvents r) (markers r) (Some err).

(** The two nested loops as one: an iteration either loads a page or processes
    an event. *)
Fixpoint OrderEvents (fuel : nat) (r : batch) : M history batch :=
  match fuel with
  | 0 => throw OutOfFuel
  | S fuel =>
      eh ← get;
      if decide (currentIndex eh = length (loadedEvents eh)) then
        if negb (hasMoreEvents eh) then
          match verifyAllEventsProcessed eh with
          | Some err => mret (with_err r err)
          | None => shrink r
          end
        else
          err ← loadMoreEvents;
          match (err : option string) with
          | Some err => mret (with_err r err)
          | None => OrderEvents fuel r
          end
      else
      match loadedEvents eh !! currentIndex eh with
      | None => throw IndexOutOfRange
      | Some event =>
          let eventID := GetEventId event in
          if decide (eventID ≠ nextEventID eh) then
            mret (with_err r ("missing history events, expectedNextEventID="
              +:+ pretty (nextEventID eh) +:+ " but receivedNextEventID=" +:+ pretty eventID))
          else
            modify (set_nextEventID (int64 (nextEventID eh + 1)));;
            let continue r := modify (λ eh, set_index (currentIndex eh + 1) eh);;
                              OrderEvents fuel r in
            match GetEventType event with
            | EventTypeDecisionTaskStarted =>
                f ← IsNextDecisionFailed;
                let '(isFailed, checksum, err1) := f : bool * option string * option string in
                match err1 with
                | Some err => mret (with_err r err)
                | None =>
                    if isFailed then continue r
                    else
                      modify (set_checksum checksum);;
                      modify (λ eh, set_index (currentIndex eh + 1) eh);;
                      shrink (Batch (slice_append (nextEvents r) event) (markers r) None)
                end
            | EventTypeDecisionTaskScheduled | EventTypeDecisionTaskTimedOut
            | EventTypeDecisionTaskFailed => continue r
            | _ =>
                continue (Batch (slice_append (nextEvents r) event)
                  (if isPreloadMarkerEvent event then slice_append (markers r) event
                   else markers r) None)
            end
      end
  end.

Definition nextDecisionEvents (fuel : nat) : M history batch :=
  eh ← get;
  if bool_decide (currentIndex eh = length (loadedEvents eh)) && negb (hasMoreEvents eh) then
    match verifyAllEventsProcessed eh with
    | Some err => mret (Batch None None (Some err))
    | None => mret (Batch (Some []) (Some []) None)
    end
  else OrderEvents fuel (Batch None None None).

(** Returns the events, the markers, the checksum and the error. *)
Definition NextDecisionEvents (fuel : nat)
    : M history (slice HistoryEvent * slice HistoryEvent * option string * option string) :=
  eh ← get;
  err ← (match next eh with
         | None =>
             b ← nextDecisionEvents fuel;
             modify (set_next (nextEvents b));; mret (batch_err b)
         | Some _ => mret None
         end);
  eh ← get;
  match (err : option string) with
  | Some err => mret (None, None, binaryChecksum eh, Some err)
  | None =>
      let result := next eh in
      let checksum := binaryChecksum eh in
      if decide (0 < slice_len result) then
        b ← nextDecisionEvents fuel;
        modify (set_next (nextEvents b));;
        mret (result, markers b, checksum, batch_err b)
      else mret (result, None, checksum, None)
  end.


(** ** The reference: batches of a flat stream of events *)

Definition decision_failed (e : HistoryEvent) : bool :=
  bool_decide (GetEventType e = EventTypeDecisionTaskTimedOut)
  || bool_decide (GetEventType e = EventTypeDecisionTaskFailed).

Definition completed_checksum (e : HistoryEvent) : option string :=
  if decide (GetEventType e = EventTypeDecisionTaskCompleted)
  then HistoryEvent_DecisionTaskCompletedEventAttributes e
         ≫= DecisionTaskCompletedEventAttributes_BinaryChecksum
  else None.

(** The first batch of a stream: its events, the checksum of the decision that
    closes it ([None] when the stream ends first), and what follows it. *)
Fixpoint split (es : list HistoryEvent)
    : list HistoryEvent * option (option string) * list HistoryEvent :=
  match es with
  | [] => ([], None, [])
  | e :: es' =>
      match GetEventType e with
      | EventTypeDecisionTaskStarted =>
          if default false (decision_failed <$> head es') then split es'
          else ([e], Some (head es' ≫= completed_checksum), es')
      | EventTypeDecisionTaskScheduled | EventTypeDecisionTaskTimedOut
      | EventTypeDecisionTaskFailed => split es'
      | _ => let '(es1, c, rest) := split es' in (e :: es1, c, rest)
      end
  end.

Definition batch_events (es : list HistoryEvent) : list HistoryEvent := (split es).1.1.
Definition batch_checksum (es : list HistoryEvent) : option (option string) := (split es).1.2.
Definition batch_rest (es : list HistoryEvent) : list HistoryEvent := (split es).2.

(** The pages behind a token: the service returns them one after the other,
    none of them empty, and they hold the events [es]. *)
Inductive stream : bytes → list HistoryEvent → Prop :=
| stream_end : stream None []
| stream_page token events token' es :
    page (Some token) = inr (events, token') → events ≠ [] → stream token' es →
    stream (Some token) (events ++ es).

(** Event ids count up, and fit in an int64. *)
Definition consecutive (n : Z) (es : list HistoryEvent) : Prop :=
  (∀ i e, es !! i = Some e → GetEventId e = n + Z.of_nat i)%Z
  ∧ (1 ≤ n)%Z ∧ (n + Z.of_nat (length es) < 2 ^ 63)%Z.

(** The service sends a completed decision with its attributes. *)
Definition completed_ok (e : HistoryEvent) : Prop :=
  GetEventType e = EventTypeDecisionTaskCompleted →
  is_Some (HistoryEvent_DecisionTaskCompletedEventAttributes e).

(** [l] are the loaded events not processed yet, [ps] those of the pages to
    come, [n] the id of the first of them. *)
Record at_state eh (l ps : list HistoryEvent) (n : Z) : Prop := {
  at_index : currentIndex eh ≤ length (loadedEvents eh);
  at_loaded : drop (currentIndex eh) (loadedEvents eh) = l;
  at_pages : stream (nextPageToken eh) ps;
  at_next : nextEventID eh = n ∨ nextEventID eh = 0%Z ∧ loadedEvents eh = [] ∧ ps ≠ [] }.

Lemma consecutive_cons n e es :
  consecutive n (e :: es) → GetEventId e = n ∧ consecutive (n + 1) es ∧ in_int64 (n + 1).
Proof.
  intros (Hid & Hn & Hlt). simpl in Hlt. split_and!.
  - rewrite (Hid 0 e eq_refl). lia.
  - split_and!; [|lia..]. intros i e' Hi. rewrite (Hid (S i) e' Hi). lia.
  - unfold in_int64. lia.
Qed.

Lemma stream_nil token : stream token [] → token = None.
Proof. inversion 1 as [|? ev ? es' ? Hne]; subst; [done|]. by destruct ev. Qed.

(** Loading a page at the end of the loaded events. *)
Lemma loadMoreEvents_run eh l ps n :
  at_state eh l ps n → ps ≠ [] → consecutive n (l ++ ps) →
  ∃ events ps' eh', loadMoreEvents eh = (Ret None, eh') ∧ ps = events ++ ps' ∧ events ≠ []
    ∧ at_state eh' (l ++ events) ps' n ∧ nextEventID eh' = n
    ∧ currentIndex eh' = currentIndex eh ∧ lastEventID eh' = lastEventID eh
    ∧ next eh' = next eh ∧ binaryChecksum eh' = binaryChecksum eh
    ∧ loadedEvents eh' = loadedEvents eh ++ events.
Proof.
  intros [Hi Hl Hp Hn] Hne Hcon.
  inversion Hp as [Ht|tok events tok' ps' Hpage Hev Hs Htok]; subst; [done|].
  assert ((if decide (nextEventID eh = 0%Z)
           then match loadedEvents eh ++ events with
                | e :: _ => GetEventId e | [] => nextEventID eh end
           else nextEventID eh) = n) as Hnext.
  { destruct Hn as [<-|(H0 & Hld & _)].
    - case_decide as Hz; [|done]. destruct Hcon as (_ & ? & _). lia.
    - rewrite decide_True by done. rewrite Hld in *. simpl in *. rewrite drop_nil in Hcon.
      destruct events as [|e events]; [done|]. by destruct (consecutive_cons _ _ _ Hcon). }
  exists events, ps'. eexists. unfold loadMoreEvents. run. rewrite <- Htok, Hpage, Hnext.
  split; [reflexivity|]. split_and!; try done; simpl.
  split; simpl; [rewrite length_app; lia|by rewrite drop_app_le|done|by left].
Qed.


(** The fields that processing an event does not touch. *)
Definition same_rest eh eh' : Prop :=
  lastEventID eh' = lastEventID eh ∧ next eh' = next eh.

Lemma drop_cons_lookup {A} (l : list A) i x k :
  drop i l = x :: k → l !! i = Some x ∧ drop (i + 1) l = k ∧ i < length l.
Proof.
  intros Hd. assert (l !! i = Some x) as Hi.
  { rewrite <- (Nat.add_0_r i), <- lookup_drop, Hd. done. }
  split_and!; [done| |by eapply lookup_lt_Some].
  rewrite <- drop_drop, Hd. done.
Qed.

Lemma loaded_next eh e l ps n : at_state eh (e :: l) ps n → nextEventID eh = n.
Proof.
  intros [_ Hl _ [?|(_ & Hld & _)]]; [done|]. by rewrite Hld, drop_nil in Hl.
Qed.

(** The look-ahead loads a page when the current event is the last loaded one:
    then the next event of the stream, if there is one, is loaded. *)
Lemma lookahead_run eh e l ps n :
  at_state eh (e :: l) ps n → (1 ≤ n)%Z →
  ∃ l' ps' eh', (if bool_decide (length (loadedEvents eh) ≤ currentIndex eh + 1)
      && hasMoreEvents eh then loadMoreEvents else mret None) eh = (Ret None, eh')
    ∧ l ++ ps = l' ++ ps' ∧ (l' = [] → ps' = []) ∧ at_state eh' (e :: l') ps' n
    ∧ length ps' ≤ length ps
    ∧ currentIndex eh' = currentIndex eh ∧ binaryChecksum eh' = binaryChecksum eh
    ∧ same_rest eh eh'.
Proof.
  intros Hat Hn1. pose proof (loaded_next _ _ _ _ _ Hat) as Hn. pose proof Hat as [Hi Hl Hp _].
  destruct (drop_cons_lookup _ _ _ _ Hl) as (Hlk & Hdrop & Hlt).
  pose proof (f_equal length Hdrop) as HL. rewrite length_drop in HL.
  destruct (decide (l = [] ∧ ps ≠ [])) as [[-> Hne]|Hcase].
  - inversion Hp as [Ht|tok events tok' ps' Hpage Hev Hs Htok]; subst ps; [done|].
    simpl in HL. rewrite bool_decide_eq_true_2 by lia. unfold hasMoreEvents. rewrite <- Htok. simpl.
    unfold loadMoreEvents. run. rewrite <- Htok, Hpage. rewrite decide_False by lia.
    exists events, ps'. eexists. split; [reflexivity|].
    split_and!; try done; [|rewrite length_app; lia].
    split; simpl; [rewrite length_app; lia| |done|by left].
    rewrite drop_app_le by lia. by rewrite Hl.
  - exists l, ps, eh. split; [|split_and!; try done; intros ->; destruct ps; naive_solver].
    destruct (bool_decide_reflect (length (loadedEvents eh) ≤ currentIndex eh + 1)) as [Hle|];
      [|done].
    destruct l; [|simpl in HL; lia]. assert (ps = []) as -> by (destruct ps; naive_solver).
    unfold hasMoreEvents. by rewrite (stream_nil _ Hp).
Qed.

(** The look-ahead sees the next event of the stream, whatever page it is on. *)
Lemma IsNextDecisionFailed_run eh e l ps n :
  at_state eh (e :: l) ps n → (1 ≤ n)%Z → Forall completed_ok (l ++ ps) →
  ∃ l' ps' eh', IsNextDecisionFailed eh =
      (Ret (default false (decision_failed <$> head (l ++ ps)),
            head (l ++ ps) ≫= completed_checksum, None), eh')
    ∧ l ++ ps = l' ++ ps' ∧ at_state eh' (e :: l') ps' n ∧ length ps' ≤ length ps
    ∧ binaryChecksum eh' = binaryChecksum eh ∧ same_rest eh eh'.
Proof.
  intros Hat Hn1 Hok. destruct (lookahead_run eh e l ps n Hat Hn1)
    as (l' & ps' & eh' & Hrun & Happ & Hnil & Hat' & Hps & Hci & Hbc & Hsr).
  exists l', ps', eh'. split; [|done]. unfold IsNextDecisionFailed.
  cbv beta iota zeta delta [mbind M_bind get]. rewrite Hrun.
  destruct (drop_cons_lookup _ _ _ _ (at_loaded _ _ _ _ Hat')) as (_ & Hdrop' & _).
  rewrite Hci in Hdrop'. rewrite Happ in *.
  assert (loadedEvents eh' !! (currentIndex eh + 1) = head l') as ->
    by (rewrite <- (Nat.add_0_r (_ + _)), <- lookup_drop, Hdrop'; by destruct l').
  destruct l' as [|e' l']; [by rewrite Hnil|]. simpl. fold (decision_failed e').
  unfold completed_checksum.
  destruct (decide (GetEventType e' = EventTypeDecisionTaskCompleted)) as [Ht|Ht]; [|done].
  assert (completed_ok e') as Hok' by (by inversion Hok).
  destruct (Hok' Ht) as [a Ha]. by rewrite Ha.
Qed.

Definition slice_app {A} (s : slice A) (l : list A) : slice A := foldl slice_append s l.

Definition is_marker (e : HistoryEvent) : Prop := GetEventType e = EventTypeMarkerRecorded.
Global Instance is_marker_dec e : base.Decision (is_marker e) := decide (_ = _).

(** What a batch of the stream [es] must look like, from the state [eh]. *)
Definition takes_batch (r : batch) (n : Z) (es : list HistoryEvent) eh
    (o : outcome batch * history) : Prop :=
  ∃ eh' l' ps', o = (Ret (Batch (slice_app (nextEvents r) (batch_events es))
      (slice_app (markers r) (filter is_marker (batch_events es))) None), eh')
    ∧ batch_rest es = l' ++ ps'
    ∧ at_state eh' l' ps' (n + Z.of_nat (length es) - Z.of_nat (length (batch_rest es)))
    ∧ currentIndex eh' = 0
    ∧ binaryChecksum eh' = default (binaryChecksum eh) (batch_checksum es) ∧ same_rest eh eh'.

Lemma at_advance eh e l ps n :
  at_state eh (e :: l) ps n → at_state (set_index (currentIndex eh + 1) eh) l ps n.
Proof.
  intros Hat. pose proof (loaded_next _ _ _ _ _ Hat). destruct Hat as [Hi Hl Hp Hn].
  destruct (drop_cons_lookup _ _ _ _ Hl) as (_ & Hd & Hlt). split; simpl; [lia|done|done|by left].
Qed.

Lemma at_count eh e l ps n :
  at_state eh (e :: l) ps n → at_state (set_nextEventID (n + 1) eh) (e :: l) ps (n + 1).
Proof. intros [? ? ? _]. split; simpl; [done..|by left]. Qed.

(** Skipping the head of the stream. *)
Lemma takes_batch_skip r n e es eh eh1 o :
  split (e :: es) = split es → takes_batch r (n + 1) es eh1 o →
  binaryChecksum eh1 = binaryChecksum eh → same_rest eh eh1 → takes_batch r n (e :: es) eh o.
Proof.
  intros Hs (eh' & l' & ps' & -> & Hr & Hat & Hi & Hc & [? ?]) Hb [? ?]. exists eh', l', ps'.
  unfold batch_events, batch_rest, batch_checksum in *. rewrite Hs. cbn [length].
  split_and!; [done|done| |done|congruence|split; congruence].
  by replace (n + Z.of_nat (S (length es)))%Z with (n + 1 + Z.of_nat (length es))%Z by lia.
Qed.

(** Handing over the head of the stream. *)
Lemma takes_batch_keep r n e es eh eh1 o :
  split (e :: es) = (let '(es1, c, rest) := split es in (e :: es1, c, rest)) →
  takes_batch (Batch (slice_append (nextEvents r) e)
    (if isPreloadMarkerEvent e then slice_append (markers r) e else markers r) None)
    (n + 1) es eh1 o →
  binaryChecksum eh1 = binaryChecksum eh → same_rest eh eh1 → takes_batch r n (e :: es) eh o.
Proof.
  intros Hs (eh' & l' & ps' & -> & Hr & Hat & Hi & Hc & [? ?]) Hb [? ?]. exists eh', l', ps'.
  unfold batch_events, batch_rest, batch_checksum in *. rewrite Hs.
  destruct (split es) as [[es1 c] rest]. cbn [fst snd length] in *.
  split_and!; [|done| |done|congruence|split; congruence].
  - rewrite filter_cons. unfold isPreloadMarkerEvent.
    destruct (decide (is_marker e)) as [Hm|Hm]; unfold is_marker in Hm.
    + by rewrite bool_decide_eq_true_2.
    + by rewrite bool_decide_eq_false_2.
  - by replace (n + Z.of_nat (S (length es)))%Z with (n + 1 + Z.of_nat (length es))%Z by lia.
Qed.

(** The end of the stream. *)
Lemma takes_batch_end r n eh :
  at_state eh [] [] n → batch_err r = None →
  takes_batch r n [] eh (shrink r eh).
Proof.
  intros [Hi Hl Hp Hn] Hr. eexists _, [], []. unfold shrink. run.
  split_and!; [done|done| |done..].
  replace (n + _ - _)%Z with n by (simpl; lia).
  split; simpl; [lia|by rewrite Hl|done|]. left. by destruct Hn as [?|(_ & _ & ?)].
Qed.

(** The decision that closes a batch. *)
Lemma takes_batch_close r n e es l' ps' eh eh1 :
  GetEventType e = EventTypeDecisionTaskStarted →
  default false (decision_failed <$> head es) = false →
  es = l' ++ ps' → at_state eh1 (e :: l') ps' (n + 1) → same_rest eh eh1 →
  takes_batch r n (e :: es) eh
    ((modify (set_checksum (head es ≫= completed_checksum));;
      modify (λ eh, set_index (currentIndex eh + 1) eh);;
      shrink (Batch (slice_append (nextEvents r) e) (markers r) None)) eh1).
Proof.
  intros Ht Hf Hes Hat Hsr. unfold shrink. run. simpl.
  assert (split (e :: es) = ([e], Some (head es ≫= completed_checksum), es)) as Hs.
  { cbn [split]. by rewrite Ht, Hf. }
  eexists _, l', ps'. unfold batch_events, batch_rest, batch_checksum. rewrite Hs. cbn [fst snd].
  pose proof (loaded_next _ _ _ _ _ Hat) as Hn. destruct Hat as [Hi Hl Hp _].
  destruct (drop_cons_lookup _ _ _ _ Hl) as (_ & Hd & _).
  split.
  { rewrite filter_cons. unfold is_marker. by rewrite decide_False by congruence. }
  split_and!; [done| |done|done|exact Hsr].
  - replace (n + Z.of_nat (length (e :: es)) - Z.of_nat (length es))%Z with (n + 1)%Z
      by (simpl; lia).
    split; simpl; [lia|done|done|by left].
Qed.

Lemma split_failed e es :
  GetEventType e = EventTypeDecisionTaskStarted →
  default false (decision_failed <$> head es) = true → split (e :: es) = split es.
Proof. intros Ht Hf. cbn [split]. by rewrite Ht, Hf. Qed.

Lemma OrderEvents_run fuel r eh l ps n :
  at_state eh l ps n → consecutive n (l ++ ps) → Forall completed_ok (l ++ ps) →
  length (l ++ ps) + length ps < fuel → batch_err r = None →
  (lastEventID eh < n + Z.of_nat (length (l ++ ps)))%Z →
  takes_batch r n (l ++ ps) eh (OrderEvents fuel r eh).
Proof.
  revert r eh l ps n. induction fuel as [|fuel IH]; intros r eh l ps n Hat Hcon Hok Hf Hr Hlast;
    [lia|].
  pose proof Hat as [Hi Hl Hp Hn]. cbn [OrderEvents]. run.
  destruct l as [|e l].
  - pose proof (f_equal length Hl) as HL. rewrite length_drop in HL. simpl in HL.
    rewrite decide_True by lia. destruct (decide (ps = [])) as [->|Hne].
    + unfold hasMoreEvents. rewrite (stream_nil _ Hp). simpl.
      assert (nextEventID eh = n) as Hn' by (by destruct Hn as [?|(_ & _ & ?)]).
      unfold verifyAllEventsProcessed. rewrite Hn'. simpl in Hlast.
      rewrite (bool_decide_eq_false_2 (n ≤ lastEventID eh)%Z), andb_false_r by lia.
      by apply takes_batch_end.
    + destruct (loadMoreEvents_run eh [] ps n Hat Hne Hcon) as
        (events & ps' & eh' & Hrun & -> & Hev & Hat' & Hn' & _ & Hla & Hnx & Hbc & _).
      assert (negb (hasMoreEvents eh) = false) as ->
        by (unfold hasMoreEvents; inversion Hp; [by destruct events|done]).
      rewrite Hrun. simpl in *. rewrite length_app in *.
      assert (length events ≠ 0) by (by destruct events).
      specialize (IH r eh' events ps' n Hat' Hcon Hok). rewrite length_app in IH.
      destruct IH as (eh'' & l'' & ps'' & -> & ? & ? & ? & ? & ? & ?); [lia|done|lia|].
      exists eh'', l'', ps''. unfold same_rest. split_and!; congruence || done.
  - destruct (drop_cons_lookup _ _ _ _ Hl) as (Hlk & Hdrop & Hlt).
    rewrite decide_False by lia. rewrite Hlk. pose proof (loaded_next _ _ _ _ _ Hat) as Hn'.
    change ((e :: l) ++ ps) with (e :: (l ++ ps)) in *.
    destruct (consecutive_cons _ _ _ Hcon) as (Hid & Hcon' & H64). rewrite Hn', Hid.
    rewrite decide_False by congruence. rewrite int64_id by done.
    apply at_count in Hat as Hat1. apply Forall_cons in Hok as [Hoke Hok].
    pose proof (at_advance _ _ _ _ _ Hat1) as Hat2.
    assert (∀ r', batch_err r' = None → takes_batch r' (n + 1) (l ++ ps)
      (set_index (currentIndex eh + 1) (set_nextEventID (n + 1) eh))
      (OrderEvents fuel r' (set_index (currentIndex eh + 1) (set_nextEventID (n + 1) eh))))
      as Hgo.
    { intros r' Hr'. simpl in Hf, Hlast. apply IH; simpl; [done..|lia|done|lia]. }
    destruct (GetEventType e) eqn:Ht;
      try (eapply (takes_batch_keep _ _ _ _ eh); [cbn [split]; by rewrite Ht|by apply Hgo|done..]);
      try (eapply (takes_batch_skip _ _ _ _ eh); [cbn [split]; by rewrite Ht|by apply Hgo|done..]).
    destruct (IsNextDecisionFailed_run (set_nextEventID (n + 1) eh) e l ps (n + 1) Hat1) as
      (l' & ps' & eh' & Hrun & Happ & Hat' & Hps & Hbc & Hsr); [destruct Hcon'; lia|done|].
    rewrite Hrun. destruct (default false (decision_failed <$> head (l ++ ps))) eqn:Hfail.
    + eapply (takes_batch_skip _ _ _ _ eh); [by apply split_failed| |done..].
      simpl in Hf, Hlast. rewrite Happ in *.
      pose proof (at_advance _ _ _ _ _ Hat') as Hat3. destruct Hsr as [Hla Hnx]. simpl in Hla, Hnx.
      destruct (IH r _ l' ps' (n + 1)%Z Hat3 Hcon' Hok) as
        (eh'' & l'' & ps'' & -> & ? & ? & ? & ? & ? & ?); simpl; [lia|done|lia|].
      exists eh'', l'', ps''. unfold same_rest in *. simpl in *. split_and!; congruence || done.
    + exact (takes_batch_close r n e (l ++ ps) l' ps' eh eh' Ht Hfail Happ Hat' Hsr).
Qed.

(** ** Reading a whole history *)

(** The events that reach the workflow: all but the scheduling of decisions,
    failed decisions, and the start of decisions that failed. *)
Fixpoint delivered (es : list HistoryEvent) : list HistoryEvent :=
  match es with
  | [] => []
  | e :: es' =>
      match GetEventType e with
      | EventTypeDecisionTaskStarted =>
          if default false (decision_failed <$> head es') then delivered es' else e :: delivered es'
      | EventTypeDecisionTaskScheduled | EventTypeDecisionTaskTimedOut
      | EventTypeDecisionTaskFailed => delivered es'
      | _ => e :: delivered es'
      end
  end.

Lemma delivered_split es : delivered es = batch_events es ++ delivered (batch_rest es).
Proof.
  unfold batch_events, batch_rest. induction es as [|e es IH]; [done|]. cbn [delivered split].
  destruct (GetEventType e); try done; try (rewrite IH; by destruct (split es) as [[??]?]).
  destruct (default false _); [by rewrite IH|done].
Qed.

Lemma batch_rest_suffix es : batch_rest es `suffix_of` es.
Proof.
  unfold batch_rest. induction es as [|e es IH]; [done|]. cbn [split].
  destruct (GetEventType e); try (by apply suffix_cons_r);
    try (destruct (split es) as [[??]?]; by apply suffix_cons_r).
  destruct (default false _); simpl; [by apply suffix_cons_r|]. by exists [e].
Qed.

Lemma batch_rest_shorter es : es ≠ [] → length (batch_rest es) < length es.
Proof.
  unfold batch_rest. intros Hne. destruct es as [|e es]; [done|]. clear Hne.
  assert (length (split es).2 ≤ length es) as Hle
    by (pose proof (suffix_length _ _ (batch_rest_suffix es)); done).
  cbn [split]. destruct (GetEventType e); simpl; try lia;
    try (destruct (split es) as [[??]?]; simpl in *; lia).
  destruct (default false _); simpl; lia.
Qed.

(** Only the end of the stream gives a batch without events. *)
Lemma batch_nonempty es : batch_events es = [] → batch_rest es = [].
Proof.
  unfold batch_events, batch_rest. induction es as [|e es IH]; [done|]. cbn [split].
  destruct (GetEventType e); try done; try (by destruct (split es) as [[??]?]).
  by destruct (default false _).
Qed.

(** [NextDecisionEvents] until it has no more events, as [ProcessWorkflowTask]
    calls it. *)
Fixpoint consume (steps fuel : nat) : M history (list HistoryEvent) :=
  match steps with
  | 0 => throw OutOfFuel
  | S steps =>
      r ← NextDecisionEvents fuel;
      let '(result, _, _, err) := r in
      match (err : option string) with
      | Some err => throw (ErrorPanic err)
      | None =>
          if decide (slice_len (result : slice HistoryEvent) = 0) then mret []
          else rest ← consume steps fuel; mret (default [] result ++ rest)
      end
  end.

Lemma slice_app_default {A} (s : slice A) l : default [] (slice_app s l) = default [] s ++ l.
Proof.
  revert s. induction l as [|x l IH]; intros s; simpl; [by rewrite app_nil_r|].
  rewrite IH. simpl. by rewrite <- app_assoc.
Qed.

Lemma at_empty eh l ps n :
  at_state eh l ps n →
  bool_decide (currentIndex eh = length (loadedEvents eh)) && negb (hasMoreEvents eh)
  = bool_decide (l ++ ps = []).
Proof.
  intros [Hi Hl Hp _]. pose proof (f_equal length Hl) as HL. rewrite length_drop in HL.
  destruct (decide (l ++ ps = [])) as [[-> ->]%app_nil|Hne].
  - simpl in *. rewrite !bool_decide_eq_true_2 by (done || lia).
    unfold hasMoreEvents. by rewrite (stream_nil _ Hp).
  - rewrite (bool_decide_eq_false_2 (_ ++ _ = _)) by done. destruct l as [|e l].
    + simpl in *. unfold hasMoreEvents. destruct Hp; [done|]. apply andb_false_r.
    + rewrite bool_decide_eq_false_2; [done|]. simpl in HL. lia.
Qed.

(** One call of [nextDecisionEvents], at any point of the stream. *)
Lemma nextDecisionEvents_run fuel eh l ps n :
  let es := l ++ ps in
  at_state eh l ps n → consecutive n es → Forall completed_ok es →
  2 * length es < fuel → (lastEventID eh < n + Z.of_nat (length es))%Z →
  ∃ b eh' l' ps', nextDecisionEvents fuel eh = (Ret b, eh')
    ∧ default [] (nextEvents b) = batch_events es
    ∧ default [] (markers b) = filter is_marker (batch_events es) ∧ batch_err b = None
    ∧ batch_rest es = l' ++ ps'
    ∧ at_state eh' l' ps' (n + Z.of_nat (length es) - Z.of_nat (length (batch_rest es)))
    ∧ binaryChecksum eh' = default (binaryChecksum eh) (batch_checksum es) ∧ same_rest eh eh'.
Proof.
  intros es Hat Hcon Hok Hf Hlast. unfold nextDecisionEvents. run.
  rewrite (at_empty _ _ _ _ Hat). case_bool_decide as Hes.
  - apply app_nil in Hes as [-> ->]. pose proof Hat as [_ _ _ Hn].
    assert (nextEventID eh = n) as Hn' by (by destruct Hn as [?|(_ & _ & ?)]).
    unfold verifyAllEventsProcessed. rewrite Hn'. simpl in Hlast.
    rewrite (bool_decide_eq_false_2 (n ≤ lastEventID eh)%Z), andb_false_r by lia.
    eexists _, eh, [], []. split; [reflexivity|]. split_and!; try done.
    by replace (n + _ - _)%Z with n by (simpl; lia).
  - destruct (OrderEvents_run fuel (Batch None None None) eh l ps n Hat Hcon Hok) as
      (eh' & l' & ps' & Hrun & Hrest & Hat' & _ & Hbc & Hsr); [|done|done|].
    { unfold es in Hf. rewrite length_app in *. lia. }
    eexists _, eh', l', ps'. split; [exact Hrun|]. simpl. rewrite !slice_app_default. done.
Qed.

Lemma consecutive_suffix n es k :
  consecutive n es → k `suffix_of` es →
  consecutive (n + Z.of_nat (length es) - Z.of_nat (length k)) k.
Proof.
  intros (Hid & Hn & Hlt) [x ->]. rewrite length_app in *. split_and!; [|lia..].
  intros i e Hi. rewrite (Hid (length x + i) e); [lia|].
  rewrite lookup_app_r by lia. by replace (_ + i - _) with i by lia.
Qed.

Lemma completed_suffix es k : Forall completed_ok es → k `suffix_of` es → Forall completed_ok k.
Proof. intros Hok [x ->]. by apply Forall_app in Hok as [_ ?]. Qed.

(** The stream [es] is what [eh] has not read yet; the events that were read
    and not handed over are in [next]. *)
Record reads (fuel : nat) eh (es : list HistoryEvent) : Prop := {
  reads_at : ∃ l ps n, es = l ++ ps ∧ at_state eh l ps n ∧ consecutive n es
    ∧ (lastEventID eh < n + Z.of_nat (length es))%Z;
  reads_completed : Forall completed_ok es;
  reads_fuel : 2 * length es < fuel }.

Lemma reads_step fuel eh es :
  reads fuel eh es →
  ∃ b eh', nextDecisionEvents fuel eh = (Ret b, eh')
    ∧ default [] (nextEvents b) = batch_events es
    ∧ default [] (markers b) = filter is_marker (batch_events es) ∧ batch_err b = None
    ∧ reads fuel eh' (batch_rest es) ∧ next eh' = next eh
    ∧ binaryChecksum eh' = default (binaryChecksum eh) (batch_checksum es).
Proof.
  intros [(l & ps & n & -> & Hat & Hcon & Hlast) Hok Hf].
  destruct (nextDecisionEvents_run fuel eh l ps n Hat Hcon Hok Hf Hlast) as
    (b & eh' & l' & ps' & Hrun & Hb & Hm & He & Hrest & Hat' & Hbc & [Hla Hnx]).
  pose proof (batch_rest_suffix (l ++ ps)) as Hsuf.
  exists b, eh'. split_and!; [done..| |done|done]. split.
  - exists l', ps'. eexists. split_and!; [done|exact Hat'|by apply consecutive_suffix|].
    rewrite Hla. lia.
  - by eapply completed_suffix.
  - pose proof (suffix_length _ _ Hsuf). lia.
Qed.

Lemma reads_set_next fuel eh es nx : reads fuel eh es → reads fuel (set_next nx eh) es.
Proof.
  intros [(l & ps & n & -> & [? ? ? ?] & Hcon & Hlast) Hok Hf]. split; [|done..].
  by exists l, ps, n.
Qed.

(** One call of [NextDecisionEvents]: [b] is the batch that it hands over. *)
Lemma NextDecisionEvents_run fuel eh es :
  reads fuel eh es →
  let b := if next eh is Some b then b else batch_events es in
  let rest := if next eh is Some _ then es else batch_rest es in
  ∃ result mk c eh', NextDecisionEvents fuel eh = (Ret (result, mk, c, None), eh')
    ∧ default [] result = b
    ∧ (b ≠ [] → default [] mk = filter is_marker (batch_events rest)
        ∧ default [] (next eh') = batch_events rest ∧ reads fuel eh' (batch_rest rest)).
Proof.
  intros Hr. unfold NextDecisionEvents. run.
  assert (∃ eh1 nx, (match next eh with
    | Some _ => mret None
    | None => b ← nextDecisionEvents fuel; modify (set_next (nextEvents b));; mret (batch_err b)
    end) eh = (Ret None, eh1) ∧ next eh1 = nx
    ∧ default [] nx = (if next eh is Some b then b else batch_events es)
    ∧ reads fuel eh1 (if next eh is Some _ then es else batch_rest es))
    as (eh1 & nx & Hrun1 & Hnx1 & Hb1 & Hr1).
  { destruct (next eh) as [b|] eqn:Hn; [by exists eh, (Some b)|].
    destruct (reads_step fuel eh es Hr) as (b & eh' & Hrun & Hb & _ & He & Hr' & _).
    run. rewrite Hrun, He. eexists _, _. split; [reflexivity|].
    split_and!; [done|done|by apply reads_set_next]. }
  cbv beta iota zeta delta [mbind M_bind mret M_ret modify] in Hrun1. rewrite Hrun1.
  destruct (reads_step fuel eh1 _ Hr1) as (b2 & eh2 & Hrun2 & Hb2 & Hm2 & He2 & Hr2 & _).
  rewrite Hnx1. unfold slice_len. case_decide as Hlen.
  - rewrite Hrun2, He2. do 4 eexists. split; [reflexivity|]. split; [done|]. intros _.
    split_and!; [done..|by apply reads_set_next].
  - do 4 eexists. split; [reflexivity|]. split; [done|]. intros Hne. rewrite <- Hb1 in Hne.
    destruct (default [] nx); [done|simpl in Hlen; lia].
Qed.

(** The calls that are left after one of them, when the events in [nx] were read
    ahead. *)
Lemma next_round_steps (nx : slice HistoryEvent) es steps :
  let b := if nx is Some b then b else batch_events es in
  let rest := if nx is Some _ then es else batch_rest es in
  b ≠ [] → length es + (if decide (default [] nx = [] ∧ es = []) then 1 else 2) ≤ S steps →
  length (batch_rest rest)
    + (if decide (batch_events rest = [] ∧ batch_rest rest = []) then 1 else 2) ≤ steps.
Proof.
  intros b rest Hb Hs.
  pose proof (suffix_length _ _ (batch_rest_suffix rest)) as Hle.
  assert (¬ (default [] nx = [] ∧ es = [])) as Hne.
  { unfold b in Hb. destruct nx; [naive_solver|]. by intros [_ ->]. }
  rewrite decide_False in Hs by done. unfold rest, b in *. destruct (decide (es = [])) as [->|Hes].
  - destruct nx; simpl in *; lia.
  - pose proof (batch_rest_shorter es Hes). destruct nx; case_decide; lia.
Qed.

Lemma consume_run steps fuel eh es :
  reads fuel eh es → (default [] (next eh) = [] → is_Some (next eh) → es = []) →
  length es + (if decide (default [] (next eh) = [] ∧ es = []) then 1 else 2) ≤ steps →
  fst (consume steps fuel eh) = Ret (default [] (next eh) ++ delivered es).
Proof.
  revert eh es. induction steps as [|steps IH]; intros eh es Hr Hnil Hs; [case_decide; lia|].
  cbn [consume]. unfold mbind, M_bind.
  destruct (NextDecisionEvents_run fuel eh es Hr) as (result & mk & c & eh' & -> & Hres & Hnext).
  set (b := if next eh is Some b then b else batch_events es) in *.
  set (rest := if next eh is Some _ then es else batch_rest es) in *.
  assert (b ++ delivered rest = default [] (next eh) ++ delivered es) as Hdel.
  { unfold b, rest. destruct (next eh); simpl; [done|]. by rewrite <- delivered_split. }
  unfold slice_len. rewrite Hres. rewrite <- Hdel.
  destruct (decide (length b = 0)) as [Hb|Hb]; simpl.
  - apply nil_length_inv in Hb. rewrite Hb. simpl. f_equal.
    assert (rest = []) as ->; [|done]. unfold b, rest in *.
    destruct (next eh); [by apply Hnil|by apply batch_nonempty].
  - assert (b ≠ []) as Hb' by (by intros ->). destruct (Hnext Hb') as (_ & Hn & Hr').
    specialize (IH eh' (batch_rest rest) Hr'). unfold mbind, M_bind. rewrite Hn in IH.
    destruct (consume steps fuel eh') as [o eh''] eqn:Hc. simpl in IH.
    rewrite IH; [by rewrite delivered_split with rest| |].
    + intros Hb2 _. by apply batch_nonempty.
    + exact (next_round_steps (next eh) es steps Hb' Hs).
Qed.

(** ** Order, whatever the service answers *)

(** The ids of [l] increase strictly, from [n] on and below [n']. *)
Fixpoint ascending (n : Z) (l : list HistoryEvent) (n' : Z) : Prop :=
  match l with
  | [] => (n ≤ n')%Z
  | e :: l => (n ≤ GetEventId e)%Z ∧ ascending (GetEventId e + 1) l n'
  end.

Lemma ascending_weaken n l k k' : ascending n l k → (k ≤ k')%Z → ascending n l k'.
Proof.
  revert n. induction l as [|e l IH]; intros n; simpl; [lia|]. intros [? ?] ?. split; eauto.
Qed.

Lemma ascending_snoc n l e : ascending n l (GetEventId e) → ascending n (l ++ [e]) (GetEventId e + 1).
Proof.
  revert n. induction l as [|e' l IH]; intros n; simpl; [lia|]. intros [? ?]. split; auto.
Qed.

Lemma loadMoreEvents_keeps k : (1 ≤ k)%Z → pres (λ eh, nextEventID eh = k) loadMoreEvents.
Proof.
  intros Hk eh Hn. unfold loadMoreEvents. run.
  destruct (page (nextPageToken eh)) as [err|[events token]]; [done|].
  simpl. by rewrite decide_False by lia.
Qed.

Lemma IsNextDecisionFailed_keeps k :
  (1 ≤ k)%Z → pres (λ eh, nextEventID eh = k) IsNextDecisionFailed.
Proof.
  intros Hk. unfold IsNextDecisionFailed. apply pres_bind; [auto with pres|intros eh].
  apply pres_bind; [case_match; auto using loadMoreEvents_keeps with pres|].
  intros err. repeat first [case_match | apply pres_bind; [auto with pres|intros]];
    auto with pres.
Qed.

Lemma OrderEvents_ascending fuel r eh n0 b eh' :
  OrderEvents fuel r eh = (Ret b, eh') → (1 ≤ nextEventID eh)%Z →
  (nextEventID eh + Z.of_nat fuel < 2 ^ 63)%Z →
  ascending n0 (default [] (nextEvents r)) (nextEventID eh) →
  ascending n0 (default [] (nextEvents b)) (nextEventID eh').
Proof.
  revert r eh. induction fuel as [|fuel IH]; intros r eh Hrun Hn Hf Hasc; [done|].
  cbn [OrderEvents] in Hrun. run_in Hrun. case_decide.
  { destruct (negb (hasMoreEvents eh)).
    - destruct (verifyAllEventsProcessed eh); [by simplify_eq|].
      unfold shrink in Hrun. run_in Hrun. by simplify_eq.
    - pose proof (loadMoreEvents_keeps _ Hn eh eq_refl) as Hk.
      destruct (loadMoreEvents eh) as [[[err|]|] eh1]; simpl in Hk; simplify_eq;
        [simpl; by rewrite Hk|].
      eapply IH; [exact Hrun|lia..|by rewrite Hk]. }
  destruct (loadedEvents eh !! currentIndex eh) as [event|]; [|done].
  case_decide as Hid; [by simplify_eq|].
  rewrite int64_id in Hrun by (unfold in_int64; lia).
  assert (∀ r' eh1, nextEventID eh1 = (nextEventID eh + 1)%Z →
    ascending n0 (default [] (nextEvents r')) (nextEventID eh + 1) →
    OrderEvents fuel r' eh1 = (Ret b, eh') →
    ascending n0 (default [] (nextEvents b)) (nextEventID eh')) as Hgo.
  { intros r' eh1 H1 Ha Ho. eapply IH; [exact Ho|lia..|by rewrite H1]. }
  assert (ascending n0 (default [] (nextEvents r)) (nextEventID eh + 1)) as Hskip
    by (eapply ascending_weaken; [done|lia]).
  assert (ascending n0 (default [] (slice_append (nextEvents r) event)) (nextEventID eh + 1))
    as Hkeep by (simpl; rewrite <- Hid in *; by apply ascending_snoc).
  destruct (GetEventType event);
    try (by eapply Hgo; [..|exact Hrun]; [|exact Hkeep]);
    try (by eapply Hgo; [..|exact Hrun]; [|exact Hskip]).
  pose proof (IsNextDecisionFailed_keeps (nextEventID eh + 1) ltac:(lia)
    (set_nextEventID (nextEventID eh + 1) eh) eq_refl) as Hk.
  destruct (IsNextDecisionFailed (set_nextEventID (nextEventID eh + 1) eh))
    as [[[[failed c] [err|]]|] eh1]; simpl in Hk;
    [simplify_eq; simpl; by rewrite Hk| |done].
  destruct failed; [by eapply Hgo; [..|exact Hrun]; [|exact Hskip]|].
  unfold shrink in Hrun. run_in Hrun. simplify_eq. simpl in *. by rewrite Hk.
Qed.

Lemma newHistory_reads fuel Events StartedEventId token es n :
  stream token es → consecutive n (Events ++ es) → Forall completed_ok (Events ++ es) →
  Events ++ es ≠ [] → (StartedEventId < n + Z.of_nat (length (Events ++ es)))%Z →
  2 * length (Events ++ es) < fuel →
  reads fuel (newHistory Events StartedEventId token) (Events ++ es).
Proof.
  intros Hs Hcon Hok Hne Hlast Hf.
  split; [|done..]. exists Events, es, n. split_and!; [done| |done..].
  split; simpl; [lia|done|done|]. destruct Events as [|e Events]; [by right|].
  left. by destruct (consecutive_cons _ _ _ Hcon).
Qed.

(** ** The theorems *)

(** C5: However the service cuts a history into pages that all have events,
    reading it batch by batch to the end hands over exactly the events of the
    history, each once and in order, less the scheduling of decisions, the failed or
    timed out decisions and the starts of those.  It ends within the given number of
    calls and iterations, without an error and without a panic.  The ids of the
    events count up and reach the started event of the task, and completed
    decisions have their attributes; after an empty page the code can miss that a
    decision failed ([empty_page_hides_failure]). *)
Theorem history_read_once steps fuel Events StartedEventId token es n :
  stream token es → consecutive n (Events ++ es) → Forall completed_ok (Events ++ es) →
  Events ++ es ≠ [] → (StartedEventId < n + Z.of_nat (length (Events ++ es)))%Z →
  length (Events ++ es) + 2 ≤ steps → 2 * length (Events ++ es) < fuel →
  fst (consume steps fuel (newHistory Events StartedEventId token)) = Ret (delivered (Events ++ es)).
Proof.
  intros Hs Hcon Hok Hne Hlast Hst Hf.
  rewrite (consume_run _ _ _ (Events ++ es)); [done| |by intros _ [? ?]|case_decide; lia].
  by apply newHistory_reads with n.
Qed.

(** One call of [NextDecisionEvents] returns the batch that was read
    ahead, or reads it, with the markers of the batch that follows it, and leaves
    the reader at that following batch; the batches are those of the flat
    stream. *)
Theorem NextDecisionEvents_batches fuel eh es :
  reads fuel eh es →
  let b := if next eh is Some b then b else batch_events es in
  let rest := if next eh is Some _ then es else batch_rest es in
  ∃ result mk c eh', NextDecisionEvents fuel eh = (Ret (result, mk, c, None), eh')
    ∧ default [] result = b
    ∧ (b ≠ [] → default [] mk = filter is_marker (batch_events rest)
        ∧ default [] (next eh') = batch_events rest ∧ reads fuel eh' (batch_rest rest)).
Proof. apply NextDecisionEvents_run. Qed.

(** Whatever the service answers, the events of a batch have strictly
    increasing ids, none below the id that was expected and all below the id that
    is expected next: a history with a gap, a repetition or a reordering is never
    handed over silently. *)
Theorem batch_ascending fuel eh b eh' :
  nextDecisionEvents fuel eh = (Ret b, eh') → (1 ≤ nextEventID eh)%Z →
  (nextEventID eh + Z.of_nat fuel < 2 ^ 63)%Z →
  ascending (nextEventID eh) (default [] (nextEvents b)) (nextEventID eh').
Proof.
  intros Hrun Hn Hf. unfold nextDecisionEvents in Hrun. run_in Hrun. case_match.
  - case_match; simplify_eq; simpl; lia.
  - eapply OrderEvents_ascending; [exact Hrun|done..|]. simpl. lia.
Qed.

End history.

(** ** The hypotheses can hold *)

Definition sample_event (id : Z) (t : EventType) : HistoryEvent :=
  set_HistoryEvent_EventId (Some id) (set_HistoryEvent_EventType (Some t) HistoryEvent_nil).

Definition sample_events : list HistoryEvent :=
  [sample_event 1 EventTypeWorkflowExecutionStarted;
   sample_event 2 EventTypeDecisionTaskScheduled;
   sample_event 3 EventTypeDecisionTaskStarted].
Definition sample_page2 : list HistoryEvent :=
  [sample_event 4 EventTypeDecisionTaskFailed;
   sample_event 5 EventTypeDecisionTaskScheduled;
   sample_event 6 EventTypeDecisionTaskStarted].

(** A service that has the second page behind the token "t". *)
Definition sample_service : pageFunc := λ token,
  match token with Some "t" => inr (sample_page2, None) | _ => inl "bad token" end.

Lemma sample_stream : stream sample_service (Some "t") sample_page2.
Proof.
  change sample_page2 with (sample_page2 ++ []).
  by apply (stream_page _ _ sample_page2 None); [..|constructor].
Qed.

Lemma sample_consecutive : consecutive 1 (sample_events ++ sample_page2).
Proof.
  split; [|simpl; lia]. intros i e Hi.
  do 6 (destruct i as [|i]; [by injection Hi as <-|]). done.
Qed.

Lemma sample_completed_ok : Forall completed_ok (sample_events ++ sample_page2).
Proof. repeat constructor; discriminate. Qed.

Lemma history_read_once_witness :
  fst (consume sample_service 8 13 (newHistory sample_events 6 (Some "t")))
  = Ret [sample_event 1 EventTypeWorkflowExecutionStarted;
         sample_event 6 EventTypeDecisionTaskStarted].
Proof.
  rewrite (history_read_once sample_service 8 13 sample_events 6 (Some "t") sample_page2 1).
  - reflexivity.
  - apply sample_stream.
  - apply sample_consecutive.
  - apply sample_completed_ok.
  - discriminate.
  - simpl. lia.
  - simpl. lia.
  - simpl. lia.
Defined.

Lemma NextDecisionEvents_batches_witness : ∃ result mk c eh',
  NextDecisionEvents sample_service 13 (newHistory sample_events 6 (Some "t"))
  = (Ret (result, mk, c, None), eh') ∧ default [] result =
    [sample_event 1 EventTypeWorkflowExecutionStarted;
     sample_event 6 EventTypeDecisionTaskStarted].
Proof.
  destruct (NextDecisionEvents_batches sample_service 13 (newHistory sample_events 6 (Some "t"))
    (sample_events ++ sample_page2)) as (result & mk & c & eh' & Hrun & Hb & _).
  - split.
    + exists sample_events, sample_page2, 1%Z. split_and!; [reflexivity| | |simpl; lia].
      * split; simpl; [lia|reflexivity|apply sample_stream|left; reflexivity].
      * apply sample_consecutive.
    + apply sample_completed_ok.
    + simpl. lia.
  - exists result, mk, c, eh'. split; [exact Hrun|]. rewrite Hb. reflexivity.
Defined.

Lemma batch_ascending_witness : ∃ b eh',
  nextDecisionEvents sample_service 13 (newHistory sample_events 6 (Some "t")) = (Ret b, eh')
  ∧ ascending 1 (default [] (nextEvents b)) (nextEventID eh').
Proof.
  eexists _, _. split; [vm_compute; reflexivity|].
  eapply (batch_ascending sample_service 13 (newHistory sample_events 6 (Some "t"))).
  - vm_compute. reflexivity.
  - vm_compute. discriminate.
  - vm_compute. reflexivity.
Defined.

(** ** An empty page hides a failed decision

    The look-ahead loads one page only.  When that page is empty and not the
    last one, the decision that failed on the page after it is taken for one that
    completed: the same events give another batch. *)

Definition empty_page_service : pageFunc := λ token,
  match token with
  | Some "t" => inr ([], Some "u")
  | Some "u" => inr (sample_page2, None)
  | _ => inl "bad token"
  end.

Theorem empty_page_hides_failure :
  (∃ eh, NextDecisionEvents sample_service 20 (newHistory sample_events 6 (Some "t"))
     = (Ret (Some [sample_event 1 EventTypeWorkflowExecutionStarted;
                   sample_event 6 EventTypeDecisionTaskStarted], Some [], None, None), eh)) ∧
  (∃ eh, NextDecisionEvents empty_page_service 20 (newHistory sample_events 6 (Some "t"))
     = (Ret (Some [sample_event 1 EventTypeWorkflowExecutionStarted;
                   sample_event 3 EventTypeDecisionTaskStarted], None, None, None), eh)).
Proof. split; eexists; vm_compute; reflexivity. Qed.
