(* ===== verification/LRU.v ===== *)
(** * The LRU cache

    internal/common/cache/lru.go: the cache of workflow contexts, a map from
    keys to the elements of a list in order of access.  The mutex makes every
    operation one step; [now] is the clock an operation reads; [go rmFunc(v)]
    starts a call whose value is recorded in [removed]. *)

From stdpp Require Import base list gmap strings.
From S2P Require Import Prelude.

Section lru.
Context {V : Type}.

(** An [interface{}] is nil or a value. *)
Abbreviation value := (option V).

Record cacheEntry := CacheEntry {
  ce_key : string;
  expiration : option Z;  (** [None] is the zero time *)
  ce_value : value;
  refCount : Z }.

Record lru := Lru {
  entries : gmap nat cacheEntry;
  entries_next : nat;
  byAccess : list nat;
  byKey : gmap string nat;
  maxSize : Z;
  ttl : Z;
  pin : bool;
  has_rmFunc : bool;
  removed : list value }.

Implicit Types (c : lru) (k : string) (p : nat) (e : cacheEntry) (v : value).

Record Options := MkOptions {
  TTL : Z;
  Pin : bool;
  RemovedFunc : bool }.

Definition New (size : Z) (opts : option Options) : lru :=
  let opts := default (MkOptions 0 false false) opts in
  Lru ∅ 0 [] ∅ size (TTL opts) (Pin opts) (RemovedFunc opts) [].

Definition NewLRU (size : Z) : lru := New size None.

Definition set_entry p e c : lru :=
  Lru (<[p := e]> (entries c)) (entries_next c) (byAccess c) (byKey c)
    (maxSize c) (ttl c) (pin c) (has_rmFunc c) (removed c).
Definition set_index (l : list nat) (m : gmap string nat) c : lru :=
  Lru (entries c) (entries_next c) l m (maxSize c) (ttl c) (pin c) (has_rmFunc c) (removed c).
Definition push_entry e c : lru :=
  Lru (<[entries_next c := e]> (entries c)) (S (entries_next c)) (entries_next c :: byAccess c)
    (<[ce_key e := entries_next c]> (byKey c))
    (maxSize c) (ttl c) (pin c) (has_rmFunc c) (removed c).
(** [if c.rmFunc != nil { go c.rmFunc(v) }] *)
Definition notify v c : lru :=
  Lru (entries c) (entries_next c) (byAccess c) (byKey c) (maxSize c) (ttl c) (pin c)
    (has_rmFunc c) (if has_rmFunc c then removed c ++ [v] else removed c).

Definition entry p : M lru cacheEntry :=
  c ← get;
  match entries c !! p with Some e => mret e | None => throw NilDereference end.

Definition set_refCount n e : cacheEntry := CacheEntry (ce_key e) (expiration e) (ce_value e) n.

(** ** Operations *)

Definition Exist k c : bool := bool_decide (is_Some (byKey c !! k)).

Definition Size c : nat := size (byKey c).

Definition Get (now : Z) k : M lru value :=
  c ← get;
  match byKey c !! k with
  | None => mret None
  | Some elt =>
      e ← entry elt;
      let e := if pin c then set_refCount (int64 (refCount e + 1)) e else e in
      modify (set_entry elt e);;
      if bool_decide (refCount e = 0%Z)
         && match expiration e with Some t => bool_decide (t < now)%Z | None => false end then
        modify (notify (ce_value e));;
        modify (λ c, set_index (list_Remove elt (byAccess c)) (delete (ce_key e) (byKey c)) c);;
        mret None
      else
        modify (λ c, set_index (list_MoveToFront elt (byAccess c)) (byKey c) c);;
        mret (ce_value e)
  end.

Definition ErrCacheFull := "Cache capacity is fully occupied with pinned elements".

Definition expires (now : Z) c : option Z := Some (now + ttl c)%Z.

(** Returns the existing value and the error. *)
Definition putInternal (now : Z) k v (allowUpdate : bool) : M lru (value * option string) :=
  c ← get;
  match byKey c !! k with
  | Some elt =>
      e ← entry elt;
      let existing := ce_value e in
      let e := CacheEntry (ce_key e) (if decide (ttl c ≠ 0%Z) then expires now c else expiration e)
                 (if allowUpdate then v else ce_value e)
                 (if pin c then int64 (refCount e + 1) else refCount e) in
      modify (set_entry elt e);;
      modify (λ c, set_index (list_MoveToFront elt (byAccess c)) (byKey c) c);;
      mret (existing, None)
  | None =>
      let e := CacheEntry k (if decide (ttl c ≠ 0%Z) then expires now c else None) v
                 (if pin c then 1%Z else 0%Z) in
      modify (push_entry e);;
      c ← get;
      if decide (Z.of_nat (size (byKey c)) = maxSize c) then
        match last (byAccess c) with
        | None => throw NilDereference
        | Some back =>
            oldest ← entry back;
            if decide (0 < refCount oldest)%Z then
              modify (λ c, set_index (tail (byAccess c)) (delete k (byKey c)) c);;
              mret (None, Some ErrCacheFull)
            else
              modify (λ c, set_index (list_Remove back (byAccess c)) (byKey c) c);;
              modify (notify (ce_value oldest));;
              modify (λ c, set_index (byAccess c) (delete (ce_key oldest) (byKey c)) c);;
              mret (None, None)
        end
      else mret (None, None)
  end.

Definition Put (now : Z) k v : M lru value :=
  c ← get;
  if pin c
  then throw (StringPanic "Cannot use Put API in Pin mode. Use Delete and PutIfNotExist if necessary")
  else r ← putInternal now k v true; mret (fst (r : value * option string)).

Definition PutIfNotExist (now : Z) k v : M lru (value * option string) :=
  r ← putInternal now k v false;
  match (r : value * option string) with
  | (_, Some err) => mret (None, Some err)
  | (None, None) => mret (v, None)
  | (Some existing, None) => mret (Some existing, None)
  end.

Definition Delete k : M lru unit :=
  c ← get;
  match byKey c !! k with
  | None => mret tt
  | Some elt =>
      e ← entry elt;
      modify (λ c, set_index (list_Remove elt (byAccess c)) (byKey c) c);;
      modify (notify (ce_value e));;
      modify (λ c, set_index (byAccess c) (delete k (byKey c)) c)
  end.

Definition Release k : M lru unit :=
  c ← get;
  match byKey c !! k with
  | None => throw NilDereference
  | Some elt => e ← entry elt; modify (set_entry elt (set_refCount (int64 (refCount e - 1)) e))
  end.

(** ** The reference: entries in order of access *)

(** The entries of the cache, the most recently used first. *)
Definition contents c : list cacheEntry := omap (λ p, entries c !! p) (byAccess c).

Definition find k (l : list cacheEntry) : option cacheEntry :=
  head (filter (λ e, ce_key e = k) l).
Definition without k (l : list cacheEntry) : list cacheEntry :=
  filter (λ e, ce_key e ≠ k) l.

(** The map and the list describe the same entries. *)
Record wf c : Prop := {
  wf_nodup : NoDup (byAccess c);
  wf_listed p : p ∈ byAccess c →
    ∃ e, entries c !! p = Some e ∧ byKey c !! ce_key e = Some p;
  wf_mapped k p : byKey c !! k = Some p →
    p ∈ byAccess c ∧ ∃ e, entries c !! p = Some e ∧ ce_key e = k;
  wf_size : size (byKey c) = length (byAccess c);
  wf_next p : p ∈ byAccess c → p < entries_next c }.

(** ** The primitive changes keep the cache well-formed *)

Lemma wf_New size opts : wf (New size opts).
Proof. split; simpl; [constructor|set_solver..|done|set_solver]. Qed.

Lemma wf_set_entry p e e' c :
  wf c → entries c !! p = Some e → ce_key e' = ce_key e → wf (set_entry p e' c).
Proof.
  intros [Hnd Hl Hm Hs Hn] Hp Hk. split; simpl; [done| | |done|done].
  - intros q Hq. destruct (Hl q Hq) as (n & Hn' & Hd). rewrite lookup_insert.
    case_decide; [subst q; exists e'; naive_solver congruence|eauto].
  - intros k q Hq. destruct (Hm k q Hq) as (Hin & n & Hn' & Hd). split; [done|].
    rewrite lookup_insert. case_decide; [subst q; exists e'; naive_solver congruence|eauto].
Qed.

Lemma wf_move p c : wf c → wf (set_index (list_MoveToFront p (byAccess c)) (byKey c) c).
Proof.
  intros [Hnd Hl Hm Hs Hn]. split; simpl.
  - by apply NoDup_MoveToFront.
  - intros q. rewrite elem_of_MoveToFront. auto.
  - intros k q. rewrite elem_of_MoveToFront. auto.
  - by rewrite (Permutation_MoveToFront p _ Hnd).
  - intros q. rewrite elem_of_MoveToFront. auto.
Qed.

Lemma wf_remove p e c :
  wf c → p ∈ byAccess c → entries c !! p = Some e →
  wf (set_index (list_Remove p (byAccess c)) (delete (ce_key e) (byKey c)) c).
Proof.
  intros [Hnd Hl Hm Hs Hn] Hp He.
  destruct (Hl p Hp) as (e0 & He0 & Hd). replace e0 with e in * by congruence.
  split; simpl.
  - by apply NoDup_Remove.
  - intros q [Hq Hqp]%elem_of_Remove. destruct (Hl q Hq) as (n & Hn' & Hd').
    exists n. split; [done|]. rewrite lookup_delete_ne; [done|]. intros Hk. congruence.
  - intros k q [Hk Hq]%lookup_delete_Some. destruct (Hm k q Hq) as (Hin & n & Hn' & Hd').
    split; [|eauto]. apply elem_of_Remove. split; [done|]. intros ->. congruence.
  - rewrite map_size_delete, Hd. rewrite (length_Remove p (byAccess c)) in Hs by done. simpl. lia.
  - intros q [? ?]%elem_of_Remove. auto.
Qed.

Lemma wf_push e c : wf c → byKey c !! ce_key e = None → wf (push_entry e c).
Proof.
  intros [Hnd Hl Hm Hs Hn] Hk.
  assert (∀ q, q ∈ byAccess c → entries_next c ≠ q) as Hfresh by (intros q Hq; specialize (Hn q Hq); lia).
  split; simpl.
  - constructor; [|done]. intros Hin. by apply (Hfresh _ Hin).
  - intros q [->|Hq]%elem_of_cons; [exists e; by rewrite !lookup_insert_eq|].
    destruct (Hl q Hq) as (n & Hn' & Hd). exists n.
    rewrite !lookup_insert_ne; [done|congruence|by apply Hfresh].
  - intros k q. rewrite lookup_insert. case_decide as Hkk.
    + intros [= <-]. split; [set_solver|]. exists e. by rewrite lookup_insert_eq.
    + intros Hq. destruct (Hm k q Hq) as (Hin & n & Hn' & Hd). split; [set_solver|].
      exists n. by rewrite lookup_insert_ne by by apply Hfresh.
  - by rewrite map_size_insert_None, Hs.
  - intros q [->|Hq]%elem_of_cons; [lia|]. specialize (Hn q Hq). lia.
Qed.

Lemma wf_notify v c : wf c → wf (notify v c).
Proof. by intros [? ? ? ? ?]. Qed.

(** ** The contents after each primitive change *)

Lemma filter_none (P : cacheEntry → Prop) `{!∀ e, Decision (P e)} (l : list cacheEntry) :
  (∀ e, e ∈ l → ¬ P e) → filter P l = [].
Proof.
  induction l as [|e l IH]; intros Hl; [done|]. rewrite filter_cons.
  rewrite decide_False by set_solver. apply IH. set_solver.
Qed.


Definition lookup_all (H : gmap nat cacheEntry) (l : list nat) : list cacheEntry :=
  omap (λ p, H !! p) l.

Lemma lookup_all_insert H p e l : p ∉ l → lookup_all (<[p := e]> H) l = lookup_all H l.
Proof.
  intros Hp. induction l as [|q l IH]; [done|]. unfold lookup_all in *. csimpl.
  rewrite lookup_insert_ne by set_solver. rewrite IH by set_solver. done.
Qed.

Lemma lookup_all_remove H p e l :
  H !! p = Some e →
  (∀ q, q ∈ l → ∃ n, H !! q = Some n ∧ (ce_key n = ce_key e → q = p)) →
  lookup_all H (list_Remove p l) = without (ce_key e) (lookup_all H l).
Proof.
  intros Hp Hl. unfold list_Remove, without, lookup_all.
  induction l as [|q l IH]; [done|].
  destruct (Hl q) as (n & Hn & Hk); [set_solver|]. specialize (IH ltac:(set_solver)).
  rewrite filter_cons. csimpl. rewrite Hn, filter_cons.
  destruct (decide (q ≠ p)) as [Hq|Hq], (decide (ce_key n ≠ ce_key e)) as [Hke|Hke].
  - csimpl. rewrite Hn. by rewrite IH.
  - exfalso. apply Hq, Hk. by apply dec_stable.
  - apply dec_stable in Hq as ->. congruence.
  - exact IH.
Qed.

Lemma wf_unique c p e :
  wf c → p ∈ byAccess c → entries c !! p = Some e →
  ∀ q, q ∈ byAccess c → ∃ n, entries c !! q = Some n ∧ (ce_key n = ce_key e → q = p).
Proof.
  intros Hwf Hp He q Hq. destruct (wf_listed _ Hwf q Hq) as (n & Hn & Hd).
  destruct (wf_listed _ Hwf p Hp) as (e0 & He0 & Hd0). exists n. split; [done|].
  intros Hk. congruence.
Qed.

Lemma contents_length c : wf c → length (contents c) = size (byKey c).
Proof.
  intros Hwf. rewrite (wf_size _ Hwf). pose proof (wf_listed _ Hwf) as Hl. unfold contents.
  induction (byAccess c) as [|p l IH]; [done|]. csimpl.
  destruct (Hl p) as (e & -> & _); [set_solver|]. simpl. f_equal. apply IH. set_solver.
Qed.

Lemma find_contents c k : wf c → find k (contents c) = byKey c !! k ≫= λ p, entries c !! p.
Proof.
  intros Hwf. destruct (byKey c !! k) as [p|] eqn:Hk; simpl.
  - destruct (wf_mapped _ Hwf _ _ Hk) as (Hp & e & He & Hke). rewrite He.
    apply list_elem_of_split in Hp as (l1 & l2 & Hl).
    pose proof (wf_unique c p e Hwf ltac:(rewrite Hl; set_solver) He) as Hu.
    pose proof (wf_nodup _ Hwf) as Hnd. rewrite Hl in Hnd.
    apply NoDup_app in Hnd as (_ & Hdis & _).
    unfold find, contents. rewrite Hl in *. rewrite omap_app, filter_app. csimpl. rewrite He.
    rewrite filter_cons, decide_True by done.
    enough (filter (λ e, ce_key e = k) (omap (λ p, entries c !! p) l1) = []) as -> by done.
    apply filter_none. intros e' (q & Hq & He')%list_elem_of_omap Hk'.
    destruct (Hu q) as (n & Hn & Hqp); [set_solver|]. apply (Hdis q Hq).
    rewrite Hqp; [set_solver|congruence].
  - unfold find. enough (filter (λ e, ce_key e = k) (contents c) = []) as -> by done.
    apply filter_none. intros e' (q & Hq & He')%list_elem_of_omap Hk'.
    destruct (wf_listed _ Hwf q Hq) as (n & Hn & Hd). congruence.
Qed.

Lemma contents_drop p e e' c :
  wf c → p ∈ byAccess c → entries c !! p = Some e →
  lookup_all (<[p := e']> (entries c)) (list_Remove p (byAccess c))
  = without (ce_key e) (contents c).
Proof.
  intros Hwf Hp He. rewrite lookup_all_insert by (rewrite elem_of_Remove; naive_solver).
  exact (lookup_all_remove _ p e _ He (wf_unique c p e Hwf Hp He)).
Qed.

Lemma contents_move p e e' c :
  wf c → p ∈ byAccess c → entries c !! p = Some e → ce_key e' = ce_key e →
  contents (set_index (list_MoveToFront p (byAccess (set_entry p e' c))) (byKey (set_entry p e' c))
              (set_entry p e' c)) = e' :: without (ce_key e) (contents c).
Proof.
  intros Hwf Hp He Hk. unfold contents, set_index, set_entry. simpl. unfold list_MoveToFront.
  rewrite decide_True by done. csimpl. rewrite lookup_insert_eq. f_equal.
  by apply contents_drop.
Qed.

Lemma contents_remove p e c m :
  wf c → p ∈ byAccess c → entries c !! p = Some e →
  contents (set_index (list_Remove p (byAccess c)) m c) = without (ce_key e) (contents c).
Proof.
  intros Hwf Hp He. exact (lookup_all_remove _ p e _ He (wf_unique c p e Hwf Hp He)).
Qed.

Lemma contents_push e c : wf c → contents (push_entry e c) = e :: contents c.
Proof.
  intros Hwf. unfold contents, push_entry. csimpl. rewrite lookup_insert_eq. f_equal.
  apply lookup_all_insert. intros Hin%(wf_next _ Hwf). lia.
Qed.

Lemma contents_set_entry p e e' c :
  wf c → p ∈ byAccess c → entries c !! p = Some e → ce_key e' = ce_key e →
  contents (set_entry p e' c) = (λ n, if decide (ce_key n = ce_key e) then e' else n) <$> contents c.
Proof.
  intros Hwf Hp He Hk. pose proof (wf_unique c p e Hwf Hp He) as Hu.
  unfold contents, set_entry. simpl. clear Hp Hwf.
  induction (byAccess c) as [|q l IH]; [done|]. csimpl.
  destruct (Hu q) as (n & Hn & Hqp); [set_solver|]. rewrite Hn. csimpl.
  specialize (IH ltac:(set_solver)).
  rewrite lookup_insert. destruct (decide (p = q)) as [->|Hne].
  - replace n with e by congruence. by rewrite decide_True, IH.
  - rewrite Hn, IH, decide_False by naive_solver. done.
Qed.

Lemma contents_last c :
  wf c → last (contents c) = last (byAccess c) ≫= λ p, entries c !! p.
Proof.
  intros Hwf. pose proof (wf_listed _ Hwf) as Hl. unfold contents.
  destruct (byAccess c) as [|p l] using rev_ind; [done|].
  rewrite omap_app, !last_snoc. csimpl.
  destruct (Hl p) as (e & -> & _); [set_solver|]. by rewrite last_snoc.
Qed.

(** ** The operations on the reference *)

Inductive op :=
| OGet (now : Z) k
| OPut (now : Z) k v
| OPutIfNotExist (now : Z) k v
| ODelete k
| ORelease k.

(** A value and an error, as far as the operation returns them. *)
Definition exec (o : op) : M lru (value * option string) :=
  match o with
  | OGet now k => v ← Get now k; mret (v, None)
  | OPut now k v => r ← Put now k v; mret (r, None)
  | OPutIfNotExist now k v => PutIfNotExist now k v
  | ODelete k => Delete k;; mret (None, None)
  | ORelease k => Release k;; mret (None, None)
  end.

Definition bump c e : cacheEntry := if pin c then set_refCount (int64 (refCount e + 1)) e else e.
Definition expired (now : Z) e : bool :=
  match expiration e with Some t => bool_decide (t < now)%Z | None => false end.

Definition ref_get c (now : Z) k (l : list cacheEntry) : value * list cacheEntry :=
  match find k l with
  | None => (None, l)
  | Some e =>
      if bool_decide (refCount (bump c e) = 0%Z) && expired now e then (None, without k l)
      else (ce_value e, bump c e :: without k l)
  end.

Definition ref_put (capacity : Z) c (now : Z) k v (allowUpdate : bool) (l : list cacheEntry)
    : value * option string * list cacheEntry :=
  match find k l with
  | Some e =>
      let e' := CacheEntry k (if decide (ttl c ≠ 0%Z) then expires now c else expiration e)
                  (if allowUpdate then v else ce_value e)
                  (if pin c then int64 (refCount e + 1) else refCount e) in
      (ce_value e, None, e' :: without k l)
  | None =>
      let e := CacheEntry k (if decide (ttl c ≠ 0%Z) then expires now c else None) v
                 (if pin c then 1%Z else 0%Z) in
      if decide (capacity < Z.of_nat (length (e :: l)))%Z then
        let oldest := default e (last l) in
        if decide (0 < refCount oldest)%Z then (None, Some ErrCacheFull, l)
        else (None, None, without (ce_key oldest) (e :: l))
      else (None, None, e :: l)
  end.

Definition ref_exec (capacity : Z) c (o : op) (l : list cacheEntry)
    : outcome (value * option string) * list cacheEntry :=
  match o with
  | OGet now k => let '(v, l') := ref_get c now k l in (Ret (v, None), l')
  | OPut now k v =>
      if pin c then (Panic (StringPanic
        "Cannot use Put API in Pin mode. Use Delete and PutIfNotExist if necessary"), l)
      else let '(r, _, l') := ref_put capacity c now k v true l in (Ret (r, None), l')
  | OPutIfNotExist now k v =>
      match ref_put capacity c now k v false l with
      | (_, Some err, l') => (Ret (None, Some err), l')
      | (None, None, l') => (Ret (v, None), l')
      | (Some x, None, l') => (Ret (Some x, None), l')
      end
  | ODelete k => (Ret (None, None), without k l)
  | ORelease k =>
      match find k l with
      | None => (Panic NilDereference, l)
      | Some e =>
          (Ret (None, None), (λ n, if decide (ce_key n = k)
                                   then set_refCount (int64 (refCount e - 1)) e else n) <$> l)
      end
  end.

(** ** Refinement *)

Definition same_config c c' : Prop :=
  maxSize c' = maxSize c ∧ ttl c' = ttl c ∧ pin c' = pin c ∧ has_rmFunc c' = has_rmFunc c.

Lemma entry_run p e c : entries c !! p = Some e → entry p c = (Ret e, c).
Proof. intros He. unfold entry. run. by rewrite He. Qed.

Lemma mapped_entry c k p :
  wf c → byKey c !! k = Some p →
  ∃ e, entries c !! p = Some e ∧ ce_key e = k ∧ p ∈ byAccess c ∧ find k (contents c) = Some e.
Proof.
  intros Hwf Hk. destruct (wf_mapped _ Hwf _ _ Hk) as (Hp & e & He & Hke). exists e.
  split_and!; [done..|]. rewrite find_contents, Hk by done. done.
Qed.

Lemma ref_config n c c' o l : same_config c c' → ref_exec n c' o l = ref_exec n c o l.
Proof.
  intros (_ & Ht & Hp & _). unfold ref_exec, ref_get, ref_put, bump, expires.
  by rewrite Ht, Hp.
Qed.

Lemma Get_refines now k c :
  wf c → let r := Get now k c in
  wf (snd r) ∧ same_config c (snd r) ∧
  (fst r, contents (snd r)) = (Ret (ref_get c now k (contents c)).1, (ref_get c now k (contents c)).2).
Proof.
  intros Hwf. unfold Get, ref_get. run. destruct (byKey c !! k) as [p|] eqn:Hk.
  2: { rewrite find_contents, Hk by done. done. }
  destruct (mapped_entry c k p Hwf Hk) as (e & He & Hke & Hp & ->). rewrite (entry_run _ _ _ He).
  change (if pin c then set_refCount (int64 (refCount e + 1)) e else e) with (bump c e).
  assert (ce_key (bump c e) = k ∧ expiration (bump c e) = expiration e
          ∧ ce_value (bump c e) = ce_value e) as (Hk' & Hx & Hv)
    by (unfold bump; by destruct (pin c)).
  rewrite Hx, Hv. fold (expired now e).
  assert (wf (set_entry p (bump c e) c)) as Hwf' by (eapply wf_set_entry; [done..|congruence]).
  assert (entries (set_entry p (bump c e) c) !! p = Some (bump c e)) as He'
    by apply lookup_insert_eq.
  destruct (bool_decide (refCount (bump c e) = 0%Z) && expired now e); simpl; split_and!; try done.
  - apply (wf_remove p (bump c e) (notify _ (set_entry p _ c))); [by apply wf_notify|done..].
  - f_equal. rewrite <- Hke. by apply contents_drop.
  - by apply (wf_move p (set_entry p (bump c e) c)).
  - f_equal. rewrite <- Hke. apply contents_move; [done..|congruence].
Qed.

Lemma without_new e k l : ce_key e = k → find k l = None → without k (e :: l) = l.
Proof.
  intros He Hf. unfold without, find in *. rewrite filter_cons, decide_False by naive_solver.
  induction l as [|n l IH]; [done|]. rewrite filter_cons in *.
  destruct (decide (ce_key n = k)); [done|]. rewrite decide_True by done. f_equal. auto.
Qed.

(** The cache never has as many entries as its maximal size, which is when
    [putInternal] would evict one; so it holds one entry less. *)
Definition room c : Prop := (Z.of_nat (length (contents c)) < maxSize c)%Z.
Definition capacity c : Z := (maxSize c - 1)%Z.

Lemma putInternal_refines now k v u c :
  wf c → room c → let r := putInternal now k v u c in
  wf (snd r) ∧ same_config c (snd r) ∧
  (fst r, contents (snd r)) =
    (Ret (ref_put (capacity c) c now k v u (contents c)).1,
     (ref_put (capacity c) c now k v u (contents c)).2).
Proof.
  intros Hwf Hroom. unfold putInternal, ref_put. run. destruct (byKey c !! k) as [p|] eqn:Hk.
  { destruct (mapped_entry c k p Hwf Hk) as (e & He & Hke & Hp & ->).
    rewrite (entry_run _ _ _ He), Hke. simpl. split_and!; try done.
    - eapply (wf_move p (set_entry p _ c)), wf_set_entry; [done..|simpl; congruence].
    - f_equal. rewrite <- Hke. by apply contents_move. }
  rewrite find_contents, Hk by done. simpl mbind.
  set (e := CacheEntry k _ v _). assert (wf (push_entry e c)) as Hwf' by by apply wf_push.
  pose proof (contents_push e c Hwf) as Hc'.
  rewrite <- (contents_length (push_entry e c)) by done. rewrite Hc'.
  change (maxSize (push_entry e c)) with (maxSize c).
  assert (capacity c < Z.of_nat (length (e :: contents c)) ↔
          Z.of_nat (length (e :: contents c)) = maxSize c)%Z as Hcap
    by (unfold capacity, room in *; simpl length; lia).
  destruct (decide (Z.of_nat (length (e :: contents c)) = maxSize c)) as [Hfull|Hfull];
    [rewrite (decide_True (P := (capacity c < _)%Z)) by tauto
    |rewrite (decide_False (P := (capacity c < _)%Z)) by tauto].
  2: { cbn [fst snd]. by rewrite Hc'. }
  pose proof (contents_last (push_entry e c) Hwf') as Hlast. rewrite Hc' in Hlast.
  destruct (last (byAccess (push_entry e c))) as [back|] eqn:Hb;
    [|by rewrite last_cons in Hlast; destruct (last (contents c))].
  simpl in Hlast. assert (back ∈ byAccess (push_entry e c)) as Hin
    by (by apply last_Some_elem_of).
  destruct (wf_listed _ Hwf' back Hin) as (oldest & Ho & Hok). rewrite (entry_run _ _ _ Ho).
  assert (default e (last (contents c)) = oldest) as ->.
  { simpl in Ho. rewrite Ho in Hlast. rewrite last_cons in Hlast.
    destruct (last (contents c)); simpl; congruence. }
  case_decide.
  - assert (tail (byAccess (push_entry e c)) = list_Remove (entries_next c) (byAccess (push_entry e c)))
      as Htail.
    { simpl. unfold list_Remove. rewrite filter_cons, decide_False by naive_solver.
      symmetry. apply Remove_notin. intros Hin'%(wf_next _ Hwf). lia. }
    assert (entries_next c ∈ byAccess (push_entry e c)) as Hfront by (simpl; set_solver).
    assert (entries (push_entry e c) !! entries_next c = Some e) as He by apply lookup_insert_eq.
    rewrite Htail. cbn [fst snd]. split_and!; [by apply (wf_remove (entries_next c) e)|done|].
    f_equal. rewrite (contents_remove (entries_next c) e) by done. rewrite Hc'. simpl ce_key.
    apply without_new; [done|]. rewrite find_contents, Hk by done. done.
  - cbn [fst snd]. split_and!; [|done|].
    + exact (wf_notify (ce_value oldest) _ (wf_remove back oldest (push_entry e c) Hwf' Hin Ho)).
    + f_equal. rewrite <- Hc'.
      exact (contents_remove back oldest (push_entry e c) (byKey c) Hwf' Hin Ho).
Qed.

Lemma exec_refines o c :
  wf c → room c → wf (snd (exec o c)) ∧ same_config c (snd (exec o c)) ∧
  (fst (exec o c), contents (snd (exec o c))) = ref_exec (capacity c) c o (contents c).
Proof.
  intros Hwf Hroom. destruct o as [now k|now k v|now k v|k|k]; cbn [exec ref_exec].
  - destruct (Get_refines now k c Hwf) as (Hw & Hs & Hr). run.
    destruct (Get now k c) as [r c']; simpl in *. destruct (ref_get c now k (contents c)) as [v l].
    simplify_eq/=. done.
  - unfold Put. run. destruct (pin c); [done|].
    destruct (putInternal_refines now k v true c Hwf Hroom) as (Hw & Hs & Hr).
    destruct (putInternal now k v true c) as [r c']; simpl in *.
    destruct (ref_put _ c now k v true (contents c)) as [[??]?]. simplify_eq/=. done.
  - unfold PutIfNotExist. run.
    destruct (putInternal_refines now k v false c Hwf Hroom) as (Hw & Hs & Hr).
    destruct (putInternal now k v false c) as [r c']; simpl in *.
    destruct (ref_put _ c now k v false (contents c)) as [[[x|] [err|]]?]; simplify_eq/=; done.
  - unfold Delete. run. destruct (byKey c !! k) as [p|] eqn:Hk.
    + destruct (mapped_entry c k p Hwf Hk) as (e & He & <- & Hp & _). rewrite (entry_run _ _ _ He).
      cbn [fst snd]. split_and!; [|done|].
      * exact (wf_notify (ce_value e) _ (wf_remove p e c Hwf Hp He)).
      * f_equal. exact (contents_remove p e c (byKey c) Hwf Hp He).
    + cbn [fst snd]. split_and!; [done..|]. f_equal.
      pose proof (find_contents c k Hwf) as Hf. rewrite Hk in Hf. symmetry.
      rewrite <- (without_new (CacheEntry k None None 0) k (contents c)) at 2 by done.
      unfold without. rewrite filter_cons, decide_False by naive_solver. done.
  - unfold Release. run. rewrite find_contents by done.
    destruct (byKey c !! k) as [p|] eqn:Hk; [|done]. simpl.
    destruct (mapped_entry c k p Hwf Hk) as (e & He & <- & Hp & _).
    rewrite (entry_run _ _ _ He), He. cbn [fst snd]. split_and!; [|done|].
    + by eapply wf_set_entry.
    + f_equal. by apply contents_set_entry.
Qed.

(** ** Consequences on the reference *)

Lemma length_without k l : length (without k l) ≤ length l.
Proof. apply length_filter. Qed.

Lemma find_Some k l e : find k l = Some e → e ∈ l ∧ ce_key e = k.
Proof.
  unfold find. intros He%head_Some_elem_of. apply list_elem_of_filter in He. naive_solver.
Qed.

Lemma find_None k l : find k l = None → ∀ e, e ∈ l → ce_key e ≠ k.
Proof.
  intros Hf e He Hk. unfold find in Hf. apply head_None in Hf.
  by apply (filter_nil_not_elem_of _ _ e Hf Hk).
Qed.

Lemma length_without_found k l e : find k l = Some e → length (without k l) < length l.
Proof.
  intros [He Hk]%find_Some. apply (length_filter_lt _ _ e); [done|]. naive_solver.
Qed.

Lemma ref_put_length n c now k v u l :
  (0 ≤ n)%Z → (Z.of_nat (length l) ≤ n)%Z →
  (Z.of_nat (length (ref_put n c now k v u l).2) ≤ n)%Z.
Proof.
  intros Hm Hl. unfold ref_put. destruct (find k l) as [e|] eqn:Hf.
  { pose proof (length_without_found k l e Hf). cbn [snd length]. lia. }
  set (e := CacheEntry k _ v _).
  destruct (decide (n < Z.of_nat (length (e :: l)))%Z) as [Hfull|Hfull];
    [|cbn [snd length] in *; lia].
  case_decide; [done|]. simpl snd.
  assert (default e (last l) ∈ e :: l) as Hin.
  { destruct (last l) eqn:Hlast; simpl; [|set_solver].
    apply last_Some_elem_of in Hlast. set_solver. }
  assert (length (without (ce_key (default e (last l))) (e :: l)) < length (e :: l));
    [|cbn [length] in *; lia].
  apply (length_filter_lt _ _ (default e (last l))); [done|]. naive_solver.
Qed.

(** The reference holds at most as many entries as its capacity. *)
Lemma ref_exec_length n c o l :
  (0 ≤ n)%Z → (Z.of_nat (length l) ≤ n)%Z → (Z.of_nat (length (ref_exec n c o l).2) ≤ n)%Z.
Proof.
  intros Hm Hl. destruct o as [now k|now k v|now k v|k|k]; simpl.
  - unfold ref_get. destruct (find k l) as [e|] eqn:Hf; [|done].
    pose proof (length_without_found k l e Hf).
    destruct (bool_decide _ && _); cbn [snd length]; lia.
  - destruct (pin c); [done|]. pose proof (ref_put_length n c now k v true l Hm Hl).
    by destruct (ref_put _ c now k v true l) as [[??]?].
  - pose proof (ref_put_length n c now k v false l Hm Hl).
    by destruct (ref_put _ c now k v false l) as [[[?|] [?|]]?].
  - pose proof (length_without k l). lia.
  - destruct (find k l); simpl; [by rewrite length_fmap|done].
Qed.

(** ** Sequences of operations *)

Definition execs (os : list op) c : lru := foldl (λ c o, snd (exec o c)) c os.
Definition ref_execs (n : Z) c (os : list op) (l : list cacheEntry) : list cacheEntry :=
  foldl (λ l o, snd (ref_exec n c o l)) l os.

Lemma exec_room o c : wf c → room c → room (snd (exec o c)).
Proof.
  intros Hwf Hr. destruct (exec_refines o c Hwf Hr) as (_ & (Hm & _) & Heq).
  unfold room in *. rewrite Hm.
  replace (contents (snd (exec o c))) with (ref_exec (capacity c) c o (contents c)).2
    by (by rewrite <- Heq).
  pose proof (ref_exec_length (capacity c) c o (contents c)). unfold capacity in *. lia.
Qed.

Lemma execs_refines os c :
  wf c → room c → wf (execs os c) ∧ room (execs os c) ∧ same_config c (execs os c)
  ∧ contents (execs os c) = ref_execs (capacity c) c os (contents c).
Proof.
  assert (∀ c0 c l, wf c → room c → same_config c0 c → contents c = l →
    wf (execs os c) ∧ room (execs os c) ∧ same_config c0 (execs os c) ∧
    contents (execs os c) = ref_execs (capacity c0) c0 os l) as H.
  { unfold execs, ref_execs. induction os as [|o os IH]; intros c0 c1 l Hwf Hr Hs Hc; simpl; [done|].
    destruct (exec_refines o c1 Hwf Hr) as (Hw & Hs' & He). apply IH; [done|by apply exec_room| |].
    - unfold same_config in *. naive_solver congruence.
    - rewrite <- (ref_config _ c0 c1), <- Hc by done.
      replace (capacity c0) with (capacity c1) by (unfold capacity; by rewrite (proj1 Hs)).
      by rewrite <- He. }
  intros Hwf Hr. by apply H.
Qed.

Lemma room_New size opts : (1 ≤ size)%Z → room (New size opts).
Proof. unfold room. simpl. lia. Qed.

Lemma contents_keys c e e' :
  wf c → e ∈ contents c → e' ∈ contents c → ce_key e = ce_key e' → e = e'.
Proof.
  intros Hwf (p & Hp & He)%list_elem_of_omap (q & Hq & He')%list_elem_of_omap Hk.
  destruct (wf_listed _ Hwf p Hp) as (? & ? & ?). destruct (wf_listed _ Hwf q Hq) as (? & ? & ?).
  simplify_eq. congruence.
Qed.

(** [k] is the key of an entry. *)
Definition has k (l : list cacheEntry) : Prop := ∃ e, e ∈ l ∧ ce_key e = k.

Lemma has_without k k' l : has k l → k ≠ k' → has k (without k' l).
Proof.
  intros (e & He & Hk) Hne. exists e. split; [|done]. apply list_elem_of_filter. naive_solver.
Qed.

Lemma has_cons k e l : ce_key e = k ∨ has k l → has k (e :: l).
Proof. intros [Hk|(e' & He & Hk)]; [exists e|exists e']; set_solver. Qed.

Lemma ref_put_keeps n c now k v u l e :
  e ∈ l → (∀ e', e' ∈ l → ce_key e' = ce_key e → e' = e) → (0 < refCount e)%Z →
  has (ce_key e) (ref_put n c now k v u l).2.
Proof.
  intros He Hu Hr. assert (has (ce_key e) l) as Hhas by by exists e.
  unfold ref_put. destruct (find k l) as [e0|] eqn:Hf; simpl.
  { apply has_cons. simpl. destruct (decide (k = ce_key e)); [by left|].
    right. by apply has_without. }
  pose proof (find_None k l Hf e He) as Hk. set (e1 := CacheEntry k _ v _).
  case_decide; [|apply has_cons; by right]. case_decide as Hpin; [done|]. simpl.
  apply has_without; [apply has_cons; by right|]. intros Heq. apply Hpin.
  destruct (last l) as [o|] eqn:Hlast; simpl in *; [|done].
  rewrite (Hu o); [done|by apply last_Some_elem_of|done].
Qed.

(** ** The theorems *)


(** The number of entries stays below the maximal size, whatever
    operations are performed: a cache of maximal size [n] holds at most [n-1]. *)
Theorem lru_size size opts (os : list op) :
  (1 ≤ size)%Z → (Z.of_nat (Size (execs os (New size opts))) < size)%Z.
Proof.
  intros Hs. destruct (execs_refines os (New size opts) (wf_New size opts) (room_New size opts Hs))
    as (Hw & Hr & (Hm & _) & _).
  unfold Size. rewrite <- contents_length by done. unfold room in Hr. by rewrite Hm in Hr.
Qed.

(** An entry that is pinned is in the cache until it is deleted: no other
    operation on any key takes it out, neither by eviction nor by expiration. *)
Theorem lru_pinned_stays size opts (os : list op) (o : op) e :
  let c := execs os (New size opts) in
  (1 ≤ size)%Z → e ∈ contents c → (0 < refCount e < 2 ^ 63)%Z → o ≠ ODelete (ce_key e) →
  has (ce_key e) (contents (snd (exec o c))).
Proof.
  intros c Hs He Hr64 Ho. assert (0 < refCount e)%Z as Hr by lia.
  destruct (execs_refines os (New size opts) (wf_New size opts) (room_New size opts Hs))
    as (Hwf & Hroom & _). fold c in Hwf, Hroom.
  destruct (exec_refines o c Hwf Hroom) as (_ & _ & Heq).
  replace (contents (snd (exec o c))) with (ref_exec (capacity c) c o (contents c)).2
    by (by rewrite <- Heq).
  assert (∀ e', e' ∈ contents c → ce_key e' = ce_key e → e' = e) as Hu
    by (intros e' He' Hk; by apply (contents_keys c)).
  assert (has (ce_key e) (contents c)) as Hhas by by exists e.
  destruct o as [now k|now k v|now k v|k|k]; simpl.
  - unfold ref_get. destruct (find k (contents c)) as [e0|] eqn:Hf; [|done].
    destruct (find_Some _ _ _ Hf) as [He0 Hk0].
    destruct (decide (k = ce_key e)) as [->|Hk].
    + replace e0 with e by (symmetry; auto).
      assert (refCount (bump c e) ≠ 0%Z) as Hne.
      { unfold bump. destruct (pin c); simpl; [|lia]. unfold int64, wrap.
        destruct (decide (refCount e + 1 < 2 ^ 63)%Z).
        - rewrite Z.mod_small; lia.
        - replace (refCount e) with (2 ^ 63 - 1)%Z by lia. done. }
      rewrite bool_decide_eq_false_2 by done. simpl. apply has_cons. left.
      unfold bump. by destruct (pin c).
    + destruct (bool_decide _ && _); simpl;
        [by apply has_without|apply has_cons; right; by apply has_without].
  - destruct (pin c); [done|]. pose proof (ref_put_keeps (capacity c) c now k v true (contents c) e He Hu Hr).
    by destruct (ref_put _ c now k v true (contents c)) as [[??]?].
  - pose proof (ref_put_keeps (capacity c) c now k v false (contents c) e He Hu Hr).
    by destruct (ref_put _ c now k v false (contents c)) as [[[?|] [?|]]?].
  - apply has_without; [done|congruence].
  - destruct (find k (contents c)) as [e0|] eqn:Hf; simpl; [|done].
    destruct (find_Some _ _ _ Hf) as [He0 Hk0]. eexists. split; [apply list_elem_of_fmap_2; exact He|].
    simpl. case_decide; [simpl|]; congruence.
Qed.

(** What a put leaves at the front of the reference. *)
Lemma ref_put_front n c now k v l :
  pin c = false → (0 < n)%Z → ttl c ≠ 0%Z → Forall (λ e, refCount e ≤ 0)%Z l →
  ∃ e l', (ref_put n c now k v true l).2 = e :: l' ∧ ce_key e = k ∧ ce_value e = v
    ∧ expiration e = Some (now + ttl c)%Z.
Proof.
  intros Hpin Hmax Httl Hrc. unfold ref_put. destruct (find k l) as [e|] eqn:Hf.
  { rewrite decide_True by done. by do 2 eexists. }
  destruct (decide (ttl c ≠ 0%Z)) as [_|]; [|done]. rewrite Hpin. set (e := CacheEntry k _ v _).
  case_decide as Hfull; [|by exists e, l].
  destruct (last l) as [o|] eqn:Hlast.
  2: { apply last_None in Hlast. rewrite Hlast in Hfull. simpl in Hfull. lia. }
  apply last_Some_elem_of in Hlast as Ho. pose proof (find_None _ _ Hf o Ho) as Hok.
  rewrite Forall_forall in Hrc. specialize (Hrc o Ho). simpl default.
  rewrite decide_False by lia. unfold without. cbn [snd].
  rewrite filter_cons, decide_True by done. by do 2 eexists.
Qed.

(** A value that was put is found until it expires: in a cache without
    pinned entries that has a time to live and a maximal size of more than one,
    [Get] after [Put] returns the value that was put and [Exist] holds, whatever
    was in the cache before. *)
Theorem lru_put_get now now' k v c :
  wf c → room c → pin c = false → Forall (λ e, refCount e ≤ 0)%Z (contents c) →
  (1 < maxSize c)%Z → ttl c ≠ 0%Z → (now' ≤ now + ttl c)%Z →
  let c' := snd (Put now k v c) in
  Exist k c' = true ∧ fst (Get now' k c') = Ret v.
Proof.
  intros Hwf Hroom Hpin Hrc Hmax Httl Hnow c'.
  assert (c' = snd (putInternal now k v true c)) as Hput.
  { subst c'. unfold Put. run. rewrite Hpin. by destruct (putInternal now k v true c) as [[]]. }
  destruct (putInternal_refines now k v true c Hwf Hroom) as (Hw & _ & Hr). rewrite <- Hput in *.
  destruct (ref_put_front (capacity c) c now k v (contents c) Hpin ltac:(unfold capacity; lia) Httl Hrc) as (e & l & Hl & Hk & Hv & Hx).
  injection Hr as _ Hc. rewrite Hl in Hc.
  assert (find k (contents c') = Some e) as Hf.
  { rewrite Hc. unfold find. by rewrite filter_cons, decide_True. }
  destruct (Get_refines now' k c' Hw) as (_ & _ & Hg). injection Hg as -> _.
  unfold ref_get. rewrite Hf. split.
  - unfold Exist. rewrite find_contents in Hf by done.
    apply bool_decide_eq_true. by destruct (byKey c' !! k).
  - replace (expired now' e) with false; [by rewrite andb_false_r; simpl; rewrite Hv|].
    unfold expired. rewrite Hx. by rewrite bool_decide_eq_false_2 by lia.
Qed.

End lru.
Arguments lru : clear implicits.
Arguments cacheEntry : clear implicits.
Arguments op : clear implicits.

(** ** The hypotheses can hold *)


Lemma lru_size_witness :
  (Z.of_nat (Size (execs [OPut 0 "a" (Some 1); OPut 0 "b" (Some 2); OPut 0 "c" (Some 3)]
                     (New 3 None))) < 3)%Z.
Proof.
  apply (lru_size 3 None [OPut 0 "a" (Some 1); OPut 0 "b" (Some 2); OPut 0 "c" (Some 3)]). lia.
Defined.

Lemma lru_pinned_stays_witness :
  let c := execs [OPutIfNotExist 0 "a" (Some 1)] (New 3 (Some (MkOptions 0 true false))) in
  has "a" (contents (snd (exec (OPutIfNotExist 0 "b" (Some 2)) c))).
Proof.
  apply (lru_pinned_stays 3 (Some (MkOptions 0 true false)) [OPutIfNotExist 0 "a" (Some 1)]
    (OPutIfNotExist 0 "b" (Some 2)) (CacheEntry "a" None (Some 1) 1)).
  - lia.
  - vm_compute. left.
  - simpl. lia.
  - discriminate.
Defined.

Lemma lru_put_get_witness :
  fst (Get 5 "a" (snd (Put 0 "a" (Some 1) (New 3 (Some (MkOptions 10 false false)))))) = Ret (Some 1).
Proof.
  apply (lru_put_get 0 5 "a" (Some 1) (New 3 (Some (MkOptions 10 false false)))).
  - apply wf_New.
  - apply room_New. lia.
  - reflexivity.
  - constructor.
  - simpl. lia.
  - discriminate.
  - simpl. lia.
Defined.
