(* ===== verification/SharedSchedule.v ===== *)
(** * Thrift data types of schedules

    The structs and enums of the schedule API in the generated package
    [.gen/go/shared] (shared.go), in the form of Shared.v; slices of structs may be
    nil here, since the code treats a nil one differently from an empty one. *)

From stdpp Require Import base gmap strings.
From S2P Require Import Prelude.
From S2P Require Import Shared.

Record ScheduleSpec := MkScheduleSpec {
  ScheduleSpec_CronExpression : option string;
  ScheduleSpec_StartTimeNano : option Z;
  ScheduleSpec_EndTimeNano : option Z;
  ScheduleSpec_JitterInSeconds : option Z }.

Record ScheduleStartWorkflowAction := MkScheduleStartWorkflowAction {
  ScheduleStartWorkflowAction_WorkflowType : option WorkflowType;
  ScheduleStartWorkflowAction_TaskList : option TaskList;
  ScheduleStartWorkflowAction_Input : bytes;
  ScheduleStartWorkflowAction_WorkflowIdPrefix : option string;
  ScheduleStartWorkflowAction_ExecutionStartToCloseTimeoutSeconds : option Z;
  ScheduleStartWorkflowAction_TaskStartToCloseTimeoutSeconds : option Z;
  ScheduleStartWorkflowAction_RetryPolicy : option RetryPolicy;
  ScheduleStartWorkflowAction_Memo : option Memo;
  ScheduleStartWorkflowAction_SearchAttributes : option SearchAttributes }.

Record ScheduleAction := MkScheduleAction {
  ScheduleAction_StartWorkflow : option ScheduleStartWorkflowAction }.

Inductive ScheduleOverlapPolicy :=
| ScheduleOverlapPolicyInvalid
| ScheduleOverlapPolicySkipNew
| ScheduleOverlapPolicyBuffer
| ScheduleOverlapPolicyConcurrent
| ScheduleOverlapPolicyCancelPrevious
| ScheduleOverlapPolicyTerminatePrevious
| ScheduleOverlapPolicyUnknown (value : Z).

Inductive ScheduleCatchUpPolicy :=
| ScheduleCatchUpPolicyInvalid
| ScheduleCatchUpPolicySkip
| ScheduleCatchUpPolicyOne
| ScheduleCatchUpPolicyAll
| ScheduleCatchUpPolicyUnknown (value : Z).

Record SchedulePolicies := MkSchedulePolicies {
  SchedulePolicies_OverlapPolicy : option ScheduleOverlapPolicy;
  SchedulePolicies_CatchUpPolicy : option ScheduleCatchUpPolicy;
  SchedulePolicies_CatchUpWindowInSeconds : option Z;
  SchedulePolicies_PauseOnFailure : option bool;
  SchedulePolicies_BufferLimit : option Z;
  SchedulePolicies_ConcurrencyLimit : option Z }.

Record SchedulePauseInfo := MkSchedulePauseInfo {
  SchedulePauseInfo_Reason : option string;
  SchedulePauseInfo_PausedTimeNano : option Z;
  SchedulePauseInfo_PausedBy : option string }.

Record ScheduleState := MkScheduleState {
  ScheduleState_Paused : option bool;
  ScheduleState_PauseInfo : option SchedulePauseInfo }.

Record CreateScheduleRequest := MkCreateScheduleRequest {
  CreateScheduleRequest_Domain : option string;
  CreateScheduleRequest_ScheduleId : option string;
  CreateScheduleRequest_Spec : option ScheduleSpec;
  CreateScheduleRequest_Action : option ScheduleAction;
  CreateScheduleRequest_Policies : option SchedulePolicies;
  CreateScheduleRequest_Memo : option Memo;
  CreateScheduleRequest_SearchAttributes : option SearchAttributes;
  CreateScheduleRequest_State : option ScheduleState }.

Record CreateScheduleResponse := MkCreateScheduleResponse {
  CreateScheduleResponse_ScheduleId : option string }.

Record DescribeScheduleRequest := MkDescribeScheduleRequest {
  DescribeScheduleRequest_Domain : option string;
  DescribeScheduleRequest_ScheduleId : option string }.

Record BackfillInfo := MkBackfillInfo {
  BackfillInfo_BackfillId : option string;
  BackfillInfo_StartTimeNano : option Z;
  BackfillInfo_EndTimeNano : option Z;
  BackfillInfo_RunsCompleted : option Z;
  BackfillInfo_RunsTotal : option Z }.

Record ScheduleInfo := MkScheduleInfo {
  ScheduleInfo_LastRunTimeNano : option Z;
  ScheduleInfo_NextRunTimeNano : option Z;
  ScheduleInfo_TotalRuns : option Z;
  ScheduleInfo_CreateTimeNano : option Z;
  ScheduleInfo_LastUpdateTimeNano : option Z;
  ScheduleInfo_OngoingBackfills : option (list (option BackfillInfo));
  ScheduleInfo_MissedRuns : option Z;
  ScheduleInfo_SkippedRuns : option Z;
  ScheduleInfo_BufferedFireCount : option Z;
  ScheduleInfo_RunningWorkflowCount : option Z }.

Record DescribeScheduleResponse := MkDescribeScheduleResponse {
  DescribeScheduleResponse_Spec : option ScheduleSpec;
  DescribeScheduleResponse_Action : option ScheduleAction;
  DescribeScheduleResponse_Policies : option SchedulePolicies;
  DescribeScheduleResponse_State : option ScheduleState;
  DescribeScheduleResponse_Info : option ScheduleInfo;
  DescribeScheduleResponse_Memo : option Memo;
  DescribeScheduleResponse_SearchAttributes : option SearchAttributes }.

Record UpdateScheduleRequest := MkUpdateScheduleRequest {
  UpdateScheduleRequest_Domain : option string;
  UpdateScheduleRequest_ScheduleId : option string;
  UpdateScheduleRequest_Spec : option ScheduleSpec;
  UpdateScheduleRequest_Action : option ScheduleAction;
  UpdateScheduleRequest_Policies : option SchedulePolicies;
  UpdateScheduleRequest_SearchAttributes : option SearchAttributes }.

Record DeleteScheduleRequest := MkDeleteScheduleRequest {
  DeleteScheduleRequest_Domain : option string;
  DeleteScheduleRequest_ScheduleId : option string }.

Record PauseScheduleRequest := MkPauseScheduleRequest {
  PauseScheduleRequest_Domain : option string;
  PauseScheduleRequest_ScheduleId : option string;
  PauseScheduleRequest_Reason : option string;
  PauseScheduleRequest_Identity : option string }.

Record UnpauseScheduleRequest := MkUnpauseScheduleRequest {
  UnpauseScheduleRequest_Domain : option string;
  UnpauseScheduleRequest_ScheduleId : option string;
  UnpauseScheduleRequest_Reason : option string;
  UnpauseScheduleRequest_CatchUpPolicy : option ScheduleCatchUpPolicy }.

Record BackfillScheduleRequest := MkBackfillScheduleRequest {
  BackfillScheduleRequest_Domain : option string;
  BackfillScheduleRequest_ScheduleId : option string;
  BackfillScheduleRequest_StartTimeNano : option Z;
  BackfillScheduleRequest_EndTimeNano : option Z;
  BackfillScheduleRequest_OverlapPolicy : option ScheduleOverlapPolicy;
  BackfillScheduleRequest_BackfillId : option string }.

Record ListSchedulesRequest := MkListSchedulesRequest {
  ListSchedulesRequest_Domain : option string;
  ListSchedulesRequest_PageSize : option Z;
  ListSchedulesRequest_NextPageToken : bytes }.

Record ScheduleListEntry := MkScheduleListEntry {
  ScheduleListEntry_ScheduleId : option string;
  ScheduleListEntry_WorkflowType : option WorkflowType;
  ScheduleListEntry_State : option ScheduleState;
  ScheduleListEntry_CronExpression : option string }.

Record ListSchedulesResponse := MkListSchedulesResponse {
  ListSchedulesResponse_Schedules : option (list (option ScheduleListEntry));
  ListSchedulesResponse_NextPageToken : bytes }.
