(* ===== verification/Enums.v ===== *)
(** * Wire enums

    internal/compatibility/proto/enum.go and thrift/enum.go, and the two policies
    of schedules in proto/schedule.go and thrift/schedule.go: the translation of the
    enums of the thrift API to those of the proto API and back.  The proto enums
    belong to another package (apiv1): they are int32 values, and the value of a
    constant is given by its name, [apiv1 "<constant>"].  The constants of one enum
    are distinct, which Go requires of the cases of a switch and protobuf of the
    constants of an enum. *)

From stdpp Require Import base sets strings countable list.
From S2P Require Import Prelude.
From S2P Require Import Shared.
From S2P Require Import SharedSchedule.

(** The constants of each enum, in the order of the switch over it; a constant
    that the switch leaves to its default comes first. *)
Definition enum_names : list (list string) :=
  [ ["TaskListKind_TASK_LIST_KIND_INVALID"; "TaskListKind_TASK_LIST_KIND_NORMAL";
     "TaskListKind_TASK_LIST_KIND_STICKY"; "TaskListKind_TASK_LIST_KIND_EPHEMERAL"];
    ["TaskListType_TASK_LIST_TYPE_INVALID"; "TaskListType_TASK_LIST_TYPE_DECISION";
     "TaskListType_TASK_LIST_TYPE_ACTIVITY"];
    ["EventFilterType_EVENT_FILTER_TYPE_INVALID"; "EventFilterType_EVENT_FILTER_TYPE_ALL_EVENT";
     "EventFilterType_EVENT_FILTER_TYPE_CLOSE_EVENT"];
    ["QueryRejectCondition_QUERY_REJECT_CONDITION_INVALID";
     "QueryRejectCondition_QUERY_REJECT_CONDITION_NOT_OPEN";
     "QueryRejectCondition_QUERY_REJECT_CONDITION_NOT_COMPLETED_CLEANLY"];
    ["QueryConsistencyLevel_QUERY_CONSISTENCY_LEVEL_INVALID";
     "QueryConsistencyLevel_QUERY_CONSISTENCY_LEVEL_EVENTUAL";
     "QueryConsistencyLevel_QUERY_CONSISTENCY_LEVEL_STRONG"];
    ["ContinueAsNewInitiator_CONTINUE_AS_NEW_INITIATOR_INVALID";
     "ContinueAsNewInitiator_CONTINUE_AS_NEW_INITIATOR_DECIDER";
     "ContinueAsNewInitiator_CONTINUE_AS_NEW_INITIATOR_RETRY_POLICY";
     "ContinueAsNewInitiator_CONTINUE_AS_NEW_INITIATOR_CRON_SCHEDULE"];
    ["WorkflowIdReusePolicy_WORKFLOW_ID_REUSE_POLICY_INVALID";
     "WorkflowIdReusePolicy_WORKFLOW_ID_REUSE_POLICY_ALLOW_DUPLICATE_FAILED_ONLY";
     "WorkflowIdReusePolicy_WORKFLOW_ID_REUSE_POLICY_ALLOW_DUPLICATE";
     "WorkflowIdReusePolicy_WORKFLOW_ID_REUSE_POLICY_REJECT_DUPLICATE";
     "WorkflowIdReusePolicy_WORKFLOW_ID_REUSE_POLICY_TERMINATE_IF_RUNNING"];
    ["QueryResultType_QUERY_RESULT_TYPE_INVALID"; "QueryResultType_QUERY_RESULT_TYPE_ANSWERED";
     "QueryResultType_QUERY_RESULT_TYPE_FAILED"];
    ["ArchivalStatus_ARCHIVAL_STATUS_INVALID"; "ArchivalStatus_ARCHIVAL_STATUS_DISABLED";
     "ArchivalStatus_ARCHIVAL_STATUS_ENABLED"];
    ["ParentClosePolicy_PARENT_CLOSE_POLICY_INVALID";
     "ParentClosePolicy_PARENT_CLOSE_POLICY_ABANDON";
     "ParentClosePolicy_PARENT_CLOSE_POLICY_REQUEST_CANCEL";
     "ParentClosePolicy_PARENT_CLOSE_POLICY_TERMINATE"];
    ["DecisionTaskFailedCause_DECISION_TASK_FAILED_CAUSE_INVALID";
     "DecisionTaskFailedCause_DECISION_TASK_FAILED_CAUSE_UNHANDLED_DECISION";
     "DecisionTaskFailedCause_DECISION_TASK_FAILED_CAUSE_BAD_SCHEDULE_ACTIVITY_ATTRIBUTES";
     "DecisionTaskFailedCause_DECISION_TASK_FAILED_CAUSE_BAD_REQUEST_CANCEL_ACTIVITY_ATTRIBUTES";
     "DecisionTaskFailedCause_DECISION_TASK_FAILED_CAUSE_BAD_START_TIMER_ATTRIBUTES";
     "DecisionTaskFailedCause_DECISION_TASK_FAILED_CAUSE_BAD_CANCEL_TIMER_ATTRIBUTES";
     "DecisionTaskFailedCause_DECISION_TASK_FAILED_CAUSE_BAD_RECORD_MARKER_ATTRIBUTES";
     "DecisionTaskFailedCause_DECISION_TASK_FAILED_CAUSE_BAD_COMPLETE_WORKFLOW_EXECUTION_ATTRIBUTES";
     "DecisionTaskFailedCause_DECISION_TASK_FAILED_CAUSE_BAD_FAIL_WORKFLOW_EXECUTION_ATTRIBUTES";
     "DecisionTaskFailedCause_DECISION_TASK_FAILED_CAUSE_BAD_CANCEL_WORKFLOW_EXECUTION_ATTRIBUTES";
     "DecisionTaskFailedCause_DECISION_TASK_FAILED_CAUSE_BAD_REQUEST_CANCEL_EXTERNAL_WORKFLOW_EXECUTION_ATTRIBUTES";
     "DecisionTaskFailedCause_DECISION_TASK_FAILED_CAUSE_BAD_CONTINUE_AS_NEW_ATTRIBUTES";
     "DecisionTaskFailedCause_DECISION_TASK_FAILED_CAUSE_START_TIMER_DUPLICATE_ID";
     "DecisionTaskFailedCause_DECISION_TASK_FAILED_CAUSE_RESET_STICKY_TASK_LIST";
     "DecisionTaskFailedCause_DECISION_TASK_FAILED_CAUSE_WORKFLOW_WORKER_UNHANDLED_FAILURE";
     "DecisionTaskFailedCause_DECISION_TASK_FAILED_CAUSE_BAD_SIGNAL_WORKFLOW_EXECUTION_ATTRIBUTES";
     "DecisionTaskFailedCause_DECISION_TASK_FAILED_CAUSE_BAD_START_CHILD_EXECUTION_ATTRIBUTES";
     "DecisionTaskFailedCause_DECISION_TASK_FAILED_CAUSE_FORCE_CLOSE_DECISION";
     "DecisionTaskFailedCause_DECISION_TASK_FAILED_CAUSE_FAILOVER_CLOSE_DECISION";
     "DecisionTaskFailedCause_DECISION_TASK_FAILED_CAUSE_BAD_SIGNAL_INPUT_SIZE";
     "DecisionTaskFailedCause_DECISION_TASK_FAILED_CAUSE_RESET_WORKFLOW";
     "DecisionTaskFailedCause_DECISION_TASK_FAILED_CAUSE_BAD_BINARY";
     "DecisionTaskFailedCause_DECISION_TASK_FAILED_CAUSE_SCHEDULE_ACTIVITY_DUPLICATE_ID";
     "DecisionTaskFailedCause_DECISION_TASK_FAILED_CAUSE_BAD_SEARCH_ATTRIBUTES"];
    ["WorkflowExecutionCloseStatus_WORKFLOW_EXECUTION_CLOSE_STATUS_INVALID";
     "WorkflowExecutionCloseStatus_WORKFLOW_EXECUTION_CLOSE_STATUS_COMPLETED";
     "WorkflowExecutionCloseStatus_WORKFLOW_EXECUTION_CLOSE_STATUS_FAILED";
     "WorkflowExecutionCloseStatus_WORKFLOW_EXECUTION_CLOSE_STATUS_CANCELED";
     "WorkflowExecutionCloseStatus_WORKFLOW_EXECUTION_CLOSE_STATUS_TERMINATED";
     "WorkflowExecutionCloseStatus_WORKFLOW_EXECUTION_CLOSE_STATUS_CONTINUED_AS_NEW";
     "WorkflowExecutionCloseStatus_WORKFLOW_EXECUTION_CLOSE_STATUS_TIMED_OUT"];
    ["QueryResultType_QUERY_RESULT_TYPE_INVALID"; "QueryResultType_QUERY_RESULT_TYPE_ANSWERED";
     "QueryResultType_QUERY_RESULT_TYPE_FAILED"];
    ["DomainStatus_DOMAIN_STATUS_INVALID"; "DomainStatus_DOMAIN_STATUS_REGISTERED";
     "DomainStatus_DOMAIN_STATUS_DEPRECATED"; "DomainStatus_DOMAIN_STATUS_DELETED"];
    ["PendingActivityState_PENDING_ACTIVITY_STATE_INVALID";
     "PendingActivityState_PENDING_ACTIVITY_STATE_SCHEDULED";
     "PendingActivityState_PENDING_ACTIVITY_STATE_STARTED";
     "PendingActivityState_PENDING_ACTIVITY_STATE_CANCEL_REQUESTED"];
    ["PendingDecisionState_PENDING_DECISION_STATE_INVALID";
     "PendingDecisionState_PENDING_DECISION_STATE_SCHEDULED";
     "PendingDecisionState_PENDING_DECISION_STATE_STARTED"];
    ["IndexedValueType_INDEXED_VALUE_TYPE_INVALID"; "IndexedValueType_INDEXED_VALUE_TYPE_STRING";
     "IndexedValueType_INDEXED_VALUE_TYPE_KEYWORD"; "IndexedValueType_INDEXED_VALUE_TYPE_INT";
     "IndexedValueType_INDEXED_VALUE_TYPE_DOUBLE"; "IndexedValueType_INDEXED_VALUE_TYPE_BOOL";
     "IndexedValueType_INDEXED_VALUE_TYPE_DATETIME"];
    ["EncodingType_ENCODING_TYPE_INVALID"; "EncodingType_ENCODING_TYPE_THRIFTRW";
     "EncodingType_ENCODING_TYPE_JSON"; "EncodingType_ENCODING_TYPE_PROTO3"];
    ["TimeoutType_TIMEOUT_TYPE_INVALID"; "TimeoutType_TIMEOUT_TYPE_START_TO_CLOSE";
     "TimeoutType_TIMEOUT_TYPE_SCHEDULE_TO_START"; "TimeoutType_TIMEOUT_TYPE_SCHEDULE_TO_CLOSE";
     "TimeoutType_TIMEOUT_TYPE_HEARTBEAT"];
    ["DecisionTaskTimedOutCause_DECISION_TASK_TIMED_OUT_CAUSE_INVALID";
     "DecisionTaskTimedOutCause_DECISION_TASK_TIMED_OUT_CAUSE_TIMEOUT";
     "DecisionTaskTimedOutCause_DECISION_TASK_TIMED_OUT_CAUSE_RESET"];
    
     ["CancelExternalWorkflowExecutionFailedCause_CANCEL_EXTERNAL_WORKFLOW_EXECUTION_FAILED_CAUSE_INVALID";
     "CancelExternalWorkflowExecutionFailedCause_CANCEL_EXTERNAL_WORKFLOW_EXECUTION_FAILED_CAUSE_UNKNOWN_EXTERNAL_WORKFLOW_EXECUTION";
     "CancelExternalWorkflowExecutionFailedCause_CANCEL_EXTERNAL_WORKFLOW_EXECUTION_FAILED_CAUSE_WORKFLOW_ALREADY_COMPLETED"];
    
     ["SignalExternalWorkflowExecutionFailedCause_SIGNAL_EXTERNAL_WORKFLOW_EXECUTION_FAILED_CAUSE_INVALID";
     "SignalExternalWorkflowExecutionFailedCause_SIGNAL_EXTERNAL_WORKFLOW_EXECUTION_FAILED_CAUSE_UNKNOWN_EXTERNAL_WORKFLOW_EXECUTION";
     "SignalExternalWorkflowExecutionFailedCause_SIGNAL_EXTERNAL_WORKFLOW_EXECUTION_FAILED_CAUSE_WORKFLOW_ALREADY_COMPLETED"];
    ["ChildWorkflowExecutionFailedCause_CHILD_WORKFLOW_EXECUTION_FAILED_CAUSE_INVALID";
     "ChildWorkflowExecutionFailedCause_CHILD_WORKFLOW_EXECUTION_FAILED_CAUSE_WORKFLOW_ALREADY_RUNNING"];
    ["CronOverlapPolicy_CRON_OVERLAP_POLICY_INVALID";
     "CronOverlapPolicy_CRON_OVERLAP_POLICY_SKIPPED";
     "CronOverlapPolicy_CRON_OVERLAP_POLICY_BUFFER_ONE"];
    ["FailoverType_FAILOVER_TYPE_INVALID"; "FailoverType_FAILOVER_TYPE_FORCE";
     "FailoverType_FAILOVER_TYPE_GRACEFUL"];
    ["FailureCategory_FAILURE_CATEGORY_INVALID"; "FailureCategory_FAILURE_CATEGORY_POLL";
     "FailureCategory_FAILURE_CATEGORY_STANDARD"; "FailureCategory_FAILURE_CATEGORY_FATAL"];
    ["ScheduleOverlapPolicy_SCHEDULE_OVERLAP_POLICY_INVALID";
     "ScheduleOverlapPolicy_SCHEDULE_OVERLAP_POLICY_SKIP_NEW";
     "ScheduleOverlapPolicy_SCHEDULE_OVERLAP_POLICY_BUFFER";
     "ScheduleOverlapPolicy_SCHEDULE_OVERLAP_POLICY_CONCURRENT";
     "ScheduleOverlapPolicy_SCHEDULE_OVERLAP_POLICY_CANCEL_PREVIOUS";
     "ScheduleOverlapPolicy_SCHEDULE_OVERLAP_POLICY_TERMINATE_PREVIOUS"];
    ["ScheduleCatchUpPolicy_SCHEDULE_CATCH_UP_POLICY_INVALID";
     "ScheduleCatchUpPolicy_SCHEDULE_CATCH_UP_POLICY_SKIP";
     "ScheduleCatchUpPolicy_SCHEDULE_CATCH_UP_POLICY_ONE";
     "ScheduleCatchUpPolicy_SCHEDULE_CATCH_UP_POLICY_ALL"] ].

Section enums.
Context (apiv1 : string → Z).

(** [switch t { case apiv1.N: return r; ... }] with what follows it. *)
Fixpoint switch {A} (t : Z) (cases : list (string * outcome A)) (otherwise : outcome A)
    : outcome A :=
  match cases with
  | [] => otherwise
  | (n, r) :: cases => if decide (t = apiv1 n) then r else switch t cases otherwise
  end.

(** ** proto/enum.go *)

Definition proto_TaskListKind (t : option TaskListKind) : outcome Z :=
  match t with
  | None => Ret (apiv1 "TaskListKind_TASK_LIST_KIND_INVALID")
  | Some TaskListKindNormal => Ret (apiv1 "TaskListKind_TASK_LIST_KIND_NORMAL")
  | Some TaskListKindSticky => Ret (apiv1 "TaskListKind_TASK_LIST_KIND_STICKY")
  | Some TaskListKindEphemeral => Ret (apiv1 "TaskListKind_TASK_LIST_KIND_EPHEMERAL")
  | Some _ => Panic (StringPanic "unexpected enum value")
  end.

Definition proto_TaskListType (t : option TaskListType) : outcome Z :=
  match t with
  | None => Ret (apiv1 "TaskListType_TASK_LIST_TYPE_INVALID")
  | Some TaskListTypeDecision => Ret (apiv1 "TaskListType_TASK_LIST_TYPE_DECISION")
  | Some TaskListTypeActivity => Ret (apiv1 "TaskListType_TASK_LIST_TYPE_ACTIVITY")
  | Some _ => Panic (StringPanic "unexpected enum value")
  end.

Definition proto_EventFilterType (t : option HistoryEventFilterType) : outcome Z :=
  match t with
  | None => Ret (apiv1 "EventFilterType_EVENT_FILTER_TYPE_INVALID")
  | Some HistoryEventFilterTypeAllEvent => Ret (apiv1 "EventFilterType_EVENT_FILTER_TYPE_ALL_EVENT")
  | Some HistoryEventFilterTypeCloseEvent => Ret (apiv1 "EventFilterType_EVENT_FILTER_TYPE_CLOSE_EVENT")
  | Some _ => Panic (StringPanic "unexpected enum value")
  end.

Definition proto_QueryRejectCondition (t : option QueryRejectCondition) : outcome Z :=
  match t with
  | None => Ret (apiv1 "QueryRejectCondition_QUERY_REJECT_CONDITION_INVALID")
  | Some QueryRejectConditionNotOpen => Ret (apiv1 "QueryRejectCondition_QUERY_REJECT_CONDITION_NOT_OPEN")
  | Some QueryRejectConditionNotCompletedCleanly => Ret (apiv1 "QueryRejectCondition_QUERY_REJECT_CONDITION_NOT_COMPLETED_CLEANLY")
  | Some _ => Panic (StringPanic "unexpected enum value")
  end.

Definition proto_QueryConsistencyLevel (t : option QueryConsistencyLevel) : outcome Z :=
  match t with
  | None => Ret (apiv1 "QueryConsistencyLevel_QUERY_CONSISTENCY_LEVEL_INVALID")
  | Some QueryConsistencyLevelEventual => Ret (apiv1 "QueryConsistencyLevel_QUERY_CONSISTENCY_LEVEL_EVENTUAL")
  | Some QueryConsistencyLevelStrong => Ret (apiv1 "QueryConsistencyLevel_QUERY_CONSISTENCY_LEVEL_STRONG")
  | Some _ => Panic (StringPanic "unexpected enum value")
  end.

Definition proto_ContinueAsNewInitiator (t : option ContinueAsNewInitiator) : outcome Z :=
  match t with
  | None => Ret (apiv1 "ContinueAsNewInitiator_CONTINUE_AS_NEW_INITIATOR_INVALID")
  | Some ContinueAsNewInitiatorDecider => Ret (apiv1 "ContinueAsNewInitiator_CONTINUE_AS_NEW_INITIATOR_DECIDER")
  | Some ContinueAsNewInitiatorRetryPolicy => Ret (apiv1 "ContinueAsNewInitiator_CONTINUE_AS_NEW_INITIATOR_RETRY_POLICY")
  | Some ContinueAsNewInitiatorCronSchedule => Ret (apiv1 "ContinueAsNewInitiator_CONTINUE_AS_NEW_INITIATOR_CRON_SCHEDULE")
  | Some _ => Panic (StringPanic "unexpected enum value")
  end.

Definition proto_WorkflowIDReusePolicy (t : option WorkflowIdReusePolicy) : outcome Z :=
  match t with
  | None => Ret (apiv1 "WorkflowIdReusePolicy_WORKFLOW_ID_REUSE_POLICY_INVALID")
  | Some WorkflowIdReusePolicyAllowDuplicateFailedOnly => Ret (apiv1 "WorkflowIdReusePolicy_WORKFLOW_ID_REUSE_POLICY_ALLOW_DUPLICATE_FAILED_ONLY")
  | Some WorkflowIdReusePolicyAllowDuplicate => Ret (apiv1 "WorkflowIdReusePolicy_WORKFLOW_ID_REUSE_POLICY_ALLOW_DUPLICATE")
  | Some WorkflowIdReusePolicyRejectDuplicate => Ret (apiv1 "WorkflowIdReusePolicy_WORKFLOW_ID_REUSE_POLICY_REJECT_DUPLICATE")
  | Some WorkflowIdReusePolicyTerminateIfRunning => Ret (apiv1 "WorkflowIdReusePolicy_WORKFLOW_ID_REUSE_POLICY_TERMINATE_IF_RUNNING")
  | Some _ => Panic (StringPanic "unexpected enum value")
  end.

Definition proto_QueryResultType (t : option QueryResultType) : outcome Z :=
  match t with
  | None => Ret (apiv1 "QueryResultType_QUERY_RESULT_TYPE_INVALID")
  | Some QueryResultTypeAnswered => Ret (apiv1 "QueryResultType_QUERY_RESULT_TYPE_ANSWERED")
  | Some QueryResultTypeFailed => Ret (apiv1 "QueryResultType_QUERY_RESULT_TYPE_FAILED")
  | Some _ => Panic (StringPanic "unexpected enum value")
  end.

Definition proto_ArchivalStatus (t : option ArchivalStatus) : outcome Z :=
  match t with
  | None => Ret (apiv1 "ArchivalStatus_ARCHIVAL_STATUS_INVALID")
  | Some ArchivalStatusDisabled => Ret (apiv1 "ArchivalStatus_ARCHIVAL_STATUS_DISABLED")
  | Some ArchivalStatusEnabled => Ret (apiv1 "ArchivalStatus_ARCHIVAL_STATUS_ENABLED")
  | Some _ => Panic (StringPanic "unexpected enum value")
  end.

Definition proto_ParentClosePolicy (t : option ParentClosePolicy) : outcome Z :=
  match t with
  | None => Ret (apiv1 "ParentClosePolicy_PARENT_CLOSE_POLICY_INVALID")
  | Some ParentClosePolicyAbandon => Ret (apiv1 "ParentClosePolicy_PARENT_CLOSE_POLICY_ABANDON")
  | Some ParentClosePolicyRequestCancel => Ret (apiv1 "ParentClosePolicy_PARENT_CLOSE_POLICY_REQUEST_CANCEL")
  | Some ParentClosePolicyTerminate => Ret (apiv1 "ParentClosePolicy_PARENT_CLOSE_POLICY_TERMINATE")
  | Some _ => Panic (StringPanic "unexpected enum value")
  end.

Definition proto_DecisionTaskFailedCause (t : option DecisionTaskFailedCause) : outcome Z :=
  match t with
  | None => Ret (apiv1 "DecisionTaskFailedCause_DECISION_TASK_FAILED_CAUSE_INVALID")
  | Some DecisionTaskFailedCauseUnhandledDecision => Ret (apiv1 "DecisionTaskFailedCause_DECISION_TASK_FAILED_CAUSE_UNHANDLED_DECISION")
  | Some DecisionTaskFailedCauseBadScheduleActivityAttributes => Ret (apiv1 "DecisionTaskFailedCause_DECISION_TASK_FAILED_CAUSE_BAD_SCHEDULE_ACTIVITY_ATTRIBUTES")
  | Some DecisionTaskFailedCauseBadRequestCancelActivityAttributes => Ret (apiv1 "DecisionTaskFailedCause_DECISION_TASK_FAILED_CAUSE_BAD_REQUEST_CANCEL_ACTIVITY_ATTRIBUTES")
  | Some DecisionTaskFailedCauseBadStartTimerAttributes => Ret (apiv1 "DecisionTaskFailedCause_DECISION_TASK_FAILED_CAUSE_BAD_START_TIMER_ATTRIBUTES")
  | Some DecisionTaskFailedCauseBadCancelTimerAttributes => Ret (apiv1 "DecisionTaskFailedCause_DECISION_TASK_FAILED_CAUSE_BAD_CANCEL_TIMER_ATTRIBUTES")
  | Some DecisionTaskFailedCauseBadRecordMarkerAttributes => Ret (apiv1 "DecisionTaskFailedCause_DECISION_TASK_FAILED_CAUSE_BAD_RECORD_MARKER_ATTRIBUTES")
  | Some DecisionTaskFailedCauseBadCompleteWorkflowExecutionAttributes => Ret (apiv1 "DecisionTaskFailedCause_DECISION_TASK_FAILED_CAUSE_BAD_COMPLETE_WORKFLOW_EXECUTION_ATTRIBUTES")
  | Some DecisionTaskFailedCauseBadFailWorkflowExecutionAttributes => Ret (apiv1 "DecisionTaskFailedCause_DECISION_TASK_FAILED_CAUSE_BAD_FAIL_WORKFLOW_EXECUTION_ATTRIBUTES")
  | Some DecisionTaskFailedCauseBadCancelWorkflowExecutionAttributes => Ret (apiv1 "DecisionTaskFailedCause_DECISION_TASK_FAILED_CAUSE_BAD_CANCEL_WORKFLOW_EXECUTION_ATTRIBUTES")
  | Some DecisionTaskFailedCauseBadRequestCancelExternalWorkflowExecutionAttributes => Ret (apiv1 "DecisionTaskFailedCause_DECISION_TASK_FAILED_CAUSE_BAD_REQUEST_CANCEL_EXTERNAL_WORKFLOW_EXECUTION_ATTRIBUTES")
  | Some DecisionTaskFailedCauseBadContinueAsNewAttributes => Ret (apiv1 "DecisionTaskFailedCause_DECISION_TASK_FAILED_CAUSE_BAD_CONTINUE_AS_NEW_ATTRIBUTES")
  | Some DecisionTaskFailedCauseStartTimerDuplicateID => Ret (apiv1 "DecisionTaskFailedCause_DECISION_TASK_FAILED_CAUSE_START_TIMER_DUPLICATE_ID")
  | Some DecisionTaskFailedCauseResetStickyTasklist => Ret (apiv1 "DecisionTaskFailedCause_DECISION_TASK_FAILED_CAUSE_RESET_STICKY_TASK_LIST")
  | Some DecisionTaskFailedCauseWorkflowWorkerUnhandledFailure => Ret (apiv1 "DecisionTaskFailedCause_DECISION_TASK_FAILED_CAUSE_WORKFLOW_WORKER_UNHANDLED_FAILURE")
  | Some DecisionTaskFailedCauseBadSignalWorkflowExecutionAttributes => Ret (apiv1 "DecisionTaskFailedCause_DECISION_TASK_FAILED_CAUSE_BAD_SIGNAL_WORKFLOW_EXECUTION_ATTRIBUTES")
  | Some DecisionTaskFailedCauseBadStartChildExecutionAttributes => Ret (apiv1 "DecisionTaskFailedCause_DECISION_TASK_FAILED_CAUSE_BAD_START_CHILD_EXECUTION_ATTRIBUTES")
  | Some DecisionTaskFailedCauseForceCloseDecision => Ret (apiv1 "DecisionTaskFailedCause_DECISION_TASK_FAILED_CAUSE_FORCE_CLOSE_DECISION")
  | Some DecisionTaskFailedCauseFailoverCloseDecision => Ret (apiv1 "DecisionTaskFailedCause_DECISION_TASK_FAILED_CAUSE_FAILOVER_CLOSE_DECISION")
  | Some DecisionTaskFailedCauseBadSignalInputSize => Ret (apiv1 "DecisionTaskFailedCause_DECISION_TASK_FAILED_CAUSE_BAD_SIGNAL_INPUT_SIZE")
  | Some DecisionTaskFailedCauseResetWorkflow => Ret (apiv1 "DecisionTaskFailedCause_DECISION_TASK_FAILED_CAUSE_RESET_WORKFLOW")
  | Some DecisionTaskFailedCauseBadBinary => Ret (apiv1 "DecisionTaskFailedCause_DECISION_TASK_FAILED_CAUSE_BAD_BINARY")
  | Some DecisionTaskFailedCauseScheduleActivityDuplicateID => Ret (apiv1 "DecisionTaskFailedCause_DECISION_TASK_FAILED_CAUSE_SCHEDULE_ACTIVITY_DUPLICATE_ID")
  | Some DecisionTaskFailedCauseBadSearchAttributes => Ret (apiv1 "DecisionTaskFailedCause_DECISION_TASK_FAILED_CAUSE_BAD_SEARCH_ATTRIBUTES")
  | Some _ => Panic (StringPanic "unexpected enum value")
  end.

Definition proto_WorkflowExecutionCloseStatus (t : option WorkflowExecutionCloseStatus) : outcome Z :=
  match t with
  | None => Ret (apiv1 "WorkflowExecutionCloseStatus_WORKFLOW_EXECUTION_CLOSE_STATUS_INVALID")
  | Some WorkflowExecutionCloseStatusCompleted => Ret (apiv1 "WorkflowExecutionCloseStatus_WORKFLOW_EXECUTION_CLOSE_STATUS_COMPLETED")
  | Some WorkflowExecutionCloseStatusFailed => Ret (apiv1 "WorkflowExecutionCloseStatus_WORKFLOW_EXECUTION_CLOSE_STATUS_FAILED")
  | Some WorkflowExecutionCloseStatusCanceled => Ret (apiv1 "WorkflowExecutionCloseStatus_WORKFLOW_EXECUTION_CLOSE_STATUS_CANCELED")
  | Some WorkflowExecutionCloseStatusTerminated => Ret (apiv1 "WorkflowExecutionCloseStatus_WORKFLOW_EXECUTION_CLOSE_STATUS_TERMINATED")
  | Some WorkflowExecutionCloseStatusContinuedAsNew => Ret (apiv1 "WorkflowExecutionCloseStatus_WORKFLOW_EXECUTION_CLOSE_STATUS_CONTINUED_AS_NEW")
  | Some WorkflowExecutionCloseStatusTimedOut => Ret (apiv1 "WorkflowExecutionCloseStatus_WORKFLOW_EXECUTION_CLOSE_STATUS_TIMED_OUT")
  | Some _ => Panic (StringPanic "unexpected enum value")
  end.

Definition proto_QueryTaskCompletedType (t : option QueryTaskCompletedType) : outcome Z :=
  match t with
  | None => Ret (apiv1 "QueryResultType_QUERY_RESULT_TYPE_INVALID")
  | Some QueryTaskCompletedTypeCompleted => Ret (apiv1 "QueryResultType_QUERY_RESULT_TYPE_ANSWERED")
  | Some QueryTaskCompletedTypeFailed => Ret (apiv1 "QueryResultType_QUERY_RESULT_TYPE_FAILED")
  | Some _ => Panic (StringPanic "unexpected enum value")
  end.

Definition proto_DomainStatus (t : option DomainStatus) : outcome Z :=
  match t with
  | None => Ret (apiv1 "DomainStatus_DOMAIN_STATUS_INVALID")
  | Some DomainStatusRegistered => Ret (apiv1 "DomainStatus_DOMAIN_STATUS_REGISTERED")
  | Some DomainStatusDeprecated => Ret (apiv1 "DomainStatus_DOMAIN_STATUS_DEPRECATED")
  | Some DomainStatusDeleted => Ret (apiv1 "DomainStatus_DOMAIN_STATUS_DELETED")
  | Some _ => Panic (StringPanic "unexpected enum value")
  end.

Definition proto_PendingActivityState (t : option PendingActivityState) : outcome Z :=
  match t with
  | None => Ret (apiv1 "PendingActivityState_PENDING_ACTIVITY_STATE_INVALID")
  | Some PendingActivityStateScheduled => Ret (apiv1 "PendingActivityState_PENDING_ACTIVITY_STATE_SCHEDULED")
  | Some PendingActivityStateStarted => Ret (apiv1 "PendingActivityState_PENDING_ACTIVITY_STATE_STARTED")
  | Some PendingActivityStateCancelRequested => Ret (apiv1 "PendingActivityState_PENDING_ACTIVITY_STATE_CANCEL_REQUESTED")
  | Some _ => Panic (StringPanic "unexpected enum value")
  end.

Definition proto_PendingDecisionState (t : option PendingDecisionState) : outcome Z :=
  match t with
  | None => Ret (apiv1 "PendingDecisionState_PENDING_DECISION_STATE_INVALID")
  | Some PendingDecisionStateScheduled => Ret (apiv1 "PendingDecisionState_PENDING_DECISION_STATE_SCHEDULED")
  | Some PendingDecisionStateStarted => Ret (apiv1 "PendingDecisionState_PENDING_DECISION_STATE_STARTED")
  | Some _ => Panic (StringPanic "unexpected enum value")
  end.

Definition proto_IndexedValueType (t : IndexedValueType) : outcome Z :=
  match t with
  | IndexedValueTypeString => Ret (apiv1 "IndexedValueType_INDEXED_VALUE_TYPE_STRING")
  | IndexedValueTypeKeyword => Ret (apiv1 "IndexedValueType_INDEXED_VALUE_TYPE_KEYWORD")
  | IndexedValueTypeInt => Ret (apiv1 "IndexedValueType_INDEXED_VALUE_TYPE_INT")
  | IndexedValueTypeDouble => Ret (apiv1 "IndexedValueType_INDEXED_VALUE_TYPE_DOUBLE")
  | IndexedValueTypeBool => Ret (apiv1 "IndexedValueType_INDEXED_VALUE_TYPE_BOOL")
  | IndexedValueTypeDatetime => Ret (apiv1 "IndexedValueType_INDEXED_VALUE_TYPE_DATETIME")
  | _ => Panic (StringPanic "unexpected enum value")
  end.

Definition proto_EncodingType (t : option EncodingType) : outcome Z :=
  match t with
  | None => Ret (apiv1 "EncodingType_ENCODING_TYPE_INVALID")
  | Some EncodingTypeThriftRW => Ret (apiv1 "EncodingType_ENCODING_TYPE_THRIFTRW")
  | Some EncodingTypeJSON => Ret (apiv1 "EncodingType_ENCODING_TYPE_JSON")
  | Some _ => Panic (StringPanic "unexpected enum value")
  end.

Definition proto_TimeoutType (t : option TimeoutType) : outcome Z :=
  match t with
  | None => Ret (apiv1 "TimeoutType_TIMEOUT_TYPE_INVALID")
  | Some TimeoutTypeStartToClose => Ret (apiv1 "TimeoutType_TIMEOUT_TYPE_START_TO_CLOSE")
  | Some TimeoutTypeScheduleToStart => Ret (apiv1 "TimeoutType_TIMEOUT_TYPE_SCHEDULE_TO_START")
  | Some TimeoutTypeScheduleToClose => Ret (apiv1 "TimeoutType_TIMEOUT_TYPE_SCHEDULE_TO_CLOSE")
  | Some TimeoutTypeHeartbeat => Ret (apiv1 "TimeoutType_TIMEOUT_TYPE_HEARTBEAT")
  | Some _ => Panic (StringPanic "unexpected enum value")
  end.

Definition proto_DecisionTaskTimedOutCause (t : option DecisionTaskTimedOutCause) : outcome Z :=
  match t with
  | None => Ret (apiv1 "DecisionTaskTimedOutCause_DECISION_TASK_TIMED_OUT_CAUSE_INVALID")
  | Some DecisionTaskTimedOutCauseTimeout => Ret (apiv1 "DecisionTaskTimedOutCause_DECISION_TASK_TIMED_OUT_CAUSE_TIMEOUT")
  | Some DecisionTaskTimedOutCauseReset => Ret (apiv1 "DecisionTaskTimedOutCause_DECISION_TASK_TIMED_OUT_CAUSE_RESET")
  | Some _ => Panic (StringPanic "unexpected enum value")
  end.

Definition proto_CancelExternalWorkflowExecutionFailedCause (t : option CancelExternalWorkflowExecutionFailedCause) : outcome Z :=
  match t with
  | None => Ret (apiv1 "CancelExternalWorkflowExecutionFailedCause_CANCEL_EXTERNAL_WORKFLOW_EXECUTION_FAILED_CAUSE_INVALID")
  | Some CancelExternalWorkflowExecutionFailedCauseUnknownExternalWorkflowExecution => Ret (apiv1 "CancelExternalWorkflowExecutionFailedCause_CANCEL_EXTERNAL_WORKFLOW_EXECUTION_FAILED_CAUSE_UNKNOWN_EXTERNAL_WORKFLOW_EXECUTION")
  | Some CancelExternalWorkflowExecutionFailedCauseWorkflowAlreadyCompleted => Ret (apiv1 "CancelExternalWorkflowExecutionFailedCause_CANCEL_EXTERNAL_WORKFLOW_EXECUTION_FAILED_CAUSE_WORKFLOW_ALREADY_COMPLETED")
  | Some _ => Panic (StringPanic "unexpected enum value")
  end.

Definition proto_SignalExternalWorkflowExecutionFailedCause (t : option SignalExternalWorkflowExecutionFailedCause) : outcome Z :=
  match t with
  | None => Ret (apiv1 "SignalExternalWorkflowExecutionFailedCause_SIGNAL_EXTERNAL_WORKFLOW_EXECUTION_FAILED_CAUSE_INVALID")
  | Some SignalExternalWorkflowExecutionFailedCauseUnknownExternalWorkflowExecution => Ret (apiv1 "SignalExternalWorkflowExecutionFailedCause_SIGNAL_EXTERNAL_WORKFLOW_EXECUTION_FAILED_CAUSE_UNKNOWN_EXTERNAL_WORKFLOW_EXECUTION")
  | Some SignalExternalWorkflowExecutionFailedCauseWorkflowAlreadyCompleted => Ret (apiv1 "SignalExternalWorkflowExecutionFailedCause_SIGNAL_EXTERNAL_WORKFLOW_EXECUTION_FAILED_CAUSE_WORKFLOW_ALREADY_COMPLETED")
  | Some _ => Panic (StringPanic "unexpected enum value")
  end.

Definition proto_ChildWorkflowExecutionFailedCause (t : option ChildWorkflowExecutionFailedCause) : outcome Z :=
  match t with
  | None => Ret (apiv1 "ChildWorkflowExecutionFailedCause_CHILD_WORKFLOW_EXECUTION_FAILED_CAUSE_INVALID")
  | Some ChildWorkflowExecutionFailedCauseWorkflowAlreadyRunning => Ret (apiv1 "ChildWorkflowExecutionFailedCause_CHILD_WORKFLOW_EXECUTION_FAILED_CAUSE_WORKFLOW_ALREADY_RUNNING")
  | Some _ => Panic (StringPanic "unexpected enum value")
  end.

Definition proto_CronOverlapPolicy (t : option CronOverlapPolicy) : outcome Z :=
  match t with
  | None => Ret (apiv1 "CronOverlapPolicy_CRON_OVERLAP_POLICY_INVALID")
  | Some CronOverlapPolicySkipped => Ret (apiv1 "CronOverlapPolicy_CRON_OVERLAP_POLICY_SKIPPED")
  | Some CronOverlapPolicyBufferone => Ret (apiv1 "CronOverlapPolicy_CRON_OVERLAP_POLICY_BUFFER_ONE")
  | Some _ => Ret (apiv1 "CronOverlapPolicy_CRON_OVERLAP_POLICY_INVALID")
  end.

Definition proto_FailoverType (t : option FailoverType) : outcome Z :=
  match t with
  | None => Ret (apiv1 "FailoverType_FAILOVER_TYPE_INVALID")
  | Some FailoverTypeInvalid => Ret (apiv1 "FailoverType_FAILOVER_TYPE_INVALID")
  | Some FailoverTypeForce => Ret (apiv1 "FailoverType_FAILOVER_TYPE_FORCE")
  | Some FailoverTypeGraceful => Ret (apiv1 "FailoverType_FAILOVER_TYPE_GRACEFUL")
  | Some _ => Ret (apiv1 "FailoverType_FAILOVER_TYPE_INVALID")
  end.

Definition proto_FailureCategory (t : option FailureCategory) : outcome Z :=
  match t with
  | None => Ret (apiv1 "FailureCategory_FAILURE_CATEGORY_INVALID")
  | Some FailureCategoryPoll => Ret (apiv1 "FailureCategory_FAILURE_CATEGORY_POLL")
  | Some FailureCategoryStandard => Ret (apiv1 "FailureCategory_FAILURE_CATEGORY_STANDARD")
  | Some FailureCategoryFatal => Ret (apiv1 "FailureCategory_FAILURE_CATEGORY_FATAL")
  | Some _ => Ret (apiv1 "FailureCategory_FAILURE_CATEGORY_INVALID")
  end.

(** ** thrift/enum.go *)

Definition thrift_TaskListKind (t : Z) : outcome (option TaskListKind) :=
  switch t
    [ ("TaskListKind_TASK_LIST_KIND_INVALID", Ret None);
      ("TaskListKind_TASK_LIST_KIND_NORMAL", Ret (Some TaskListKindNormal));
      ("TaskListKind_TASK_LIST_KIND_STICKY", Ret (Some TaskListKindSticky));
      ("TaskListKind_TASK_LIST_KIND_EPHEMERAL", Ret (Some TaskListKindEphemeral)) ]
    (Panic (StringPanic "unexpected enum value")).

Definition thrift_TaskListType (t : Z) : outcome (option TaskListType) :=
  switch t
    [ ("TaskListType_TASK_LIST_TYPE_INVALID", Ret None);
      ("TaskListType_TASK_LIST_TYPE_DECISION", Ret (Some TaskListTypeDecision));
      ("TaskListType_TASK_LIST_TYPE_ACTIVITY", Ret (Some TaskListTypeActivity)) ]
    (Panic (StringPanic "unexpected enum value")).

Definition thrift_EventFilterType (t : Z) : outcome (option HistoryEventFilterType) :=
  switch t
    [ ("EventFilterType_EVENT_FILTER_TYPE_INVALID", Ret None);
      ("EventFilterType_EVENT_FILTER_TYPE_ALL_EVENT", Ret (Some HistoryEventFilterTypeAllEvent));
      ("EventFilterType_EVENT_FILTER_TYPE_CLOSE_EVENT", Ret (Some HistoryEventFilterTypeCloseEvent)) ]
    (Panic (StringPanic "unexpected enum value")).

Definition thrift_QueryRejectCondition (t : Z) : outcome (option QueryRejectCondition) :=
  switch t
    [ ("QueryRejectCondition_QUERY_REJECT_CONDITION_INVALID", Ret None);
      ("QueryRejectCondition_QUERY_REJECT_CONDITION_NOT_OPEN", Ret (Some QueryRejectConditionNotOpen));
      ("QueryRejectCondition_QUERY_REJECT_CONDITION_NOT_COMPLETED_CLEANLY", Ret (Some QueryRejectConditionNotCompletedCleanly)) ]
    (Panic (StringPanic "unexpected enum value")).

Definition thrift_QueryConsistencyLevel (t : Z) : outcome (option QueryConsistencyLevel) :=
  switch t
    [ ("QueryConsistencyLevel_QUERY_CONSISTENCY_LEVEL_INVALID", Ret None);
      ("QueryConsistencyLevel_QUERY_CONSISTENCY_LEVEL_EVENTUAL", Ret (Some QueryConsistencyLevelEventual));
      ("QueryConsistencyLevel_QUERY_CONSISTENCY_LEVEL_STRONG", Ret (Some QueryConsistencyLevelStrong)) ]
    (Panic (StringPanic "unexpected enum value")).

Definition thrift_ContinueAsNewInitiator (t : Z) : outcome (option ContinueAsNewInitiator) :=
  switch t
    [ ("ContinueAsNewInitiator_CONTINUE_AS_NEW_INITIATOR_INVALID", Ret None);
      ("ContinueAsNewInitiator_CONTINUE_AS_NEW_INITIATOR_DECIDER", Ret (Some ContinueAsNewInitiatorDecider));
      ("ContinueAsNewInitiator_CONTINUE_AS_NEW_INITIATOR_RETRY_POLICY", Ret (Some ContinueAsNewInitiatorRetryPolicy));
      ("ContinueAsNewInitiator_CONTINUE_AS_NEW_INITIATOR_CRON_SCHEDULE", Ret (Some ContinueAsNewInitiatorCronSchedule)) ]
    (Panic (StringPanic "unexpected enum value")).

Definition thrift_WorkflowIDReusePolicy (t : Z) : outcome (option WorkflowIdReusePolicy) :=
  switch t
    [ ("WorkflowIdReusePolicy_WORKFLOW_ID_REUSE_POLICY_INVALID", Ret None);
      ("WorkflowIdReusePolicy_WORKFLOW_ID_REUSE_POLICY_ALLOW_DUPLICATE_FAILED_ONLY", Ret (Some WorkflowIdReusePolicyAllowDuplicateFailedOnly));
      ("WorkflowIdReusePolicy_WORKFLOW_ID_REUSE_POLICY_ALLOW_DUPLICATE", Ret (Some WorkflowIdReusePolicyAllowDuplicate));
      ("WorkflowIdReusePolicy_WORKFLOW_ID_REUSE_POLICY_REJECT_DUPLICATE", Ret (Some WorkflowIdReusePolicyRejectDuplicate));
      ("WorkflowIdReusePolicy_WORKFLOW_ID_REUSE_POLICY_TERMINATE_IF_RUNNING", Ret (Some WorkflowIdReusePolicyTerminateIfRunning)) ]
    (Panic (StringPanic "unexpected enum value")).

Definition thrift_QueryResultType (t : Z) : outcome (option QueryResultType) :=
  switch t
    [ ("QueryResultType_QUERY_RESULT_TYPE_INVALID", Ret None);
      ("QueryResultType_QUERY_RESULT_TYPE_ANSWERED", Ret (Some QueryResultTypeAnswered));
      ("QueryResultType_QUERY_RESULT_TYPE_FAILED", Ret (Some QueryResultTypeFailed)) ]
    (Panic (StringPanic "unexpected enum value")).

Definition thrift_ArchivalStatus (t : Z) : outcome (option ArchivalStatus) :=
  switch t
    [ ("ArchivalStatus_ARCHIVAL_STATUS_INVALID", Ret None);
      ("ArchivalStatus_ARCHIVAL_STATUS_DISABLED", Ret (Some ArchivalStatusDisabled));
      ("ArchivalStatus_ARCHIVAL_STATUS_ENABLED", Ret (Some ArchivalStatusEnabled)) ]
    (Panic (StringPanic "unexpected enum value")).

Definition thrift_ParentClosePolicy (t : Z) : outcome (option ParentClosePolicy) :=
  switch t
    [ ("ParentClosePolicy_PARENT_CLOSE_POLICY_INVALID", Ret None);
      ("ParentClosePolicy_PARENT_CLOSE_POLICY_ABANDON", Ret (Some ParentClosePolicyAbandon));
      ("ParentClosePolicy_PARENT_CLOSE_POLICY_REQUEST_CANCEL", Ret (Some ParentClosePolicyRequestCancel));
      ("ParentClosePolicy_PARENT_CLOSE_POLICY_TERMINATE", Ret (Some ParentClosePolicyTerminate)) ]
    (Panic (StringPanic "unexpected enum value")).

Definition thrift_DecisionTaskFailedCause (t : Z) : outcome (option DecisionTaskFailedCause) :=
  switch t
    [ ("DecisionTaskFailedCause_DECISION_TASK_FAILED_CAUSE_INVALID", Ret None);
      ("DecisionTaskFailedCause_DECISION_TASK_FAILED_CAUSE_UNHANDLED_DECISION", Ret (Some DecisionTaskFailedCauseUnhandledDecision));
      ("DecisionTaskFailedCause_DECISION_TASK_FAILED_CAUSE_BAD_SCHEDULE_ACTIVITY_ATTRIBUTES", Ret (Some DecisionTaskFailedCauseBadScheduleActivityAttributes));
      ("DecisionTaskFailedCause_DECISION_TASK_FAILED_CAUSE_BAD_REQUEST_CANCEL_ACTIVITY_ATTRIBUTES", Ret (Some DecisionTaskFailedCauseBadRequestCancelActivityAttributes));
      ("DecisionTaskFailedCause_DECISION_TASK_FAILED_CAUSE_BAD_START_TIMER_ATTRIBUTES", Ret (Some DecisionTaskFailedCauseBadStartTimerAttributes));
      ("DecisionTaskFailedCause_DECISION_TASK_FAILED_CAUSE_BAD_CANCEL_TIMER_ATTRIBUTES", Ret (Some DecisionTaskFailedCauseBadCancelTimerAttributes));
      ("DecisionTaskFailedCause_DECISION_TASK_FAILED_CAUSE_BAD_RECORD_MARKER_ATTRIBUTES", Ret (Some DecisionTaskFailedCauseBadRecordMarkerAttributes));
      ("DecisionTaskFailedCause_DECISION_TASK_FAILED_CAUSE_BAD_COMPLETE_WORKFLOW_EXECUTION_ATTRIBUTES", Ret (Some DecisionTaskFailedCauseBadCompleteWorkflowExecutionAttributes));
      ("DecisionTaskFailedCause_DECISION_TASK_FAILED_CAUSE_BAD_FAIL_WORKFLOW_EXECUTION_ATTRIBUTES", Ret (Some DecisionTaskFailedCauseBadFailWorkflowExecutionAttributes));
      ("DecisionTaskFailedCause_DECISION_TASK_FAILED_CAUSE_BAD_CANCEL_WORKFLOW_EXECUTION_ATTRIBUTES", Ret (Some DecisionTaskFailedCauseBadCancelWorkflowExecutionAttributes));
      ("DecisionTaskFailedCause_DECISION_TASK_FAILED_CAUSE_BAD_REQUEST_CANCEL_EXTERNAL_WORKFLOW_EXECUTION_ATTRIBUTES", Ret (Some DecisionTaskFailedCauseBadRequestCancelExternalWorkflowExecutionAttributes));
      ("DecisionTaskFailedCause_DECISION_TASK_FAILED_CAUSE_BAD_CONTINUE_AS_NEW_ATTRIBUTES", Ret (Some DecisionTaskFailedCauseBadContinueAsNewAttributes));
      ("DecisionTaskFailedCause_DECISION_TASK_FAILED_CAUSE_START_TIMER_DUPLICATE_ID", Ret (Some DecisionTaskFailedCauseStartTimerDuplicateID));
      ("DecisionTaskFailedCause_DECISION_TASK_FAILED_CAUSE_RESET_STICKY_TASK_LIST", Ret (Some DecisionTaskFailedCauseResetStickyTasklist));
      ("DecisionTaskFailedCause_DECISION_TASK_FAILED_CAUSE_WORKFLOW_WORKER_UNHANDLED_FAILURE", Ret (Some DecisionTaskFailedCauseWorkflowWorkerUnhandledFailure));
      ("DecisionTaskFailedCause_DECISION_TASK_FAILED_CAUSE_BAD_SIGNAL_WORKFLOW_EXECUTION_ATTRIBUTES", Ret (Some DecisionTaskFailedCauseBadSignalWorkflowExecutionAttributes));
      ("DecisionTaskFailedCause_DECISION_TASK_FAILED_CAUSE_BAD_START_CHILD_EXECUTION_ATTRIBUTES", Ret (Some DecisionTaskFailedCauseBadStartChildExecutionAttributes));
      ("DecisionTaskFailedCause_DECISION_TASK_FAILED_CAUSE_FORCE_CLOSE_DECISION", Ret (Some DecisionTaskFailedCauseForceCloseDecision));
      ("DecisionTaskFailedCause_DECISION_TASK_FAILED_CAUSE_FAILOVER_CLOSE_DECISION", Ret (Some DecisionTaskFailedCauseFailoverCloseDecision));
      ("DecisionTaskFailedCause_DECISION_TASK_FAILED_CAUSE_BAD_SIGNAL_INPUT_SIZE", Ret (Some DecisionTaskFailedCauseBadSignalInputSize));
      ("DecisionTaskFailedCause_DECISION_TASK_FAILED_CAUSE_RESET_WORKFLOW", Ret (Some DecisionTaskFailedCauseResetWorkflow));
      ("DecisionTaskFailedCause_DECISION_TASK_FAILED_CAUSE_BAD_BINARY", Ret (Some DecisionTaskFailedCauseBadBinary));
      ("DecisionTaskFailedCause_DECISION_TASK_FAILED_CAUSE_SCHEDULE_ACTIVITY_DUPLICATE_ID", Ret (Some DecisionTaskFailedCauseScheduleActivityDuplicateID));
      ("DecisionTaskFailedCause_DECISION_TASK_FAILED_CAUSE_BAD_SEARCH_ATTRIBUTES", Ret (Some DecisionTaskFailedCauseBadSearchAttributes)) ]
    (Panic (StringPanic "unexpected enum value")).

Definition thrift_WorkflowExecutionCloseStatus (t : Z) : outcome (option WorkflowExecutionCloseStatus) :=
  switch t
    [ ("WorkflowExecutionCloseStatus_WORKFLOW_EXECUTION_CLOSE_STATUS_INVALID", Ret None);
      ("WorkflowExecutionCloseStatus_WORKFLOW_EXECUTION_CLOSE_STATUS_COMPLETED", Ret (Some WorkflowExecutionCloseStatusCompleted));
      ("WorkflowExecutionCloseStatus_WORKFLOW_EXECUTION_CLOSE_STATUS_FAILED", Ret (Some WorkflowExecutionCloseStatusFailed));
      ("WorkflowExecutionCloseStatus_WORKFLOW_EXECUTION_CLOSE_STATUS_CANCELED", Ret (Some WorkflowExecutionCloseStatusCanceled));
      ("WorkflowExecutionCloseStatus_WORKFLOW_EXECUTION_CLOSE_STATUS_TERMINATED", Ret (Some WorkflowExecutionCloseStatusTerminated));
      ("WorkflowExecutionCloseStatus_WORKFLOW_EXECUTION_CLOSE_STATUS_CONTINUED_AS_NEW", Ret (Some WorkflowExecutionCloseStatusContinuedAsNew));
      ("WorkflowExecutionCloseStatus_WORKFLOW_EXECUTION_CLOSE_STATUS_TIMED_OUT", Ret (Some WorkflowExecutionCloseStatusTimedOut)) ]
    (Panic (StringPanic "unexpected enum value")).

Definition thrift_QueryTaskCompletedType (t : Z) : outcome (option QueryTaskCompletedType) :=
  switch t
    [ ("QueryResultType_QUERY_RESULT_TYPE_INVALID", Ret None);
      ("QueryResultType_QUERY_RESULT_TYPE_ANSWERED", Ret (Some QueryTaskCompletedTypeCompleted));
      ("QueryResultType_QUERY_RESULT_TYPE_FAILED", Ret (Some QueryTaskCompletedTypeFailed)) ]
    (Panic (StringPanic "unexpected enum value")).

Definition thrift_DomainStatus (t : Z) : outcome (option DomainStatus) :=
  switch t
    [ ("DomainStatus_DOMAIN_STATUS_INVALID", Ret None);
      ("DomainStatus_DOMAIN_STATUS_REGISTERED", Ret (Some DomainStatusRegistered));
      ("DomainStatus_DOMAIN_STATUS_DEPRECATED", Ret (Some DomainStatusDeprecated));
      ("DomainStatus_DOMAIN_STATUS_DELETED", Ret (Some DomainStatusDeleted)) ]
    (Panic (StringPanic "unexpected enum value")).

Definition thrift_PendingActivityState (t : Z) : outcome (option PendingActivityState) :=
  switch t
    [ ("PendingActivityState_PENDING_ACTIVITY_STATE_INVALID", Ret None);
      ("PendingActivityState_PENDING_ACTIVITY_STATE_SCHEDULED", Ret (Some PendingActivityStateScheduled));
      ("PendingActivityState_PENDING_ACTIVITY_STATE_STARTED", Ret (Some PendingActivityStateStarted));
      ("PendingActivityState_PENDING_ACTIVITY_STATE_CANCEL_REQUESTED", Ret (Some PendingActivityStateCancelRequested)) ]
    (Panic (StringPanic "unexpected enum value")).

Definition thrift_PendingDecisionState (t : Z) : outcome (option PendingDecisionState) :=
  switch t
    [ ("PendingDecisionState_PENDING_DECISION_STATE_INVALID", Ret None);
      ("PendingDecisionState_PENDING_DECISION_STATE_SCHEDULED", Ret (Some PendingDecisionStateScheduled));
      ("PendingDecisionState_PENDING_DECISION_STATE_STARTED", Ret (Some PendingDecisionStateStarted)) ]
    (Panic (StringPanic "unexpected enum value")).

Definition thrift_IndexedValueType (t : Z) : outcome IndexedValueType :=
  switch t
    [ ("IndexedValueType_INDEXED_VALUE_TYPE_INVALID",
       Panic (StringPanic "received IndexedValueType_INDEXED_VALUE_TYPE_INVALID"));
      ("IndexedValueType_INDEXED_VALUE_TYPE_STRING", Ret IndexedValueTypeString);
      ("IndexedValueType_INDEXED_VALUE_TYPE_KEYWORD", Ret IndexedValueTypeKeyword);
      ("IndexedValueType_INDEXED_VALUE_TYPE_INT", Ret IndexedValueTypeInt);
      ("IndexedValueType_INDEXED_VALUE_TYPE_DOUBLE", Ret IndexedValueTypeDouble);
      ("IndexedValueType_INDEXED_VALUE_TYPE_BOOL", Ret IndexedValueTypeBool);
      ("IndexedValueType_INDEXED_VALUE_TYPE_DATETIME", Ret IndexedValueTypeDatetime) ]
    (Panic (StringPanic "unexpected enum value")).

Definition thrift_EncodingType (t : Z) : outcome (option EncodingType) :=
  switch t
    [ ("EncodingType_ENCODING_TYPE_INVALID", Ret None);
      ("EncodingType_ENCODING_TYPE_THRIFTRW", Ret (Some EncodingTypeThriftRW));
      ("EncodingType_ENCODING_TYPE_JSON", Ret (Some EncodingTypeJSON));
      ("EncodingType_ENCODING_TYPE_PROTO3", Panic (StringPanic "not supported yet")) ]
    (Panic (StringPanic "unexpected enum value")).

Definition thrift_TimeoutType (t : Z) : outcome (option TimeoutType) :=
  switch t
    [ ("TimeoutType_TIMEOUT_TYPE_INVALID", Ret None);
      ("TimeoutType_TIMEOUT_TYPE_START_TO_CLOSE", Ret (Some TimeoutTypeStartToClose));
      ("TimeoutType_TIMEOUT_TYPE_SCHEDULE_TO_START", Ret (Some TimeoutTypeScheduleToStart));
      ("TimeoutType_TIMEOUT_TYPE_SCHEDULE_TO_CLOSE", Ret (Some TimeoutTypeScheduleToClose));
      ("TimeoutType_TIMEOUT_TYPE_HEARTBEAT", Ret (Some TimeoutTypeHeartbeat)) ]
    (Panic (StringPanic "unexpected enum value")).

Definition thrift_DecisionTaskTimedOutCause (t : Z) : outcome (option DecisionTaskTimedOutCause) :=
  switch t
    [ ("DecisionTaskTimedOutCause_DECISION_TASK_TIMED_OUT_CAUSE_INVALID", Ret None);
      ("DecisionTaskTimedOutCause_DECISION_TASK_TIMED_OUT_CAUSE_TIMEOUT", Ret (Some DecisionTaskTimedOutCauseTimeout));
      ("DecisionTaskTimedOutCause_DECISION_TASK_TIMED_OUT_CAUSE_RESET", Ret (Some DecisionTaskTimedOutCauseReset)) ]
    (Panic (StringPanic "unexpected enum value")).

Definition thrift_CancelExternalWorkflowExecutionFailedCause (t : Z) : outcome (option CancelExternalWorkflowExecutionFailedCause) :=
  switch t
    [ ("CancelExternalWorkflowExecutionFailedCause_CANCEL_EXTERNAL_WORKFLOW_EXECUTION_FAILED_CAUSE_INVALID", Ret None);
      ("CancelExternalWorkflowExecutionFailedCause_CANCEL_EXTERNAL_WORKFLOW_EXECUTION_FAILED_CAUSE_UNKNOWN_EXTERNAL_WORKFLOW_EXECUTION", Ret (Some CancelExternalWorkflowExecutionFailedCauseUnknownExternalWorkflowExecution));
      ("CancelExternalWorkflowExecutionFailedCause_CANCEL_EXTERNAL_WORKFLOW_EXECUTION_FAILED_CAUSE_WORKFLOW_ALREADY_COMPLETED", Ret (Some CancelExternalWorkflowExecutionFailedCauseWorkflowAlreadyCompleted)) ]
    (Panic (StringPanic "unexpected enum value")).

Definition thrift_SignalExternalWorkflowExecutionFailedCause (t : Z) : outcome (option SignalExternalWorkflowExecutionFailedCause) :=
  switch t
    [ ("SignalExternalWorkflowExecutionFailedCause_SIGNAL_EXTERNAL_WORKFLOW_EXECUTION_FAILED_CAUSE_INVALID", Ret None);
      ("SignalExternalWorkflowExecutionFailedCause_SIGNAL_EXTERNAL_WORKFLOW_EXECUTION_FAILED_CAUSE_UNKNOWN_EXTERNAL_WORKFLOW_EXECUTION", Ret (Some SignalExternalWorkflowExecutionFailedCauseUnknownExternalWorkflowExecution));
      ("SignalExternalWorkflowExecutionFailedCause_SIGNAL_EXTERNAL_WORKFLOW_EXECUTION_FAILED_CAUSE_WORKFLOW_ALREADY_COMPLETED", Ret (Some SignalExternalWorkflowExecutionFailedCauseWorkflowAlreadyCompleted)) ]
    (Panic (StringPanic "unexpected enum value")).

Definition thrift_ChildWorkflowExecutionFailedCause (t : Z) : outcome (option ChildWorkflowExecutionFailedCause) :=
  switch t
    [ ("ChildWorkflowExecutionFailedCause_CHILD_WORKFLOW_EXECUTION_FAILED_CAUSE_INVALID", Ret None);
      ("ChildWorkflowExecutionFailedCause_CHILD_WORKFLOW_EXECUTION_FAILED_CAUSE_WORKFLOW_ALREADY_RUNNING", Ret (Some ChildWorkflowExecutionFailedCauseWorkflowAlreadyRunning)) ]
    (Panic (StringPanic "unexpected enum value")).

Definition thrift_CronOverlapPolicy (t : Z) : outcome (option CronOverlapPolicy) :=
  switch t
    [ ("CronOverlapPolicy_CRON_OVERLAP_POLICY_INVALID", Ret None);
      ("CronOverlapPolicy_CRON_OVERLAP_POLICY_SKIPPED", Ret (Some CronOverlapPolicySkipped));
      ("CronOverlapPolicy_CRON_OVERLAP_POLICY_BUFFER_ONE", Ret (Some CronOverlapPolicyBufferone)) ]
    (Ret None).

Definition thrift_FailoverType (t : Z) : outcome (option FailoverType) :=
  switch t
    [ ("FailoverType_FAILOVER_TYPE_INVALID", Ret (Some FailoverTypeInvalid));
      ("FailoverType_FAILOVER_TYPE_FORCE", Ret (Some FailoverTypeForce));
      ("FailoverType_FAILOVER_TYPE_GRACEFUL", Ret (Some FailoverTypeGraceful)) ]
    (Ret (Some FailoverTypeInvalid)).

Definition thrift_FailureCategory (t : Z) : outcome (option FailureCategory) :=
  switch t
    [ ("FailureCategory_FAILURE_CATEGORY_INVALID", Ret None);
      ("FailureCategory_FAILURE_CATEGORY_POLL", Ret (Some FailureCategoryPoll));
      ("FailureCategory_FAILURE_CATEGORY_STANDARD", Ret (Some FailureCategoryStandard));
      ("FailureCategory_FAILURE_CATEGORY_FATAL", Ret (Some FailureCategoryFatal)) ]
    (Ret None).

(** ** proto/schedule.go and thrift/schedule.go *)

Definition proto_ScheduleOverlapPolicy (t : option ScheduleOverlapPolicy) : outcome Z :=
  match t with
  | None => Ret (apiv1 "ScheduleOverlapPolicy_SCHEDULE_OVERLAP_POLICY_INVALID")
  | Some ScheduleOverlapPolicySkipNew => Ret (apiv1 "ScheduleOverlapPolicy_SCHEDULE_OVERLAP_POLICY_SKIP_NEW")
  | Some ScheduleOverlapPolicyBuffer => Ret (apiv1 "ScheduleOverlapPolicy_SCHEDULE_OVERLAP_POLICY_BUFFER")
  | Some ScheduleOverlapPolicyConcurrent => Ret (apiv1 "ScheduleOverlapPolicy_SCHEDULE_OVERLAP_POLICY_CONCURRENT")
  | Some ScheduleOverlapPolicyCancelPrevious => Ret (apiv1 "ScheduleOverlapPolicy_SCHEDULE_OVERLAP_POLICY_CANCEL_PREVIOUS")
  | Some ScheduleOverlapPolicyTerminatePrevious => Ret (apiv1 "ScheduleOverlapPolicy_SCHEDULE_OVERLAP_POLICY_TERMINATE_PREVIOUS")
  | Some _ => Ret (apiv1 "ScheduleOverlapPolicy_SCHEDULE_OVERLAP_POLICY_INVALID")
  end.

Definition proto_ScheduleCatchUpPolicy (t : option ScheduleCatchUpPolicy) : outcome Z :=
  match t with
  | None => Ret (apiv1 "ScheduleCatchUpPolicy_SCHEDULE_CATCH_UP_POLICY_INVALID")
  | Some ScheduleCatchUpPolicySkip => Ret (apiv1 "ScheduleCatchUpPolicy_SCHEDULE_CATCH_UP_POLICY_SKIP")
  | Some ScheduleCatchUpPolicyOne => Ret (apiv1 "ScheduleCatchUpPolicy_SCHEDULE_CATCH_UP_POLICY_ONE")
  | Some ScheduleCatchUpPolicyAll => Ret (apiv1 "ScheduleCatchUpPolicy_SCHEDULE_CATCH_UP_POLICY_ALL")
  | Some _ => Ret (apiv1 "ScheduleCatchUpPolicy_SCHEDULE_CATCH_UP_POLICY_INVALID")
  end.

Definition thrift_ScheduleOverlapPolicy (t : Z) : outcome (option ScheduleOverlapPolicy) :=
  switch t
    [ ("ScheduleOverlapPolicy_SCHEDULE_OVERLAP_POLICY_SKIP_NEW",
       Ret (Some ScheduleOverlapPolicySkipNew));
      ("ScheduleOverlapPolicy_SCHEDULE_OVERLAP_POLICY_BUFFER",
       Ret (Some ScheduleOverlapPolicyBuffer));
      ("ScheduleOverlapPolicy_SCHEDULE_OVERLAP_POLICY_CONCURRENT",
       Ret (Some ScheduleOverlapPolicyConcurrent));
      ("ScheduleOverlapPolicy_SCHEDULE_OVERLAP_POLICY_CANCEL_PREVIOUS",
       Ret (Some ScheduleOverlapPolicyCancelPrevious));
      ("ScheduleOverlapPolicy_SCHEDULE_OVERLAP_POLICY_TERMINATE_PREVIOUS",
       Ret (Some ScheduleOverlapPolicyTerminatePrevious)) ]
    (Ret (Some ScheduleOverlapPolicyInvalid)).

Definition thrift_ScheduleCatchUpPolicy (t : Z) : outcome (option ScheduleCatchUpPolicy) :=
  switch t
    [ ("ScheduleCatchUpPolicy_SCHEDULE_CATCH_UP_POLICY_SKIP",
       Ret (Some ScheduleCatchUpPolicySkip));
      ("ScheduleCatchUpPolicy_SCHEDULE_CATCH_UP_POLICY_ONE",
       Ret (Some ScheduleCatchUpPolicyOne));
      ("ScheduleCatchUpPolicy_SCHEDULE_CATCH_UP_POLICY_ALL",
       Ret (Some ScheduleCatchUpPolicyAll)) ]
    (Ret (Some ScheduleCatchUpPolicyInvalid)).

(** ** Round trips *)

(** The constants of each enum have distinct values. *)
Class Apiv1Distinct : Prop :=
  apiv1_distinct names : names ∈ enum_names → NoDup (apiv1 <$> names).

Lemma switch_hit {A} n (r : outcome A) cases otherwise :
  NoDup (apiv1 <$> cases.*1) → (n, r) ∈ cases → switch (apiv1 n) cases otherwise = r.
Proof.
  induction cases as [|[n' r'] cases IH]; csimpl; [set_solver|].
  intros (Hn & Hnd)%NoDup_cons Hin. case_decide as Heq.
  - apply elem_of_cons in Hin as [[= _ ->]|Hin]; [done|]. exfalso. apply Hn. rewrite <- Heq.
    apply list_elem_of_fmap_2, (list_elem_of_fmap_2 fst _ (n, r)), Hin.
  - apply elem_of_cons in Hin as [[= -> _]|Hin]; [done|]. by apply IH.
Qed.

Lemma switch_miss {A} t cases (otherwise : outcome A) :
  t ∉ apiv1 <$> cases.*1 → switch t cases otherwise = otherwise.
Proof.
  induction cases as [|[n r] cases IH]; simpl; [done|]. intros [Hn Hc]%not_elem_of_cons.
  rewrite decide_False by done. auto.
Qed.

(** [to_proto] and [to_thrift] are inverse to each other, on the declared thrift
    values and on the constants of the proto enum, less those that are [refused]
    with a panic of their own. *)
Record translates {A} (declared : A → Prop) (to_proto : A → outcome Z)
    (to_thrift : Z → outcome A) (refused : list (string * string)) (names : list string)
    : Prop := {
  tr_forward x : declared x → ∃ z, to_proto x = Ret z ∧ to_thrift z = Ret x;
  tr_backward n : n ∈ names → n ∉ refused.*1 →
    ∃ x, to_thrift (apiv1 n) = Ret x ∧ to_proto x = Ret (apiv1 n);
  tr_refused n m : (n, m) ∈ refused →
    n ∈ names ∧ to_thrift (apiv1 n) = Panic (StringPanic m) }.

Context `{!Apiv1Distinct}.

(** The result of the case for the constant [n]. *)
Fixpoint case_of {A} (n : string) (cases : list (string * outcome A)) : option (outcome A) :=
  match cases with
  | [] => None
  | (n', r) :: cases => if decide (n = n') then Some r else case_of n cases
  end.

Lemma case_of_elem {A} n (r : outcome A) cases : case_of n cases = Some r → (n, r) ∈ cases.
Proof.
  induction cases as [|[n' r'] cases IH]; simpl; [done|]. case_decide as Hn.
  - intros [= ->]. subst. left.
  - intros Hr. right. auto.
Qed.

Lemma enum_nodup i : NoDup (apiv1 <$> nth i enum_names []).
Proof.
  destruct (decide (i < length enum_names)) as [Hi|Hi].
  - apply apiv1_distinct. apply list_elem_of_In, nth_In, Hi.
  - rewrite nth_overflow by lia. constructor.
Qed.

Lemma switch_case {A} i n (r : outcome A) cases otherwise :
  nth i enum_names [] = cases.*1 → case_of n cases = Some r →
  switch (apiv1 n) cases otherwise = r.
Proof.
  intros Hi Hr. apply switch_hit; [|by apply case_of_elem]. rewrite <- Hi. apply enum_nodup.
Qed.

(** For a switch that leaves the first constant to its default. *)
Lemma switch_case_default {A} i n0 n (r : outcome A) cases otherwise :
  nth i enum_names [] = n0 :: cases.*1 → case_of n cases = Some r →
  switch (apiv1 n) cases otherwise = r.
Proof.
  intros Hi Hr. apply switch_hit; [|by apply case_of_elem].
  pose proof (enum_nodup i) as Hd. rewrite Hi in Hd. by apply NoDup_cons in Hd as [_ ?].
Qed.

Lemma switch_default {A} i n (cases : list (string * outcome A)) otherwise :
  nth i enum_names [] = n :: cases.*1 → switch (apiv1 n) cases otherwise = otherwise.
Proof.
  intros Hi. apply switch_miss. pose proof (enum_nodup i) as Hd. rewrite Hi in Hd.
  by apply NoDup_cons in Hd as [? _].
Qed.

(** [i] is the position of the enum in [enum_names]. *)
Ltac hit i :=
  first [ apply (switch_case i); vm_compute; reflexivity
        | eapply (switch_case_default i); vm_compute; reflexivity
        | apply (switch_default i); vm_compute; reflexivity ].

Ltac solve_translates i :=
  split;
  [ intros x Hx; first [destruct x as [[]|] | destruct x]; try done;
    (eexists; split; [reflexivity|hit i])
  | intros n Hn Hr; cbn [nth enum_names] in Hn;
    repeat (apply elem_of_cons in Hn as [-> |Hn];
      [first [exfalso; by apply Hr; simpl; rewrite !elem_of_cons; auto
             |eexists; split; [hit i|reflexivity]]|]);
    inversion Hn
  | intros n m Hn; repeat (apply elem_of_cons in Hn as [[= -> ->]|Hn];
      [split; [cbn [nth enum_names]; rewrite !elem_of_cons; auto 10|hit i]|]);
    inversion Hn ].

Definition declared_TaskListKind (t : option TaskListKind) : Prop :=
  match t with Some (TaskListKindUnknown _) => False | _ => True end.

Lemma translates_TaskListKind :
  translates declared_TaskListKind proto_TaskListKind thrift_TaskListKind [] (nth 0 enum_names []).
Proof. solve_translates 0. Qed.

Definition declared_TaskListType (t : option TaskListType) : Prop :=
  match t with Some (TaskListTypeUnknown _) => False | _ => True end.

Lemma translates_TaskListType :
  translates declared_TaskListType proto_TaskListType thrift_TaskListType [] (nth 1 enum_names []).
Proof. solve_translates 1. Qed.

Definition declared_EventFilterType (t : option HistoryEventFilterType) : Prop :=
  match t with Some (HistoryEventFilterTypeUnknown _) => False | _ => True end.

Lemma translates_EventFilterType :
  translates declared_EventFilterType proto_EventFilterType thrift_EventFilterType [] (nth 2 enum_names []).
Proof. solve_translates 2. Qed.

Definition declared_QueryRejectCondition (t : option QueryRejectCondition) : Prop :=
  match t with Some (QueryRejectConditionUnknown _) => False | _ => True end.

Lemma translates_QueryRejectCondition :
  translates declared_QueryRejectCondition proto_QueryRejectCondition thrift_QueryRejectCondition [] (nth 3 enum_names []).
Proof. solve_translates 3. Qed.

Definition declared_QueryConsistencyLevel (t : option QueryConsistencyLevel) : Prop :=
  match t with Some (QueryConsistencyLevelUnknown _) => False | _ => True end.

Lemma translates_QueryConsistencyLevel :
  translates declared_QueryConsistencyLevel proto_QueryConsistencyLevel thrift_QueryConsistencyLevel [] (nth 4 enum_names []).
Proof. solve_translates 4. Qed.

Definition declared_ContinueAsNewInitiator (t : option ContinueAsNewInitiator) : Prop :=
  match t with Some (ContinueAsNewInitiatorUnknown _) => False | _ => True end.

Lemma translates_ContinueAsNewInitiator :
  translates declared_ContinueAsNewInitiator proto_ContinueAsNewInitiator thrift_ContinueAsNewInitiator [] (nth 5 enum_names []).
Proof. solve_translates 5. Qed.

Definition declared_WorkflowIDReusePolicy (t : option WorkflowIdReusePolicy) : Prop :=
  match t with Some (WorkflowIdReusePolicyUnknown _) => False | _ => True end.

Lemma translates_WorkflowIDReusePolicy :
  translates declared_WorkflowIDReusePolicy proto_WorkflowIDReusePolicy thrift_WorkflowIDReusePolicy [] (nth 6 enum_names []).
Proof. solve_translates 6. Qed.

Definition declared_QueryResultType (t : option QueryResultType) : Prop :=
  match t with Some (QueryResultTypeUnknown _) => False | _ => True end.

Lemma translates_QueryResultType :
  translates declared_QueryResultType proto_QueryResultType thrift_QueryResultType [] (nth 7 enum_names []).
Proof. solve_translates 7. Qed.

Definition declared_ArchivalStatus (t : option ArchivalStatus) : Prop :=
  match t with Some (ArchivalStatusUnknown _) => False | _ => True end.

Lemma translates_ArchivalStatus :
  translates declared_ArchivalStatus proto_ArchivalStatus thrift_ArchivalStatus [] (nth 8 enum_names []).
Proof. solve_translates 8. Qed.

Definition declared_ParentClosePolicy (t : option ParentClosePolicy) : Prop :=
  match t with Some (ParentClosePolicyUnknown _) => False | _ => True end.

Lemma translates_ParentClosePolicy :
  translates declared_ParentClosePolicy proto_ParentClosePolicy thrift_ParentClosePolicy [] (nth 9 enum_names []).
Proof. solve_translates 9. Qed.

Definition declared_DecisionTaskFailedCause (t : option DecisionTaskFailedCause) : Prop :=
  match t with Some (DecisionTaskFailedCauseUnknown _) => False | _ => True end.

Lemma translates_DecisionTaskFailedCause :
  translates declared_DecisionTaskFailedCause proto_DecisionTaskFailedCause thrift_DecisionTaskFailedCause [] (nth 10 enum_names []).
Proof. solve_translates 10. Qed.

Definition declared_WorkflowExecutionCloseStatus (t : option WorkflowExecutionCloseStatus) : Prop :=
  match t with Some (WorkflowExecutionCloseStatusUnknown _) => False | _ => True end.

Lemma translates_WorkflowExecutionCloseStatus :
  translates declared_WorkflowExecutionCloseStatus proto_WorkflowExecutionCloseStatus thrift_WorkflowExecutionCloseStatus [] (nth 11 enum_names []).
Proof. solve_translates 11. Qed.

Definition declared_QueryTaskCompletedType (t : option QueryTaskCompletedType) : Prop :=
  match t with Some (QueryTaskCompletedTypeUnknown _) => False | _ => True end.

Lemma translates_QueryTaskCompletedType :
  translates declared_QueryTaskCompletedType proto_QueryTaskCompletedType thrift_QueryTaskCompletedType [] (nth 12 enum_names []).
Proof. solve_translates 12. Qed.

Definition declared_DomainStatus (t : option DomainStatus) : Prop :=
  match t with Some (DomainStatusUnknown _) => False | _ => True end.

Lemma translates_DomainStatus :
  translates declared_DomainStatus proto_DomainStatus thrift_DomainStatus [] (nth 13 enum_names []).
Proof. solve_translates 13. Qed.

Definition declared_PendingActivityState (t : option PendingActivityState) : Prop :=
  match t with Some (PendingActivityStateUnknown _) => False | _ => True end.

Lemma translates_PendingActivityState :
  translates declared_PendingActivityState proto_PendingActivityState thrift_PendingActivityState [] (nth 14 enum_names []).
Proof. solve_translates 14. Qed.

Definition declared_PendingDecisionState (t : option PendingDecisionState) : Prop :=
  match t with Some (PendingDecisionStateUnknown _) => False | _ => True end.

Lemma translates_PendingDecisionState :
  translates declared_PendingDecisionState proto_PendingDecisionState thrift_PendingDecisionState [] (nth 15 enum_names []).
Proof. solve_translates 15. Qed.

Definition declared_IndexedValueType (t : IndexedValueType) : Prop :=
  match t with IndexedValueTypeUnknown _ => False | _ => True end.

Definition refused_IndexedValueType : list (string * string) :=
  [("IndexedValueType_INDEXED_VALUE_TYPE_INVALID",
    "received IndexedValueType_INDEXED_VALUE_TYPE_INVALID")].

Lemma translates_IndexedValueType :
  translates declared_IndexedValueType proto_IndexedValueType thrift_IndexedValueType refused_IndexedValueType (nth 16 enum_names []).
Proof. solve_translates 16. Qed.

Definition declared_EncodingType (t : option EncodingType) : Prop :=
  match t with Some (EncodingTypeUnknown _) => False | _ => True end.

Definition refused_EncodingType : list (string * string) :=
  [("EncodingType_ENCODING_TYPE_PROTO3", "not supported yet")].

Lemma translates_EncodingType :
  translates declared_EncodingType proto_EncodingType thrift_EncodingType refused_EncodingType (nth 17 enum_names []).
Proof. solve_translates 17. Qed.

Definition declared_TimeoutType (t : option TimeoutType) : Prop :=
  match t with Some (TimeoutTypeUnknown _) => False | _ => True end.

Lemma translates_TimeoutType :
  translates declared_TimeoutType proto_TimeoutType thrift_TimeoutType [] (nth 18 enum_names []).
Proof. solve_translates 18. Qed.

Definition declared_DecisionTaskTimedOutCause (t : option DecisionTaskTimedOutCause) : Prop :=
  match t with Some (DecisionTaskTimedOutCauseUnknown _) => False | _ => True end.

Lemma translates_DecisionTaskTimedOutCause :
  translates declared_DecisionTaskTimedOutCause proto_DecisionTaskTimedOutCause thrift_DecisionTaskTimedOutCause [] (nth 19 enum_names []).
Proof. solve_translates 19. Qed.

Definition declared_CancelExternalWorkflowExecutionFailedCause (t : option CancelExternalWorkflowExecutionFailedCause) : Prop :=
  match t with Some (CancelExternalWorkflowExecutionFailedCauseUnknown _) => False | _ => True end.

Lemma translates_CancelExternalWorkflowExecutionFailedCause :
  translates declared_CancelExternalWorkflowExecutionFailedCause proto_CancelExternalWorkflowExecutionFailedCause thrift_CancelExternalWorkflowExecutionFailedCause [] (nth 20 enum_names []).
Proof. solve_translates 20. Qed.

Definition declared_SignalExternalWorkflowExecutionFailedCause (t : option SignalExternalWorkflowExecutionFailedCause) : Prop :=
  match t with Some (SignalExternalWorkflowExecutionFailedCauseUnknown _) => False | _ => True end.

Lemma translates_SignalExternalWorkflowExecutionFailedCause :
  translates declared_SignalExternalWorkflowExecutionFailedCause proto_SignalExternalWorkflowExecutionFailedCause thrift_SignalExternalWorkflowExecutionFailedCause [] (nth 21 enum_names []).
Proof. solve_translates 21. Qed.

Definition declared_ChildWorkflowExecutionFailedCause (t : option ChildWorkflowExecutionFailedCause) : Prop :=
  match t with Some (ChildWorkflowExecutionFailedCauseUnknown _) => False | _ => True end.

Lemma translates_ChildWorkflowExecutionFailedCause :
  translates declared_ChildWorkflowExecutionFailedCause proto_ChildWorkflowExecutionFailedCause thrift_ChildWorkflowExecutionFailedCause [] (nth 22 enum_names []).
Proof. solve_translates 22. Qed.

Definition declared_CronOverlapPolicy (t : option CronOverlapPolicy) : Prop :=
  match t with Some (CronOverlapPolicyUnknown _) => False | _ => True end.

Lemma translates_CronOverlapPolicy :
  translates declared_CronOverlapPolicy proto_CronOverlapPolicy thrift_CronOverlapPolicy [] (nth 23 enum_names []).
Proof. solve_translates 23. Qed.

Definition declared_FailoverType (t : option FailoverType) : Prop :=
  match t with Some (FailoverTypeUnknown _) | None => False | _ => True end.

Lemma translates_FailoverType :
  translates declared_FailoverType proto_FailoverType thrift_FailoverType [] (nth 24 enum_names []).
Proof. solve_translates 24. Qed.

Definition declared_FailureCategory (t : option FailureCategory) : Prop :=
  match t with Some (FailureCategoryUnknown _) => False | _ => True end.

Lemma translates_FailureCategory :
  translates declared_FailureCategory proto_FailureCategory thrift_FailureCategory [] (nth 25 enum_names []).
Proof. solve_translates 25. Qed.

Definition declared_ScheduleOverlapPolicy (t : option ScheduleOverlapPolicy) : Prop :=
  match t with Some (ScheduleOverlapPolicyUnknown _) | None => False | _ => True end.

Lemma translates_ScheduleOverlapPolicy :
  translates declared_ScheduleOverlapPolicy proto_ScheduleOverlapPolicy thrift_ScheduleOverlapPolicy [] (nth 26 enum_names []).
Proof. solve_translates 26. Qed.

Definition declared_ScheduleCatchUpPolicy (t : option ScheduleCatchUpPolicy) : Prop :=
  match t with Some (ScheduleCatchUpPolicyUnknown _) | None => False | _ => True end.

Lemma translates_ScheduleCatchUpPolicy :
  translates declared_ScheduleCatchUpPolicy proto_ScheduleCatchUpPolicy thrift_ScheduleCatchUpPolicy [] (nth 27 enum_names []).
Proof. solve_translates 27. Qed.


Definition unexpected {A} : outcome A := Panic (StringPanic "unexpected enum value").

(** A proto value that is none of the declared constants is never taken
    for a declared one: the translation panics, except for the five enums that
    read it as the absent or invalid value. *)
Theorem enums_unexpected_wire_value :
  (∀ t, t ∉ apiv1 <$> nth 0 enum_names [] → thrift_TaskListKind t = unexpected)
  ∧ (∀ t, t ∉ apiv1 <$> nth 1 enum_names [] → thrift_TaskListType t = unexpected)
  ∧ (∀ t, t ∉ apiv1 <$> nth 2 enum_names [] → thrift_EventFilterType t = unexpected)
  ∧ (∀ t, t ∉ apiv1 <$> nth 3 enum_names [] → thrift_QueryRejectCondition t = unexpected)
  ∧ (∀ t, t ∉ apiv1 <$> nth 4 enum_names [] → thrift_QueryConsistencyLevel t = unexpected)
  ∧ (∀ t, t ∉ apiv1 <$> nth 5 enum_names [] → thrift_ContinueAsNewInitiator t = unexpected)
  ∧ (∀ t, t ∉ apiv1 <$> nth 6 enum_names [] → thrift_WorkflowIDReusePolicy t = unexpected)
  ∧ (∀ t, t ∉ apiv1 <$> nth 7 enum_names [] → thrift_QueryResultType t = unexpected)
  ∧ (∀ t, t ∉ apiv1 <$> nth 8 enum_names [] → thrift_ArchivalStatus t = unexpected)
  ∧ (∀ t, t ∉ apiv1 <$> nth 9 enum_names [] → thrift_ParentClosePolicy t = unexpected)
  ∧ (∀ t, t ∉ apiv1 <$> nth 10 enum_names [] → thrift_DecisionTaskFailedCause t = unexpected)
  ∧ (∀ t, t ∉ apiv1 <$> nth 11 enum_names [] → thrift_WorkflowExecutionCloseStatus t = unexpected)
  ∧ (∀ t, t ∉ apiv1 <$> nth 12 enum_names [] → thrift_QueryTaskCompletedType t = unexpected)
  ∧ (∀ t, t ∉ apiv1 <$> nth 13 enum_names [] → thrift_DomainStatus t = unexpected)
  ∧ (∀ t, t ∉ apiv1 <$> nth 14 enum_names [] → thrift_PendingActivityState t = unexpected)
  ∧ (∀ t, t ∉ apiv1 <$> nth 15 enum_names [] → thrift_PendingDecisionState t = unexpected)
  ∧ (∀ t, t ∉ apiv1 <$> nth 16 enum_names [] → thrift_IndexedValueType t = unexpected)
  ∧ (∀ t, t ∉ apiv1 <$> nth 17 enum_names [] → thrift_EncodingType t = unexpected)
  ∧ (∀ t, t ∉ apiv1 <$> nth 18 enum_names [] → thrift_TimeoutType t = unexpected)
  ∧ (∀ t, t ∉ apiv1 <$> nth 19 enum_names [] → thrift_DecisionTaskTimedOutCause t = unexpected)
  ∧ (∀ t, t ∉ apiv1 <$> nth 20 enum_names [] → thrift_CancelExternalWorkflowExecutionFailedCause t = unexpected)
  ∧ (∀ t, t ∉ apiv1 <$> nth 21 enum_names [] → thrift_SignalExternalWorkflowExecutionFailedCause t = unexpected)
  ∧ (∀ t, t ∉ apiv1 <$> nth 22 enum_names [] → thrift_ChildWorkflowExecutionFailedCause t = unexpected)
  ∧ (∀ t, t ∉ apiv1 <$> nth 23 enum_names [] → thrift_CronOverlapPolicy t = Ret None)
  ∧ (∀ t, t ∉ apiv1 <$> nth 24 enum_names [] → thrift_FailoverType t = Ret (Some FailoverTypeInvalid))
  ∧ (∀ t, t ∉ apiv1 <$> nth 25 enum_names [] → thrift_FailureCategory t = Ret None)
  ∧ (∀ t, t ∉ apiv1 <$> nth 26 enum_names [] → thrift_ScheduleOverlapPolicy t = Ret (Some ScheduleOverlapPolicyInvalid))
  ∧ (∀ t, t ∉ apiv1 <$> nth 27 enum_names [] → thrift_ScheduleCatchUpPolicy t = Ret (Some ScheduleCatchUpPolicyInvalid)).
Proof. split_and!; intros t Ht; apply switch_miss; first [exact Ht|by apply not_elem_of_cons in Ht as [_ ?]]. Qed.

End enums.

(** ** The hypothesis can hold *)

Definition sample_apiv1 (name : string) : Z := Z.pos (encode name).

Lemma sample_apiv1_distinct : Apiv1Distinct sample_apiv1.
Proof.
  intros names Hn. apply NoDup_fmap_2; [intros n n' [= H]; by apply (inj encode)|].
  assert (forallb (λ l : list string, bool_decide (NoDup l)) enum_names = true) as Hall
    by (vm_compute; reflexivity).
  rewrite forallb_forall in Hall. apply (bool_decide_eq_true_1 (NoDup names)), Hall.
  by apply list_elem_of_In.
Qed.


Lemma enums_unexpected_wire_value_witness :
  thrift_TaskListKind sample_apiv1 (-1) = unexpected.
Proof.
  apply (enums_unexpected_wire_value sample_apiv1).
  intros Hin. vm_compute in Hin. repeat (inversion Hin as [|? ? ? Hin']; subst; clear Hin; rename Hin' into Hin).
Defined.
