(* ===== verification/Channels.v ===== *)
(** * Workflow channels, futures and selectors

    internal/internal_workflow.go: the channels, futures, selectors and wait
    groups with which the coroutines of a workflow communicate.  Coroutines run
    one at a time, so an operation is one step up to the point where it yields;
    an operation that blocks is a step that registers its callback and a step
    that resumes it.

    A callback is a closure over variables of the operation that created it:
    the variables live in the store ([cells] for a blocked [Receive], [consumed]
    for a blocked [Send], [sessions] for a running [Select]), and the callback is
    a value that names them. *)

From stdpp Require Import base list gmap strings.
From S2P Require Import Prelude.

(** What an operation of a coroutine reached: its result, or [state.yield]. *)
Inductive progress (A : Type) :=
| Done (a : A)
| Blocked.
Arguments Done {A} a.
Arguments Blocked {A}.

Section channels.
Context {V : Type}.

(** An [interface{}] is nil or a value; an [error] is nil or a message. *)
Abbreviation value := (option V).
Abbreviation error := (option string).

(** ** Data *)

Inductive receiveCallback :=
| rcvCell (cell : nat)                    (** of [Receive] *)
| rcvSelect (session case channel : nat)  (** of a receive case of [Select] *)
| rcvFuture (session case : nat).         (** of a future case of [Select] *)

Inductive sendCallback :=
| sndCell (cell : nat) (v : value)              (** of [Send] *)
| sndSelect (session case : nat) (v : value).   (** of a send case of [Select] *)

Global Instance receiveCallback_eq_dec : EqDecision receiveCallback.
Proof. solve_decision. Defined.
(** Send callbacks are compared by identity: the variables they name. *)
Definition send_id (b : sendCallback) : nat + nat * nat :=
  match b with sndCell k _ => inl k | sndSelect s i _ => inr (s, i) end.
Definition send_value (b : sendCallback) : value :=
  match b with sndCell _ v | sndSelect _ _ v => v end.

Record channelImpl := Channel {
  ch_size : nat;
  buffer : list value;
  blockedSends : list sendCallback;
  blockedReceives : list receiveCallback;
  closed : bool;
  recValue : option value }.

Record futureImpl := Future {
  fut_value : value;
  fut_err : error;
  ready : bool;
  fut_channel : nat;
  chained : list nat }.

(** The variables of a blocked [Receive]: [hasResult], [result] and [more]. *)
Record receiveCell := Cell { hasResult : bool; result : value; cell_more : bool }.

(** [readyBranch] of a [Select], once it is not nil. *)
Inductive branch :=
| branchDone                                       (** the empty function *)
| branchReceive (case channel : nat) (v : value) (more : bool)
| branchSend (case : nat)
| branchFuture (case : nat).

Record store := Store {
  channels : gmap nat channelImpl;
  futures : gmap nat futureImpl;
  cells : gmap nat receiveCell;
  consumed : gmap nat bool;
  sessions : gmap nat (option branch) }.

Implicit Types (w : store) (c : nat) (ch : channelImpl) (v : value).

Definition set_channels x w := Store x (futures w) (cells w) (consumed w) (sessions w).
Definition set_futures x w := Store (channels w) x (cells w) (consumed w) (sessions w).
Definition set_cells x w := Store (channels w) (futures w) x (consumed w) (sessions w).
Definition set_consumed x w := Store (channels w) (futures w) (cells w) x (sessions w).
Definition set_sessions x w := Store (channels w) (futures w) (cells w) (consumed w) x.

Definition set_buffer x ch :=
  Channel (ch_size ch) x (blockedSends ch) (blockedReceives ch) (closed ch) (recValue ch).
Definition set_sends x ch :=
  Channel (ch_size ch) (buffer ch) x (blockedReceives ch) (closed ch) (recValue ch).
Definition set_receives x ch :=
  Channel (ch_size ch) (buffer ch) (blockedSends ch) x (closed ch) (recValue ch).
Definition set_closed ch :=
  Channel (ch_size ch) (buffer ch) (blockedSends ch) (blockedReceives ch) true (recValue ch).
Definition set_recValue x ch :=
  Channel (ch_size ch) (buffer ch) (blockedSends ch) (blockedReceives ch) (closed ch) x.

Definition channel c : M store channelImpl :=
  w ← get; match channels w !! c with Some ch => mret ch | None => throw NilDereference end.
Definition update c (f : channelImpl → channelImpl) : M store unit :=
  modify (λ w, set_channels (alter f c (channels w)) w).
Definition future f : M store futureImpl :=
  w ← get; match futures w !! f with Some x => mret x | None => throw NilDereference end.

(** [NewBufferedChannel]; an unbuffered channel has size 0.  A negative size, which
    the int of the source allows, is 0 here: it fails the same tests. *)
Definition NewBufferedChannel c (size : nat) : M store unit :=
  modify (λ w, set_channels (<[c := Channel size [] [] [] false None]> (channels w)) w).
Definition NewChannel c : M store unit := NewBufferedChannel c 0.
Definition NewFuture f c : M store unit :=
  NewChannel c;;
  modify (λ w, set_futures (<[f := Future None None false c []]> (futures w)) w).

(** ** Calling a callback *)

(** [callback.fn(v, more)] *)
Definition call_receive (cb : receiveCallback) v (more : bool) : M store bool :=
  w ← get;
  match cb with
  | rcvCell k => modify (set_cells (<[k := Cell true v more]> (cells w)));; mret true
  | rcvSelect s i c =>
      match sessions w !! s with
      | Some (Some _) => mret false
      | _ => modify (set_sessions (<[s := Some (branchReceive i c v more)]> (sessions w)));; mret true
      end
  | rcvFuture s i =>
      match sessions w !! s with
      | Some (Some _) => mret false
      | _ => modify (set_sessions (<[s := Some (branchFuture i)]> (sessions w)));; mret true
      end
  end.

(** [b.fn()] *)
Definition call_send (b : sendCallback) : M store bool :=
  w ← get;
  match b with
  | sndCell k _ => modify (set_consumed (<[k := true]> (consumed w)));; mret true
  | sndSelect s i _ =>
      match sessions w !! s with
      | Some (Some _) => mret false
      | _ => modify (set_sessions (<[s := Some (branchSend i)]> (sessions w)));; mret true
      end
  end.

(** ** Channels *)

(** [for len(c.blockedSends) > 0 { ...; if b.fn() { ... } }]: takes the sends
    out of the list until one is accepted, and returns it. *)
Fixpoint take_send (sends : list sendCallback) c : M store (option sendCallback) :=
  match sends with
  | [] => mret None
  | b :: sends =>
      update c (set_sends sends);;
      ok ← call_send b;
      if (ok : bool) then mret (Some b) else take_send sends c
  end.

(** Returns the value, [ok] and [more]. *)
Definition receiveAsyncImpl c (callback : option receiveCallback) : M store (value * bool * bool) :=
  ch ← channel c;
  match recValue ch with
  | Some r => update c (set_recValue None);; mret (r, true, true)
  | None =>
      match buffer ch with
      | r :: buffer' =>
          update c (set_buffer buffer');;
          b ← take_send (blockedSends ch) c;
          match (b : option sendCallback) with
          | Some b => update c (λ ch, set_buffer (buffer ch ++ [send_value b]) ch)
          | None => mret tt
          end;;
          mret (r, true, true)
      | [] =>
          if closed ch then mret (None, false, false) else
          b ← take_send (blockedSends ch) c;
          match (b : option sendCallback) with
          | Some b => mret (send_value b, true, true)
          | None =>
              match callback with
              | Some cb => update c (λ ch, set_receives (blockedReceives ch ++ [cb]) ch)
              | None => mret tt
              end;;
              mret (None, false, true)
          end
      end
  end.

(** [for len(c.blockedReceives) > 0 { ...; if blockedGet(v, true) ... }] *)
Fixpoint give_receive (receives : list receiveCallback) c v : M store bool :=
  match receives with
  | [] => mret false
  | cb :: receives =>
      update c (set_receives receives);;
      ok ← call_receive cb v true;
      if (ok : bool) then mret true else give_receive receives c v
  end.

Definition sendAsyncImpl c v (pair : option sendCallback) : M store bool :=
  ch ← channel c;
  if closed ch then throw (StringPanic "Closed channel") else
  taken ← give_receive (blockedReceives ch) c v;
  if (taken : bool) then mret true else
  if decide (length (buffer ch) < ch_size ch) then
    update c (λ ch, set_buffer (buffer ch ++ [v]) ch);; mret true
  else
    match pair with
    | Some b => update c (λ ch, set_sends (blockedSends ch ++ [b]) ch)
    | None => mret tt
    end;;
    mret false.

Definition SendAsync c v : M store bool := sendAsyncImpl c v None.

(** [Close] calls a copy of the list of callbacks, with their results unused. *)
Fixpoint call_all (receives : list receiveCallback) : M store unit :=
  match receives with
  | [] => mret tt
  | cb :: receives => call_receive cb None false;; call_all receives
  end.

Definition Close c : M store unit :=
  ch ← channel c; update c set_closed;; call_all (blockedReceives ch).

(** The first occurrence is removed. *)
Fixpoint remove_first {A} (same : A → bool) (l : list A) : list A :=
  match l with
  | [] => []
  | x :: l => if same x then l else x :: remove_first same l
  end.

Definition removeReceiveCallback c (callback : receiveCallback) : M store unit :=
  update c (λ ch, set_receives
    (remove_first (λ cb, bool_decide (callback = cb)) (blockedReceives ch)) ch).

Definition removeSendCallback c (callback : sendCallback) : M store unit :=
  update c (λ ch, set_sends
    (remove_first (λ b, bool_decide (send_id callback = send_id b)) (blockedSends ch)) ch).

(** ** Blocking operations *)

(** [assign] says whether [decodeAndAssignValue] can store a value through the
    pointer that the caller passed; a value that it cannot store is dropped. *)
Section receive.
Context (assign : value → bool).

(** One turn of the outer loop of [Receive] with its repetitions; [k] is the
    cell of this call.  The result is the value assigned, if any, and [more]. *)
Fixpoint Receive_attempt (fuel : nat) c (k : nat) : M store (progress (option value * bool)) :=
  match fuel with
  | 0 => throw OutOfFuel
  | S fuel =>
      modify (λ w, set_cells (alter (λ x, Cell false (result x) (cell_more x)) k (cells w)) w);;
      r ← receiveAsyncImpl c (Some (rcvCell k));
      let '(v, ok, m) := r : value * bool * bool in
      if negb ok && negb m then mret (Done (None, m))
      else if ok || negb m then
        if assign v then mret (Done (Some v, m)) else Receive_attempt fuel c k
      else mret Blocked
  end.

(** The call, and what the coroutine does when it is scheduled again. *)
Definition Receive (fuel : nat) c (k : nat) : M store (progress (option value * bool)) :=
  modify (λ w, set_cells (<[k := Cell false None false]> (cells w)) w);;
  Receive_attempt fuel c k.

Definition Receive_resume (fuel : nat) c (k : nat) : M store (progress (option value * bool)) :=
  w ← get;
  match cells w !! k with
  | Some x =>
      if hasResult x then
        if assign (result x) then mret (Done (Some (result x), cell_more x))
        else Receive_attempt fuel c k
      else mret Blocked
  | None => throw NilDereference
  end.

(** Returns the value assigned, if any, [ok] and [more]. *)
Fixpoint ReceiveAsyncWithMoreFlag (fuel : nat) c : M store (option value * bool * bool) :=
  match fuel with
  | 0 => throw OutOfFuel
  | S fuel =>
      r ← receiveAsyncImpl c None;
      let '(v, ok, more) := r : value * bool * bool in
      if negb ok && negb more then mret (None, ok, more)
      else if assign v then mret (Some v, ok, more)
      else ReceiveAsyncWithMoreFlag fuel c
  end.

End receive.

Definition Send_resume c (k : nat) : M store (progress unit) :=
  w ← get;
  if default false (consumed w !! k) then mret (Done tt)
  else
    ch ← channel c;
    if closed ch then throw (StringPanic "Closed channel") else mret Blocked.

Definition Send c (k : nat) v : M store (progress unit) :=
  modify (λ w, set_consumed (<[k := false]> (consumed w)) w);;
  ok ← sendAsyncImpl c v (Some (sndCell k v));
  if (ok : bool) then mret (Done tt) else Send_resume c k.

(** ** Futures *)

(** [f.channel.Close()] and the futures chained to [f]; [fuel] bounds the
    depth of the chain. *)
Fixpoint Set_ (fuel : nat) f v (err : error) : M store unit :=
  match fuel with
  | 0 => throw OutOfFuel
  | S fuel =>
      x ← future f;
      if ready x then throw (StringPanic "already set") else
      modify (λ w, set_futures (<[f := Future v err true (fut_channel x) (chained x)]> (futures w)) w);;
      Close (fut_channel x);;
      let fix set_all (l : list nat) : M store unit :=
        match l with
        | [] => mret tt
        | g :: l => Set_ fuel g v err;; set_all l
        end in
      set_all (chained x)
  end.

Definition SetValue (fuel : nat) f v : M store unit :=
  x ← future f;
  if ready x then throw (StringPanic "already set") else Set_ fuel f v None.

Definition SetError (fuel : nat) f (err : error) : M store unit :=
  x ← future f;
  if ready x then throw (StringPanic "already set") else Set_ fuel f None err.

Definition IsReady f : M store bool := x ← future f; mret (ready x).

Definition GetValueAndError f : M store (value * error) :=
  x ← future f; mret (fut_value x, fut_err x).

Definition ChainFuture f (g : nat) : M store unit :=
  modify (λ w, set_futures (alter (λ x, Future (fut_value x) (fut_err x) (ready x) (fut_channel x)
                                          (chained x ++ [g])) f (futures w)) w).

Definition Chain f (g : nat) : M store unit :=
  x ← future f;
  if ready x then throw (StringPanic "already set") else
  y ← future g;
  if negb (ready y) then ChainFuture g f
  else modify (λ w, set_futures (<[f := Future (fut_value y) (fut_err y) true (fut_channel x)
                                          (chained x)]> (futures w)) w).

(** What follows the [Receive] on the future's channel in [Get], up to the
    decoding of the value for the caller. *)
Definition Get_result f (more : bool) : M store (value * error) :=
  if more then throw (StringPanic "not closed") else
  x ← future f;
  if negb (ready x) then throw (StringPanic "not ready") else mret (fut_value x, fut_err x).

Definition any_value (v : value) : bool := true.

Definition Get (fuel : nat) f (k : nat) : M store (progress (value * error)) :=
  x ← future f;
  r ← Receive any_value fuel (fut_channel x) k;
  match r with
  | Blocked => mret Blocked
  | Done (_, more) => y ← Get_result f more; mret (Done y)
  end.

Definition Get_resume (fuel : nat) f (k : nat) : M store (progress (value * error)) :=
  x ← future f;
  r ← Receive_resume any_value fuel (fut_channel x) k;
  match r with
  | Blocked => mret Blocked
  | Done (_, more) => y ← Get_result f more; mret (Done y)
  end.

(** Returns the value, [ok] and the error. *)
Definition GetAsync f (callback : receiveCallback) : M store (value * bool * error) :=
  x ← future f;
  r ← receiveAsyncImpl (fut_channel x) (Some callback);
  let '(_, _, more) := r : value * bool * bool in
  if more then mret (None, false, None) else
  x ← future f;
  if negb (ready x) then throw (StringPanic "not ready") else mret (fut_value x, true, fut_err x).

Definition RemoveReceiveCallback f (callback : receiveCallback) : M store unit :=
  x ← future f; removeReceiveCallback (fut_channel x) callback.

(** ** Selectors *)

Inductive selectCase :=
| caseReceive (channel : nat)
| caseSend (channel : nat) (v : value)
| caseFuture (f : nat) (armed : bool).  (** [armed]: [futureFunc != nil] *)

(** The function that [Select] calls: the one of a case, or the default. *)
Inductive chosen :=
| chosenReceive (case : nat) (more : bool)
| chosenSend (case : nat)
| chosenFuture (case : nat)
| chosenDefault
| chosenNothing.  (** the empty function *)

(** The deferred clean-up of a registered callback. *)
Inductive cleanup :=
| cleanReceive (channel : nat) (cb : receiveCallback)
| cleanSend (channel : nat) (b : sendCallback)
| cleanFuture (f : nat) (cb : receiveCallback).

Definition set_ready (s : nat) (br : branch) : M store unit :=
  modify (λ w, set_sessions (<[s := Some br]> (sessions w)) w).

(** The loop over the cases: [i] is the index of the next one, [cleanups] those
    of the cases before it.  Stops at the first case that is ready. *)
Fixpoint Select_cases (s : nat) (cases : list selectCase) (i : nat) (cleanups : list cleanup)
    : M store (option chosen * list cleanup) :=
  match cases with
  | [] => mret (None, cleanups)
  | caseReceive c :: cases =>
      let callback := rcvSelect s i c in
      r ← receiveAsyncImpl c (Some callback);
      let '(v, ok, more) := r : value * bool * bool in
      if ok || negb more then
        set_ready s branchDone;;
        (if more then update c (set_recValue (Some v)) else mret tt);;
        mret (Some (chosenReceive i more), cleanups)
      else Select_cases s cases (i + 1) (cleanups ++ [cleanReceive c callback])
  | caseSend c v :: cases =>
      let callback := sndSelect s i v in
      ok ← sendAsyncImpl c v (Some callback);
      if (ok : bool) then
        set_ready s branchDone;; mret (Some (chosenSend i), cleanups)
      else Select_cases s cases (i + 1) (cleanups ++ [cleanSend c callback])
  | caseFuture f true :: cases =>
      let callback := rcvFuture s i in
      r ← GetAsync f callback;
      let '(_, ok, _) := r : value * bool * error in
      if ok then
        set_ready s branchDone;; mret (Some (chosenFuture i), cleanups)
      else Select_cases s cases (i + 1) (cleanups ++ [cleanFuture f callback])
  | caseFuture f false :: cases => Select_cases s cases (i + 1) cleanups
  end.

(** The loop that waits for [readyBranch]. *)
Definition Select_resume (s : nat) : M store (progress chosen) :=
  w ← get;
  match default None (sessions w !! s) with
  | None => mret Blocked
  | Some (branchReceive i c v more) =>
      update c (set_recValue (Some v));; mret (Done (chosenReceive i more))
  | Some (branchSend i) => mret (Done (chosenSend i))
  | Some (branchFuture i) => mret (Done (chosenFuture i))
  | Some branchDone => mret (Done chosenNothing)
  end.

(** The body of [Select] for the session [s]: its progress and the clean-ups it
    deferred. *)
Definition Select_body (s : nat) (cases : list selectCase) (has_default : bool)
    : M store (progress chosen * list cleanup) :=
  r ← Select_cases s cases 0 [];
  let '(choice, cleanups) := r : option chosen * list cleanup in
  match choice with
  | Some choice => mret (Done choice, cleanups)
  | None =>
      if has_default then mret (Done chosenDefault, cleanups)
      else p ← Select_resume s; mret (p, cleanups)
  end.

(** A call of [Select] has a session of its own. *)
Definition Select (s : nat) (cases : list selectCase) (has_default : bool)
    : M store (progress chosen * list cleanup) :=
  modify (λ w, set_sessions (<[s := None]> (sessions w)) w);; Select_body s cases has_default.

Fixpoint run_cleanups (l : list cleanup) : M store unit :=
  match l with
  | [] => mret tt
  | cleanReceive c cb :: l => removeReceiveCallback c cb;; run_cleanups l
  | cleanSend c b :: l => removeSendCallback c b;; run_cleanups l
  | cleanFuture f cb :: l => RemoveReceiveCallback f cb;; run_cleanups l
  end.

(** ** Which callbacks still accept a value *)

Definition session_open w (s : nat) : bool :=
  match sessions w !! s with Some (Some _) => false | _ => true end.
Definition live_receive w (cb : receiveCallback) : bool :=
  match cb with rcvCell _ => true | rcvSelect s _ _ | rcvFuture s _ => session_open w s end.
Definition live_send w (b : sendCallback) : bool :=
  match b with sndCell _ _ => true | sndSelect s _ _ => session_open w s end.

(** Later stores: a session that has its branch keeps having one. *)
Definition later w w' : Prop :=
  ∀ s, session_open w' s = true → session_open w s = true.

Lemma later_refl w : later w w.
Proof. by intros s. Qed.
Lemma later_trans w1 w2 w3 : later w1 w2 → later w2 w3 → later w1 w3.
Proof. intros H1 H2 s Hs. auto. Qed.

Lemma later_live_send w w' b : later w w' → live_send w' b = true → live_send w b = true.
Proof. intros Hl. destruct b; simpl; auto. Qed.
Lemma later_live_receive w w' cb : later w w' → live_receive w' cb = true → live_receive w cb = true.
Proof. intros Hl. destruct cb; simpl; auto. Qed.

Lemma later_ready w s br : later w (set_sessions (<[s := Some br]> (sessions w)) w).
Proof.
  intros s'. unfold session_open. simpl. rewrite lookup_insert. by case_decide.
Qed.

Lemma later_channels w m : later w (set_channels m w).
Proof. by intros s. Qed.

(** A callback answers whether it was live, and only touches its own
    variables. *)
Ltac solve_later :=
  split_and!; first [done | apply later_refl | apply later_ready | intros ? ?; assumption].

(** The operation whose variables a send callback names. *)
Definition send_owner (b : sendCallback) : nat + nat :=
  match b with sndCell k _ => inl k | sndSelect s _ _ => inr s end.

Lemma session_open_ready w s br s' :
  s' ≠ s → session_open (set_sessions (<[s := Some br]> (sessions w)) w) s' = session_open w s'.
Proof. intros Hs. unfold session_open. simpl. by rewrite lookup_insert_ne. Qed.

Lemma call_send_run b w :
  ∃ w', call_send b w = (Ret (live_send w b), w') ∧ later w w' ∧ channels w' = channels w
    ∧ futures w' = futures w ∧ (live_send w b = false → w' = w)
    ∧ (∀ b', send_owner b' ≠ send_owner b → live_send w' b' = live_send w b').
Proof.
  assert (∀ s br i v b', send_owner b' ≠ send_owner (sndSelect s i v) →
    live_send (set_sessions (<[s := Some br]> (sessions w)) w) b' = live_send w b') as Hb'.
  { intros s br i v [k' v'|s' i' v'] Ho; simpl in *; [done|].
    apply session_open_ready. congruence. }
  destruct b as [k v|s i v]; unfold call_send; simpl.
  - eexists. split; [reflexivity|]. solve_later.
  - run. unfold session_open at 1 2. destruct (sessions w !! s) as [[br|]|] eqn:Hs.
    + exists w. solve_later.
    + eexists. split; [reflexivity|]. split_and!; [apply later_ready|done..|apply (Hb' s _ i v)].
    + eexists. split; [reflexivity|]. split_and!; [apply later_ready|done..|apply (Hb' s _ i v)].
Qed.

Lemma call_receive_run cb v more w :
  ∃ w', call_receive cb v more w = (Ret (live_receive w cb), w') ∧ later w w'
    ∧ channels w' = channels w ∧ futures w' = futures w ∧ (live_receive w cb = false → w' = w).
Proof.
  destruct cb as [k|s i c|s i]; unfold call_receive; simpl.
  - eexists. split; [reflexivity|]. solve_later.
  - run. unfold session_open. destruct (sessions w !! s) as [[br|]|] eqn:Hs.
    + exists w. solve_later.
    + eexists. split; [reflexivity|]. solve_later.
    + eexists. split; [reflexivity|]. solve_later.
  - run. unfold session_open. destruct (sessions w !! s) as [[br|]|] eqn:Hs.
    + exists w. solve_later.
    + eexists. split; [reflexivity|]. solve_later.
    + eexists. split; [reflexivity|]. solve_later.
Qed.

(** ** The invariant of a channel *)

Record chan_ok w ch : Prop := {
  ok_buffer : length (buffer ch) ≤ ch_size ch;
  ok_sends b : b ∈ blockedSends ch → live_send w b = true → length (buffer ch) = ch_size ch;
  ok_receives cb : cb ∈ blockedReceives ch → live_receive w cb = true →
    buffer ch = [] ∧ ∀ b, b ∈ blockedSends ch → live_send w b = false }.

Definition all_ok w : Prop := ∀ c ch, channels w !! c = Some ch → chan_ok w ch.

Lemma chan_ok_later w w' ch : later w w' → chan_ok w ch → chan_ok w' ch.
Proof.
  intros Hl [Hb Hs Hr]. split; [done| |].
  - intros b Hin Hlive. eapply Hs; [done|by eapply later_live_send].
  - intros cb Hin Hlive. destruct (Hr cb Hin) as [Hbuf Hn]; [by eapply later_live_receive|].
    split; [done|]. intros b Hb'. specialize (Hn b Hb').
    destruct (live_send w' b) eqn:Hb''; [|done]. by rewrite (later_live_send w w' b) in Hn.
Qed.

(** One channel was replaced, the others are as they were. *)
Lemma all_ok_update w w' c ch' :
  all_ok w → later w w' → channels w' = <[c := ch']> (channels w) → chan_ok w' ch' → all_ok w'.
Proof.
  intros Hok Hl Hc Hch c' ch. rewrite Hc, lookup_insert. case_decide.
  - by intros [= <-].
  - intros Hch'. eapply chan_ok_later; [done|by eapply Hok].
Qed.

(** ** Running the loops over callbacks *)

Lemma channel_run c ch w : channels w !! c = Some ch → channel c w = (Ret ch, w).
Proof. intros Hc. unfold channel. run. by rewrite Hc. Qed.

Lemma update_run c f ch w :
  channels w !! c = Some ch →
  update c f w = (Ret tt, set_channels (<[c := f ch]> (channels w)) w).
Proof.
  intros Hc. unfold update. run. f_equal. f_equal. apply map_eq. intros c'.
  rewrite lookup_insert. case_decide.
  - subst. by rewrite lookup_alter_eq, Hc.
  - by rewrite lookup_alter_ne.
Qed.

(** The first element that is live, and what follows it. *)
Fixpoint split_live {A} (live : A → bool) (l : list A) : option (A * list A) :=
  match l with
  | [] => None
  | x :: l => if live x then Some (x, l) else split_live live l
  end.

Lemma split_live_None {A} live (l : list A) :
  split_live live l = None → ∀ x, x ∈ l → live x = false.
Proof.
  induction l as [|y l IH]; simpl; [set_solver|]. destruct (live y) eqn:Hy; [done|].
  intros Hl x [->|Hx]%elem_of_cons; auto.
Qed.

Lemma split_live_Some {A} live (l : list A) x l' :
  split_live live l = Some (x, l') →
  live x = true ∧ ∃ dead, l = dead ++ x :: l' ∧ ∀ y, y ∈ dead → live y = false.
Proof.
  induction l as [|y l IH]; simpl; [done|]. destruct (live y) eqn:Hy.
  - intros [= -> ->]. split; [done|]. exists []. set_solver.
  - intros (Hx & dead & -> & Hd)%IH. split; [done|]. exists (y :: dead). split; [done|].
    intros z [->|Hz]%elem_of_cons; auto.
Qed.

Lemma set_channels_twice w m m' : set_channels m' (set_channels m w) = set_channels m' w.
Proof. done. Qed.

Lemma take_send_run sends c ch w :
  channels w !! c = Some ch → blockedSends ch = sends →
  match split_live (live_send w) sends with
  | Some (b, rest) => ∃ w', take_send sends c w = (Ret (Some b), w')
      ∧ channels w' = <[c := set_sends rest ch]> (channels w) ∧ later w w' ∧ futures w' = futures w
      ∧ (∀ b', send_owner b' ≠ send_owner b → live_send w' b' = live_send w b')
  | None => take_send sends c w =
      (Ret None, set_channels (<[c := set_sends [] ch]> (channels w)) w)
  end.
Proof.
  revert ch w. induction sends as [|b sends IH]; intros ch w Hc Hs; simpl.
  { run. f_equal. unfold set_channels. rewrite insert_id; [by destruct w|].
    rewrite Hc. f_equal. destruct ch; simpl in *. by subst. }
  run. rewrite (update_run _ _ _ _ Hc).
  set (w1 := set_channels _ w).
  assert (∀ b', live_send w1 b' = live_send w b') as Hlive by (by intros []).
  destruct (call_send_run b w1) as (w2 & -> & Hl & Hch & Hf & Hdead & Hother).
  rewrite Hlive in *. destruct (live_send w b).
  - exists w2. split; [done|]. split_and!.
    + by rewrite Hch.
    + exact Hl.
    + by rewrite Hf.
    + intros b' Hb'. rewrite Hother by done. apply Hlive.
  - rewrite Hdead by done.
    specialize (IH (set_sends sends ch) w1 (lookup_insert_eq _ _ _) eq_refl).
    change (live_send w1) with (live_send w) in IH.
    destruct (split_live (live_send w) sends) as [[b' rest]|].
    + destruct IH as (w' & -> & Hch' & Hl' & Hf' & Ho'). exists w'. split; [done|].
      simpl in Hch'. rewrite insert_insert_eq in Hch'. by split_and!.
    + rewrite IH. subst w1. rewrite set_channels_twice. simpl. by rewrite insert_insert_eq.
Qed.

Lemma give_receive_run receives c v ch w :
  channels w !! c = Some ch → blockedReceives ch = receives →
  match split_live (live_receive w) receives with
  | Some (cb, rest) => ∃ w', give_receive receives c v w = (Ret true, w')
      ∧ channels w' = <[c := set_receives rest ch]> (channels w) ∧ later w w'
      ∧ futures w' = futures w
      ∧ w' = snd (call_receive cb v true (set_channels (<[c := set_receives rest ch]> (channels w)) w))
  | None => give_receive receives c v w =
      (Ret false, set_channels (<[c := set_receives [] ch]> (channels w)) w)
  end.
Proof.
  revert ch w. induction receives as [|cb receives IH]; intros ch w Hc Hs; simpl.
  { run. f_equal. unfold set_channels. rewrite insert_id; [by destruct w|].
    rewrite Hc. f_equal. destruct ch; simpl in *. by subst. }
  run. rewrite (update_run _ _ _ _ Hc). set (w1 := set_channels _ w).
  destruct (call_receive_run cb v true w1) as (w2 & Hrun & Hl & Hch & Hf & Hdead).
  rewrite Hrun. change (live_receive w1) with (live_receive w) in *.
  destruct (live_receive w cb).
  - exists w2. split; [done|]. split_and!; [by rewrite Hch|exact Hl|by rewrite Hf|].
    fold w1. by rewrite Hrun.
  - rewrite Hdead by done.
    specialize (IH (set_receives receives ch) w1 (lookup_insert_eq _ _ _) eq_refl).
    change (live_receive w1) with (live_receive w) in IH.
    destruct (split_live (live_receive w) receives) as [[cb' rest]|].
    + destruct IH as (w' & -> & Hch' & Hl' & Hf' & Hw'). exists w'. split; [done|].
      subst w1. rewrite set_channels_twice in Hw'. simpl in Hch', Hw'.
      rewrite insert_insert_eq in Hch', Hw'. by split_and!.
    + rewrite IH. subst w1. rewrite set_channels_twice. simpl. by rewrite insert_insert_eq.
Qed.

(** ** Receiving *)

Definition distinct_owners ch : Prop := NoDup (send_owner <$> blockedSends ch).

(** The values that a receiver gets, in order. *)
Definition live_values w ch : list value := send_value <$> filter (λ b, live_send w b = true) (blockedSends ch).
Definition queue w ch : list value :=
  match recValue ch with Some v => [v] | None => [] end ++ buffer ch ++ live_values w ch.

Lemma live_values_none w ch :
  (∀ b, b ∈ blockedSends ch → live_send w b = false) → live_values w ch = [].
Proof.
  intros Hn. unfold live_values. induction (blockedSends ch) as [|b l IH]; [done|].
  rewrite filter_cons, decide_False by (rewrite Hn; [done|set_solver]). apply IH. set_solver.
Qed.

Lemma live_values_split w w' ch b rest :
  distinct_owners ch → split_live (live_send w) (blockedSends ch) = Some (b, rest) →
  (∀ b', send_owner b' ≠ send_owner b → live_send w' b' = live_send w b') →
  live_values w ch = send_value b :: live_values w' (set_sends rest ch).
Proof.
  intros Hd (Hb & dead & Hs & Hdead)%split_live_Some Ho. unfold distinct_owners in Hd.
  unfold live_values. simpl. rewrite Hs in *. rewrite filter_app, filter_cons, decide_True by done.
  rewrite fmap_app. csimpl.
  assert (filter (λ b, live_send w b = true) dead = []) as ->.
  { clear -Hdead. induction dead as [|y l IH]; [done|].
    rewrite filter_cons, decide_False by (rewrite Hdead; [done|set_solver]). apply IH. set_solver. }
  simpl. f_equal. f_equal. rewrite fmap_app in Hd. csimpl in *.
  apply NoDup_app in Hd as (_ & _ & [Hnot _]%NoDup_cons). clear -Ho Hnot.
  induction rest as [|y l IH]; [done|]. csimpl in *. apply not_elem_of_cons in Hnot as [Hy Hl].
  rewrite !filter_cons, Ho by congruence. case_decide; [f_equal|]; auto.
Qed.

(** The effect of one receive: it takes the head of the queue, or registers
    its callback on an empty one. *)
Record received c ch w callback v (ok : bool) w' ch' : Prop := {
  rcv_channels : channels w' = <[c := ch']> (channels w);
  rcv_later : later w w';
  rcv_futures : futures w' = futures w;
  rcv_ok : chan_ok w' ch';
  rcv_size : ch_size ch' = ch_size ch;
  rcv_closed : closed ch' = closed ch;
  rcv_queue : distinct_owners ch →
    if ok then queue w ch = v :: queue w' ch' ∧ distinct_owners ch'
    else queue w ch = [] ∧ queue w' ch' = [] ∧ v = None ∧ distinct_owners ch';
  rcv_receives : blockedReceives ch' = blockedReceives ch ++
    (if ok then [] else match callback with Some cb => [cb] | None => [] end) }.

Lemma distinct_rest ch b rest :
  distinct_owners ch → split_live b (blockedSends ch) = Some rest →
  distinct_owners (set_sends rest.2 ch).
Proof.
  destruct rest as [x rest]. intros Hd (_ & dead & Hs & _)%split_live_Some.
  unfold distinct_owners in *. rewrite Hs, fmap_app in Hd. csimpl in *.
  by apply NoDup_app in Hd as (_ & _ & [_ ?]%NoDup_cons).
Qed.

(** Taking a blocked send while the buffer is empty. *)
Lemma received_direct c ch w callback b rest w' :
  chan_ok w ch → recValue ch = None → buffer ch = [] →
  split_live (live_send w) (blockedSends ch) = Some (b, rest) →
  channels w' = <[c := set_sends rest ch]> (channels w) → later w w' → futures w' = futures w →
  (∀ b', send_owner b' ≠ send_owner b → live_send w' b' = live_send w b') →
  received c ch w callback (send_value b) true w' (set_sends rest ch).
Proof.
  intros [Hb Hs Hr] Hrec Hbuf Hsp Hch Hl Hf Ho.
  destruct (split_live_Some _ _ _ _ Hsp) as (Hlive & dead & Hsplit & Hdead).
  split; simpl; try done; try apply later_channels.
  - eapply chan_ok_later; [exact Hl|]. split; simpl; [done| |].
    + intros b' Hb' Hl'. eapply (Hs b'); [rewrite Hsplit; set_solver|done].
    + intros cb Hcb Hlcb. destruct (Hr cb Hcb Hlcb) as [_ Hn].
      rewrite Hn in Hlive; [done|]. rewrite Hsplit. set_solver.
  - intros Hd. split; [|exact (distinct_rest _ _ (b, rest) Hd Hsp)].
    unfold queue. simpl. rewrite Hrec, Hbuf. simpl. by apply live_values_split.
  - by rewrite app_nil_r.
Qed.

(** Registering on an empty channel. *)
Lemma received_none c ch w callback :
  chan_ok w ch → recValue ch = None → buffer ch = [] →
  split_live (live_send w) (blockedSends ch) = None →
  let ch' := set_receives (blockedReceives ch ++
    match callback with Some cb => [cb] | None => [] end) (set_sends [] ch) in
  received c ch w callback None false (set_channels (<[c := ch']> (channels w)) w) ch'.
Proof.
  intros [Hb Hs Hr] Hrec Hbuf Hsp ch'. pose proof (split_live_None _ _ Hsp) as Hnone.
  split; simpl; try done; try apply later_channels.
  - split; simpl; [by rewrite Hbuf in *|set_solver|]. intros cb Hcb Hlcb.
    split; [done|]. set_solver.
  - intros _. split_and!; [| |done|constructor].
    + unfold queue. by rewrite Hrec, Hbuf, live_values_none.
    + unfold queue. simpl. by rewrite Hrec, Hbuf.
Qed.

(** Taking the head of the buffer, which a blocked send then fills up. *)
Lemma received_buffer c ch w callback r buffer' :
  chan_ok w ch → recValue ch = None → buffer ch = r :: buffer' →
  split_live (live_send w) (blockedSends ch) = None →
  let ch' := set_buffer buffer' (set_sends [] ch) in
  received c ch w callback r true (set_channels (<[c := ch']> (channels w)) w) ch'.
Proof.
  intros [Hb Hs Hr] Hrec Hbuf Hsp ch'. pose proof (split_live_None _ _ Hsp) as Hnone.
  split; simpl; try done; try apply later_channels.
  - split; simpl; [rewrite Hbuf in Hb; simpl in Hb; lia|set_solver|]. intros cb Hcb Hlcb.
    destruct (Hr cb Hcb Hlcb) as [? _]. congruence.
  - intros _. split; [|constructor]. unfold queue. simpl. rewrite Hrec, Hbuf. simpl.
    rewrite live_values_none by done. done.
  - by rewrite app_nil_r.
Qed.

Lemma received_refill c ch w callback r buffer' b rest w' ch' :
  chan_ok w ch → recValue ch = None → buffer ch = r :: buffer' →
  split_live (live_send w) (blockedSends ch) = Some (b, rest) →
  ch' = set_buffer (buffer' ++ [send_value b]) (set_sends rest ch) →
  channels w' = <[c := ch']> (channels w) → later w w' → futures w' = futures w →
  (∀ b', send_owner b' ≠ send_owner b → live_send w' b' = live_send w b') →
  received c ch w callback r true w' ch'.
Proof.
  intros [Hb Hs Hr] Hrec Hbuf Hsp Hch' Hch Hl Hf Ho. subst ch'.
  destruct (split_live_Some _ _ _ _ Hsp) as (Hlive & dead & Hsplit & Hdead).
  assert (length (buffer ch) = ch_size ch) as Hfull
    by (apply (Hs b); [rewrite Hsplit; set_solver|done]).
  rewrite Hbuf in Hfull. simpl in Hfull. split; simpl; try done; try apply later_channels.
  - split; simpl; [rewrite length_app; simpl; lia|intros; rewrite length_app; simpl; lia|].
    intros cb Hcb Hlcb. destruct (Hr cb Hcb) as [? _]; [by eapply later_live_receive|congruence].
  - intros Hd. split; [|exact (distinct_rest _ _ (b, rest) Hd Hsp)].
    unfold queue. simpl. rewrite Hrec, Hbuf. simpl. f_equal. rewrite <- app_assoc. f_equal.
    rewrite (live_values_split w w' ch b rest) by done. done.
  - by rewrite app_nil_r.
Qed.

Lemma receive_run c ch w callback :
  channels w !! c = Some ch → chan_ok w ch →
  closed ch = false ∨ is_Some (recValue ch) ∨ buffer ch ≠ [] →
  ∃ v ok w' ch', receiveAsyncImpl c callback w = (Ret (v, ok, true), w')
    ∧ received c ch w callback v ok w' ch'.
Proof.
  intros Hc Hok Hcl. unfold receiveAsyncImpl. run. rewrite (channel_run _ _ _ Hc).
  destruct (recValue ch) as [r|] eqn:Hrec.
  { rewrite (update_run _ _ _ _ Hc). eexists r, true, _, (set_recValue None ch).
    split; [reflexivity|]. destruct Hok.
    split; simpl; try done; try apply later_channels; [|by rewrite app_nil_r].
    intros Hd. split; [|done]. unfold queue. by rewrite Hrec. }
  destruct (buffer ch) as [|r buffer'] eqn:Hbuf.
  - assert (closed ch = false) as -> by (destruct Hcl as [?|[[? ?]|?]]; done).
    pose proof (take_send_run _ c ch w Hc eq_refl) as Htake.
    destruct (split_live (live_send w) (blockedSends ch)) as [[b rest]|] eqn:Hsp.
    + destruct Htake as (w' & -> & Hch' & Hl & Hf & Ho).
      eexists _, true, w', _. split; [reflexivity|]. by eapply received_direct.
    + rewrite Htake. eexists None, false, _, _. split; [|by apply received_none].
      assert (channels (set_channels (<[c := set_sends [] ch]> (channels w)) w) !! c
              = Some (set_sends [] ch)) as Hc1 by apply lookup_insert_eq.
      destruct callback as [cb|]; [rewrite (update_run _ _ _ _ Hc1)|].
      * rewrite set_channels_twice. simpl. by rewrite insert_insert_eq.
      * do 4 f_equal. unfold set_receives, set_sends. simpl. by rewrite app_nil_r.
  - rewrite (update_run _ _ _ _ Hc). set (w1 := set_channels _ w).
    assert (channels w1 !! c = Some (set_buffer buffer' ch)) as Hc1 by apply lookup_insert_eq.
    pose proof (take_send_run _ c (set_buffer buffer' ch) w1 Hc1 eq_refl) as Htake.
    change (live_send w1) with (live_send w) in Htake. simpl blockedSends in Htake.
    destruct (split_live (live_send w) (blockedSends ch)) as [[b rest]|] eqn:Hsp.
    + destruct Htake as (w' & -> & Hch' & Hl & Hf & Ho).
      assert (channels w' !! c = Some (set_sends rest (set_buffer buffer' ch))) as Hc'
        by (rewrite Hch'; apply lookup_insert_eq).
      rewrite (update_run _ _ _ _ Hc'). eexists r, true, _, _. split; [reflexivity|].
      eapply (received_refill c ch w callback r buffer' b rest); try done.
      simpl. rewrite Hch'. simpl. by rewrite !insert_insert_eq.
    + rewrite Htake. eexists r, true, _, _. split; [|by apply received_buffer].
      subst w1. simpl. rewrite set_channels_twice. by rewrite insert_insert_eq.
Qed.

(** A closed channel without values. *)
Lemma receive_closed_run c ch w callback :
  channels w !! c = Some ch → closed ch = true → recValue ch = None → buffer ch = [] →
  receiveAsyncImpl c callback w = (Ret (None, false, false), w).
Proof.
  intros Hc Hcl Hrec Hbuf. unfold receiveAsyncImpl. run. rewrite (channel_run _ _ _ Hc).
  by rewrite Hrec, Hbuf, Hcl.
Qed.

(** ** Sending *)

Record sent c ch w v (pair : option sendCallback) (ok : bool) w' ch' : Prop := {
  snd_channels : channels w' = <[c := ch']> (channels w);
  snd_later : later w w';
  snd_futures : futures w' = futures w;
  snd_ok : chan_ok w' ch';
  snd_size : ch_size ch' = ch_size ch;
  snd_closed : closed ch' = closed ch;
  (** the first live receiver gets the value, or it joins the queue *)
  snd_queue :
    match split_live (live_receive w) (blockedReceives ch) with
    | Some (cb, rest) => ok = true ∧ queue w' ch' = queue w ch ∧ blockedReceives ch' = rest
        ∧ w' = snd (call_receive cb v true (set_channels (<[c := ch']> (channels w)) w))
    | None => blockedReceives ch' = [] ∧
        if ok then queue w' ch' = queue w ch ++ [v]
        else length (buffer ch) = ch_size ch ∧
          match pair with
          | Some b => blockedSends ch' = blockedSends ch ++ [b] ∧
              (live_send w b = true → queue w' ch' = queue w ch ++ [send_value b])
          | None => queue w' ch' = queue w ch
          end
    end }.

Lemma sent_taken c ch w v pair cb rest w' :
  chan_ok w ch → split_live (live_receive w) (blockedReceives ch) = Some (cb, rest) →
  channels w' = <[c := set_receives rest ch]> (channels w) → later w w' → futures w' = futures w →
  w' = snd (call_receive cb v true (set_channels (<[c := set_receives rest ch]> (channels w)) w)) →
  sent c ch w v pair true w' (set_receives rest ch).
Proof.
  intros [Hb Hs Hr] Hsp Hch Hl Hf Hw.
  destruct (split_live_Some _ _ _ _ Hsp) as (Hlive & dead & Hsplit & Hdead).
  destruct (Hr cb) as [Hbuf Hns]; [rewrite Hsplit; set_solver|done|].
  assert (∀ b, b ∈ blockedSends ch → live_send w' b = false) as Hns'.
  { intros b Hb'. specialize (Hns b Hb'). destruct (live_send w' b) eqn:Hb''; [|done].
    by rewrite (later_live_send w w' b) in Hns. }
  split; simpl; try done.
  - split; simpl; [done| |].
    + intros b Hb' Hlb. by rewrite Hns' in Hlb.
    + intros cb' Hcb' _. split; [done|]. done.
  - rewrite Hsp. split_and!; [done| |done|done].
    unfold queue. simpl. rewrite !live_values_none by done. done.
Qed.

Lemma sent_buffered c ch w v pair :
  chan_ok w ch → split_live (live_receive w) (blockedReceives ch) = None →
  length (buffer ch) < ch_size ch →
  let ch' := set_buffer (buffer ch ++ [v]) (set_receives [] ch) in
  sent c ch w v pair true (set_channels (<[c := ch']> (channels w)) w) ch'.
Proof.
  intros [Hb Hs Hr] Hsp Hlen ch'. pose proof (split_live_None _ _ Hsp) as Hnone.
  assert (∀ b, b ∈ blockedSends ch → live_send w b = false) as Hns.
  { intros b Hb'. destruct (live_send w b) eqn:Hlb; [|done]. specialize (Hs b Hb' Hlb). lia. }
  split; simpl; try done; try apply later_channels.
  - split; simpl; [rewrite length_app; simpl; lia| |set_solver].
    intros b Hb' Hlb. change (live_send w b = true) in Hlb. by rewrite Hns in Hlb.
  - rewrite Hsp. split; [done|]. unfold queue. simpl.
    rewrite !live_values_none by exact Hns. by rewrite !app_nil_r, app_assoc.
Qed.

Lemma sent_blocked c ch w v pair :
  chan_ok w ch → split_live (live_receive w) (blockedReceives ch) = None →
  ¬ length (buffer ch) < ch_size ch →
  let ch' := set_sends (blockedSends ch ++ match pair with Some b => [b] | None => [] end)
               (set_receives [] ch) in
  sent c ch w v pair false (set_channels (<[c := ch']> (channels w)) w) ch'.
Proof.
  intros [Hb Hs Hr] Hsp Hlen ch'. pose proof (split_live_None _ _ Hsp) as Hnone.
  split; simpl; try done; try apply later_channels.
  - split; simpl; [done|intros; lia|set_solver].
  - rewrite Hsp. split; [done|]. split; [lia|]. destruct pair as [b|].
    + split; [done|]. intros Hlb. unfold queue, live_values. simpl.
      rewrite filter_app, fmap_app, filter_cons. rewrite decide_True by done. simpl.
      by rewrite !app_assoc.
    + unfold queue, live_values. simpl. by rewrite app_nil_r.
Qed.

Lemma send_run c ch w v pair :
  channels w !! c = Some ch → chan_ok w ch → closed ch = false →
  ∃ ok w' ch', sendAsyncImpl c v pair w = (Ret ok, w') ∧ sent c ch w v pair ok w' ch'.
Proof.
  intros Hc Hok Hcl. unfold sendAsyncImpl. run. rewrite (channel_run _ _ _ Hc), Hcl.
  pose proof (give_receive_run _ c v ch w Hc eq_refl) as Hgive.
  destruct (split_live (live_receive w) (blockedReceives ch)) as [[cb rest]|] eqn:Hsp.
  { destruct Hgive as (w' & -> & Hch & Hl & Hf & Hw). eexists true, w', _.
    split; [reflexivity|]. by eapply sent_taken. }
  rewrite Hgive. assert (channels (set_channels (<[c := set_receives [] ch]> (channels w)) w) !! c
    = Some (set_receives [] ch)) as Hc1 by apply lookup_insert_eq.
  case_decide as Hlen.
  - rewrite (update_run _ _ _ _ Hc1). eexists true, _, _. split; [|by apply sent_buffered].
    rewrite set_channels_twice. simpl. by rewrite insert_insert_eq.
  - eexists false, _, _. split; [|by apply (sent_blocked _ _ _ _ pair)].
    destruct pair as [b|]; [rewrite (update_run _ _ _ _ Hc1)|].
    + rewrite set_channels_twice. simpl. by rewrite insert_insert_eq.
    + do 4 f_equal. unfold set_receives, set_sends. simpl. by rewrite app_nil_r.
Qed.

End channels.
