(* ===== verification/ChannelsProps.v ===== *)
(** * What channels, futures and selectors guarantee

    The invariant of the channels along every sequence of operations, the
    first-in first-out order of their values, the single choice of a selector,
    and the single assignment of a future. *)

From stdpp Require Import base list gmap strings relations.
From S2P Require Import Prelude.
From S2P Require Import Channels.

Section props.
Context {V : Type}.
Implicit Types (w : store (V:=V)) (c : nat) (ch : channelImpl (V:=V)) (v : option V).

(** ** Every operation keeps the invariant of all channels *)

Lemma pres_receiveAsync c cb : pres (all_ok (V:=V)) (receiveAsyncImpl c cb).
Proof.
  intros w Hok. destruct (channels w !! c) as [ch|] eqn:Hc.
  2: { unfold receiveAsyncImpl, channel. run. by rewrite Hc. }
  destruct (decide (closed ch = true ∧ recValue ch = None ∧ buffer ch = [])) as [(Hcl & Hr & Hb)|Hn].
  { by rewrite (receive_closed_run c ch). }
  destruct (receive_run c ch w cb Hc (Hok c ch Hc)) as (v & ok & w' & ch' & -> & Hrcv).
  { destruct (closed ch) eqn:?; [right|by left].
    destruct (recValue ch) eqn:?; [by left|right]. naive_solver. }
  destruct Hrcv. by eapply all_ok_update.
Qed.

Lemma pres_sendAsync c v pair : pres (all_ok (V:=V)) (sendAsyncImpl c v pair).
Proof.
  intros w Hok. destruct (channels w !! c) as [ch|] eqn:Hc.
  2: { unfold sendAsyncImpl, channel. run. by rewrite Hc. }
  destruct (closed ch) eqn:Hcl.
  { unfold sendAsyncImpl. run. by rewrite (channel_run _ _ _ Hc), Hcl. }
  destruct (send_run c ch w v pair Hc (Hok c ch Hc) Hcl) as (ok & w' & ch' & -> & Hsnd).
  destruct Hsnd. by eapply all_ok_update.
Qed.

Lemma pres_update c f :
  (∀ w ch, chan_ok w ch → chan_ok w (f ch)) → pres (all_ok (V:=V)) (update c f).
Proof.
  intros Hf w Hok. destruct (channels w !! c) as [ch|] eqn:Hc.
  - rewrite (update_run _ _ _ _ Hc). simpl. eapply all_ok_update; [done|apply later_channels|done|].
    eapply chan_ok_later; [apply later_channels|]. eauto.
  - unfold update. run. simpl. intros c' ch'. simpl. rewrite lookup_alter_Some.
    intros [(-> & ch0 & ? & _)|[_ Hc']]; [congruence|]. by eapply chan_ok_later; [apply later_channels|eauto].
Qed.

(** Changing what the invariant does not mention. *)
Lemma pres_other f :
  (∀ w, channels (f w) = channels w) → (∀ w, later w (f w)) → pres (all_ok (V:=V)) (modify f).
Proof.
  intros Hc Hl w Hok c ch. simpl. rewrite Hc. intros Hch.
  eapply chan_ok_later; [apply Hl|eauto].
Qed.

Lemma chan_ok_sublist w ch sends receives :
  chan_ok w ch → sends ⊆ blockedSends ch → receives ⊆ blockedReceives ch →
  chan_ok w (set_sends sends (set_receives receives ch)).
Proof.
  intros [Hb Hs Hr] Hss Hrr. split; simpl; [done| |].
  - intros b Hb' Hl. by eapply Hs; [apply Hss|].
  - intros cb Hcb Hl. destruct (Hr cb) as [? Hn]; [by apply Hrr|done|]. split; [done|].
    intros b Hb'. by apply Hn, Hss.
Qed.

Lemma remove_first_subseteq {A} (same : A → bool) l : remove_first same l ⊆ l.
Proof.
  induction l as [|x l IH]; simpl; [done|]. destruct (same x); set_solver.
Qed.

Lemma pres_removeReceive c cb : pres (all_ok (V:=V)) (removeReceiveCallback c cb).
Proof.
  apply pres_update. intros w ch Hok.
  exact (chan_ok_sublist w ch (blockedSends ch) _ Hok (λ _ H, H) (remove_first_subseteq _ _)).
Qed.

Lemma pres_removeSend c b : pres (all_ok (V:=V)) (removeSendCallback c b).
Proof.
  apply pres_update. intros w ch Hok.
  exact (chan_ok_sublist w ch _ (blockedReceives ch) Hok (remove_first_subseteq _ _) (λ _ H, H)).
Qed.

Lemma pres_call_receive cb v more : pres (all_ok (V:=V)) (call_receive cb v more).
Proof.
  intros w Hok. destruct (call_receive_run cb v more w) as (w' & -> & Hl & Hc & _ & _).
  intros c ch. simpl. rewrite Hc. intros Hch. eapply chan_ok_later; [done|eauto].
Qed.

Lemma pres_call_all l : pres (all_ok (V:=V)) (call_all l).
Proof. induction l; simpl; auto using pres_call_receive with pres. Qed.

Lemma pres_channel P c : pres P (channel (V:=V) c).
Proof. intros w Hw. unfold channel. run. by destruct (channels w !! c). Qed.

Lemma pres_future P f : pres P (future (V:=V) f).
Proof. intros w Hw. unfold future. run. by destruct (futures w !! f). Qed.

Hint Resolve pres_receiveAsync pres_sendAsync pres_removeReceive pres_removeSend
  pres_call_receive pres_call_all pres_channel pres_future : pres.
Hint Extern 1 (pres all_ok (modify _)) => apply pres_other; [reflexivity|intros ? ? ?; assumption] : pres.
Hint Extern 1 (pres _ (match ?x with _ => _ end)) => destruct x : pres.
Hint Extern 1 (pres _ (if ?x then _ else _)) => destruct x : pres.
Hint Extern 1 (pres all_ok (update _ (set_recValue _))) =>
  apply pres_update; intros ? ? []; split; assumption : pres.
Hint Extern 1 (pres all_ok (update _ set_closed)) =>
  apply pres_update; intros ? ? []; split; assumption : pres.

Lemma pres_Close c : pres (all_ok (V:=V)) (Close c).
Proof. unfold Close. auto with pres. Qed.
Hint Resolve pres_Close : pres.

Lemma pres_Receive_attempt assign fuel c k : pres (all_ok (V:=V)) (Receive_attempt assign fuel c k).
Proof. induction fuel; simpl; auto 10 with pres. Qed.
Hint Resolve pres_Receive_attempt : pres.

Lemma pres_ReceiveAsyncWithMoreFlag assign fuel c :
  pres (all_ok (V:=V)) (ReceiveAsyncWithMoreFlag assign fuel c).
Proof. induction fuel; simpl; auto 10 with pres. Qed.

Lemma pres_Receive assign fuel c k : pres (all_ok (V:=V)) (Receive assign fuel c k).
Proof. unfold Receive. auto with pres. Qed.

Lemma pres_Receive_resume assign fuel c k : pres (all_ok (V:=V)) (Receive_resume assign fuel c k).
Proof. unfold Receive_resume. auto 10 with pres. Qed.

Lemma pres_Send c k v : pres (all_ok (V:=V)) (Send c k v).
Proof. unfold Send, Send_resume. auto 10 with pres. Qed.

Lemma pres_Set fuel f v err : pres (all_ok (V:=V)) (Set_ fuel f v err).
Proof.
  revert f. induction fuel as [|fuel IH]; intros f; simpl; [auto with pres|].
  apply pres_bind; [auto with pres|intros x]. destruct (ready x); [auto with pres|].
  apply pres_bind; [auto with pres|intros _]. apply pres_bind; [auto with pres|intros _].
  induction (chained x); auto with pres.
Qed.

Lemma pres_set_ready s br : pres (all_ok (V:=V)) (set_ready s br).
Proof. apply pres_other; [done|]. intros w. apply later_ready. Qed.

Lemma pres_GetAsync f cb : pres (all_ok (V:=V)) (GetAsync f cb).
Proof. unfold GetAsync. auto 10 with pres. Qed.
Hint Resolve pres_set_ready pres_GetAsync : pres.

Lemma pres_Select_cases s cases i cl : pres (all_ok (V:=V)) (Select_cases s cases i cl).
Proof.
  revert i cl. induction cases as [|[c|c v|f []] cases IH]; intros i cl; simpl; auto 12 with pres.
Qed.

Lemma pres_run_cleanups l : pres (all_ok (V:=V)) (run_cleanups l).
Proof. induction l as [|[] l IH]; simpl; unfold RemoveReceiveCallback; auto with pres. Qed.

(** ** Sequences of operations *)

Inductive cop :=
| cNewChannel c (size : nat)
| cNewFuture (f : nat) c
| cReceiveAsync (assign : option V → bool) (fuel c : nat)
| cReceive (assign : option V → bool) (fuel c k : nat)
| cReceiveResume (assign : option V → bool) (fuel c k : nat)
| cSendAsync c v
| cSend c (k : nat) v
| cSendResume c (k : nat)
| cClose c
| cSet (fuel f : nat) v (err : option string)
| cChain (f g : nat)
| cGet (fuel f k : nat)
| cGetResume (fuel f k : nat)
| cSelect (s : nat) (cases : list (selectCase (V:=V))) (has_default : bool)
| cSelectResume (s : nat)
| cCleanups (l : list (cleanup (V:=V))).

Definition cexec (o : cop) : M (store (V:=V)) unit :=
  match o with
  | cNewChannel c size => NewBufferedChannel c size
  | cNewFuture f c => NewFuture f c
  | cReceiveAsync assign fuel c => ReceiveAsyncWithMoreFlag assign fuel c;; mret tt
  | cReceive assign fuel c k => Receive assign fuel c k;; mret tt
  | cReceiveResume assign fuel c k => Receive_resume assign fuel c k;; mret tt
  | cSendAsync c v => SendAsync c v;; mret tt
  | cSend c k v => Send c k v;; mret tt
  | cSendResume c k => Send_resume c k;; mret tt
  | cClose c => Close c
  | cSet fuel f v err => Set_ fuel f v err
  | cChain f g => Chain f g
  | cGet fuel f k => Get fuel f k;; mret tt
  | cGetResume fuel f k => Get_resume fuel f k;; mret tt
  | cSelect s cases d => Select s cases d;; mret tt
  | cSelectResume s => Select_resume s;; mret tt
  | cCleanups l => run_cleanups l
  end.

(** Allocation gives new objects, and a call of [Select] has variables of its
    own. *)
Definition fresh w (o : cop) : Prop :=
  match o with
  | cNewChannel c _ => channels w !! c = None
  | cNewFuture f c => futures w !! f = None ∧ channels w !! c = None
  | cSelect s _ _ => sessions w !! s = None
  | _ => True
  end.

(** One operation, whether it returns or panics. *)
Inductive cstep w : store (V:=V) → Prop :=
| cstep_op o : fresh w o → cstep w (snd (cexec o w)).

Hint Resolve pres_Receive pres_Receive_resume pres_ReceiveAsyncWithMoreFlag pres_Send pres_Set
  pres_Select_cases pres_run_cleanups : pres.

Lemma session_open_fresh w s :
  sessions w !! s = None → later w (set_sessions (<[s := None]> (sessions w)) w).
Proof.
  intros Hs s'. unfold session_open. simpl. rewrite lookup_insert. case_decide; [|done].
  subst. by rewrite Hs.
Qed.

Lemma pres_Select_body s cases d : pres (all_ok (V:=V)) (Select_body s cases d).
Proof. unfold Select_body, Select_resume. auto 12 with pres. Qed.

Lemma pres_NewBufferedChannel c size : pres (all_ok (V:=V)) (NewBufferedChannel c size).
Proof.
  intros w Hok. eapply all_ok_update; [done|apply later_channels|done|].
  split; simpl; [lia|set_solver..].
Qed.
Hint Resolve pres_NewBufferedChannel : pres.

Lemma cexec_ok o : (∀ s cases d, o ≠ cSelect s cases d) → pres (all_ok (V:=V)) (cexec o).
Proof.
  intros Ho. destruct o; simpl; try by destruct (Ho _ _ _ eq_refl).
  all: unfold NewFuture, NewChannel, SendAsync, Send_resume, Get, Get_resume, Get_result, Chain, ChainFuture,
    Select_resume;
    auto 14 with pres.
Qed.

Lemma cstep_ok w w' : all_ok w → cstep w w' → all_ok w'.
Proof.
  intros Hok [o Hf]. destruct o; try by apply cexec_ok.
  simpl in *. apply (pres_bind _ _ _ (pres_Select_body s cases has_default)); [auto with pres|].
  intros c ch Hc. eapply chan_ok_later; [by apply session_open_fresh|eauto].
Qed.

(** ** Properties of the store that operations keep

    [free] are the sessions whose branch may be set again: those of calls of
    [Select] that are still going through their cases. *)

Class StoreInv (Q : store (V:=V) → Prop) (free : nat → Prop) : Prop := {
  si_channels m w : Q w → Q (set_channels m w);
  si_cells m w : Q w → Q (set_cells m w);
  si_consumed m w : Q w → Q (set_consumed m w);
  si_ready s br w : Q w → session_open w s = true ∨ free s →
    Q (set_sessions (<[s := Some br]> (sessions w)) w);
  si_start s w : Q w → sessions w !! s = None →
    Q (set_sessions (<[s := None]> (sessions w)) w) ∧ free s;
  si_new f y w : Q w → futures w !! f = None → Q (set_futures (<[f := y]> (futures w)) w);
  si_future f x y w : Q w → futures w !! f = Some x → ready x = false →
    Q (set_futures (<[f := y]> (futures w)) w);
  si_chain f g w : Q w → Q (snd (ChainFuture f g w)) }.

Section inv.
Context (Q : store (V:=V) → Prop) (free : nat → Prop) `{!StoreInv Q free}.

Lemma inv_update c f : pres Q (update c f).
Proof. intros w Hw. by apply si_channels. Qed.

Lemma inv_call_receive cb v more : pres Q (call_receive cb v more).
Proof.
  intros w Hw. unfold call_receive. run. destruct cb as [k|s i c|s i]; [by apply si_cells|..].
  - destruct (sessions w !! s) as [[]|] eqn:Hs; [done| |];
      apply si_ready; try done; left; unfold session_open; by rewrite Hs.
  - destruct (sessions w !! s) as [[]|] eqn:Hs; [done| |];
      apply si_ready; try done; left; unfold session_open; by rewrite Hs.
Qed.

Lemma inv_call_send b : pres Q (call_send b).
Proof.
  intros w Hw. unfold call_send. run. destruct b as [k v|s i v]; [by apply si_consumed|].
  destruct (sessions w !! s) as [[]|] eqn:Hs; [done| |];
    apply si_ready; try done; left; unfold session_open; by rewrite Hs.
Qed.

Lemma inv_take_send l c : pres Q (take_send l c).
Proof. induction l; simpl; auto using inv_update, inv_call_send with pres. Qed.

Lemma inv_give_receive l c v : pres Q (give_receive l c v).
Proof. induction l; simpl; auto using inv_update, inv_call_receive with pres. Qed.

Lemma inv_call_all l : pres Q (call_all l).
Proof. induction l; simpl; auto using inv_call_receive with pres. Qed.

Lemma inv_set_cells f : pres Q (modify (λ w, set_cells (f w) w)).
Proof. intros w Hw. by apply si_cells. Qed.

Lemma inv_set_consumed f : pres Q (modify (λ w, set_consumed (f w) w)).
Proof. intros w Hw. by apply si_consumed. Qed.

Hint Resolve inv_update inv_call_receive inv_call_send inv_take_send inv_give_receive
  inv_call_all inv_set_cells inv_set_consumed : pres.

Lemma inv_receiveAsync c cb : pres Q (receiveAsyncImpl c cb).
Proof. unfold receiveAsyncImpl. auto 12 with pres. Qed.

Lemma inv_sendAsync c v pair : pres Q (sendAsyncImpl c v pair).
Proof. unfold sendAsyncImpl. auto 12 with pres. Qed.

Lemma inv_Close c : pres Q (Close c).
Proof. unfold Close. auto with pres. Qed.

Hint Resolve inv_receiveAsync inv_sendAsync inv_Close : pres.

Lemma inv_Receive_attempt assign fuel c k : pres Q (Receive_attempt assign fuel c k).
Proof. induction fuel; simpl; auto 10 with pres. Qed.

Lemma inv_ReceiveAsync assign fuel c : pres Q (ReceiveAsyncWithMoreFlag assign fuel c).
Proof. induction fuel; simpl; auto 10 with pres. Qed.

Lemma inv_GetAsync f cb : pres Q (GetAsync f cb).
Proof. unfold GetAsync. auto 10 with pres. Qed.

Hint Resolve inv_Receive_attempt inv_ReceiveAsync inv_GetAsync : pres.

Lemma inv_Set fuel f v err : pres Q (Set_ fuel f v err).
Proof.
  revert f. induction fuel as [|fuel IH]; intros f; [apply pres_throw|].
  intros w Hw. cbn [Set_]. unfold future. run.
  destruct (futures w !! f) as [x|] eqn:Hx; [|done]. destruct (ready x) eqn:Hr; [done|].
  apply (pres_bind Q (Close (fut_channel x)) (λ _, _)); [auto with pres| |by eapply si_future].
  intros _. generalize (chained x) as l. clear x Hx Hr w Hw. intros l.
  induction l as [|g l IHl]; [by intros w Hw|].
  exact (pres_bind Q _ (λ _, _) (IH g) (λ _, IHl)).
Qed.

Lemma inv_Chain f g : pres Q (Chain f g).
Proof.
  intros w Hw. unfold Chain, future. run. destruct (futures w !! f) as [x|] eqn:Hx; [|done].
  destruct (ready x) eqn:Hr; [done|]. destruct (futures w !! g) as [y|] eqn:Hy; [|done].
  destruct (ready y); [by eapply si_future|by apply si_chain].
Qed.

Lemma inv_set_ready s br : free s → pres Q (set_ready s br).
Proof. intros Hf w Hw. apply si_ready; [done|by right]. Qed.

Lemma inv_Select_cases s cases i cl : free s → pres Q (Select_cases s cases i cl).
Proof.
  intros Hf. revert i cl. induction cases as [|[c|c v|f []] cases IH]; intros i cl; simpl;
    auto 12 using inv_set_ready with pres.
Qed.

Lemma inv_run_cleanups l : pres Q (run_cleanups l).
Proof.
  induction l as [|[] l IH]; simpl; unfold RemoveReceiveCallback, removeReceiveCallback,
    removeSendCallback; auto with pres.
Qed.

Hint Resolve inv_Set inv_Chain inv_run_cleanups : pres.

Lemma cexec_inv o :
  (∀ s cases d, o ≠ cSelect s cases d) → (∀ f c, o ≠ cNewFuture f c) → pres Q (cexec o).
Proof.
  intros Ho Hn. destruct o; simpl; try by destruct (Ho _ _ _ eq_refl).
  1: by intros w Hw; apply si_channels.
  1: by destruct (Hn _ _ eq_refl).
  all: unfold Receive, Receive_resume, SendAsync, Send, Send_resume, Get, Get_resume, Get_result,
    Receive, Receive_resume, Select_resume; auto 14 with pres.
Qed.

Lemma cstep_inv w w' : Q w → cstep w w' → Q w'.
Proof.
  intros Hw [o Hf]. destruct o; try by apply cexec_inv.
  { destruct Hf as [Hf _]. simpl. apply (si_new f _ (snd (NewChannel c w))); [|done].
    by apply si_channels. }
  simpl in *. destruct (si_start s w Hw Hf) as [Hw' Hfree].
  apply (pres_bind Q (Select_body s cases has_default) (λ _, mret tt)); [|auto with pres|exact Hw'].
  unfold Select_body, Select_resume. auto 12 using inv_Select_cases with pres.
Qed.

Lemma csteps_inv w w' : Q w → rtc cstep w w' → Q w'.
Proof. intros Hw. induction 1; [done|]. eauto using cstep_inv. Qed.

End inv.

Definition newStore : store (V:=V) := Store ∅ ∅ ∅ ∅ ∅.

Lemma all_ok_reachable w : rtc cstep newStore w → all_ok w.
Proof.
  intros Hw. assert (all_ok newStore) as H0 by (intros c ch; simpl; by rewrite lookup_empty).
  revert H0. induction Hw; eauto using cstep_ok.
Qed.

(** ** The bounded queue that a channel implements *)

Inductive qop := qSend (v : option V) | qReceive.

(** The specification: what an operation answers and what is left. *)
Definition spec_step (size : nat) (q : list (option V)) (o : qop) : (option V * bool) * list (option V) :=
  match o with
  | qSend v => if decide (length q < size) then ((None, true), q ++ [v]) else ((None, false), q)
  | qReceive => match q with v :: q => ((v, true), q) | [] => ((None, false), []) end
  end.
Fixpoint spec_run size q (ops : list qop) : list (option V * bool) * list (option V) :=
  match ops with
  | [] => ([], q)
  | o :: ops =>
      let '(a, q) := spec_step size q o in let '(l, q) := spec_run size q ops in (a :: l, q)
  end.

(** The channel's own operations. *)
Definition chan_step c (o : qop) : M (store (V:=V)) (option V * bool) :=
  match o with
  | qSend v => ok ← SendAsync c v; mret (None, ok)
  | qReceive => r ← receiveAsyncImpl c None; mret (r.1.1, r.1.2)
  end.
Fixpoint chan_run c (ops : list qop) : M (store (V:=V)) (list (option V * bool)) :=
  match ops with
  | [] => mret []
  | o :: ops => a ← chan_step c o; l ← chan_run c ops; mret (a :: l)
  end.

(** An open channel on which no coroutine waits. *)
Definition idle (size : nat) (q : list (option V)) : channelImpl := Channel size q [] [] false None.

Lemma chan_step_spec c size q o w :
  channels w !! c = Some (idle size q) → length q ≤ size →
  let '(a, q') := spec_step size q o in
  chan_step c o w = (Ret a, set_channels (<[c := idle size q']> (channels w)) w) ∧ length q' ≤ size.
Proof.
  intros Hc Hlen. assert (w = set_channels (<[c := idle size q]> (channels w)) w) as Hid
    by (unfold set_channels; rewrite insert_id by done; by destruct w).
  destruct o as [v|]; simpl.
  - unfold SendAsync, sendAsyncImpl. run. rewrite (channel_run _ _ _ Hc).
    cbn [idle closed blockedReceives give_receive buffer ch_size]. run.
    case_decide; [|by rewrite <- Hid].
    rewrite (update_run _ _ _ _ Hc), length_app. simpl. split; [done|lia].
  - unfold receiveAsyncImpl. run. rewrite (channel_run _ _ _ Hc).
    cbn [idle closed blockedSends take_send buffer recValue]. run.
    destruct q as [|v q]; [by rewrite <- Hid|].
    rewrite (update_run _ _ _ _ Hc). simpl in *. split; [done|lia].
Qed.

Lemma chan_run_spec c size q ops w :
  channels w !! c = Some (idle size q) → length q ≤ size →
  let '(l, q') := spec_run size q ops in
  chan_run c ops w = (Ret l, set_channels (<[c := idle size q']> (channels w)) w).
Proof.
  revert q w. induction ops as [|o ops IH]; intros q w Hc Hlen; simpl.
  { run. f_equal. unfold set_channels. rewrite insert_id by done. by destruct w. }
  pose proof (chan_step_spec c size q o w Hc Hlen) as Hstep.
  destruct (spec_step size q o) as [a q1]. destruct Hstep as [Hstep Hlen1].
  specialize (IH q1 (set_channels (<[c := idle size q1]> (channels w)) w) (lookup_insert_eq _ _ _) Hlen1).
  destruct (spec_run size q1 ops) as [l q']. run. rewrite Hstep, IH. simpl.
  by rewrite set_channels_twice, insert_insert_eq.
Qed.

(** ** What stays as it is *)

Definition branch_chosen (s0 : nat) (br : branch) w : Prop := sessions w !! s0 = Some (Some br).

#[local] Instance branch_chosen_inv s0 br : StoreInv (branch_chosen s0 br) (λ s, s ≠ s0).
Proof.
  split; unfold branch_chosen; simpl; try done.
  - intros s br' w Hw Hs. rewrite lookup_insert_ne; [done|].
    destruct Hs as [Hs|Hs]; [|done]. intros ->. unfold session_open in Hs. by rewrite Hw in Hs.
  - intros s w Hw Hs. assert (s ≠ s0) by congruence. by rewrite lookup_insert_ne.
Qed.

(** A future that is ready, with its result. *)
Definition future_has (f : nat) v (err : option string) w : Prop :=
  ∃ x, futures w !! f = Some x ∧ ready x = true ∧ fut_value x = v ∧ fut_err x = err.

#[local] Instance future_has_inv f v err : StoreInv (future_has f v err) (λ _, True).
Proof.
  split; unfold future_has; simpl; try done.
  - intros f' y w (x & Hx & Hr) Hf'. exists x. by rewrite lookup_insert_ne by congruence.
  - intros f' x' y w (x & Hx & Hr & Hv) Hf' Hr'. exists x.
    rewrite lookup_insert_ne; [done|]. intros ->. congruence.
  - intros f' g w (x & Hx & Hr & Hv & He). destruct (decide (f' = f)) as [->|].
    + eexists. rewrite lookup_alter_eq, Hx. simpl. split; [reflexivity|done].
    + exists x. by rewrite lookup_alter_ne.
Qed.

(** ** Waking the coroutines that wait for a future *)

Lemma call_all_run l w :
  ∃ w', call_all l w = (Ret tt, w') ∧ channels w' = channels w ∧ futures w' = futures w
    ∧ ∀ k, rcvCell k ∈ l ∨ cells w !! k = Some (Cell true None false) →
           cells w' !! k = Some (Cell true (None : option V) false).
Proof.
  revert w. induction l as [|cb l IH]; intros w; simpl.
  { exists w. split_and!; try done. set_solver. }
  destruct (call_receive_run cb None false w) as (w1 & Hrun & _ & Hc & Hf & _).
  destruct (IH w1) as (w' & Hw' & Hc' & Hf' & Hcell). exists w'. run. rewrite Hrun.
  split_and!; [done|by rewrite Hc'|by rewrite Hf'|]. intros k Hk. apply Hcell.
  assert (rcvCell k = cb ∨ cells w !! k = Some (Cell true None false) →
          cells w1 !! k = Some (Cell true None false)) as Hcb; [|set_solver].
  revert Hrun. unfold call_receive. run. destruct cb as [k'|s j c|s j].
  - intros [= <-]. simpl. rewrite lookup_insert. case_decide; [done|]. naive_solver.
  - destruct (sessions w !! s) as [[]|]; intros [= _ <-]; naive_solver.
  - destruct (sessions w !! s) as [[]|]; intros [= _ <-]; naive_solver.
Qed.

Lemma Close_run c ch w :
  channels w !! c = Some ch →
  ∃ w', Close c w = (Ret tt, w') ∧ channels w' = <[c := set_closed ch]> (channels w)
    ∧ futures w' = futures w
    ∧ ∀ k, rcvCell k ∈ blockedReceives ch → cells w' !! k = Some (Cell true (None : option V) false).
Proof.
  intros Hc. unfold Close. run. rewrite (channel_run _ _ _ Hc), (update_run _ _ _ _ Hc).
  destruct (call_all_run (blockedReceives ch) (set_channels (<[c := set_closed ch]> (channels w)) w))
    as (w' & -> & Hch & Hf & Hk).
  exists w'. split_and!; eauto.
Qed.

(** The channel of a future: nothing is ever sent on it. *)
Definition signal_only ch : Prop := recValue ch = None ∧ buffer ch = [] ∧ blockedSends ch = [].

Lemma Set_run fuel f x ch w v err :
  futures w !! f = Some x → ready x = false → chained x = [] →
  channels w !! fut_channel x = Some ch → signal_only ch →
  ∃ w' ch', Set_ (S fuel) f v err w = (Ret tt, w')
    ∧ futures w' = <[f := Future v err true (fut_channel x) []]> (futures w)
    ∧ channels w' !! fut_channel x = Some ch' ∧ closed ch' = true ∧ signal_only ch'
    ∧ ∀ k, rcvCell k ∈ blockedReceives ch → cells w' !! k = Some (Cell true (None : option V) false).
Proof.
  intros Hf Hr Hchain Hc Hs. cbn [Set_]. unfold future. run. rewrite Hf, Hr, Hchain.
  set (w1 := set_futures _ w).
  destruct (Close_run (fut_channel x) ch w1 Hc) as (w' & -> & Hch & Hfut & Hk).
  exists w', (set_closed ch). split_and!; try done. rewrite Hch. apply lookup_insert_eq.
Qed.

Lemma Get_ready_run fuel f x ch w k :
  futures w !! f = Some x → ready x = true → channels w !! fut_channel x = Some ch →
  closed ch = true → signal_only ch →
  fst (Get (S fuel) f k w) = Ret (Done (fut_value x, fut_err x)).
Proof.
  intros Hf Hr Hc Hcl (Hrec & Hbuf & _). unfold Get, Receive, future. cbn [Receive_attempt].
  run. rewrite Hf. erewrite receive_closed_run; [|done..]. simpl. unfold Get_result, future. run.
  simpl. rewrite Hf, Hr. done.
Qed.

(** [Get] on a future that is not ready registers a callback and blocks. *)
Lemma Get_blocks_run fuel f x ch w k :
  futures w !! f = Some x → channels w !! fut_channel x = Some ch → closed ch = false →
  signal_only ch →
  ∃ w1 ch1, Get (S fuel) f k w = (Ret Blocked, w1) ∧ futures w1 = futures w
    ∧ channels w1 !! fut_channel x = Some ch1 ∧ closed ch1 = false ∧ signal_only ch1
    ∧ rcvCell k ∈ blockedReceives ch1 ∧ cells w1 !! k = Some (Cell false (None : option V) false).
Proof.
  intros Hf Hc Hcl (Hrec & Hbuf & Hbs).
  unfold Get, Receive, future. cbn [Receive_attempt]. run. rewrite Hf. run.
  unfold receiveAsyncImpl. run. set (w0 := set_cells _ (set_cells _ _)).
  rewrite (channel_run (fut_channel x) ch w0 Hc), Hrec, Hbuf, Hcl, Hbs. run. simpl take_send. run.
  rewrite (update_run (fut_channel x) _ ch w0 Hc).
  eexists _, (set_receives (blockedReceives ch ++ [rcvCell k]) ch).
  split_and!; [reflexivity|done|apply lookup_insert_eq|done..|simpl; set_solver|].
  simpl. by rewrite lookup_alter_eq, lookup_insert_eq.
Qed.

(** A coroutine blocked in [Get] when it is called again: without a result it
    yields again, with the future's channel closed it returns. *)
Lemma Get_waits_run fuel f x w k y m :
  futures w !! f = Some x → cells w !! k = Some (Cell false y m) →
  Get_resume (V:=V) fuel f k w = (Ret Blocked, w).
Proof. intros Hf Hk. unfold Get_resume, Receive_resume, future. run. by rewrite Hf, Hk. Qed.

Lemma Get_woken_run fuel f x w k v err :
  futures w !! f = Some (Future v err true x []) →
  cells w !! k = Some (Cell true (None : option V) false) →
  Get_resume fuel f k w = (Ret (Done (v, err)), w).
Proof.
  intros Hf Hk. unfold Get_resume, Receive_resume, future. run. rewrite Hf. run.
  rewrite Hk. simpl. unfold Get_result, future. run. by rewrite Hf.
Qed.

(** ** Theorems *)

(** C6: whatever sequence of operations coroutines perform on channels, futures
    and selectors, starting with none, including operations that panic: no
    channel ever buffers more values than its size, a send is blocked on it (and
    could still be accepted) only while its buffer is full, and a receiver is
    blocked on it (and could still accept a value) only while its buffer is empty
    and no such send is blocked. *)
Theorem channels_invariant w c ch :
  rtc cstep newStore w → channels w !! c = Some ch →
  length (buffer ch) ≤ ch_size ch
  ∧ (∀ b, b ∈ blockedSends ch → live_send w b = true → length (buffer ch) = ch_size ch)
  ∧ (∀ cb, cb ∈ blockedReceives ch → live_receive w cb = true →
       buffer ch = [] ∧ ∀ b, b ∈ blockedSends ch → live_send w b = false).
Proof. intros Hw Hc. by destruct (all_ok_reachable w Hw c ch Hc). Qed.

(** C31: while no coroutine waits on an open channel of a given size, any
    sequence of asynchronous sends and receives answers as the bounded
    first-in first-out queue of that size does, and leaves the channel with what
    is left in that queue; nothing else in the store changes. *)
Theorem channel_refines_queue c size ops w :
  channels w !! c = Some (idle size []) →
  let '(answers, q) := spec_run size [] ops in
  chan_run c ops w = (Ret answers, set_channels (<[c := idle size q]> (channels w)) w).
Proof. intros Hc. apply chan_run_spec; [done|simpl; lia]. Qed.

(** a receive takes the head of the channel's queue (the value that a
    selector put back, then the buffer, then the values of the sends that are
    blocked and can still be accepted, which belong to different callers) and
    leaves the rest in the same order; on an empty queue it registers its
    callback behind the receivers that already wait; on a closed and drained
    channel it answers that there is nothing more, and changes nothing. *)
Theorem receive_fifo w c ch callback :
  rtc cstep newStore w → channels w !! c = Some ch → distinct_owners ch →
  if decide (closed ch = true ∧ recValue ch = None ∧ buffer ch = [])
  then receiveAsyncImpl c callback w = (Ret (None, false, false), w)
  else ∃ w' ch', channels w' = <[c := ch']> (channels w) ∧
    match queue w ch with
    | v :: rest =>
        receiveAsyncImpl c callback w = (Ret (v, true, true), w') ∧ queue w' ch' = rest
        ∧ blockedReceives ch' = blockedReceives ch
    | [] =>
        receiveAsyncImpl c callback w = (Ret (None, false, true), w') ∧ queue w' ch' = []
        ∧ blockedReceives ch' = blockedReceives ch ++ option_list callback
    end.
Proof.
  intros Hw Hc Hd. case_decide as Hcl; [destruct Hcl as (?&?&?); by eapply receive_closed_run|].
  destruct (receive_run c ch w callback Hc (all_ok_reachable w Hw c ch Hc))
    as (v & ok & w' & ch' & Hrun & Hrcv).
  { destruct (closed ch) eqn:?; [right|by left].
    destruct (recValue ch) eqn:?; [by left|right]. naive_solver. }
  exists w', ch'. destruct Hrcv. split; [done|]. specialize (rcv_queue Hd). destruct ok.
  - destruct rcv_queue as [-> _]. by rewrite app_nil_r in rcv_receives.
  - destruct rcv_queue as (-> & Hq & -> & _). by destruct callback.
Qed.

(** a send on a closed channel panics and changes nothing.  On an open one
    the first receiver that waits and can still accept a value gets it, and the
    queue does not change; without such a receiver the value joins the end of
    the queue when the buffer has room, and otherwise the send is refused, after
    registering the sender behind those that are already blocked. *)
Theorem send_delivers w c ch v pair :
  rtc cstep newStore w → channels w !! c = Some ch →
  if closed ch
  then sendAsyncImpl c v pair w = (Panic (StringPanic "Closed channel"), w)
  else ∃ w' ch', channels w' = <[c := ch']> (channels w) ∧
    match split_live (live_receive w) (blockedReceives ch) with
    | Some (cb, rest) =>
        sendAsyncImpl c v pair w = (Ret true, w') ∧ queue w' ch' = queue w ch
        ∧ blockedReceives ch' = rest
        ∧ w' = snd (call_receive cb v true (set_channels (<[c := ch']> (channels w)) w))
    | None =>
        (sendAsyncImpl c v pair w = (Ret true, w') ∧ queue w' ch' = queue w ch ++ [v])
        ∨ (sendAsyncImpl c v pair w = (Ret false, w') ∧ length (buffer ch) = ch_size ch
           ∧ (pair = None → queue w' ch' = queue w ch)
           ∧ ∀ b, pair = Some b → blockedSends ch' = blockedSends ch ++ [b])
    end.
Proof.
  intros Hw Hc. destruct (closed ch) eqn:Hcl.
  { unfold sendAsyncImpl. run. by rewrite (channel_run _ _ _ Hc), Hcl. }
  destruct (send_run c ch w v pair Hc (all_ok_reachable w Hw c ch Hc) Hcl)
    as (ok & w' & ch' & Hrun & [? _ _ _ _ _ Hq]).
  exists w', ch'. split; [done|].
  destruct (split_live (live_receive w) (blockedReceives ch)) as [[cb rest]|].
  - destruct Hq as (-> & Hq). done.
  - destruct Hq as [_ Hq]. destruct ok; [by left|right]. destruct Hq as [Hl Hq].
    split_and!; [done..| |]; destruct pair; naive_solver.
Qed.

(** Once a call of [Select] has its branch, whatever operations follow, the
    branch stays the same: no later value, send or future replaces it. *)
Theorem select_once s br w w' :
  sessions w !! s = Some (Some br) → rtc cstep w w' → sessions w' !! s = Some (Some br).
Proof. intros Hs Hw. exact (csteps_inv (branch_chosen s br) _ w w' Hs Hw). Qed.

(** once a future is ready its value and its error never change, whatever
    operations follow; and to set it again, directly or by chaining it, panics
    without changing anything. *)
Theorem future_set_once f x w w' :
  futures w !! f = Some x → ready x = true → rtc cstep w w' →
  (∃ y, futures w' !! f = Some y ∧ ready y = true
     ∧ fut_value y = fut_value x ∧ fut_err y = fut_err x)
  ∧ (∀ fuel v err, Set_ (S fuel) f v err w' = (Panic (StringPanic "already set"), w'))
  ∧ (∀ g, Chain f g w' = (Panic (StringPanic "already set"), w')).
Proof.
  intros Hf Hr Hw. destruct (csteps_inv (future_has f (fut_value x) (fut_err x)) _ w w') as (y & Hy & Hry & Hv);
    [by exists x|done|].
  split; [by exists y|]. split; intros; [cbn [Set_]|unfold Chain]; unfold future; run; by rewrite Hy, Hry.
Qed.

(** a coroutine that calls [Get] on a future that is not ready blocks; after
    [Set], the coroutine is resumed with exactly the value and the error that
    were set, and so is every later [Get]. *)
Theorem future_get fuel f x ch w k k' v err :
  futures w !! f = Some x → ready x = false → chained x = [] →
  channels w !! fut_channel x = Some ch → closed ch = false → signal_only ch →
  ∃ w1 w2, Get (S fuel) f k w = (Ret Blocked, w1)
    ∧ Set_ (S fuel) f v err w1 = (Ret tt, w2)
    ∧ fst (Get_resume (S fuel) f k w2) = Ret (Done (v, err))
    ∧ fst (Get (S fuel) f k' w2) = Ret (Done (v, err)).
Proof.
  intros Hf Hr Hchain Hc Hcl Hs.
  destruct (Get_blocks_run fuel f x ch w k Hf Hc Hcl Hs) as (w1 & ch1 & Hget & Hf1 & Hc1 & _ & Hs1 & Hin & _).
  destruct (Set_run fuel f x ch1 w1 v err) as (w2 & ch2 & Hset & Hf2 & Hc2 & Hcl2 & Hs2 & Hk);
    [by rewrite Hf1|done..|].
  assert (futures w2 !! f = Some (Future v err true (fut_channel x) [])) as Hf2'
    by (rewrite Hf2; apply lookup_insert_eq).
  exists w1, w2. split_and!; [done|done| |].
  - by rewrite (Get_woken_run (S fuel) f _ w2 k _ _ Hf2' (Hk k Hin)).
  - by rewrite (Get_ready_run fuel f _ ch2 w2 k' Hf2').
Qed.

End props.

(** ** Instances and examples *)

Abbreviation nstore := (store (V:=nat)).

(** A channel of size 1 that holds a value, with a second sender blocked. *)
Definition full_channel : nstore :=
  snd (cexec (cSend 0 1 (Some 8)) (snd (cexec (cSend 0 0 (Some 7)) (snd (cexec (cNewChannel 0 1) newStore))))).

Lemma full_channel_reachable : rtc cstep newStore full_channel.
Proof.
  eapply rtc_l; [apply (cstep_op newStore (cNewChannel 0 1)); reflexivity|].
  eapply rtc_l; [by apply (cstep_op _ (cSend 0 0 (Some 7)))|].
  eapply rtc_l; [by apply (cstep_op _ (cSend 0 1 (Some 8)))|]. apply rtc_refl.
Qed.

Definition full_channel_impl : channelImpl (V:=nat) :=
  Channel 1 [Some 7] [sndCell 1 (Some 8)] [] false None.

Lemma channels_invariant_witness : length (buffer full_channel_impl) ≤ ch_size full_channel_impl.
Proof.
  refine (proj1 (channels_invariant full_channel 0 full_channel_impl full_channel_reachable _)).
  vm_compute. reflexivity.
Defined.

Lemma channel_refines_queue_witness :
  let w : nstore := snd (cexec (cNewChannel 0 1) newStore) in
  fst (chan_run 0 [qSend (Some 5); qSend (Some 6); qReceive; qReceive] w)
  = Ret [(None, true); (None, false); (Some 5, true); (None, false)].
Proof.
  intros w.
  pose proof (channel_refines_queue 0 1 [qSend (Some 5); qSend (Some 6); qReceive; qReceive] w eq_refl) as H.
  exact (f_equal fst H).
Defined.

Lemma receive_fifo_witness :
  ∃ w' ch', channels w' = <[0 := ch']> (channels full_channel)
    ∧ receiveAsyncImpl 0 None full_channel = (Ret (Some 7, true, true), w') ∧ queue w' ch' = [Some 8].
Proof.
  pose proof (receive_fifo full_channel 0 full_channel_impl None full_channel_reachable) as H.
  rewrite decide_False in H by (by intros [? _]).
  destruct H as (w' & ch' & Hc & Hrun & Hq & _); [vm_compute; reflexivity|repeat constructor; set_solver|].
  by exists w', ch'.
Defined.

Lemma send_delivers_witness :
  ∃ w', sendAsyncImpl 0 (Some 9) None full_channel = (Ret false, w').
Proof.
  pose proof (send_delivers full_channel 0 full_channel_impl (Some 9) None full_channel_reachable) as H.
  destruct H as (w' & ch' & Hc & [[Hrun _]|[Hrun _]]); [vm_compute; reflexivity| |by exists w'].
  exfalso. revert Hrun. vm_compute. discriminate.
Defined.

(** A selector whose receive case found a value. *)
Definition selected : nstore :=
  snd (cexec (cSelect 0 [caseReceive 0] false) full_channel).

Lemma select_once_witness :
  sessions (snd (cexec (cSend 0 2 (Some 4)) selected)) !! 0 = Some (Some branchDone).
Proof.
  apply (select_once 0 branchDone selected); [vm_compute; reflexivity|].
  apply rtc_once. by apply (cstep_op _ (cSend 0 2 (Some 4))).
Defined.

Definition future_store : nstore := snd (cexec (cNewFuture 0 0) newStore).

Lemma future_set_once_witness :
  let w := snd (Set_ 1 0 (Some 3) None future_store) in
  fst (Set_ 1 0 (Some 4) None (snd (cexec (cGet 1 0 0) w))) = Panic (StringPanic "already set").
Proof.
  intros w. destruct (future_set_once 0 (Future (Some 3) None true 0 []) w (snd (cexec (cGet 1 0 0) w)))
    as (_ & Hset & _); [vm_compute; reflexivity|done| |by rewrite Hset].
  apply rtc_once. by apply (cstep_op _ (cGet 1 0 0)).
Defined.

Lemma future_get_witness :
  ∃ w1 w2, Get 1 0 0 future_store = (Ret Blocked, w1) ∧ Set_ 1 0 (Some 3) None w1 = (Ret tt, w2)
    ∧ fst (Get_resume 1 0 0 w2) = Ret (Done (Some 3, None)).
Proof.
  destruct (future_get 0 0 (Future None None false 0 []) (Channel 0 [] [] [] false None)
              future_store 0 1 (Some 3) None) as (w1 & w2 & ? & ? & ? & _);
    [reflexivity..|by split_and!|]. by exists w1, w2.
Defined.

(** ** Behaviours worth knowing *)

(** [Chain] on a future that is already ready makes the chained future ready
    without closing its channel: [IsReady] answers true and [Get] blocks. *)
Theorem chain_to_ready_blocks :
  let w := snd (Set_ 1 1 (Some 3) None (snd (cexec (cNewFuture 1 1) future_store))) in
  let w' := snd (Chain 0 1 w) in
  fst (IsReady 0 w') = Ret true ∧ fst (Get 1 0 0 w') = Ret Blocked.
Proof. split; vm_compute; reflexivity. Qed.

(** A [Select] that waits for a channel and is woken by [Close] leaves a nil
    value behind: a [Receive] in its branch answers that there is more. *)
Theorem select_woken_by_close_leaves_nil :
  let w : nstore := snd (cexec (cNewChannel 0 0) newStore) in
  let w1 := snd (Select 0 [caseReceive 0] false w) in
  let w2 := snd (Close 0 w1) in
  let r := Select_resume 0 w2 in
  fst r = Ret (Done (chosenReceive 0 false))
  ∧ fst (Receive any_value 1 0 0 (snd r)) = Ret (Done (Some None, true))
  ∧ fst (receiveAsyncImpl 0 None w2) = Ret (None, false, false).
Proof. split_and!; vm_compute; reflexivity. Qed.

(** A [Select] with a receive case and then a send case on the same unbuffered
    channel sends to itself: only the send case runs and the value is lost. *)
Theorem select_sends_to_itself :
  let w : nstore := snd (cexec (cNewChannel 0 0) newStore) in
  let r := Select 0 [caseReceive 0; caseSend 0 (Some 5)] false w in
  (∃ l, fst r = Ret (Done (chosenSend 1), l))
  ∧ fst (receiveAsyncImpl 0 None (snd r)) = Ret (None, false, true).
Proof. split; [eexists|]; vm_compute; reflexivity. Qed.
