(* ===== verification/Errors.v ===== *)
(** * Errors of activities and workflows

    internal/error.go and the conversions of internal/internal_utils.go and
    internal/internal_task_pollers.go: the errors that activities and workflows
    return, the reason and the details under which they are sent to the server,
    and the errors that are built from what the server sends back. *)

From stdpp Require Import base list strings option countable pretty.
From Stdlib Require Import ZArith Ascii SpecFloat.
From S2P Require Import Prelude.
From S2P Require Import Shared.

(** ** Durations and seconds

    [time.Duration] counts nanoseconds in an int64; [Seconds] is a float64,
    computed here with the Standard Library's IEEE 754 operations. *)

Abbreviation float64 := spec_float.
Definition float_of_int (z : Z) : float64 := binary_normalize 53 1024 z 0 false.

(** [func (d Duration) Seconds() float64] of package time:
    [float64(d/Second) + float64(d%Second)/1e9], with Go's truncated division. *)
Definition Seconds (d : Z) : float64 :=
  SFadd 53 1024 (float_of_int (Z.quot d 1000000000))
    (SFdiv 53 1024 (float_of_int (Z.rem d 1000000000)) (float_of_int 1000000000)).

(** [math.Ceil], as an integer; the argument is finite here. *)
Definition Ceil (f : float64) : Z :=
  match f with
  | S754_finite s m e =>
      let n := if s then Z.neg m else Z.pos m in
      if decide (0 ≤ e)%Z then (n * 2 ^ e)%Z else (- ((- n) `div` 2 ^ (- e)))%Z
  | _ => 0%Z
  end.

(** The conversion of what is out of range gives the least integer, as on amd64. *)
Definition Int64Ceil (f : float64) : Z :=
  if decide (- 2 ^ 63 ≤ Ceil f < 2 ^ 63)%Z then Ceil f else (- 2 ^ 63)%Z.
Definition Int32Ceil (f : float64) : Z :=
  if decide (- 2 ^ 31 ≤ Ceil f < 2 ^ 31)%Z then Ceil f else (- 2 ^ 31)%Z.

Definition durationToThriftSeconds (d : Z) : option Z :=
  if decide (d = 0%Z) then None else Some (Int32Ceil (Seconds d)).

(** ** The types of errors *)

Definition errReasonPanic := "cadenceInternal:Panic".
Definition errReasonGeneric := "cadenceInternal:Generic".
Definition errReasonCanceled := "cadenceInternal:Canceled".
Definition errReasonTimeout := "cadenceInternal:Timeout".

Definition badNilErrMsg (type : string) : string :=
  "cadence received an invalid nil `" +:+ type +:+ "`. this likely means you have a typed nil"
  +:+ " which is being converted into an `error` value: https://go.dev/doc/faq#nil_error".

(** The implementations of [Values] that errors carry. *)
Inductive Values :=
| ErrorDetailsValues (l : list goValue)
| EncodedValues (values : bytes).

Record CustomError := MkCustomError {
  reason : string;
  details : Values;
  failureCategory : option FailureCategory;
  nextRetryDelay : Z }.

(** The parameters of the next run that a workflow continues as. *)
Record ContinueAsNewError := MkContinueAsNewError {
  can_workflowType : string;
  can_input : bytes;
  can_taskListName : option string;
  can_executionStartToCloseTimeoutSeconds : option Z;
  can_taskStartToCloseTimeoutSeconds : option Z;
  can_header : option Header;
  can_cronSchedule : string }.

(** A value of type [error] is a pointer to a struct, which can be nil. *)
Inductive goError :=
| ErrCustom (e : option CustomError)
| ErrGeneric (err : string)
| ErrTimeout (e : option (TimeoutType * Values))
| ErrCanceled (e : option Values)
| ErrPanic (e : option (string * string))          (** value and stack trace *)
| ErrWorkflowPanic (value : panic)
| ErrContinueAsNew (e : option ContinueAsNewError)
| ErrTerminated
| ErrUnknownExternalWorkflowExecution
| ErrActivityResultPending
| ErrContextCanceled                                (** [context.Canceled] *)
| ErrAlreadyStarted (message : string)              (** of the Thrift API *)
| ErrText (text : string).                          (** [errors.New], [fmt.Errorf] *)

Inductive CustomErrorOption :=
| WithFailureCategory (failureCategory : FailureCategory)
| WithNextRetryDelay (delay : Z).

Inductive detail :=
| DValue (v : goValue)
| DOption (o : CustomErrorOption).

Definition applyOption (o : CustomErrorOption) (e : CustomError) : CustomError :=
  match o with
  | WithFailureCategory c => MkCustomError (reason e) (details e) (Some c) (nextRetryDelay e)
  | WithNextRetryDelay d => MkCustomError (reason e) (details e) (failureCategory e) d
  end.

(** The loop over the details: options are applied, the rest are values. *)
Fixpoint splitDetails (ds : list detail) (e : CustomError) (values : list goValue) : CustomError :=
  match ds with
  | [] => MkCustomError (reason e) (ErrorDetailsValues values) (failureCategory e) (nextRetryDelay e)
  | DOption o :: ds => splitDetails ds (applyOption o e) values
  | DValue v :: ds => splitDetails ds e (values ++ [v])
  end.

Definition NewCustomError (reason : string) (details : list detail) : outcome CustomError :=
  if String.prefix "cadenceInternal:" reason then
    Panic (StringPanic "'cadenceInternal:' is reserved prefix, please use different reason")
  else
    match details with
    | [DValue (GEncodedValues d)] => Ret (MkCustomError reason (EncodedValues d) None 0)
    | [] => Ret (MkCustomError reason (ErrorDetailsValues []) None 0)
    | _ => Ret (splitDetails details (MkCustomError reason (ErrorDetailsValues []) None 0) [])
    end.

(** The details of a timeout and of a cancellation. *)
Definition newDetails (details : list goValue) : Values :=
  match details with
  | [GEncodedValues d] => EncodedValues d
  | _ => ErrorDetailsValues details
  end.

Definition NewTimeoutError (t : TimeoutType) (details : list goValue) : goError :=
  ErrTimeout (Some (t, newDetails details)).
Definition NewCanceledError (details : list goValue) : goError :=
  ErrCanceled (Some (newDetails details)).
Definition newPanicError (value stackTrace : string) : goError := ErrPanic (Some (value, stackTrace)).

Definition IsCanceledError (err : goError) : bool :=
  match err with ErrCanceled _ => true | _ => false end.

Definition GetFailureCategory (e : option CustomError) : outcome FailureCategory :=
  e ← deref e; mret (default FailureCategoryStandard (failureCategory e)).
Definition GetNextRetryDelay (e : option CustomError) : outcome Z :=
  e ← deref e; mret (nextRetryDelay e).

(** ** Reading details *)

Definition HasValues (v : Values) : bool :=
  match v with
  | ErrorDetailsValues l => negb (bool_decide (l = []))
  | EncodedValues b => match b with Some _ => true | None => false end
  end.

(** [val.Type().AssignableTo(target.Type())] and [target.Set(val)] for each
    pointer. *)
Fixpoint assign_details (ts : list goType) (l : list goValue) : string + list goValue :=
  match ts, l with
  | [], _ => inr []
  | t :: ts, v :: l =>
      if decide (typeOf v = t) then
        match assign_details ts l with inr vs => inr (v :: vs) | inl err => inl err end
      else inl "unable to decode argument"
  | _ :: _, [] => inl "too many arguments"
  end.

Section converter.
Context {dc : DataConverter}.

Definition Values_Get (v : Values) (ts : list goType) : string + list goValue :=
  if negb (HasValues v) then inl "no data available" else
  match v with
  | ErrorDetailsValues l =>
      if decide (length l < length ts) then inl "too many arguments" else assign_details ts l
  | EncodedValues b => FromData b ts
  end.

(** [Details]: the same for custom, timeout and cancelation errors. *)
Definition Details (v : Values) (ts : list goType) : string + list goValue :=
  if negb (HasValues v) then inl "no data available" else Values_Get v ts.

(** ** Text *)

Definition TimeoutType_String (t : TimeoutType) : string :=
  match t with
  | TimeoutTypeStartToClose => "START_TO_CLOSE"
  | TimeoutTypeScheduleToStart => "SCHEDULE_TO_START"
  | TimeoutTypeScheduleToClose => "SCHEDULE_TO_CLOSE"
  | TimeoutTypeHeartbeat => "HEARTBEAT"
  | TimeoutTypeUnknown z => "TimeoutType(" +:+ pretty z +:+ ")"
  end.

(** The panic value printed with [%v]; run-time errors print their message. *)
Definition panic_text (p : panic) : string :=
  match p with
  | IllegalStatePanic m => m
  | StringPanic m => m
  | ErrorPanic m => m
  | NilDereference => "runtime error: invalid memory address or nil pointer dereference"
  | IndexOutOfRange => "runtime error: index out of range"
  | OutOfFuel => ""
  end.

Definition Error (err : goError) : outcome string :=
  match err with
  | ErrCustom e => e ← deref e; mret (reason e)
  | ErrGeneric s => Ret s
  | ErrTimeout e => e ← deref e; mret ("TimeoutType: " +:+ TimeoutType_String e.1)
  | ErrCanceled _ => Ret "CanceledError"
  | ErrPanic e => e ← deref e; mret e.1
  | ErrWorkflowPanic p => Ret (panic_text p)
  | ErrContinueAsNew _ => Ret "ContinueAsNew"
  | ErrTerminated => Ret "Terminated"
  | ErrUnknownExternalWorkflowExecution => Ret "UnknownExternalWorkflowExecution"
  | ErrActivityResultPending =>
      Ret "not error: do not autocomplete, using Client.CompleteActivity() to complete"
  | ErrContextCanceled => Ret "context canceled"
  | ErrAlreadyStarted m => Ret ("WorkflowExecutionAlreadyStartedError{Message: " +:+ m +:+ "}")
  | ErrText s => Ret s
  end.

(** ** To the server *)

(** [switch details := err.details.(type)], then [panic(err0)] on an error. *)
Definition encodeDetails (v : Values) : outcome bytes :=
  match v with
  | ErrorDetailsValues l =>
      match ToData l with inr data => Ret data | inl err => Panic (ErrorPanic err) end
  | EncodedValues b => Ret b
  end.

Definition badNil (type : string) : string * bytes :=
  (errReasonGeneric, string_to_bytes (badNilErrMsg type)).

Definition getErrorDetails (err : goError) : outcome (string * bytes) :=
  match err with
  | ErrCustom None => Ret (badNil "*internal.CustomError")
  | ErrCustom (Some e) => data ← encodeDetails (details e); mret (reason e, data)
  | ErrCanceled None => Ret (badNil "*internal.CanceledError")
  | ErrCanceled (Some v) => data ← encodeDetails v; mret (errReasonCanceled, data)
  | ErrPanic None => Ret (badNil "*internal.PanicError")
  | ErrPanic (Some (value, stackTrace)) =>
      match ToData [GString value; GString stackTrace] with
      | inr data => Ret (errReasonPanic, data)
      | inl err => Panic (ErrorPanic err)
      end
  | ErrTimeout None => Ret (badNil "*internal.TimeoutError")
  | ErrTimeout (Some (t, v)) =>
      data ← encodeDetails v;
      mret (errReasonTimeout +:+ " " +:+ TimeoutType_String t, data)
  | _ => text ← Error err; mret (errReasonGeneric, string_to_bytes text)
  end.

Definition getFailureOptions (err : goError) : outcome (option FailureOptions) :=
  match err with
  | ErrCustom e =>
      category ← GetFailureCategory e;
      delay ← GetNextRetryDelay e;
      mret (Some (MkFailureOptions (Some category) (durationToThriftSeconds delay)))
  | _ => mret None
  end.

(** The requests that report the result of an activity. *)
Inductive activityResponse :=
| RespondNothing
| RespondActivityTaskCompletedRequest (taskToken result : bytes) (identity : string)
| RespondActivityTaskCanceledRequest (taskToken details : bytes) (identity : string)
| RespondActivityTaskFailedRequest (taskToken : bytes) (reason : string) (details : bytes)
    (identity : string) (failureOptions : option FailureOptions).

Definition convertActivityResultToRespondRequest (identity : string) (taskToken result : bytes)
    (err : option goError) : outcome activityResponse :=
  match err with
  | Some ErrActivityResultPending => Ret RespondNothing
  | None => Ret (RespondActivityTaskCompletedRequest taskToken result identity)
  | Some err =>
      rd ← getErrorDetails err;
      match err with
      | ErrCanceled _ | ErrContextCanceled =>
          mret (RespondActivityTaskCanceledRequest taskToken rd.2 identity)
      | _ =>
          options ← getFailureOptions err;
          mret (RespondActivityTaskFailedRequest taskToken rd.1 rd.2 identity options)
      end
  end.

(** ** From the server *)

(** [strconv.ParseInt(s, 10, 32)] *)
Fixpoint parse_digits (s : string) (acc : Z) : option Z :=
  match s with
  | "" => Some acc
  | String c s =>
      let d := (Z.of_nat (nat_of_ascii c) - 48)%Z in
      if decide (0 ≤ d ∧ d ≤ 9)%Z then parse_digits s (acc * 10 + d)%Z else None
  end.
Definition ParseInt32 (s : string) : option Z :=
  let '(neg, digits) :=
    match s with
    | String "-" s => (true, s)
    | String "+" s => (false, s)
    | _ => (false, s)
    end in
  if decide (digits = "") then None else
  n ← parse_digits digits 0;
  let n := if neg : bool then (- n)%Z else n in
  if decide (in_int32 n) then Some n else None.

Definition TimeoutType_of_int (z : Z) : TimeoutType :=
  if decide (z = 0)%Z then TimeoutTypeStartToClose
  else if decide (z = 1)%Z then TimeoutTypeScheduleToStart
  else if decide (z = 2)%Z then TimeoutTypeScheduleToClose
  else if decide (z = 3)%Z then TimeoutTypeHeartbeat
  else TimeoutTypeUnknown z.

Definition TimeoutType_UnmarshalText (s : string) : option TimeoutType :=
  if decide (s = "START_TO_CLOSE") then Some TimeoutTypeStartToClose
  else if decide (s = "SCHEDULE_TO_START") then Some TimeoutTypeScheduleToStart
  else if decide (s = "SCHEDULE_TO_CLOSE") then Some TimeoutTypeScheduleToClose
  else if decide (s = "HEARTBEAT") then Some TimeoutTypeHeartbeat
  else TimeoutType_of_int <$> ParseInt32 s.

(** [reason[strings.Index(reason, " ")+1:]]: what follows the first space, the
    whole text when there is none. *)
Fixpoint after_space (s : string) : option string :=
  match s with
  | "" => None
  | String c s => if decide (c = " "%char) then Some s else after_space s
  end.

Definition getTimeoutTypeFromErrReason (reason : string) : option TimeoutType :=
  TimeoutType_UnmarshalText (default reason (after_space reason)).

Definition constructError (reason : string) (details : bytes) : outcome goError :=
  if String.prefix errReasonTimeout reason then
    match getTimeoutTypeFromErrReason reason with
    | Some timeoutType => Ret (NewTimeoutError timeoutType [GEncodedValues details])
    | None =>
        match Values_Get (EncodedValues details) [TEnum] with
        | inr (GEnum z :: _) => Ret (NewTimeoutError (TimeoutType_of_int z) [])
        | inr _ => Ret (NewTimeoutError (TimeoutType_of_int 0) [])
        | inl err => Panic (ErrorPanic err)
        end
    end
  else if decide (reason = errReasonPanic) then
    match Values_Get (EncodedValues details) [TString; TString] with
    | inr [GString msg; GString st] => Ret (newPanicError msg st)
    | _ => Ret (newPanicError "" "")
    end
  else if decide (reason = errReasonGeneric) then Ret (ErrGeneric (bytes_to_string details))
  else if decide (reason = errReasonCanceled) then
    Ret (NewCanceledError [GEncodedValues details])
  else e ← NewCustomError reason [DValue (GEncodedValues details)]; mret (ErrCustom (Some e)).

End converter.

(** ** What survives the way to the server and back *)

Section round_trip.
Context {dc : DataConverter} `{!DataConverterRoundTrip dc}.

Lemma prefix_app a b r : String.prefix (a +:+ b) r = true → String.prefix a r = true.
Proof.
  revert r. induction a as [|c a IH]; intros r; [by destruct r|]. destruct r as [|c' r]; simpl; [done|].
  destruct (Ascii.ascii_dec c c'); [apply IH|done].
Qed.

(** Reasons that the package does not reserve to itself. *)
Definition user_reason (r : string) : Prop := String.prefix "cadenceInternal:" r = false.

Lemma user_reason_ne r r' :
  user_reason r → String.prefix "cadenceInternal:" r' = true → r ≠ r'.
Proof. unfold user_reason. intros ?? ->. congruence. Qed.

Lemma constructError_custom r d :
  user_reason r → constructError r d = Ret (ErrCustom (Some (MkCustomError r (EncodedValues d) None 0))).
Proof.
  intros Hr. unfold constructError.
  destruct (String.prefix errReasonTimeout r) eqn:Ht.
  { apply (prefix_app "cadenceInternal:" "Timeout") in Ht. unfold user_reason in Hr. congruence. }
  rewrite !decide_False by (apply user_reason_ne; [done|reflexivity]).
  unfold NewCustomError. by rewrite Hr.
Qed.

(** Details that are already encoded stay as they are; others can be read back
    at their own types. *)
Definition same_details (v v' : Values) : Prop :=
  match v with
  | EncodedValues b => v' = EncodedValues b
  | ErrorDetailsValues l => ∀ b, ToData l = inr (Some b) → Details v' (typeOf <$> l) = inr l
  end.

Lemma encodeDetails_same v d : encodeDetails v = Ret d → same_details v (EncodedValues d).
Proof.
  destruct v as [l|b]; simpl; [|by intros [= ->]]. destruct (ToData l) as [?|d'] eqn:Hd; [done|].
  intros [= ->] b [= ->]. unfold Details, Values_Get. simpl. by apply FromData_ToData.
Qed.

(** The error that the workflow sees, given the one that was returned. *)
Definition same_error (err err' : goError) : Prop :=
  match err with
  | ErrCustom (Some e) => ∃ e', err' = ErrCustom (Some e') ∧ reason e' = reason e
      ∧ same_details (details e) (details e')
  | ErrTimeout (Some (t, v)) => ∃ v', err' = ErrTimeout (Some (t, v')) ∧ same_details v v'
  | ErrCanceled (Some v) => ∃ v', err' = ErrCanceled (Some v') ∧ same_details v v'
  | ErrPanic (Some (value, st)) => ∀ b, ToData [GString value; GString st] = inr (Some b) → err' = err
  | ErrCustom None | ErrTimeout None | ErrCanceled None | ErrPanic None =>
      ∃ text, err' = ErrGeneric text
  | _ => ∃ text, Error err = Ret text ∧ err' = ErrGeneric text
  end.

(** Errors that the constructors of the package can build. *)
Definition constructible (err : goError) : Prop :=
  match err with
  | ErrCustom (Some e) => user_reason (reason e)
  | ErrTimeout (Some (TimeoutTypeUnknown _, _)) => False
  | _ => True
  end.

(** C32: an error that an activity or a workflow returns and that can be encoded
    comes back from the server as the error that the documentation promises: a
    custom error with its reason, a timeout with its type, a cancellation, each
    with details that decode to the original values; a panic with its message and
    stack; and any other error as a generic error with its text. *)
Theorem error_round_trip err r d :
  constructible err → getErrorDetails err = Ret (r, d) →
  ∃ err', constructError r d = Ret err' ∧ same_error err err'.
Proof.
  intros Hc Hd. destruct err as [[e|]| |[[t v]|]|[v|]|[[value st]|]| | | | | | | |]; simpl in Hd, Hc |- *;
    try (injection Hd as <- <-; eexists; split; [reflexivity|simpl; eauto]; done).
  - destruct (encodeDetails (details e)) as [data|] eqn:Hdata; [|done]. injection Hd as <- <-.
    rewrite constructError_custom by done. eexists. split; [done|]. eexists.
    split_and!; [done..|]. by apply encodeDetails_same.
  - destruct (encodeDetails v) as [data|] eqn:Hdata; [|done]. injection Hd as <- <-.
    exists (ErrTimeout (Some (t, EncodedValues data))). split; [by destruct t|].
    eexists. split; [done|]. by apply encodeDetails_same.
  - destruct (encodeDetails v) as [data|] eqn:Hdata; [|done]. injection Hd as <- <-.
    eexists. split; [reflexivity|]. eexists. split; [done|]. by apply encodeDetails_same.
  - destruct (ToData [GString value; GString st]) as [?|data] eqn:Hdata; [done|].
    injection Hd as <- <-. unfold constructError. simpl.
    destruct data as [data|]; [|by eexists].
    unfold Values_Get. simpl. apply FromData_ToData in Hdata. simpl in Hdata. rewrite Hdata.
    eexists. split; [done|]. by intros.
Qed.

End round_trip.

#[local] Existing Instance bitConverter_RoundTrip.

Lemma error_round_trip_witness :
  ∃ r d err', getErrorDetails (dc:=bitConverter)
      (ErrCustom (Some (MkCustomError "quota" (ErrorDetailsValues [GInt 7]) None 0))) = Ret (r, d)
    ∧ constructError (dc:=bitConverter) r d = Ret err'
    ∧ same_error (dc:=bitConverter)
        (ErrCustom (Some (MkCustomError "quota" (ErrorDetailsValues [GInt 7]) None 0))) err'.
Proof.
  destruct (error_round_trip (dc:=bitConverter)
    (ErrCustom (Some (MkCustomError "quota" (ErrorDetailsValues [GInt 7]) None 0)))
    "quota" (Some (bits_of_pos (encode [GInt 7]))) eq_refl eq_refl) as (err' & ? & ?).
  by eexists _, _, err'.
Defined.

(** An activity that returns a nil pointer of type [*CustomError]: the reason
    and the details are prepared for it, and then its failure options panic. *)
Theorem typed_nil_custom_error_panics {dc : DataConverter} identity taskToken result :
  (∃ r d, getErrorDetails (ErrCustom None) = Ret (r, d))
  ∧ convertActivityResultToRespondRequest identity taskToken result (Some (ErrCustom None))
    = Panic NilDereference.
Proof. split; [by eexists _, _|done]. Qed.

(** A reserved reason that this version does not know cannot be received. *)
Theorem unknown_internal_reason_panics {dc : DataConverter} d :
  ∃ m, constructError "cadenceInternal:Quota" d = Panic (StringPanic m).
Proof. by eexists. Qed.
