(* ===== verification/HistorySize.v ===== *)
(** * The size of a history

    internal/internal_utils.go, lines 387-521: the estimate of the bytes that an
    event adds to the history of a workflow. *)

From stdpp Require Import base list gmap strings option.
From S2P Require Import Prelude.
From S2P Require Import Shared.

(** 400 bytes for the fields that every event has. *)
Definition historySizeEstimationBuffer : nat := 400.

Definition getLengthOfStringPointer (s : option string) : nat :=
  match s with None => 0 | Some s => String.length s end.

Definition sizeOf (o : option (gmap string bytes)) : nat :=
  map_fold (λ k v sum, sum + (String.length k + len_bytes v)) 0 (default ∅ o).

(** [sizeOf(x.GetFields())], where [x] may be nil. *)
Definition fields_size {A} (fields : A → option (gmap string bytes)) (x : option A) : nat :=
  sizeOf (x ≫= fields).

Definition when {A} (attributes : option A) (size : A → nat) : nat :=
  match attributes with Some a => size a | None => 0 end.

Definition event_size (event : HistoryEvent) : nat :=
  match GetEventType event with
  | EventTypeWorkflowExecutionStarted =>
      when (HistoryEvent_WorkflowExecutionStartedEventAttributes event) (λ a,
        len_bytes (WorkflowExecutionStartedEventAttributes_Input a)
        + len_bytes (WorkflowExecutionStartedEventAttributes_ContinuedFailureDetails a)
        + len_bytes (WorkflowExecutionStartedEventAttributes_LastCompletionResult a)
        + fields_size Memo_Fields (WorkflowExecutionStartedEventAttributes_Memo a)
        + fields_size Header_Fields (WorkflowExecutionStartedEventAttributes_Header a)
        + fields_size SearchAttributes_IndexedFields (WorkflowExecutionStartedEventAttributes_SearchAttributes a))
  | EventTypeWorkflowExecutionCompleted =>
      when (HistoryEvent_WorkflowExecutionCompletedEventAttributes event) (λ a,
        len_bytes (WorkflowExecutionCompletedEventAttributes_Result a))
  | EventTypeWorkflowExecutionSignaled =>
      when (HistoryEvent_WorkflowExecutionSignaledEventAttributes event) (λ a,
        len_bytes (WorkflowExecutionSignaledEventAttributes_Input a))
  | EventTypeWorkflowExecutionFailed =>
      when (HistoryEvent_WorkflowExecutionFailedEventAttributes event) (λ a,
        len_bytes (WorkflowExecutionFailedEventAttributes_Details a))
  | EventTypeDecisionTaskStarted =>
      when (HistoryEvent_DecisionTaskStartedEventAttributes event) (λ a,
        getLengthOfStringPointer (DecisionTaskStartedEventAttributes_Identity a))
  | EventTypeDecisionTaskCompleted =>
      when (HistoryEvent_DecisionTaskCompletedEventAttributes event) (λ a,
        len_bytes (DecisionTaskCompletedEventAttributes_ExecutionContext a)
        + getLengthOfStringPointer (DecisionTaskCompletedEventAttributes_Identity a)
        + getLengthOfStringPointer (DecisionTaskCompletedEventAttributes_BinaryChecksum a))
  | EventTypeDecisionTaskFailed =>
      when (HistoryEvent_DecisionTaskFailedEventAttributes event) (λ a,
        len_bytes (DecisionTaskFailedEventAttributes_Details a))
  | EventTypeActivityTaskScheduled =>
      when (HistoryEvent_ActivityTaskScheduledEventAttributes event) (λ a,
        len_bytes (ActivityTaskScheduledEventAttributes_Input a)
        + fields_size Header_Fields (ActivityTaskScheduledEventAttributes_Header a))
  | EventTypeActivityTaskStarted =>
      when (HistoryEvent_ActivityTaskStartedEventAttributes event) (λ a,
        len_bytes (ActivityTaskStartedEventAttributes_LastFailureDetails a))
  | EventTypeActivityTaskCompleted =>
      when (HistoryEvent_ActivityTaskCompletedEventAttributes event) (λ a,
        len_bytes (ActivityTaskCompletedEventAttributes_Result a)
        + getLengthOfStringPointer (ActivityTaskCompletedEventAttributes_Identity a))
  | EventTypeActivityTaskFailed =>
      when (HistoryEvent_ActivityTaskFailedEventAttributes event) (λ a,
        len_bytes (ActivityTaskFailedEventAttributes_Details a))
  | EventTypeActivityTaskTimedOut =>
      when (HistoryEvent_ActivityTaskTimedOutEventAttributes event) (λ a,
        len_bytes (ActivityTaskTimedOutEventAttributes_Details a)
        + len_bytes (ActivityTaskTimedOutEventAttributes_LastFailureDetails a))
  | EventTypeActivityTaskCanceled =>
      when (HistoryEvent_ActivityTaskCanceledEventAttributes event) (λ a,
        len_bytes (ActivityTaskCanceledEventAttributes_Details a))
  | EventTypeMarkerRecorded =>
      when (HistoryEvent_MarkerRecordedEventAttributes event) (λ a,
        len_bytes (MarkerRecordedEventAttributes_Details a))
  | EventTypeWorkflowExecutionTerminated =>
      when (HistoryEvent_WorkflowExecutionTerminatedEventAttributes event) (λ a,
        len_bytes (WorkflowExecutionTerminatedEventAttributes_Details a))
  | EventTypeWorkflowExecutionCanceled =>
      when (HistoryEvent_WorkflowExecutionCanceledEventAttributes event) (λ a,
        len_bytes (WorkflowExecutionCanceledEventAttributes_Details a))
  | EventTypeWorkflowExecutionContinuedAsNew =>
      when (HistoryEvent_WorkflowExecutionContinuedAsNewEventAttributes event) (λ a,
        len_bytes (WorkflowExecutionContinuedAsNewEventAttributes_Input a)
        + len_bytes (WorkflowExecutionContinuedAsNewEventAttributes_FailureDetails a)
        + len_bytes (WorkflowExecutionContinuedAsNewEventAttributes_LastCompletionResult a)
        + fields_size Memo_Fields (WorkflowExecutionContinuedAsNewEventAttributes_Memo a)
        + fields_size Header_Fields (WorkflowExecutionContinuedAsNewEventAttributes_Header a)
        + fields_size SearchAttributes_IndexedFields (WorkflowExecutionContinuedAsNewEventAttributes_SearchAttributes a))
  | EventTypeStartChildWorkflowExecutionInitiated =>
      when (HistoryEvent_StartChildWorkflowExecutionInitiatedEventAttributes event) (λ a,
        len_bytes (StartChildWorkflowExecutionInitiatedEventAttributes_Input a)
        + len_bytes (StartChildWorkflowExecutionInitiatedEventAttributes_Control a)
        + fields_size Memo_Fields (StartChildWorkflowExecutionInitiatedEventAttributes_Memo a)
        + fields_size Header_Fields (StartChildWorkflowExecutionInitiatedEventAttributes_Header a)
        + fields_size SearchAttributes_IndexedFields (StartChildWorkflowExecutionInitiatedEventAttributes_SearchAttributes a))
  | EventTypeChildWorkflowExecutionCompleted =>
      when (HistoryEvent_ChildWorkflowExecutionCompletedEventAttributes event) (λ a,
        len_bytes (ChildWorkflowExecutionCompletedEventAttributes_Result a))
  | EventTypeChildWorkflowExecutionFailed =>
      when (HistoryEvent_ChildWorkflowExecutionFailedEventAttributes event) (λ a,
        len_bytes (ChildWorkflowExecutionFailedEventAttributes_Details a)
        + getLengthOfStringPointer (ChildWorkflowExecutionFailedEventAttributes_Reason a))
  | EventTypeChildWorkflowExecutionCanceled =>
      when (HistoryEvent_ChildWorkflowExecutionCanceledEventAttributes event) (λ a,
        len_bytes (ChildWorkflowExecutionCanceledEventAttributes_Details a))
  | EventTypeSignalExternalWorkflowExecutionInitiated =>
      when (HistoryEvent_SignalExternalWorkflowExecutionInitiatedEventAttributes event) (λ a,
        len_bytes (SignalExternalWorkflowExecutionInitiatedEventAttributes_Control a)
        + len_bytes (SignalExternalWorkflowExecutionInitiatedEventAttributes_Input a))
  | _ => 0
  end.

Definition estimateHistorySize (event : HistoryEvent) : nat :=
  historySizeEstimationBuffer + event_size event.
