(* ===== verification/Environment.v ===== *)
(** * The workflow environment

    internal/internal_event_handlers.go: what workflow code asks of the
    environment in which it runs (activities, timers, child workflows, signals,
    versions, side effects, local activities).  The events of a history are in
    EventHandlers.v.

    The environment calls closures of the workflow.  A closure is named by a
    number, and a call of one is recorded in [calls].  Result handlers only set
    futures (workflow.go: [settable.Set], [removeReceiveCallback]), which does
    not use the environment: their calls are recorded and nothing else. *)

From stdpp Require Import base list gmap strings option pretty.
From Stdlib Require Import ZArith.
From S2P Require Import Prelude.
From S2P Require Import Shared.
From S2P Require Import DecisionStateMachine.
From S2P Require Import DecisionsHelper.
From S2P Require Import Replay.
From S2P Require Import Errors.

(** ** Data *)

Abbreviation callback := nat.

(** The structs kept in [decisionStateMachineBase.data]. *)
Inductive scheduled :=
| scheduledTimer (callback : callback) (handled : bool)
| scheduledActivity (callback : callback) (waitForCancelRequest handled : bool)
| scheduledChildWorkflow (resultCallback startedCallback : callback)
    (waitForCancellation handled : bool)
| scheduledCancellation (callback : callback) (handled : bool)
| scheduledSignal (callback : callback) (handled : bool).

(** The calls of closures of the workflow. *)
Inductive call :=
| callResult (cb : callback) (result : bytes) (err : option goError)
| callStarted (cb : callback) (execution : string * string) (err : option goError)
| callLocal (cb : callback) (result : bytes) (err : option goError) (attempt backoff : Z)
| callCancel
| callSignal (name : string) (input : bytes)
| callExecute (header : option Header) (input : bytes)
| callOnDecisionTaskStarted
| callComplete (result : bytes) (err : option goError).

(** The retry policy of a local activity; intervals in nanoseconds. *)
Record LocalRetryPolicy := MkLocalRetryPolicy {
  InitialInterval : Z;
  BackoffCoefficient : float64;
  MaximumInterval : Z;
  ExpirationInterval : Z;
  MaximumAttempts : Z;
  NonRetriableErrorReasons : list string }.

Record executeLocalActivityParams := MkExecuteLocalActivityParams {
  la_ActivityType : string;
  la_RetryPolicy : option LocalRetryPolicy;
  la_Attempt : Z;
  la_ScheduledTime : Z;
  la_Header : option Header }.

Record localActivityTask := LocalActivityTask {
  task_activityID : string;
  task_params : executeLocalActivityParams;
  task_callback : callback;
  task_canceled : bool;
  task_attempt : Z;
  task_retryPolicy : option LocalRetryPolicy;
  task_expireTime : Z;
  task_header : option Header }.

Record WorkflowInfo := MkWorkflowInfo {
  wi_WorkflowID : string;
  wi_RunID : string;
  wi_OriginalRunId : string;
  wi_WorkflowType : string;
  wi_TaskListName : string;
  wi_ExecutionStartToCloseTimeoutSeconds : Z;
  wi_TaskStartToCloseTimeoutSeconds : Z;
  wi_Domain : string;
  wi_Attempt : Z;
  wi_lastCompletionResult : bytes;
  wi_CronSchedule : option string;
  wi_ContinuedExecutionRunID : option string;
  wi_ParentWorkflowDomain : option string;
  wi_ParentWorkflowExecution : option (string * string);
  wi_Memo : option Memo;
  wi_SearchAttributes : option SearchAttributes;
  wi_BinaryChecksum : option string;
  wi_DecisionStartedEventID : Z;
  wi_RetryPolicy : option RetryPolicy;
  wi_TotalHistoryBytes : Z;
  wi_HistoryBytesServer : Z;
  wi_HistoryCount : Z }.

(** The fields that are assigned after the creation. *)
Definition wi_assign attributes checksum started total server count (i : WorkflowInfo) :=
  MkWorkflowInfo (wi_WorkflowID i) (wi_RunID i) (wi_OriginalRunId i) (wi_WorkflowType i)
    (wi_TaskListName i) (wi_ExecutionStartToCloseTimeoutSeconds i)
    (wi_TaskStartToCloseTimeoutSeconds i) (wi_Domain i) (wi_Attempt i) (wi_lastCompletionResult i)
    (wi_CronSchedule i) (wi_ContinuedExecutionRunID i) (wi_ParentWorkflowDomain i)
    (wi_ParentWorkflowExecution i) (wi_Memo i) attributes checksum started (wi_RetryPolicy i)
    total server count.
Definition set_wi_SearchAttributes x i := wi_assign x (wi_BinaryChecksum i)
  (wi_DecisionStartedEventID i) (wi_TotalHistoryBytes i) (wi_HistoryBytesServer i)
  (wi_HistoryCount i) i.
Definition set_wi_BinaryChecksum x i := wi_assign (wi_SearchAttributes i) x
  (wi_DecisionStartedEventID i) (wi_TotalHistoryBytes i) (wi_HistoryBytesServer i)
  (wi_HistoryCount i) i.
Definition set_wi_DecisionStartedEventID x i := wi_assign (wi_SearchAttributes i)
  (wi_BinaryChecksum i) x (wi_TotalHistoryBytes i) (wi_HistoryBytesServer i) (wi_HistoryCount i) i.
Definition set_wi_TotalHistoryBytes x i := wi_assign (wi_SearchAttributes i)
  (wi_BinaryChecksum i) (wi_DecisionStartedEventID i) x (wi_HistoryBytesServer i)
  (wi_HistoryCount i) i.
Definition set_wi_HistoryServer x y i := wi_assign (wi_SearchAttributes i) (wi_BinaryChecksum i)
  (wi_DecisionStartedEventID i) (wi_TotalHistoryBytes i) x y i.

(** [workflowEnvironmentImpl] and the definition of its event handler.  A handler
    that was not registered is a nil function. *)
Record env := Env {
  workflowInfo : WorkflowInfo;
  helper : decisionsHelper scheduled;
  sideEffectResult : gmap Z bytes;
  changeVersions : gmap string Z;
  pendingLaTasks : gmap string localActivityTask;
  mutableSideEffect : gmap string bytes;
  unstartedLaTasks : gset string;
  openSessions : gmap string string;
  counterID : Z;
  currentReplayTime : Z;
  currentLocalTime : Z;
  cancelHandler : bool;
  signalHandler : bool;
  isReplay : bool;
  workflowDefinition : bool;
  closures : nat;
  calls : list call }.

Implicit Types e : env.

Definition set_info x e := Env x (helper e) (sideEffectResult e) (changeVersions e)
  (pendingLaTasks e) (mutableSideEffect e) (unstartedLaTasks e) (openSessions e) (counterID e)
  (currentReplayTime e) (currentLocalTime e) (cancelHandler e) (signalHandler e) (isReplay e)
  (workflowDefinition e) (closures e) (calls e).
Definition set_helper x e := Env (workflowInfo e) x (sideEffectResult e) (changeVersions e)
  (pendingLaTasks e) (mutableSideEffect e) (unstartedLaTasks e) (openSessions e) (counterID e)
  (currentReplayTime e) (currentLocalTime e) (cancelHandler e) (signalHandler e) (isReplay e)
  (workflowDefinition e) (closures e) (calls e).
Definition set_results x y z e := Env (workflowInfo e) (helper e) x y
  (pendingLaTasks e) z (unstartedLaTasks e) (openSessions e) (counterID e)
  (currentReplayTime e) (currentLocalTime e) (cancelHandler e) (signalHandler e) (isReplay e)
  (workflowDefinition e) (closures e) (calls e).
Definition set_sideEffectResult x e := set_results x (changeVersions e) (mutableSideEffect e) e.
Definition set_changeVersions x e := set_results (sideEffectResult e) x (mutableSideEffect e) e.
Definition set_mutableSideEffect x e := set_results (sideEffectResult e) (changeVersions e) x e.
Definition set_laTasks x y e := Env (workflowInfo e) (helper e) (sideEffectResult e)
  (changeVersions e) x (mutableSideEffect e) y (openSessions e) (counterID e)
  (currentReplayTime e) (currentLocalTime e) (cancelHandler e) (signalHandler e) (isReplay e)
  (workflowDefinition e) (closures e) (calls e).
Definition set_openSessions x e := Env (workflowInfo e) (helper e) (sideEffectResult e)
  (changeVersions e) (pendingLaTasks e) (mutableSideEffect e) (unstartedLaTasks e) x (counterID e)
  (currentReplayTime e) (currentLocalTime e) (cancelHandler e) (signalHandler e) (isReplay e)
  (workflowDefinition e) (closures e) (calls e).
Definition set_counterID x e := Env (workflowInfo e) (helper e) (sideEffectResult e)
  (changeVersions e) (pendingLaTasks e) (mutableSideEffect e) (unstartedLaTasks e) (openSessions e)
  x (currentReplayTime e) (currentLocalTime e) (cancelHandler e) (signalHandler e) (isReplay e)
  (workflowDefinition e) (closures e) (calls e).
Definition set_times x y e := Env (workflowInfo e) (helper e) (sideEffectResult e)
  (changeVersions e) (pendingLaTasks e) (mutableSideEffect e) (unstartedLaTasks e) (openSessions e)
  (counterID e) x y (cancelHandler e) (signalHandler e) (isReplay e)
  (workflowDefinition e) (closures e) (calls e).
Definition set_handlers x y e := Env (workflowInfo e) (helper e) (sideEffectResult e)
  (changeVersions e) (pendingLaTasks e) (mutableSideEffect e) (unstartedLaTasks e) (openSessions e)
  (counterID e) (currentReplayTime e) (currentLocalTime e) x y (isReplay e)
  (workflowDefinition e) (closures e) (calls e).
Definition set_isReplay x e := Env (workflowInfo e) (helper e) (sideEffectResult e)
  (changeVersions e) (pendingLaTasks e) (mutableSideEffect e) (unstartedLaTasks e) (openSessions e)
  (counterID e) (currentReplayTime e) (currentLocalTime e) (cancelHandler e) (signalHandler e) x
  (workflowDefinition e) (closures e) (calls e).
Definition set_definition x e := Env (workflowInfo e) (helper e) (sideEffectResult e)
  (changeVersions e) (pendingLaTasks e) (mutableSideEffect e) (unstartedLaTasks e) (openSessions e)
  (counterID e) (currentReplayTime e) (currentLocalTime e) (cancelHandler e) (signalHandler e)
  (isReplay e) x (closures e) (calls e).
Definition set_calls x y e := Env (workflowInfo e) (helper e) (sideEffectResult e)
  (changeVersions e) (pendingLaTasks e) (mutableSideEffect e) (unstartedLaTasks e) (openSessions e)
  (counterID e) (currentReplayTime e) (currentLocalTime e) (cancelHandler e) (signalHandler e)
  (isReplay e) (workflowDefinition e) x y.

Definition newEnv (info : WorkflowInfo) : env :=
  Env info newDecisionsHelper ∅ ∅ ∅ ∅ ∅ ∅ 0 0 0 false false false false 0 [].

(** A computation of the decisions helper, in the environment. *)
Definition lift {A} (c : M (decisionsHelper scheduled) A) : M env A :=
  λ e, let '(o, h) := c (helper e) in (o, set_helper h e).

(** The caller makes a closure. *)
Definition newClosure : M env callback :=
  λ e, (Ret (closures e), set_calls (S (closures e)) (calls e) e).

(** ** Scheduled work *)

Definition scheduled_callback (d : scheduled) : callback :=
  match d with
  | scheduledTimer cb _ | scheduledActivity cb _ _ | scheduledChildWorkflow cb _ _ _
  | scheduledCancellation cb _ | scheduledSignal cb _ => cb
  end.
Definition scheduled_handled (d : scheduled) : bool :=
  match d with
  | scheduledTimer _ b | scheduledActivity _ _ b | scheduledChildWorkflow _ _ _ b
  | scheduledCancellation _ b | scheduledSignal _ b => b
  end.
Definition mark_handled (d : scheduled) : scheduled :=
  match d with
  | scheduledTimer cb _ => scheduledTimer cb true
  | scheduledActivity cb w _ => scheduledActivity cb w true
  | scheduledChildWorkflow cb scb w _ => scheduledChildWorkflow cb scb w true
  | scheduledCancellation cb _ => scheduledCancellation cb true
  | scheduledSignal cb _ => scheduledSignal cb true
  end.
Definition scheduled_name (d : scheduled) : string :=
  match d with
  | scheduledTimer _ _ => "timer"
  | scheduledActivity _ _ _ => "activity"
  | scheduledChildWorkflow _ _ _ _ => "child workflow"
  | scheduledCancellation _ _ => "cancellation"
  | scheduledSignal _ _ => "signal"
  end.

(** [decision.getData().( *T )]: the assertion panics on another type. *)
Definition data_of (decision : ptr) (is_T : scheduled → bool) : M env scheduled :=
  d ← lift (getData decision);
  match d with
  | Some d => if is_T d then mret d else throw (ErrorPanic "interface conversion")
  | None => throw (ErrorPanic "interface conversion: interface {} is nil")
  end.

Definition is_timer d := match d with scheduledTimer _ _ => true | _ => false end.
Definition is_activity d := match d with scheduledActivity _ _ _ => true | _ => false end.
Definition is_child d := match d with scheduledChildWorkflow _ _ _ _ => true | _ => false end.
Definition is_cancellation d := match d with scheduledCancellation _ _ => true | _ => false end.
Definition is_signal d := match d with scheduledSignal _ _ => true | _ => false end.

(** Values of a map as they go to the server; the first failure ends it. *)
Definition encode_fields {A} (encode : A → string + bytes) (describe : string → string → string)
    (input : gmap string A) : string + gmap string bytes :=
  foldl (λ acc kv,
    match acc with
    | inl err => inl err
    | inr m =>
        match encode kv.2 with
        | inr b => inr (<[kv.1 := b]> m)
        | inl err => inl (describe kv.1 err)
        end
    end) (inr ∅) (map_to_list input).

(** The values of search attributes; [json_Marshal] is encoding/json. *)
Inductive searchValue :=
| svStrings (l : list string)
| svValue (v : goValue).

Section environment.
Context {dc : DataConverter}.
Context (json_Marshal : searchValue → string + bytes).

Definition deliver (c : call) : M env unit :=
  modify (λ e, set_calls (closures e) (calls e ++ [c]) e).

(** The [handle] methods of the five structs. *)
Definition handle (decision : ptr) (result : bytes) (err : option goError) : M env unit :=
  d ← lift (getData decision);
  match d with
  | None => throw NilDereference
  | Some d =>
      if scheduled_handled d then
        throw (StringPanic (scheduled_name d +:+ " already handled"))
      else
        lift (setData decision (mark_handled d));;
        deliver (callResult (scheduled_callback d) result err)
  end.

(** [if x.handled { return }; x.handle(result, err)] *)
Definition handle_once (decision : ptr) (d : scheduled) (result : bytes) (err : option goError)
    : M env unit :=
  if scheduled_handled d then mret tt else handle decision result err.

(** The sequence numbers are int32 and wrap around. *)
Definition GenerateSequence : M env Z :=
  λ e, (Ret (counterID e), set_counterID (int32 (counterID e + 1)) e).
Definition GenerateSequenceID : M env string := n ← GenerateSequence; mret (pretty n).

Definition RequestCancelChildWorkflow (domainName workflowID : string) : M env unit :=
  lift (requestCancelExternalWorkflowExecution domainName workflowID "" "" true);; mret tt.

Definition RequestCancelExternalWorkflow (domainName workflowID runID : string) (cb : callback)
    : M env unit :=
  cancellationID ← GenerateSequenceID;
  decision ← lift (requestCancelExternalWorkflowExecution domainName workflowID runID
                     cancellationID false);
  lift (setData decision (scheduledCancellation cb false)).

Definition SignalExternalWorkflow (domainName workflowID runID signalName : string)
    (input : bytes) (childWorkflowOnly : bool) (cb : callback) : M env unit :=
  signalID ← GenerateSequenceID;
  decision ← lift (signalExternalWorkflowExecution domainName workflowID runID signalName input
                     signalID childWorkflowOnly);
  lift (setData decision (scheduledSignal cb false)).

(** ** Search attributes *)

Definition serializeSearchAttributes (input : option (gmap string searchValue))
    : string + option SearchAttributes :=
  match input with
  | None => inr None
  | Some input =>
      match encode_fields json_Marshal
              (λ k err, "encode search attribute [" +:+ k +:+ "] error: " +:+ err) input with
      | inr attr => inr (Some (MkSearchAttributes (Some attr)))
      | inl err => inl err
      end
  end.

Definition validateAndSerializeSearchAttributes (attributes : gmap string searchValue)
    : string + option SearchAttributes :=
  if decide (attributes = ∅) then inl "search attributes is empty"
  else serializeSearchAttributes (Some attributes).

Definition indexed (attr : SearchAttributes) : gmap string bytes :=
  default ∅ (SearchAttributes_IndexedFields attr).

(** The entries of [upsert] are written into the map of [current].  The source
    updates that map in place, so that the event it came from changes too; nothing
    reads the attributes of that event again, and the map is a value here. *)
Definition mergeSearchAttributes (current upsert : option SearchAttributes)
    : outcome (option SearchAttributes) :=
  let empty (a : option SearchAttributes) :=
    match a with None => true | Some a => bool_decide (indexed a = ∅) end in
  if empty current then
    if empty upsert then Ret None
    else u ← deref upsert; mret (Some (MkSearchAttributes (Some (indexed u))))
  else
    c ← deref current; u ← deref upsert;
    mret (Some (MkSearchAttributes (Some (indexed u ∪ indexed c)))).

Definition updateWorkflowInfoWithSearchAttributes (attributes : option SearchAttributes)
    : M env unit :=
  e ← get;
  match mergeSearchAttributes (wi_SearchAttributes (workflowInfo e)) attributes with
  | Ret merged => modify (λ e, set_info (set_wi_SearchAttributes merged (workflowInfo e)) e)
  | Panic p => throw p
  end.

Definition CadenceChangeVersion := "CadenceChangeVersion".

(** Returns the error, if any. *)
Definition UpsertSearchAttributes (attributes : gmap string searchValue)
    : M env (option string) :=
  match validateAndSerializeSearchAttributes attributes with
  | inl err => mret (Some err)
  | inr attr =>
      upsertID ← match attributes !! CadenceChangeVersion with
                 | Some (svStrings (version :: _)) => mret version
                 | Some (svStrings []) => throw IndexOutOfRange
                 | Some (svValue _) => throw (ErrorPanic "interface conversion")
                 | None => GenerateSequenceID
                 end;
      lift (upsertSearchAttributes upsertID attr);;
      updateWorkflowInfoWithSearchAttributes attr;;
      mret None
  end.

Definition RegisterCancelHandler : M env unit :=
  modify (λ e, set_handlers true (signalHandler e) e).
Definition RegisterSignalHandler : M env unit :=
  modify (λ e, set_handlers (cancelHandler e) true e).

(** ** Child workflows *)

Definition WorkflowIDReusePolicy_toThriftPtr (p : Z) : outcome (option WorkflowIdReusePolicy) :=
  if decide (p = 1)%Z then Ret (Some WorkflowIdReusePolicyAllowDuplicate)
  else if decide (p = 0)%Z then Ret (Some WorkflowIdReusePolicyAllowDuplicateFailedOnly)
  else if decide (p = 2)%Z then Ret (Some WorkflowIdReusePolicyRejectDuplicate)
  else if decide (p = 3)%Z then Ret (Some WorkflowIdReusePolicyTerminateIfRunning)
  else Panic (StringPanic ("unknown workflow reuse policy " +:+ pretty p)).

Definition ParentClosePolicy_toThriftPtr (p : Z) : outcome (option ParentClosePolicy) :=
  if decide (p = 2)%Z then Ret (Some ParentClosePolicyAbandon)
  else if decide (p = 1)%Z then Ret (Some ParentClosePolicyRequestCancel)
  else if decide (p = 0)%Z then Ret (Some ParentClosePolicyTerminate)
  else Panic (StringPanic ("unknown workflow parent close policy " +:+ pretty p)).

Definition pure {A} (o : outcome A) : M env A :=
  match o with Ret a => mret a | Panic p => throw p end.

Definition getWorkflowMemo (input : option (gmap string goValue)) : string + option Memo :=
  match input with
  | None => inr None
  | Some input =>
      match encode_fields (λ v, ToData [v]) (λ _ err, "encode workflow memo error: " +:+ err) input with
      | inr memo => inr (Some (MkMemo (Some memo)))
      | inl err => inl err
      end
  end.

Record executeWorkflowParams := MkExecuteWorkflowParams {
  taskListName : option string;
  executionStartToCloseTimeoutSeconds : option Z;
  taskStartToCloseTimeoutSeconds : option Z;
  domain : option string;
  workflowID : string;
  waitForCancellation : bool;
  workflowIDReusePolicy : Z;
  retryPolicy : option RetryPolicy;
  cronSchedule : string;
  memo : option (gmap string goValue);
  searchAttributes : option (gmap string searchValue);
  parentClosePolicy : Z;
  workflowType : string;
  input : bytes;
  header : option Header }.

(** Returns the error, if any. *)
Definition ExecuteChildWorkflow (params : executeWorkflowParams) (cb startedHandler : callback)
    : M env (option string) :=
  wid ← (if decide (workflowID params = "") then
           e ← get;
           let i := workflowInfo e in
           id ← GenerateSequenceID;
           if decide (wi_OriginalRunId i ≠ "") then mret (wi_OriginalRunId i +:+ "_" +:+ id)
           else mret (wi_RunID i +:+ "_" +:+ id)
         else mret (workflowID params));
  match getWorkflowMemo (memo params), serializeSearchAttributes (searchAttributes params) with
  | inl err, _ => mret (Some err)
  | inr _, inl err => mret (Some err)
  | inr memo, inr searchAttr =>
      reuse ← pure (WorkflowIDReusePolicy_toThriftPtr (workflowIDReusePolicy params));
      close ← pure (ParentClosePolicy_toThriftPtr (parentClosePolicy params));
      decision ← lift (startChildWorkflowExecution
        (MkStartChildWorkflowExecutionDecisionAttributes (domain params) (Some wid)
           (Some (MkWorkflowType (Some (workflowType params))))
           (Some (MkTaskList (taskListName params) None None)) (input params)
           (executionStartToCloseTimeoutSeconds params) (taskStartToCloseTimeoutSeconds params)
           close None reuse (retryPolicy params)
           (if decide (cronSchedule params = "") then None else Some (cronSchedule params))
           (header params) memo searchAttr None None));
      lift (setData decision
        (scheduledChildWorkflow cb startedHandler (waitForCancellation params) false));;
      mret None
  end.

(** ** Activities *)

Record executeActivityParams := MkExecuteActivityParams {
  act_ActivityID : option string;
  act_TaskListName : string;
  act_TaskListKind : TaskListKind;
  act_ScheduleToCloseTimeoutSeconds : Z;
  act_ScheduleToStartTimeoutSeconds : Z;
  act_StartToCloseTimeoutSeconds : Z;
  act_HeartbeatTimeoutSeconds : Z;
  act_WaitForCancellation : bool;
  act_RetryPolicy : option RetryPolicy;
  act_ActivityType : string;
  act_Input : bytes;
  act_Header : option Header }.

(** Returns the activity ID. *)
Definition ExecuteActivity (parameters : executeActivityParams) (cb : callback) : M env string :=
  activityID ← match act_ActivityID parameters with
               | None | Some "" => GenerateSequenceID
               | Some id => mret id
               end;
  decision ← lift (scheduleActivityTask
    (MkScheduleActivityTaskDecisionAttributes (Some activityID)
       (Some (MkActivityType (Some (act_ActivityType parameters)))) None
       (Some (MkTaskList (Some (act_TaskListName parameters))
                (Some (act_TaskListKind parameters)) None))
       (act_Input parameters) (Some (act_ScheduleToCloseTimeoutSeconds parameters))
       (Some (act_ScheduleToStartTimeoutSeconds parameters))
       (Some (act_StartToCloseTimeoutSeconds parameters))
       (Some (act_HeartbeatTimeoutSeconds parameters)) (act_RetryPolicy parameters)
       (act_Header parameters) None));
  lift (setData decision (scheduledActivity cb (act_WaitForCancellation parameters) false));;
  mret activityID.

Definition waits (d : scheduled) : bool :=
  match d with scheduledActivity _ w _ => w | _ => false end.

Definition decision_isDone (decision : ptr) : M env bool :=
  m ← lift (load decision); mret (isDone m).

Definition canceled : goError := NewCanceledError [].

Definition RequestCancelActivity (activityID : string) : M env unit :=
  decision ← lift (requestCancelActivityTask activityID);
  activity ← data_of decision is_activity;
  if scheduled_handled activity then mret tt else
  done ← decision_isDone decision;
  if done || negb (waits activity) then handle decision None (Some canceled) else mret tt.

(** ** Local activities *)

Definition newLocalActivityTask (params : executeLocalActivityParams) (cb : callback)
    (activityID : string) : localActivityTask :=
  let expire :=
    match la_RetryPolicy params with
    | Some p =>
        if decide (0 < ExpirationInterval p)%Z
        then (la_ScheduledTime params + ExpirationInterval p)%Z else 0%Z
    | None => 0%Z
    end in
  LocalActivityTask activityID params cb false (la_Attempt params) (la_RetryPolicy params) expire
    (la_Header params).

Definition ExecuteLocalActivity (params : executeLocalActivityParams) (cb : callback)
    : M env string :=
  activityID ← GenerateSequenceID;
  modify (λ e, set_laTasks
    (<[activityID := newLocalActivityTask params cb activityID]> (pendingLaTasks e))
    ({[activityID]} ∪ unstartedLaTasks e) e);;
  mret activityID.

(** [cancelFunc], which stops the running activity, belongs to the worker. *)
Definition task_cancel (t : localActivityTask) : localActivityTask :=
  LocalActivityTask (task_activityID t) (task_params t) (task_callback t) true (task_attempt t)
    (task_retryPolicy t) (task_expireTime t) (task_header t).

Definition RequestCancelLocalActivity (activityID : string) : M env unit :=
  modify (λ e, set_laTasks (alter task_cancel activityID (pendingLaTasks e)) (unstartedLaTasks e) e).

(** ** Time and timers *)

(** [now] is what [time.Now()] returns. *)
Definition SetCurrentReplayTime (replayTime now : Z) : M env unit :=
  e ← get;
  if decide (replayTime < currentReplayTime e)%Z then mret tt
  else modify (set_times replayTime now).

Definition Now : M env Z := e ← get; mret (currentReplayTime e).

(** Returns the timer ID, or nil when no timer was started. *)
Definition NewTimer (d : Z) (cb : callback) : M env (option string) :=
  let durationInSeconds := Int64Ceil (Seconds d) in
  if decide (durationInSeconds < 0)%Z then
    deliver (callResult cb None
              (Some (ErrText ("negative duration provided " +:+ pretty durationInSeconds))));;
    mret None
  else if decide (durationInSeconds = 0)%Z then
    deliver (callResult cb None None);; mret None
  else
    timerID ← GenerateSequenceID;
    decision ← lift (startTimer
      (MkStartTimerDecisionAttributes (Some timerID) (Some durationInSeconds)));
    lift (setData decision (scheduledTimer cb false));;
    mret (Some timerID).

Definition RequestCancelTimer (timerID : string) : M env unit :=
  decision ← lift (cancelTimer timerID);
  timer ← data_of decision is_timer;
  handle_once decision timer None (Some canceled).

(** ** Versions *)

Definition DefaultVersion : Z := -1.

Record getVersionConfig := GetVersionConfig { CustomVersion : option Z; UseMinVersion : bool }.

Definition validateVersion (changeID : string) (version minSupported maxSupported : Z)
    : M env unit :=
  if decide (version < minSupported)%Z then
    throw (StringPanic ("Workflow code removed support of version " +:+ pretty version
      +:+ ". for " +:+ changeID +:+ " changeID. The oldest supported version is "
      +:+ pretty minSupported))
  else if decide (maxSupported < version)%Z then
    throw (StringPanic ("Workflow code is too old to support version " +:+ pretty version
      +:+ " for " +:+ changeID +:+ " changeID. The maximum supported version is "
      +:+ pretty maxSupported))
  else mret tt.

Definition getChangeVersion (changeID : string) (version : Z) : string :=
  changeID +:+ "-" +:+ pretty version.

(** The existing versions follow in the order of the map. *)
Definition getChangeVersions (changeID : string) (version : Z) (existing : gmap string Z)
    : list string :=
  getChangeVersion changeID version :: ((λ kv, getChangeVersion kv.1 kv.2) <$> map_to_list existing).

Definition createSearchAttributesForChangeVersion (changeID : string) (version : Z)
    (existing : gmap string Z) : gmap string searchValue :=
  {[CadenceChangeVersion := svStrings (getChangeVersions changeID version existing)]}.

Definition chooseVersion (replay : bool) (config : getVersionConfig) (minSupported maxSupported : Z)
    : Z :=
  if replay then DefaultVersion
  else match CustomVersion config with
       | Some v => v
       | None => if UseMinVersion config then minSupported else maxSupported
       end.

Definition GetVersion (changeID : string) (minSupported maxSupported : Z)
    (config : getVersionConfig) : M env Z :=
  e ← get;
  match changeVersions e !! changeID with
  | Some version => validateVersion changeID version minSupported maxSupported;; mret version
  | None =>
      let version := chooseVersion (isReplay e) config minSupported maxSupported in
      validateVersion changeID version minSupported maxSupported;;
      (if negb (isReplay e) && negb (bool_decide (version = DefaultVersion)) then
         lift (recordVersionMarker changeID version);;
         UpsertSearchAttributes
           (createSearchAttributesForChangeVersion changeID version (changeVersions e));;
         mret tt
       else mret tt);;
      modify (λ e, set_changeVersions (<[changeID := version]> (changeVersions e)) e);;
      mret version
  end.

(** ** Side effects *)

(** [f] is what the function of the workflow returns: a result or an error. *)
Definition SideEffect (f : bytes * option goError) (cb : callback) : M env unit :=
  sideEffectID ← GenerateSequence;
  e ← get;
  if isReplay e then
    match sideEffectResult e !! sideEffectID with
    | None =>
        throw (StringPanic ("No cached result found for side effectID=" +:+ pretty sideEffectID))
    | Some result =>
        lift (recordSideEffectMarker sideEffectID result);;
        deliver (callResult cb result None)
    end
  else
    match f with
    | (result, Some err) => deliver (callResult cb result (Some err))
    | (result, None) =>
        match encodeArgs [GInt sideEffectID; GBytes result] with
        | inl err =>
            deliver (callResult cb None (Some (ErrText ("failure encoding sideEffectID: " +:+ err))))
        | inr details =>
            lift (recordSideEffectMarker sideEffectID details);;
            deliver (callResult cb result None)
        end
    end.

Definition encodeValue (v : goValue) : M env bytes :=
  match ToData [v] with inr b => mret b | inl err => throw (ErrorPanic err) end.

Definition isEqualValue (newValue : goValue) (encodedOldValue : bytes)
    (equals : goValue → goValue → bool) : M env bool :=
  match newValue with
  | GNil => b ← encodeValue GNil; mret (bytes_equal b encodedOldValue)
  | _ =>
      match encodedOldValue with
      | None => throw (ErrorPanic "no data available")
      | Some _ =>
          match FromData encodedOldValue [typeOf newValue] with
          | inr (oldValue :: _) => mret (equals newValue oldValue)
          | inr [] => mret (equals newValue GNil)
          | inl err => throw (ErrorPanic err)
          end
      end
  end.

Definition recordMutableSideEffect (id : string) (data : bytes) : M env bytes :=
  match encodeArgs [GString id; GString (bytes_to_string data)] with
  | inl err => throw (ErrorPanic err)
  | inr details =>
      lift (recordMutableSideEffectMarker id details);;
      modify (λ e, set_mutableSideEffect (<[id := data]> (mutableSideEffect e)) e);;
      mret data
  end.

(** [f] is the value that the function of the workflow returns; the result is
    the encoded value. *)
Definition MutableSideEffect (id : string) (f : goValue) (equals : goValue → goValue → bool)
    : M env bytes :=
  e ← get;
  match mutableSideEffect e !! id with
  | Some result =>
      if isReplay e then mret result
      else
        same ← isEqualValue f result equals;
        if (same : bool) then mret result
        else data ← encodeValue f; recordMutableSideEffect id data
  | None =>
      if isReplay e then
        throw (StringPanic ("Non deterministic workflow code change detected. MutableSideEffect API"
          +:+ " call doesn't have a correspondent event in the workflow history. MutableSideEffect"
          +:+ " ID: " +:+ id))
      else data ← encodeValue f; recordMutableSideEffect id data
  end.

(** ** Sessions *)

Definition AddSession (sessionID info : string) : M env unit :=
  modify (λ e, set_openSessions (<[sessionID := info]> (openSessions e)) e).
Definition RemoveSession (sessionID : string) : M env unit :=
  modify (λ e, set_openSessions (delete sessionID (openSessions e)) e).

End environment.
