(* ===== verification/EventHandlers.v ===== *)
(** * The events of a history

    internal/internal_event_handlers.go, lines 838-1372: [ProcessEvent] and the
    handlers of the events of a workflow's history, and [ProcessQuery].

    Some events run workflow code (the first one, the start of a decision task, a
    cancel request, a signal): that code is the parameter [workflow], which may
    use the environment.  The dispatcher that runs it is part of the parameter: a
    panic in a coroutine, which the dispatcher recovers and reports with [Complete],
    is workflow code that calls [Complete] and returns; a panic of the parameter is
    one that escapes, as of the dispatcher itself. *)

From stdpp Require Import base list gmap strings option pretty.
From Stdlib Require Import ZArith.
From S2P Require Import Prelude.
From S2P Require Import Shared.
From S2P Require Import DecisionStateMachine.
From S2P Require Import DecisionsHelper.
From S2P Require Import Replay.
From S2P Require Import Errors.
From S2P Require Import HistorySize.
From S2P Require Import Environment.

(** [defer func() { if p := recover(); p != nil { ... } }()] *)
Definition recovering {A} (c : M env A) (handler : panic → M env A) : M env A :=
  λ e, match c e with
       | (Panic p, e') => handler p e'
       | (Ret a, e') => (Ret a, e')
       end.

Definition CancelCause_String (c : CancelExternalWorkflowExecutionFailedCause) : string :=
  match c with
  | CancelExternalWorkflowExecutionFailedCauseUnknownExternalWorkflowExecution =>
      "UNKNOWN_EXTERNAL_WORKFLOW_EXECUTION"
  | CancelExternalWorkflowExecutionFailedCauseWorkflowAlreadyCompleted =>
      "WORKFLOW_ALREADY_COMPLETED"
  | CancelExternalWorkflowExecutionFailedCauseUnknown z =>
      "CancelExternalWorkflowExecutionFailedCause(" +:+ pretty z +:+ ")"
  end.
Definition SignalCause_String (c : SignalExternalWorkflowExecutionFailedCause) : string :=
  match c with
  | SignalExternalWorkflowExecutionFailedCauseUnknownExternalWorkflowExecution =>
      "UNKNOWN_EXTERNAL_WORKFLOW_EXECUTION"
  | SignalExternalWorkflowExecutionFailedCauseWorkflowAlreadyCompleted =>
      "WORKFLOW_ALREADY_COMPLETED"
  | SignalExternalWorkflowExecutionFailedCauseUnknown z =>
      "SignalExternalWorkflowExecutionFailedCause(" +:+ pretty z +:+ ")"
  end.

(** What a local activity leaves in its marker. *)
Record localActivityMarkerData := MkLocalActivityMarkerData {
  lamd_ActivityID : string;
  lamd_ActivityType : string;
  lamd_ErrReason : string;
  lamd_ErrJSON : string;
  lamd_ResultJSON : string;
  lamd_ReplayTime : Z;
  lamd_Attempt : Z;
  lamd_Backoff : Z }.

Definition lamd_value (d : localActivityMarkerData) : goValue :=
  GStruct [inl (lamd_ActivityID d); inl (lamd_ActivityType d); inl (lamd_ErrReason d);
           inl (lamd_ErrJSON d); inl (lamd_ResultJSON d); inr (lamd_ReplayTime d);
           inr (lamd_Attempt d); inr (lamd_Backoff d)].
Definition lamd_of (v : goValue) : localActivityMarkerData :=
  match v with
  | GStruct [inl a; inl b; inl c; inl d; inl f; inr g; inr h; inr i] =>
      MkLocalActivityMarkerData a b c d f g h i
  | _ => MkLocalActivityMarkerData "" "" "" "" "" 0 0 0
  end.

(** The result of a local activity, from the worker that ran it. *)
Record localActivityResult := LocalActivityResult {
  lar_task : localActivityTask;
  lar_result : bytes;
  lar_err : option goError;
  lar_backoff : Z }.

Definition workflow_id (o : option WorkflowExecution) : string :=
  get_string WorkflowExecution_WorkflowId o.

Section handlers.
Context {dc : DataConverter}.
Context (workflow : call → M env unit).
(** The registry of the worker: the error for a type that is not registered. *)
Context (getWorkflowDefinition : string → option string).

(** A call that runs workflow code. *)
Definition invoke (c : call) : M env unit := deliver c;; workflow c.

Definition derefM {A} (o : option A) : M env A := pure (deref o).

Definition OnDecisionTaskStarted : M env unit :=
  e ← get;
  if workflowDefinition e then invoke callOnDecisionTaskStarted else throw NilDereference.

Definition handleWorkflowExecutionStarted
    (attributes : option WorkflowExecutionStartedEventAttributes) : M env (option string) :=
  e ← get;
  match getWorkflowDefinition (wi_WorkflowType (workflowInfo e)) with
  | Some err => modify (set_definition false);; mret (Some err)
  | None =>
      modify (set_definition true);;
      a ← derefM attributes;
      invoke (callExecute (WorkflowExecutionStartedEventAttributes_Header a)
                (WorkflowExecutionStartedEventAttributes_Input a));;
      mret None
  end.

Definition handleActivityTaskCompleted (event : HistoryEvent) : M env unit :=
  activityID ← lift (getActivityID event);
  decision ← lift (handleActivityTaskClosed activityID);
  activity ← data_of decision is_activity;
  if scheduled_handled activity then mret tt else
  a ← derefM (HistoryEvent_ActivityTaskCompletedEventAttributes event);
  handle decision (ActivityTaskCompletedEventAttributes_Result a) None.

Definition handleActivityTaskFailed (event : HistoryEvent) : M env unit :=
  activityID ← lift (getActivityID event);
  decision ← lift (handleActivityTaskClosed activityID);
  activity ← data_of decision is_activity;
  if scheduled_handled activity then mret tt else
  a ← derefM (HistoryEvent_ActivityTaskFailedEventAttributes event);
  reason ← derefM (ActivityTaskFailedEventAttributes_Reason a);
  err ← pure (constructError reason (ActivityTaskFailedEventAttributes_Details a));
  handle decision None (Some err).

Definition handleActivityTaskTimedOut (event : HistoryEvent) : M env unit :=
  activityID ← lift (getActivityID event);
  decision ← lift (handleActivityTaskClosed activityID);
  activity ← data_of decision is_activity;
  if scheduled_handled activity then mret tt else
  let attributes := HistoryEvent_ActivityTaskTimedOutEventAttributes event in
  let lastReason := get_string ActivityTaskTimedOutEventAttributes_LastFailureReason attributes in
  let timeoutType := default TimeoutTypeStartToClose
                       (attributes ≫= ActivityTaskTimedOutEventAttributes_TimeoutType) in
  a ← derefM attributes;
  err ← (if negb (bool_decide (lastReason = ""))
            && match timeoutType with TimeoutTypeStartToClose => true | _ => false end
         then pure (constructError lastReason (ActivityTaskTimedOutEventAttributes_LastFailureDetails a))
         else mret (NewTimeoutError timeoutType
                      [GEncodedValues (ActivityTaskTimedOutEventAttributes_Details a)]));
  handle decision None (Some err).

Definition handleActivityTaskCanceled_event (event : HistoryEvent) : M env unit :=
  activityID ← lift (getActivityID event);
  decision ← lift (handleActivityTaskCanceled activityID);
  activity ← data_of decision is_activity;
  if scheduled_handled activity then mret tt else
  done ← decision_isDone decision;
  if done || negb (waits activity) then
    a ← derefM (HistoryEvent_ActivityTaskCanceledEventAttributes event);
    handle decision None
      (Some (NewCanceledError [GEncodedValues (ActivityTaskCanceledEventAttributes_Details a)]))
  else mret tt.

Definition handleTimerFired (event : HistoryEvent) : M env unit :=
  let timerID := get_string TimerFiredEventAttributes_TimerId
                   (HistoryEvent_TimerFiredEventAttributes event) in
  decision ← lift (handleTimerClosed timerID);
  timer ← data_of decision is_timer;
  handle_once decision timer None None.

Definition handleWorkflowExecutionCancelRequested : M env unit :=
  e ← get; if cancelHandler e then invoke callCancel else throw NilDereference.

(** ** Markers *)

Definition handleLocalActivityMarker (markerData : bytes) (now : Z) : M env (option string) :=
  match Values_Get (EncodedValues markerData) [TStruct] with
  | inl err => mret (Some err)
  | inr vs =>
      let lamd := lamd_of (default GNil (head vs)) in
      e ← get;
      match pendingLaTasks e !! lamd_ActivityID lamd with
      | None => mret None
      | Some la =>
          (if negb (bool_decide (lamd_ActivityType lamd = ""))
              && negb (bool_decide (lastPartOfName (lamd_ActivityType lamd)
                                    = lastPartOfName (la_ActivityType (task_params la))))
           then throw (IllegalStatePanic
             ("code execute local activity " +:+ la_ActivityType (task_params la)
              +:+ ", but history event found " +:+ lamd_ActivityType lamd
              +:+ ", markerData: " +:+ bytes_to_string markerData))
           else mret tt);;
          lift (recordLocalActivityMarker (lamd_ActivityID lamd) markerData);;
          modify (λ e, set_laTasks (delete (lamd_ActivityID lamd) (pendingLaTasks e))
                         (unstartedLaTasks e ∖ {[lamd_ActivityID lamd]}) e);;
          (if negb (bool_decide (lamd_ErrReason lamd = "")) then
             err ← pure (constructError (lamd_ErrReason lamd) (string_to_bytes (lamd_ErrJSON lamd)));
             deliver (callLocal (task_callback la) None (Some err) (lamd_Attempt lamd)
                       (lamd_Backoff lamd))
           else if negb (bool_decide (lamd_ResultJSON lamd = "")) then
             deliver (callLocal (task_callback la) (string_to_bytes (lamd_ResultJSON lamd)) None 0 0)
           else deliver (callLocal (task_callback la) None None 0 0));;
          SetCurrentReplayTime (lamd_ReplayTime lamd) now;;
          OnDecisionTaskStarted;;
          mret None
      end
  end.

Definition handleMarkerRecorded (eventID : Z) (attributes : option MarkerRecordedEventAttributes)
    (now : Z) : M env (option string) :=
  a ← derefM attributes;
  let details := MarkerRecordedEventAttributes_Details a in
  let name := default "" (MarkerRecordedEventAttributes_MarkerName a) in
  if decide (name = sideEffectMarkerName) then
    match Values_Get (EncodedValues details) [TInt; TBytes] with
    | inr [GInt sideEffectID; GBytes result] =>
        modify (λ e, set_sideEffectResult (<[sideEffectID := result]> (sideEffectResult e)) e);;
        mret None
    | inr _ => mret (Some "extract side effect: unexpected values")
    | inl err => mret (Some ("extract side effect: " +:+ err))
    end
  else if decide (name = versionMarkerName) then
    match Values_Get (EncodedValues details) [TString; TInt] with
    | inr [GString changeID; GInt version] =>
        modify (λ e, set_changeVersions (<[changeID := version]> (changeVersions e)) e);;
        mret None
    | inr _ => mret (Some "extract change id: unexpected values")
    | inl err => mret (Some ("extract change id: " +:+ err))
    end
  else if decide (name = localActivityMarkerName) then handleLocalActivityMarker details now
  else if decide (name = mutableSideEffectMarkerName) then
    match Values_Get (EncodedValues details) [TString; TString] with
    | inr [GString fixedID; GString result] =>
        modify (λ e, set_mutableSideEffect
          (<[fixedID := string_to_bytes result]> (mutableSideEffect e)) e);;
        mret None
    | inr _ => mret (Some "extract fixed id: unexpected values")
    | inl err => mret (Some ("extract fixed id: " +:+ err))
    end
  else mret (Some ("unknown marker name " +:+ name +:+ " for eventID " +:+ pretty eventID)).

Definition handleWorkflowExecutionSignaled
    (attributes : option WorkflowExecutionSignaledEventAttributes) : M env unit :=
  e ← get;
  let name := get_string WorkflowExecutionSignaledEventAttributes_SignalName attributes in
  a ← derefM attributes;
  if signalHandler e
  then invoke (callSignal name (WorkflowExecutionSignaledEventAttributes_Input a))
  else throw NilDereference.

(** ** Child workflows *)

Definition started_callback (d : scheduled) : callback :=
  match d with scheduledChildWorkflow _ scb _ _ => scb | _ => 0 end.

Definition alreadyStarted : goError := ErrAlreadyStarted "Workflow execution already started".

Definition handleStartChildWorkflowExecutionFailed_event (event : HistoryEvent) : M env unit :=
  let attributes := HistoryEvent_StartChildWorkflowExecutionFailedEventAttributes event in
  let childWorkflowID := get_string StartChildWorkflowExecutionFailedEventAttributes_WorkflowId
                           attributes in
  decision ← lift (handleStartChildWorkflowExecutionFailed childWorkflowID);
  child ← data_of decision is_child;
  if scheduled_handled child then mret tt else
  deliver (callStarted (started_callback child) ("", "") (Some alreadyStarted));;
  handle decision None (Some alreadyStarted).

Definition handleChildWorkflowExecutionStarted_event (event : HistoryEvent) : M env unit :=
  a ← derefM (HistoryEvent_ChildWorkflowExecutionStartedEventAttributes event);
  let execution := ChildWorkflowExecutionStartedEventAttributes_WorkflowExecution a in
  let childWorkflowID := workflow_id execution in
  let childRunID := get_string WorkflowExecution_RunId execution in
  decision ← lift (handleChildWorkflowExecutionStarted childWorkflowID);
  child ← data_of decision is_child;
  if scheduled_handled child then mret tt else
  deliver (callStarted (started_callback child) (childWorkflowID, childRunID) None).

(** The closing events of a child: its decision is closed by [close], and its
    result handler gets [result] and [err]. *)
Definition close_child (close : string → M (decisionsHelper scheduled) ptr)
    (execution : option WorkflowExecution) (result : bytes) (err : outcome (option goError))
    : M env unit :=
  decision ← lift (close (workflow_id execution));
  child ← data_of decision is_child;
  if scheduled_handled child then mret tt else
  err ← pure err;
  handle decision result err.

Definition handleChildWorkflowExecutionCompleted (event : HistoryEvent) : M env unit :=
  a ← derefM (HistoryEvent_ChildWorkflowExecutionCompletedEventAttributes event);
  close_child handleChildWorkflowExecutionClosed
    (ChildWorkflowExecutionCompletedEventAttributes_WorkflowExecution a)
    (ChildWorkflowExecutionCompletedEventAttributes_Result a) (Ret None).

Definition handleChildWorkflowExecutionFailed (event : HistoryEvent) : M env unit :=
  a ← derefM (HistoryEvent_ChildWorkflowExecutionFailedEventAttributes event);
  close_child handleChildWorkflowExecutionClosed
    (ChildWorkflowExecutionFailedEventAttributes_WorkflowExecution a) None
    (Some <$> constructError (default "" (ChildWorkflowExecutionFailedEventAttributes_Reason a))
                (ChildWorkflowExecutionFailedEventAttributes_Details a)).

Definition handleChildWorkflowExecutionCanceled_event (event : HistoryEvent) : M env unit :=
  a ← derefM (HistoryEvent_ChildWorkflowExecutionCanceledEventAttributes event);
  close_child handleChildWorkflowExecutionCanceled
    (ChildWorkflowExecutionCanceledEventAttributes_WorkflowExecution a) None
    (Ret (Some (NewCanceledError
       [GEncodedValues (ChildWorkflowExecutionCanceledEventAttributes_Details a)]))).

Definition handleChildWorkflowExecutionTimedOut (event : HistoryEvent) : M env unit :=
  a ← derefM (HistoryEvent_ChildWorkflowExecutionTimedOutEventAttributes event);
  close_child handleChildWorkflowExecutionClosed
    (ChildWorkflowExecutionTimedOutEventAttributes_WorkflowExecution a) None
    (Ret (Some (NewTimeoutError (default TimeoutTypeStartToClose
       (ChildWorkflowExecutionTimedOutEventAttributes_TimeoutType a)) []))).

Definition handleChildWorkflowExecutionTerminated (event : HistoryEvent) : M env unit :=
  a ← derefM (HistoryEvent_ChildWorkflowExecutionTerminatedEventAttributes event);
  close_child handleChildWorkflowExecutionClosed
    (ChildWorkflowExecutionTerminatedEventAttributes_WorkflowExecution a) None
    (Ret (Some ErrTerminated)).

Definition handleUpsertWorkflowSearchAttributes (event : HistoryEvent) : M env unit :=
  a ← derefM (HistoryEvent_UpsertWorkflowSearchAttributesEventAttributes event);
  updateWorkflowInfoWithSearchAttributes
    (UpsertWorkflowSearchAttributesEventAttributes_SearchAttributes a).

(** ** External workflows *)

Definition handleRequestCancelExternalInitiated (event : HistoryEvent) : M env unit :=
  a ← derefM (HistoryEvent_RequestCancelExternalWorkflowExecutionInitiatedEventAttributes event);
  lift (handleRequestCancelExternalWorkflowExecutionInitiated (GetEventId event)
    (workflow_id
       (RequestCancelExternalWorkflowExecutionInitiatedEventAttributes_WorkflowExecution a))
    (bytes_to_string (RequestCancelExternalWorkflowExecutionInitiatedEventAttributes_Control a))).

Definition handleExternalCancelRequested (event : HistoryEvent) : M env unit :=
  a ← derefM (HistoryEvent_ExternalWorkflowExecutionCancelRequestedEventAttributes event);
  r ← lift (handleExternalWorkflowExecutionCancelRequested
    (default 0%Z (ExternalWorkflowExecutionCancelRequestedEventAttributes_InitiatedEventId a))
    (workflow_id (ExternalWorkflowExecutionCancelRequestedEventAttributes_WorkflowExecution a)));
  let '(isExternal, decision) := r : bool * ptr in
  if isExternal then
    cancellation ← data_of decision is_cancellation;
    handle_once decision cancellation None None
  else mret tt.

Definition handleRequestCancelExternalFailed (event : HistoryEvent) : M env unit :=
  a ← derefM (HistoryEvent_RequestCancelExternalWorkflowExecutionFailedEventAttributes event);
  r ← lift (handleRequestCancelExternalWorkflowExecutionFailed
    (default 0%Z (RequestCancelExternalWorkflowExecutionFailedEventAttributes_InitiatedEventId a))
    (workflow_id (RequestCancelExternalWorkflowExecutionFailedEventAttributes_WorkflowExecution a)));
  let '(isExternal, decision) := r : bool * ptr in
  if isExternal then
    cancellation ← data_of decision is_cancellation;
    handle_once decision cancellation None
      (Some (ErrText ("cancel external workflow failed, " +:+ CancelCause_String
         (default CancelExternalWorkflowExecutionFailedCauseUnknownExternalWorkflowExecution
            (RequestCancelExternalWorkflowExecutionFailedEventAttributes_Cause a)))))
  else mret tt.

Definition handleSignalExternalCompleted (event : HistoryEvent) : M env unit :=
  let attributes := HistoryEvent_ExternalWorkflowExecutionSignaledEventAttributes event in
  decision ← lift (handleSignalExternalWorkflowExecutionCompleted
    (get_int ExternalWorkflowExecutionSignaledEventAttributes_InitiatedEventId attributes));
  signal ← data_of decision is_signal;
  handle_once decision signal None None.

Definition handleSignalExternalFailed (event : HistoryEvent) : M env unit :=
  let attributes := HistoryEvent_SignalExternalWorkflowExecutionFailedEventAttributes event in
  decision ← lift (handleSignalExternalWorkflowExecutionFailed
    (get_int SignalExternalWorkflowExecutionFailedEventAttributes_InitiatedEventId attributes));
  signal ← data_of decision is_signal;
  let cause := default SignalExternalWorkflowExecutionFailedCauseUnknownExternalWorkflowExecution
                 (attributes ≫= SignalExternalWorkflowExecutionFailedEventAttributes_Cause) in
  handle_once decision signal None
    (Some (match cause with
           | SignalExternalWorkflowExecutionFailedCauseUnknownExternalWorkflowExecution =>
               ErrUnknownExternalWorkflowExecution
           | _ => ErrText ("signal external workflow failed, " +:+ SignalCause_String cause)
           end)).

(** ** Events *)

Definition quiet (c : M env unit) : M env (option string) := c;; mret None.

Definition set_decisionStarted (id : Z) : M env unit :=
  modify (λ e, set_info (set_wi_DecisionStartedEventID id (workflowInfo e)) e).
Definition add_historyBytes (n : nat) : M env unit :=
  modify (λ e, set_info (set_wi_TotalHistoryBytes
    (int64 (wi_TotalHistoryBytes (workflowInfo e) + Z.of_nat n)) (workflowInfo e)) e).

(** The switch on the type of the event. *)
Definition dispatch (event : HistoryEvent) (now : Z) : M env (option string) :=
  match GetEventType event with
  | EventTypeWorkflowExecutionStarted =>
      handleWorkflowExecutionStarted (HistoryEvent_WorkflowExecutionStartedEventAttributes event)
  | EventTypeDecisionTaskStarted =>
      quiet (SetCurrentReplayTime (GetTimestamp event) now;; OnDecisionTaskStarted;;
             set_decisionStarted (GetEventId event))
  | EventTypeActivityTaskScheduled =>
      quiet (lift (handleActivityTaskScheduled (GetEventId event)
        (get_string ActivityTaskScheduledEventAttributes_ActivityId
           (HistoryEvent_ActivityTaskScheduledEventAttributes event))))
  | EventTypeActivityTaskCompleted => quiet (handleActivityTaskCompleted event)
  | EventTypeActivityTaskFailed => quiet (handleActivityTaskFailed event)
  | EventTypeActivityTaskTimedOut => quiet (handleActivityTaskTimedOut event)
  | EventTypeActivityTaskCancelRequested =>
      quiet (lift (handleActivityTaskCancelRequested
        (get_string ActivityTaskCancelRequestedEventAttributes_ActivityId
           (HistoryEvent_ActivityTaskCancelRequestedEventAttributes event))))
  | EventTypeRequestCancelActivityTaskFailed =>
      quiet (lift (handleRequestCancelActivityTaskFailed
        (get_string RequestCancelActivityTaskFailedEventAttributes_ActivityId
           (HistoryEvent_RequestCancelActivityTaskFailedEventAttributes event))))
  | EventTypeActivityTaskCanceled => quiet (handleActivityTaskCanceled_event event)
  | EventTypeTimerStarted =>
      quiet (lift (handleTimerStarted (get_string TimerStartedEventAttributes_TimerId
        (HistoryEvent_TimerStartedEventAttributes event))))
  | EventTypeTimerFired => quiet (handleTimerFired event)
  | EventTypeTimerCanceled =>
      quiet (lift (handleTimerCanceled (get_string TimerCanceledEventAttributes_TimerId
        (HistoryEvent_TimerCanceledEventAttributes event))))
  | EventTypeCancelTimerFailed =>
      quiet (lift (handleCancelTimerFailed (get_string CancelTimerFailedEventAttributes_TimerId
        (HistoryEvent_CancelTimerFailedEventAttributes event))))
  | EventTypeWorkflowExecutionCancelRequested => quiet handleWorkflowExecutionCancelRequested
  | EventTypeRequestCancelExternalWorkflowExecutionInitiated =>
      quiet (handleRequestCancelExternalInitiated event)
  | EventTypeRequestCancelExternalWorkflowExecutionFailed =>
      quiet (handleRequestCancelExternalFailed event)
  | EventTypeExternalWorkflowExecutionCancelRequested =>
      quiet (handleExternalCancelRequested event)
  | EventTypeWorkflowExecutionSignaled =>
      quiet (handleWorkflowExecutionSignaled
        (HistoryEvent_WorkflowExecutionSignaledEventAttributes event))
  | EventTypeSignalExternalWorkflowExecutionInitiated =>
      quiet (a ← derefM (HistoryEvent_SignalExternalWorkflowExecutionInitiatedEventAttributes event);
             lift (handleSignalExternalWorkflowExecutionInitiated (GetEventId event)
               (bytes_to_string
                  (SignalExternalWorkflowExecutionInitiatedEventAttributes_Control a))))
  | EventTypeSignalExternalWorkflowExecutionFailed => quiet (handleSignalExternalFailed event)
  | EventTypeExternalWorkflowExecutionSignaled => quiet (handleSignalExternalCompleted event)
  | EventTypeMarkerRecorded =>
      handleMarkerRecorded (GetEventId event) (HistoryEvent_MarkerRecordedEventAttributes event) now
  | EventTypeStartChildWorkflowExecutionInitiated =>
      quiet (lift (handleStartChildWorkflowExecutionInitiated
        (get_string StartChildWorkflowExecutionInitiatedEventAttributes_WorkflowId
           (HistoryEvent_StartChildWorkflowExecutionInitiatedEventAttributes event))))
  | EventTypeStartChildWorkflowExecutionFailed =>
      quiet (handleStartChildWorkflowExecutionFailed_event event)
  | EventTypeChildWorkflowExecutionStarted =>
      quiet (handleChildWorkflowExecutionStarted_event event)
  | EventTypeChildWorkflowExecutionCompleted => quiet (handleChildWorkflowExecutionCompleted event)
  | EventTypeChildWorkflowExecutionFailed => quiet (handleChildWorkflowExecutionFailed event)
  | EventTypeChildWorkflowExecutionCanceled =>
      quiet (handleChildWorkflowExecutionCanceled_event event)
  | EventTypeChildWorkflowExecutionTimedOut => quiet (handleChildWorkflowExecutionTimedOut event)
  | EventTypeChildWorkflowExecutionTerminated =>
      quiet (handleChildWorkflowExecutionTerminated event)
  | EventTypeUpsertWorkflowSearchAttributes => quiet (handleUpsertWorkflowSearchAttributes event)
  | _ => mret None  (** no operation, or an event of a newer server *)
  end.

Definition is_decision_started (event : HistoryEvent) : bool :=
  match GetEventType event with EventTypeDecisionTaskStarted => true | _ => false end.

Definition ProcessEvent_body (event : HistoryEvent) (replay isLast : bool) (now : Z)
    : M env (option string) :=
  modify (set_isReplay replay);;
  err ← dispatch event now;
  match err with
  | Some err => mret (Some err)
  | None =>
      add_historyBytes (estimateHistorySize event);;
      (if isLast && negb (is_decision_started event) then OnDecisionTaskStarted else mret tt);;
      mret None
  end.

(** [weh.Complete]: the completion handler of the worker. *)
Definition Complete (result : bytes) (err : option goError) : M env unit :=
  deliver (callComplete result err).

(** Returns the error, if any; a panic completes the workflow with a panic
    error instead. *)
Definition ProcessEvent (event : option HistoryEvent) (replay isLast : bool) (now : Z)
    : M env (option string) :=
  match event with
  | None => mret (Some "nil event provided")
  | Some event =>
      recovering (ProcessEvent_body event replay isLast now)
        (λ p, Complete None (Some (ErrWorkflowPanic p));; mret None)
  end.

(** ** Local activity results *)

Definition ProcessLocalActivityResult (lar : localActivityResult) (now : Z)
    : M env (option string) :=
  e ← get;
  let t := lar_task lar in
  let replayTime := (currentReplayTime e + (now - currentLocalTime e))%Z in
  r ← match lar_err lar with
      | Some err => d ← pure (getErrorDetails err); mret (d.1, bytes_to_string d.2, "", lar_backoff lar)
      | None => mret ("", "", bytes_to_string (lar_result lar), 0%Z)
      end;
  let '(errReason, errJSON, resultJSON, backoff) := r : string * string * string * Z in
  let lamd := MkLocalActivityMarkerData (task_activityID t) (la_ActivityType (task_params t))
                errReason errJSON resultJSON replayTime (task_attempt t) backoff in
  match ToData [lamd_value lamd] with
  | inl err => mret (Some err)
  | inr markerData =>
      ProcessEvent
        (Some (set_HistoryEvent_MarkerRecordedEventAttributes
           (Some (MkMarkerRecordedEventAttributes (Some localActivityMarkerName) markerData None None))
           (set_HistoryEvent_EventType (Some EventTypeMarkerRecorded) HistoryEvent_nil)))
        false false now
  end.

(** ** Queries *)

Definition queryResultSizeLimit : Z := 2000000.

(** The handler that the workflow registered, and what the workflow reports
    about itself, are given. *)
Definition ProcessQuery (queryType : string) (stackTrace openSessions queryTypes : goValue)
    (queryHandler : string + bytes) : string + bytes :=
  if decide (queryType = "__stack_trace") then ToData [stackTrace]
  else if decide (queryType = "__open_sessions") then ToData [openSessions]
  else if decide (queryType = "__query_types") then ToData [queryTypes]
  else
    match queryHandler with
    | inl err => inl err
    | inr result =>
        if decide (queryResultSizeLimit < Z.of_nat (len_bytes result))%Z then
          inl ("query result size (" +:+ pretty (len_bytes result) +:+ ") exceeds limit ("
               +:+ pretty queryResultSizeLimit +:+ ")")
        else inr result
    end.

End handlers.
