(* ===== verification/EnvironmentInvariant.v ===== *)
(** * Closures are called at most once

    The environment keeps the closures of the workflow in the data of decisions
    and in the pending local activities.  The invariant of this file says that
    every closure has one owner and that a closure that was called is not owned
    any more, except by work marked as handled; every operation of the
    environment and every event keep it. *)

From stdpp Require Import base list gmap strings option relations.
From Stdlib Require Import ZArith.
From S2P Require Import Prelude.
From S2P Require Import Shared.
From S2P Require Import DecisionStateMachine.
From S2P Require Import DecisionEdges.
From S2P Require Import DecisionsHelper.
From S2P Require Import DecisionsInvariant.
From S2P Require Import Decisions.
From S2P Require Import Replay.
From S2P Require Import Errors.
From S2P Require Import HistorySize.
From S2P Require Import Environment.
From S2P Require Import EventHandlers.

(** The closures whose result was delivered, in order. *)
Definition call_callback (c : call) : option callback :=
  match c with callResult cb _ _ | callLocal cb _ _ _ _ => Some cb | _ => None end.
Definition result_callbacks (cs : list call) : list callback := omap call_callback cs.

(** [F] is a closure that was just made and has no owner yet. *)
Record heap_ok (F : option callback) (n : nat) (log : list callback)
    (pend : gmap string localActivityTask) (H : gmap ptr (machine scheduled)) : Prop := {
  ho_data p m d : H !! p = Some m → m_data m = Some d →
    (scheduled_callback d < n)%nat ∧ (scheduled_handled d = false → scheduled_callback d ∉ log)
    ∧ Some (scheduled_callback d) ≠ F
    ∧ (∀ id t, pend !! id = Some t → task_callback t ≠ scheduled_callback d);
  ho_inj p q m m' d d' : H !! p = Some m → H !! q = Some m' → m_data m = Some d →
    m_data m' = Some d' → scheduled_callback d = scheduled_callback d' → p = q }.

Record rest_ok (F : option callback) (n : nat) (log : list callback)
    (pend : gmap string localActivityTask) : Prop := {
  ro_nodup : NoDup log;
  ro_log cb : cb ∈ log → cb < n ∧ Some cb ≠ F;
  ro_free cb : F = Some cb → cb < n;
  ro_pend id t : pend !! id = Some t →
    task_callback t < n ∧ (task_callback t ∉ log) ∧ Some (task_callback t) ≠ F;
  ro_inj id id' t t' : pend !! id = Some t → pend !! id' = Some t' →
    task_callback t = task_callback t' → id = id' }.

Record ok (F : option callback) (e : env) : Prop := {
  ok_wf : wf (helper e);
  ok_heap : heap_ok F (closures e) (result_callbacks (calls e)) (pendingLaTasks e) (heap (helper e));
  ok_rest : rest_ok F (closures e) (result_callbacks (calls e)) (pendingLaTasks e) }.

Global Instance heap_ok_stable F n log pend : HeapStable (heap_ok F n log pend).
Proof.
  split.
  - intros H p m m' [Hd Hi] Hp _ _ Hdata _. split.
    + intros q n0 d Hq Hdq. apply lookup_insert_Some in Hq as [[-> <-]|[_ Hq]]; [|eauto].
      rewrite Hdata in Hdq. eauto.
    + intros q r m1 m2 d d' Hq Hr Hdq Hdr.
      apply lookup_insert_Some in Hq as [[<- <-]|[Hpq Hq]];
        apply lookup_insert_Some in Hr as [[<- <-]|[Hpr Hr]]; rewrite ?Hdata in *; [done|eauto..].
  - intros H p m [Hd Hi] Hp _ Hdata. split.
    + intros q n0 d Hq Hdq. apply lookup_insert_Some in Hq as [[-> <-]|[_ Hq]]; [congruence|eauto].
    + intros q r m1 m2 d d' Hq Hr Hdq Hdr.
      apply lookup_insert_Some in Hq as [[<- <-]|[Hpq Hq]]; [congruence|].
      apply lookup_insert_Some in Hr as [[<- <-]|[Hpr Hr]]; [congruence|eauto].
Qed.

Lemma ok_weaken F e : ok F e → ok None e.
Proof.
  intros [Hwf [Hd Hi] [? Hl Hf Hp ?]]. split; [done| |].
  - split; [|done]. intros p m d Hm Hdm. destruct (Hd p m d Hm Hdm) as (? & ? & ? & ?). by split_and!.
  - split; [done| |done| |done].
    + intros cb Hcb. by destruct (Hl cb Hcb).
    + intros id t Ht. by destruct (Hp id t Ht) as (? & ? & ?).
Qed.

(** ** Primitives *)

(** The operations of the helper, other than [setData]. *)
Definition helper_op {A} (c : M (decisionsHelper scheduled) A) : Prop :=
  ∀ Q, HeapStable Q → pres (inv Q) c.

Lemma pres_lift F {A} (c : M (decisionsHelper scheduled) A) : helper_op c → pres (ok F) (lift c).
Proof.
  intros Hc e [Hwf Hh Hr]. unfold lift. specialize (Hc _ (heap_ok_stable F _ _ _) (helper e) (conj Hwf Hh)).
  destruct (c (helper e)) as [o h]. destruct Hc as [Hwf' Hh']. by split.
Qed.

(** A change of what the invariant does not mention. *)
Lemma pres_frame F f :
  (∀ e, helper (f e) = helper e ∧ closures (f e) = closures e ∧ calls (f e) = calls e
        ∧ pendingLaTasks (f e) = pendingLaTasks e) → pres (ok F) (modify f).
Proof.
  intros Hf e [Hwf Hh Hr]. destruct (Hf e) as (E1 & E2 & E3 & E4).
  split; simpl; rewrite ?E1, ?E2, ?E3, ?E4; done.
Qed.

Lemma pres_GenerateSequence F : pres (ok F) GenerateSequence.
Proof. intros e He. destruct He. by split. Qed.

Lemma result_callbacks_app cs c :
  result_callbacks (cs ++ [c]) = result_callbacks cs ++ option_list (call_callback c).
Proof. unfold result_callbacks. rewrite omap_app. simpl. by destruct (call_callback c). Qed.

(** A call that delivers no result. *)
Lemma pres_deliver_other F c : call_callback c = None → pres (ok F) (deliver c).
Proof.
  intros Hc e [Hwf Hh Hr]. split; simpl; [done| |]; rewrite result_callbacks_app, Hc, app_nil_r; done.
Qed.

(** [c] finds a home for the new closure, or drops it. *)
Definition settles {A} (F : option callback) (c : M env A) : Prop :=
  ∀ e, ok F e → ok None (snd (c e)).

Lemma settles_weaken {A} F (c : M env A) : pres (ok None) c → settles F c.
Proof. intros Hc e He. by apply Hc, (ok_weaken F). Qed.

Lemma settles_pres {A} (c : M env A) : settles None c → pres (ok None) c.
Proof. done. Qed.

Lemma settles_bind {A B} F (c : M env A) (k : A → M env B) :
  pres (ok F) c → (∀ a, settles F (k a)) → settles F (c ≫= k).
Proof.
  intros Hc Hk e He. specialize (Hc e He). unfold mbind, M_bind.
  destruct (c e) as [[a|p] e']; simpl in *; [by apply Hk|by eapply ok_weaken].
Qed.

Lemma settles_seq {A B} F (c : M env A) (k : A → M env B) :
  settles F c → (∀ a, pres (ok None) (k a)) → settles F (c ≫= k).
Proof.
  intros Hc Hk e He. specialize (Hc e He). unfold mbind, M_bind.
  destruct (c e) as [[a|p] e']; simpl in *; [by apply Hk|done].
Qed.

Lemma pres_newClosure {A} (k : callback → M env A) :
  (∀ cb, settles (Some cb) (k cb)) → pres (ok None) (newClosure ≫= k).
Proof.
  intros Hk e [Hwf [Hd Hi] [Hn Hl Hf Hp Hj]]. run. unfold newClosure. apply Hk.
  split; simpl; [done| |].
  - split; [|done]. intros p m d Hm Hdm. destruct (Hd p m d Hm Hdm) as (? & ? & ? & ?).
    split_and!; [lia|done|intros [= ?]; lia|done].
  - split; [done| |intros cb [= <-]; lia| |done].
    + intros cb Hcb. destruct (Hl cb Hcb). split; [lia|intros [= ?]; lia].
    + intros id t Ht. destruct (Hp id t Ht) as (? & ? & ?). split_and!; [lia|done|intros [= ?]; lia].
Qed.

Lemma settles_deliver cb c : call_callback c = Some cb → settles (Some cb) (deliver c).
Proof.
  intros Hc e [Hwf [Hd Hi] [Hn Hl Hf Hp Hj]]. split; simpl; [done| |];
    rewrite result_callbacks_app, Hc; simpl.
  - split; [|done]. intros p m d Hm Hdm. destruct (Hd p m d Hm Hdm) as (? & Hh & ? & ?).
    split_and!; [done| |done|done]. intros Hu. rewrite not_elem_of_app, list_elem_of_singleton.
    split; [auto|congruence].
  - split; [| |done| |done].
    + apply NoDup_app. split_and!; [done| |apply NoDup_singleton].
      intros cb' Hcb'. rewrite list_elem_of_singleton. destruct (Hl cb' Hcb'). congruence.
    + intros cb' [Hcb'| ->%list_elem_of_singleton]%elem_of_app; [by destruct (Hl cb' Hcb')|auto].
    + intros id t Ht. destruct (Hp id t Ht) as (? & ? & ?). split_and!; [done| |done].
      rewrite not_elem_of_app, list_elem_of_singleton. split; [done|congruence].
Qed.

Lemma settles_setData cb p d :
  scheduled_callback d = cb → settles (Some cb) (lift (setData p d)).
Proof.
  intros Hcb e He. destruct (ok_weaken _ _ He) as [_ [Hd0 Hi0] Hr]. destruct He as [Hwf [Hd Hi] [Hn Hl Hf Hp Hj]].
  unfold lift, setData, load. run. destruct (heap (helper e) !! p) as [m|] eqn:Hm.
  2: { by split; simpl. }
  rewrite store_run. split; simpl; [|split|done].
  - destruct (pres_set_data (λ _, True) p d (helper e)) as [Hwf' _]; [done|].
    unfold setData, load in Hwf'. run_in Hwf'. rewrite Hm, store_run in Hwf'. done.
  - intros q m' d' [[<- <-]|[_ Hq]]%lookup_insert_Some Hdq; [|by eapply Hd0].
    injection Hdq as <-. subst cb. split_and!; [auto| |done|].
    + intros _ Hin. by destruct (Hl _ Hin).
    + intros id t Ht Heq. destruct (Hp id t Ht) as (_ & _ & Hne). by rewrite Heq in Hne.
  - intros q r m1 m2 d1 d2 Hq Hr' Hdq Hdr Heq.
    apply lookup_insert_Some in Hq as [[<- <-]|[Hpq Hq]];
      apply lookup_insert_Some in Hr' as [[<- <-]|[Hpr Hr']]; [done| | |eauto].
    + injection Hdq as <-. destruct (Hd r m2 d2 Hr' Hdr) as (_ & _ & Hne & _). congruence.
    + injection Hdr as <-. destruct (Hd q m1 d1 Hq Hdq) as (_ & _ & Hne & _). congruence.
Qed.

Lemma set_helper_id e : set_helper (helper e) e = e.
Proof. by destruct e. Qed.

Lemma lift_getData_run p e :
  lift (getData p) e =
    (match heap (helper e) !! p with Some m => Ret (m_data m) | None => Panic NilDereference end, e).
Proof.
  unfold lift, getData, load. run. destruct (heap (helper e) !! p); by rewrite set_helper_id.
Qed.

Lemma lift_setData_run p d m e :
  heap (helper e) !! p = Some m →
  lift (setData p d) e = (Ret tt, set_helper (put p (set_data d m) (helper e)) e).
Proof. intros Hm. unfold lift, setData, load. run. rewrite Hm, store_run. done. Qed.

(** Marking the work as handled gives its closure up, to be called at once. *)
Lemma ok_handled p m d e :
  ok None e → heap (helper e) !! p = Some m → m_data m = Some d → scheduled_handled d = false →
  ok None (set_calls (closures e) (calls e ++ [callResult (scheduled_callback d) None None])
             (set_helper (put p (set_data (mark_handled d) m) (helper e)) e)).
Proof.
  intros [Hwf [Hd Hi] [Hn Hl Hf Hp Hj]] Hm Hdm Hu.
  assert (scheduled_callback (mark_handled d) = scheduled_callback d) as Hcb by by destruct d.
  assert (scheduled_handled (mark_handled d) = true) as Hh by by destruct d.
  destruct (Hd p m d Hm Hdm) as (Hlt & Hnot & _ & Hpend). specialize (Hnot Hu).
  split; simpl; rewrite ?result_callbacks_app; simpl.
  - destruct (pres_set_data (λ _, True) p (mark_handled d) (helper e)) as [Hwf' _]; [done|].
    unfold setData, load in Hwf'. run_in Hwf'. by rewrite Hm, store_run in Hwf'.
  - split.
    + intros q m' d' [[<- <-]|[Hpq Hq]]%lookup_insert_Some Hdq.
      * injection Hdq as <-. rewrite Hcb, Hh. by split_and!.
      * destruct (Hd q m' d' Hq Hdq) as (? & Hnq & ? & ?). split_and!; [done| |done|done].
        intros Huq. rewrite not_elem_of_app, list_elem_of_singleton. split; [auto|].
        intros Heq. by apply Hpq, (Hi p q m m' d d').
    + intros q r m1 m2 d1 d2 Hq Hr Hdq Hdr Heq.
      apply lookup_insert_Some in Hq as [[<- <-]|[Hpq Hq]];
        apply lookup_insert_Some in Hr as [[<- <-]|[Hpr Hr]]; [done| | |eauto].
      * injection Hdq as <-. rewrite Hcb in Heq. by eapply Hi.
      * injection Hdr as <-. rewrite Hcb in Heq. by eapply Hi.
  - split; [| |done| |done].
    + apply NoDup_app. split_and!; [done| |apply NoDup_singleton].
      intros cb Hin. rewrite list_elem_of_singleton. by intros ->.
    + intros cb [Hin| ->%list_elem_of_singleton]%elem_of_app; [by destruct (Hl cb Hin)|done].
    + intros id t Ht. destruct (Hp id t Ht) as (? & ? & ?). split_and!; [done| |done].
      rewrite not_elem_of_app, list_elem_of_singleton. split; [done|]. eauto.
Qed.

Lemma pres_handle p result err : pres (ok None) (handle p result err).
Proof.
  intros e He. unfold handle. run. rewrite lift_getData_run.
  destruct (heap (helper e) !! p) as [m|] eqn:Hm; [|done].
  destruct (m_data m) as [d|] eqn:Hd; [|done]. destruct (scheduled_handled d) eqn:Hh; [done|].
  rewrite (lift_setData_run p _ m) by done.
  destruct (ok_handled p m d e He Hm Hd Hh) as [Hwf Hok Hrest]. split; simpl in *; [done| |];
    rewrite result_callbacks_app in *; done.
Qed.

Lemma pres_data_of F p is_T : pres (ok F) (data_of p is_T).
Proof.
  intros e He. unfold data_of. run. rewrite lift_getData_run.
  destruct (heap (helper e) !! p) as [m|]; [|done].
  destruct (m_data m) as [d|]; [by destruct (is_T d)|done].
Qed.

Lemma pres_isDone F p : pres (ok F) (decision_isDone p).
Proof.
  intros e He. unfold decision_isDone, lift, load. run.
  destruct (heap (helper e) !! p); run; by rewrite set_helper_id.
Qed.

Lemma pres_pure {A} P (o : outcome A) : pres P (pure o).
Proof. destruct o; [apply pres_ret|apply pres_throw]. Qed.

(** ** Local activities *)

Lemma settles_pend cb id t :
  task_callback t = cb →
  settles (Some cb) (modify (λ e, set_laTasks (<[id := t]> (pendingLaTasks e))
                                    ({[id]} ∪ unstartedLaTasks e) e)).
Proof.
  intros Hcb e [Hwf [Hd Hi] [Hn Hl Hf Hp Hj]]. split; simpl; [done| |].
  - split; [|done]. intros p m d Hm Hdm. destruct (Hd p m d Hm Hdm) as (? & ? & Hne & ?).
    split_and!; [done..|]. intros id' t' [[<- <-]|[_ Ht']]%lookup_insert_Some; [congruence|eauto].
  - split; [done| |done| |].
    + intros cb' Hin. by destruct (Hl cb' Hin).
    + intros id' t' [[<- <-]|[_ Ht']]%lookup_insert_Some.
      * subst cb. split_and!; [auto| |done]. intros Hin. by destruct (Hl _ Hin).
      * by destruct (Hp id' t' Ht') as (? & ? & ?).
    + intros i1 i2 t1 t2 H1 H2 Heq. apply lookup_insert_Some in H1 as [[<- <-]|[? H1]];
        apply lookup_insert_Some in H2 as [[<- <-]|[? H2]]; [done| | |eauto].
      * destruct (Hp i2 t2 H2) as (_ & _ & Hne). congruence.
      * destruct (Hp i1 t1 H1) as (_ & _ & Hne). congruence.
Qed.

Lemma pres_cancel_local F id :
  pres (ok F) (modify (λ e, set_laTasks (alter task_cancel id (pendingLaTasks e))
                              (unstartedLaTasks e) e)).
Proof.
  intros e [Hwf [Hd Hi] [Hn Hl Hf Hp Hj]].
  assert (∀ i t, alter task_cancel id (pendingLaTasks e) !! i = Some t →
    ∃ t', pendingLaTasks e !! i = Some t' ∧ task_callback t' = task_callback t) as Halter.
  { intros i t [(-> & t' & -> & ->)|[_ Ht]]%lookup_alter_Some; eauto. }
  split; simpl; [done| |].
  - split; [|done]. intros p m d Hm Hdm. destruct (Hd p m d Hm Hdm) as (? & ? & ? & Hne).
    split_and!; [done..|]. intros i t (t' & Ht' & <-)%Halter. eauto.
  - split; [done..| |].
    + intros i t (t' & Ht' & <-)%Halter. eauto.
    + intros i j t1 t2 (t1' & H1 & <-)%Halter (t2' & H2 & <-)%Halter. eauto.
Qed.

(** Taking a local activity out of the pending ones frees its closure. *)
Lemma ok_unpend id la e :
  ok None e → pendingLaTasks e !! id = Some la →
  ok (Some (task_callback la))
    (set_laTasks (delete id (pendingLaTasks e)) (unstartedLaTasks e ∖ {[id]}) e).
Proof.
  intros [Hwf [Hd Hi] [Hn Hl Hf Hp Hj]] Hla. destruct (Hp id la Hla) as (Hlt & Hnot & _).
  split; simpl; [done| |].
  - split; [|done]. intros p m d Hm Hdm. destruct (Hd p m d Hm Hdm) as (? & ? & _ & Hne).
    split_and!; [done|done| |]; [intros [= ?]; by eapply Hne|].
    intros i t [_ Ht]%lookup_delete_Some. eauto.
  - split; [done| |by intros cb [= <-]| |].
    + intros cb Hin. destruct (Hl cb Hin). split; [done|]. by intros [= ->].
    + intros i t [Hne Ht]%lookup_delete_Some. destruct (Hp i t Ht) as (? & ? & _).
      split_and!; [done..|]. intros [= Heq]. by apply Hne, (Hj id i la t).
    + intros i j t1 t2 [_ H1]%lookup_delete_Some [_ H2]%lookup_delete_Some. eauto.
Qed.

(** ** Operations of the environment *)

Lemma helper_op_getDecisions b : helper_op (getDecisions b).
Proof. intros Q HQ. by apply pres_getDecisions. Qed.

#[export] Hint Extern 1 (pres _ (match ?x with _ => _ end)) => destruct x : pres.
#[export] Hint Extern 1 (pres _ (if ?x then _ else _)) => destruct x : pres.

Ltac solve_helper_op :=
  intros ? ?; autounfold with ops; unfold getSignalID, getActivityID, panicIllegalState;
  first [ by apply pres_getDecisions | auto 14 with pres ].

#[export] Hint Resolve pres_GenerateSequence pres_handle pres_data_of pres_isDone pres_pure
  pres_cancel_local : pres.
#[export] Hint Extern 1 (pres (ok _) (lift _)) => apply pres_lift; solve_helper_op : pres.
#[export] Hint Extern 1 (pres (ok _) (deliver _)) => apply pres_deliver_other; reflexivity : pres.
#[export] Hint Extern 2 (pres (ok _) (modify _)) =>
  apply pres_frame; intros ?; split_and!; reflexivity : pres.

Section operations.
Context {dc : DataConverter} (json_Marshal : searchValue → string + bytes).

Lemma pres_handle_once p d result err : pres (ok None) (handle_once p d result err).
Proof. unfold handle_once. auto with pres. Qed.

Lemma pres_GenerateSequenceID F : pres (ok F) GenerateSequenceID.
Proof. unfold GenerateSequenceID. auto with pres. Qed.
Hint Resolve pres_handle_once pres_GenerateSequenceID : pres.

Lemma pres_RequestCancelChildWorkflow d w : pres (ok None) (RequestCancelChildWorkflow d w).
Proof. unfold RequestCancelChildWorkflow. auto with pres. Qed.

Lemma settles_RequestCancelExternalWorkflow d w r cb :
  settles (Some cb) (RequestCancelExternalWorkflow d w r cb).
Proof.
  unfold RequestCancelExternalWorkflow. apply settles_bind; [auto with pres|intros id].
  apply settles_bind; [auto with pres|intros p]. by apply settles_setData.
Qed.

Lemma settles_SignalExternalWorkflow d w r s i c cb :
  settles (Some cb) (SignalExternalWorkflow d w r s i c cb).
Proof.
  unfold SignalExternalWorkflow. apply settles_bind; [auto with pres|intros id].
  apply settles_bind; [auto with pres|intros p]. by apply settles_setData.
Qed.

Lemma pres_updateInfo F attr : pres (ok F) (updateWorkflowInfoWithSearchAttributes attr).
Proof. unfold updateWorkflowInfoWithSearchAttributes. auto 8 with pres. Qed.
Hint Resolve pres_updateInfo : pres.

Lemma pres_UpsertSearchAttributes attributes :
  pres (ok None) (UpsertSearchAttributes json_Marshal attributes).
Proof. unfold UpsertSearchAttributes. auto 12 with pres. Qed.

Lemma settles_ExecuteChildWorkflow params cb scb :
  settles (Some cb) (ExecuteChildWorkflow json_Marshal params cb scb).
Proof.
  unfold ExecuteChildWorkflow. apply settles_bind; [auto 12 with pres|intros wid].
  destruct (getWorkflowMemo _); [apply settles_weaken; auto with pres|].
  destruct (serializeSearchAttributes _ _); [apply settles_weaken; auto with pres|].
  do 3 (apply settles_bind; [auto with pres|intros ?]).
  apply settles_seq; [by apply settles_setData|auto with pres].
Qed.

Lemma settles_ExecuteActivity params cb : settles (Some cb) (ExecuteActivity params cb).
Proof.
  unfold ExecuteActivity. apply settles_bind; [auto 6 with pres|intros id].
  apply settles_bind; [auto with pres|intros p].
  apply settles_seq; [by apply settles_setData|auto with pres].
Qed.

Lemma pres_RequestCancelActivity id : pres (ok None) (RequestCancelActivity id).
Proof. unfold RequestCancelActivity. auto 10 with pres. Qed.

Lemma settles_ExecuteLocalActivity params cb : settles (Some cb) (ExecuteLocalActivity params cb).
Proof.
  unfold ExecuteLocalActivity. apply settles_bind; [auto with pres|intros id].
  apply settles_seq; [by apply settles_pend|auto with pres].
Qed.

Lemma settles_NewTimer d cb : settles (Some cb) (NewTimer d cb).
Proof.
  unfold NewTimer. do 2 (case_decide; [apply settles_seq; [by apply settles_deliver|auto with pres]|]).
  apply settles_bind; [auto with pres|intros id]. apply settles_bind; [auto with pres|intros p].
  apply settles_seq; [by apply settles_setData|auto with pres].
Qed.

Lemma pres_RequestCancelTimer id : pres (ok None) (RequestCancelTimer id).
Proof. unfold RequestCancelTimer. auto 10 with pres. Qed.

Hint Resolve pres_UpsertSearchAttributes : pres.

Lemma pres_GetVersion id mn mx config : pres (ok None) (GetVersion json_Marshal id mn mx config).
Proof. unfold GetVersion, validateVersion. auto 14 with pres. Qed.

Lemma settles_SideEffect f cb : settles (Some cb) (SideEffect f cb).
Proof.
  unfold SideEffect. apply settles_bind; [auto with pres|intros id].
  apply settles_bind; [auto with pres|intros e]. destruct (isReplay e).
  - destruct (sideEffectResult e !! id); [|apply settles_weaken; auto with pres].
    apply settles_bind; [auto with pres|intros p]. by apply settles_deliver.
  - destruct f as [result [err|]]; [by apply settles_deliver|].
    destruct (encodeArgs _); [by apply settles_deliver|].
    apply settles_bind; [auto with pres|intros p]. by apply settles_deliver.
Qed.

Lemma pres_MutableSideEffect id f equals : pres (ok None) (MutableSideEffect id f equals).
Proof.
  unfold MutableSideEffect, isEqualValue, recordMutableSideEffect, encodeValue. auto 16 with pres.
Qed.

(** ** Workflow code

    Workflow code touches the environment only through its operations, with
    closures of its own; it may panic at any point. *)

Inductive env_op : ∀ {A : Type}, M env A → Prop :=
| opActivity params : env_op (cb ← newClosure; ExecuteActivity params cb)
| opCancelActivity id : env_op (RequestCancelActivity id)
| opLocalActivity params : env_op (cb ← newClosure; ExecuteLocalActivity params cb)
| opCancelLocalActivity id : env_op (RequestCancelLocalActivity id)
| opTimer d : env_op (cb ← newClosure; NewTimer d cb)
| opCancelTimer id : env_op (RequestCancelTimer id)
| opChildWorkflow params scb :
    env_op (cb ← newClosure; ExecuteChildWorkflow json_Marshal params cb scb)
| opCancelChildWorkflow d w : env_op (RequestCancelChildWorkflow d w)
| opCancelExternalWorkflow d w r :
    env_op (cb ← newClosure; RequestCancelExternalWorkflow d w r cb)
| opSignalExternalWorkflow d w r s i c :
    env_op (cb ← newClosure; SignalExternalWorkflow d w r s i c cb)
| opUpsert attributes : env_op (UpsertSearchAttributes json_Marshal attributes)
| opVersion id mn mx config : env_op (GetVersion json_Marshal id mn mx config)
| opSideEffect f : env_op (cb ← newClosure; SideEffect f cb)
| opMutableSideEffect id f equals : env_op (MutableSideEffect id f equals)
| opRegisterCancelHandler : env_op RegisterCancelHandler
| opRegisterSignalHandler : env_op RegisterSignalHandler
| opAddSession id info : env_op (AddSession id info)
| opRemoveSession id : env_op (RemoveSession id)
| opNow : env_op Now
| opComplete result err : env_op (Complete result err).

Inductive workflow_code : M env unit → Prop :=
| code_done : workflow_code (mret tt)
| code_panic p : workflow_code (throw p)
| code_op {A} (o : M env A) (k : A → M env unit) :
    env_op o → (∀ a, workflow_code (k a)) → workflow_code (o ≫= k).

Lemma pres_env_op {A} (o : M env A) : env_op o → pres (ok None) o.
Proof.
  intros []; try (apply pres_newClosure; intros cb);
    auto using settles_ExecuteActivity, pres_RequestCancelActivity, settles_ExecuteLocalActivity,
      settles_NewTimer, pres_RequestCancelTimer, settles_ExecuteChildWorkflow,
      pres_RequestCancelChildWorkflow, settles_RequestCancelExternalWorkflow,
      settles_SignalExternalWorkflow, pres_GetVersion, settles_SideEffect, pres_MutableSideEffect
    with pres.
  all: unfold RequestCancelLocalActivity, RegisterCancelHandler, RegisterSignalHandler, AddSession,
    RemoveSession, Now, Complete; auto using pres_deliver_other with pres.
Qed.

Lemma pres_workflow_code c : workflow_code c → pres (ok None) c.
Proof.
  induction 1 as [|p|A o k Ho Hk IH]; [apply pres_ret|apply pres_throw|].
  apply pres_bind; [by apply pres_env_op|done].
Qed.

End operations.

(** ** Events *)

Section events.
Context {dc : DataConverter} (json_Marshal : searchValue → string + bytes).
Context (workflow : call → M env unit) (getWorkflowDefinition : string → option string).
Hypothesis workflow_is_code : ∀ c, workflow_code json_Marshal (workflow c).

Lemma pres_invoke c : call_callback c = None → pres (ok None) (invoke workflow c).
Proof.
  intros Hc. unfold invoke. apply pres_bind; [by apply pres_deliver_other|].
  intros _. by eapply pres_workflow_code.
Qed.
Hint Extern 1 (pres (ok None) (invoke _ _)) => apply pres_invoke; reflexivity : pres.

Lemma pres_OnDecisionTaskStarted : pres (ok None) (OnDecisionTaskStarted workflow).
Proof. unfold OnDecisionTaskStarted. auto with pres. Qed.

Lemma pres_SetCurrentReplayTime F t now : pres (ok F) (SetCurrentReplayTime t now).
Proof. unfold SetCurrentReplayTime. auto with pres. Qed.
Hint Resolve pres_OnDecisionTaskStarted pres_SetCurrentReplayTime pres_handle_once
  pres_updateInfo : pres.

Lemma settles_local_result cb lamd :
  settles (Some cb)
    (if negb (bool_decide (lamd_ErrReason lamd = "")) then
       err ← pure (constructError (lamd_ErrReason lamd) (string_to_bytes (lamd_ErrJSON lamd)));
       deliver (callLocal cb None (Some err) (lamd_Attempt lamd) (lamd_Backoff lamd))
     else if negb (bool_decide (lamd_ResultJSON lamd = "")) then
       deliver (callLocal cb (string_to_bytes (lamd_ResultJSON lamd)) None 0 0)
     else deliver (callLocal cb None None 0 0)).
Proof.
  repeat match goal with |- settles _ (if ?b then _ else _) => destruct b end;
    try by apply settles_deliver.
  apply settles_bind; [auto with pres|intros err]. by apply settles_deliver.
Qed.

(** A local activity that the marker names, if it is pending. *)
Definition pending_is (id : string) (la : localActivityTask) (e : env) : Prop :=
  ok None e ∧ pendingLaTasks e !! id = Some la.

Lemma pres_lift_pending id la {A} (c : M (decisionsHelper scheduled) A) :
  helper_op c → pres (pending_is id la) (lift c).
Proof.
  intros Hc e [He Hla]. split; [by apply (pres_lift None c Hc)|].
  unfold lift. by destruct (c (helper e)).
Qed.

Lemma seq_pending {A B} id la (c : M env A) (k : A → M env B) :
  pres (pending_is id la) c → (∀ a e, pending_is id la e → ok None (snd (k a e))) →
  ∀ e, pending_is id la e → ok None (snd ((c ≫= k) e)).
Proof.
  intros Hc Hk e He. specialize (Hc e He). unfold mbind, M_bind.
  destruct (c e) as [[a|p] e']; simpl in *; [by apply Hk|apply Hc].
Qed.

Lemma pres_handleLocalActivityMarker data now :
  pres (ok None) (handleLocalActivityMarker workflow data now).
Proof.
  unfold handleLocalActivityMarker. destruct (Values_Get _ _) as [err|vs]; [auto with pres|].
  set (lamd := lamd_of _). intros e He. unfold mbind at 1, M_bind at 1, get at 1.
  destruct (pendingLaTasks e !! lamd_ActivityID lamd) as [la|] eqn:Hla; [|done].
  assert (pending_is (lamd_ActivityID lamd) la e) as Hp by done.
  revert e He Hla Hp. intros e _ _. apply seq_pending; [auto with pres|]. clear e. intros _.
  apply seq_pending; [apply pres_lift_pending; solve_helper_op|]. intros _ e [He Hla].
  pose proof (ok_unpend _ _ e He Hla) as Hfree.
  refine (settles_seq (Some (task_callback la)) _ (λ _, _) (settles_local_result _ lamd) _ _ Hfree).
  auto with pres.
Qed.
Hint Resolve pres_handleLocalActivityMarker : pres.

Lemma pres_handleMarkerRecorded id attributes now :
  pres (ok None) (handleMarkerRecorded workflow id attributes now).
Proof.
  unfold handleMarkerRecorded, derefM. apply pres_bind; [auto with pres|intros a].
  repeat match goal with |- pres _ (match ?x with _ => _ end) => destruct x end; auto with pres.
Qed.

Lemma pres_quiet c : pres (ok None) c → pres (ok None) (quiet c).
Proof. unfold quiet. auto with pres. Qed.
Hint Resolve pres_handleMarkerRecorded pres_quiet : pres.

Lemma pres_close_child close execution result err :
  (∀ id, helper_op (close id)) → pres (ok None) (close_child close execution result err).
Proof.
  intros Hc. unfold close_child. apply pres_bind; [by apply pres_lift|]. auto 8 with pres.
Qed.
Hint Extern 1 (pres (ok None) (close_child _ _ _ _)) =>
  apply pres_close_child; intros ?; solve_helper_op : pres.

Lemma pres_dispatch event now :
  pres (ok None) (dispatch workflow getWorkflowDefinition event now).
Proof.
  unfold dispatch. destruct (GetEventType event);
    unfold handleWorkflowExecutionStarted, handleActivityTaskCompleted, handleActivityTaskFailed,
      handleActivityTaskTimedOut, handleActivityTaskCanceled_event, handleTimerFired,
      handleWorkflowExecutionCancelRequested, handleWorkflowExecutionSignaled,
      handleStartChildWorkflowExecutionFailed_event, handleChildWorkflowExecutionStarted_event,
      handleChildWorkflowExecutionCompleted, handleChildWorkflowExecutionFailed,
      handleChildWorkflowExecutionCanceled_event, handleChildWorkflowExecutionTimedOut,
      handleChildWorkflowExecutionTerminated, handleUpsertWorkflowSearchAttributes,
      handleRequestCancelExternalInitiated, handleExternalCancelRequested,
      handleRequestCancelExternalFailed, handleSignalExternalCompleted, handleSignalExternalFailed,
      set_decisionStarted, derefM; auto 14 with pres.
Qed.
Hint Resolve pres_dispatch : pres.

Lemma pres_ProcessEvent event replay isLast now :
  pres (ok None) (ProcessEvent workflow getWorkflowDefinition event replay isLast now).
Proof.
  unfold ProcessEvent. destruct event as [event|]; [|auto with pres]. intros e He.
  assert (ok None (snd (ProcessEvent_body workflow getWorkflowDefinition event replay isLast now e)))
    as Hb.
  { revert e He. change (pres (ok None)
      (ProcessEvent_body workflow getWorkflowDefinition event replay isLast now)).
    unfold ProcessEvent_body, add_historyBytes. auto 12 with pres. }
  unfold recovering. destruct (ProcessEvent_body _ _ _ _ _ _ e) as [[r|p] e']; [done|].
  revert e' Hb. simpl.
  change (pres (ok None) (Complete None (Some (ErrWorkflowPanic p));; mret (None : option string))).
  unfold Complete. auto with pres.
Qed.

Lemma pres_ProcessLocalActivityResult lar now :
  pres (ok None) (ProcessLocalActivityResult workflow getWorkflowDefinition lar now).
Proof.
  unfold ProcessLocalActivityResult. apply pres_bind; [auto with pres|intros e].
  apply pres_bind; [auto with pres|intros [[[]]]].
  destruct (ToData _); [auto with pres|]. apply pres_ProcessEvent.
Qed.

(** What the worker does with an execution: it feeds it events and results of
    local activities, and takes its decisions. *)
Inductive estep e : env → Prop :=
| step_event event replay isLast now :
    estep e (snd (ProcessEvent workflow getWorkflowDefinition event replay isLast now e))
| step_local lar now :
    estep e (snd (ProcessLocalActivityResult workflow getWorkflowDefinition lar now e))
| step_decisions markAsSent : estep e (snd (lift (getDecisions markAsSent) e)).

Lemma estep_ok e e' : ok None e → estep e e' → ok None e'.
Proof.
  intros He [ev rp il now|lar now|b]; [by apply pres_ProcessEvent|by apply pres_ProcessLocalActivityResult|].
  apply pres_lift; [apply helper_op_getDecisions|done].
Qed.

Lemma ok_new info : ok None (newEnv info).
Proof.
  split; simpl; [apply wf_new| |].
  - split; set_solver.
  - split; [constructor|set_solver..].
Qed.

Lemma esteps_ok info e : rtc estep (newEnv info) e → ok None e.
Proof.
  intros He. pose proof (ok_new info) as H0. revert H0. induction He; eauto using estep_ok.
Qed.

End events.
