(* ===== verification/EnvironmentProps.v ===== *)
(** * What the workflow environment guarantees

    Results are delivered once and to the closure that waits for them, panics of
    handlers end up in the completion of the workflow, versions are stable, and
    what markers record is what a replay sees. *)

From stdpp Require Import base list gmap strings option relations pretty countable.
From Stdlib Require Import ZArith.
From S2P Require Import Prelude.
From S2P Require Import Shared.
From S2P Require Import DecisionStateMachine.
From S2P Require Import DecisionEdges.
From S2P Require Import DecisionsHelper.
From S2P Require Import DecisionsInvariant.
From S2P Require Import DecisionsDrain.
From S2P Require Import Decisions.
From S2P Require Import Replay.
From S2P Require Import Errors.
From S2P Require Import HistorySize.
From S2P Require Import Environment.
From S2P Require Import EventHandlers.
From S2P Require Import EnvironmentInvariant.

(** ** Properties of what the decisions do not touch *)

Class FrameInv (Q : env → Prop) : Prop := {
  fi_helper h e : Q e → Q (set_helper h e);
  fi_calls n c e : Q e → Q (set_calls n c e);
  fi_la p u e : Q e → Q (set_laTasks p u e);
  fi_info i e : Q e → Q (set_info i e);
  fi_counter n e : Q e → Q (set_counterID n e);
  fi_sessions s e : Q e → Q (set_openSessions s e);
  fi_handlers x y e : Q e → Q (set_handlers x y e);
  fi_replay b e : Q e → Q (set_isReplay b e);
  fi_definition b e : Q e → Q (set_definition b e);
  fi_side m e : Q e → Q (set_sideEffectResult m e);
  fi_mutable m e : Q e → Q (set_mutableSideEffect m e) }.

Section frame.
Context {dc : DataConverter} (json_Marshal : searchValue → string + bytes).
Context (Q : env → Prop) `{!FrameInv Q}.

Lemma frame_lift {A} (c : M (decisionsHelper scheduled) A) : pres Q (lift c).
Proof. intros e He. unfold lift. destruct (c (helper e)). by apply fi_helper. Qed.
Lemma frame_deliver c : pres Q (deliver c).
Proof. intros e He. by apply fi_calls. Qed.
Lemma frame_newClosure : pres Q newClosure.
Proof. intros e He. by apply fi_calls. Qed.
Lemma frame_GenerateSequence : pres Q GenerateSequence.
Proof. intros e He. by apply fi_counter. Qed.

Hint Resolve frame_lift frame_deliver frame_newClosure frame_GenerateSequence pres_pure : pres.
Hint Extern 2 (pres Q (modify _)) => intros ? ?;
  first [ by apply fi_la | by apply fi_info | by apply fi_sessions | by apply fi_handlers
        | by apply fi_replay | by apply fi_definition | by apply fi_side | by apply fi_mutable ] : pres.

Lemma frame_handle p r err : pres Q (handle p r err).
Proof. unfold handle. auto 8 with pres. Qed.
Lemma frame_data_of p is_T : pres Q (data_of p is_T).
Proof. unfold data_of. auto 8 with pres. Qed.
Lemma frame_isDone p : pres Q (decision_isDone p).
Proof. unfold decision_isDone. auto with pres. Qed.
Lemma frame_SequenceID : pres Q GenerateSequenceID.
Proof. unfold GenerateSequenceID. auto with pres. Qed.
Lemma frame_updateInfo attr : pres Q (updateWorkflowInfoWithSearchAttributes attr).
Proof. unfold updateWorkflowInfoWithSearchAttributes. auto 8 with pres. Qed.
Hint Resolve frame_handle frame_data_of frame_isDone frame_SequenceID frame_updateInfo : pres.

Lemma frame_Upsert attributes : pres Q (UpsertSearchAttributes json_Marshal attributes).
Proof. unfold UpsertSearchAttributes. auto 12 with pres. Qed.
Hint Resolve frame_Upsert : pres.

Lemma frame_record id v attributes :
  pres Q (lift (recordVersionMarker id v);; UpsertSearchAttributes json_Marshal attributes;; mret tt).
Proof. auto with pres. Qed.

(** Everything but the versions: the other operations of the environment. *)
Lemma frame_env_op {A} (o : M env A) :
  env_op json_Marshal o →
  (∀ id mn mx config, pres Q (GetVersion json_Marshal id mn mx config)) → pres Q o.
Proof.
  intros [] Hv; try done; unfold ExecuteActivity, RequestCancelActivity, ExecuteLocalActivity,
    RequestCancelLocalActivity, NewTimer, RequestCancelTimer, handle_once, ExecuteChildWorkflow,
    RequestCancelChildWorkflow, RequestCancelExternalWorkflow, SignalExternalWorkflow, SideEffect,
    MutableSideEffect, isEqualValue, encodeValue, recordMutableSideEffect, RegisterCancelHandler,
    RegisterSignalHandler, AddSession, RemoveSession, Now, Complete; auto 18 with pres.
Qed.

Lemma frame_workflow_code c :
  workflow_code json_Marshal c →
  (∀ id mn mx config, pres Q (GetVersion json_Marshal id mn mx config)) → pres Q c.
Proof.
  intros Hc Hv. induction Hc as [|p|A o k Ho Hk IH]; [apply pres_ret|apply pres_throw|].
  apply pres_bind; [by apply frame_env_op|done].
Qed.

End frame.

(** ** Versions *)

Definition has_version (id : string) (v : option Z) (e : env) : Prop := changeVersions e !! id = v.

#[local] Instance has_version_frame id v : FrameInv (has_version id v).
Proof. by split. Qed.

Section versions.
Context {dc : DataConverter} (json_Marshal : searchValue → string + bytes).

Lemma keeps_version_GetVersion id v id' mn mx config :
  pres (has_version id (Some v)) (GetVersion json_Marshal id' mn mx config).
Proof.
  unfold GetVersion. intros e He. unfold mbind at 1, M_bind at 1, get at 1.
  destruct (changeVersions e !! id') as [v'|] eqn:Hv'.
  { revert e He Hv'. intros e He _. revert e He.
    change (pres (has_version id (Some v)) (validateVersion id' v' mn mx;; mret v')).
    unfold validateVersion. auto with pres. }
  assert (id' ≠ id) as Hne by (intros ->; unfold has_version in He; congruence).
  set (version := chooseVersion _ _ _ _).
  apply (pres_bind _ (validateVersion id' version mn mx)); [unfold validateVersion; auto with pres| |done].
  intros _. apply pres_bind; [apply pres_if; [by apply (frame_record _ _)|auto with pres]|].
  intros _. apply pres_bind; [|auto with pres]. intros e1 He1. unfold has_version in *. simpl.
  by rewrite lookup_insert_ne.
Qed.

Lemma keeps_version_code id v c :
  workflow_code json_Marshal c → pres (has_version id (Some v)) c.
Proof. intros Hc. apply (frame_workflow_code _ _ c Hc). apply keeps_version_GetVersion. Qed.

Lemma GetVersion_known id v mn mx config e :
  changeVersions e !! id = Some v →
  ∃ o, GetVersion json_Marshal id mn mx config e = (o, e)
    ∧ if decide (mn ≤ v ∧ v ≤ mx)%Z then o = Ret v else ∃ m, o = Panic (StringPanic m).
Proof.
  intros Hv. unfold GetVersion. run. rewrite Hv. unfold validateVersion.
  destruct (decide (v < mn)%Z); [|destruct (decide (mx < v)%Z)].
  - eexists. split; [reflexivity|]. rewrite decide_False by lia. eauto.
  - eexists. split; [reflexivity|]. rewrite decide_False by lia. eauto.
  - eexists. split; [reflexivity|]. by rewrite decide_True by lia.
Qed.

Lemma GetVersion_sets id mn mx config e v e' :
  GetVersion json_Marshal id mn mx config e = (Ret v, e') → changeVersions e' !! id = Some v.
Proof.
  destruct (changeVersions e !! id) as [v'|] eqn:Hv'.
  - destruct (GetVersion_known id v' mn mx config e Hv') as (o & -> & Ho). intros [= -> <-].
    case_decide; [congruence|by destruct Ho].
  - unfold GetVersion. run. rewrite Hv'. set (version := chooseVersion _ _ _ _).
    destruct (validateVersion _ _ _ _ e) as [[|] e1]; [|discriminate].
    match goal with |- (let (_, _) := ?x in _) = _ → _ => destruct x as [[|] e2] end; [|discriminate].
    intros [= <- <-]. apply lookup_insert_eq.
Qed.

End versions.

(** ** Markers *)

Definition marker_decision (name : string) (details : bytes) : Decision :=
  set_Decision_RecordMarkerDecisionAttributes
    (Some (MkRecordMarkerDecisionAttributes (Some name) details None))
    (createNewDecision DecisionTypeRecordMarker).

(** The decision to record a marker is among those that will be sent. *)
Definition records (name : string) (details : bytes) (h : decisionsHelper scheduled) : Prop :=
  ∃ p m, p ∈ orderedDecisions h ∧ heap h !! p = Some m
    ∧ getDecision_of m = Some (marker_decision name details).

Definition marker (name : string) (details : bytes) : option MarkerRecordedEventAttributes :=
  Some (MkMarkerRecordedEventAttributes (Some name) details None None).

Lemma add_new_Ret (m : machine scheduled) h p h' :
  add_new (alloc m) h = (Ret p, h') → p = heap_next h ∧ h' = added m h.
Proof.
  unfold add_new, alloc. run. rewrite (addDecision_run _ m) by apply lookup_insert_eq. simpl.
  destruct (decisions h !! m_id m); [done|]. by intros [= <- <-].
Qed.

Lemma records_added name details id h :
  records name details (added (newDecisionStateMachineBase decisionTypeMarker id
    (markerDecisionStateMachine (marker_decision name details))) h).
Proof.
  eexists (heap_next h), _. split_and!; [set_solver|apply lookup_insert_eq|done].
Qed.

Lemma records_more name details m h :
  (∀ p n, heap h !! p = Some n → p < heap_next h) → records name details h →
  records name details (added m h).
Proof.
  intros Hb (p & n & Hp & Hn & Hd). exists p, n. split_and!; [set_solver| |done].
  simpl. rewrite lookup_insert_ne; [done|]. specialize (Hb p n Hn). lia.
Qed.

Section markers.
Context {dc : DataConverter} `{!DataConverterRoundTrip dc}.
Context (json_Marshal : searchValue → string + bytes) (workflow : call → M env unit).

Lemma GetVersion_records id mn mx config e v e1 b :
  wf (helper e) → isReplay e = false → changeVersions e !! id = None → v ≠ DefaultVersion →
  ToData [GString id; GInt v] = inr b →
  GetVersion json_Marshal id mn mx config e = (Ret v, e1) → records versionMarkerName b (helper e1).
Proof.
  intros Hwf Hr Hid Hv Hb. unfold GetVersion. run. rewrite Hid, Hr.
  set (version := chooseVersion _ _ _ _).
  destruct (validateVersion id version mn mx e) as [[|] e0] eqn:Hval; [|discriminate].
  assert (e0 = e) as -> by (revert Hval; unfold validateVersion; repeat case_decide; by intros [= <-]).
  destruct (decide (version = v)) as [->|Hne].
  2: { match goal with |- (let (_, _) := ?x in _) = _ → _ => destruct x as [[|] e2] end;
       [congruence|discriminate]. }
  rewrite bool_decide_eq_false_2 by done. cbv beta iota delta [negb andb].
  unfold lift at 1, recordVersionMarker, encodeArgs. rewrite Hb.
  destruct (add_new _ (helper e)) as [[p|] h1] eqn:Hadd; [|discriminate].
  apply add_new_Ret in Hadd as [_ ->]. set (h1 := added _ (helper e)).
  assert (records versionMarkerName b h1) as Hrec by apply records_added.
  assert (∀ q n, heap h1 !! q = Some n → q < heap_next h1) as Hbound.
  { intros q n Hq. simpl in Hq. apply lookup_insert_Some in Hq as [[<- _]|[_ Hq]]; simpl; [lia|].
    apply (wf_machine _ Hwf) in Hq as [? _]. lia. }
  unfold UpsertSearchAttributes. destruct (validateAndSerializeSearchAttributes _ _) as [err|attr].
  { run. intros [= <-]. done. }
  run. unfold createSearchAttributesForChangeVersion at 1. rewrite lookup_singleton_eq.
  unfold getChangeVersions. run. unfold lift at 1, upsertSearchAttributes. simpl helper.
  destruct (add_new _ h1) as [[p2|] h2] eqn:Hadd; [|discriminate].
  apply add_new_Ret in Hadd as [_ ->]. unfold updateWorkflowInfoWithSearchAttributes. run.
  destruct (mergeSearchAttributes _ _); [|discriminate]. intros [= <-]. simpl.
  by apply records_more.
Qed.

Lemma version_marker_run id v b eventID now e :
  ToData [GString id; GInt v] = inr (Some b) →
  handleMarkerRecorded workflow eventID (marker versionMarkerName (Some b)) now e
  = (Ret None, set_changeVersions (<[id := v]> (changeVersions e)) e).
Proof.
  intros Hb. unfold handleMarkerRecorded. run. simpl. unfold Values_Get. simpl.
  apply FromData_ToData in Hb. simpl in Hb. by rewrite Hb.
Qed.

Lemma side_effect_marker_run n result b eventID now e :
  ToData [GInt n; GBytes result] = inr (Some b) →
  handleMarkerRecorded workflow eventID (marker sideEffectMarkerName (Some b)) now e
  = (Ret None, set_sideEffectResult (<[n := result]> (sideEffectResult e)) e).
Proof.
  intros Hb. unfold handleMarkerRecorded. run. simpl. unfold Values_Get. simpl.
  apply FromData_ToData in Hb. simpl in Hb. by rewrite Hb.
Qed.

Definition sideEffectDecisionID (n : Z) : decisionID :=
  makeDecisionID decisionTypeMarker (sideEffectMarkerName +:+ "_" +:+ pretty n).

Lemma SideEffect_record_run result cb b e :
  isReplay e = false → decisions (helper e) !! sideEffectDecisionID (counterID e) = None →
  ToData [GInt (counterID e); GBytes result] = inr b →
  ∃ e', SideEffect (result, None) cb e = (Ret tt, e')
    ∧ calls e' = calls e ++ [callResult cb result None]
    ∧ records sideEffectMarkerName b (helper e').
Proof.
  intros Hr Hd Hb. unfold SideEffect, GenerateSequence. run. simpl. rewrite Hr.
  unfold encodeArgs. rewrite Hb. unfold lift, recordSideEffectMarker, newMarkerDecisionStateMachine.
  rewrite add_new_run by exact Hd. simpl. eexists. split; [reflexivity|]. simpl.
  split; [done|]. apply records_added.
Qed.

Lemma SideEffect_replay_run f result cb e :
  isReplay e = true → decisions (helper e) !! sideEffectDecisionID (counterID e) = None →
  sideEffectResult e !! counterID e = Some result →
  ∃ e', SideEffect f cb e = (Ret tt, e') ∧ calls e' = calls e ++ [callResult cb result None].
Proof.
  intros Hr Hd Hres. unfold SideEffect, GenerateSequence. run. simpl. rewrite Hr, Hres.
  unfold lift, recordSideEffectMarker, newMarkerDecisionStateMachine.
  rewrite add_new_run by exact Hd. simpl. eexists. split; [reflexivity|done].
Qed.

End markers.

(** ** Replay time *)

Definition reached (t : Z) (e : env) : Prop := (t ≤ currentReplayTime e)%Z.

#[local] Instance reached_frame t : FrameInv (reached t).
Proof. by split. Qed.

Section time.
Context {dc : DataConverter} (json_Marshal : searchValue → string + bytes).
Context (workflow : call → M env unit) (getWorkflowDefinition : string → option string).
Hypothesis workflow_is_code : ∀ c, workflow_code json_Marshal (workflow c).
Context (t : Z).

Lemma time_versions f : pres (reached t) (modify (λ e, set_changeVersions (f e) e)).
Proof. by intros e He. Qed.

Lemma time_SetCurrentReplayTime t' now : pres (reached t) (SetCurrentReplayTime t' now).
Proof. intros e He. unfold SetCurrentReplayTime. run. case_decide; [done|]. unfold reached in *. simpl. lia. Qed.

Lemma time_code c : workflow_code json_Marshal c → pres (reached t) c.
Proof.
  intros Hc. apply (frame_workflow_code _ _ c Hc). intros id mn mx config.
  unfold GetVersion, validateVersion.
  pose proof (frame_record json_Marshal (reached t)). auto 12 using time_versions with pres.
Qed.

Lemma time_modify f :
  (∀ e, currentReplayTime (f e) = currentReplayTime e) → pres (reached t) (modify f).
Proof. intros Hf e He. unfold reached in *. simpl. by rewrite Hf. Qed.

Lemma time_lift {A} (c : M (decisionsHelper scheduled) A) : pres (reached t) (lift c).
Proof. by apply frame_lift; apply _. Qed.
Lemma time_deliver c : pres (reached t) (deliver c).
Proof. by apply frame_deliver; apply _. Qed.
Lemma time_handle p r err : pres (reached t) (handle p r err).
Proof. by apply frame_handle; apply _. Qed.
Lemma time_data_of p is_T : pres (reached t) (data_of p is_T).
Proof. by apply frame_data_of; apply _. Qed.
Lemma time_isDone p : pres (reached t) (decision_isDone p).
Proof. by apply frame_isDone; apply _. Qed.
Lemma time_updateInfo attr : pres (reached t) (updateWorkflowInfoWithSearchAttributes attr).
Proof. by apply frame_updateInfo; apply _. Qed.
Lemma time_invoke c : pres (reached t) (invoke workflow c).
Proof. unfold invoke. auto using time_deliver, time_code with pres. Qed.

Hint Resolve time_SetCurrentReplayTime time_lift time_deliver time_handle time_data_of time_isDone
  time_updateInfo time_invoke pres_pure : pres.
Hint Extern 2 (pres (reached t) (modify _)) => apply time_modify; reflexivity : pres.

Lemma time_handle_once p d r err : pres (reached t) (handle_once p d r err).
Proof. unfold handle_once. auto with pres. Qed.
Hint Resolve time_handle_once : pres.

Lemma time_handleMarkerRecorded id attributes now :
  pres (reached t) (handleMarkerRecorded workflow id attributes now).
Proof.
  unfold handleMarkerRecorded, handleLocalActivityMarker, OnDecisionTaskStarted, derefM.
  apply pres_bind; [auto with pres|intros a].
  repeat match goal with |- pres _ (match ?x with _ => _ end) => destruct x end; auto 14 with pres.
Qed.
Hint Resolve time_handleMarkerRecorded : pres.

Lemma time_ProcessEvent event replay isLast now :
  pres (reached t) (ProcessEvent workflow getWorkflowDefinition event replay isLast now).
Proof.
  unfold ProcessEvent. destruct event as [event|]; [|auto with pres]. intros e He.
  assert (reached t (snd (ProcessEvent_body workflow getWorkflowDefinition event replay isLast now e)))
    as Hb.
  { revert e He. change (pres (reached t)
      (ProcessEvent_body workflow getWorkflowDefinition event replay isLast now)).
    unfold ProcessEvent_body, add_historyBytes, OnDecisionTaskStarted.
    apply pres_bind; [auto with pres|intros _]. apply pres_bind; [|auto 12 with pres].
    unfold dispatch. destruct (GetEventType event); try apply pres_ret;
      unfold quiet, handleWorkflowExecutionStarted, handleActivityTaskCompleted,
        handleActivityTaskFailed, handleActivityTaskTimedOut, handleActivityTaskCanceled_event,
        handleTimerFired, handleWorkflowExecutionCancelRequested,
        handleWorkflowExecutionSignaled, handleStartChildWorkflowExecutionFailed_event,
        handleChildWorkflowExecutionStarted_event, handleChildWorkflowExecutionCompleted,
        handleChildWorkflowExecutionFailed, handleChildWorkflowExecutionCanceled_event,
        handleChildWorkflowExecutionTimedOut, handleChildWorkflowExecutionTerminated, close_child,
        handleUpsertWorkflowSearchAttributes, handleRequestCancelExternalInitiated,
        handleExternalCancelRequested, handleRequestCancelExternalFailed,
        handleSignalExternalCompleted, handleSignalExternalFailed, set_decisionStarted, derefM,
        OnDecisionTaskStarted; auto 16 with pres. }
  unfold recovering. destruct (ProcessEvent_body _ _ _ _ _ _ e) as [[r|p] e']; [done|].
  revert e' Hb. simpl.
  change (pres (reached t) (Complete None (Some (ErrWorkflowPanic p));; mret (None : option string))).
  unfold Complete. auto with pres.
Qed.

Lemma time_estep e e' : reached t e → estep workflow getWorkflowDefinition e e' → reached t e'.
Proof.
  intros He [ev rp il now|lar now|b]; [by apply time_ProcessEvent| |by apply time_lift].
  revert e He. change (pres (reached t) (ProcessLocalActivityResult workflow getWorkflowDefinition lar now)).
  unfold ProcessLocalActivityResult. apply pres_bind; [auto with pres|intros e].
  apply pres_bind; [auto with pres|intros [[[]]]].
  destruct (ToData _); [auto with pres|]. apply time_ProcessEvent.
Qed.

End time.

(** ** The end of an activity *)

Lemma on_decision_run k f p (h : decisionsHelper scheduled) :
  decisions h !! k = Some p →
  on_decision k f h =
    match f p (set_lists (list_MoveToBack p (orderedDecisions h)) (decisions h) h) with
    | (Ret _, h') => (Ret p, h')
    | (Panic e, h') => (Panic e, h')
    end.
Proof. intros Hk. unfold on_decision. run. by rewrite getDecision_run, Hk. Qed.

Lemma lift_run {A} (c : M (decisionsHelper scheduled) A) e o h :
  c (helper e) = (o, h) → lift c e = (o, set_helper h e).
Proof. intros Hc. unfold lift. by rewrite Hc. Qed.

(** An activity that is running: its decision, its state and the closure that
    waits for it. *)
Record running (id : string) (scheduledEventID : Z) (cb : callback) (e : env) (p : ptr)
    (m : machine scheduled) : Prop := {
  run_decision : decisions (helper e) !! makeDecisionID decisionTypeActivity id = Some p;
  run_machine : heap (helper e) !! p = Some m;
  run_id : m_id m = makeDecisionID decisionTypeActivity id;
  run_state : m_state m = decisionStateInitiated;
  run_kind : class_of (m_kind m) = Activity;
  run_data : ∃ w, m_data m = Some (scheduledActivity cb w false);
  run_scheduled : scheduledEventIDToActivityID (helper e) !! scheduledEventID = Some id }.

Lemma activity_completed_run id sid cb e p m event result :
  running id sid cb e p m → activity_scheduledEventID event = Some sid →
  (∃ a b, HistoryEvent_ActivityTaskCompletedEventAttributes event =
     Some (MkActivityTaskCompletedEventAttributes result (Some sid) a b)) →
  ∃ e', handleActivityTaskCompleted event e = (Ret tt, e')
    ∧ calls e' = calls e ++ [callResult cb result None]
    ∧ decisions (helper e') !! makeDecisionID decisionTypeActivity id = None
    ∧ workflowInfo e' = workflowInfo e.
Proof.
  intros [Hd Hm Hid Hs Hk (w & Hdata) Hsid] Hev (a & b & Hattr).
  set (h1 := set_lists (list_MoveToBack p (orderedDecisions (helper e))) (decisions (helper e)) (helper e)).
  destruct (completion_initiated p m h1 Hm Hs Hk) as (m' & Hrun & _ & _ & Hdata').
  set (h2 := forget (m_id m) (put p m' h1)).
  assert (heap h2 !! p = Some m') as Hm2 by (unfold h2; rewrite heap_forget; apply lookup_insert_eq).
  assert (getActivityID event (helper e) = (Ret id, helper e)) as H1
    by (unfold getActivityID; run; by rewrite Hev, Hsid).
  assert (handleActivityTaskClosed id (helper e) = (Ret p, h2)) as H2.
  { unfold handleActivityTaskClosed. rewrite (on_decision_run _ _ p) by done. fold h1. by rewrite Hrun. }
  unfold handleActivityTaskCompleted. run. rewrite (lift_run _ _ _ _ H1), set_helper_id.
  rewrite (lift_run _ _ _ _ H2). unfold data_of. run. rewrite lift_getData_run. simpl helper.
  rewrite Hm2, Hdata', Hdata. simpl. rewrite Hattr. simpl.
  unfold handle. run. rewrite lift_getData_run. simpl helper. rewrite Hm2, Hdata', Hdata. simpl.
  rewrite (lift_setData_run p _ m') by done. eexists.
  split; [reflexivity|]. simpl. split; [done|]. split; [|done].
  unfold h2, forget. simpl. rewrite Hid, Hd. simpl. apply lookup_delete_eq.
Qed.

(** ** Theorems *)

Section theorems.
Context {dc : DataConverter}.
Context (json_Marshal : searchValue → string + bytes).
Context (workflow : call → M env unit) (getWorkflowDefinition : string → option string).

(** C1: whatever workflow code runs, whatever history events and results of
    local activities arrive, in any order, and whatever panics on the way: the
    result of an activity, a timer, a child workflow, a signal, a cancellation, a
    side effect or a local activity is delivered to its closure at most once. *)
Theorem callbacks_once info e :
  (∀ c, workflow_code json_Marshal (workflow c)) →
  rtc (estep workflow getWorkflowDefinition) (newEnv info) e → NoDup (result_callbacks (calls e)).
Proof. intros Hw He. apply (esteps_ok json_Marshal _ _ Hw info e He). Qed.

(** C30: when the event that completes a running activity arrives, the closure
    that waits for the activity gets exactly the result of the event, no other
    closure is called, and the decision of the activity is forgotten. *)
Theorem activity_result_delivered id sid cb e p m event result replay now :
  running id sid cb (set_isReplay replay e) p m →
  GetEventType event = EventTypeActivityTaskCompleted →
  (∃ a b, HistoryEvent_ActivityTaskCompletedEventAttributes event =
     Some (MkActivityTaskCompletedEventAttributes result (Some sid) a b)) →
  ∃ e', ProcessEvent workflow getWorkflowDefinition (Some event) replay false now e = (Ret None, e')
    ∧ calls e' = calls e ++ [callResult cb result None]
    ∧ decisions (helper e') !! makeDecisionID decisionTypeActivity id = None.
Proof.
  intros Hr Ht Ha. assert (activity_scheduledEventID event = Some sid) as Hsid.
  { destruct Ha as (a & b & Ha). unfold activity_scheduledEventID. by rewrite Ht, Ha. }
  destruct (activity_completed_run id sid cb _ p m event result Hr Hsid Ha)
    as (e' & Hrun & Hcalls & Hdec & _).
  unfold ProcessEvent, recovering, ProcessEvent_body, dispatch. run. rewrite Ht. unfold quiet. run.
  rewrite Hrun. simpl. eexists. split; [reflexivity|]. done.
Qed.

(** Once [GetVersion] has returned a version for a change, workflow code gets
    the same version for that change ever after, or a panic when the code does not
    support that version any more; it never gets another version. *)
Theorem version_stable id mn mx config e v e1 c mn' mx' config' :
  GetVersion json_Marshal id mn mx config e = (Ret v, e1) → workflow_code json_Marshal c →
  ∃ o, GetVersion json_Marshal id mn' mx' config' (snd (c e1)) = (o, snd (c e1))
    ∧ if decide (mn' ≤ v ∧ v ≤ mx')%Z then o = Ret v else ∃ m, o = Panic (StringPanic m).
Proof.
  intros Hv Hc. apply GetVersion_known. apply (keeps_version_code json_Marshal id v c Hc).
  by eapply GetVersion_sets.
Qed.

(** C7: when the first call of [GetVersion] for a change, outside a replay,
    chooses a version other than [DefaultVersion] and the marker can be encoded, the
    version is recorded in a marker decision; and with a data converter that reads
    back what it wrote, the event of that marker makes [GetVersion] in a replay
    return the same version, whatever the new code would choose, if the range that
    the new code supports contains it (otherwise [GetVersion] panics). *)
Theorem version_replayed `{!DataConverterRoundTrip dc} id mn mx config e v e1 b
    mn' mx' config' eventID now e2 :
  wf (helper e) → isReplay e = false → changeVersions e !! id = None → v ≠ DefaultVersion →
  ToData [GString id; GInt v] = inr (Some b) →
  GetVersion json_Marshal id mn mx config e = (Ret v, e1) → (mn' ≤ v ≤ mx')%Z →
  records versionMarkerName (Some b) (helper e1)
  ∧ ∃ e3, handleMarkerRecorded workflow eventID (marker versionMarkerName (Some b)) now e2
            = (Ret None, e3)
      ∧ GetVersion json_Marshal id mn' mx' config' e3 = (Ret v, e3).
Proof.
  intros Hwf Hr Hid Hv Hb Hrun Hrange. split; [by eapply GetVersion_records|].
  eexists. split; [by apply version_marker_run|].
  set (e3 := set_changeVersions _ _). assert (changeVersions e3 !! id = Some v) as H3 by apply lookup_insert_eq.
  destruct (GetVersion_known json_Marshal id v mn' mx' config' e3 H3) as (o & -> & Ho).
  rewrite decide_True in Ho by lia. by rewrite Ho.
Qed.

(** The result of a side effect is recorded in a marker decision, and in a
    replay the event of that marker makes the side effect with the same sequence
    number deliver the recorded result, without evaluating its function. *)
Theorem side_effect_replayed `{!DataConverterRoundTrip dc} result cb b e f' cb' eventID now e2 :
  isReplay e = false → decisions (helper e) !! sideEffectDecisionID (counterID e) = None →
  ToData [GInt (counterID e); GBytes result] = inr (Some b) →
  isReplay e2 = true → decisions (helper e2) !! sideEffectDecisionID (counterID e) = None →
  counterID e2 = counterID e →
  (∃ e1, SideEffect (result, None) cb e = (Ret tt, e1)
     ∧ calls e1 = calls e ++ [callResult cb result None]
     ∧ records sideEffectMarkerName (Some b) (helper e1))
  ∧ ∃ e3 e4, handleMarkerRecorded workflow eventID (marker sideEffectMarkerName (Some b)) now e2
               = (Ret None, e3)
      ∧ SideEffect f' cb' e3 = (Ret tt, e4)
      ∧ calls e4 = calls e2 ++ [callResult cb' result None].
Proof.
  intros Hr Hd Hb Hr2 Hd2 Hc. split; [by eapply SideEffect_record_run|].
  set (e3 := set_sideEffectResult (<[counterID e := result]> (sideEffectResult e2)) e2).
  destruct (SideEffect_replay_run f' result cb' e3) as (e4 & Hrun & Hcalls);
    [done|simpl; by rewrite Hc|simpl; rewrite Hc; apply lookup_insert_eq|].
  exists e3, e4. split; [by apply side_effect_marker_run|]. by split.
Qed.

(** The time that workflow code sees never goes backwards, whatever events
    and results arrive. *)
Theorem replay_time_monotone e e' :
  (∀ c, workflow_code json_Marshal (workflow c)) →
  rtc (estep workflow getWorkflowDefinition) e e' →
  (currentReplayTime e ≤ currentReplayTime e')%Z.
Proof.
  intros Hw He. assert (reached (currentReplayTime e) e) as H0 by (unfold reached; lia).
  revert H0. generalize (currentReplayTime e). intros t. induction He; [done|].
  intros Ht. apply IHHe. by eapply (time_estep json_Marshal).
Qed.

End theorems.

(** ** The hypotheses can hold *)

Module Sample.

#[local] Instance sample_dc : DataConverter := bitConverter.
#[local] Existing Instance bitConverter_RoundTrip.

Definition json (v : searchValue) : string + bytes := inr (Some "json").
Definition definition (type : string) : option string := None.

Definition activity : executeActivityParams :=
  MkExecuteActivityParams (Some "a1") "list" TaskListKindNormal 10 10 10 10 false None "Act" None None.

(** A workflow that starts an activity and does nothing else. *)
Definition workflow (c : call) : M env unit :=
  match c with
  | callExecute _ _ => (cb ← newClosure; ExecuteActivity activity cb) ≫= λ _, mret tt
  | _ => mret tt
  end.

Lemma workflow_is_code c : workflow_code json (workflow c).
Proof. destruct c; try apply code_done. apply code_op; [apply opActivity|intros; apply code_done]. Qed.

Definition event (t : EventType) : HistoryEvent :=
  set_HistoryEvent_EventType (Some t) HistoryEvent_nil.
Definition started : HistoryEvent :=
  set_HistoryEvent_WorkflowExecutionStartedEventAttributes
    (Some (MkWorkflowExecutionStartedEventAttributes None None None None None None None None None
       None None None None None None None None None None None None None None None None None None
       None None None)) (event EventTypeWorkflowExecutionStarted).
Definition scheduled_event : HistoryEvent :=
  set_HistoryEvent_ActivityTaskScheduledEventAttributes
    (Some (MkActivityTaskScheduledEventAttributes (Some "a1") None None None None None None None
       None None None None)) (set_HistoryEvent_EventId (Some 5%Z) (event EventTypeActivityTaskScheduled)).
Definition completed : HistoryEvent :=
  set_HistoryEvent_ActivityTaskCompletedEventAttributes
    (Some (MkActivityTaskCompletedEventAttributes (Some "done") (Some 5%Z) None None))
    (event EventTypeActivityTaskCompleted).

Definition info : WorkflowInfo :=
  MkWorkflowInfo "flow-id" "run" "" "Flow" "list" 3600 10 "domain" 0 None None None None None None
    None None 0 None 0 0 0.

Definition process (ev : HistoryEvent) (e : env) : env :=
  snd (ProcessEvent workflow definition (Some ev) false false 0 e).
Definition decided (e : env) : env := snd (lift (getDecisions true) e).

Definition running_env : env := process scheduled_event (decided (process started (newEnv info))).

Lemma process_step ev e : estep workflow definition e (process ev e).
Proof. exact (step_event _ _ e (Some ev) false false 0). Qed.
Lemma decided_step e : estep workflow definition e (decided e).
Proof. exact (step_decisions _ _ e true). Qed.

Lemma running_env_reachable : rtc (estep workflow definition) (newEnv info) running_env.
Proof.
  exact (rtc_l _ _ _ _ (process_step started _) (rtc_l _ _ _ _ (decided_step _)
    (rtc_l _ _ _ _ (process_step scheduled_event _) (rtc_refl _ _)))).
Qed.

(** The completion of the activity, seen twice. *)
Definition completed_env : env := process completed (process completed running_env).

Lemma completed_env_reachable : rtc (estep workflow definition) (newEnv info) completed_env.
Proof.
  exact (rtc_r _ _ _ (rtc_r _ _ _ running_env_reachable (process_step completed _))
    (process_step completed _)).
Qed.

Lemma callbacks_once_witness :
  result_callbacks (calls completed_env) = [0] ∧ NoDup (result_callbacks (calls completed_env)).
Proof.
  split; [vm_compute; reflexivity|].
  exact (callbacks_once json workflow definition info completed_env workflow_is_code
           completed_env_reachable).
Defined.

Lemma activity_result_delivered_witness :
  ∃ e', ProcessEvent workflow definition (Some completed) false false 0 running_env = (Ret None, e')
    ∧ calls e' = calls running_env ++ [callResult 0 (Some "done") None].
Proof.
  destruct (heap (helper running_env) !! 0) as [m|] eqn:Hm; [|vm_compute in Hm; discriminate].
  destruct (activity_result_delivered workflow definition "a1" 5 0 running_env 0 m completed
    (Some "done") false 0) as (e' & Hrun & Hcalls & _).
  - vm_compute in Hm. injection Hm as <-. split; try (vm_compute; reflexivity).
    eexists. vm_compute. reflexivity.
  - reflexivity.
  - by eexists _, _.
  - by exists e'.
Defined.

Definition any_version : getVersionConfig := GetVersionConfig None false.

Lemma version_stable_witness :
  let e1 := snd (GetVersion json "c" 1 3 any_version (newEnv info)) in
  fst (GetVersion json "c" 1 9 any_version (snd (workflow (callExecute None None) e1))) = Ret 3%Z.
Proof.
  intros e1. destruct (version_stable json "c" 1 3 any_version (newEnv info) 3 e1
    (workflow (callExecute None None)) 1 9 any_version) as (o & Hrun & Ho).
  - vm_compute. reflexivity.
  - apply workflow_is_code.
  - rewrite Hrun. exact Ho.
Defined.

Lemma version_replayed_witness :
  ∃ e3, fst (GetVersion json "c" 1 9 any_version e3) = Ret 3%Z.
Proof.
  destruct (version_replayed json workflow "c" 1 3 any_version (newEnv info) 3
    (snd (GetVersion json "c" 1 3 any_version (newEnv info)))
    (bits_of_pos (encode [GString "c"; GInt 3])) 1 9 any_version 7 0 (newEnv info))
    as (_ & e3 & _ & Hv); [apply wf_new|reflexivity|reflexivity|discriminate|reflexivity
      |vm_compute; reflexivity|lia|].
  exists e3. by rewrite Hv.
Defined.

Lemma side_effect_replayed_witness :
  ∃ e3 e4, SideEffect (Some "other", None) 1 e3 = (Ret tt, e4)
    ∧ calls e4 = [callResult 1 (Some "first") None].
Proof.
  destruct (side_effect_replayed workflow (Some "first") 0
    (bits_of_pos (encode [GInt 0; GBytes (Some "first")])) (newEnv info) (Some "other", None) 1 7 0
    (set_isReplay true (newEnv info))) as (_ & e3 & e4 & _ & Hrun & Hcalls);
    [reflexivity..|].
  by exists e3, e4.
Defined.

Lemma replay_time_monotone_witness :
  (currentReplayTime (newEnv info) ≤ currentReplayTime running_env)%Z.
Proof.
  apply (replay_time_monotone json workflow definition); [apply workflow_is_code|].
  apply running_env_reachable.
Defined.

End Sample.
