(* ===== verification/WorkflowTask.v ===== *)
(** * The execution of a decision task

    internal/internal_task_handlers.go: the context of one workflow execution
    ([workflowExecutionContextImpl]).  It feeds the batches of the history
    (History.v) to the event handler (EventHandlers.v), compares the decisions of
    the replay with the history (Replay.v), and turns the decisions of the
    helper and the completion of the workflow into the request that answers the
    task.

    [WorkflowInfo] is shared by the context and its event handler: it is a part
    of the handler's environment, and is all that is left of it once the handler
    is destroyed.  The fields [isWorkflowCompleted], [result] and [err] of the
    context are assigned by the completion handler only, and cleared with the
    event handler: they are read off the last call of that handler. *)

From stdpp Require Import base list gmap strings option pretty.
From Stdlib Require Import ZArith.
From S2P Require Import Prelude.
From S2P Require Import Shared.
From S2P Require Import DecisionStateMachine.
From S2P Require Import DecisionsHelper.
From S2P Require Import Replay.
From S2P Require Import History.
From S2P Require Import Errors.
From S2P Require Import Environment.
From S2P Require Import EventHandlers.

(** ** Data *)

Inductive NonDeterministicWorkflowPolicy :=
| NonDeterministicWorkflowPolicyBlockWorkflow
| NonDeterministicWorkflowPolicyFailWorkflow
| NonDeterministicWorkflowPolicyUnknown (z : Z).

(** The requests that answer a task. *)
Inductive completeRequest :=
| RespondQuery (r : RespondQueryTaskCompletedRequest)
| RespondFailed (r : RespondDecisionTaskFailedRequest)
| RespondCompleted (r : RespondDecisionTaskCompletedRequest).

Record wctx := WCtx {
  eventHandler : WorkflowInfo + env;  (** the info alone once destroyed *)
  previousStartedEventID : Z;
  newDecisions : list Decision;
  currentDecisionTask : option PollForDecisionTaskResponse;
  (** the task that is being processed, and the token of its iterator *)
  wtask : PollForDecisionTaskResponse;
  iteratorToken : bytes;
  (** the local variables of [ProcessWorkflowTask] *)
  reorderedHistory : history;
  replayDecisions : list Decision;
  respondEvents : list HistoryEvent;
  (** what was handed to other goroutines: the tasks sent to the local activity
      worker, the timers of local retries, and the executions whose stickiness is
      to be reset *)
  sentTasks : list localActivityTask;
  retryTimers : list (Z * localActivityTask);
  resetStickiness : list (string * string * string) }.

Implicit Types w : wctx.

Definition set_eventHandler x w := WCtx x (previousStartedEventID w) (newDecisions w)
  (currentDecisionTask w) (wtask w) (iteratorToken w) (reorderedHistory w) (replayDecisions w)
  (respondEvents w) (sentTasks w) (retryTimers w) (resetStickiness w).
Definition set_previousStarted x w := WCtx (eventHandler w) x (newDecisions w)
  (currentDecisionTask w) (wtask w) (iteratorToken w) (reorderedHistory w) (replayDecisions w)
  (respondEvents w) (sentTasks w) (retryTimers w) (resetStickiness w).
Definition set_current x y w := WCtx (eventHandler w) (previousStartedEventID w) x y
  (wtask w) (iteratorToken w) (reorderedHistory w) (replayDecisions w)
  (respondEvents w) (sentTasks w) (retryTimers w) (resetStickiness w).
Definition set_wtask x y w := WCtx (eventHandler w) (previousStartedEventID w) (newDecisions w)
  (currentDecisionTask w) x y (reorderedHistory w) (replayDecisions w)
  (respondEvents w) (sentTasks w) (retryTimers w) (resetStickiness w).
Definition set_history x w := WCtx (eventHandler w) (previousStartedEventID w) (newDecisions w)
  (currentDecisionTask w) (wtask w) (iteratorToken w) x (replayDecisions w)
  (respondEvents w) (sentTasks w) (retryTimers w) (resetStickiness w).
Definition set_replay x y w := WCtx (eventHandler w) (previousStartedEventID w) (newDecisions w)
  (currentDecisionTask w) (wtask w) (iteratorToken w) (reorderedHistory w) x y
  (sentTasks w) (retryTimers w) (resetStickiness w).
Definition set_goroutines x y z w := WCtx (eventHandler w) (previousStartedEventID w)
  (newDecisions w) (currentDecisionTask w) (wtask w) (iteratorToken w) (reorderedHistory w)
  (replayDecisions w) (respondEvents w) x y z.

Definition ctxInfo w : WorkflowInfo :=
  match eventHandler w with inl i => i | inr e => workflowInfo e end.
Definition getEventHandler w : option env :=
  match eventHandler w with inl _ => None | inr e => Some e end.
Definition IsDestroyed w : bool := bool_decide (getEventHandler w = None).

(** [completeWorkflow] of the context: the last call of the completion handler
    gives the result and the error. *)
Fixpoint completion (cs : list call) : option (bytes * option goError) :=
  match cs with
  | [] => None
  | callComplete result err :: cs =>
      match completion cs with Some r => Some r | None => Some (result, err) end
  | _ :: cs => completion cs
  end.
Definition ctxCompletion w : option (bytes * option goError) :=
  getEventHandler w ≫= λ e, completion (calls e).
Definition isWorkflowCompleted w : bool :=
  match ctxCompletion w with Some _ => true | None => false end.
Definition ctxResult w : bytes := ctxCompletion w ≫= fst.
Definition ctxErr w : option goError := ctxCompletion w ≫= snd.

Definition taskEvents (t : PollForDecisionTaskResponse) : list HistoryEvent :=
  default [] (PollForDecisionTaskResponse_History t).
Definition set_taskEvents (es : list HistoryEvent) (t : PollForDecisionTaskResponse) :=
  MkPollForDecisionTaskResponse
    (PollForDecisionTaskResponse_TaskToken t) (PollForDecisionTaskResponse_WorkflowExecution t)
    (PollForDecisionTaskResponse_WorkflowType t)
    (PollForDecisionTaskResponse_PreviousStartedEventId t)
    (PollForDecisionTaskResponse_StartedEventId t) (PollForDecisionTaskResponse_Attempt t)
    (PollForDecisionTaskResponse_BacklogCountHint t) (Some es)
    (PollForDecisionTaskResponse_NextPageToken t) (PollForDecisionTaskResponse_Query t)
    (PollForDecisionTaskResponse_WorkflowExecutionTaskList t)
    (PollForDecisionTaskResponse_ScheduledTimestamp t)
    (PollForDecisionTaskResponse_StartedTimestamp t) (PollForDecisionTaskResponse_Queries t)
    (PollForDecisionTaskResponse_NextEventId t) (PollForDecisionTaskResponse_TotalHistoryBytes t)
    (PollForDecisionTaskResponse_AutoConfigHint t).
Definition GetPreviousStartedEventId (t : PollForDecisionTaskResponse) : Z :=
  default 0%Z (PollForDecisionTaskResponse_PreviousStartedEventId t).
Definition GetStartedEventId (t : PollForDecisionTaskResponse) : Z :=
  default 0%Z (PollForDecisionTaskResponse_StartedEventId t).

Definition isFullHistory (events : list HistoryEvent) : bool :=
  match events with
  | [] => false
  | e :: _ => bool_decide (GetEventType e = EventTypeWorkflowExecutionStarted)
  end.

(** A computation of the event handler: its methods dereference a nil handler. *)
Definition with_handler {A} (c : M env A) : M wctx A := λ w,
  match eventHandler w with
  | inl _ => (Panic NilDereference, w)
  | inr e => let '(o, e') := c e in (o, set_eventHandler (inr e') w)
  end.
Definition with_history {A} (c : M history A) : M wctx A := λ w,
  let '(o, h) := c (reorderedHistory w) in (o, set_history h w).
Definition update_info (f : WorkflowInfo → WorkflowInfo) : M wctx unit :=
  modify (λ w, set_eventHandler
    (match eventHandler w with
     | inl i => inl (f i)
     | inr e => inr (set_info (f (workflowInfo e)) e)
     end) w).
Definition pureM {A} (o : outcome A) : M wctx A :=
  match o with Ret a => mret a | Panic p => throw p end.

(** ** The state of a context *)

Definition clearCurrentTask : M wctx unit := modify (set_current [] None).

Definition clearState : M wctx unit :=
  clearCurrentTask;;
  modify (set_previousStarted 0);;
  modify (λ w, set_eventHandler (inl (ctxInfo w)) w).

Definition createEventHandler : M wctx unit :=
  clearState;;
  modify (λ w, set_eventHandler (inr (newEnv (ctxInfo w))) w).

Definition shouldResetStickyOnEviction w : bool :=
  bool_decide (ctxErr w = None :> option goError) && negb (isWorkflowCompleted w).

(** What the worker was configured with. *)
Record workerConfig := WorkerConfig {
  wth_domain : string;
  wth_identity : string;
  wth_binaryChecksum : string;
  wth_policy : NonDeterministicWorkflowPolicy;
  wth_ppMgr : option (string → option string);
  (** whether the local activity worker takes a task (it does until it stops);
      nil without a worker *)
  wth_laTunnel : option (wctx → localActivityTask → bool) }.

(** What a query reads: the stack trace, the open sessions and the query types
    that the workflow reports about itself, and its query handler. *)
Record introspection := Introspection {
  q_StackTrace : env → goValue;
  q_OpenSessions : env → goValue;
  q_KnownQueryTypes : env → goValue;
  q_handler : env → string → bytes → string + bytes }.

Section context.
Context {dc : DataConverter}.
(** The workflow code and the registry, as in EventHandlers.v; the service; the
    local clock; the rendering of events and decisions by reflection. *)
Context (workflow : call → M env unit) (getWorkflowDefinition : string → option string).
Context (page : pageFunc) (clock : env → Z) (config : workerConfig) (queries : introspection).
Context (HistoryEventToString : HistoryEvent → string) (DecisionToString : Decision → string).
Context (Quote : string → string).

(** [ResetStickyTaskListRequest]: domain, workflow id and run id. *)
Definition queueResetStickinessTask : M wctx unit :=
  match wth_laTunnel config with
  | None => mret tt
  | Some _ =>
      modify (λ w, let i := ctxInfo w in
        set_goroutines (sentTasks w) (retryTimers w)
          (resetStickiness w ++ [(wi_Domain i, wi_WorkflowID i, wi_RunID i)]) w)
  end.

Definition onEviction : M wctx unit :=
  w ← get;
  (if shouldResetStickyOnEviction w then queueResetStickinessTask else mret tt);;
  clearState.

(** [createWorkflowContext]: the error, or a new context for the task. *)
Definition newContext (info : WorkflowInfo) (task : PollForDecisionTaskResponse) : wctx :=
  WCtx (inr (newEnv info)) 0 [] None task (PollForDecisionTaskResponse_NextPageToken task)
    (newHistory [] 0 None) [] [] [] [] [].

Definition createWorkflowContext (task : PollForDecisionTaskResponse) : outcome (string + wctx) :=
  match taskEvents task with
  | [] => Panic IndexOutOfRange
  | started :: _ =>
      match HistoryEvent_WorkflowExecutionStartedEventAttributes started with
      | None => mret (inl "first history event is not WorkflowExecutionStarted")
      | Some a =>
          match WorkflowExecutionStartedEventAttributes_TaskList a with
          | None => mret (inl "nil TaskList in WorkflowExecutionStarted event")
          | Some taskList =>
              workflowType ← deref (PollForDecisionTaskResponse_WorkflowType task);
              let execution := PollForDecisionTaskResponse_WorkflowExecution task in
              mret (inr (newContext
                (MkWorkflowInfo
                   (get_string WorkflowExecution_WorkflowId execution)
                   (get_string WorkflowExecution_RunId execution)
                   (get_string WorkflowExecutionStartedEventAttributes_OriginalExecutionRunId (Some a))
                   (get_string WorkflowType_Name (Some workflowType))
                   (get_string TaskList_Name (Some taskList))
                   (get_int WorkflowExecutionStartedEventAttributes_ExecutionStartToCloseTimeoutSeconds
                      (Some a))
                   (get_int WorkflowExecutionStartedEventAttributes_TaskStartToCloseTimeoutSeconds
                      (Some a))
                   (wth_domain config)
                   (get_int WorkflowExecutionStartedEventAttributes_Attempt (Some a))
                   (WorkflowExecutionStartedEventAttributes_LastCompletionResult a)
                   (WorkflowExecutionStartedEventAttributes_CronSchedule a)
                   (WorkflowExecutionStartedEventAttributes_ContinuedExecutionRunId a)
                   (WorkflowExecutionStartedEventAttributes_ParentWorkflowDomain a)
                   ((λ p, (get_string WorkflowExecution_WorkflowId (Some p),
                           get_string WorkflowExecution_RunId (Some p)))
                      <$> WorkflowExecutionStartedEventAttributes_ParentWorkflowExecution a)
                   (WorkflowExecutionStartedEventAttributes_Memo a)
                   (WorkflowExecutionStartedEventAttributes_SearchAttributes a)
                   None 0 (WorkflowExecutionStartedEventAttributes_RetryPolicy a) 0 0 0) task))
          end
      end
  end.

(** The iterator starts again: the first page replaces the events of the task. *)
Definition resetHistory : M wctx (option string) :=
  w ← get;
  match page None with
  | inl err => modify (set_wtask (wtask w) None);; mret (Some err)
  | inr (events, token) => modify (set_wtask (set_taskEvents events (wtask w)) token);; mret None
  end.

Definition resetStateIfDestroyed : M wctx (option string) :=
  w ← get;
  if IsDestroyed w then
    createEventHandler;;
    (if negb (isFullHistory (taskEvents (wtask w))) then resetHistory else mret None)
  else mret None.

Definition ResetIfStale : M wctx (option string) :=
  w ← get;
  match taskEvents (wtask w) with
  | e :: _ =>
      if decide (GetEventId e ≠ int64 (previousStartedEventID w + 1)) then
        clearState;; resetStateIfDestroyed
      else mret None
  | [] => mret None
  end.

Definition SetCurrentTask : M wctx unit :=
  w ← get;
  let task := wtask w in
  modify (set_current (newDecisions w) (Some task));;
  match PollForDecisionTaskResponse_Query task with
  | None => modify (set_previousStarted (GetStartedEventId task))
  | Some _ => mret tt
  end.

Definition is_query (t : PollForDecisionTaskResponse) : bool :=
  match PollForDecisionTaskResponse_Query t with Some _ => true | None => false end.

Definition skipReplayCheck w : outcome bool :=
  task ← deref (currentDecisionTask w);
  mret (is_query task || negb (isFullHistory (taskEvents task))).

(** In nanoseconds. *)
Definition GetDecisionTimeout w : Z :=
  int64 (1000000000 * wi_TaskStartToCloseTimeoutSeconds (ctxInfo w)).

Definition hasPendingLocalActivityWork w : bool :=
  negb (isWorkflowCompleted w)
  && match currentDecisionTask w, getEventHandler w with
     | Some task, Some e => negb (is_query task) && bool_decide (pendingLaTasks e ≠ ∅)
     | _, _ => false
     end.

(** ** The answer to a task *)

Definition errorToFailDecisionTask (taskToken : bytes) (err : goError)
    : outcome RespondDecisionTaskFailedRequest :=
  rd ← getErrorDetails err;
  mret (MkRespondDecisionTaskFailedRequest taskToken
    (Some DecisionTaskFailedCauseWorkflowWorkerUnhandledFailure) rd.2
    (Some (wth_identity config)) (Some (wth_binaryChecksum config))).

Definition processQuery (e : env) (queryType : string) (args : bytes) : string + bytes :=
  ProcessQuery queryType (q_StackTrace queries e) (q_OpenSessions queries e)
    (q_KnownQueryTypes queries e) (q_handler queries e queryType args).

Definition queryAnswer (e : env) (task : PollForDecisionTaskResponse) (q : WorkflowQuery)
    (err : option goError) : outcome RespondQueryTaskCompletedRequest :=
  let token := PollForDecisionTaskResponse_TaskToken task in
  match err with
  | Some (ErrPanic p) =>
      text ← Error (ErrPanic p);
      mret (MkRespondQueryTaskCompletedRequest token (Some QueryTaskCompletedTypeFailed) None
              (Some ("Workflow panic: " +:+ text)) None)
  | _ =>
      mret match processQuery e (get_string WorkflowQuery_QueryType (Some q))
                   (WorkflowQuery_QueryArgs q) with
      | inl err => MkRespondQueryTaskCompletedRequest token (Some QueryTaskCompletedTypeFailed)
                     None (Some err) None
      | inr result => MkRespondQueryTaskCompletedRequest token
                        (Some QueryTaskCompletedTypeCompleted) result None None
      end
  end.

(** The decision that closes the workflow, if it is closed. *)
Definition closeDecision (info : WorkflowInfo) (completed : bool) (result : bytes)
    (err : option goError) : outcome (option Decision) :=
  match err with
  | Some (ErrCanceled v) =>
      rd ← getErrorDetails (ErrCanceled v);
      mret (Some (set_Decision_CancelWorkflowExecutionDecisionAttributes
        (Some (MkCancelWorkflowExecutionDecisionAttributes rd.2))
        (createNewDecision DecisionTypeCancelWorkflowExecution)))
  | Some (ErrContinueAsNew e) =>
      e ← deref e;
      mret (Some (set_Decision_ContinueAsNewWorkflowExecutionDecisionAttributes
        (Some (MkContinueAsNewWorkflowExecutionDecisionAttributes
           (Some (MkWorkflowType (Some (can_workflowType e))))
           (Some (MkTaskList (can_taskListName e) None None))
           (can_input e)
           (can_executionStartToCloseTimeoutSeconds e) (can_taskStartToCloseTimeoutSeconds e)
           None (wi_RetryPolicy info) None None None None
           (if decide (can_cronSchedule e = "") then None else Some (can_cronSchedule e))
           (can_header e) (wi_Memo info) (wi_SearchAttributes info) None None None))
        (createNewDecision DecisionTypeContinueAsNewWorkflowExecution)))
  | Some err =>
      rd ← getErrorDetails err;
      mret (Some (set_Decision_FailWorkflowExecutionDecisionAttributes
        (Some (MkFailWorkflowExecutionDecisionAttributes (Some rd.1) rd.2))
        (createNewDecision DecisionTypeFailWorkflowExecution)))
  | None =>
      if completed then
        mret (Some (set_Decision_CompleteWorkflowExecutionDecisionAttributes
          (Some (MkCompleteWorkflowExecutionDecisionAttributes result))
          (createNewDecision DecisionTypeCompleteWorkflowExecution)))
      else mret None
  end.

(** The answers to the queries that came with the task, by query id. *)
Definition queryResults (e : env) (qs : option (gmap string (option WorkflowQuery)))
    : outcome (option (gmap string WorkflowQueryResult)) :=
  match qs with
  | None => mret None
  | Some qs =>
      if decide (qs = ∅) then mret None
      else if decide (map_Exists (λ _ q, q = None) qs) then Panic NilDereference
      else mret (Some (omap (λ q : option WorkflowQuery, (λ q,
        match processQuery e (get_string WorkflowQuery_QueryType (Some q))
                (WorkflowQuery_QueryArgs q) with
        | inl err => MkWorkflowQueryResult (Some QueryResultTypeFailed) None (Some err)
        | inr result => MkWorkflowQueryResult (Some QueryResultTypeAnswered) result None
        end) <$> q) qs))
  end.

(** [workflowTaskHandlerImpl.completeWorkflow]; the context is given by its
    event handler and its completion. *)
Definition completeWorkflow (e : env) (task : PollForDecisionTaskResponse)
    (completed : bool) (result : bytes) (err : option goError) (decisions : list Decision)
    (forceNewDecision : bool) : outcome completeRequest :=
  match PollForDecisionTaskResponse_Query task, err with
  | Some q, _ => r ← queryAnswer e task q err; mret (RespondQuery r)
  | None, Some (ErrWorkflowPanic p) =>
      r ← errorToFailDecisionTask (PollForDecisionTaskResponse_TaskToken task) (ErrWorkflowPanic p);
      mret (RespondFailed r)
  | None, _ =>
      close ← closeDecision (workflowInfo e) completed result err;
      results ← queryResults e (PollForDecisionTaskResponse_Queries task);
      mret (RespondCompleted (MkRespondDecisionTaskCompletedRequest
        (PollForDecisionTaskResponse_TaskToken task) (decisions ++ option_list close) None
        (Some (wth_identity config)) None (Some true)
        (Some (match close with Some _ => false | None => forceNewDecision end))
        (Some (wth_binaryChecksum config)) results))
  end.

(** The tasks that the local activity worker does not take stay unstarted.  The
    source ranges over a map, in any order. *)
Fixpoint startTasks (sendTask : wctx → localActivityTask → bool) (ids : list string)
    (unstarted : gset string) : M wctx (gset string) :=
  match ids with
  | [] => mret unstarted
  | id :: ids =>
      w ← get;
      match getEventHandler w ≫= λ e, pendingLaTasks e !! id with
      | None => throw NilDereference
      | Some task =>
          if sendTask w task then
            modify (λ w, set_goroutines (sentTasks w ++ [task]) (retryTimers w)
                           (resetStickiness w) w);;
            startTasks sendTask ids unstarted
          else startTasks sendTask ids ({[id]} ∪ unstarted)
      end
  end.

Definition startLocalActivities (sendTask : wctx → localActivityTask → bool) : M wctx unit :=
  w ← get;
  match getEventHandler w with
  | None => throw NilDereference
  | Some e =>
      if decide (unstartedLaTasks e = ∅) then mret tt else
      unstarted ← startTasks sendTask (elements (unstartedLaTasks e)) ∅;
      with_handler (modify (λ e, set_laTasks (pendingLaTasks e) unstarted e))
  end.

(** What follows the local activities. *)
Definition finishDecisionTask (task : PollForDecisionTaskResponse) (force : bool)
    : M wctx (option completeRequest) :=
  eventDecisions ← with_handler (lift (getDecisions true));
  modify (λ w, set_current (newDecisions w ++ eventDecisions) (currentDecisionTask w) w);;
  w ← get;
  match getEventHandler w with
  | None => throw NilDereference
  | Some e =>
      r ← pureM (completeWorkflow e task (isWorkflowCompleted w) (ctxResult w) (ctxErr w)
                   (newDecisions w) force);
      clearCurrentTask;;
      mret (Some r)
  end.

(** Nil while local activities are pending and are to be waited for. *)
Definition CompleteDecisionTask (waitLocalActivities : bool) : M wctx (option completeRequest) :=
  w ← get;
  match currentDecisionTask w with
  | None => mret None
  | Some task =>
      match wth_laTunnel config with
      | Some sendTask =>
          if hasPendingLocalActivityWork w then
            startLocalActivities sendTask;;
            if waitLocalActivities then mret None
            else finishDecisionTask task (negb waitLocalActivities)
          else finishDecisionTask task (negb waitLocalActivities)
      | None => finishDecisionTask task (negb waitLocalActivities)
      end
  end.

(** ** Processing the events *)

(** How a statement of the loops ends: go on, leave all the loops ([break
    ProcessEvents]), or return an error. *)
Inductive flow := Next | Break | Fail_ (err : string).

Definition processEvent (event : HistoryEvent) (replay isLast : bool) : M wctx flow :=
  err ← with_handler (λ e, ProcessEvent workflow getWorkflowDefinition (Some event) replay isLast
                             (clock e) e);
  match (err : option string) with
  | Some err => mret (Fail_ err)
  | None => w ← get; mret (if isWorkflowCompleted w then Break else Next)
  end.

Fixpoint each {A} (f : A → M wctx flow) (l : list A) : M wctx flow :=
  match l with
  | [] => mret Next
  | x :: l => r ← f x; match (r : flow) with Next => each f l | r => mret r end
  end.

Definition is_local_marker (m : HistoryEvent) : bool :=
  bool_decide (get_string MarkerRecordedEventAttributes_MarkerName
    (HistoryEvent_MarkerRecordedEventAttributes m) = localActivityMarkerName).

(** The markers of local activities, or the others. *)
Definition applyMarker (local : bool) (m : HistoryEvent) : M wctx flow :=
  if eqb (is_local_marker m) local then processEvent m true false else mret Next.

Definition executeAnyPressurePoints (event : HistoryEvent) (isInReplay : bool) : option string :=
  match wth_ppMgr config with
  | Some execute =>
      if isInReplay then None else
      match GetEventType event with
      | EventTypeDecisionTaskStarted => execute "decision-task-start-timeout"
      | EventTypeActivityTaskScheduled => execute "activity-task-schedule-timeout"
      | EventTypeActivityTaskStarted => execute "activity-task-start-timeout"
      | EventTypeDecisionTaskCompleted => execute "decision-task-complete"
      | _ => None
      end
  | None => None
  end.

(** One event of a batch of [n] events, at position [i]. *)
Definition applyEvent (skip : bool) (previousStarted : Z) (n : nat) (ie : nat * HistoryEvent)
    : M wctx flow :=
  let '(i, event) := ie in
  let isInReplay := IsReplayEvent previousStarted event in
  let isLast := negb isInReplay && bool_decide (S i = n) in
  (if negb skip && isDecisionEvent (GetEventType event) then
     modify (λ w, set_replay (replayDecisions w) (respondEvents w ++ [event]) w)
   else mret tt);;
  if isPreloadMarkerEvent event then mret Next else
  match executeAnyPressurePoints event isInReplay with
  | Some err => mret (Fail_ err)
  | None => processEvent event isInReplay isLast
  end.

Definition replayPreviousStartedEventID : Z := 2 ^ 63 - 1.

Definition isReplayTest (task : PollForDecisionTaskResponse) : bool :=
  bool_decide (GetPreviousStartedEventId task = replayPreviousStartedEventID).

(** The three loops over one batch. *)
Definition applyBatch (skip : bool) (previousStarted : Z) (events ms : list HistoryEvent)
    : M wctx flow :=
  r ← each (applyMarker false) ms;
  match (r : flow) with
  | Next =>
      r ← each (applyEvent skip previousStarted (length events)) (imap pair events);
      match (r : flow) with
      | Next => each (applyMarker true) ms
      | r => mret r
      end
  | r => mret r
  end.

(** After a batch that was replayed, the decisions that the code made. *)
Definition collectReplayDecisions (skip test : bool) (previousStarted : Z)
    (events : list HistoryEvent) : M wctx unit :=
  w ← get;
  let isReplay := default false (IsReplayEvent previousStarted <$> last events) in
  if isReplay && negb (test && negb (HasNextDecisionEvents (reorderedHistory w))) then
    eventDecisions ← with_handler (lift (getDecisions true));
    if skip then mret tt
    else modify (λ w, set_replay (replayDecisions w ++ eventDecisions) (respondEvents w) w)
  else mret tt.

(** The outer loop; returns the error, if any. *)
Fixpoint processBatches (steps fuel : nat) (skip test : bool) (previousStarted : Z)
    : M wctx (option string) :=
  match steps with
  | 0 => throw OutOfFuel
  | S steps =>
      b ← with_history (NextDecisionEvents page fuel);
      let '(reorderedEvents, ms, checksum, err) :=
        b : slice HistoryEvent * slice HistoryEvent * option string * option string in
      match err with
      | Some err => mret (Some err)
      | None =>
          match default [] reorderedEvents with
          | [] => mret None
          | events =>
              update_info (set_wi_BinaryChecksum
                (Some (default (wth_binaryChecksum config) checksum)));;
              r ← applyBatch skip previousStarted events (default [] ms);
              match (r : flow) with
              | Fail_ err => mret (Some err)
              | Break => mret None
              | Next =>
                  collectReplayDecisions skip test previousStarted events;;
                  processBatches steps fuel skip test previousStarted
              end
          end
      end
  end.

(** ** Non-determinism *)

Inductive nonDeterminism :=
| ReplayComparison (err : nonDeterministicError)
| IllegalStatePanicked (p : panic).

Definition NonDeterministicError_Error (err : nonDeterministicError) : string :=
  let h := default "" (HistoryEventToString <$> nd_history err) in
  let d := default "" (DecisionToString <$> nd_decision err) in
  if decide (Reason err = "missing replay decision") then
    "nondeterministic workflow: missing replay decision for " +:+ h
  else if decide (Reason err = "extra replay decision") then
    "nondeterministic workflow: extra replay decision for " +:+ d
  else if decide (Reason err = "mismatch") then
    "nondeterministic workflow: history event is " +:+ h +:+ ", replay decision is " +:+ d
  else
    "unknown reason " +:+ Quote (Reason err) +:+ ", history event is: " +:+ h
    +:+ ", replay decision is: " +:+ d.

Definition nonDeterminism_Error (nd : nonDeterminism) : string :=
  match nd with
  | ReplayComparison err => NonDeterministicError_Error err
  | IllegalStatePanicked p => panic_text p
  end.

Definition getWorkflowPanicIfIllegaleStatePanic w : option panic :=
  match ctxErr w with
  | Some (ErrWorkflowPanic (IllegalStatePanic m)) =>
      if isWorkflowCompleted w then Some (IllegalStatePanic m) else None
  | _ => None
  end.

(** The check after the events; the comparison in the second case is only for
    the log. *)
Definition checkReplay (skip test : bool) : M wctx (option nonDeterminism) :=
  w ← get;
  if negb skip && negb (isWorkflowCompleted w) || test then
    err ← pureM (matchReplayWithHistory (replayDecisions w) (respondEvents w));
    mret (ReplayComparison <$> err)
  else
    match getWorkflowPanicIfIllegaleStatePanic w with
    | Some p =>
        pureM (matchReplayWithHistory (replayDecisions w) (respondEvents w));;
        mret (Some (IllegalStatePanicked p))
    | None => mret None
    end.

(** ** The task *)

Inductive taskResult :=
| TaskError (err : string)
| TaskNonDeterministic (nd : nonDeterminism)
| TaskResponse (r : option completeRequest).

Definition prepareTask : M wctx (option string) :=
  w ← get;
  update_info (set_wi_HistoryServer
    (default 0%Z (PollForDecisionTaskResponse_TotalHistoryBytes (wtask w)))
    (int64 (default 0%Z (PollForDecisionTaskResponse_NextEventId (wtask w)) - 1)));;
  ResetIfStale.

(** [newHistory] and the declarations of the local variables. *)
Definition startTask : M wctx unit :=
  SetCurrentTask;;
  w ← get;
  modify (set_history (newHistory (taskEvents (wtask w)) (GetStartedEventId (wtask w))
                         (iteratorToken w)));;
  modify (set_replay [] []).

Definition applyPolicy (nd : nonDeterminism) : M wctx (option taskResult) :=
  match wth_policy config with
  | NonDeterministicWorkflowPolicyFailWorkflow =>
      e ← pureM (NewCustomError "NonDeterministicWorkflowPolicyFailWorkflow"
                   [DValue (GString (nonDeterminism_Error nd))]);
      with_handler (Complete None (Some (ErrCustom (Some e))));;
      mret None
  | NonDeterministicWorkflowPolicyBlockWorkflow => mret (Some (TaskNonDeterministic nd))
  | NonDeterministicWorkflowPolicyUnknown _ =>
      throw (StringPanic "unknown mismatched workflow history policy.")
  end.

(** What follows the loop over the events. *)
Definition concludeTask (skip test : bool) : M wctx taskResult :=
  nd ← checkReplay skip test;
  stop ← match (nd : option nonDeterminism) with
         | Some nd => applyPolicy nd
         | None => mret None
         end;
  match (stop : option taskResult) with
  | Some r => mret r
  | None => r ← CompleteDecisionTask true; mret (TaskResponse r)
  end.

Definition ProcessWorkflowTask (steps fuel : nat) : M wctx taskResult :=
  err ← prepareTask;
  match (err : option string) with
  | Some err => mret (TaskError err)
  | None =>
      startTask;;
      w ← get;
      skip ← pureM (skipReplayCheck w);
      let test := isReplayTest (wtask w) in
      err ← processBatches steps fuel skip test (GetPreviousStartedEventId (wtask w));
      match (err : option string) with
      | Some err => mret (TaskError err)
      | None => concludeTask skip test
      end
  end.

(** ** Local activities *)

Definition noRetryBackoff : Z := -1.

(** [scaled p attempt] is
    [time.Duration(float64(p.InitialInterval) * math.Pow(p.BackoffCoefficient, float64(attempt)))],
    which the code expects to overflow to any value. *)
Context (scaled : LocalRetryPolicy → Z → Z).

Definition getRetryBackoffWithNowTime (p : LocalRetryPolicy) (attempt : Z) (errReason : string)
    (now expireTime : Z) : Z :=
  if bool_decide (MaximumAttempts p = 0)%Z && bool_decide (ExpirationInterval p = 0)%Z then
    noRetryBackoff
  else if bool_decide (MaximumAttempts p > 0)%Z
          && bool_decide (attempt > MaximumAttempts p - 1)%Z then noRetryBackoff
  else
  let interval := scaled p attempt in
  if bool_decide (interval ≤ 0)%Z && bool_decide (MaximumInterval p ≤ 0)%Z then noRetryBackoff else
  let interval := if decide (interval ≤ 0)%Z then MaximumInterval p else interval in
  let interval := if bool_decide (MaximumInterval p > 0)%Z
                     && bool_decide (interval > MaximumInterval p)%Z
                  then MaximumInterval p else interval in
  if negb (bool_decide (expireTime = 0)%Z) && bool_decide (now + interval > expireTime)%Z
  then noRetryBackoff
  else if decide (errReason ∈ NonRetriableErrorReasons p) then noRetryBackoff
  else interval.

(** [getErrorDetails(err, nil)] uses the default converter. *)
Context (defaultConverter : DataConverter).

(** [deadline]: whether [lar.err == ErrDeadlineExceeded], a comparison of
    pointers. *)
Definition getRetryBackoff (p : LocalRetryPolicy) (task : localActivityTask) (err : goError)
    (deadline : bool) (now : Z) : outcome Z :=
  errReason ←
    (match NonRetriableErrorReasons p with
     | [] => mret ""
     | _ =>
         if deadline then mret ("timeout:" +:+ TimeoutType_String TimeoutTypeScheduleToClose)
         else rd ← getErrorDetails (dc:=defaultConverter) err; mret rd.1
     end : outcome string);
  mret (getRetryBackoffWithNowTime p (task_attempt task) errReason now (task_expireTime task)).

(** Whether the activity is retried after a local timer; otherwise the backoff
    is stored in the result, for a timer of the workflow. *)
Definition retryLocalActivity (lar : localActivityResult) (deadline : bool) (now : Z)
    : M wctx (bool * localActivityResult) :=
  match task_retryPolicy (lar_task lar), lar_err lar with
  | Some p, Some err =>
      if IsCanceledError err then mret (false, lar) else
      backoff ← pureM (getRetryBackoff p (lar_task lar) err deadline now);
      w ← get;
      if bool_decide (backoff > 0)%Z && bool_decide (backoff ≤ GetDecisionTimeout w)%Z then
        modify (λ w, set_goroutines (sentTasks w) (retryTimers w ++ [(backoff, lar_task lar)])
                       (resetStickiness w) w);;
        mret (true, lar)
      else mret (false, LocalActivityResult (lar_task lar) (lar_result lar) (lar_err lar) backoff)
  | _, _ => mret (false, lar)
  end.

(** The timer of a local retry fires: a task that is still pending is sent again
    with the next attempt. *)
Definition set_attempt (n : Z) (t : localActivityTask) : localActivityTask :=
  LocalActivityTask (task_activityID t) (task_params t) (task_callback t) (task_canceled t) n
    (task_retryPolicy t) (task_expireTime t) (task_header t).

Definition retryFires (task : localActivityTask) : M wctx unit :=
  w ← get;
  match getEventHandler w with
  | None => mret tt
  | Some e =>
      match pendingLaTasks e !! task_activityID task with
      | None => mret tt
      | Some _ =>
          match wth_laTunnel config with
          | None => throw NilDereference
          | Some sendTask =>
              let task' := set_attempt (int32 (task_attempt task + 1)) task in
              if sendTask w task' then
                modify (λ w, set_goroutines (sentTasks w ++ [task']) (retryTimers w)
                               (resetStickiness w) w);;
                with_handler (modify (λ e, set_laTasks
                  (<[task_activityID task := task']> (pendingLaTasks e)) (unstartedLaTasks e) e))
              else mret tt
          end
      end
  end.

Definition ctxProcessLocalActivityResult (lar : localActivityResult) (deadline : bool) (now : Z)
    : M wctx taskResult :=
  r ← retryLocalActivity lar deadline now;
  let '(retrying, lar) := r : bool * localActivityResult in
  if retrying then mret (TaskResponse None) else
  err ← with_handler (ProcessLocalActivityResult workflow getWorkflowDefinition lar now);
  match (err : option string) with
  | Some err => mret (TaskError err)
  | None => r ← CompleteDecisionTask true; mret (TaskResponse r)
  end.

End context.
