(* ===== verification/WorkflowTaskSample.v ===== *)
(** * A sample decision task

    A workflow that starts an activity, the history of its first two decision
    tasks, with a version marker, and a worker: the inputs on which the theorems
    about decision tasks are tried. *)

From stdpp Require Import base list gmap strings option.
From Stdlib Require Import ZArith.
From S2P Require Import Prelude.
From S2P Require Import Shared.
From S2P Require Import DecisionStateMachine.
From S2P Require Import History.
From S2P Require Import Errors.
From S2P Require Import Environment.
From S2P Require Import EventHandlers.
From S2P Require Import EnvironmentProps.
From S2P Require Import WorkflowTask.

#[export] Existing Instance Sample.sample_dc.

Definition numbered (id : Z) (e : HistoryEvent) : HistoryEvent := set_HistoryEvent_EventId (Some id) e.

Definition version_marker : HistoryEvent :=
  set_HistoryEvent_MarkerRecordedEventAttributes
    (Some (MkMarkerRecordedEventAttributes (Some versionMarkerName)
       (Some (bits_of_pos (encode [GString "c"; GInt 3]))) (Some 4%Z) None))
    (Sample.event EventTypeMarkerRecorded).

(** The activity that the history has was of this type. *)
Definition activity_scheduled (type : string) : HistoryEvent :=
  set_HistoryEvent_ActivityTaskScheduledEventAttributes
    (Some (MkActivityTaskScheduledEventAttributes (Some "a1") (Some (MkActivityType (Some type)))
       None (Some (MkTaskList (Some "list") None None)) None None None None None None None None))
    (Sample.event EventTypeActivityTaskScheduled).

Definition task_events (type : string) : list HistoryEvent :=
  [numbered 1 Sample.started;
   numbered 2 (Sample.event EventTypeDecisionTaskScheduled);
   numbered 3 (Sample.event EventTypeDecisionTaskStarted);
   numbered 4 (set_HistoryEvent_DecisionTaskCompletedEventAttributes
     (Some (MkDecisionTaskCompletedEventAttributes None None None None (Some "sum")))
     (Sample.event EventTypeDecisionTaskCompleted));
   numbered 5 (activity_scheduled type);
   numbered 6 version_marker;
   numbered 7 (Sample.event EventTypeDecisionTaskScheduled);
   numbered 8 (Sample.event EventTypeDecisionTaskStarted)].

Definition sample_task (type : string) : PollForDecisionTaskResponse :=
  MkPollForDecisionTaskResponse (Some "token")
    (Some (MkWorkflowExecution (Some "flow-id") (Some "run")))
    (Some (MkWorkflowType (Some "Flow"))) (Some 3%Z) (Some 8%Z) None None (Some (task_events type)) None
    None None None None None (Some 9%Z) None None.

Definition no_service : pageFunc := λ _, inl "no service".

Definition sample_config (policy : NonDeterministicWorkflowPolicy) : workerConfig :=
  WorkerConfig "domain" "worker" "sum" policy None None.

Definition no_queries : introspection :=
  Introspection (λ _, GString "") (λ _, GString "") (λ _, GString "") (λ _ _ _, inl "no handler").

(** A context that has not seen any event. *)
Definition fresh_context (type : string) : wctx := newContext Sample.info (sample_task type).

(** The sample task, executed. *)
Definition sample_run (policy : NonDeterministicWorkflowPolicy) (w : wctx)
    : outcome taskResult * wctx :=
  ProcessWorkflowTask Sample.workflow Sample.definition no_service (λ _, 0%Z) (sample_config policy)
    no_queries (λ _, "event") (λ _, "decision") (λ s, s) 10 17 w.

(** A run by its outcome and its final state. *)
Lemma run_eq {A S} (p : outcome A * S) (o : outcome A) : fst p = o → p = (o, snd p).
Proof. destruct p. simpl. by intros ->. Qed.
