(* ===== verification/WorkflowTaskProps.v ===== *)
(** * What the execution of a decision task guarantees *)

From stdpp Require Import base list gmap strings option.
From Stdlib Require Import ZArith.
From S2P Require Import Prelude.
From S2P Require Import Shared.
From S2P Require Import DecisionStateMachine.
From S2P Require Import DecisionsHelper.
From S2P Require Import DecisionsInvariant.
From S2P Require Import DecisionsDrain.
From S2P Require Import Decisions.
From S2P Require Import DecisionsProps.
From S2P Require Import Replay.
From S2P Require Import History.
From S2P Require Import Errors.
From S2P Require Import Environment.
From S2P Require Import EventHandlers.
From S2P Require Import EnvironmentInvariant.
From S2P Require Import EnvironmentProps.
From S2P Require Import WorkflowTask.
From S2P Require Import WorkflowTaskSample.

Section props.
Context {dc : DataConverter}.
Context (workflow : call → M env unit) (getWorkflowDefinition : string → option string).
Context (page : pageFunc) (clock : env → Z) (config : workerConfig) (queries : introspection).
Context (HistoryEventToString : HistoryEvent → string) (DecisionToString : Decision → string).
Context (Quote : string → string).

(** ** Local retries *)

(** The delay that a policy asks for: the scaled interval, or the maximal one
    when that is smaller or the scaled one has overflowed. *)
Definition retry_delay (p : LocalRetryPolicy) (interval : Z) : Z :=
  if decide (0 < MaximumInterval p)%Z
  then if decide (0 < interval)%Z then Z.min interval (MaximumInterval p) else MaximumInterval p
  else interval.

Definition may_retry (p : LocalRetryPolicy) (attempt delay : Z) (reason : string)
    (now expireTime : Z) : Prop :=
  (0 < delay ∧ (MaximumAttempts p ≠ 0 ∨ ExpirationInterval p ≠ 0)
   ∧ (0 < MaximumAttempts p → attempt < MaximumAttempts p)
   ∧ (expireTime ≠ 0 → now + delay ≤ expireTime))%Z
  ∧ reason ∉ NonRetriableErrorReasons p.

(** a local activity is retried exactly when its policy sets a limit,
    attempts are left, the delay is positive and ends before the expiration, and
    the policy does not exclude the error; the delay is then the scaled interval
    capped by the maximal one.  This holds for any value of the floating point
    power, overflows included. *)
Theorem retry_backoff_exact scaled p attempt reason now expireTime :
  let delay := retry_delay p (scaled p attempt) in
  let b := getRetryBackoffWithNowTime scaled p attempt reason now expireTime in
  (may_retry p attempt delay reason now expireTime ∧ b = delay)
  ∨ (¬ may_retry p attempt delay reason now expireTime ∧ b = noRetryBackoff).
Proof.
  unfold getRetryBackoffWithNowTime, may_retry, retry_delay. simpl.
  repeat first [case_bool_decide; simpl in * | case_decide; simpl in *];
    first [exfalso; lia|right; split; [intros [? Hn]; lia || by apply Hn|done]
          |left; split; [split; [|done]|]; lia].
Qed.

(** ** Stale states *)

Definition first_event_id (t : PollForDecisionTaskResponse) : option Z :=
  GetEventId <$> head (taskEvents t).

(** The cached state is of no use for the task: the task does not start with the
    event after the last one that the state has seen. *)
Definition stale w : Prop :=
  match first_event_id (wtask w) with
  | Some id => id ≠ int64 (previousStartedEventID w + 1)
  | None => False
  end.
#[local] Instance stale_dec w : stdpp.base.Decision (stale w).
Proof. unfold stale. destruct (first_event_id _); apply _. Defined.

(** a task uses the state of an earlier one only if it starts with the event
    that follows the last one of that state, and then the state is used as it is.
    Otherwise the state is thrown away, decisions that were not sent included, and
    a new one is built, from a task that starts at the beginning of the history or
    else from the first page that the service returns. *)
Theorem stale_state_rebuilt w :
  ∃ err w', prepareTask page w = (Ret err, w') ∧
  if decide (stale w) then
    (∃ info, eventHandler w' = inr (newEnv info))
    ∧ previousStartedEventID w' = 0%Z ∧ newDecisions w' = [] ∧ currentDecisionTask w' = None
    ∧ if isFullHistory (taskEvents (wtask w))
      then err = None ∧ wtask w' = wtask w ∧ iteratorToken w' = iteratorToken w
      else page None = match err with
                       | Some err => inl err
                       | None => inr (taskEvents (wtask w'), iteratorToken w')
                       end
  else err = None ∧ ∃ f, w' = set_eventHandler
         (match eventHandler w with
          | inl i => inl (f i)
          | inr e => inr (set_info (f (workflowInfo e)) e)
          end) w.
Proof.
  unfold prepareTask, update_info, ResetIfStale.
  destruct (decide (stale w)) as [Hs|Hs]; unfold stale, first_event_id in Hs; run; simpl.
  - destruct (isFullHistory _) eqn:Hf;
      (destruct (taskEvents (wtask w)) as [|e es] eqn:He; [done|]); simpl in Hs, Hf;
      rewrite decide_True by done;
      unfold resetStateIfDestroyed, clearState, clearCurrentTask, createEventHandler, resetHistory;
      run; simpl; rewrite He; simpl; rewrite Hf; simpl.
    + eexists _, _. split; [done|]. split_and!; by eauto.
    + destruct (page None) as [err|[events token]]; eexists _, _;
        (split; [done|]); split_and!; by eauto.
  - destruct (taskEvents (wtask w)) as [|e es] eqn:He; simpl in Hs;
      [|rewrite decide_False by done]; (eexists _, _; split; [done|]; split; [done|]; by eexists).
Qed.

(** ** What stays while a task is processed *)

Section frame.
Context (t : PollForDecisionTaskResponse).
Let Q w := wtask w = t.

Lemma frame_with_handler {A} (c : M env A) : pres Q (with_handler c).
Proof.
  intros w Hw. unfold with_handler. destruct (eventHandler w) as [i|e]; [done|].
  by destruct (c e).
Qed.

Lemma frame_with_history {A} (c : M history A) : pres Q (with_history c).
Proof. intros w Hw. unfold with_history. by destruct (c _). Qed.

Lemma frame_update_info f : pres Q (update_info f).
Proof. apply pres_modify. done. Qed.

Lemma frame_modify f : (∀ w, wtask (f w) = wtask w) → pres Q (modify f).
Proof. intros Hf. apply pres_modify. intros w Hw. unfold Q. by rewrite Hf. Qed.

Lemma frame_pureM {A} (o : outcome A) : pres Q (pureM o).
Proof. destruct o; [apply pres_ret|apply pres_throw]. Qed.

Lemma frame_each {A} (f : A → M wctx flow) l : (∀ a, pres Q (f a)) → pres Q (each f l).
Proof.
  intros Hf. induction l as [|a l IH]; simpl; [apply pres_ret|].
  apply pres_bind; [done|]. intros []; [done|apply pres_ret..].
Qed.

Lemma frame_processEvent event replay isLast :
  pres Q (processEvent workflow getWorkflowDefinition clock event replay isLast).
Proof.
  unfold processEvent. apply pres_bind; [apply frame_with_handler|].
  intros [err|]; [apply pres_ret|]. apply pres_bind; [apply pres_get|intros; apply pres_ret].
Qed.

Lemma frame_processBatches steps fuel skip test previousStarted :
  pres Q (processBatches workflow getWorkflowDefinition page clock config steps fuel skip test
            previousStarted).
Proof.
  induction steps as [|steps IH]; simpl; [apply pres_throw|].
  apply pres_bind; [apply frame_with_history|]. intros [[[es ms] c] [err|]]; [apply pres_ret|].
  destruct (default [] es) as [|e l]; [apply pres_ret|].
  apply pres_bind; [apply frame_update_info|intros _].
  assert (∀ local m, pres Q (applyMarker workflow getWorkflowDefinition clock local m)) as Hm.
  { intros local m. unfold applyMarker. apply pres_if; [apply frame_processEvent|apply pres_ret]. }
  apply pres_bind.
  { unfold applyBatch. apply pres_bind; [by apply frame_each|].
    intros []; [|apply pres_ret..]. apply pres_bind; [|intros []; [by apply frame_each|apply pres_ret..]].
    apply frame_each. intros [i ev]. unfold applyEvent. apply pres_bind.
    { apply pres_if; [by apply frame_modify|apply pres_ret]. }
    intros _. apply pres_if; [apply pres_ret|].
    destruct (executeAnyPressurePoints _ _ _); [apply pres_ret|apply frame_processEvent]. }
  intros []; [|apply pres_ret..]. apply pres_bind; [|done]. unfold collectReplayDecisions.
  apply pres_bind; [apply pres_get|intros w]. apply pres_if; [|apply pres_ret].
  apply pres_bind; [apply frame_with_handler|intros ds].
  apply pres_if; [apply pres_ret|by apply frame_modify].
Qed.

End frame.

(** ** What stays while a task is answered *)

Section answer.
Context (t : PollForDecisionTaskResponse) (ds : list Decision) (es : list HistoryEvent).
Context (c : option (bytes * option goError)).
Let Q w := wtask w = t ∧ replayDecisions w = ds ∧ respondEvents w = es ∧ ctxCompletion w = c.

Lemma keeps_with_handler {A} (f : M env A) :
  (∀ e, calls (snd (f e)) = calls e) → pres Q (with_handler f).
Proof.
  intros Hf w (Ht & Hd & He & Hc). unfold with_handler, Q, ctxCompletion, getEventHandler in *.
  destruct (eventHandler w) as [i|e] eqn:Hw; simpl; [by rewrite Hw|].
  specialize (Hf e). destruct (f e) as [o e']. simpl in *. by rewrite Hf.
Qed.

Lemma keeps_lift {A} (f : M (decisionsHelper scheduled) A) : pres Q (with_handler (lift f)).
Proof. apply keeps_with_handler. intros e. unfold lift. by destruct (f (helper e)). Qed.

Lemma keeps_finish task force :
  pres Q (finishDecisionTask config queries task force).
Proof.
  unfold finishDecisionTask. apply pres_bind; [apply keeps_lift|intros eventDecisions].
  apply pres_bind; [by apply pres_modify|intros _].
  apply pres_bind; [apply pres_get|intros w]. destruct (getEventHandler w); [|apply pres_throw].
  apply pres_bind; [destruct (completeWorkflow _ _ _ _ _ _ _ _ _); [apply pres_ret|apply pres_throw]|].
  intros r. apply pres_bind; [by apply pres_modify|intros; apply pres_ret].
Qed.

Lemma keeps_startTasks sendTask ids unstarted : pres Q (startTasks sendTask ids unstarted).
Proof.
  revert unstarted. induction ids as [|id ids IH]; intros unstarted; simpl; [apply pres_ret|].
  apply pres_bind; [apply pres_get|intros w]. destruct (_ ≫= _); [|apply pres_throw].
  apply pres_if; [|apply IH]. apply pres_bind; [by apply pres_modify|done].
Qed.

Lemma keeps_CompleteDecisionTask wait : pres Q (CompleteDecisionTask config queries wait).
Proof.
  unfold CompleteDecisionTask. apply pres_bind; [apply pres_get|intros w].
  destruct (currentDecisionTask w); [|apply pres_ret].
  destruct (wth_laTunnel config); [|apply keeps_finish]. apply pres_if; [|apply keeps_finish].
  apply pres_bind; [|intros _; apply pres_if; [apply pres_ret|apply keeps_finish]].
  unfold startLocalActivities. apply pres_bind; [apply pres_get|intros w'].
  destruct (getEventHandler w'); [|apply pres_throw].
  apply pres_decide; intros _; [apply pres_ret|].
  apply pres_bind; [apply keeps_startTasks|intros]. by apply keeps_with_handler.
Qed.
End answer.

Lemma CompleteDecisionTask_keeps wait w o w' :
  CompleteDecisionTask config queries wait w = (o, w') →
  wtask w' = wtask w ∧ replayDecisions w' = replayDecisions w
  ∧ respondEvents w' = respondEvents w ∧ ctxCompletion w' = ctxCompletion w.
Proof.
  intros E. pose proof (keeps_CompleteDecisionTask (wtask w) (replayDecisions w) (respondEvents w)
    (ctxCompletion w) wait w) as H. rewrite E in H. by apply H.
Qed.

(** The replay is accepted, or the workflow has ended; in that case not by an
    event that its code did not expect. *)
Definition replay_accepted w : Prop :=
  if isWorkflowCompleted w && negb (isReplayTest (wtask w))
  then ∀ m, ctxErr w ≠ Some (ErrWorkflowPanic (IllegalStatePanic m))
  else matchReplayWithHistory (replayDecisions w) (respondEvents w) = Ret None.

Definition failed_for_nondeterminism w : Prop :=
  ∃ e, ctxErr w = Some (ErrCustom (Some e))
    ∧ reason e = "NonDeterministicWorkflowPolicyFailWorkflow".

Lemma completion_snoc cs result err :
  completion (cs ++ [callComplete result err]) = Some (result, err).
Proof. induction cs as [|[]]; simpl; [done|try done..]. by rewrite IHcs. Qed.

Lemma completed_Complete w e result err :
  eventHandler w = inr e →
  ctxCompletion (snd (with_handler (Complete result err) w)) = Some (result, err).
Proof.
  intros He. unfold with_handler. rewrite He. unfold ctxCompletion. simpl.
  apply completion_snoc.
Qed.

(** What the check finds, by the state. *)
Lemma checkReplay_run test w nd w1 :
  checkReplay false test w = (Ret nd, w1) → w1 = w ∧
  (nd = None → if isWorkflowCompleted w && negb test
               then ∀ m, ctxErr w ≠ Some (ErrWorkflowPanic (IllegalStatePanic m))
               else matchReplayWithHistory (replayDecisions w) (respondEvents w) = Ret None).
Proof.
  unfold checkReplay, getWorkflowPanicIfIllegaleStatePanic, pureM. run.
  destruct (isWorkflowCompleted w) eqn:Hc, test; simpl;
    try (destruct (matchReplayWithHistory _ _) as [[err|]|] eqn:Hm; simpl; intros [= <- <-]; by split).
  destruct (ctxErr w) as [[]|] eqn:Herr;
    try (intros [= <- <-]; split; [done|intros _ m [=]]).
  destruct value as [m| | | | |]; try (intros [= <- <-]; split; [done|intros _ m' [=]]).
  destruct (matchReplayWithHistory _ _) as [o|]; simpl; by intros [= <- <-].
Qed.

Lemma conclude_checked test w r w' :
  test = isReplayTest (wtask w) →
  concludeTask config queries HistoryEventToString DecisionToString Quote false test w
    = (Ret (TaskResponse r), w') →
  replay_accepted w' ∨ wth_policy config = NonDeterministicWorkflowPolicyFailWorkflow
    ∧ failed_for_nondeterminism w'.
Proof.
  intros -> E. unfold concludeTask in E. run_in E.
  destruct (checkReplay _ _ w) as [[nd|p] w1] eqn:Hc; [|done].
  apply checkReplay_run in Hc as [-> Hnd].
  destruct nd as [nd|].
  - unfold applyPolicy in E. destruct (wth_policy config) eqn:Hp; try done. right. split; [done|].
    simpl in E. run_in E.
    destruct (eventHandler w) as [i|e] eqn:Hw; [unfold with_handler in E; by rewrite Hw in E|].
    destruct (with_handler _ w) as [[[]|p] w1] eqn:Hx; [|done].
    match type of Hx with with_handler (Complete ?a ?b) _ = _ =>
      pose proof (completed_Complete w e a b Hw) as Hcomp end.
    rewrite Hx in Hcomp. simpl in Hcomp.
    destruct (CompleteDecisionTask _ _ _ w1) as [[r'|] w2] eqn:Hd; [|done].
    apply CompleteDecisionTask_keeps in Hd as (_ & _ & _ & Hk). injection E as <- <-.
    unfold failed_for_nondeterminism, ctxErr. rewrite Hk, Hcomp. by eexists.
  - left. specialize (Hnd eq_refl).
    destruct (CompleteDecisionTask _ _ _ w) as [[r'|] w2] eqn:Hd; [|done].
    apply CompleteDecisionTask_keeps in Hd as (Ht & Hr & He & Hk). injection E as <- <-.
    unfold replay_accepted, ctxErr, isWorkflowCompleted in *. by rewrite Hk, Ht, Hr, He.
Qed.

Lemma frame_conclude t skip test :
  pres (λ w, wtask w = t)
    (concludeTask config queries HistoryEventToString DecisionToString Quote skip test).
Proof.
  unfold concludeTask, checkReplay. apply pres_bind.
  { apply pres_bind; [apply pres_get|intros w]. apply pres_if.
    - apply pres_bind; [apply frame_pureM|intros; apply pres_ret].
    - destruct (getWorkflowPanicIfIllegaleStatePanic w); [|apply pres_ret].
      apply pres_bind; [apply frame_pureM|intros; apply pres_ret]. }
  intros nd. apply pres_bind.
  { destruct nd as [nd|]; [|apply pres_ret]. unfold applyPolicy.
    destruct (wth_policy config); [apply pres_ret| |apply pres_throw].
    apply pres_bind; [apply frame_pureM|intros e].
    apply pres_bind; [apply frame_with_handler|intros; apply pres_ret]. }
  intros [r|]; [apply pres_ret|]. apply pres_bind; [|intros; apply pres_ret].
  intros w Hw. destruct (CompleteDecisionTask _ _ _ w) as [o w'] eqn:E.
  apply CompleteDecisionTask_keeps in E as (Ht & _). simpl. congruence.
Qed.

(** C16: a decision task is answered only after the replay was checked.  When a
    task with the whole history gets an answer, either every decision of the
    replay matched the history (or the workflow ended, and not because an event
    found no decision it belongs to), or the policy is to fail the workflow and
    the workflow is failed for that reason; under the policy to block, a replay
    that differs from the history is never answered. *)
Theorem replay_checked steps fuel w r w' :
  ProcessWorkflowTask workflow getWorkflowDefinition page clock config queries
    HistoryEventToString DecisionToString Quote steps fuel w = (Ret (TaskResponse r), w') →
  is_query (wtask w') = false → isFullHistory (taskEvents (wtask w')) = true →
  replay_accepted w' ∨ wth_policy config = NonDeterministicWorkflowPolicyFailWorkflow
    ∧ failed_for_nondeterminism w'.
Proof.
  intros E Hq Hf. unfold ProcessWorkflowTask in E. run_in E.
  destruct (prepareTask page w) as [[[err|]|p] w1] eqn:H1; [done| |done].
  destruct (startTask w1) as [[[]|p] w2] eqn:H2; [|done].
  assert (currentDecisionTask w2 = Some (wtask w2)) as Hcur.
  { unfold startTask, SetCurrentTask in H2. run_in H2.
    destruct (PollForDecisionTaskResponse_Query (wtask w1)); injection H2 as <-; done. }
  unfold skipReplayCheck, pureM in E. rewrite Hcur in E. simpl in E.
  destruct (processBatches _ _ _ _ _ _ _ _ _ _ w2) as [[[err|]|p] w3] eqn:H3; [done| |done].
  pose proof (frame_processBatches (wtask w2) steps fuel
    (is_query (wtask w2) || negb (isFullHistory (taskEvents (wtask w2))))
    (isReplayTest (wtask w2)) (GetPreviousStartedEventId (wtask w2)) w2 eq_refl) as Ht.
  rewrite H3 in Ht. simpl in Ht.
  assert (wtask w' = wtask w3) as Hw'.
  { pose proof (frame_conclude (wtask w3) (is_query (wtask w2)
      || negb (isFullHistory (taskEvents (wtask w2)))) (isReplayTest (wtask w2)) w3 eq_refl) as Hk.
    by rewrite E in Hk. }
  rewrite Hw', Ht in Hq, Hf. rewrite Hq, Hf in E. simpl in E.
  by apply conclude_checked in E; [|rewrite Ht].
Qed.

(** ** The answer *)

(** How the workflow is closed. *)
Definition close_type (completed : bool) (err : option goError) : option DecisionType :=
  match err with
  | Some (ErrCanceled _) => Some DecisionTypeCancelWorkflowExecution
  | Some (ErrContinueAsNew _) => Some DecisionTypeContinueAsNewWorkflowExecution
  | Some _ => Some DecisionTypeFailWorkflowExecution
  | None => if completed then Some DecisionTypeCompleteWorkflowExecution else None
  end.

(** The error of the workflow can be encoded, and the queries of the task are
    not nil. *)
Definition answerable w (task : PollForDecisionTaskResponse) : Prop :=
  (∀ err, ctxErr w = Some err → err ≠ ErrContinueAsNew None ∧ returns (getErrorDetails err))
  ∧ map_Forall (λ _ q, q ≠ None) (default ∅ (PollForDecisionTaskResponse_Queries task)).

Definition answers w (task : PollForDecisionTaskResponse) (wait : bool) (decisions : list Decision)
    (r : completeRequest) : Prop :=
  match r with
  | RespondQuery _ => False
  | RespondFailed req =>
      ∃ p, ctxErr w = Some (ErrWorkflowPanic p)
        ∧ RespondDecisionTaskFailedRequest_TaskToken req = PollForDecisionTaskResponse_TaskToken task
        ∧ RespondDecisionTaskFailedRequest_Details req = Some (panic_text p)
  | RespondCompleted req =>
      (∀ p, ctxErr w ≠ Some (ErrWorkflowPanic p))
      ∧ RespondDecisionTaskCompletedRequest_TaskToken req = PollForDecisionTaskResponse_TaskToken task
      ∧ ∃ close, RespondDecisionTaskCompletedRequest_Decisions req = decisions ++ option_list close
        ∧ GetDecisionType <$> close = close_type (isWorkflowCompleted w) (ctxErr w)
        ∧ RespondDecisionTaskCompletedRequest_ForceCreateNewDecisionTask req
          = Some (match close with Some _ => false | None => negb wait end)
  end.

Lemma closeDecision_type info completed result err :
  (∀ e, err = Some e → e ≠ ErrContinueAsNew None ∧ returns (getErrorDetails e)) →
  ∃ close, closeDecision info completed result err = Ret close
    ∧ GetDecisionType <$> close = close_type completed err.
Proof.
  intros Herr. destruct err as [err|].
  - destruct (Herr err eq_refl) as [Hn Hr].
    destruct err as [| | |v| | |[e|]| | | | | |]; cbn [closeDecision]; try done;
      try (destruct (getErrorDetails _) as [rd|]; [|done]; by eexists); by eexists.
  - destruct completed; by eexists.
Qed.

Lemma queryResults_returns e qs :
  map_Forall (λ _ q, q ≠ None) (default ∅ qs) → ∃ r, queryResults queries e qs = Ret r.
Proof.
  intros Hq. destruct qs as [qs|]; simpl; [|by eexists]. case_decide; [by eexists|].
  rewrite decide_False; [by eexists|]. intros (k & q & Hk & ->). by apply (Hq k None).
Qed.

Lemma completeWorkflow_answers w e task wait decisions :
  is_query task = false → answerable w task →
  ∃ r, completeWorkflow config queries e task (isWorkflowCompleted w) (ctxResult w) (ctxErr w)
         decisions (negb wait) = Ret r ∧ answers w task wait decisions r.
Proof.
  intros Hq [Herr Hqs]. unfold completeWorkflow, is_query in *.
  destruct (PollForDecisionTaskResponse_Query task); [done|].
  destruct (closeDecision_type (workflowInfo e) (isWorkflowCompleted w) (ctxResult w) (ctxErr w) Herr)
    as (close & Hclose & Htype).
  destruct (queryResults_returns e _ Hqs) as [qr Hqr].
  assert ((∃ p, ctxErr w = Some (ErrWorkflowPanic p)) ∨ ∀ p, ctxErr w ≠ Some (ErrWorkflowPanic p))
    as [[p Hp]|Hnp] by (destruct (ctxErr w) as [[]|]; eauto).
  - eexists. rewrite Hp. split; [done|]. by exists p.
  - eexists. split.
    + rewrite Hclose, Hqr. destruct (ctxErr w) as [[]|] eqn:He; try done. by destruct (Hnp value).
    + simpl. split_and!; [done..|]. by exists close.
Qed.

Lemma finishDecisionTask_run w e task force r :
  eventHandler w = inr e → wf (helper e) →
  let e' := set_helper (drain (orderedDecisions (helper e)) (helper e)) e in
  completeWorkflow config queries e' task (isWorkflowCompleted w) (ctxResult w) (ctxErr w)
    (newDecisions w ++ pending (orderedDecisions (helper e)) (helper e)) force = Ret r →
  ∃ w', finishDecisionTask config queries task force w = (Ret (Some r), w')
    ∧ eventHandler w' = inr e' ∧ currentDecisionTask w' = None.
Proof.
  intros He Hwf e' Hr. unfold finishDecisionTask. run. unfold with_handler, lift.
  rewrite He, getDecisions_run by done. simpl.
  unfold isWorkflowCompleted, ctxResult, ctxErr, ctxCompletion, getEventHandler in *. simpl.
  rewrite He in Hr. simpl in Hr. unfold e' in Hr. simpl in Hr. rewrite Hr. simpl. by eauto.
Qed.

(** C18: the answer to a decision task: once no local activity is pending, it
    holds every decision that the workflow made and that was not sent before, in
    order, followed by the decision that closes the workflow exactly when the
    workflow has ended, of the kind that its error asks for; a new task is forced
    only for a workflow that goes on.  A workflow that panicked fails the task
    instead, and none of its decisions is sent.  The answer is given once: it
    leaves no task and no decision behind. *)
Theorem decision_task_answered wait w e task :
  eventHandler w = inr e → wf (helper e) → currentDecisionTask w = Some task →
  is_query task = false → hasPendingLocalActivityWork w = false → answerable w task →
  ∃ r w' e', CompleteDecisionTask config queries wait w = (Ret (Some r), w')
    ∧ answers w task wait
        (newDecisions w ++ pending (orderedDecisions (helper e)) (helper e)) r
    ∧ CompleteDecisionTask config queries wait w' = (Ret None, w')
    ∧ eventHandler w' = inr e' ∧ fst (getDecisions true (helper e')) = Ret [].
Proof.
  intros He Hwf Ht Hq Hp Ha.
  destruct (completeWorkflow_answers w (set_helper (drain (orderedDecisions (helper e)) (helper e)) e)
    task wait (newDecisions w ++ pending (orderedDecisions (helper e)) (helper e)) Hq Ha)
    as (r & Hr & Hans).
  destruct (finishDecisionTask_run w e task (negb wait) r He Hwf Hr) as (w' & Hw' & He' & Hc').
  exists r, w'. eexists. split_and!; [|done| |done|].
  - unfold CompleteDecisionTask. run. rewrite Ht, Hp. by destruct (wth_laTunnel config).
  - unfold CompleteDecisionTask. run. by rewrite Hc'.
  - simpl. rewrite getDecisions_run by (by apply wf_drain). simpl. by rewrite pending_drained.
Qed.
End props.

(** ** Witnesses *)

#[local] Abbreviation accepted_run :=
  (ProcessWorkflowTask Sample.workflow Sample.definition no_service (λ _, 0%Z)
     (sample_config NonDeterministicWorkflowPolicyBlockWorkflow) no_queries
     (λ _, "event") (λ _, "decision") (λ s, s) 10 17 (fresh_context "Act")).

Definition accepted_answer : option completeRequest :=
  match fst accepted_run with Ret (TaskResponse r) => r | _ => None end.

Lemma replay_checked_witness :
  fst accepted_run = Ret (TaskResponse accepted_answer)
  ∧ (replay_accepted (snd accepted_run) ∨ NonDeterministicWorkflowPolicyBlockWorkflow
       = NonDeterministicWorkflowPolicyFailWorkflow ∧ failed_for_nondeterminism (snd accepted_run)).
Proof.
  assert (fst accepted_run = Ret (TaskResponse accepted_answer)) as Hrun by (vm_compute; reflexivity).
  split; [exact Hrun|].
  apply (replay_checked Sample.workflow Sample.definition no_service (λ _, 0%Z)
    (sample_config NonDeterministicWorkflowPolicyBlockWorkflow) no_queries
    (λ _, "event") (λ _, "decision") (λ s, s) 10 17 (fresh_context "Act") accepted_answer
    (snd accepted_run) (run_eq _ _ Hrun)).
  - vm_compute. reflexivity.
  - vm_compute. reflexivity.
Defined.

(** The first decision task: the activity is scheduled. *)
Definition first_env : env := Sample.process Sample.started (newEnv Sample.info).
Definition first_context : wctx :=
  set_eventHandler (inr first_env) (set_current [] (Some (sample_task "Act")) (fresh_context "Act")).

Lemma decision_task_answered_witness :
  ∃ r w', CompleteDecisionTask (sample_config NonDeterministicWorkflowPolicyBlockWorkflow) no_queries
            true first_context = (Ret (Some r), w')
    ∧ answers first_context (sample_task "Act") true
        (pending (orderedDecisions (helper first_env)) (helper first_env)) r
    ∧ length (pending (orderedDecisions (helper first_env)) (helper first_env)) = 1.
Proof.
  destruct (decision_task_answered (sample_config NonDeterministicWorkflowPolicyBlockWorkflow)
    no_queries true first_context first_env (sample_task "Act")) as (r & w' & e' & Hrun & Ha & _).
  - reflexivity.
  - apply (ok_wf None), (esteps_ok Sample.json Sample.workflow Sample.definition
      Sample.workflow_is_code Sample.info).
    exact (rtc_l _ _ _ _ (Sample.process_step Sample.started _) (rtc_refl _ _)).
  - reflexivity.
  - reflexivity.
  - vm_compute. reflexivity.
  - split; [|apply map_Forall_empty]. intros err Herr. vm_compute in Herr. discriminate.
  - exists r, w'. split_and!; [exact Hrun|exact Ha|vm_compute; reflexivity].
Defined.
