(* ===== verification/WorkflowTaskHistory.v ===== *)
(** * A decision task processes its whole history

    The composition of the history iterator, the event handler and the decisions
    helper in [ProcessWorkflowTask]: which events reach the event handler, and
    how often. *)

From stdpp Require Import base list gmap strings option.
From Stdlib Require Import ZArith.
From S2P Require Import Prelude.
From S2P Require Import Shared.
From S2P Require Import DecisionStateMachine.
From S2P Require Import DecisionsHelper.
From S2P Require Import DecisionsInvariant.
From S2P Require Import DecisionsDrain.
From S2P Require Import History.
From S2P Require Import Errors.
From S2P Require Import Environment.
From S2P Require Import EventHandlers.
From S2P Require Import EnvironmentInvariant.
From S2P Require Import EnvironmentProps.
From S2P Require Import WorkflowTask.
From S2P Require Import WorkflowTaskSample.

Section task_history.
Context {dc : DataConverter} (json_Marshal : searchValue → string + bytes).
Context (workflow : call → M env unit) (getWorkflowDefinition : string → option string).
Context (page : pageFunc) (clock : env → Z) (config : workerConfig).
Hypothesis workflow_is_code : ∀ c, workflow_code json_Marshal (workflow c).

(** [handles e l e']: the event handler is given the events [l], one after the
    other, and accepts them; in between the decisions may be fetched and the
    checksum of the binary be noted. *)
Inductive handles : env → list HistoryEvent → env → Prop :=
| handles_done e : handles e [] e
| handles_event e event replay isLast e1 l e2 :
    ProcessEvent workflow getWorkflowDefinition (Some event) replay isLast (clock e) e
      = (Ret None, e1) →
    handles e1 l e2 → handles e (event :: l) e2
| handles_decisions e l e2 : handles (snd (lift (getDecisions true) e)) l e2 → handles e l e2
| handles_checksum e c l e2 :
    handles (set_info (set_wi_BinaryChecksum c (workflowInfo e)) e) l e2 → handles e l e2.

Lemma handles_app e l1 e1 l2 e2 :
  handles e l1 e1 → handles e1 l2 e2 → handles e (l1 ++ l2) e2.
Proof. induction 1; intros; simpl; eauto using handles. Qed.

(** How a part of the loops leaves the context, when it gave the events [l] to
    the handler unless it ended early. *)
Definition stepped (w : wctx) (e : env) (l : list HistoryEvent) (r : flow) (w' : wctx) : Prop :=
  ∃ e', eventHandler w' = inr e' ∧ ok None e' ∧ reorderedHistory w' = reorderedHistory w
    ∧ (r = Next → handles e l e') ∧ (r = Break → isWorkflowCompleted w' = true).

Lemma processEvent_stepped w e event replay isLast :
  eventHandler w = inr e → ok None e →
  ∃ r w', processEvent workflow getWorkflowDefinition clock event replay isLast w = (Ret r, w')
    ∧ stepped w e [event] r w'.
Proof.
  intros Hw He. unfold processEvent, with_handler. run. rewrite Hw.
  pose proof (pres_ProcessEvent json_Marshal workflow getWorkflowDefinition workflow_is_code
    (Some event) replay isLast (clock e) e He) as He'.
  destruct (ProcessEvent _ _ _ _ _ _ e) as [o e'] eqn:Hp.
  assert (∃ err, o = Ret err) as [err ->].
  { unfold ProcessEvent, recovering, Complete, deliver in Hp. run_in Hp.
    destruct (ProcessEvent_body _ _ _ _ _ _ e) as [[]?]; injection Hp as <- <-; by eauto. }
  simpl in He'. destruct err as [err|]; eexists _, _; (split; [reflexivity|]); exists e';
    split_and!; try done.
  - intros _. eapply handles_event; [exact Hp|apply handles_done].
  - by destruct (isWorkflowCompleted _).
Qed.

Lemma each_stepped {A} (f : A → M wctx flow) (g : A → list HistoryEvent) l :
  (∀ x w e, eventHandler w = inr e → ok None e → ∃ r w', f x w = (Ret r, w') ∧ stepped w e (g x) r w') →
  ∀ w e, eventHandler w = inr e → ok None e →
  ∃ r w', each f l w = (Ret r, w') ∧ stepped w e (l ≫= g) r w'.
Proof.
  intros Hf. induction l as [|x l IH]; intros w e Hw He; simpl.
  { eexists _, w. split; [reflexivity|]. exists e. split_and!; try done. intros _. apply handles_done. }
  destruct (Hf x w e Hw He) as (r & w1 & Hx & e1 & Hw1 & He1 & Hh1 & Hn1 & Hb1).
  run. rewrite Hx. destruct r.
  - destruct (IH w1 e1 Hw1 He1) as (r & w2 & Hl & e2 & Hw2 & He2 & Hh2 & Hn2 & Hb2).
    exists r, w2. split; [done|]. exists e2. split_and!; [done|done|congruence| |done].
    intros Hr. apply handles_app with e1; auto.
  - eexists _, w1. split; [reflexivity|]. by exists e1.
  - eexists _, w1. split; [reflexivity|]. by exists e1.
Qed.

(** The events of a batch that reach the handler: the markers of the following
    batch, those of local activities after the events, and the events themselves
    less their own markers. *)
Definition handed (events ms : list HistoryEvent) : list HistoryEvent :=
  filter (λ m, is_local_marker m = false) ms ++ filter (λ e, ¬ is_marker e) events
  ++ filter (λ m, is_local_marker m = true) ms.

Lemma applyMarker_stepped local m w e :
  eventHandler w = inr e → ok None e →
  ∃ r w', applyMarker workflow getWorkflowDefinition clock local m w = (Ret r, w')
    ∧ stepped w e (if decide (is_local_marker m = local) then [m] else []) r w'.
Proof.
  intros Hw He. unfold applyMarker. case_decide as Hm.
  - subst local. rewrite eqb_reflx. by apply processEvent_stepped.
  - rewrite (proj2 (eqb_false_iff _ _)) by done.
    eexists _, w. split; [reflexivity|]. exists e. split_and!; try done. intros _. apply handles_done.
Qed.

Lemma applyEvent_stepped skip previousStarted n i event w e :
  eventHandler w = inr e → ok None e →
  ∃ r w', applyEvent workflow getWorkflowDefinition clock config skip previousStarted n (i, event) w
            = (Ret r, w')
    ∧ stepped w e (if decide (is_marker event) then [] else [event]) r w'.
Proof.
  intros Hw He. unfold applyEvent.
  set (w1 := if negb skip && isDecisionEvent (GetEventType event)
             then set_replay (replayDecisions w) (respondEvents w ++ [event]) w else w).
  assert (eventHandler w1 = inr e ∧ reorderedHistory w1 = reorderedHistory w) as [Hw1 Hh1]
    by (unfold w1; by destruct (_ && _)).
  assert ((if negb skip && isDecisionEvent (GetEventType event)
           then modify (λ w, set_replay (replayDecisions w) (respondEvents w ++ [event]) w)
           else mret tt) w = (Ret tt, w1)) as Hset by (unfold w1; by destruct (_ && _)).
  run. run_in Hset. rewrite Hset. unfold isPreloadMarkerEvent, is_marker.
  case_bool_decide as Hm; [rewrite decide_True by done|rewrite decide_False by done].
  { eexists _, w1. split; [reflexivity|]. exists e. split_and!; try done. intros _. apply handles_done. }
  destruct (executeAnyPressurePoints _ _ _) as [err|].
  { eexists _, w1. split; [reflexivity|]. exists e. by split_and!. }
  destruct (processEvent_stepped w1 e event (IsReplayEvent previousStarted event)
    (negb (IsReplayEvent previousStarted event) && bool_decide (S i = n)) Hw1 He)
    as (r & w' & Hr & e' & ? & ? & ? & ? & ?).
  exists r, w'. split; [done|]. exists e'. split_and!; try done. congruence.
Qed.

Lemma bind_filter {A} (P : A → Prop) `{!∀ x, base.Decision (P x)} (l : list A) :
  l ≫= (λ x, if decide (P x) then [x] else []) = filter P l.
Proof.
  induction l as [|x l IH]; [done|]. rewrite bind_cons, filter_cons, IH. by destruct (decide (P x)).
Qed.

Lemma bind_imap_filter (l : list HistoryEvent) :
  imap pair l ≫= (λ ie : nat * HistoryEvent, if decide (is_marker ie.2) then [] else [ie.2])
  = filter (λ e, ¬ is_marker e) l.
Proof.
  assert (∀ k, imap (λ i, pair (k + i)) l
    ≫= (λ ie : nat * HistoryEvent, if decide (is_marker ie.2) then [] else [ie.2])
    = filter (λ e, ¬ is_marker e) l) as H; [|exact (H 0)].
  induction l as [|x l IH]; intros k; [done|]. rewrite imap_cons, bind_cons, filter_cons.
  assert (imap ((λ i, pair (k + i)) ∘ S) l = imap (λ i, pair (S k + i)) l) as ->.
  { apply imap_ext. intros i y _. simpl. f_equal. lia. }
  rewrite IH. simpl. destruct (decide (is_marker x)), (decide (¬ is_marker x)); done.
Qed.

Lemma applyBatch_stepped skip previousStarted events ms w e :
  eventHandler w = inr e → ok None e →
  ∃ r w', applyBatch workflow getWorkflowDefinition clock config skip previousStarted events ms w
            = (Ret r, w') ∧ stepped w e (handed events ms) r w'.
Proof.
  intros Hw He. unfold applyBatch. run.
  destruct (each_stepped _ _ ms (applyMarker_stepped false) w e Hw He)
    as (r1 & w1 & H1 & e1 & Hw1 & He1 & Hh1 & Hn1 & Hb1). rewrite H1.
  destruct r1; [|eexists _, w1; (split; [reflexivity|]); by exists e1..].
  destruct (each_stepped _ (λ ie, if decide (is_marker ie.2) then [] else [ie.2])
    (imap pair events) (λ ie, let '(i, ev) := ie in
       applyEvent_stepped skip previousStarted (length events) i ev) w1 e1 Hw1 He1)
    as (r2 & w2 & H2 & e2 & Hw2 & He2 & Hh2 & Hn2 & Hb2). rewrite H2.
  destruct r2; [|eexists _, w2; (split; [reflexivity|]); exists e2; split_and!; first [done|congruence]..].
  destruct (each_stepped _ _ ms (applyMarker_stepped true) w2 e2 Hw2 He2)
    as (r3 & w3 & H3 & e3 & Hw3 & He3 & Hh3 & Hn3 & Hb3).
  exists r3, w3. split; [done|]. exists e3. split_and!; [done|done|congruence| |done].
  intros Hr. unfold handed. rewrite bind_imap_filter, !bind_filter in *.
  apply (handles_app _ _ e1); [by apply Hn1|]. apply (handles_app _ _ e2); [by apply Hn2|by apply Hn3].
Qed.

Lemma handed_Permutation events ms :
  handed events ms ≡ₚ filter (λ e, ¬ is_marker e) events ++ ms.
Proof.
  unfold handed. rewrite (Permutation_app_comm (filter _ ms)), <- app_assoc. f_equiv.
  induction ms as [|m ms IH]; [done|]. rewrite !filter_cons.
  destruct (is_local_marker m); simpl; [by rewrite IH|]. by rewrite <- Permutation_middle, IH.
Qed.

Lemma markers_nothing ms (P : HistoryEvent → Prop) `{!∀ x, base.Decision (P x)} :
  Forall is_marker ms → filter (λ e, ¬ is_marker e) (filter P ms) = [].
Proof.
  induction 1 as [|m ms Hm Hms IH]; [done|]. rewrite filter_cons. case_decide; [|done].
  rewrite filter_cons, decide_False by naive_solver. done.
Qed.

(** The other events stay in order. *)
Lemma handed_order events ms :
  Forall is_marker ms →
  filter (λ e, ¬ is_marker e) (handed events ms) = filter (λ e, ¬ is_marker e) events.
Proof.
  intros Hms. unfold handed. rewrite !list.filter_app.
  rewrite (markers_nothing ms (λ m, is_local_marker m = false)),
    (markers_nothing ms (λ m, is_local_marker m = true)), app_nil_r by done. simpl.
  induction events as [|e l IH]; [done|]. rewrite !filter_cons. case_decide; [|done].
  by rewrite filter_cons, decide_True, IH by done.
Qed.

Lemma collect_stepped skip test previousStarted events w e :
  eventHandler w = inr e → ok None e →
  ∃ w' e', collectReplayDecisions skip test previousStarted events w = (Ret tt, w')
    ∧ eventHandler w' = inr e' ∧ ok None e' ∧ reorderedHistory w' = reorderedHistory w
    ∧ ∀ l e2, handles e' l e2 → handles e l e2.
Proof.
  intros Hw He. unfold collectReplayDecisions. run. destruct (_ && _); [|by eauto 10].
  unfold with_handler. rewrite Hw.
  pose proof (pres_lift None _ (helper_op_getDecisions true) e He) as He'.
  assert (∃ ds, lift (getDecisions true) e = (Ret ds, snd (lift (getDecisions true) e))) as [ds Hds].
  { unfold lift. destruct He as [Hwf _ _]. rewrite getDecisions_run by done. by eauto. }
  assert (∀ l e2, handles (snd (lift (getDecisions true) e)) l e2 → handles e l e2) as Hh
    by (intros; by apply handles_decisions).
  rewrite Hds. destruct skip; eexists _, _; by split_and!.
Qed.

(** [batchwise b es l]: [l] are the events that reach the handler when the batch
    [b] was read and [es] was not: batch after batch, each with the markers of the
    batch that follows it in the history, which the decision of this batch
    recorded. *)
Inductive batchwise : list HistoryEvent → list HistoryEvent → list HistoryEvent → Prop :=
| batchwise_end : batchwise [] [] []
| batchwise_next b rest l :
    b ≠ [] → batchwise (batch_events rest) (batch_rest rest) l →
    batchwise b rest (handed b (filter is_marker (batch_events rest)) ++ l).

(** What is left to hand to the handler when the events [nx] were read ahead,
    whose markers were handed over with the batch before, and [es] were not
    read. *)
Definition left_over (nx es : list HistoryEvent) (l : list HistoryEvent) : Prop :=
  batchwise nx es l
  ∧ l ≡ₚ filter (λ e, ¬ is_marker e) nx ++ delivered es
  ∧ filter (λ e, ¬ is_marker e) l
    = filter (λ e, ¬ is_marker e) nx ++ filter (λ e, ¬ is_marker e) (delivered es).

Lemma left_over_step b rest l :
  b ≠ [] → left_over (batch_events rest) (batch_rest rest) l →
  left_over b rest (handed b (filter is_marker (batch_events rest)) ++ l).
Proof.
  intros Hb (Ho & Hp & Hf). split_and!.
  - by apply batchwise_next.
  - rewrite handed_Permutation, Hp, (delivered_split rest), <- app_assoc. f_equiv.
    rewrite app_assoc. f_equiv. apply filter_app_complement.
  - rewrite list.filter_app, handed_order, Hf, (delivered_split rest), list.filter_app; [done|].
    apply list.Forall_forall. by intros x [? _]%list_elem_of_filter.
Qed.

Lemma processBatches_run steps fuel skip test previousStarted w e es :
  eventHandler w = inr e → ok None e → reads page fuel (reorderedHistory w) es →
  (default [] (next (reorderedHistory w)) = [] → is_Some (next (reorderedHistory w)) → es = []) →
  length es + (if decide (default [] (next (reorderedHistory w)) = [] ∧ es = []) then 1 else 2)
    ≤ steps →
  ∃ err w' e', processBatches workflow getWorkflowDefinition page clock config steps fuel skip test
                 previousStarted w = (Ret err, w')
    ∧ eventHandler w' = inr e' ∧ ok None e'
    ∧ (err = None → isWorkflowCompleted w' = false →
       ∃ l, handles e l e' ∧
         match next (reorderedHistory w) with
         | Some nx => left_over nx es l
         | None => left_over (batch_events es) (batch_rest es) l
         end).
Proof.
  revert w e es. induction steps as [|steps IH]; intros w e es Hw He Hr Hnil Hs; [case_decide; lia|].
  cbn [processBatches]. run. unfold with_history.
  destruct (NextDecisionEvents_run page fuel _ es Hr) as (result & mk & c & eh' & Hrun & Hres & Hnext).
  rewrite Hrun.
  set (b := if next (reorderedHistory w) is Some b then b else batch_events es) in *.
  set (rest := if next (reorderedHistory w) is Some _ then es else batch_rest es) in *.
  assert (∀ l, left_over b rest l → match next (reorderedHistory w) with
         | Some nx => left_over nx es l
         | None => left_over (batch_events es) (batch_rest es) l
         end) as Hgoal by (unfold b, rest; by destruct (next (reorderedHistory w))).
  rewrite Hres. destruct b as [|ev b'] eqn:Hb.
  { eexists _, _, e. split; [reflexivity|]. split_and!; [done..|]. intros _ _. exists [].
    split; [apply handles_done|]. apply Hgoal.
    assert (rest = []) as ->; [|split_and!; [apply batchwise_end|done..]].
    unfold b, rest in *. destruct (next (reorderedHistory w)); [by apply Hnil|by apply batch_nonempty]. }
  destruct (Hnext ltac:(done)) as (Hmk & Hn & Hr'). clear Hnext Hres.
  unfold update_info. run. simpl. rewrite Hw, Hmk.
  set (e1 := set_info _ e). set (w1 := set_eventHandler _ _).
  assert (ok None e1) as He1.
  { apply (pres_frame None (λ e, set_info (set_wi_BinaryChecksum
      (Some (default (wth_binaryChecksum config) c)) (workflowInfo e)) e)); [by intros|done]. }
  destruct (applyBatch_stepped skip previousStarted (ev :: b')
    (filter is_marker (batch_events rest)) w1 e1 eq_refl He1)
    as (r & w2 & Ha & e2 & Hw2 & He2 & Hh2 & Hn2 & Hb2). rewrite Ha. destruct r.
  - destruct (collect_stepped skip test previousStarted (ev :: b') w2 e2 Hw2 He2)
      as (w3 & e3 & Hc & Hw3 & He3 & Hh3 & Hn3). rewrite Hc.
    assert (reorderedHistory w3 = eh') as Heh by (by rewrite Hh3, Hh2).
    destruct (IH w3 e3 (batch_rest rest) Hw3 He3) as (err & w' & e' & Hp & Hw' & He' & Hl).
    { by rewrite Heh. }
    { rewrite Heh, Hn. intros Hb3 _. by apply batch_nonempty. }
    { rewrite Heh, Hn. apply (next_round_steps (next (reorderedHistory w)) es steps); [by fold b; rewrite Hb|done]. }
    exists err, w', e'. split; [done|]. split_and!; [done..|]. intros Herr Hcomp.
    destruct (Hl Herr Hcomp) as (l & Hh & Hleft). eexists. split.
    { eapply handles_checksum, handles_app; [by apply Hn2|by apply Hn3]. }
    apply Hgoal, left_over_step; [done|]. rewrite Heh in Hleft. rewrite <- Hn.
    destruct (next eh') as [nx|]; [done|]. simpl in Hn. symmetry in Hn.
    apply batch_nonempty in Hn. by rewrite Hn in *.
  - eexists _, w2, e2. split; [reflexivity|]. split_and!; [done..|]. rewrite Hb2 by done. done.
  - eexists _, w2, e2. split; [reflexivity|]. by split_and!.
Qed.

Lemma filter_all l : Forall (λ e, ¬ is_marker e) l → filter (λ e, ¬ is_marker e) l = l.
Proof. induction 1; [done|]. rewrite filter_cons, decide_True by done. by f_equal. Qed.

End task_history.

(** ** Witness *)

Definition sample_context : wctx :=
  set_history (newHistory (task_events "Act") 8 None)
    (set_current [] (Some (sample_task "Act")) (fresh_context "Act")).

#[local] Abbreviation sample_batches :=
  (processBatches Sample.workflow Sample.definition no_service (λ _, 0%Z)
    (sample_config NonDeterministicWorkflowPolicyBlockWorkflow) 10 17 false false 3 sample_context).

