(* ===== verification/Dispatcher.v ===== *)
(** * The dispatcher of coroutines

    internal/internal_workflow.go, lines 152-171, 566-617 and 822-1017: workflow
    code runs in coroutines that the dispatcher executes one at a time.

    A coroutine is a goroutine that hands control back and forth over two
    channels, so that between [call] and its return exactly one coroutine runs,
    from where it blocked last to where it blocks next.  That run is a _slice_:
    the code of the coroutine is a value of an abstract type [K] (where it is
    blocked and what it does next), and [resume], a parameter, gives the slice of
    any code in any state [S] of the workflow. *)

From stdpp Require Import base list strings option pretty.
From Stdlib Require Import ZArith.
From S2P Require Import Prelude.

Section dispatcher.
Context {S K : Type}.

(** How a slice ends: in [yield], with the code that continues there and whether
    [unblocked] was called during the slice; by the return of the coroutine's
    function; or by a panic in it. *)
Inductive ending :=
| Yields (k : K) (unblocked : bool)
| Returns
| Panics (p : panic).

Record slice := Slice {
  sl_state : S;
  sl_spawned : list (option string * K);  (** [Go] and [GoNamed], in order *)
  sl_end : ending }.

Context (resume : K → S → slice).

Record coroutineState := Coroutine {
  co_name : string;
  co_code : K;
  co_started : bool;   (** past [initialYield] *)
  keptBlocked : bool;
  co_closed : bool;
  panicError : option panic }.

Record dispatcherImpl := Dispatcher {
  sequence : nat;
  coroutines : list coroutineState;
  executing : bool;
  mutex : bool;        (** locked *)
  dp_closed : bool;
  dp_state : S }.

Implicit Types (d : dispatcherImpl) (c : coroutineState).

Definition set_coroutines n x s d :=
  Dispatcher n x (executing d) (mutex d) (dp_closed d) s.
Definition set_executing x d :=
  Dispatcher (sequence d) (coroutines d) x (mutex d) (dp_closed d) (dp_state d).
Definition set_mutex x d :=
  Dispatcher (sequence d) (coroutines d) (executing d) x (dp_closed d) (dp_state d).
Definition set_dp_closed d :=
  Dispatcher (sequence d) (coroutines d) (executing d) (mutex d) true (dp_state d).

(** [newNamedCoroutine] appends a coroutine that waits in [initialYield];
    [newCoroutine] names it after the sequence number. *)
Definition newState (d : dispatcherImpl) (spawn : option string * K) : dispatcherImpl :=
  let name := default (pretty (sequence d + 1)) (fst spawn) in
  set_coroutines (sequence d + 1)
    (coroutines d ++ [Coroutine name (snd spawn) false false false None]) (dp_state d) d.

Definition newDispatcher (root : K) (s : S) : dispatcherImpl :=
  newState (Dispatcher 0 [] false false false s) (None, root).

(** The coroutine after its slice.  [yield] sets [keptBlocked] when it returns,
    which is when the coroutine is resumed; [unblocked] clears it. *)
Definition after_slice (sl : slice) c : coroutineState :=
  match sl_end sl with
  | Yields k unblocked =>
      Coroutine (co_name c) k true (co_started c && negb unblocked) false None
  | Returns => Coroutine (co_name c) (co_code c) true (keptBlocked c) true None
  | Panics p => Coroutine (co_name c) (co_code c) true (keptBlocked c) true (Some p)
  end.

(** [c.call()] on the coroutine at index [i]. *)
Definition call (i : nat) c d : dispatcherImpl :=
  let sl := resume (co_code c) (dp_state d) in
  foldl newState
    (set_coroutines (sequence d) (<[i := after_slice sl c]> (coroutines d)) (sl_state sl) d)
    (sl_spawned sl).

(** The two loops of [ExecuteUntilAllBlocked]: [i] is the index of the inner
    one; at the end of the list a round ends, and another begins unless every
    coroutine was kept blocked.  Returns the panic of a coroutine, if any. *)
Fixpoint execute (fuel : nat) (i : nat) (allBlocked : bool) (lastSequence : nat)
    : M dispatcherImpl (option panic) :=
  match fuel with
  | 0 => throw OutOfFuel
  | Datatypes.S fuel =>
      d ← get;
      match coroutines d !! i with
      | Some c =>
          (if co_closed c then mret tt else modify (call i c));;
          d ← get;
          match coroutines d !! i with
          | None => throw IndexOutOfRange
          | Some c =>
              if co_closed c then
                modify (λ d, set_coroutines (sequence d)
                          (take i (coroutines d) ++ drop (i + 1) (coroutines d)) (dp_state d) d);;
                match panicError c with
                | Some p => mret (Some p)
                | None => execute fuel i false lastSequence
                end
              else execute fuel (i + 1) (allBlocked && (keptBlocked c || co_closed c)) lastSequence
          end
      | None =>
          if decide (coroutines d = [] ∨ (allBlocked = true ∧ lastSequence = sequence d)) then
            mret None
          else execute fuel 0 true (sequence d)
      end
  end.

Definition panicReentered :=
  "call to ExecuteUntilAllBlocked (possibly from a coroutine) while it is already running".

(** [None]: the caller waits for the mutex forever. *)
Definition ExecuteUntilAllBlocked (fuel : nat) : M dispatcherImpl (option (option panic)) :=
  d ← get;
  if mutex d then mret None else
  modify (set_mutex true);;
  if dp_closed d then throw (StringPanic "dispatcher is closed")
  else if executing d then throw (StringPanic panicReentered)
  else
    modify (set_executing true);;
    modify (set_mutex false);;
    d ← get;
    r ← execute fuel 0 true (sequence d);
    modify (set_executing false);;
    mret (Some r).

Definition IsDone d : bool := bool_decide (coroutines d = []).

(** [exit] ends every coroutine that has not ended ([runtime.Goexit] in its
    [yield]), which then closes itself. *)
Definition exit c : coroutineState :=
  if co_closed c then c
  else Coroutine (co_name c) (co_code c) (co_started c) (keptBlocked c) true None.

(** [None]: the caller waits for the mutex forever. *)
Definition Close : M dispatcherImpl (option unit) :=
  d ← get;
  if mutex d then mret None
  else if dp_closed d then mret (Some tt)
  else
    modify set_dp_closed;;
    modify (λ d, set_coroutines (sequence d) (exit <$> coroutines d) (dp_state d) d);;
    mret (Some tt).

(** [getState]: what an operation of a coroutine's context does first. *)
Inductive access := Proceed | Goexit | IllegalAccess.
Definition getState d : access :=
  if dp_closed d then Goexit else if executing d then Proceed else IllegalAccess.

End dispatcher.
Arguments dispatcherImpl : clear implicits.
Arguments slice : clear implicits.
Arguments ending : clear implicits.
Arguments coroutineState : clear implicits.
