(* ===== verification/DispatcherProps.v ===== *)
(** * The dispatcher executes until all coroutines are blocked

    Properties of [ExecuteUntilAllBlocked], [Close] and [getState] of
    Dispatcher.v, for any code of the coroutines; those that depend on what the
    operations of coroutines do are in CoroutinesProps.v. *)

From stdpp Require Import base list strings option pretty relations.
From Stdlib Require Import Lia.
From S2P Require Import Prelude.
From S2P Require Import Dispatcher.

Section execution.
Context {S K : Type} (resume : K → S → slice S K).
Implicit Types (d : dispatcherImpl S K) (c : coroutineState K) (s : S) (k : K).

(** ** One call *)

Definition remove i d := set_coroutines (sequence d)
  (take i (coroutines d) ++ drop (i + 1) (coroutines d)) (dp_state d) d.

Definition born (n : nat) (sps : list (option string * K)) : list (coroutineState K) :=
  imap (λ j sp, Coroutine (default (pretty (n + j + 1)) (fst sp)) (snd sp) false false false None) sps.

Lemma foldl_newState sps d :
  foldl newState d sps =
  Dispatcher (sequence d + length sps) (coroutines d ++ born (sequence d) sps)
    (executing d) (mutex d) (dp_closed d) (dp_state d).
Proof.
  revert d. induction sps as [|sp sps IH]; intros d.
  { destruct d; simpl. by rewrite app_nil_r, Nat.add_0_r. }
  cbn [foldl]. rewrite IH. unfold newState, set_coroutines, born; simpl.
  rewrite <- (assoc_L (++)); simpl. f_equal; [lia|].
  f_equal. f_equal; [by rewrite Nat.add_0_r|].
  apply imap_ext. intros j x _; simpl.
  by replace (sequence d + 1 + j + 1) with (sequence d + Datatypes.S j + 1) by lia.
Qed.

Lemma call_eq i c d :
  call resume i c d =
  let sl := resume (co_code c) (dp_state d) in
  Dispatcher (sequence d + length (sl_spawned sl))
    (<[i := after_slice sl c]> (coroutines d) ++ born (sequence d) (sl_spawned sl))
    (executing d) (mutex d) (dp_closed d) (sl_state sl).
Proof. unfold call. by rewrite foldl_newState. Qed.

Lemma length_call i c d : i < length (coroutines d) → i < length (coroutines (call resume i c d)).
Proof. intros ?. rewrite call_eq; simpl. rewrite length_app, length_insert. lia. Qed.

Lemma coroutines_removed i c d :
  coroutines d !! i = Some c →
  coroutines (remove i (call resume i c d)) =
  delete i (coroutines d ++ born (sequence d) (sl_spawned (resume (co_code c) (dp_state d)))).
Proof.
  intros Hi%lookup_lt_Some. unfold remove; rewrite call_eq; simpl.
  rewrite delete_take_drop, Nat.add_1_r.
  rewrite !take_app_le, !drop_app_le by (rewrite ?length_insert; lia).
  by rewrite take_insert_ge, drop_insert_lt by lia.
Qed.

(** One step of the inner loop at a coroutine that has not ended. *)
Lemma execute_call n i ab ls d c :
  coroutines d !! i = Some c → co_closed c = false →
  execute resume (Datatypes.S n) i ab ls d =
  match sl_end (resume (co_code c) (dp_state d)) with
  | Yields _ u =>
      execute resume n (i + 1) (ab && (co_started c && negb u)) ls (call resume i c d)
  | Returns => execute resume n i false ls (remove i (call resume i c d))
  | Panics p => (Ret (Some p), remove i (call resume i c d))
  end.
Proof.
  intros Hi Hc. cbn [execute]. run. rewrite Hi, Hc.
  assert (Hi' : coroutines (call resume i c d) !! i =
                Some (after_slice (resume (co_code c) (dp_state d)) c)).
  { rewrite call_eq; simpl. apply lookup_lt_Some in Hi as Hlt.
    rewrite lookup_app_l by (by rewrite length_insert). by apply list_lookup_insert_eq. }
  rewrite Hi'. unfold after_slice. destruct (sl_end _) as [k u| |p]; simpl; [|done..].
  by rewrite orb_false_r.
Qed.

Lemma execute_end n i ab ls d :
  coroutines d !! i = None →
  execute resume (Datatypes.S n) i ab ls d =
  if decide (coroutines d = [] ∨ (ab = true ∧ ls = sequence d)) then (Ret None, d)
  else execute resume n 0 true (sequence d) d.
Proof. intros Hi. cbn [execute]. run. rewrite Hi. by case_decide. Qed.

(** ** The whole execution *)

(** A dispatcher that may execute. *)
Definition ready d : Prop := mutex d = false ∧ dp_closed d = false ∧ executing d = false.

Lemma execute_flags n i ab ls d o d' :
  execute resume n i ab ls d = (o, d') →
  executing d = executing d' ∧ mutex d = mutex d' ∧ dp_closed d = dp_closed d'.
Proof.
  revert i ab ls d. induction n as [|n IH]; intros i ab ls d Hex.
  { cbn in Hex. run_in Hex. by simplify_eq. }
  assert (Hcall : ∀ j c, executing (call resume j c d) = executing d ∧
    mutex (call resume j c d) = mutex d ∧ dp_closed (call resume j c d) = dp_closed d)
    by (intros; by rewrite call_eq).
  cbn [execute] in Hex. run_in Hex.
  destruct (coroutines d !! i) as [c|] eqn:Hi; [destruct (Hcall i c) as (H1 & H2 & H3)|].
  - destruct (co_closed c); [rewrite Hi in Hex|];
      repeat (case_match; simplify_eq/=; try (split_and!; congruence));
      apply IH in Hex; simpl in Hex; destruct_and!; split_and!; congruence.
  - case_decide; [by simplify_eq|]. by apply IH in Hex.
Qed.

Lemma ready_executed n i ab ls d r d' :
  ready d → execute resume n i ab ls (set_executing true d) = (Ret r, d') →
  ready (set_executing false d').
Proof. intros (? & ? & ?) (_ & Hm & Hc)%execute_flags. unfold ready; simpl in *. by rewrite <- Hm, <- Hc. Qed.

Lemma Execute_run n d :
  ready d → ExecuteUntilAllBlocked resume n d =
  match execute resume n 0 true (sequence d) (set_executing true d) with
  | (Ret r, d') => (Ret (Some r), set_executing false d')
  | (Panic p, d') => (Panic p, d')
  end.
Proof.
  intros (Hm & Hc & He). unfold ExecuteUntilAllBlocked. run. rewrite Hm, Hc, He.
  replace (set_mutex false _) with (set_executing true d) by (destruct d; simpl in *; by subst).
  simpl. by destruct (execute _ _ _ _ _ _) as [[]].
Qed.

Lemma Execute_ready n d r d' :
  ready d → execute resume n 0 true (sequence d) (set_executing true d) = (Ret r, d') →
  ExecuteUntilAllBlocked resume n d = (Ret (Some r), set_executing false d').
Proof. intros Hr H. by rewrite Execute_run, H. Qed.

Lemma Execute_inv n d r d' :
  ready d → ExecuteUntilAllBlocked resume n d = (Ret (Some r), d') →
  ∃ d1, execute resume n 0 true (sequence d) (set_executing true d) = (Ret r, d1) ∧
        d' = set_executing false d1.
Proof.
  intros Hr. rewrite Execute_run by done.
  destruct (execute _ _ _ _ _ _) as [[] d1]; intros; simplify_eq; eauto.
Qed.

(** What [Close] leaves, and a defect of the lock.  After [Close], every
    coroutine has ended, an operation of one ends its goroutine, and closing again
    does nothing.  [ExecuteUntilAllBlocked] then panics, but it panics with the
    mutex held: afterwards [Close] and [ExecuteUntilAllBlocked] wait forever. *)
Theorem closed_dispatcher d fuel :
  mutex d = false → dp_closed d = false →
  let d1 := snd (Close d) in
  let d2 := snd (ExecuteUntilAllBlocked resume fuel d1) in
  Forall (λ c, co_closed c = true) (coroutines d1) ∧ getState d1 = Goexit ∧
  Close d1 = (Ret (Some tt), d1) ∧
  fst (ExecuteUntilAllBlocked resume fuel d1) = Panic (StringPanic "dispatcher is closed") ∧
  Close d2 = (Ret None, d2) ∧
  ∀ fuel', ExecuteUntilAllBlocked resume fuel' d2 = (Ret None, d2).
Proof.
  intros Hm Hc d1 d2.
  assert (Hd1 : d1 = set_dp_closed (set_coroutines (sequence d) (exit <$> coroutines d) (dp_state d) d))
    by (subst d1; unfold Close; run; by rewrite Hm, Hc).
  assert (Hd2 : ExecuteUntilAllBlocked resume fuel d1 =
                (Panic (StringPanic "dispatcher is closed"), set_mutex true d1))
    by (unfold ExecuteUntilAllBlocked; run; by rewrite Hd1; simpl; rewrite Hm).
  subst d2. rewrite Hd2. simpl. split_and!.
  - rewrite Hd1; simpl. apply Forall_fmap, Forall_true. intros c; simpl. unfold exit.
    by destruct (co_closed c) eqn:?.
  - by rewrite Hd1.
  - rewrite Hd1. unfold Close. run. simpl. by rewrite Hm.
  - done.
  - done.
  - done.
Qed.

(** ** Panics of coroutines *)

(** A turn of a coroutine: one call, and its removal when it returned. *)
Inductive turn d : dispatcherImpl S K → Prop :=
| turn_yields i c k u :
    coroutines d !! i = Some c → sl_end (resume (co_code c) (dp_state d)) = Yields k u →
    turn d (call resume i c d)
| turn_returns i c :
    coroutines d !! i = Some c → sl_end (resume (co_code c) (dp_state d)) = Returns →
    turn d (remove i (call resume i c d)).

Definition open c : Prop := co_closed c = false.

Lemma open_born n sps : Forall open (born n sps).
Proof.
  apply list.Forall_forall. intros c Hc.
  apply list_elem_of_lookup_1 in Hc as [j Hj]. unfold born in Hj.
  rewrite list_lookup_imap in Hj. by destruct (sps !! j); simplify_eq/=.
Qed.

Lemma turn_open d d' : turn d d' → Forall open (coroutines d) → Forall open (coroutines d').
Proof.
  intros [i c k u Hi E|i c Hi E] Hall.
  - rewrite call_eq; simpl. apply Forall_app. split; [|apply open_born].
    apply Forall_insert; [done|]. unfold after_slice, open. by rewrite E.
  - rewrite coroutines_removed by done. apply Forall_delete, Forall_app. auto using open_born.
Qed.

Lemma execute_panic n i ab ls d d' p :
  Forall open (coroutines d) → execute resume n i ab ls d = (Ret (Some p), d') →
  ∃ d1 j c, rtc turn d d1 ∧ coroutines d1 !! j = Some c ∧
    sl_end (resume (co_code c) (dp_state d1)) = Panics p ∧ d' = remove j (call resume j c d1).
Proof.
  revert i ab ls d. induction n as [|n IH]; intros i ab ls d Hall Hex; [done|].
  assert (Hone : ∀ d1 i ab ls, turn d d1 → execute resume n i ab ls d1 = (Ret (Some p), d') →
    ∃ d1 j c, rtc turn d d1 ∧ coroutines d1 !! j = Some c ∧
    sl_end (resume (co_code c) (dp_state d1)) = Panics p ∧ d' = remove j (call resume j c d1)).
  { intros d1 i' ab' ls' Ht Hex'. destruct (IH i' ab' ls' d1) as (d2 & j & c & Hrtc & ?);
      [by eapply turn_open|done|]. exists d2, j, c. split; [by eapply rtc_l|done]. }
  destruct (coroutines d !! i) as [c|] eqn:Hi.
  - rewrite (execute_call n i ab ls d c Hi (Forall_lookup_1 _ _ _ _ Hall Hi)) in Hex.
    destruct (sl_end _) as [k u| |q] eqn:E.
    + eapply Hone, Hex. by econstructor.
    + eapply Hone, Hex. by constructor.
    + simplify_eq. by exists d, i, c.
  - rewrite execute_end in Hex by done. case_decide; [done|]. by eapply IH.
Qed.

(** A panic of workflow code is reported and stops the workflow: when
    [ExecuteUntilAllBlocked] returns an error, the coroutines took some turns, then
    one of them panicked with that error, and it was removed without any other
    coroutine running after it. *)
Theorem execution_panic fuel d d' p :
  ready d → Forall open (coroutines d) →
  ExecuteUntilAllBlocked resume fuel d = (Ret (Some (Some p)), d') →
  ∃ d1 i c, rtc turn (set_executing true d) d1 ∧ coroutines d1 !! i = Some c ∧
    sl_end (resume (co_code c) (dp_state d1)) = Panics p ∧
    d' = set_executing false (remove i (call resume i c d1)).
Proof.
  intros Hr Hall Hex. apply Execute_inv in Hex as (d1 & Hex & ->); [|done].
  apply execute_panic in Hex as (d2 & i & c & Hrtc & Hi & E & ->); [|done].
  by exists d2, i, c.
Qed.

End execution.

(** ** A sample workflow

    The main coroutine spawns one that panics. *)
Module SampleCoroutines.

Inductive co := Main | Worker.

Definition resume (k : co) (s : nat) : slice nat co :=
  match k with
  | Main => Slice (s + 1) [(Some "worker"%string, Worker)] Returns
  | Worker => Slice s [] (Panics NilDereference)
  end.

Abbreviation start := (newDispatcher Main 0).

Lemma execution_panic_witness :
  ∃ d1 i c, rtc (turn resume) (set_executing true start) d1 ∧ coroutines d1 !! i = Some c ∧
    sl_end (resume (co_code c) (dp_state d1)) = Panics NilDereference ∧
    snd (ExecuteUntilAllBlocked resume 20 start) =
    set_executing false (remove i (call resume i c d1)).
Proof.
  apply (execution_panic resume 20 start).
  - vm_compute. split_and!; reflexivity.
  - by repeat constructor.
  - vm_compute. reflexivity.
Defined.

Lemma closed_dispatcher_witness :
  let d1 := snd (Close start) in
  let d2 := snd (ExecuteUntilAllBlocked resume 20 d1) in
  Forall (λ c, co_closed c = true) (coroutines d1) ∧ getState d1 = Goexit ∧
  Close d1 = (Ret (Some tt), d1) ∧
  fst (ExecuteUntilAllBlocked resume 20 d1) = Panic (StringPanic "dispatcher is closed") ∧
  Close d2 = (Ret None, d2) ∧
  ∀ fuel', ExecuteUntilAllBlocked resume fuel' d2 = (Ret None, d2).
Proof. exact (closed_dispatcher resume start 20 eq_refl eq_refl). Defined.

End SampleCoroutines.
