(* ===== verification/Coroutines.v ===== *)
(** * The code of coroutines

    internal/internal_workflow.go and workflow.go: what the coroutines of a
    workflow do between two yields.  Workflow code is a tree of operations: those
    that do not block are any functions of the state; those that block are the ones
    of Channels.v (Receive, Send, Get of a future, Select) and [Await], composed
    with [yield] and [unblocked] as the source composes them.  [resume] gives the
    slice of a coroutine, from where it is blocked to where it blocks next, that
    the dispatcher of Dispatcher.v runs. *)

From stdpp Require Import base list gmap strings option.
From S2P Require Import Prelude.
From S2P Require Import Channels.
From S2P Require Import Dispatcher.

Section coroutines.
Context {V : Type}.
Abbreviation value := (option V).
Abbreviation error := (option string).

(** The state that the coroutines share: the store of channels and futures, and
    the next name for the variables of an operation. *)
Record wstate := WState { ws_store : store (V:=V); ws_next : nat }.

Definition on_store {A} (m : M (store (V:=V)) A) : M wstate A := λ w,
  let '(r, st) := m (ws_store w) in (r, WState st (ws_next w)).

(** The state after a name was taken. *)
Definition named (w : wstate) : wstate := WState (ws_store w) (S (ws_next w)).

(** The turns of the loop of [Receive]: it drops at most what the channel holds. *)
Definition attempts c (w : wstate) : nat :=
  match channels (ws_store w) !! c with
  | Some ch => 2 + length (buffer ch) + length (blockedSends ch)
  | None => 1
  end.

(** Whether the [Done] channel of a context is closed; nothing is sent on one. *)
Definition canceled (done : option nat) (w : wstate) : bool :=
  match done ≫= λ c, channels (ws_store w) !! c with
  | Some ch => closed ch
  | None => false
  end.

(** Workflow code, every run of which is finite.  The function of the case that
    [Select] calls, or its default, goes up to [coSelected], where [Select] returns
    after it. *)
Inductive code :=
| coReturn
| coPanic (p : panic)
| coGo (name : option string) (child next : code)
| coDo {A : Type} (op : M wstate A) (next : A → code)
| coReceive (assign : value → bool) (c : nat) (next : option value * bool → code)
| coSend (c : nat) (v : value) (next : code)
| coGet (f : nat) (next : value * error → code)
| coSelect (cases : list (selectCase (V:=V))) (has_default : bool) (next : chosen → code)
| coSelected (next : code)
| coAwait (condition : wstate → bool) (done : option nat) (next : bool → code).

(** A call of [Select] that is on the stack: whether it waited, and its deferred
    clean-ups. *)
Definition frame : Type := bool * list (cleanup (V:=V)).

(** Where a coroutine is, between two slices. *)
Inductive point :=
| Entry (c : code)     (** of the root: it yields before the workflow function *)
| Start (c : code)
| AtReceive (assign : value → bool) (c k : nat) (next : option value * bool → code)
    (stack : list frame)
| AtSend (c : nat) (v : value) (k : nat) (next : code) (stack : list frame)
| AtGet (f k : nat) (next : value * error → code) (stack : list frame)
| AtSelect (s : nat) (cases : list (selectCase (V:=V))) (has_default : bool)
    (cleanups : list (cleanup (V:=V))) (next : chosen → code) (stack : list frame)
| AtAwait (condition : wstate → bool) (done : option nat) (next : bool → code)
    (stack : list frame).

(** A panic runs the deferred clean-ups of the calls of [Select] on the stack. *)
Definition unwind (stack : list frame) (w : wstate) : wstate :=
  foldl (λ w f, snd (on_store (run_cleanups (snd f)) w)) w stack.
Definition fails (stack : list frame) (p : panic) (w : wstate) : slice wstate point :=
  Slice (unwind stack w) [] (Panics p).

Definition spawning (spawn : option string * point) (sl : slice wstate point)
    : slice wstate point :=
  Slice (sl_state sl) (spawn :: sl_spawned sl) (sl_end sl).

(** From an operation on: [u] is whether [unblocked] was called in this slice.
    [Receive] calls it unless it found the channel closed; so [Get] of a future
    that is ready does not. *)
Fixpoint run (c : code) (stack : list frame) (u : bool) (w : wstate) : slice wstate point :=
  match c with
  | coReturn => Slice (unwind stack w) [] Returns
  | coPanic p => fails stack p w
  | coGo name child next => spawning (name, Start child) (run next stack u w)
  | coDo op next =>
      match op w with
      | (Ret a, w) => run (next a) stack u w
      | (Panic p, w) => fails stack p w
      end
  | coReceive assign c next =>
      match on_store (Receive assign (attempts c w) c (ws_next w)) (named w) with
      | (Ret (Done r), w) => run (next r) stack (u || bool_decide (is_Some r.1)) w
      | (Ret Blocked, w') => Slice w' [] (Yields (AtReceive assign c (ws_next w) next stack) u)
      | (Panic p, w) => fails stack p w
      end
  | coSend c v next =>
      match on_store (Send c (ws_next w) v) (named w) with
      | (Ret (Done _), w) => run next stack true w
      | (Ret Blocked, w') => Slice w' [] (Yields (AtSend c v (ws_next w) next stack) u)
      | (Panic p, w) => fails stack p w
      end
  | coGet f next =>
      match on_store (Get 1 f (ws_next w)) (named w) with
      | (Ret (Done r), w) => run (next r) stack u w
      | (Ret Blocked, w') => Slice w' [] (Yields (AtGet f (ws_next w) next stack) u)
      | (Panic p, w) => fails stack p w
      end
  | coSelect cases has_default next =>
      match on_store (Select (ws_next w) cases has_default) (named w) with
      | (Ret (Done choice, cleanups), w) => run (next choice) ((false, cleanups) :: stack) u w
      | (Ret (Blocked, cleanups), w') =>
          Slice w' [] (Yields (AtSelect (ws_next w) cases has_default cleanups next stack) u)
      | (Panic p, w) => fails stack p w
      end
  | coSelected next =>
      match stack with
      | (waited, cleanups) :: stack =>
          match on_store (run_cleanups cleanups) w with
          | (Ret _, w) => run next stack (u || waited) w
          | (Panic p, w) => fails stack p w
          end
      | [] => run next [] u w
      end
  | coAwait condition done next =>
      if condition w || canceled done w then run (next (condition w)) stack true w
      else Slice w [] (Yields (AtAwait condition done next stack) u)
  end.

(** A slice: [yield] returns, and the operation that called it checks its
    condition again. *)
Definition resume (k : point) (w : wstate) : slice wstate point :=
  match k with
  | Entry c => Slice w [] (Yields (Start c) false)
  | Start c => run c [] false w
  | AtReceive assign c cell next stack =>
      match on_store (Receive_resume assign (attempts c w) c cell) w with
      | (Ret (Done r), w) => run (next r) stack (bool_decide (is_Some r.1)) w
      | (Ret Blocked, w) => Slice w [] (Yields k false)
      | (Panic p, w) => fails stack p w
      end
  | AtSend c _ cell next stack =>
      match on_store (Send_resume c cell) w with
      | (Ret (Done _), w) => run next stack true w
      | (Ret Blocked, w) => Slice w [] (Yields k false)
      | (Panic p, w) => fails stack p w
      end
  | AtGet f cell next stack =>
      match on_store (Get_resume 1 f cell) w with
      | (Ret (Done r), w) => run (next r) stack true w
      | (Ret Blocked, w) => Slice w [] (Yields k false)
      | (Panic p, w) => fails stack p w
      end
  | AtSelect s _ _ cleanups next stack =>
      match on_store (Select_resume s) w with
      | (Ret (Done choice), w) => run (next choice) ((true, cleanups) :: stack) false w
      | (Ret Blocked, w) => Slice w [] (Yields k false)
      | (Panic p, w) => fails stack p w
      end
  | AtAwait condition done next stack =>
      if condition w || canceled done w then run (next (condition w)) stack true w
      else Slice w [] (Yields k false)
  end.

(** A workflow that starts to execute its function. *)
Definition Execute (root : code) (w : wstate) : dispatcherImpl wstate point :=
  newDispatcher (Entry root) w.

End coroutines.
Arguments wstate : clear implicits.
Arguments code : clear implicits.
Arguments point : clear implicits.
