(* ===== verification/CoroutinesProps.v ===== *)
(** * No wake-up is lost, and execution ends

    Properties of the dispatcher of Dispatcher.v when it runs the coroutines of
    Coroutines.v: [ExecuteUntilAllBlocked] returns, and when it does nothing is left
    to do. *)

From stdpp Require Import base list gmap strings option relations.
From Stdlib Require Import Lia.
From S2P Require Import Prelude.
From S2P Require Import Channels.
From S2P Require Import Dispatcher.
From S2P Require Import DispatcherProps.
From S2P Require Import Coroutines.

Section operations.
Context {V : Type}.
Implicit Types (st : store (V:=V)) (w : wstate V).

(** ** What a blocked operation leaves *)

(** Receiving changes neither the cells of the receivers nor the futures. *)
Definition same_cells st st' : Prop := cells st' = cells st ∧ futures st' = futures st.

Lemma take_send_cells sends c st : same_cells st (snd (take_send sends c st)).
Proof.
  revert st. induction sends as [|b sends IH]; intros st; [done|].
  cbn [take_send]. unfold update, call_send. run.
  destruct b as [k v|s i v]; [done|]. simpl.
  destruct (sessions st !! s) as [[br|]|]; simpl; [|done|done].
  exact (IH (set_channels _ st)).
Qed.

Lemma receiveAsyncImpl_cells c cb st : same_cells st (snd (receiveAsyncImpl c cb st)).
Proof.
  unfold receiveAsyncImpl, channel. run. destruct (channels st !! c) as [ch|]; [|done].
  destruct (recValue ch); [done|]. destruct (buffer ch) as [|r l].
  - destruct (closed ch); [done|].
    pose proof (take_send_cells (blockedSends ch) c st) as Ht.
    destruct (take_send (blockedSends ch) c st) as [[[b|]|] st']; [done| |done].
    by destruct cb.
  - unfold update. run.
    pose proof (take_send_cells (blockedSends ch) c
      (set_channels (alter (set_buffer l) c (channels st)) st)) as Ht.
    by destruct (take_send _ _ _) as [[[b|]|] st'].
Qed.

(** A [Receive] that blocks has no result. *)
Lemma Receive_attempt_blocked assign fuel c k st st' :
  is_Some (cells st !! k) → Receive_attempt assign fuel c k st = (Ret Blocked, st') →
  futures st' = futures st ∧ ∃ x, cells st' !! k = Some x ∧ hasResult x = false.
Proof.
  revert st. induction fuel as [|fuel IH]; intros st [x Hx] Hrun; [done|].
  cbn [Receive_attempt] in Hrun. run_in Hrun.
  set (st1 := set_cells _ st) in Hrun.
  assert (cells st1 !! k = Some (Cell false (result x) (cell_more x))) as H1
    by (simpl; by rewrite lookup_alter_eq, Hx).
  pose proof (receiveAsyncImpl_cells c (Some (rcvCell k)) st1) as [Hc Hf].
  destruct (receiveAsyncImpl c (Some (rcvCell k)) st1) as [[[[v ok] m]|] st2]; [|done].
  cbn [snd] in Hc, Hf.
  assert (cells st2 !! k = Some (Cell false (result x) (cell_more x))) as H2 by (rewrite Hc; exact H1).
  destruct (negb ok && negb m); [done|].
  destruct (ok || negb m).
  - destruct (assign v); [done|]. apply IH in Hrun as [Hf' ?]; [|by eexists]. split; [exact (eq_trans Hf' Hf)|done].
  - injection Hrun as <-. split; [exact Hf|]. by eexists.
Qed.

Lemma Receive_resume_waits assign fuel c k st x :
  cells st !! k = Some x → hasResult x = false →
  Receive_resume assign fuel c k st = (Ret Blocked, st).
Proof. intros Hx Hr. unfold Receive_resume. run. by rewrite Hx, Hr. Qed.

Lemma Receive_blocked assign fuel fuel' c k st st' :
  Receive assign fuel c k st = (Ret Blocked, st') →
  futures st' = futures st ∧ Receive_resume assign fuel' c k st' = (Ret Blocked, st').
Proof.
  unfold Receive. run. intros Hrun. apply Receive_attempt_blocked in Hrun as (Hf & x & Hx & Hr).
  - split; [done|]. by eapply Receive_resume_waits.
  - simpl. rewrite lookup_insert_eq. by eexists.
Qed.

(** When it is resumed it blocks again, with a result that it could not assign, or
    without one and unchanged. *)
Lemma Receive_resume_blocked assign fuel fuel' c k st st' :
  Receive_resume assign fuel c k st = (Ret Blocked, st') →
  Receive_resume assign fuel' c k st' = (Ret Blocked, st') ∧
  ((∀ v, assign v = true) → st' = st).
Proof.
  intros H. unfold Receive_resume in H. run_in H. destruct (cells st !! k) as [x|] eqn:Hx; [|done].
  destruct (hasResult x) eqn:Hr.
  - destruct (assign (result x)) eqn:Ha; [done|].
    apply Receive_attempt_blocked in H as (_ & y & Hy & Hr'); [|by eexists].
    split; [by eapply Receive_resume_waits|]. intros Hall. by rewrite Hall in Ha.
  - injection H as <-. split; [by eapply Receive_resume_waits|done].
Qed.

Lemma Receive_resume_assigned assign fuel c k st r st' :
  (∀ v, assign v = true) → Receive_resume assign fuel c k st = (Ret (Done r), st') → is_Some r.1.
Proof.
  intros Ha. unfold Receive_resume. run. destruct (cells st !! k) as [x|]; [|done].
  destruct (hasResult x); [|done]. rewrite Ha. intros [= <- _]. by eexists.
Qed.

Lemma Send_resume_blocked c k st st' : Send_resume c k st = (Ret Blocked, st') → st' = st.
Proof.
  unfold Send_resume, channel. run. destruct (default false _); [done|].
  destruct (channels st !! c) as [ch|]; [|done]. destruct (closed ch); [done|]. by intros [= <-].
Qed.

Lemma Send_blocked c k v st st' :
  Send c k v st = (Ret Blocked, st') → Send_resume c k st' = (Ret Blocked, st').
Proof.
  unfold Send. run. destruct (sendAsyncImpl _ _ _ _) as [[[]|] st1]; [done| |done].
  intros H. by rewrite <- (Send_resume_blocked _ _ _ _ H) in H at 1.
Qed.

Lemma Get_resume_blocked f k st st' : Get_resume 1 f k st = (Ret Blocked, st') → st' = st.
Proof.
  unfold Get_resume, future. run. destruct (futures st !! f) as [x|]; [|done].
  destruct (Receive_resume _ _ _ _ _) as [[[[? m]|]|] st1] eqn:Hr; [| |done].
  - unfold Get_result, future. run. destruct m; [done|].
    destruct (futures st1 !! f) as [y|]; [|done]. by destruct (Channels.ready y).
  - intros [= <-]. by apply (Receive_resume_blocked _ _ 1) in Hr as [_ ->].
Qed.

Lemma Get_blocked f k st st' :
  Get 1 f k st = (Ret Blocked, st') → Get_resume 1 f k st' = (Ret Blocked, st').
Proof.
  unfold Get, future. run. destruct (futures st !! f) as [x|] eqn:Hx; [|done].
  destruct (Receive _ _ _ _ _) as [[[[? m]|]|] st1] eqn:Hr; [| |done].
  - unfold Get_result, future. run. destruct m; [done|].
    destruct (futures st1 !! f) as [y|]; [|done]. by destruct (Channels.ready y).
  - intros [= <-]. apply (Receive_blocked _ _ 1) in Hr as [Hf Hr].
    unfold Get_resume, future. run. by rewrite Hf, Hx, Hr.
Qed.

Lemma Select_resume_blocked s st st' :
  Select_resume (V:=V) s st = (Ret Blocked, st') → st' = st.
Proof. unfold Select_resume. run. destruct (default None _) as [[]|]; by intros [= <-]. Qed.

Lemma Select_blocked s cases d cleanups st st' :
  Select s cases d st = (Ret (Blocked, cleanups), st') → Select_resume s st' = (Ret Blocked, st').
Proof.
  unfold Select, Select_body. run. destruct (Select_cases _ _ _ _ _) as [[[[choice|] cl]|] st1]; [done| |done].
  destruct d; [done|].
  destruct (Select_resume s st1) as [[[?|]|] st2] eqn:Hr; [done| |done]. intros [= _ <-].
  by rewrite <- (Select_resume_blocked _ _ _ Hr) in Hr at 1.
Qed.

(** ** The turns of [Receive]

    Every value that is received is one less in the channel, so [attempts] turns
    suffice. *)
Definition held c st : nat :=
  match channels st !! c with
  | Some ch => (if recValue ch is Some _ then 1 else 0) + length (buffer ch) + length (blockedSends ch)
  | None => 0
  end.

Lemma take_send_held c ch st :
  channels st !! c = Some ch →
  ∃ r st' sends, take_send (blockedSends ch) c st = (Ret r, st') ∧
    channels st' !! c = Some (set_sends sends ch) ∧
    length sends + (if r is Some _ then 1 else 0) ≤ length (blockedSends ch).
Proof.
  intros Hc. pose proof (take_send_run _ c ch st Hc eq_refl) as Ht.
  destruct (split_live (live_send st) (blockedSends ch)) as [[b rest]|] eqn:Hsp.
  - destruct Ht as (st' & -> & Hch & _). exists (Some b), st', rest.
    apply split_live_Some in Hsp as (_ & dead & -> & _).
    rewrite Hch, lookup_insert_eq, length_app. simpl. split_and!; [done..|lia].
  - rewrite Ht. eexists None, _, []. split; [reflexivity|]. simpl. rewrite lookup_insert_eq.
    split; [done|lia].
Qed.

Lemma receive_held c cb st v m st' :
  receiveAsyncImpl c cb st = (Ret (v, true, m), st') → held c st' < held c st.
Proof.
  unfold receiveAsyncImpl, channel. run. unfold held at 2.
  destruct (channels st !! c) as [ch|] eqn:Hc; [|done].
  destruct (recValue ch) as [r|] eqn:Hr.
  { rewrite (update_run _ _ _ _ Hc). intros [= _ _ <-]. unfold held. simpl.
    rewrite lookup_insert_eq. simpl. lia. }
  destruct (buffer ch) as [|r l] eqn:Hb.
  - destruct (closed ch); [done|].
    destruct (take_send_held c ch st Hc) as ([b|] & st1 & sends & -> & Hc1 & Hl).
    + intros [= _ _ <-]. unfold held. rewrite Hc1. simpl. rewrite Hr, Hb. simpl. lia.
    + by destruct cb; unfold update; run.
  - rewrite (update_run _ _ _ _ Hc).
    destruct (take_send_held c (set_buffer l ch) (set_channels (<[c := set_buffer l ch]> (channels st)) st)
      (lookup_insert_eq _ _ _)) as ([b|] & st1 & sends & E & Hc1 & Hl); simpl in E, Hl; rewrite E.
    + rewrite (update_run _ _ _ _ Hc1). intros [= _ _ <-]. unfold held. simpl.
      rewrite lookup_insert_eq. simpl. rewrite Hr, length_app. simpl. lia.
    + intros [= _ _ <-]. unfold held. rewrite Hc1. simpl. rewrite Hr. lia.
Qed.

Lemma receive_fuel c cb st : fst (receiveAsyncImpl c cb st) ≠ Panic OutOfFuel.
Proof.
  unfold receiveAsyncImpl, channel. run. destruct (channels st !! c) as [ch|] eqn:Hc; [|done].
  destruct (recValue ch); [done|]. destruct (buffer ch) as [|r l].
  - destruct (closed ch); [done|].
    destruct (take_send_held c ch st Hc) as ([b|] & st1 & sends & -> & _); [done|by destruct cb].
  - rewrite (update_run _ _ _ _ Hc).
    destruct (take_send_held c (set_buffer l ch) (set_channels (<[c := set_buffer l ch]> (channels st)) st)
      (lookup_insert_eq _ _ _)) as ([b|] & st1 & sends & E & _); simpl in E; by rewrite E.
Qed.

Lemma Receive_attempts assign fuel c k st :
  held c st < fuel → fst (Receive_attempt assign fuel c k st) ≠ Panic OutOfFuel.
Proof.
  revert st. induction fuel as [|fuel IH]; intros st Hf; [lia|].
  cbn [Receive_attempt]. run. set (st1 := set_cells _ st).
  pose proof (receive_fuel c (Some (rcvCell k)) st1) as Hp.
  destruct (receiveAsyncImpl c (Some (rcvCell k)) st1) as [[[[v ok] m]|p] st2] eqn:E; [|by simpl in *; congruence].
  destruct (negb ok && negb m) eqn:Hcl; [done|]. destruct (ok || negb m) eqn:Hok; [|done].
  assert (ok = true) as -> by (destruct ok, m; done). destruct (assign v); [done|].
  apply IH. apply receive_held in E. change (held c st1) with (held c st) in E. lia.
Qed.

(** The loop of [Receive] in a slice ends. *)
Lemma attempts_enough assign c k w :
  fst (Receive_attempt assign (attempts c w) c k (ws_store w)) ≠ Panic OutOfFuel.
Proof.
  apply Receive_attempts. unfold held, attempts.
  destruct (channels (ws_store w) !! c) as [ch|]; [|lia]. destruct (recValue ch); lia.
Qed.
End operations.

Lemma Acc_tc {A} (R : relation A) x : Acc R x → Acc (tc R) x.
Proof.
  induction 1 as [x _ IH]. constructor. intros y Hy.
  induction Hy as [y x Hyx|y z x Hyz _ IHz]; [by apply IH|].
  apply (Acc_inv (IHz IH)). by apply tc_once.
Qed.

Section slices.
Context {V : Type}.
Implicit Types (c : code V) (k : point V) (w : wstate V) (stack : list (frame (V:=V))).

Lemma on_store_inv {A} (m : M (store (V:=V)) A) w r w' :
  on_store m w = (r, w') → m (ws_store w) = (r, ws_store w') ∧ ws_next w' = ws_next w.
Proof. unfold on_store. destruct (m (ws_store w)) as [r' st]. by intros [= <- <-]. Qed.

Lemma on_store_run {A} (m : M (store (V:=V)) A) w r :
  m (ws_store w) = (r, ws_store w) → on_store m w = (r, w).
Proof. unfold on_store. intros ->. by destruct w. Qed.

Lemma wstate_eq w w' : ws_store w' = ws_store w → ws_next w' = ws_next w → w' = w.
Proof. destruct w, w'; simpl; congruence. Qed.

(** ** Where a slice ends *)

Definition waiting k : Prop := match k with Entry _ | Start _ => False | _ => True end.
Definition stack_of k : list frame :=
  match k with
  | Entry _ | Start _ => []
  | AtReceive _ _ _ _ stack | AtSend _ _ _ _ stack | AtGet _ _ _ stack
  | AtSelect _ _ _ _ _ stack | AtAwait _ _ _ stack => stack
  end.

(** A coroutine that is blocked inside a function of [Select] that waited, or that
    may drop a corrupt value, can make progress without saying so. *)
Definition calm k : Prop :=
  Forall (λ f, f.1 = false) (stack_of k) ∧
  match k with AtReceive assign _ _ _ _ => ∀ v, assign v = true | _ => True end.

(** A yield without [unblocked]: none was called before, and the calls of [Select]
    that waited are still on the stack. *)
Lemma run_silent c stack u w k :
  sl_end (run c stack u w) = Yields k false →
  u = false ∧ ∀ f, f ∈ stack → f.1 = true → f ∈ stack_of k.
Proof.
  revert stack u w.
  induction c as [|p|name child IHc next IH|A op next IH|assign c next IH|c v next IH|f next IH
    |cases d next IH|next IH|cond dn next IH]; intros stack u w; cbn [run].
  - done.
  - done.
  - apply IH.
  - destruct (op w) as [[a|p] w1]; [apply IH|done].
  - destruct (on_store _ _) as [[[r|]|p] w1]; [|by intros [= <- ->]|done].
    intros [Hu Hs]%IH. by apply orb_false_iff in Hu as [-> _].
  - destruct (on_store _ _) as [[[r|]|p] w1]; [by intros [? _]%IH|by intros [= <- ->]|done].
  - destruct (on_store _ _) as [[[r|]|p] w1]; [apply IH|by intros [= <- ->]|done].
  - destruct (on_store _ _) as [[[[r|] cl]|p] w1]; [|by intros [= <- ->]|done].
    intros [-> Hs]%IH. split; [done|]. intros f Hf. apply Hs. set_solver.
  - destruct stack as [|[waited cl] stack]; [apply IH|].
    destruct (on_store _ _) as [[r|p] w1]; [|done].
    intros [Hu Hs]%IH. apply orb_false_iff in Hu as [-> ->]. split; [done|].
    intros f [->|Hf]%elem_of_cons; [done|by apply Hs].
  - destruct (cond w || canceled dn w); [by intros [? _]%IH|by intros [= <- ->]].
Qed.

(** An operation yields only after it has checked its condition. *)
Lemma run_checked c stack u w k u' :
  sl_end (run c stack u w) = Yields k u' →
  waiting k ∧ let w' := sl_state (run c stack u w) in resume k w' = Slice w' [] (Yields k false).
Proof.
  revert stack u w.
  induction c as [|p|name child IHc next IH|A op next IH|assign c next IH|c v next IH|f next IH
    |cases d next IH|next IH|cond dn next IH]; intros stack u w; cbn [run].
  - done.
  - done.
  - apply IH.
  - destruct (op w) as [[a|p] w1]; [apply IH|done].
  - destruct (on_store _ _) as [[[r|]|p] w1] eqn:E; [apply IH| |done].
    intros [= <- _]. split; [done|]. apply on_store_inv in E as [E _]. cbn [sl_state resume].
    apply (Receive_blocked _ _ (attempts c w1)) in E as [_ E]. by rewrite (on_store_run _ _ _ E).
  - destruct (on_store _ _) as [[[r|]|p] w1] eqn:E; [apply IH| |done].
    intros [= <- _]. split; [done|]. apply on_store_inv in E as [E%Send_blocked _].
    cbn [sl_state resume]. by rewrite (on_store_run _ _ _ E).
  - destruct (on_store _ _) as [[[r|]|p] w1] eqn:E; [apply IH| |done].
    intros [= <- _]. split; [done|]. apply on_store_inv in E as [E%Get_blocked _].
    cbn [sl_state resume]. by rewrite (on_store_run _ _ _ E).
  - destruct (on_store _ _) as [[[[r|] cl]|p] w1] eqn:E; [apply IH| |done].
    intros [= <- _]. split; [done|]. apply on_store_inv in E as [E%Select_blocked _].
    cbn [sl_state resume]. by rewrite (on_store_run _ _ _ E).
  - destruct stack as [|[waited cl] stack]; [apply IH|].
    destruct (on_store _ _) as [[r|p] w1]; [apply IH|done].
  - destruct (cond w || canceled dn w) eqn:E; [apply IH|].
    intros [= <- _]. split; [done|]. cbn [sl_state resume]. by rewrite E.
Qed.

Lemma resume_checked k w k' u :
  sl_end (resume k w) = Yields k' u → waiting k' →
  let w' := sl_state (resume k w) in resume k' w' = Slice w' [] (Yields k' false).
Proof.
  destruct k as [c|c|assign c cell next stack|c v cell next stack|f cell next stack
    |s cases d cl next stack|cond dn next stack]; cbn [resume].
  - by intros [= <- _].
  - intros E _. by eapply run_checked.
  - destruct (on_store _ _) as [[[r|]|p] w1] eqn:E; [intros; by eapply run_checked| |done].
    intros [= <- _] _. apply on_store_inv in E as [E _]. cbn [sl_state resume].
    apply (Receive_resume_blocked _ _ (attempts c w1)) in E as [E _].
    by rewrite (on_store_run _ _ _ E).
  - destruct (on_store _ _) as [[[r|]|p] w1] eqn:E; [intros; by eapply run_checked| |done].
    intros [= <- _] _. apply on_store_inv in E as [E _]. cbn [sl_state resume].
    rewrite <- (Send_resume_blocked _ _ _ _ E) in E at 1. by rewrite (on_store_run _ _ _ E).
  - destruct (on_store _ _) as [[[r|]|p] w1] eqn:E; [intros; by eapply run_checked| |done].
    intros [= <- _] _. apply on_store_inv in E as [E _]. cbn [sl_state resume].
    rewrite <- (Get_resume_blocked _ _ _ _ E) in E at 1. by rewrite (on_store_run _ _ _ E).
  - destruct (on_store _ _) as [[[r|]|p] w1] eqn:E; [intros; by eapply run_checked| |done].
    intros [= <- _] _. apply on_store_inv in E as [E _]. cbn [sl_state resume].
    rewrite <- (Select_resume_blocked _ _ _ E) in E at 1. by rewrite (on_store_run _ _ _ E).
  - destruct (cond w || canceled dn w) eqn:E; [intros; by eapply run_checked|].
    intros [= <- _] _. cbn [sl_state resume]. by rewrite E.
Qed.

(** A calm coroutine that yields again without [unblocked] did nothing. *)
Lemma resume_calm k w k' :
  waiting k → calm k → sl_end (resume k w) = Yields k' false → calm k' →
  resume k w = Slice w [] (Yields k false).
Proof.
  intros Hk [_ Ha] E [Hs _].
  destruct k as [c|c|assign c cell next stack|c v cell next stack|f cell next stack
    |s cases d cl next stack|cond dn next stack]; [done|done|..]; cbn [resume] in *.
  - destruct (on_store _ _) as [[[r|]|p] w1] eqn:Eo; [| |done];
      apply on_store_inv in Eo as [Eo Hn].
    + apply run_silent in E as [E _]. rewrite bool_decide_eq_false in E.
      by apply Receive_resume_assigned in Eo.
    + apply (Receive_resume_blocked _ _ 0) in Eo as [_ Eo].
      by rewrite (wstate_eq _ _ (Eo Ha) Hn).
  - destruct (on_store _ _) as [[[r|]|p] w1] eqn:Eo; [by apply run_silent in E as [? _]| |done].
    apply on_store_inv in Eo as [Eo%Send_resume_blocked Hn]. by rewrite (wstate_eq _ _ Eo Hn).
  - destruct (on_store _ _) as [[[r|]|p] w1] eqn:Eo; [by apply run_silent in E as [? _]| |done].
    apply on_store_inv in Eo as [Eo%Get_resume_blocked Hn]. by rewrite (wstate_eq _ _ Eo Hn).
  - destruct (on_store _ _) as [[[r|]|p] w1] eqn:Eo; [| |done].
    + apply run_silent in E as [_ E]. specialize (E (true, cl) ltac:(set_solver) eq_refl).
      by rewrite Forall_forall in Hs; apply Hs in E.
    + apply on_store_inv in Eo as [Eo%Select_resume_blocked Hn]. by rewrite (wstate_eq _ _ Eo Hn).
  - destruct (cond w || canceled dn w); [by apply run_silent in E as [? _]|done].
Qed.

(** ** Code runs forward *)

(** The codes with which a code can go on. *)
Definition child (c' c : code V) : Prop :=
  match c with
  | coReturn | coPanic _ => False
  | coGo _ spawned next => c' = spawned ∨ c' = next
  | coDo _ next => ∃ a, c' = next a
  | coReceive _ _ next => ∃ r, c' = next r
  | coSend _ _ next | coSelected next => c' = next
  | coGet _ next => ∃ r, c' = next r
  | coSelect _ _ next => ∃ choice, c' = next choice
  | coAwait _ _ next => ∃ b, c' = next b
  end.

Lemma child_wf : well_founded child.
Proof.
  intros c. induction c; constructor; intros c' Hc; cbn [child] in Hc; naive_solver.
Qed.

(** The code that a point belongs to, and how far from its end it is. *)
Definition tree_of k : code V * nat :=
  match k with
  | Entry c => (c, 2)
  | Start c => (c, 1)
  | AtReceive assign c _ next _ => (coReceive assign c next, 0)
  | AtSend c v _ next _ => (coSend c v next, 0)
  | AtGet f _ next _ => (coGet f next, 0)
  | AtSelect _ cases d _ next _ => (coSelect cases d next, 0)
  | AtAwait cond done next _ => (coAwait cond done next, 0)
  end.

Definition before (x y : code V * nat) : Prop := tc child x.1 y.1 ∨ (x.1 = y.1 ∧ x.2 < y.2).
Definition below k' k : Prop := before (tree_of k') (tree_of k).

Lemma below_wf : well_founded below.
Proof.
  apply (wf_projected before tree_of); [by intros x y|]. intros [c n].
  revert n. induction (Acc_tc child c (child_wf c)) as [c _ IH]. intros n.
  induction (lt_wf n) as [n _ IHn]. constructor. intros [c' n'] [Ht|[Hc Hn]]; simpl in *; subst; auto.
Qed.

(** A coroutine that was spawned, or that yields, is at an earlier code. *)
Definition spawned_in c (sp : option string * point V) : Prop :=
  ∃ c', snd sp = Start c' ∧ tc child c' c.
Definition inside c (sl : slice (wstate V) (point V)) : Prop :=
  Forall (spawned_in c) (sl_spawned sl) ∧
  match sl_end sl with
  | Yields k _ => waiting k ∧ (tree_of k).2 = 0 ∧ rtc child (tree_of k).1 c
  | _ => True
  end.

Lemma inside_child c c' sl : child c' c → inside c' sl → inside c sl.
Proof.
  intros Hc [Hs He]. split.
  - eapply Forall_impl; [exact Hs|]. intros sp (c0 & ? & Ht). exists c0. split; [done|]. by eapply tc_r.
  - destruct (sl_end sl); [|done..]. destruct He as (? & ? & Ht). split_and!; [done..|]. by eapply rtc_r.
Qed.

Lemma inside_yield k u w : waiting k → (tree_of k).2 = 0 → inside (tree_of k).1 (Slice w [] (Yields k u)).
Proof. intros Hk Hn. split; [constructor|]. split_and!; [done..|apply rtc_refl]. Qed.

Lemma run_inside c stack u w : inside c (run c stack u w).
Proof.
  revert stack u w.
  induction c as [|p|name spawned IHc next IH|A op next IH|assign c next IH|c v next IH|f next IH
    |cases d next IH|next IH|cond dn next IH]; intros stack u w; cbn [run];
    try (by split; [constructor|]);
    repeat match goal with
    | |- context [match op w with _ => _ end] => destruct (op w) as [[a|p] w1]
    | |- context [on_store ?m ?w] => destruct (on_store m w) as [[?r|p] ?w1]
    | |- context [match ?r with Done _ => _ | Blocked => _ end] => destruct r
    | |- context [match ?r with (_, _) => _ end] => destruct r
    | |- context [match ?stack with [] => _ | _ => _ end] => destruct stack
    | |- context [if ?b then _ else _] => destruct b
    end;
    try (by split; [constructor|]);
    try (by apply inside_yield);
    try (eapply inside_child; [|apply IH]; simpl; by eauto).
  destruct (inside_child (coGo name spawned next) next _ (or_intror eq_refl) (IH stack u w)) as [Hs He].
  split; [|done]. constructor; [|done]. exists spawned. split; [done|]. apply tc_once. by left.
Qed.

(** What a slice leads to: the same point unchanged, or points below it. *)
Definition advances k (sl : slice (wstate V) (point V)) : Prop :=
  Forall (λ sp, below (snd sp) k ∧ ∃ c, snd sp = Start c) (sl_spawned sl) ∧
  match sl_end sl with Yields k' _ => below k' k | _ => True end.

Lemma inside_advances k c sl :
  tc child c (tree_of k).1 ∨ k = Start c → inside c sl → advances k sl.
Proof.
  intros Hc [Hs He]. split.
  - eapply Forall_impl; [exact Hs|]. intros sp (c' & Hsp & Ht). split; [|by exists c'].
    rewrite Hsp. left. destruct Hc as [Hc| ->]; [by eapply tc_trans|done].
  - destruct (sl_end sl) as [k' u| |]; [|done..]. destruct He as (_ & Hn & Hr).
    destruct Hc as [Hc| ->]; [left; by eapply tc_rtc_l|].
    apply rtc_tc in Hr as [Hr|Hr]; [right|by left]. simpl. by rewrite Hn; auto.
Qed.

Lemma resume_advances k w :
  (waiting k ∧ sl_spawned (resume k w) = [] ∧ sl_end (resume k w) = Yields k false)
  ∨ advances k (resume k w).
Proof.
  destruct k as [c|c|assign c cell next stack|c v cell next stack|f cell next stack
    |s cases d cl next stack|cond dn next stack]; cbn [resume].
  - right. split; [constructor|]. right. simpl. auto.
  - right. eapply inside_advances; [by right|apply run_inside].
  - destruct (on_store _ _) as [[[r|]|p] w1]; [right|by left|right; by split; [constructor|]].
    eapply inside_advances; [left; apply tc_once; by exists r|apply run_inside].
  - destruct (on_store _ _) as [[[r|]|p] w1]; [right|by left|right; by split; [constructor|]].
    eapply inside_advances; [left; by apply tc_once|apply run_inside].
  - destruct (on_store _ _) as [[[r|]|p] w1]; [right|by left|right; by split; [constructor|]].
    eapply inside_advances; [left; apply tc_once; by exists r|apply run_inside].
  - destruct (on_store _ _) as [[[r|]|p] w1]; [right|by left|right; by split; [constructor|]].
    eapply inside_advances; [left; apply tc_once; by exists r|apply run_inside].
  - destruct (cond w || canceled dn w); [right|by left].
    eapply inside_advances; [left; apply tc_once; by exists (cond w)|apply run_inside].
Qed.

(** Only the root yields before it runs. *)
Lemma resume_waits k w k' u :
  sl_end (resume k w) = Yields k' u →
  waiting k' ∨ ∃ c, k = Entry c ∧ k' = Start c ∧ resume k w = Slice w [] (Yields k' u).
Proof.
  destruct k; cbn [resume]; intros E; [right; injection E as <- <-; by eexists|left..];
    try (by eapply run_checked in E as [? _]);
    repeat match goal with
    | H : context [on_store ?m ?w] |- _ => destruct (on_store m w) as [[[r|]|p] w1]
    | H : context [if ?b then _ else _] |- _ => destruct b
    end; try (by injection E as <- _); try (by eapply run_checked in E as [? _]); done.
Qed.
End slices.

(** ** Lists that shrink

    An element is replaced by any number of smaller ones; the order of the list does
    not matter. *)
Section shrinking.
Context {A : Type} (R : relation A).

Inductive shrinks (l' l : list A) : Prop :=
| shrink x rest ys : l ≡ₚ x :: rest → l' ≡ₚ ys ++ rest → Forall (λ y, R y x) ys → shrinks l' l.

Lemma shrinks_Permutation l l1 : l ≡ₚ l1 → Acc shrinks l → Acc shrinks l1.
Proof.
  intros Hp [Ha]. constructor. intros l' [x rest ys Hl Hl' Hy]. apply Ha.
  by eapply (shrink _ _ x rest ys); [rewrite Hp|..].
Qed.

Lemma Acc_cons x l :
  (∀ y, R y x → ∀ l, Acc shrinks l → Acc shrinks (y :: l)) →
  Acc shrinks l → Acc shrinks (x :: l).
Proof.
  intros Hx Hl. induction Hl as [l Hl IH]. constructor. intros l' [z rest ys Hz Hl' Hy].
  destruct (proj1 (elem_of_cons rest x z)) as [->|Hin]; [by rewrite <- Hz; left| |].
  - apply (Permutation_cons_inv (l:=l) (l':=rest)) in Hz.
    apply (shrinks_Permutation (ys ++ l)); [by rewrite Hl', Hz|]. clear Hl' Hz.
    induction Hy as [|y ys Hy _ IHy]; [by constructor|]. by apply Hx.
  - apply elem_of_Permutation in Hin as [rest' Hrest]. rewrite Hrest in Hz, Hl'.
    rewrite Permutation_swap in Hz. apply Permutation_cons_inv in Hz.
    apply (shrinks_Permutation (x :: ys ++ rest')); [by rewrite Hl', Permutation_middle|].
    apply IH. by eapply (shrink _ _ z rest' ys).
Qed.

Lemma shrinks_wf : well_founded R → well_founded shrinks.
Proof.
  intros Hwf l. induction l as [|x l IH].
  { constructor. intros l' [x rest ys Hl _ _]. by apply Permutation_nil_cons in Hl. }
  revert l IH. induction (Hwf x) as [x _ IHx]. intros l Hl. by apply Acc_cons.
Qed.
End shrinking.

(** ** The coroutines of a workflow *)

Section system.
Context {V : Type}.
Abbreviation dispatcher := (dispatcherImpl (wstate V) (point V)).
Implicit Types (d : dispatcher) (c : coroutineState (point V)) (k : point V).

(** What happens to the dispatcher of a workflow: a turn of a coroutine, in any
    order; the environment changes the state (a result or a signal arrives); an
    execution begins or ends. *)
Inductive moves d : dispatcher → Prop :=
| move_turn d' : turn resume d d' → moves d d'
| move_event f : moves d (set_coroutines (sequence d) (coroutines d) (f (dp_state d)) d)
| move_executing b : moves d (set_executing b d).

(** The coroutines: the root alone before its function runs, and then those that
    are blocked in an operation or have not started. *)
Definition settled c : Prop :=
  co_closed c = false ∧ if co_started c then waiting (co_code c) else ∃ x, co_code c = Start x.
Definition at_entry c : Prop :=
  co_closed c = false ∧ ∃ x, co_code c = if co_started c then Start x else Entry x.
Definition sound d : Prop :=
  (∃ c, coroutines d = [c] ∧ at_entry c) ∨ Forall settled (coroutines d).

Lemma sound_open d : sound d → Forall open (coroutines d).
Proof.
  intros [(c & -> & Hc & _)|Hall]; [by repeat constructor|].
  eapply Forall_impl; [exact Hall|]. by intros c [? _].
Qed.

Lemma resume_spawns k w : Forall (λ sp, ∃ x, snd sp = Start x) (sl_spawned (resume k w)).
Proof.
  destruct (resume_advances k w) as [(_ & -> & _)|[Hs _]]; [constructor|].
  eapply Forall_impl; [exact Hs|]. by intros sp [_ ?].
Qed.

Lemma born_settled n k w : Forall settled (born n (sl_spawned (resume k w))).
Proof.
  pose proof (resume_spawns k w) as Hs. apply Forall_lookup_2. intros j c Hj.
  unfold born in Hj. rewrite list_lookup_imap in Hj.
  destruct (sl_spawned (resume k w) !! j) as [sp|] eqn:Hsp; [|done]. injection Hj as <-.
  split; [done|]. by apply (Forall_lookup_1 _ _ _ _ Hs Hsp).
Qed.

(** The root that is resumed at its entry runs its function. *)
Lemma entry_runs x w k u :
  sl_end (resume (Start x) w) = Yields k u → waiting k.
Proof. intros [?|(y & ? & _)]%resume_waits; [done|discriminate]. Qed.

Lemma settled_runs c w k u :
  settled c → sl_end (resume (co_code c) w) = Yields k u → waiting k.
Proof.
  intros [_ Hc] [?|(y & Hy & _)]%resume_waits; [done|]. rewrite Hy in Hc.
  destruct (co_started c); [done|]. by destruct Hc.
Qed.

Lemma sound_turn d d' : turn resume d d' → sound d → sound d'.
Proof.
  intros [i c k u Hi E|i c Hi E] Hs.
  - rewrite call_eq in *. cbn zeta. unfold sound. cbn [coroutines].
    set (l := <[i := _]> _). assert (Hl : waiting k → Forall settled (coroutines d) ∨ coroutines d = [c] →
      Forall settled (l ++ born (sequence d) (sl_spawned (resume (co_code c) (dp_state d))))).
    { intros Hk Hd. apply Forall_app. split; [|apply born_settled].
      assert (settled (after_slice (resume (co_code c) (dp_state d)) c)) as Ha
        by (unfold after_slice; rewrite E; by split).
      unfold l. destruct Hd as [Hd| Hd]; [by apply Forall_insert|]. rewrite Hd in Hi |- *.
      destruct i; [|done]. apply Forall_singleton. exact Ha. }
    destruct Hs as [(c0 & Hc & Ho & x & Hx)|Hs].
    + rewrite Hc in Hi. destruct i; [|done]. injection Hi as ->.
      destruct (co_started c) eqn:Hst.
      * right. apply Hl; [|by right]. rewrite Hx in E. by eapply entry_runs.
      * left. unfold l. rewrite Hc, Hx in *. injection E as <- <-. eexists. split; [reflexivity|].
        split; [done|]. by exists x.
    + right. apply Hl; [|by left]. eapply settled_runs; [|exact E]. by eapply Forall_lookup_1.
  - right. rewrite coroutines_removed by done. destruct Hs as [(c0 & Hc & _)|Hs].
    + rewrite Hc in *. destruct i; [|done]. apply born_settled.
    + apply Forall_delete, Forall_app. split; [done|apply born_settled].
Qed.

Lemma moves_sound root w d : rtc moves (Execute root w) d → sound d.
Proof.
  intros Hm. assert (sound (Execute root w)) as Hs
    by (left; eexists; split; [reflexivity|]; split; [done|]; by exists root).
  induction Hm as [|d1 d2 d3 [d' Ht|f|b] _ IH]; [done| | |]; apply IH; [by eapply sound_turn|exact Hs..].
Qed.

(** ** No lost wake-up *)

(** A coroutine that cannot make progress in the state [w]: called, it finds its
    condition unchanged and yields. *)
Definition stuck (w : wstate V) c : Prop :=
  co_started c = true ∧ keptBlocked c = true ∧ co_closed c = false ∧
  panicError c = None ∧ resume (co_code c) w = Slice w [] (Yields (co_code c) false).

Lemma after_stuck d c k :
  co_started c = true → sl_end (resume (co_code c) (dp_state d)) = Yields k false → waiting k →
  stuck (sl_state (resume (co_code c) (dp_state d))) (after_slice (resume (co_code c) (dp_state d)) c).
Proof.
  intros Hs E Hk. unfold after_slice. rewrite E, Hs. split_and!; try done.
  by eapply resume_checked.
Qed.

Section patient.
Context (root : code V) (w0 : wstate V).

Definition reached d : Prop := rtc moves (Execute root w0) d.
(** In no state that the workflow can reach is a coroutine blocked inside a function
    of [Select] that waited, nor does one receive with a type that some value does
    not fit. *)
Definition patient : Prop := ∀ d, reached d → Forall (λ c, calm (co_code c)) (coroutines d).
Context (Hpatient : patient).

Lemma reached_turn d d' : reached d → turn resume d d' → reached d'.
Proof. intros Hr Ht. eapply rtc_r; [exact Hr|]. by constructor. Qed.

(** While a round has seen no progress, the coroutines already called in it are
    stuck in the state of the workflow as it still is. *)
Definition round_inv i (ab : bool) ls d : Prop :=
  reached d ∧ ls ≤ sequence d ∧
  (ab = true → ls = sequence d → ∀ j c, j < i → coroutines d !! j = Some c → stuck (dp_state d) c).

Lemma round_inv_call i ab ls d c k u :
  round_inv i ab ls d → coroutines d !! i = Some c →
  sl_end (resume (co_code c) (dp_state d)) = Yields k u →
  round_inv (i + 1) (ab && (co_started c && negb u)) ls (call resume i c d).
Proof.
  intros (Hr & Hls & Hst) Hi E. assert (Hr' : reached (call resume i c d))
    by (eapply reached_turn; [exact Hr|by econstructor]).
  split; [done|]. split; [rewrite call_eq; simpl; lia|].
  intros Hab Hseq j cj Hj Hcj. apply andb_true_iff in Hab as [-> Hu].
  apply andb_true_iff in Hu as [Hs Hu]. destruct u; [done|].
  rewrite call_eq in Hseq, Hcj |- *. cbn [sequence coroutines dp_state] in *.
  assert (sl_spawned (resume (co_code c) (dp_state d)) = []) as Hsp by (apply nil_length_inv; lia).
  rewrite Hsp in Hcj. unfold born in Hcj. cbn [imap] in Hcj. rewrite app_nil_r in Hcj.
  destruct (moves_sound _ _ _ Hr) as [(c0 & Hc & Ho & x & Hx)|Hall].
  - rewrite Hc in *. destruct i; [|done]. injection Hi as ->. rewrite Hs in Hx.
    destruct j; [|lia]. injection Hcj as <-. apply (after_stuck d c k Hs E).
    rewrite Hx in E. by eapply entry_runs.
  - pose proof (Forall_lookup_1 _ _ _ _ Hall Hi) as Hset.
    pose proof (settled_runs c _ k false Hset E) as Hk.
    assert (resume (co_code c) (dp_state d) = Slice (dp_state d) [] (Yields (co_code c) false)) as Hsame.
    { apply (resume_calm _ _ k); [by destruct Hset as [_ Hw]; rewrite Hs in Hw| |done|].
      - apply (Forall_lookup_1 _ _ _ _ (Hpatient d Hr) Hi).
      - pose proof (Hpatient _ Hr') as Hc'. rewrite call_eq in Hc'. cbn [coroutines] in Hc'.
        apply Forall_app in Hc' as [Hc' _]. apply lookup_lt_Some in Hi as Hlt.
        pose proof (Forall_lookup_1 _ _ i _ Hc' (list_lookup_insert_eq _ _ _ Hlt)) as Hck.
        unfold after_slice in Hck. by rewrite E in Hck. }
    destruct (decide (j = i)) as [->|Hne].
    + apply lookup_lt_Some in Hi as Hlt. rewrite list_lookup_insert_eq in Hcj by done.
      injection Hcj as <-. by apply (after_stuck d c k).
    + rewrite list_lookup_insert_ne in Hcj by done. rewrite Hsame. cbn [sl_state].
      apply (Hst eq_refl ltac:(lia) j); [lia|done].
Qed.

Lemma round_inv_start d : reached d → round_inv 0 true (sequence d) d.
Proof. intros H. split_and!; [done|done|]. intros; lia. Qed.

Lemma execute_stuck n i ab ls d d' :
  round_inv i ab ls d → execute resume n i ab ls d = (Ret None, d') →
  Forall (stuck (dp_state d')) (coroutines d').
Proof.
  revert i ab ls d. induction n as [|n IH]; intros i ab ls d Hinv Hex; [done|].
  pose proof Hinv as (Hr & Hls & Hst).
  destruct (coroutines d !! i) as [c|] eqn:Hi.
  - pose proof (Forall_lookup_1 _ _ _ _ (sound_open _ (moves_sound _ _ _ Hr)) Hi) as Ho.
    rewrite (execute_call resume n i ab ls d c Hi Ho) in Hex.
    destruct (sl_end _) as [k u| |p] eqn:E; [|eapply IH, Hex|done].
    + eapply IH, Hex. by eapply round_inv_call.
    + split_and!; [eapply reached_turn; [exact Hr|by apply turn_returns]| |done].
      unfold remove. rewrite call_eq. simpl. lia.
  - rewrite execute_end in Hex by done. case_decide as Hd.
    + simplify_eq. destruct Hd as [->|[-> ->]]; [constructor|].
      apply Forall_lookup_2. intros j c Hj. apply (Hst eq_refl eq_refl j c); [|done].
      apply lookup_lt_Some in Hj. apply lookup_ge_None_1 in Hi. lia.
    + eapply IH, Hex. by apply round_inv_start.
Qed.

(** Calling stuck coroutines changes nothing, not even their flags. *)
Lemma call_stuck i c d :
  coroutines d !! i = Some c → stuck (dp_state d) c → call resume i c d = d.
Proof.
  intros Hi (Hs & Hk & Hc & Hp & R). rewrite call_eq, R; cbn -[born].
  unfold after_slice; simpl. rewrite Hs; simpl. unfold born; simpl.
  rewrite app_nil_r, Nat.add_0_r. destruct d, c; simpl in *; subst.
  by rewrite list_insert_id.
Qed.

Lemma execute_all_stuck n i d :
  Forall (stuck (dp_state d)) (coroutines d) → i ≤ length (coroutines d) →
  length (coroutines d) - i < n → execute resume n i true (sequence d) d = (Ret None, d).
Proof.
  intros Hall. revert i. induction n as [|n IH]; intros i Hi Hn; [lia|].
  destruct (coroutines d !! i) as [c|] eqn:Hci.
  - pose proof (Forall_lookup_1 _ _ _ _ Hall Hci) as Hs.
    rewrite (execute_call resume n i true _ d c Hci) by apply Hs.
    rewrite (call_stuck i c d Hci Hs). destruct Hs as (Hs & _ & _ & _ & ->); simpl.
    rewrite Hs. apply lookup_lt_Some in Hci. apply IH; lia.
  - rewrite execute_end by done. rewrite decide_True by auto. done.
Qed.

(** C15: No wake-up is lost.  When [ExecuteUntilAllBlocked] returns nil, every
    coroutine that has not ended is blocked in an operation, and checking its
    condition in the final state of the workflow would not unblock it; so executing
    again at once returns nil and changes nothing.  This is for any workflow code
    made of the blocking operations of the package and any others that do not block,
    in every state that it can reach however results and signals arrive, provided
    that no coroutine ever blocks inside a function of a [Select] that waited and
    that values always fit the type they are received with ([patient]). *)
Theorem execution_quiescent fuel d d' :
  reached d → DispatcherProps.ready d →
  ExecuteUntilAllBlocked resume fuel d = (Ret (Some None), d') →
  Forall (stuck (dp_state d')) (coroutines d') ∧
  ∀ n, length (coroutines d') < n → ExecuteUntilAllBlocked resume n d' = (Ret (Some None), d').
Proof.
  intros Hre Hr Hex. apply Execute_inv in Hex as (d1 & Hex & ->); [|done].
  assert (reached (set_executing true d)) as Hre' by (eapply rtc_r; [exact Hre|constructor]).
  pose proof (execute_stuck _ _ _ _ _ _ (round_inv_start (set_executing true d) Hre') Hex) as Hst.
  pose proof (ready_executed _ _ _ _ _ _ _ _ Hr Hex) as Hr'.
  split; [exact Hst|]. intros n Hn.
  assert (Hx : executing d1 = true)
    by (by rewrite <- (proj1 (execute_flags _ _ _ _ _ _ _ _ Hex))).
  apply (Execute_ready _ n (set_executing false d1) None d1 Hr').
  replace (set_executing true (set_executing false d1)) with d1
    by (destruct d1; unfold set_executing; simpl in *; by subst).
  apply (execute_all_stuck n 0 d1); [done|lia|simpl in Hn; lia].
Qed.
End patient.

(** ** Termination *)

Definition points d : list (point V) := co_code <$> coroutines d.

(** Steps left if no coroutine makes progress any more. *)
Definition pending i (ab : bool) ls d : nat :=
  (length (coroutines d) - i) +
  (if decide (ab = true ∧ ls = sequence d) then 0 else 1 + length (coroutines d)).

Lemma points_born n (sps : list (option string * point V)) :
  (@co_code (point V)) <$> born n sps = sps.*2.
Proof.
  apply list_eq. intros j. unfold born.
  rewrite !list_lookup_fmap, list_lookup_imap. by destruct (sps !! j).
Qed.

Lemma advances_below k k' u (sl : slice (wstate V) (point V)) :
  advances k sl → sl_end sl = Yields k' u → Forall (λ y, below y k) (k' :: (sl_spawned sl).*2).
Proof.
  intros [Hs He] E. rewrite E in He. constructor; [done|].
  apply Forall_fmap. eapply Forall_impl; [exact Hs|]. by intros sp [? _].
Qed.

(** A call that yields leaves everything as it was and the coroutine blocked, or
    shrinks the codes that are left to run. *)
Lemma call_shrinks i c d k u :
  sound d → coroutines d !! i = Some c →
  sl_end (resume (co_code c) (dp_state d)) = Yields k u →
  (co_started c && negb u = true ∧ points (call resume i c d) = points d ∧
   sequence (call resume i c d) = sequence d)
  ∨ shrinks below (points (call resume i c d)) (points d).
Proof.
  intros Hs Hi E. rewrite call_eq. unfold points. cbn [coroutines sequence].
  rewrite fmap_app, points_born, list_fmap_insert.
  replace (co_code (after_slice _ c)) with k by (unfold after_slice; by rewrite E).
  assert (Hp : points d !! i = Some (co_code c)) by (unfold points; by rewrite list_lookup_fmap, Hi).
  destruct (resume_advances (co_code c) (dp_state d)) as [(Hw & Hsp & E')|Ha].
  - left. rewrite E in E'. injection E' as -> ->. rewrite Hsp, Nat.add_0_r. cbn [fmap list_fmap].
    rewrite app_nil_r, list_insert_id by done. split; [|done]. rewrite andb_true_r.
    destruct Hs as [(c0 & Hc & _ & x & Hx)|Hall].
    + rewrite Hc in Hi. destruct i; [|done]. injection Hi as ->. rewrite Hx in Hw.
      by destruct (co_started c).
    + pose proof (Forall_lookup_1 _ _ _ _ Hall Hi) as [_ Hc]. destruct (co_started c); [done|].
      destruct Hc as [x Hx]. by rewrite Hx in Hw.
  - right. apply (shrink _ _ _ (co_code c) (delete i (points d)) (k :: (sl_spawned (resume (co_code c) (dp_state d))).*2)).
    + by apply delete_Permutation.
    + apply lookup_lt_Some in Hp as Hlt. fold (points d).
      rewrite insert_take_drop, delete_take_drop by done. rewrite <- !app_assoc. simpl.
      rewrite <- Permutation_middle. constructor. rewrite (Permutation_app_comm (_.*2)).
      by rewrite <- app_assoc.
    + by eapply advances_below.
Qed.

Lemma removed_shrinks i c d :
  coroutines d !! i = Some c → sl_end (resume (co_code c) (dp_state d)) = Returns →
  shrinks below (points (remove i (call resume i c d))) (points d).
Proof.
  intros Hi E. unfold points. rewrite coroutines_removed by done.
  rewrite list_fmap_delete, fmap_app, points_born.
  assert (Hp : points d !! i = Some (co_code c)) by (unfold points; by rewrite list_lookup_fmap, Hi).
  apply lookup_lt_Some in Hp as Hlt. fold (points d).
  apply (shrink _ _ _ (co_code c) (delete i (points d)) ((sl_spawned (resume (co_code c) (dp_state d))).*2)).
  - by apply delete_Permutation.
  - rewrite !delete_take_drop, take_app_le, drop_app_le by lia.
    by rewrite (assoc_L (++)), Permutation_app_comm.
  - destruct (resume_advances (co_code c) (dp_state d)) as [(_ & _ & E')|[Hs _]]; [by rewrite E in E'|].
    apply Forall_fmap. eapply Forall_impl; [exact Hs|]. by intros sp [? _].
Qed.

Lemma execute_terminates d i ab ls :
  sound d → i ≤ length (coroutines d) →
  ∃ n0 r d', ∀ n, n0 ≤ n → execute resume n i ab ls d = (Ret r, d').
Proof.
  remember (points d) as e eqn:He. revert d He i ab ls.
  induction (shrinks_wf below below_wf e) as [e _ IHe]. intros d He i ab ls.
  remember (pending i ab ls d) as q eqn:Hq. revert d He i ab ls Hq.
  induction (lt_wf q) as [q _ IHq]. intros d He i ab ls Hq Hall Hlen.
  assert (Hnext : ∀ n1 r d' (f : nat → outcome (option panic) * dispatcher),
    (∀ n, execute resume (S n) i ab ls d = f n) → (∀ n, n1 ≤ n → f n = (Ret r, d')) →
    ∃ n0 r d', ∀ n, n0 ≤ n → execute resume n i ab ls d = (Ret r, d')).
  { intros n1 r d' f Hf H. exists (S n1), r, d'. intros [|n] Hn; [lia|]. rewrite Hf. apply H. lia. }
  destruct (coroutines d !! i) as [c|] eqn:Hi.
  - pose proof (Forall_lookup_1 _ _ _ _ (sound_open _ Hall) Hi) as Ho.
    apply lookup_lt_Some in Hi as Hlt.
    pose proof (λ n, execute_call resume n i ab ls d c Hi Ho) as Hstep.
    destruct (sl_end _) as [k u| |p] eqn:E.
    + assert (Hs' : sound (call resume i c d))
        by (eapply sound_turn; [by econstructor|done]).
      assert (Hlen' : i + 1 ≤ length (coroutines (call resume i c d)))
        by (pose proof (length_call resume i c d Hlt); lia).
      destruct (call_shrinks i c d k u Hall Hi E) as [(Hpr & Hpts & Hsq)|Hsh].
      * destruct (IHq (pending (i + 1) (ab && (co_started c && negb u)) ls (call resume i c d)))
          with (d := call resume i c d) (i := i + 1) (ab := ab && (co_started c && negb u)) (ls := ls)
          as (n0 & r & d' & H); [|congruence|done|done|done|exact (Hnext n0 r d' _ Hstep H)].
        apply (f_equal length) in Hpts. unfold points in Hpts. rewrite !length_fmap in Hpts.
        subst q. unfold pending. rewrite Hpts, Hsq, Hpr, andb_true_r. lia.
      * destruct (IHe _ ltac:(subst e; exact Hsh) _ eq_refl (i + 1) (ab && (co_started c && negb u)) ls)
          as (n0 & r & d' & H); [done..|exact (Hnext n0 r d' _ Hstep H)].
    + destruct (IHe _ ltac:(subst e; exact (removed_shrinks i c d Hi E)) _ eq_refl i false ls)
        as (n0 & r & d' & H); [eapply sound_turn; [by apply turn_returns|done]| |exact (Hnext n0 r d' _ Hstep H)].
      unfold remove. rewrite call_eq; simpl.
      rewrite !length_app, length_take, length_drop, !length_app, length_insert. lia.
    + exact (Hnext 0 _ _ _ Hstep (λ _ _, eq_refl)).
  - pose proof (λ n, execute_end resume n i ab ls d Hi) as Hstep. case_decide as Hd.
    + exact (Hnext 0 _ _ _ Hstep (λ _ _, eq_refl)).
    + destruct (IHq (pending 0 true (sequence d) d)) with (d := d) (i := 0) (ab := true)
        (ls := sequence d) as (n0 & r & d' & H); [|done..|lia|exact (Hnext n0 r d' _ Hstep H)].
      subst q. unfold pending. rewrite (decide_True (P := true = true ∧ _)) by done.
      rewrite decide_False by tauto. lia.
Qed.

(** C20: [ExecuteUntilAllBlocked] terminates: for any workflow code made of the
    blocking operations of the package and any others that do not block, every run
    of which is finite, and in every state that it can reach, the two loops of the
    dispatcher end, whatever coroutines are spawned, return or panic meanwhile, and
    the dispatcher is ready for the next execution. *)
Theorem execution_terminates root w d :
  reached root w d → DispatcherProps.ready d →
  ∃ n0 r d', DispatcherProps.ready d' ∧
    ∀ n, n0 ≤ n → ExecuteUntilAllBlocked resume n d = (Ret (Some r), d').
Proof.
  intros Hre Hr. destruct (execute_terminates (set_executing true d) 0 true (sequence d)
    (moves_sound _ _ _ Hre) (Nat.le_0_l _)) as (n0 & r & d' & H).
  exists n0, r, (set_executing false d'). split.
  - apply (ready_executed resume n0 0 true (sequence d) d r d' Hr). by apply H.
  - intros n Hn. by apply Execute_ready, H.
Qed.
End system.

(** ** Functions of [Select] that do not block

    A condition on the text of workflow code under which it is [patient]: between
    [coSelect] and [coSelected] there is no operation that can block, and values are
    received with a type that they all fit.  [depth] is the number of calls of
    [Select] that the code is in. *)
Section mild.
Context {V : Type}.

Fixpoint mild (depth : nat) (c : code V) : Prop :=
  match c with
  | coReturn | coPanic _ => True
  | coGo _ child next => mild 0 child ∧ mild depth next
  | coDo _ next => ∀ a, mild depth (next a)
  | coReceive assign _ next => depth = 0 ∧ (∀ v, assign v = true) ∧ ∀ r, mild 0 (next r)
  | coSend _ _ next => depth = 0 ∧ mild 0 next
  | coGet _ next => depth = 0 ∧ ∀ r, mild 0 (next r)
  | coSelect _ _ next => depth = 0 ∧ ∀ choice, mild 1 (next choice)
  | coSelected next => mild (pred depth) next
  | coAwait _ _ next => depth = 0 ∧ ∀ b, mild 0 (next b)
  end.

Definition mild_at (k : point V) : Prop :=
  stack_of k = [] ∧ mild 0 (tree_of k).1.

Lemma mild_calm k : mild_at k → calm k.
Proof.
  intros [Hs Hm]. split; [rewrite Hs; constructor|]. destruct k; try done. by destruct Hm as (_ & ? & _).
Qed.

Definition mild_slice (sl : slice (wstate V) (point V)) : Prop :=
  Forall (λ sp, mild_at (snd sp)) (sl_spawned sl) ∧
  match sl_end sl with Yields k _ => mild_at k | _ => True end.

Lemma run_mild c stack u w : mild (length stack) c → mild_slice (run c stack u w).
Proof.
  revert stack u w.
  induction c as [|p|name child IHc next IH|A op next IH|assign c next IH|c v next IH|f next IH
    |cases d next IH|next IH|cond dn next IH]; intros stack u w Hm; cbn [run mild] in *;
    try (by split; [constructor|]).
  - destruct Hm as [Hc Hn]. destruct (IH stack u w Hn) as [Hs He]. split; [|done].
    by constructor; [split|].
  - destruct (op w) as [[a|p] w1]; [by apply IH|by split; [constructor|]].
  - destruct Hm as (->%nil_length_inv & Ha & Hn).
    destruct (on_store _ _) as [[[r|]|p] w1]; [by apply IH|by split; [constructor|]..].
  - destruct Hm as (->%nil_length_inv & Hn).
    destruct (on_store _ _) as [[[r|]|p] w1]; [by apply IH|by split; [constructor|]..].
  - destruct Hm as (->%nil_length_inv & Hn).
    destruct (on_store _ _) as [[[r|]|p] w1]; [by apply IH|by split; [constructor|]..].
  - destruct Hm as (->%nil_length_inv & Hn).
    destruct (on_store _ _) as [[[[r|] cl]|p] w1]; [by apply IH|by split; [constructor|]..].
  - destruct stack as [|[waited cl] stack]; [by apply IH|].
    destruct (on_store _ _) as [[r|p] w1]; [by apply IH|by split; [constructor|]].
  - destruct Hm as (->%nil_length_inv & Hn).
    destruct (_ || _); [by apply IH|by split; [constructor|]].
Qed.

Lemma resume_mild k w : mild_at k → mild_slice (resume k w).
Proof.
  intros [Hs Hm]. destruct k as [c|c|assign c cell next stack|c v cell next stack|f cell next stack
    |s cases d cl next stack|cond dn next stack]; cbn [resume stack_of tree_of fst mild] in *; subst.
  - by split; [constructor|].
  - by apply run_mild.
  - destruct (on_store _ _) as [[[r|]|p] w1]; [apply run_mild, Hm|by split; [constructor|]..].
  - destruct (on_store _ _) as [[[r|]|p] w1]; [apply run_mild, Hm|by split; [constructor|]..].
  - destruct (on_store _ _) as [[[r|]|p] w1]; [apply run_mild, Hm|by split; [constructor|]..].
  - destruct (on_store _ _) as [[[r|]|p] w1]; [apply run_mild, Hm|by split; [constructor|]..].
  - destruct (_ || _); [apply run_mild, Hm|by split; [constructor|]].
Qed.

Lemma mild_born n (sps : list (option string * point V)) :
  Forall (λ sp, mild_at (snd sp)) sps → Forall (λ c, mild_at (co_code c)) (born n sps).
Proof.
  intros Hs. rewrite <- (Forall_fmap (@co_code (point V)) mild_at), points_born. by apply Forall_fmap.
Qed.

Lemma mild_patient root w : mild 0 root → patient root w.
Proof.
  intros Hm d Hd. assert (Forall (λ c, mild_at (co_code c)) (coroutines d)) as Hall.
  2: { eapply Forall_impl; [exact Hall|]. intros c. apply mild_calm. }
  assert (Forall (λ c, mild_at (co_code c)) (coroutines (Execute root w))) as H0
    by (by apply Forall_singleton).
  induction Hd as [|d1 d2 d3 Hmv _ IH]; [done|]. apply IH. clear IH.
  destruct Hmv as [d' Ht|f|b]; [|exact H0..]. destruct Ht as [i c k u Hi E|i c Hi E].
  - destruct (resume_mild (co_code c) (dp_state d1) (Forall_lookup_1 _ _ _ _ H0 Hi)) as [Hs He].
    rewrite call_eq; cbn [coroutines]. rewrite E in He. apply Forall_app.
    split; [|by apply mild_born]. apply Forall_insert; [done|]. unfold after_slice. by rewrite E.
  - destruct (resume_mild (co_code c) (dp_state d1) (Forall_lookup_1 _ _ _ _ H0 Hi)) as [Hs _].
    rewrite coroutines_removed by done. apply Forall_delete, Forall_app. auto using mild_born.
Qed.
End mild.

(** ** Sample workflows *)
Module SampleWorkflow.

Definition empty : wstate nat := WState (Store ∅ ∅ ∅ ∅ ∅) 0.

(** The root spawns a consumer of the channel 0, sends it a value and waits for
    another one, or for the future 0. *)
Definition exchange : code nat :=
  coDo (on_store (NewChannel 0;; NewFuture 0 1)) (λ _,
  coGo (Some "consumer") (coReceive any_value 0 (λ _, coReceive any_value 0 (λ _, coReturn)))
  (coSend 0 (Some 7) (coSelect [caseReceive 0; caseFuture 0 true] false (λ _, coSelected coReturn)))).

Lemma exchange_patient : patient exchange empty.
Proof. apply mild_patient. intros []. by repeat split. Qed.

Abbreviation started := (Execute exchange empty).
Abbreviation ended := (snd (ExecuteUntilAllBlocked resume 20 started)).

(** Both coroutines are left blocked. *)
Lemma execution_quiescent_witness :
  length (coroutines ended) = 2 ∧ patient exchange empty ∧ DispatcherProps.ready started ∧
  Forall (stuck (dp_state ended)) (coroutines ended) ∧
  ∀ n, length (coroutines ended) < n →
    ExecuteUntilAllBlocked resume n ended = (Ret (Some None), ended).
Proof.
  split; [vm_compute; reflexivity|]. split; [exact exchange_patient|].
  split; [by split_and!|].
  apply (execution_quiescent exchange empty exchange_patient 20 started).
  - apply rtc_refl.
  - by split_and!.
  - assert (fst (ExecuteUntilAllBlocked resume 20 started) = Ret (Some None)) as <-
      by (vm_compute; reflexivity).
    apply surjective_pairing.
Defined.

Lemma execution_terminates_witness :
  ∃ n0 r d', DispatcherProps.ready d' ∧
    ∀ n, n0 ≤ n → ExecuteUntilAllBlocked resume n started = (Ret (Some r), d').
Proof.
  apply (execution_terminates exchange empty started).
  - apply rtc_refl.
  - by split_and!.
Defined.

(** A function of [Select] that blocks.  The root waits for a value of the channel
    0; a second coroutine waits in [Select] for the future 0, and its function sends
    that value and then waits for the future 1. *)
Definition blocking_function : code nat :=
  coDo (on_store (NewBufferedChannel 0 1;; NewFuture 0 1;; NewFuture 1 2)) (λ _,
  coGo None
    (coSelect [caseFuture 0 true] false (λ _,
       coDo (on_store (SendAsync 0 (Some 7))) (λ _, coGet 1 (λ _, coSelected coReturn))))
    (coReceive any_value 0 (λ _, coReturn))).

Definition set_future (f : nat) (w : wstate nat) : wstate nat :=
  snd (on_store (SetValue 2 f (Some 1)) w).
Definition with_state (f : wstate nat → wstate nat) (d : dispatcherImpl (wstate nat) (point nat)) :=
  set_coroutines (sequence d) (coroutines d) (f (dp_state d)) d.

(** The future is set; [ExecuteUntilAllBlocked] returns while the root has its
    value, because [Select] calls [unblocked] only after its function; the next
    execution ends the root. *)
Example select_function_loses_wakeup :
  let d1 := snd (ExecuteUntilAllBlocked resume 20 (Execute blocking_function empty)) in
  let '(r2, d2) := ExecuteUntilAllBlocked resume 20 (with_state (set_future 0) d1) in
  let '(r3, d3) := ExecuteUntilAllBlocked resume 20 d2 in
  r2 = Ret (Some None) ∧ r3 = Ret (Some None) ∧
  length (coroutines d2) = 2 ∧ length (coroutines d3) = 1.
Proof. vm_compute. split_and!; reflexivity. Qed.

End SampleWorkflow.
