(* ===== verification/WaitGroup.v ===== *)
(** * Wait groups

    internal/internal_workflow.go, lines 77-83 and 1459-1505, and [NewWaitGroup]
    of internal/workflow.go: a counter that one coroutine waits for, built on a
    future of Channels.v.  The values of the store are booleans: the only value
    set is the [false] that ends the wait. *)

From stdpp Require Import base list gmap strings.
From Stdlib Require Import ZArith Lia.
From S2P Require Import Prelude.
From S2P Require Import Channels.
From S2P Require Import ChannelsProps.

Record waitGroupImpl := WaitGroup {
  wg_n : Z;          (** the number of coroutines to wait on *)
  wg_waiting : bool; (** whether [Wait] has been called yet *)
  wg_future : nat    (** the future, and its [settable] *) }.

(** A wait group and the store its future lives in. *)
Abbreviation bstore := (store (V:=bool)).
Abbreviation gstate := (waitGroupImpl * bstore)%type.

Definition group (f : waitGroupImpl → waitGroupImpl) : M gstate unit :=
  modify (λ s, (f (fst s), snd s)).
(** An operation on the store. *)
Definition lift {A} (c : M bstore A) : M gstate A :=
  λ s, let '(o, w) := c (snd s) in (o, (fst s, w)).

Definition set_wg_n x g := WaitGroup x (wg_waiting g) (wg_future g).
Definition set_wg_waiting x g := WaitGroup (wg_n g) x (wg_future g).
Definition set_wg_future x g := WaitGroup (wg_n g) (wg_waiting g) x.

(** The identities of the new future and of its channel are arguments. *)
Definition NewWaitGroup (f c : nat) : M gstate unit :=
  lift (NewFuture f c);; group (λ _, WaitGroup 0 false f).

Section wait_group.
Context (fuel : nat).

Definition Add (delta : Z) : M gstate unit :=
  group (λ g, set_wg_n (int64 (wg_n g + delta)) g);;
  s ← get;
  let g := fst s in
  if bool_decide (wg_n g < 0)%Z then throw (StringPanic "negative WaitGroup counter")
  else if bool_decide (wg_n g > 0)%Z || negb (wg_waiting g) then mret tt
  else if bool_decide (wg_n g = 0)%Z then lift (Set_ fuel (wg_future g) (Some false) None)
  else mret tt.

Definition Done_ : M gstate unit := Add (-1).

(** What follows [Get] in [Wait]: [Get] stores the value into [wg.waiting], and
    the group gets a new future. *)
Definition Wait_return (f c : nat) (r : progress (option bool * option string))
    : M gstate (progress unit) :=
  match r with
  | Blocked => mret Blocked
  | Done (_, Some err) => throw (ErrorPanic err)
  | Done (v, None) =>
      match v with Some b => group (set_wg_waiting b) | None => mret tt end;;
      lift (NewFuture f c);;
      group (set_wg_future f);;
      mret (Done tt)
  end.

(** [k] is the cell of this call, [f] and [c] the identities of the next future. *)
Definition Wait (k f c : nat) : M gstate (progress unit) :=
  s ← get;
  let g := fst s in
  if bool_decide (wg_n g <= 0)%Z then mret (Done tt)
  else if wg_waiting g then
    throw (StringPanic "WaitGroup is reused before previous Wait has returned")
  else
    group (set_wg_waiting true);;
    r ← lift (Get fuel (wg_future g) k);
    Wait_return f c r.

(** The coroutine blocked in [Wait] when it is called again. *)
Definition Wait_resume (k f c : nat) : M gstate (progress unit) :=
  s ← get;
  r ← lift (Get_resume fuel (wg_future (fst s)) k);
  Wait_return f c r.

(** Calls of [Add] by the other coroutines, in order. *)
Fixpoint Adds (ds : list Z) : M gstate unit :=
  match ds with [] => mret tt | d :: ds => Add d;; Adds ds end.

End wait_group.

(** ** The counter *)

(** The counter stays positive, and in the range of [int], over the calls. *)
Fixpoint stays_positive (n : Z) (ds : list Z) : Prop :=
  match ds with
  | [] => True
  | d :: ds => (0 < n + d < 2 ^ 63)%Z ∧ stays_positive (n + d) ds
  end.
Definition total (ds : list Z) : Z := foldr Z.add 0%Z ds.

(** A fresh future, with nobody waiting. *)
Definition idle (s : gstate) : Prop :=
  let '(g, w) := s in
  wg_waiting g = false ∧ ∃ c, futures w !! wg_future g = Some (Future None None false c [])
    ∧ channels w !! c = Some (Channel 0 [] [] [] false None).

(** A coroutine waits, with cell [k]. *)
Definition awaited (k : nat) (s : gstate) : Prop :=
  let '(g, w) := s in
  wg_waiting g = true ∧ (0 < wg_n g)%Z ∧
  ∃ c ch, futures w !! wg_future g = Some (Future None None false c []) ∧
    channels w !! c = Some ch ∧ closed ch = false ∧ signal_only ch ∧
    rcvCell k ∈ blockedReceives ch ∧ cells w !! k = Some (Cell false (None : option bool) false).

(** The wait is over; the coroutine has not been called yet. *)
Definition released (k : nat) (s : gstate) : Prop :=
  let '(g, w) := s in
  wg_waiting g = true ∧ wg_n g = 0%Z ∧
  ∃ c, futures w !! wg_future g = Some (Future (Some false) None true c []) ∧
    cells w !! k = Some (Cell true (None : option bool) false).

Lemma Add_positive fuel d g w :
  in_int64 (wg_n g + d) → (0 < wg_n g + d)%Z →
  Add fuel d (g, w) = (Ret tt, (set_wg_n (wg_n g + d) g, w)).
Proof.
  intros Hr Hp. unfold Add, group. run. simpl. rewrite int64_id by done.
  rewrite bool_decide_false, bool_decide_true by lia. done.
Qed.

Lemma Add_negative fuel d g w :
  in_int64 (wg_n g + d) → (wg_n g + d < 0)%Z →
  Add fuel d (g, w) = (Panic (StringPanic "negative WaitGroup counter"), (set_wg_n (wg_n g + d) g, w)).
Proof.
  intros Hr Hp. unfold Add, group. run. simpl. rewrite int64_id by done.
  rewrite bool_decide_true by lia. done.
Qed.

Lemma Add_zero fuel d g w :
  wg_waiting g = true → (wg_n g + d = 0)%Z →
  Add fuel d (g, w) = lift (Set_ fuel (wg_future g) (Some false) None) (set_wg_n 0 g, w).
Proof.
  intros Hw Hz. unfold Add, group. run. simpl. rewrite Hz. change (int64 0) with 0%Z. by rewrite Hw.
Qed.

(** [Done] of the last coroutine sets the future. *)
Lemma Add_releases fuel k d g w :
  awaited k (g, w) → (wg_n g + d = 0)%Z →
  ∃ w', Add (S fuel) d (g, w) = (Ret tt, (set_wg_n 0 g, w')) ∧ released k (set_wg_n 0 g, w').
Proof.
  intros (Hw & Hn & c & ch & Hf & Hc & Hcl & Hs & Hin & Hk) Hz.
  rewrite (Add_zero _ _ _ _ Hw Hz). unfold lift. cbn [fst snd].
  destruct (Set_run fuel (wg_future g) _ ch w (Some false) None Hf eq_refl eq_refl Hc Hs)
    as (w' & ch' & Hset & Hf' & _ & _ & _ & Hcells).
  rewrite Hset.
  exists w'. split; [done|]. split_and!; [done|done|]. exists c. split; [|by apply Hcells].
  simpl. rewrite Hf'. by rewrite lookup_insert_eq.
Qed.

Lemma Adds_positive fuel ds g w :
  stays_positive (wg_n g) ds →
  Adds fuel ds (g, w) = (Ret tt, (set_wg_n (wg_n g + total ds) g, w)).
Proof.
  revert g. induction ds as [|d ds IH]; intros g Hp; simpl.
  { run. rewrite Z.add_0_r. by destruct g. }
  destruct Hp as [Hd Hp]. run. rewrite Add_positive by (unfold in_int64; lia).
  rewrite IH by done. simpl. unfold set_wg_n; simpl. by rewrite Z.add_assoc.
Qed.

Lemma Wait_blocks fuel k f c g w :
  idle (g, w) → (0 < wg_n g)%Z →
  ∃ s', Wait (S fuel) k f c (g, w) = (Ret Blocked, s') ∧ awaited k s' ∧ fst s' = set_wg_waiting true g.
Proof.
  intros (Hw & c0 & Hf & Hc) Hn. unfold Wait, group, lift. run. simpl.
  rewrite bool_decide_false, Hw by lia. simpl.
  destruct (Get_blocks_run fuel _ _ _ w k Hf Hc) as (w1 & ch1 & Hget & Hf1 & Hc1 & Hrest); [done..|].
  cbn -[Get] in *. rewrite Hget. simpl. eexists. split; [reflexivity|]. split; [|done].
  split_and!; [done|done|]. simpl. exists c0, ch1. by rewrite Hf1.
Qed.

Lemma Wait_resume_waits fuel k f c s :
  awaited k s → Wait_resume fuel k f c s = (Ret Blocked, s).
Proof.
  destruct s as [g w]. intros (_ & _ & c0 & ch & Hf & _ & _ & _ & _ & Hk).
  unfold Wait_resume, lift. run. simpl. by rewrite (Get_waits_run _ _ _ _ _ _ _ Hf Hk).
Qed.

Lemma Wait_resume_returns fuel k f c s :
  released k s → ∃ w', Wait_resume fuel k f c s = (Ret (Done tt), (WaitGroup 0 false f, w')) ∧
                       idle (WaitGroup 0 false f, w').
Proof.
  destruct s as [g w]. intros (Hw & Hn & c0 & Hf & Hk).
  unfold Wait_resume, lift. run. simpl. rewrite (Get_woken_run _ _ _ _ _ _ _ Hf Hk).
  unfold Wait_return, group, lift, NewFuture, NewChannel, NewBufferedChannel. run. simpl.
  unfold set_wg_waiting, set_wg_future; simpl. rewrite Hn. eexists. split; [reflexivity|].
  split; [done|]. exists c; simpl. by rewrite !lookup_insert_eq.
Qed.

(** [Wait] returns when the counter reaches zero and not before.  A coroutine
    that calls [Wait] on a group whose counter is positive blocks; whatever calls
    of [Add] and [Done] other coroutines make that leave the counter positive, it
    stays blocked; the call that brings the counter to zero releases it, and when
    it returns the group can be used again; a call that makes the counter negative
    panics. *)
Theorem waitgroup_waits fuel k f c g w ds d :
  idle (g, w) → (0 < wg_n g)%Z → stays_positive (wg_n g) ds →
  in_int64 (wg_n g + total ds + d) →
  ∃ s1 s2, Wait (S fuel) k f c (g, w) = (Ret Blocked, s1)
    ∧ Adds (S fuel) ds s1 = (Ret tt, s2)
    ∧ Wait_resume (S fuel) k f c s2 = (Ret Blocked, s2)
    ∧ match (wg_n g + total ds + d ?= 0)%Z with
      | Gt => ∃ s3, Add (S fuel) d s2 = (Ret tt, s3) ∧
                    Wait_resume (S fuel) k f c s3 = (Ret Blocked, s3)
      | Eq => ∃ s3 w4, Add (S fuel) d s2 = (Ret tt, s3) ∧
                    Wait_resume (S fuel) k f c s3 = (Ret (Done tt), (WaitGroup 0 false f, w4)) ∧
                    idle (WaitGroup 0 false f, w4)
      | Lt => fst (Add (S fuel) d s2) = Panic (StringPanic "negative WaitGroup counter")
      end.
Proof.
  intros Hidle Hn Hp Hr. destruct (Wait_blocks fuel k f c g w Hidle Hn) as ([g1 w1] & Hwait & Haw & Hg).
  simpl in Hg. subst g1. exists (set_wg_waiting true g, w1).
  pose proof (Adds_positive (S fuel) ds (set_wg_waiting true g) w1 Hp) as Hadds. simpl in Hadds.
  assert (Hpos : (0 < wg_n g + total ds)%Z).
  { clear -Hn Hp. revert Hn Hp. generalize (wg_n g). induction ds as [|x ds IH]; simpl; intros n Hn Hp.
    - lia.
    - destruct Hp as [? Hp]. specialize (IH (n + x)%Z ltac:(lia) Hp). lia. }
  set (g2 := set_wg_n (wg_n g + total ds) (set_wg_waiting true g)) in Hadds.
  assert (Haw2 : awaited k (g2, w1)) by (destruct Haw as (? & _ & ?); by split_and!).
  exists (g2, w1). split_and!; [done|done|by apply Wait_resume_waits|].
  destruct (Z.compare_spec (wg_n g + total ds + d) 0) as [Hz|Hlt|Hgt].
  - destruct (Add_releases fuel k d g2 w1 Haw2 Hz) as (w3 & Hadd & Hrel).
    destruct (Wait_resume_returns (S fuel) k f c _ Hrel) as (w4 & Hw4 & Hidle4).
    by exists (set_wg_n 0 g2, w3), w4.
  - by rewrite Add_negative.
  - exists (set_wg_n (wg_n g2 + d) g2, w1). rewrite Add_positive by done. split; [done|].
    apply Wait_resume_waits. destruct Haw2 as (? & _ & ?). by split_and!.
Qed.

(** ** Instance *)

(** A new group for two coroutines, one of which calls [Done]; a third is added,
    and both remaining ones end. *)
Lemma waitgroup_waits_witness :
  let s0 : gstate := snd ((NewWaitGroup 0 0;; Add 1 2) (WaitGroup 0 false 0, newStore)) in
  ∃ s1 s2, Wait 1 0 1 1 s0 = (Ret Blocked, s1)
    ∧ Adds 1 [-1; 1; -1]%Z s1 = (Ret tt, s2)
    ∧ Wait_resume 1 0 1 1 s2 = (Ret Blocked, s2)
    ∧ ∃ s3 w4, Add 1 (-1) s2 = (Ret tt, s3) ∧
               Wait_resume 1 0 1 1 s3 = (Ret (Done tt), (WaitGroup 0 false 1, w4)) ∧
               idle (WaitGroup 0 false 1, w4).
Proof.
  intros s0. destruct s0 as [g w] eqn:E. subst s0.
  assert (Hn : wg_n g = 2%Z) by (vm_compute in E; by injection E as <- <-).
  pose proof (waitgroup_waits 0 0 1 1 g w [-1; 1; -1]%Z (-1)) as H.
  rewrite Hn in H. apply H.
  - vm_compute in E. injection E as <- <-. split; [reflexivity|]. by exists 0.
  - lia.
  - simpl. lia.
  - unfold in_int64; simpl; lia.
Defined.
