(* ===== verification/Contexts.v ===== *)
(** * Workflow contexts and cancellation

    internal/context.go: contexts carry values and cancellation down the call
    tree of workflow code.  A context is immutable except for the state of a
    [cancelCtx], which lives in a heap: [CancelCtx parent id] is a pointer to the
    entry [id], allocated in order.  The [Done] channel of an entry is a channel
    of the store of Channels.v.  Only one coroutine runs at a time, so the locks
    are left out. *)

From stdpp Require Import base list gmap strings.
From Stdlib Require Import Lia.
From S2P Require Import Prelude.
From S2P Require Import Channels.
From S2P Require Import ChannelsProps.
From S2P Require Import Errors.

Section contexts.
Context {K V : Type} `{!EqDecision K}.

(** The contexts of this package: there is no other implementation of the
    interface, and no [timerCtx]. *)
Inductive ctx :=
| emptyCtx
| valueCtx (parent : ctx) (key : K) (val : V)
| CancelCtx (parent : ctx) (id : nat).

Record cancelCtx := CancelState {
  done : nat;               (** closed by the first cancel call *)
  canceled : bool;
  children : list nat;
  ctx_err : option goError  (** set by the first cancel call *) }.

Record heap := Heap { cancels : list cancelCtx; chans : store (V:=V) }.

Implicit Types (σ : heap) (c : cancelCtx) (id x y : nat).

Definition set_canceled c := CancelState (done c) true (children c) (ctx_err c).
Definition set_err e c := CancelState (done c) (canceled c) (children c) e.
Definition set_children l c := CancelState (done c) (canceled c) l (ctx_err c).

(** Access to an entry, and the channels. *)
Definition entry id : M heap cancelCtx :=
  σ ← get; match cancels σ !! id with Some c => mret c | None => throw NilDereference end.
Definition write id (f : cancelCtx → cancelCtx) : M heap unit :=
  modify (λ σ, Heap (alter f id (cancels σ)) (chans σ)).
Definition on_chans {A} (m : M (store (V:=V)) A) : M heap A :=
  λ σ, let '(o, w) := m (chans σ) in (o, Heap (cancels σ) w).

Definition ErrCanceled_ : goError := NewCanceledError [].

(** ** The interface *)

Fixpoint Done_ σ (p : ctx) : option nat :=
  match p with
  | emptyCtx => None
  | valueCtx p _ _ => Done_ σ p
  | CancelCtx _ id => done <$> cancels σ !! id
  end.

Fixpoint Err σ (p : ctx) : option goError :=
  match p with
  | emptyCtx => None
  | valueCtx p _ _ => Err σ p
  | CancelCtx _ id => cancels σ !! id ≫= ctx_err
  end.

Fixpoint Value (p : ctx) (key : K) : option V :=
  match p with
  | emptyCtx => None
  | valueCtx p k v => if decide (k = key) then Some v else Value p key
  | CancelCtx p _ => Value p key
  end.

(** ** Cancellation *)

Definition Background : ctx := emptyCtx.
Definition WithValue (parent : ctx) (key : K) (val : V) : ctx := valueCtx parent key val.

Fixpoint parentCancelCtx (parent : ctx) : option nat :=
  match parent with
  | CancelCtx _ id => Some id
  | valueCtx p _ _ => parentCancelCtx p
  | emptyCtx => None
  end.

(** The slice that [append(children[:found], children[found+1:]...)] returns. *)
Definition removeChildFromSlice (l : list nat) child : list nat :=
  match list_find (eq child) l with
  | Some (found, _) => take found l ++ drop (found + 1) l
  | None => l
  end.

(** [removeChild] drops that slice: the parent keeps its own, of the old length,
    over the array that the append has overwritten from its start. *)
Definition overwritten (l r : list nat) : list nat := r ++ drop (length r) l.

Definition removeChild (parent : ctx) child : M heap unit :=
  match parentCancelCtx parent with
  | None => mret tt
  | Some p =>
      entry p;;
      write p (λ c, set_children (overwritten (children c)
                                    (removeChildFromSlice (children c) child)) c)
  end.

(** [for _, child := range children] *)
Fixpoint for_each (f : nat → M heap unit) (l : list nat) : M heap unit :=
  match l with [] => mret tt | x :: l => f x;; for_each f l end.

(** [c.cancel(removeFromParent, err)]; [remove] is the parent when
    [removeFromParent].  The loop runs over a copy of the children. *)
Fixpoint cancel (fuel : nat) (remove : option ctx) id (err : option goError) : M heap unit :=
  match fuel with
  | 0 => throw OutOfFuel
  | S fuel =>
      c ← entry id;
      if canceled c then mret tt else
      write id set_canceled;;
      match err with
      | None => throw (StringPanic "context: internal error: missing cancel error")
      | Some _ =>
          match ctx_err c with
          | Some _ => mret tt
          | None =>
              write id (set_err err);;
              on_chans (Close (done c));;
              c ← entry id;
              for_each (λ child, cancel fuel None child err) (children c);;
              write id (set_children []);;
              match remove with Some parent => removeChild parent id | None => mret tt end
          end
      end
  end.

(** [ch] is the identity of the new [Done] channel. *)
Definition newCancelCtx (ch : nat) : M heap nat :=
  on_chans (NewChannel ch);;
  σ ← get;
  modify (λ σ, Heap (cancels σ ++ [CancelState ch false [] None]) (chans σ));;
  mret (length (cancels σ)).

(** The case left, a parent that can be canceled but has no [cancelCtx] above
    it, is for other implementations of the interface. *)
Definition propagateCancel (fuel : nat) (parent : ctx) child : M heap unit :=
  σ ← get;
  match Done_ σ parent, parentCancelCtx parent with
  | None, _ => mret tt
  | _, None => mret tt
  | _, Some p =>
      c ← entry p;
      match ctx_err c with
      | Some e => cancel fuel None child (Some e)
      | None => write p (λ c, set_children (children c ++ [child]) c)
      end
  end.

Definition WithCancel (fuel : nat) (ch : nat) (parent : ctx) : M heap ctx :=
  id ← newCancelCtx ch;
  propagateCancel fuel parent id;;
  mret (CancelCtx parent id).

Definition NewDisconnectedContext (ch : nat) (parent : ctx) : M heap ctx :=
  id ← newCancelCtx ch; mret (CancelCtx parent id).

(** The [CancelFunc] that both return with the context. *)
Definition CancelFunc (fuel : nat) (parent : ctx) id : M heap unit :=
  cancel fuel (Some parent) id (Some ErrCanceled_).

End contexts.
Arguments ctx : clear implicits.
Arguments heap : clear implicits.
