(* ===== verification/ContextsProps.v ===== *)
(** * Cancellation reaches the descendants, and nothing else

    Properties of the contexts of Contexts.v: which contexts a [CancelFunc]
    cancels, in any state that workflow code can build with [WithCancel],
    [NewDisconnectedContext], [WithValue] and cancel functions. *)

From stdpp Require Import base list gmap strings relations.
From Stdlib Require Import Lia.
From S2P Require Import Prelude.
From S2P Require Import Channels.
From S2P Require Import ChannelsProps.
From S2P Require Import Errors.
From S2P Require Import Contexts.

Section cancellation.
Context {K V : Type} `{!EqDecision K}.
Implicit Types (σ : heap V) (c : cancelCtx) (x y id p : nat) (parent : ctx K V).

(** ** States *)

Definition is_closed (w : store (V:=V)) (ch : nat) : option bool := closed <$> channels w !! ch.
Definition canceled_in σ x : Prop := ∃ c, cancels σ !! x = Some c ∧ canceled c = true.
Definition child σ x y : Prop := ∃ c, cancels σ !! x = Some c ∧ y ∈ children c.

(** The [Done] channel of an entry is closed, and its error set, exactly when it
    is canceled; children are younger than their parent. *)
Record wf σ : Prop := {
  wf_done x c : cancels σ !! x = Some c → is_closed (chans σ) (done c) = Some (canceled c);
  wf_err x c : cancels σ !! x = Some c → ctx_err c = if canceled c then Some ErrCanceled_ else None;
  wf_children x y : child σ x y → x < y < length (cancels σ);
  wf_distinct x y cx cy :
    cancels σ !! x = Some cx → cancels σ !! y = Some cy → done cx = done cy → x = y }.

(** How cancellation changes the entries: an entry is left alone, or canceled
    together with its children. *)
Record evolves σ σ' : Prop := {
  ev_length : length (cancels σ') = length (cancels σ);
  ev_entry x c : cancels σ !! x = Some c →
    ∃ c', cancels σ' !! x = Some c' ∧ done c' = done c ∧
      (c' = c ∨ (canceled c = false ∧ canceled c' = true ∧ children c' = [] ∧
                 ∀ y, y ∈ children c → canceled_in σ' y)) }.

Lemma ctx_evolves_refl σ : evolves σ σ.
Proof. split; [done|]. eauto 10. Qed.

Lemma evolves_canceled σ σ' x : evolves σ σ' → canceled_in σ x → canceled_in σ' x.
Proof.
  intros Hev (c & Hc & Ht). destruct (ev_entry _ _ Hev x c Hc) as (c' & Hc' & _ & Hcase).
  exists c'. naive_solver.
Qed.

Lemma evolves_child σ σ' x y : evolves σ σ' → child σ' x y → child σ x y.
Proof.
  intros Hev (c' & Hc' & Hy).
  assert (is_Some (cancels σ !! x)) as [c Hc].
  { apply lookup_lt_is_Some. rewrite <- (ev_length _ _ Hev). by eapply lookup_lt_Some. }
  exists c. split; [done|].
  destruct (ev_entry _ _ Hev x c Hc) as (c'' & ? & _ & [->|(_ & _ & Hnil & _)]); simplify_eq; [done|].
  rewrite Hnil in Hy. by apply not_elem_of_nil in Hy.
Qed.

Lemma ctx_evolves_trans σ1 σ2 σ3 : evolves σ1 σ2 → evolves σ2 σ3 → evolves σ1 σ3.
Proof.
  intros H12 H23. split; [by rewrite (ev_length _ _ H23), (ev_length _ _ H12)|].
  intros x c Hc. destruct (ev_entry _ _ H12 x c Hc) as (c2 & Hc2 & Hd2 & Hcase).
  destruct (ev_entry _ _ H23 x c2 Hc2) as (c3 & Hc3 & Hd3 & Hcase').
  exists c3. split; [done|]. split; [congruence|].
  destruct Hcase as [->|(H1 & H2 & H3 & H4)]; [done|].
  destruct Hcase' as [->|(? & _)]; [|congruence].
  right. split_and!; [done..|]. intros y Hy. eapply evolves_canceled; eauto.
Qed.

(** ** Running one cancel *)

Lemma cancel_entry_run σ id c : cancels σ !! id = Some c → entry id σ = (Ret c, σ).
Proof. intros H. unfold entry. run. by rewrite H. Qed.

Lemma write_run σ id c f :
  cancels σ !! id = Some c → write id f σ = (Ret tt, Heap (<[id := f c]> (cancels σ)) (chans σ)).
Proof.
  intros H. unfold write. run. f_equal. f_equal.
  apply list_eq. intros j. rewrite list_lookup_alter, list_lookup_insert.
  apply lookup_lt_Some in H as Hlt. repeat case_decide; simplify_eq; try done; try lia.
  by rewrite H.
Qed.

(** The entry when its loop over the children starts. *)
Definition marked c : cancelCtx := CancelState (done c) true (children c) (Some ErrCanceled_).

Lemma mark_run σ id c :
  wf σ → cancels σ !! id = Some c → canceled c = false →
  ∃ w', Close (done c) (chans σ) = (Ret tt, w') ∧ wf (Heap (<[id := marked c]> (cancels σ)) w').
Proof.
  intros Hwf Hc Hf. pose proof (wf_done _ Hwf id c Hc) as Hd.
  unfold is_closed in Hd. destruct (channels (chans σ) !! done c) as [ch|] eqn:Hch; [|done].
  destruct (Close_run (done c) ch (chans σ) Hch) as (w' & Hrun & Hw' & _ & _).
  exists w'. split; [done|]. apply lookup_lt_Some in Hc as Hlt.
  assert (Hsame : ∀ x cx, cancels σ !! x = Some cx → x ≠ id → done cx ≠ done c).
  { intros x cx Hx Hne Heq. apply Hne. by eapply (wf_distinct _ Hwf). }
  split; simpl.
  - intros x cx Hx. unfold is_closed. rewrite Hw'.
    destruct (decide (x = id)) as [->|Hne].
    + rewrite list_lookup_insert_eq in Hx by done. simplify_eq/=. by rewrite lookup_insert_eq.
    + rewrite list_lookup_insert_ne in Hx by done.
      rewrite lookup_insert_ne by (intros ?; by eapply Hsame). by apply (wf_done _ Hwf x).
  - intros x cx Hx. destruct (decide (x = id)) as [->|Hne].
    + rewrite list_lookup_insert_eq in Hx by done. by simplify_eq/=.
    + rewrite list_lookup_insert_ne in Hx by done. by apply (wf_err _ Hwf x).
  - intros x y (cx & Hx & Hy). rewrite length_insert. apply (wf_children _ Hwf).
    destruct (decide (x = id)) as [->|Hne].
    + simpl in Hx. rewrite list_lookup_insert_eq in Hx by done. simplify_eq/=. by exists c.
    + simpl in Hx. rewrite list_lookup_insert_ne in Hx by done. by exists cx.
  - intros x y cx cy Hx Hy Hd'.
    assert (Hold : ∀ z cz, (<[id := marked c]> (cancels σ)) !! z = Some cz →
              ∃ cz', cancels σ !! z = Some cz' ∧ done cz' = done cz).
    { intros z cz Hz. rewrite list_lookup_insert in Hz. case_decide as Hd''; [|by exists cz].
      destruct Hd'' as [-> _]. simplify_eq/=. by exists c. }
    apply Hold in Hx as (cx' & Hx & Hdx). apply Hold in Hy as (cy' & Hy & Hdy).
    eapply (wf_distinct _ Hwf); [done..|congruence].
Qed.

Lemma wf_set_children σ id c l :
  wf σ → cancels σ !! id = Some c → (∀ y, y ∈ l → id < y < length (cancels σ)) →
  wf (Heap (<[id := set_children l c]> (cancels σ)) (chans σ)).
Proof.
  intros Hwf Hc Hl. apply lookup_lt_Some in Hc as Hlt.
  assert (Hold : ∀ x cx, (<[id := set_children l c]> (cancels σ)) !! x = Some cx →
    ∃ cx', cancels σ !! x = Some cx' ∧ done cx = done cx' ∧ canceled cx = canceled cx' ∧
           ctx_err cx = ctx_err cx' ∧ ((x = id ∧ children cx = l) ∨ children cx = children cx')).
  { intros x cx Hx. rewrite list_lookup_insert in Hx. case_decide as Hd; simplify_eq/=; [|by eauto 7].
    destruct Hd as [-> _]. exists c. split_and!; auto. }
  split; simpl.
  - intros x cx (cx' & Hx & -> & -> & _)%Hold. by apply (wf_done _ Hwf x).
  - intros x cx (cx' & Hx & _ & -> & -> & _)%Hold. by apply (wf_err _ Hwf x).
  - intros x y (cx & (cx' & Hx & _ & _ & _ & Hcase)%Hold & Hy). rewrite length_insert.
    destruct Hcase as [[-> Hl']|Heq]; [apply Hl; congruence|].
    apply (wf_children _ Hwf). exists cx'. by rewrite <- Heq.
  - intros x y cx cy (cx' & Hx & Hdx & _)%Hold (cy' & Hy & Hdy & _)%Hold Heq.
    eapply (wf_distinct _ Hwf); [done..|congruence].
Qed.

(** What a cancellation from [id] may do: [reached] holds of the entries it
    reaches over the children. *)
Definition cancels_from σ (from : nat → Prop) σ' : Prop :=
  wf σ' ∧ evolves σ σ' ∧ (∀ x, from x → canceled_in σ' x) ∧
  ∀ x, canceled_in σ' x → canceled_in σ x ∨ ∃ y, from y ∧ rtc (child σ) y x.

Lemma for_each_spec f n σ l :
  wf σ → length (cancels σ) = n →
  (∀ σ x, wf σ → x ∈ l → length (cancels σ) = n →
     ∃ σ', f x σ = (Ret tt, σ') ∧ cancels_from σ (eq x) σ') →
  ∃ σ', for_each f l σ = (Ret tt, σ') ∧ cancels_from σ (λ x, x ∈ l) σ'.
Proof.
  revert σ. induction l as [|x l IH]; intros σ Hwf Hlt Hf; simpl.
  { exists σ. split; [done|]. split_and!; [done|apply ctx_evolves_refl| |auto].
    intros x []%not_elem_of_nil. }
  destruct (Hf σ x Hwf) as (σ1 & Hrun & Hwf1 & Hev1 & Hin1 & Hfr1); [set_solver|done|].
  destruct (IH σ1 Hwf1) as (σ2 & Hrun2 & Hwf2 & Hev2 & Hin2 & Hfr2).
  { by rewrite (ev_length _ _ Hev1). }
  { intros σ' y Hw Hy. apply Hf; [done|set_solver]. }
  exists σ2. run. rewrite Hrun. split; [done|]. split_and!; [done|by eapply ctx_evolves_trans| |].
  - intros y [->|Hy]%elem_of_cons; [|by apply Hin2]. eapply evolves_canceled; eauto.
  - intros y [Hy|(z & Hz & Hrtc)]%Hfr2.
    + apply Hfr1 in Hy as [?|(z & <- & Hrtc)]; [by left|]. right. exists x. set_solver.
    + right. exists z. split; [set_solver|]. eapply rtc_subrel; [|done].
      intros a b. by apply evolves_child.
Qed.

Lemma cancel_run_canceled fuel σ id remove err c :
  cancels σ !! id = Some c → canceled c = true →
  cancel (K:=K) (S fuel) remove id err σ = (Ret tt, σ).
Proof. intros Hc Ht. cbn [cancel]. run. by rewrite (cancel_entry_run _ _ _ Hc), Ht. Qed.

(** The first part of a cancel that does something. *)
Lemma cancel_run_first fuel σ id remove c w' :
  cancels σ !! id = Some c → canceled c = false → ctx_err c = None →
  Close (done c) (chans σ) = (Ret tt, w') →
  cancel (K:=K) (S fuel) remove id (Some ErrCanceled_) σ =
  (for_each (λ x, cancel (K:=K) fuel None x (Some ErrCanceled_)) (children c);;
   write id (set_children []);;
   match remove with Some parent => removeChild parent id | None => mret tt end)
  (Heap (<[id := marked c]> (cancels σ)) w').
Proof.
  intros Hc Hf He Hclose. apply lookup_lt_Some in Hc as Hlt.
  cbn [cancel]. run. rewrite (cancel_entry_run _ _ _ Hc), Hf, (write_run _ _ _ _ Hc), He.
  assert (Hc1 : cancels (Heap (<[id := set_canceled c]> (cancels σ)) (chans σ)) !! id =
                Some (set_canceled c)) by (by apply list_lookup_insert_eq).
  rewrite (write_run _ _ _ _ Hc1). simpl. unfold on_chans; simpl. rewrite Hclose.
  rewrite list_insert_insert_eq.
  erewrite cancel_entry_run by (simpl; by apply list_lookup_insert_eq). done.
Qed.

(** The whole cancel of an entry, put together: [σ1] is the state when the loop
    over the children starts and [σ2] the state when it ends. *)
Lemma cancels_from_entry σ id c w' σ2 :
  cancels σ !! id = Some c → canceled c = false →
  let σ1 := Heap (<[id := marked c]> (cancels σ)) w' in
  cancels_from σ1 (λ x, x ∈ children c) σ2 → cancels σ2 !! id = Some (marked c) →
  cancels_from σ (eq id)
    (Heap (<[id := set_children [] (marked c)]> (cancels σ2)) (chans σ2)).
Proof.
  intros Hc Ht σ1 (Hwf2 & Hev & Hin & Hfr) Hid. apply lookup_lt_Some in Hc as Hlt.
  set (σ3 := Heap _ _).
  assert (Hlt2 : id < length (cancels σ2)) by (by eapply lookup_lt_Some).
  assert (H23 : ∀ x, canceled_in σ3 x ↔ canceled_in σ2 x).
  { intros x. unfold canceled_in; simpl. destruct (decide (x = id)) as [->|Hne].
    - rewrite list_lookup_insert_eq by done. rewrite Hid. naive_solver.
    - by rewrite list_lookup_insert_ne. }
  assert (H1 : ∀ x, canceled_in σ1 x → canceled_in σ x ∨ x = id).
  { intros x (cx & Hx & Hcx). destruct (decide (x = id)) as [->|Hne]; [by right|]. left.
    simpl in Hx. rewrite list_lookup_insert_ne in Hx by done. by exists cx. }
  assert (Hchild : ∀ x y, child σ1 x y → child σ x y).
  { intros x y (cx & Hx & Hy). simpl in Hx. rewrite list_lookup_insert in Hx.
    case_decide; simplify_eq/=; [|by exists cx]. destruct H as [-> _]. by exists c. }
  split_and!.
  - apply (wf_set_children σ2 id (marked c) []); [done..|].
    intros y []%not_elem_of_nil.
  - split; simpl; [rewrite length_insert, (ev_length _ _ Hev); simpl; by rewrite length_insert|].
    intros x cx Hx. destruct (decide (x = id)) as [->|Hne].
    + simplify_eq. rewrite list_lookup_insert_eq by done. eexists. split; [reflexivity|].
      split; [done|]. right. split_and!; [done..|]. intros y Hy. by apply H23, Hin.
    + rewrite list_lookup_insert_ne by done.
      destruct (ev_entry _ _ Hev x cx) as (cx' & Hx' & Hd & Hcase);
        [simpl; by rewrite list_lookup_insert_ne|].
      exists cx'. split; [done|]. split; [done|]. destruct Hcase as [->|(? & ? & ? & Hall)]; [by left|].
      right. split_and!; [done..|]. intros y Hy. by apply H23, Hall.
  - intros x <-. apply H23. by exists (marked c).
  - intros x [Hx|(y & Hy & Hrtc)]%H23%Hfr.
    + apply H1 in Hx as [Hx| ->]; [by left|]. right. by exists id.
    + right. exists id. split; [done|]. eapply rtc_l; [by exists c|].
      eapply rtc_subrel; [|done]. exact Hchild.
Qed.

Lemma cancel_spec fuel σ id :
  wf σ → id < length (cancels σ) → length (cancels σ) - id < fuel →
  ∃ σ', cancel (K:=K) fuel None id (Some ErrCanceled_) σ = (Ret tt, σ') ∧
        cancels_from σ (eq id) σ'.
Proof.
  revert σ id. induction fuel as [|fuel IH]; intros σ id Hwf Hlt Hfuel; [lia|].
  apply lookup_lt_is_Some in Hlt as Hc. destruct Hc as [c Hc].
  destruct (canceled c) eqn:Ht.
  { exists σ. rewrite (cancel_run_canceled _ _ _ _ _ _ Hc Ht). split; [done|].
    split_and!; [done|apply ctx_evolves_refl| |auto]. intros x <-. by exists c. }
  pose proof (wf_err _ Hwf id c Hc) as He. rewrite Ht in He.
  destruct (mark_run σ id c Hwf Hc Ht) as (w' & Hclose & Hwf1).
  rewrite (cancel_run_first fuel σ id None c w' Hc Ht He Hclose).
  set (σ1 := Heap (<[id := marked c]> (cancels σ)) w') in *.
  assert (Hl1 : length (cancels σ1) = length (cancels σ)) by (simpl; by rewrite length_insert).
  assert (Hch : ∀ x, x ∈ children c → id < x < length (cancels σ1)).
  { intros x Hx. rewrite Hl1. apply (wf_children _ Hwf). by exists c. }
  destruct (for_each_spec (λ x, cancel (K:=K) fuel None x (Some ErrCanceled_)) (length (cancels σ))
              σ1 (children c)) as (σ2 & Hrun & Hwf2 & Hev & Hin & Hfr); [done..| |].
  { intros σ' x Hw Hx Hn. specialize (Hch x Hx). apply IH; [done|lia|lia]. }
  run. rewrite Hrun.
  assert (Hid : cancels σ2 !! id = Some (marked c)).
  { destruct (ev_entry _ _ Hev id (marked c)) as (c2 & Hc2 & _ & [->|(Hfalse & _)]); [|done..].
    by apply list_lookup_insert_eq. }
  rewrite (write_run _ _ _ _ Hid). eexists. split; [reflexivity|].
  by eapply cancels_from_entry.
Qed.

(** ** Removing a child from its parent *)

(** The slice that the parent keeps has every other child, but no fewer: a
    removed child leaves a copy of the last one behind, or stays. *)
Lemma overwritten_length l x :
  length (overwritten l (removeChildFromSlice l x)) = length l.
Proof.
  unfold overwritten. rewrite length_app, length_drop. unfold removeChildFromSlice.
  destruct (list_find (eq x) l) as [[i y]|] eqn:Hf; [|lia].
  apply list_find_Some in Hf as (Hi%lookup_lt_Some & _).
  rewrite length_app, length_take, length_drop. lia.
Qed.

Lemma overwritten_sub l x y : y ∈ overwritten l (removeChildFromSlice l x) → y ∈ l.
Proof.
  unfold overwritten, removeChildFromSlice.
  destruct (list_find (eq x) l) as [[i z]|] eqn:Hf; rewrite !elem_of_app.
  - intros [[H|H]|H]; [eapply subseteq_take|eapply subseteq_drop..]; exact H.
  - intros [H|H]; [done|]. by eapply subseteq_drop.
Qed.

Lemma overwritten_keeps l x y : y ≠ x → y ∈ l → y ∈ overwritten l (removeChildFromSlice l x).
Proof.
  intros Hne Hy. unfold overwritten, removeChildFromSlice.
  destruct (list_find (eq x) l) as [[i z]|] eqn:Hf; [|set_solver].
  apply list_find_Some in Hf as (Hi & <- & _).
  rewrite <- (take_drop_middle l i x Hi) in Hy. rewrite Nat.add_1_r. set_solver.
Qed.

(** ** Reachable states *)

(** [att !! y = Some x]: [y] was made by [WithCancel] from a context whose
    nearest cancelable ancestor, itself included, is [x]. *)
Implicit Types (att : gmap nat nat).
Definition attached att x y : Prop := att !! y = Some x.

Definition valid σ parent : Prop :=
  ∀ p, parentCancelCtx parent = Some p → p < length (cancels σ).

(** What workflow code does with contexts, and with channels as long as it does
    not close a [Done] channel itself. *)
Inductive reachable : heap V → gmap nat nat → Prop :=
| reach_new w : reachable (Heap [] w) ∅
| reach_with_cancel σ att fuel ch parent :
    reachable σ att → valid σ parent → channels (chans σ) !! ch = None → 1 < fuel →
    reachable (snd (WithCancel fuel ch parent σ))
      (match parentCancelCtx parent with
       | Some p => <[length (cancels σ) := p]> att
       | None => att
       end)
| reach_disconnected σ att ch parent :
    reachable σ att → channels (chans σ) !! ch = None →
    reachable (snd (NewDisconnectedContext ch parent σ)) att
| reach_cancel σ att fuel parent id :
    reachable σ att → id < length (cancels σ) → length (cancels σ) - id < fuel → valid σ parent →
    reachable (snd (CancelFunc fuel parent id σ)) att
| reach_channels σ att w :
    reachable σ att →
    (∀ x c, cancels σ !! x = Some c → is_closed w (done c) = is_closed (chans σ) (done c)) →
    reachable (Heap (cancels σ) w) att.

Record inv σ att : Prop := {
  inv_wf : wf σ;
  inv_child x y : child σ x y → attached att x y;
  inv_order x y : attached att x y → x < y < length (cancels σ);
  inv_down x y : attached att x y → canceled_in σ x → canceled_in σ y;
  inv_kept x y : attached att x y → canceled_in σ y ∨ child σ x y }.

(** A cancellation from [id] keeps the invariant. *)
Lemma inv_cancels σ att id σ' : inv σ att → cancels_from σ (eq id) σ' → inv σ' att.
Proof.
  intros [Hwf Hch Hord Hdown Hkept] (Hwf' & Hev & _ & Hfr).
  assert (Hk : ∀ x y, attached att x y → canceled_in σ' y ∨ child σ' x y).
  { intros x y Hxy. destruct (Hkept x y Hxy) as [Hy|(c & Hx & Hy)].
    - left. by eapply evolves_canceled.
    - destruct (ev_entry _ _ Hev x c Hx) as (c' & Hx' & _ & Hcase).
      destruct Hcase as [->|(_ & _ & _ & Hall)]; [|by auto]. right. by exists c. }
  split; [done| | | |done].
  - intros x y Hxy. by eapply Hch, evolves_child.
  - intros x y Hxy. rewrite (ev_length _ _ Hev). eauto.
  - intros x y Hxy (c' & Hx' & Ht).
    assert (is_Some (cancels σ !! x)) as [c Hx].
    { apply lookup_lt_is_Some. specialize (Hord x y Hxy). lia. }
    destruct (ev_entry _ _ Hev x c Hx) as (c'' & Hx'' & _ & Hcase). rewrite Hx' in Hx''. simplify_eq.
    destruct Hcase as [->|(_ & _ & _ & Hall)].
    + eapply evolves_canceled; [done|]. apply (Hdown x y Hxy). by exists c.
    + destruct (Hkept x y Hxy) as [Hy|(? & ? & Hy)]; [by eapply evolves_canceled|].
      simplify_eq. by apply Hall.
Qed.

(** Changing the children of one entry. *)
Lemma canceled_set_children σ id c l x :
  cancels σ !! id = Some c →
  canceled_in (Heap (<[id := set_children l c]> (cancels σ)) (chans σ)) x ↔ canceled_in σ x.
Proof.
  intros Hc. apply lookup_lt_Some in Hc as Hlt. unfold canceled_in; simpl.
  destruct (decide (x = id)) as [->|Hne].
  - rewrite list_lookup_insert_eq by done. rewrite Hc. naive_solver.
  - by rewrite list_lookup_insert_ne.
Qed.

Lemma child_set_children σ id c l x y :
  cancels σ !! id = Some c →
  child (Heap (<[id := set_children l c]> (cancels σ)) (chans σ)) x y ↔
  (x = id ∧ y ∈ l) ∨ (x ≠ id ∧ child σ x y).
Proof.
  intros Hc. apply lookup_lt_Some in Hc as Hlt. unfold child; simpl.
  destruct (decide (x = id)) as [->|Hne].
  - rewrite list_lookup_insert_eq by done. naive_solver.
  - rewrite list_lookup_insert_ne by done. naive_solver.
Qed.

Lemma inv_removeChild σ att parent id :
  inv σ att → valid σ parent → canceled_in σ id →
  ∃ σ', removeChild parent id σ = (Ret tt, σ') ∧ inv σ' att ∧
        (∀ x, canceled_in σ' x ↔ canceled_in σ x) ∧ length (cancels σ') = length (cancels σ).
Proof.
  intros [Hwf Hch Hord Hdown Hkept] Hv Hid. unfold removeChild.
  destruct (parentCancelCtx parent) as [p|] eqn:Hp; [|by exists σ].
  specialize (Hv p Hp). apply lookup_lt_is_Some in Hv as [c Hc]. run.
  rewrite (cancel_entry_run _ _ _ Hc), (write_run _ _ _ _ Hc).
  set (l := overwritten _ _). eexists. split; [reflexivity|].
  pose proof (canceled_set_children σ p c l) as Hcan.
  pose proof (child_set_children σ p c l) as Hchild.
  split; [|split; [intros x; by apply Hcan|simpl; by rewrite length_insert]]. split.
  - apply wf_set_children; [done..|]. intros y Hy%overwritten_sub. apply (wf_children _ Hwf). by exists c.
  - intros x y [[-> Hy%overwritten_sub]|[_ Hxy]]%Hchild; [|by apply Hch|done]. apply Hch. by exists c.
  - intros x y Hxy. simpl. rewrite length_insert. eauto.
  - intros x y Hxy. rewrite !Hcan by done. eauto.
  - intros x y Hxy. rewrite Hcan, Hchild by done.
    destruct (Hkept x y Hxy) as [?|(cx & Hx & Hy)]; [by left|].
    destruct (decide (y = id)) as [->|Hne]; [by left|]. right.
    destruct (decide (x = p)) as [->|Hne']; [|right; split; [done|by exists cx]].
    left. split; [done|]. simplify_eq. by apply overwritten_keeps.
Qed.

(** A cancel function: the cancellation, and the removal from the parent if the
    context was not canceled before. *)
Lemma CancelFunc_spec σ att fuel parent id :
  inv σ att → id < length (cancels σ) → length (cancels σ) - id < fuel → valid σ parent →
  ∃ σ1 σ', CancelFunc fuel parent id σ = (Ret tt, σ') ∧ inv σ' att ∧
    cancels_from σ (eq id) σ1 ∧ (∀ x, canceled_in σ' x ↔ canceled_in σ1 x) ∧
    length (cancels σ') = length (cancels σ).
Proof.
  intros Hinv Hlt Hfuel Hv. pose proof (inv_wf _ _ Hinv) as Hwf. unfold CancelFunc.
  apply lookup_lt_is_Some in Hlt as Hc. destruct Hc as [c Hc].
  destruct (cancel_spec fuel σ id Hwf Hlt Hfuel) as (σ1 & Hrun & Hfrom). exists σ1.
  destruct fuel as [|fuel]; [lia|]. destruct (canceled c) eqn:Ht.
  { rewrite (cancel_run_canceled _ _ _ _ _ _ Hc Ht) in Hrun. injection Hrun as <-.
    exists σ. rewrite (cancel_run_canceled _ _ _ _ _ _ Hc Ht). done. }
  pose proof (wf_err _ Hwf id c Hc) as He. rewrite Ht in He.
  destruct (mark_run σ id c Hwf Hc Ht) as (w' & Hclose & _).
  rewrite (cancel_run_first _ _ _ _ _ _ Hc Ht He Hclose) in Hrun.
  rewrite (cancel_run_first _ _ _ _ _ _ Hc Ht He Hclose). run_in Hrun. run.
  destruct (for_each _ _ _) as [[[]|pa] σ2]; [|done].
  destruct (write id _ σ2) as [[[]|pa] σ3]; [|done]. injection Hrun as ->.
  destruct (inv_removeChild σ1 att parent id) as (σ' & Hrm & Hinv' & Hcan & Hlen).
  - by eapply inv_cancels.
  - intros p Hp. rewrite (ev_length σ σ1); [by apply Hv|apply Hfrom].
  - by apply Hfrom.
  - exists σ'. split_and!; try done. rewrite Hlen. apply ev_length, Hfrom.
Qed.

(** ** New contexts *)

Definition new_entry ch : cancelCtx := CancelState ch false [] None.

Lemma newCancelCtx_run σ att ch :
  inv σ att → channels (chans σ) !! ch = None →
  ∃ σ', newCancelCtx ch σ = (Ret (length (cancels σ)), σ') ∧
    cancels σ' = cancels σ ++ [new_entry ch] ∧ inv σ' att.
Proof.
  intros [Hwf Hch Hord Hdown Hkept] Hfresh.
  unfold newCancelCtx, on_chans, NewChannel, NewBufferedChannel. run. simpl.
  eexists. split; [reflexivity|]. split; [done|]. set (σ' := Heap _ _).
  assert (Hlook : ∀ x c, cancels σ' !! x = Some c →
    (cancels σ !! x = Some c ∧ done c ≠ ch) ∨ (x = length (cancels σ) ∧ c = new_entry ch)).
  { intros x c [Hx|[? Hx]]%lookup_app_Some.
    - left. split; [done|]. intros Hd. pose proof (wf_done _ Hwf x c Hx) as H.
      unfold is_closed in H. by rewrite Hd, Hfresh in H.
    - apply list_lookup_singleton_Some in Hx as [? <-]. right. split; [lia|done]. }
  assert (Hold : ∀ x c, cancels σ !! x = Some c → cancels σ' !! x = Some c)
    by (intros; by apply lookup_app_l_Some).
  assert (Hcan : ∀ x, canceled_in σ' x ↔ canceled_in σ x).
  { intros x. split.
    - intros (c & [[Hx _]|[_ ->]]%Hlook & Ht); [by exists c|done].
    - intros (c & Hx & Ht). exists c. auto. }
  assert (Hchild : ∀ x y, child σ' x y ↔ child σ x y).
  { intros x y. split.
    - intros (c & [[Hx _]|[_ ->]]%Hlook & Hy); [by exists c|]. by apply not_elem_of_nil in Hy.
    - intros (c & Hx & Hy). exists c. auto. }
  split; [split| | | |].
  - intros x c [[Hx Hne]|[_ ->]]%Hlook; simpl; unfold is_closed; simpl.
    + rewrite lookup_insert_ne by done. by apply (wf_done _ Hwf x).
    + by rewrite lookup_insert_eq.
  - intros x c [[Hx _]|[_ ->]]%Hlook; [by apply (wf_err _ Hwf x)|done].
  - intros x y Hxy%Hchild%(wf_children _ Hwf). simpl. rewrite length_app. simpl. lia.
  - intros x y cx cy [[Hx Hnx]|[Hx ->]]%Hlook [[Hy Hny]|[Hy ->]]%Hlook Hd; simpl in Hd.
    + by eapply (wf_distinct _ Hwf).
    + done.
    + congruence.
    + congruence.
  - intros x y Hxy%Hchild. by apply Hch.
  - intros x y Hxy%Hord. simpl. rewrite length_app. simpl. lia.
  - intros x y Hxy. rewrite !Hcan. eauto.
  - intros x y Hxy. rewrite Hcan, Hchild. eauto.
Qed.

Lemma Done_parent σ parent :
  valid σ parent → is_Some (Done_ σ parent) ↔ is_Some (parentCancelCtx parent).
Proof.
  unfold valid. induction parent as [|parent IH k v|parent _ id]; simpl; intros Hv; [done|auto|].
  specialize (Hv id eq_refl). apply lookup_lt_is_Some in Hv as [c ->]. simpl. naive_solver.
Qed.

Definition attach parent (n : nat) att : gmap nat nat :=
  match parentCancelCtx parent with Some p => <[n := p]> att | None => att end.

Lemma attached_insert att n p x y :
  attached (<[n := p]> att) x y ↔ (y = n ∧ x = p) ∨ (y ≠ n ∧ attached att x y).
Proof. unfold attached. rewrite lookup_insert_Some. naive_solver. Qed.

(** The child is canceled at once with its parent, or joins it. *)
Lemma inv_attach_canceled σ att n p :
  inv σ att → att !! n = None → p < n < length (cancels σ) → canceled_in σ n →
  inv σ (<[n := p]> att).
Proof.
  intros [Hwf Hch Hord Hdown Hkept] Hn Hp Hcan. split; [done|..].
  - intros x y Hxy%Hch. apply attached_insert. right. split; [|done]. intros ->. unfold attached in Hxy. congruence.
  - intros x y [[-> ->]|[_ Hxy]]%attached_insert; eauto.
  - intros x y [[-> ->]|[_ Hxy]]%attached_insert; eauto.
  - intros x y [[-> ->]|[_ Hxy]]%attached_insert; eauto.
Qed.

Lemma inv_attach_live σ att n p c :
  inv σ att → att !! n = None → p < n < length (cancels σ) →
  cancels σ !! p = Some c → canceled c = false →
  inv (Heap (<[p := set_children (children c ++ [n]) c]> (cancels σ)) (chans σ)) (<[n := p]> att).
Proof.
  intros [Hwf Hch Hord Hdown Hkept] Hn Hp Hc Hf.
  pose proof (canceled_set_children σ p c (children c ++ [n])) as Hcan.
  pose proof (child_set_children σ p c (children c ++ [n])) as Hchild.
  split.
  - apply wf_set_children; [done..|]. intros y [Hy| ->%list_elem_of_singleton]%elem_of_app; [|lia].
    apply (wf_children _ Hwf). by exists c.
  - intros x y Hxy. apply attached_insert. apply Hchild in Hxy; [|done].
    destruct Hxy as [[-> [Hy| ->%list_elem_of_singleton]%elem_of_app]|[_ Hxy]]; [|by left|].
    + right. assert (attached att p y) by (apply Hch; by exists c).
      split; [|done]. intros ->. unfold attached in *. congruence.
    + right. apply Hch in Hxy. split; [|done]. intros ->. unfold attached in *. congruence.
  - intros x y Hxy. simpl. rewrite length_insert.
    apply attached_insert in Hxy as [[-> ->]|[_ Hxy]]; eauto.
  - intros x y Hxy. rewrite !Hcan by done.
    apply attached_insert in Hxy as [[-> ->]|[_ Hxy]]; [|eauto]. intros (c' & Hc' & ?). congruence.
  - intros x y Hxy. rewrite Hcan, Hchild by done.
    apply attached_insert in Hxy as [[-> ->]|[_ Hxy]]; [right; left; set_solver|].
    destruct (Hkept x y Hxy) as [?|(cx & Hx & Hy)]; [by left|]. right.
    destruct (decide (x = p)) as [->|Hne]; [|right; split; [done|by exists cx]].
    left. simplify_eq. set_solver.
Qed.

Lemma WithCancel_spec σ att fuel ch parent :
  inv σ att → valid σ parent → channels (chans σ) !! ch = None → 1 < fuel →
  ∃ σ', WithCancel fuel ch parent σ = (Ret (CancelCtx parent (length (cancels σ))), σ') ∧
        inv σ' (attach parent (length (cancels σ)) att) ∧
        length (cancels σ') = length (cancels σ) + 1 ∧
        (∀ x, canceled_in σ x → canceled_in σ' x).
Proof.
  intros Hinv Hv Hfresh Hfuel. set (n := length (cancels σ)).
  destruct (newCancelCtx_run σ att ch Hinv Hfresh) as (σ1 & Hrun & Hc1 & Hinv1).
  assert (Hn1 : length (cancels σ1) = n + 1) by (by rewrite Hc1, length_app).
  assert (Hatt : att !! n = None).
  { destruct (att !! n) as [x|] eqn:Hx; [|done].
    pose proof (inv_order _ _ Hinv x n Hx). lia. }
  assert (Hv1 : valid σ1 parent) by (intros p Hp%Hv; lia).
  assert (Hmono : ∀ x, canceled_in σ x → canceled_in σ1 x).
  { intros x (c & Hx & Ht). exists c. rewrite Hc1. split; [by apply lookup_app_l_Some|done]. }
  pose proof (Done_parent σ1 parent Hv1) as Hdone.
  unfold WithCancel, attach. run. rewrite Hrun. unfold propagateCancel. run.
  destruct (parentCancelCtx parent) as [p|] eqn:Hp.
  2:{ destruct (Done_ σ1 parent); [exfalso; destruct Hdone as [Hd _]; destruct Hd; [by eexists|done]|].
      by exists σ1. }
  destruct (Done_ σ1 parent) as [d|]; [|exfalso; destruct Hdone as [_ Hd]; destruct Hd; [by eexists|done]].
  specialize (Hv p Hp). assert (Hpn : p < n < length (cancels σ1)) by lia.
  assert (is_Some (cancels σ1 !! p)) as [c Hc] by (apply lookup_lt_is_Some; lia).
  rewrite (cancel_entry_run _ _ _ Hc). pose proof (wf_err _ (inv_wf _ _ Hinv1) p c Hc) as He.
  destruct (canceled c) eqn:Ht; rewrite He.
  - destruct (cancel_spec fuel σ1 n) as (σ2 & Hrun2 & Hfrom); [apply Hinv1|lia|lia|].
    fold n. rewrite Hrun2. exists σ2. split; [done|]. pose proof (inv_cancels _ _ _ _ Hinv1 Hfrom) as Hinv2.
    destruct Hfrom as (_ & Hev & Hin & _). rewrite (ev_length _ _ Hev).
    split_and!; [|lia|intros x Hx; by eapply evolves_canceled, Hmono].
    apply inv_attach_canceled; [done..| |by apply Hin]. by rewrite (ev_length _ _ Hev).
  - rewrite (write_run _ _ _ _ Hc). eexists. split; [reflexivity|].
    split_and!; [by apply inv_attach_live|simpl; by rewrite length_insert|].
    intros x Hx%Hmono. by apply canceled_set_children.
Qed.

Lemma inv_reachable σ att : reachable σ att → inv σ att.
Proof.
  induction 1 as [w|σ att fuel ch parent _ IH Hv Hch Hf|σ att ch parent _ IH Hch
                 |σ att fuel parent id _ IH Hlt Hf Hv|σ att w _ IH Hw].
  - split; [split|..]; unfold child, attached; naive_solver.
  - destruct (WithCancel_spec σ att fuel ch parent IH Hv Hch Hf) as (σ' & -> & Hinv & _). exact Hinv.
  - destruct (newCancelCtx_run σ att ch IH Hch) as (σ' & Hrun & _ & Hinv).
    unfold NewDisconnectedContext. run. by rewrite Hrun.
  - destruct (CancelFunc_spec σ att fuel parent id IH Hlt Hf Hv) as (_ & σ' & -> & Hinv & _). exact Hinv.
  - destruct IH as [[Hd He Hc Hn] Hch Hord Hdown Hkept]. split; [split|..]; try done.
    intros x c Hx. simpl in *. rewrite (Hw x c Hx). by eapply Hd.
Qed.

Lemma inv_descendants σ att x y :
  inv σ att → rtc (attached att) x y → canceled_in σ x → canceled_in σ y.
Proof.
  intros Hinv. induction 1 as [|x y z Hxy _ IH]; [done|]. intros Hx.
  by apply IH, (inv_down _ _ Hinv x y Hxy).
Qed.

(** C27: A cancel function cancels exactly the context and the contexts derived
    from it.  In any state that workflow code can reach, it returns, and the
    contexts that are canceled afterwards are those that were before, the context
    itself, and those made by [WithCancel] from it, directly or over further
    contexts and values; contexts disconnected by [NewDisconnectedContext] and all
    others are left alone.  A context derived from a canceled one, before or after
    it was canceled, is always canceled.  Every canceled context has the error ErrCanceled and a
    closed [Done] channel, every other one an open one. *)
Theorem cancel_exact σ att fuel parent id :
  reachable σ att → id < length (cancels σ) → length (cancels σ) - id < fuel → valid σ parent →
  ∃ σ', CancelFunc fuel parent id σ = (Ret tt, σ') ∧
    (∀ x, canceled_in σ' x ↔ canceled_in σ x ∨ rtc (attached att) id x) ∧
    (∀ x y, rtc (attached att) x y → canceled_in σ' x → canceled_in σ' y) ∧
    ∀ x c, cancels σ' !! x = Some c →
      is_closed (chans σ') (done c) = Some (canceled c) ∧
      ctx_err c = (if canceled c then Some ErrCanceled_ else None).
Proof.
  intros Hinv%inv_reachable Hlt Hfuel Hv.
  destruct (CancelFunc_spec σ att fuel parent id Hinv Hlt Hfuel Hv)
    as (σ1 & σ' & Hrun & Hinv' & (_ & Hev & Hin & Hfr) & Hcan & _).
  exists σ'. split; [done|]. split_and!.
  - intros x. split.
    + intros [?|(y & <- & Hrtc)]%Hcan%Hfr; [by left|]. right.
      eapply rtc_subrel; [|done]. intros a b. by apply (inv_child _ _ Hinv).
    + intros [Hx|Hrtc]; [by eapply Hcan, evolves_canceled|].
      eapply inv_descendants; [done|done|]. by apply Hcan, Hin.
  - intros x y. by apply inv_descendants.
  - intros x c Hx. split; [by eapply (wf_done _ (inv_wf _ _ Hinv'))|by eapply (wf_err _ (inv_wf _ _ Hinv'))].
Qed.

End cancellation.

(** ** A sample of contexts

    The root (0), a context derived from it over a value (1), one derived from
    that (3), one disconnected from that (2), and one derived from the
    disconnected one (4). *)
Module SampleContexts.

Abbreviation sctx := (ctx string nat).
Abbreviation root := (CancelCtx emptyCtx 0 : sctx).
Abbreviation derived := (CancelCtx (WithValue root "key" 7) 1 : sctx).
Abbreviation disconnected := (CancelCtx derived 2 : sctx).
Abbreviation s1 := (snd (WithCancel 9 0 (Background : sctx) (Heap [] newStore))).
Abbreviation s2 := (snd (WithCancel 9 1 (WithValue root "key" 7) s1)).
Abbreviation s3 := (snd (NewDisconnectedContext 2 derived s2)).
Abbreviation s4 := (snd (WithCancel 9 3 derived s3)).
Abbreviation s5 := (snd (WithCancel 9 4 disconnected s4)).
Abbreviation att := (<[4 := 2]> (<[3 := 1]> (<[1 := 0]> (∅ : gmap nat nat)))).

Lemma s5_reachable : reachable (K:=string) s5 att.
Proof.
  assert (R1 : reachable (K:=string) s1 ∅).
  { apply (reach_with_cancel (Heap [] newStore) ∅ 9 0 (Background : sctx)); [constructor|done|done|lia]. }
  assert (R2 : reachable (K:=string) s2 (<[1 := 0]> ∅)).
  { apply (reach_with_cancel s1 ∅ 9 1 (WithValue root "key" 7)); [done| |done|lia].
    intros p [= <-]. vm_compute. lia. }
  assert (R3 : reachable (K:=string) s3 (<[1 := 0]> ∅)) by (by apply reach_disconnected).
  assert (R4 : reachable (K:=string) s4 (<[3 := 1]> (<[1 := 0]> ∅))).
  { apply (reach_with_cancel s3 _ 9 3 derived); [done| |done|lia]. intros p [= <-]. vm_compute. lia. }
  apply (reach_with_cancel s4 _ 9 4 disconnected); [done| |done|lia].
  intros p [= <-]. vm_compute. lia.
Qed.

Lemma cancel_exact_witness :
  (canceled <$> cancels (snd (CancelFunc 9 (WithValue root "key" 7) 1 s5)) =
     [false; true; false; true; false]) ∧
  ∃ σ', CancelFunc 9 (WithValue root "key" 7) 1 s5 = (Ret tt, σ') ∧
    (∀ x, canceled_in σ' x ↔ canceled_in s5 x ∨ rtc (attached att) 1 x) ∧
    (∀ x y, rtc (attached att) x y → canceled_in σ' x → canceled_in σ' y) ∧
    ∀ x c, cancels σ' !! x = Some c →
      is_closed (chans σ') (done c) = Some (canceled c) ∧
      ctx_err c = (if canceled c then Some ErrCanceled_ else None).
Proof.
  split; [vm_compute; reflexivity|].
  apply (cancel_exact s5 att 9 (WithValue root "key" 7) 1 s5_reachable).
  - vm_compute. lia.
  - vm_compute. lia.
  - intros p [= <-]. vm_compute. lia.
Defined.

(** A parent keeps the contexts that were canceled before it: two children made
    and canceled one after the other are both still in its list. *)
Example canceled_children_stay :
  let one ch id σ := snd (CancelFunc 9 root id (snd (WithCancel 9 ch root σ))) in
  children <$> (cancels (one 2 2 (one 1 1 s1)) !! 0) = Some [1; 2].
Proof. vm_compute. reflexivity. Qed.

End SampleContexts.
