(* ===== verification/ContextCache.v ===== *)
(** * The cache of workflow contexts, as its clients see it

    internal/internal_task_handlers.go, lines 436-491, keeps the contexts of the
    workflow executions of a worker in the LRU cache of LRU.v, created without
    expiration and pinning and with [onEviction] as the function to call for a
    removed entry.  The class [Cache] has the operations that the task handler
    calls, with contexts given by their pointers, and [CacheLaws] what it relies
    on; the LRU cache is shown to be an instance. *)

From Stdlib Require Import ZArith Lia.
From stdpp Require Import base list gmap strings option.
From S2P Require Import Prelude.
From S2P Require Import LRU.

Class Cache (C : Type) := {
  cache_Get : Z → string → M C (option nat);
  cache_PutIfNotExist : Z → string → nat → M C (option nat * option string);
  cache_Delete : string → M C unit;
  cache_Exist : string → C → bool;
  (** the removed entries, in order: each starts a goroutine for [onEviction] *)
  cache_removed : C → list nat;
  (** for specifications: what the cache holds, and its states *)
  cache_find : C → string → option nat;
  cache_ok : C → Prop }.

(** What a cache promises: lookups change nothing; an entry that is put is there
    or, like any entry that it displaces, was handed to the eviction function. *)
Class CacheLaws (C : Type) `{!Cache C} : Prop := {
  get_law now k (c : C) : cache_ok c →
    ∃ c', cache_Get now k c = (Ret (cache_find c k), c') ∧ cache_ok c' ∧
      (∀ k', cache_find c' k' = cache_find c k') ∧ cache_removed c' = cache_removed c;
  put_law now k v (c : C) : cache_ok c →
    ∃ c' l, cache_PutIfNotExist now k v c = (Ret (Some (default v (cache_find c k)), None), c') ∧
      cache_ok c' ∧ cache_removed c' = cache_removed c ++ l ∧
      (∀ k' x, cache_find c' k' = Some x →
         cache_find c k' = Some x ∨ (k' = k ∧ x = v ∧ cache_find c k = None)) ∧
      (∀ k' x, cache_find c k' = Some x → cache_find c' k' = Some x ∨ x ∈ l);
  delete_law k (c : C) : cache_ok c →
    ∃ c', cache_Delete k c = (Ret tt, c') ∧ cache_ok c' ∧
      cache_removed c' = cache_removed c ++ option_list (cache_find c k) ∧
      ∀ k', cache_find c' k' = if decide (k' = k) then None else cache_find c k';
  exist_law k (c : C) : cache_ok c → cache_Exist k c = bool_decide (is_Some (cache_find c k)) }.

(** ** The LRU cache *)

Abbreviation plru := (lru nat).

(** [getWorkflowCache] creates it once, of the size of [stickyCacheSize]. *)
Definition newWorkflowCache (size : Z) : plru := New size (Some (MkOptions 0 false true)).

Definition held_value (c : plru) (k : string) : option nat :=
  byKey c !! k ≫= λ p, entries c !! p ≫= ce_value.

(** No entry expires or is pinned, and no value is nil. *)
Record cache_inv (c : plru) : Prop := {
  ci_wf : wf c;
  ci_pin : pin c = false;
  ci_ttl : ttl c = 0%Z;
  ci_rm : has_rmFunc c = true;
  ci_entry k p e : byKey c !! k = Some p → entries c !! p = Some e →
    expiration e = None ∧ refCount e = 0%Z ∧ is_Some (ce_value e) }.

Global Instance lru_cache : Cache plru := {
  cache_Get now k := Get now k;
  cache_PutIfNotExist now k v := PutIfNotExist now k (Some v);
  cache_Delete := Delete;
  cache_Exist := Exist;
  cache_removed c := omap id (removed c);
  cache_find := held_value;
  cache_ok := cache_inv }.

Lemma newWorkflowCache_ok size : cache_inv (newWorkflowCache size).
Proof. split; [apply wf_New|done..]. Qed.

Section lru.
Implicit Types (c : plru) (k : string) (p : nat).

Lemma cache_inv_entry c k p :
  cache_inv c → byKey c !! k = Some p →
  ∃ e v, entries c !! p = Some e ∧ ce_key e = k ∧ p ∈ byAccess c ∧
    expiration e = None ∧ refCount e = 0%Z ∧ ce_value e = Some v ∧ held_value c k = Some v.
Proof.
  intros Hc Hk. destruct (mapped_entry c k p (ci_wf _ Hc) Hk) as (e & He & Hke & Hp & _).
  destruct (ci_entry _ Hc k p e Hk He) as (Hx & Hr & v & Hv). exists e, v.
  split_and!; try done. unfold held_value. by rewrite Hk; simpl; rewrite He.
Qed.

(** Moving an entry to the front and writing it back unchanged. *)
Definition touch p e c : plru :=
  set_index (list_MoveToFront p (byAccess c)) (byKey c) (set_entry p e c).

Lemma touch_ok p e c :
  cache_inv c → entries c !! p = Some e →
  cache_inv (touch p e c) ∧ ∀ k, held_value (touch p e c) k = held_value c k.
Proof.
  intros Hc He.
  assert (Hid : <[p := e]> (entries c) = entries c) by (by apply insert_id).
  split.
  - split; [|apply Hc..|].
    + eapply (wf_move p (set_entry p e c)), wf_set_entry; [apply Hc|done..].
    + simpl. rewrite Hid. apply (ci_entry _ Hc).
  - intros k. unfold held_value; simpl. by rewrite Hid.
Qed.

Lemma lru_get now k c :
  cache_inv c → ∃ c', Get now k c = (Ret (held_value c k), c') ∧ cache_inv c' ∧
    (∀ k', held_value c' k' = held_value c k') ∧ removed c' = removed c.
Proof.
  intros Hc. unfold Get. run. destruct (byKey c !! k) as [p|] eqn:Hk.
  - destruct (cache_inv_entry c k p Hc Hk) as (e & v & He & _ & _ & Hx & Hr & Hv & Hh).
    rewrite (entry_run _ _ _ He), (ci_pin _ Hc), Hx, Hr, Hv, Hh.
    exists (touch p e c). destruct (touch_ok p e c Hc He). by split_and!.
  - exists c. unfold held_value at 1. by rewrite Hk.
Qed.

Lemma lru_delete k c :
  cache_inv c → ∃ c', Delete k c = (Ret tt, c') ∧ cache_inv c' ∧
    omap id (removed c') = omap id (removed c) ++ option_list (held_value c k) ∧
    ∀ k', held_value c' k' = if decide (k' = k) then None else held_value c k'.
Proof.
  intros Hc. unfold Delete. run. destruct (byKey c !! k) as [p|] eqn:Hk.
  - destruct (cache_inv_entry c k p Hc Hk) as (e & v & He & <- & Hp & Hx & Hr & Hv & Hh).
    rewrite (entry_run _ _ _ He), Hh. eexists. split; [reflexivity|]. split; [split|split].
    + exact (wf_notify (ce_value e) _ (wf_remove p e c (ci_wf _ Hc) Hp He)).
    + apply Hc.
    + apply Hc.
    + apply Hc.
    + simpl. intros k' p' e' [_ Hk']%lookup_delete_Some. by apply (ci_entry _ Hc k').
    + simpl. rewrite (ci_rm _ Hc), omap_app, Hv. done.
    + intros k'. unfold held_value; simpl. rewrite lookup_delete.
      destruct (decide (k' = ce_key e)), (decide (ce_key e = k')); naive_solver.
  - exists c. unfold held_value at 1. rewrite Hk. simpl. rewrite app_nil_r. split_and!; try done.
    intros k'. case_decide; [subst; unfold held_value; by rewrite Hk|done].
Qed.

Lemma push_ok k v c :
  cache_inv c → byKey c !! k = None →
  let e := CacheEntry k None (Some v) 0%Z in
  cache_inv (push_entry e c) ∧
  ∀ k', held_value (push_entry e c) k' = if decide (k' = k) then Some v else held_value c k'.
Proof.
  intros Hc Hk e. assert (Hwf : wf (push_entry e c)) by (by apply wf_push; [apply Hc|]).
  assert (Hlook : ∀ k' p, byKey (push_entry e c) !! k' = Some p →
    (k' = k ∧ p = entries_next c) ∨ (k' ≠ k ∧ byKey c !! k' = Some p ∧ p ≠ entries_next c)).
  { intros k' p Hp. simpl in Hp. apply lookup_insert_Some in Hp as [[<- <-]|[Hne Hp]]; [by left|].
    right. split_and!; [done..|]. destruct (wf_mapped _ (ci_wf _ Hc) _ _ Hp) as [Hin _].
    apply (wf_next _ (ci_wf _ Hc)) in Hin. lia. }
  split; [split; [done|apply Hc..|]|].
  - intros k' p e' [[-> ->]|(Hne & Hp & Hpn)]%Hlook He'; simpl in He'.
    + rewrite lookup_insert_eq in He'. simplify_eq/=. by eauto.
    + rewrite lookup_insert_ne in He' by done. by apply (ci_entry _ Hc k' p).
  - intros k'. unfold held_value; simpl. case_decide as Hkk.
    + subst. rewrite lookup_insert_eq. simpl. by rewrite lookup_insert_eq.
    + rewrite lookup_insert_ne by done. destruct (byKey c !! k') as [p|] eqn:Hp; [|done]. simpl.
      destruct (wf_mapped _ (ci_wf _ Hc) _ _ Hp) as [Hin _]. apply (wf_next _ (ci_wf _ Hc)) in Hin.
      by rewrite lookup_insert_ne by lia.
Qed.

(** Evicting the least recently used entry. *)
Definition evict (back : nat) (oldest : cacheEntry nat) c : plru :=
  set_index (list_Remove back (byAccess c)) (delete (ce_key oldest) (byKey c))
    (notify (ce_value oldest) c).

Lemma evict_ok back oldest c :
  cache_inv c → back ∈ byAccess c → entries c !! back = Some oldest →
  cache_inv (evict back oldest c) ∧
  ∃ v, held_value c (ce_key oldest) = Some v ∧
    omap id (removed (evict back oldest c)) = omap id (removed c) ++ [v] ∧
    ∀ k, held_value (evict back oldest c) k =
         if decide (k = ce_key oldest) then None else held_value c k.
Proof.
  intros Hc Hin He. destruct (wf_listed _ (ci_wf _ Hc) back Hin) as (e' & He' & Hk).
  rewrite He in He'. injection He' as <-.
  destruct (cache_inv_entry c _ back Hc Hk) as (e & v & He' & _ & _ & _ & _ & Hv & Hh).
  rewrite He in He'. injection He' as <-.
  split; [split|exists v; split_and!; [done| |]].
  - exact (wf_notify (ce_value oldest) _ (wf_remove back oldest c (ci_wf _ Hc) Hin He)).
  - apply Hc.
  - apply Hc.
  - apply Hc.
  - simpl. intros k' p' e' [_ Hk']%lookup_delete_Some. by apply (ci_entry _ Hc k').
  - simpl. rewrite (ci_rm _ Hc), omap_app, Hv. done.
  - intros k'. unfold held_value; simpl. rewrite lookup_delete.
    destruct (decide (k' = ce_key oldest)), (decide (ce_key oldest = k')); naive_solver.
Qed.

Lemma lru_put now k v c :
  cache_inv c →
  ∃ c' l, PutIfNotExist now k (Some v) c = (Ret (Some (default v (held_value c k)), None), c') ∧
    cache_inv c' ∧ omap id (removed c') = omap id (removed c) ++ l ∧
    (∀ k' x, held_value c' k' = Some x →
       held_value c k' = Some x ∨ (k' = k ∧ x = v ∧ held_value c k = None)) ∧
    (∀ k' x, held_value c k' = Some x → held_value c' k' = Some x ∨ x ∈ l).
Proof.
  intros Hc. unfold PutIfNotExist, putInternal. run. destruct (byKey c !! k) as [p|] eqn:Hk.
  - destruct (cache_inv_entry c k p Hc Hk) as (e & x & He & _ & _ & Hx & Hr & Hv & Hh).
    rewrite (entry_run _ _ _ He), (ci_pin _ Hc), (ci_ttl _ Hc), Hh, Hv. simpl.
    replace (CacheEntry _ _ _ _) with e by (destruct e; simpl in *; by subst).
    exists (touch p e c), []. destruct (touch_ok p e c Hc He) as [Hok Hsame].
    split_and!; [done|done|by rewrite app_nil_r| |]; intros k' y; rewrite Hsame; auto.
  - assert (Hnone : held_value c k = None) by (unfold held_value; by rewrite Hk).
    rewrite (ci_pin _ Hc), (ci_ttl _ Hc), Hnone. simpl default.
    rewrite (decide_False (P := 0%Z ≠ 0%Z)) by (intros Hz; by apply Hz). set (e := CacheEntry k None (Some v) 0%Z).
    destruct (push_ok k v c Hc Hk) as [Hok Hview]. fold e in Hok, Hview.
    change (maxSize (push_entry e c)) with (maxSize c).
    destruct (decide (Z.of_nat (size (byKey (push_entry e c))) = maxSize c)).
    2:{ exists (push_entry e c), []. split_and!; [done|done|by rewrite app_nil_r| |];
          intros k' x; rewrite Hview; case_decide; naive_solver. }
    destruct (list.last (byAccess (push_entry e c))) as [back|] eqn:Hb;
      [|by apply list.last_None in Hb].
    apply last_Some_elem_of in Hb as Hin.
    destruct (wf_listed _ (ci_wf _ Hok) back Hin) as (oldest & Ho & Hok').
    rewrite (entry_run _ _ _ Ho).
    destruct (ci_entry _ Hok _ back oldest Hok' Ho) as (_ & -> & _). simpl.
    destruct (evict_ok back oldest (push_entry e c) Hok Hin Ho) as (Hok2 & y & Hy & Hrm & Hview2).
    exists (evict back oldest (push_entry e c)), [y].
    split_and!; [reflexivity|done|exact Hrm| |]; intros k' x; rewrite Hview2, Hview.
    + repeat case_decide; naive_solver.
    + intros Hx. rewrite Hview in Hy. repeat case_decide; set_solver.
Qed.

Global Instance lru_cache_laws : CacheLaws plru.
Proof.
  split; simpl.
  - intros now k c Hc. destruct (lru_get now k c Hc) as (c' & ? & ? & ? & Hr). exists c'. by rewrite Hr.
  - intros now k v c. apply lru_put.
  - intros k c. apply lru_delete.
  - intros k c Hc. unfold Exist. apply bool_decide_ext.
    unfold held_value. destruct (byKey c !! k) as [p|] eqn:Hk; [|done].
    destruct (cache_inv_entry c k p Hc Hk) as (e & v & He & _ & _ & _ & _ & Hv & _).
    simpl. rewrite He. simpl. rewrite Hv. naive_solver.
Qed.

End lru.
