(* ===== verification/TaskHandler.v ===== *)
(** * The workflow task handler

    internal/internal_task_handlers.go: [workflowTaskHandlerImpl] finds or creates
    the context of a task ([getOrCreateWorkflowContext]), runs the task in it
    while it holds the lock of the context ([ProcessWorkflowTask]), and gives the
    context back ([Unlock]).  Contexts are shared over the cache of
    ContextCache.v, so several tasks may be under way at once: a task is a thread
    that goes through phases, and the definitions below are its atomic steps,
    between which other threads and the evictions of the cache run. *)

From Stdlib Require Import ZArith.
From stdpp Require Import base list gmap strings option.
From S2P Require Import Prelude.
From S2P Require Import Shared.
From S2P Require Import DecisionStateMachine.
From S2P Require Import History.
From S2P Require Import Errors.
From S2P Require Import Environment.
From S2P Require Import EventHandlers.
From S2P Require Import WorkflowTask.
From S2P Require Import ContextCache.

(** ** State *)

(** A context, and the run id in its [workflowInfo], which is assigned when the
    context is created and never again. *)
Record slot := Slot { slot_run : string; slot_ctx : wctx }.

(** The contexts by pointer; the cache; the contexts whose mutex is locked; the
    removed entries of the cache whose [onEviction] has run. *)
Record worker (C : Type) := Worker {
  slots : list slot;
  wcache : C;
  locked : gset nat;
  evicted : gset nat }.
Arguments Worker {C} _ _ _ _.
Arguments slots {C} _.
Arguments wcache {C} _.
Arguments locked {C} _.
Arguments evicted {C} _.

(** Where a task is in [getOrCreateWorkflowContext] and after it. *)
Inductive phase :=
| Looking                       (** before the lookup in the cache *)
| Created (p : nat)             (** with a new context, before [putWorkflowContext] *)
| Waiting (p : nat) (hit : bool) (** before [Lock]; whether the cache had it *)
| Holding (p : nat).            (** with the lock *)

Record thread := Thread {
  th_task : PollForDecisionTaskResponse;
  th_token : bytes;             (** of its history iterator *)
  th_phase : phase }.

Definition runID (t : PollForDecisionTaskResponse) : string :=
  get_string WorkflowExecution_RunId (PollForDecisionTaskResponse_WorkflowExecution t).
Definition th_run (th : thread) : string := runID (th_task th).

(** The checks on arrival: the error, if any. *)
Definition checkTask (task : PollForDecisionTaskResponse) : option string :=
  if negb (is_query task) && bool_decide (taskEvents task = []) then Some "nil or empty history"
  else if is_query task
          && bool_decide (default ∅ (PollForDecisionTaskResponse_Queries task) ≠ ∅)
  then Some "invalid query decision task"
  else None.

Section handler.
Context {C : Type} `{!Cache C} (defaultConverter : DataConverter) {dc : DataConverter}.
Context (workflow : call → M env unit) (getWorkflowDefinition : string → option string).
Context (page : pageFunc) (clock : env → Z) (config : workerConfig) (queries : introspection).
Context (HistoryEventToString : HistoryEvent → string) (DecisionToString : Decision → string).
Context (Quote : string → string) (scaled : LocalRetryPolicy → Z → Z).
Context (disableStickyExecution : bool).

Abbreviation state := (worker C).

Definition on_cache {A} (m : M C A) : M state A := λ s,
  let '(o, c) := m (wcache s) in (o, Worker (slots s) c (locked s) (evicted s)).
Definition on_ctx {A} (p : nat) (m : M wctx A) : M state A := λ s,
  match slots s !! p with
  | None => (Panic NilDereference, s)
  | Some sl =>
      let '(o, w) := m (slot_ctx sl) in
      (o, Worker (<[p := Slot (slot_run sl) w]> (slots s)) (wcache s) (locked s) (evicted s))
  end.
Definition set_locked (x : gset nat) (s : state) : state :=
  Worker (slots s) (wcache s) x (evicted s).

(** ** The cache *)

Definition getWorkflowContext (now : Z) (run : string) : M state (option nat) :=
  on_cache (cache_Get now run).
Definition putWorkflowContext (now : Z) (run : string) (p : nat)
    : M state (option nat * option string) := on_cache (cache_PutIfNotExist now run p).
Definition removeWorkflowContext (run : string) : M state unit := on_cache (cache_Delete run).

(** ** Giving a context back *)

Definition mustClear (err : bool) (w : wctx) : bool :=
  err || negb (bool_decide (ctxErr w = None :> option goError)) || isWorkflowCompleted w
  || (disableStickyExecution && negb (hasPendingLocalActivityWork w)).

Definition Unlock (p : nat) (err : bool) : M state unit :=
  s ← get;
  match slots s !! p with
  | None => throw NilDereference
  | Some sl =>
      let cached := cache_Exist (slot_run sl) (wcache s) in
      (if mustClear err (slot_ctx sl) then
         if cached then removeWorkflowContext (slot_run sl) else on_ctx p clearState
       else if negb cached then on_ctx p clearState
       else mret tt);;
      modify (λ s, set_locked (locked s ∖ {[p]}) s)
  end.

(** [onEviction] of the [j]-th removed entry, in its own goroutine, which takes
    the lock of the context. *)
Definition runEviction (j p : nat) : M state unit :=
  on_ctx p (onEviction config);;
  modify (λ s, Worker (slots s) (wcache s) (locked s) ({[j]} ∪ evicted s)).

(** ** Finding or creating a context *)

(** Up to the new context, or the one that the cache has. *)
Definition look (now : Z) (th : thread) : M state (string + thread) :=
  let task := th_task th in
  let full := isFullHistory (taskEvents task) in
  found ← (if negb (is_query task) || negb full then getWorkflowContext now (runID task)
           else mret None);
  match (found : option nat) with
  | Some p => mret (inr (Thread task (th_token th) (Waiting p true)))
  | None =>
      match (if full then inr (task, th_token th) else
             match page None with
             | inl err => inl err
             | inr (events, token) => inr (set_taskEvents events task, token)
             end) with
      | inl err => mret (inl err)
      | inr (task, token) =>
          match createWorkflowContext config task with
          | Panic p => throw p
          | Ret (inl err) => mret (inl err)
          | Ret (inr w) =>
              s ← get;
              let p := length (slots s) in
              modify (λ s, Worker (slots s ++ [Slot (runID task) (set_wtask task token w)])
                             (wcache s) (locked s) (evicted s));;
              mret (inr (Thread task token
                (if negb disableStickyExecution && negb (is_query task) then Created p
                 else Waiting p false)))
          end
      end
  end.

(** [putWorkflowContext]; its error is ignored, and the nil context that comes
    with it is then locked. *)
Definition insertNew (now : Z) (th : thread) (p : nat) : M state thread :=
  r ← putWorkflowContext now (th_run th) p;
  match fst (r : option nat * option string) with
  | Some q => mret (Thread (th_task th) (th_token th) (Waiting q false))
  | None => throw NilDereference
  end.

(** A context from the cache is reset when the task does not continue it; the
    error of the reset is ignored here. *)
Definition refresh : M wctx unit :=
  w ← get;
  if is_query (wtask w) && negb (isFullHistory (taskEvents (wtask w))) then mret tt else
  match taskEvents (wtask w) with
  | [] => throw IndexOutOfRange
  | e :: _ =>
      if decide (GetEventId e = int64 (previousStartedEventID w + 1)) then mret tt
      else ResetIfStale page;; mret tt
  end.

(** From [Lock] to the end, by a thread that gets the lock. *)
Definition acquire (th : thread) (p : nat) (hit : bool) : M state (string + thread) :=
  modify (λ s, set_locked ({[p]} ∪ locked s) s);;
  on_ctx p (modify (set_wtask (th_task th) (th_token th)));;
  (if hit then on_ctx p refresh else mret tt);;
  err ← on_ctx p (resetStateIfDestroyed page);
  match (err : option string) with
  | Some err => Unlock p true;; mret (inl err)
  | None =>
      w ← on_ctx p get;
      mret (inr (Thread (wtask w) (iteratorToken w) (Holding p)))
  end.

(** The steps in a row, as the function has them. *)
Definition getOrCreateWorkflowContext (now : Z) (th : thread) : M state (string + thread) :=
  r ← look now th;
  match (r : string + thread) with
  | inl err => mret (inl err)
  | inr th =>
      th ← match th_phase th with Created p => insertNew now th p | _ => mret th end;
      match th_phase (th : thread) with
      | Waiting p hit => acquire th p hit
      | _ => mret (inr th)
      end
  end.

(** ** Running a task *)

Definition process (steps fuel : nat) : M wctx taskResult :=
  ProcessWorkflowTask workflow getWorkflowDefinition page clock config queries
    HistoryEventToString DecisionToString Quote steps fuel.

(** What ends a wait of [wait_LocalActivity_Loop]: the worker stops; the deadline
    of the decision task comes near, with the answer of the heartbeat function (an
    error, nothing, or the next task); or the result of a local activity. *)
Inductive wakeup :=
| StopSignal
| HeartbeatDue (answer : string + option (PollForDecisionTaskResponse * bytes))
| ResultReady (lar : localActivityResult) (deadline : bool) (now : Z).

Definition abandoned :=
  "worker is shutting down with a pending local activity; abandoning decision task for reschedule".

(** The two loops: [inputs] are the wakeups, in order; [None] when the task still
    waits after the last of them. *)
Fixpoint waitLoop (steps fuel : nat) (p : nat) (inputs : list wakeup)
    : M state (option taskResult) :=
  match inputs with
  | [] => mret None
  | StopSignal :: _ => mret (Some (TaskError abandoned))
  | HeartbeatDue answer :: inputs =>
      on_ctx p (CompleteDecisionTask config queries false);;
      match answer with
      | inl err => mret (Some (TaskError ("error sending decision heartbeat " +:+ err)))
      | inr None => mret (Some (TaskResponse None))
      | inr (Some (task, token)) =>
          r ← on_ctx p (modify (set_wtask task token);; process steps fuel);
          match (r : taskResult) with
          | TaskResponse None => waitLoop steps fuel p inputs
          | r => mret (Some r)
          end
      end
  | ResultReady lar deadline now :: inputs =>
      r ← on_ctx p (ctxProcessLocalActivityResult workflow getWorkflowDefinition config queries
                      scaled defaultConverter lar deadline now);
      match (r : taskResult) with
      | TaskResponse None => waitLoop steps fuel p inputs
      | r => mret (Some r)
      end
  end.

Definition processLoop (steps fuel : nat) (p : nat) (inputs : list wakeup)
    : M state (option taskResult) :=
  r ← on_ctx p (process steps fuel);
  match (r : taskResult) with
  | TaskResponse None => waitLoop steps fuel p inputs
  | r => mret (Some r)
  end.

Definition is_error (r : taskResult) : bool :=
  match r with TaskResponse _ => false | _ => true end.

(** The whole handler; the deferred [Unlock] also runs when a panic passes, with
    no error. *)
Definition handleTask (now : Z) (steps fuel : nat) (task : PollForDecisionTaskResponse)
    (token : bytes) (inputs : list wakeup) : M state (option taskResult) :=
  let task := set_taskEvents (taskEvents task) task in
  match checkTask task with
  | Some err => mret (Some (TaskError err))
  | None =>
      r ← getOrCreateWorkflowContext now (Thread task token Looking);
      match (r : string + thread) with
      | inl err => mret (Some (TaskError err))
      | inr th =>
          match th_phase th with
          | Holding p => λ s,
              match processLoop steps fuel p inputs s with
              | (Ret (Some r), s) => (Unlock p (is_error r);; mret (Some r)) s
              | (Ret None, s) => (Ret None, s)
              | (Panic e, s) => (Unlock p false;; throw e) s
              end
          | _ => throw NilDereference
          end
      end
  end.

End handler.
Arguments Worker {C} _ _ _ _.
