(* ===== verification/TaskHandlerProps.v ===== *)
(** * Contexts are not orphaned

    A context whose event handler has run owns the goroutines of its coroutines
    until it is cleared.  The steps of TaskHandler.v interleave here in any order:
    tasks arrive, look up, create, insert, lock, run and unlock contexts, and the
    goroutines of the cache evict them. *)

From Stdlib Require Import ZArith Lia.
From stdpp Require Import base list gmap strings option relations.
From S2P Require Import Prelude.
From S2P Require Import Shared.
From S2P Require Import History.
From S2P Require Import Errors.
From S2P Require Import Environment.
From S2P Require Import EventHandlers.
From S2P Require Import WorkflowTask.
From S2P Require Import ContextCache.
From S2P Require Import TaskHandler.

Section interleaving.
Context {C : Type} `{!Cache C} (defaultConverter : DataConverter) {dc : DataConverter}.
Context (workflow : call → M env unit) (getWorkflowDefinition : string → option string).
Context (page : pageFunc) (clock : env → Z) (config : workerConfig) (queries : introspection).
Context (HistoryEventToString : HistoryEvent → string) (DecisionToString : Shared.Decision → string).
Context (Quote : string → string) (scaled : LocalRetryPolicy → Z → Z).
Context (disableStickyExecution : bool).

Abbreviation state := (worker C).
Implicit Types (s : state) (th : thread) (p q i j : nat).

(** ** Steps *)

Record system := System { sys : state; threads : gmap nat thread }.
Implicit Types x y : system.

(** The operations on the context that a thread runs while it holds its lock. *)
Inductive ctx_work : ∀ {A : Type}, M wctx A → Prop :=
| work_process steps fuel :
    ctx_work (process workflow getWorkflowDefinition page clock config queries
                HistoryEventToString DecisionToString Quote steps fuel)
| work_task task token : ctx_work (modify (set_wtask task token))
| work_complete wait : ctx_work (CompleteDecisionTask config queries wait)
| work_result lar deadline now :
    ctx_work (ctxProcessLocalActivityResult workflow getWorkflowDefinition config queries
                scaled defaultConverter lar deadline now).

(** The thread after a step of [getOrCreateWorkflowContext]: gone on an error. *)
Definition next_thread i (r : string + thread) (ths : gmap nat thread) : gmap nat thread :=
  match r with inl _ => delete i ths | inr th => <[i := th]> ths end.

Inductive step : system → system → Prop :=
| step_arrive s ths i task token :
    ths !! i = None → checkTask task = None →
    step (System s ths) (System s (<[i := Thread task token Looking]> ths))
| step_look s ths i th now r s' :
    ths !! i = Some th → th_phase th = Looking →
    look page config disableStickyExecution now th s = (Ret r, s') →
    step (System s ths) (System s' (next_thread i r ths))
| step_insert s ths i th p now th' s' :
    ths !! i = Some th → th_phase th = Created p → insertNew now th p s = (Ret th', s') →
    step (System s ths) (System s' (<[i := th']> ths))
| step_lock s ths i th p hit r s' :
    ths !! i = Some th → th_phase th = Waiting p hit → p ∉ locked s →
    acquire page disableStickyExecution th p hit s = (Ret r, s') →
    step (System s ths) (System s' (next_thread i r ths))
| step_work {A} s ths i th p (m : M wctx A) :
    ths !! i = Some th → th_phase th = Holding p → ctx_work m →
    step (System s ths) (System (snd (on_ctx p m s)) ths)
| step_unlock s ths i th p err s' :
    ths !! i = Some th → th_phase th = Holding p →
    Unlock disableStickyExecution p err s = (Ret tt, s') →
    step (System s ths) (System s' (delete i ths))
| step_evict s ths j p s' :
    cache_removed (wcache s) !! j = Some p → j ∉ evicted s → p ∉ locked s →
    runEviction config j p s = (Ret tt, s') →
    step (System s ths) (System s' ths).

(** ** Orphans *)

(** A handler that has seen no event has started no coroutine. *)
Definition live (w : wctx) : Prop :=
  ∃ e, eventHandler w = inr e ∧ e ≠ newEnv (workflowInfo e).

Definition pending_eviction s p : Prop :=
  ∃ j, cache_removed (wcache s) !! j = Some p ∧ j ∉ evicted s.

(** Nothing will ever clear the context or use it again. *)
Definition orphaned s p : Prop :=
  ∃ sl, slots s !! p = Some sl ∧ live (slot_ctx sl) ∧
    cache_find (wcache s) (slot_run sl) ≠ Some p ∧ ¬ pending_eviction s p ∧ p ∉ locked s.

(** One task of a run at a time, and no query with the whole history for a run
    that is in the cache. *)
Definition disciplined x : Prop :=
  (∀ i j thi thj, threads x !! i = Some thi → threads x !! j = Some thj →
     th_run thi = th_run thj → i = j) ∧
  (∀ i th, threads x !! i = Some th → th_phase th = Looking →
     is_query (th_task th) = true → isFullHistory (taskEvents (th_task th)) = true →
     cache_find (wcache (sys x)) (th_run th) = None).

Definition disciplined_step x y : Prop := step x y ∧ disciplined x.

(** ** The invariant *)

(** Whoever has the context [p] of a run has the one that the cache has, if any. *)
Definition thread_ok s th : Prop :=
  match th_phase th with
  | Looking => True
  | Created p =>
      slot_run <$> slots s !! p = Some (th_run th) ∧ cache_find (wcache s) (th_run th) = None
  | Waiting p _ | Holding p =>
      slot_run <$> slots s !! p = Some (th_run th) ∧
      (cache_find (wcache s) (th_run th) = None ∨ cache_find (wcache s) (th_run th) = Some p)
  end.

Definition accounted s p (sl : slot) : Prop :=
  cache_find (wcache s) (slot_run sl) = Some p ∨ pending_eviction s p ∨ p ∈ locked s.

Record inv x : Prop := {
  inv_cache : cache_ok (wcache (sys x));
  inv_find k p : cache_find (wcache (sys x)) k = Some p → slot_run <$> slots (sys x) !! p = Some k;
  inv_evicted j : j ∈ evicted (sys x) → j < length (cache_removed (wcache (sys x)));
  inv_live p sl : slots (sys x) !! p = Some sl → live (slot_ctx sl) → accounted (sys x) p sl;
  inv_thread i th : threads x !! i = Some th → thread_ok (sys x) th;
  inv_held i th p : threads x !! i = Some th → th_phase th = Holding p → p ∈ locked (sys x) }.

(** ** The parts of the state change one at a time *)

Lemma inv_set_ctx s ths p sl w :
  slots s !! p = Some sl → (live w → accounted s p sl) → inv (System s ths) →
  inv (System (Worker (<[p := Slot (slot_run sl) w]> (slots s)) (wcache s) (locked s) (evicted s)) ths).
Proof.
  intros Hp Hw [Hc Hf He Hl Ht Hh]. apply lookup_lt_Some in Hp as Hlt.
  assert (Hrun : ∀ q, slot_run <$> (<[p := Slot (slot_run sl) w]> (slots s)) !! q =
                      slot_run <$> slots s !! q).
  { intros q. destruct (decide (q = p)) as [->|Hne].
    - rewrite list_lookup_insert_eq, Hp by done. done.
    - by rewrite list_lookup_insert_ne. }
  split; simpl in *; try done.
  - intros k q Hq. rewrite Hrun. auto.
  - intros q sl' Hq Hlive. destruct (decide (q = p)) as [->|Hne].
    + rewrite list_lookup_insert_eq in Hq by done. simplify_eq/=. apply Hw, Hlive.
    + rewrite list_lookup_insert_ne in Hq by done. by apply Hl.
  - intros i th Hi. specialize (Ht i th Hi). unfold thread_ok in *; simpl.
    destruct (th_phase th); by rewrite ?Hrun.
Qed.

Lemma inv_on_ctx {A} s ths p (m : M wctx A) :
  inv (System s ths) → p ∈ locked s ∨ (∀ w, ¬ live (snd (m w))) →
  inv (System (snd (on_ctx p m s)) ths).
Proof.
  intros Hinv Hp. unfold on_ctx. destruct (slots s !! p) as [sl|] eqn:Hs; [|done].
  destruct (m (slot_ctx sl)) as [o w] eqn:Hm. simpl. apply inv_set_ctx; [done| |done].
  intros Hlive. destruct Hp as [Hp|Hp]; [by right; right|].
  destruct (Hp (slot_ctx sl)). by rewrite Hm.
Qed.

Lemma on_ctx_frame {A} s p (m : M wctx A) :
  let s' := snd (on_ctx p m s) in
  wcache s' = wcache s ∧ locked s' = locked s ∧ evicted s' = evicted s ∧
  ∀ q, slot_run <$> slots s' !! q = slot_run <$> slots s !! q.
Proof.
  unfold on_ctx. destruct (slots s !! p) as [sl|] eqn:Hs; [|done].
  destruct (m (slot_ctx sl)) as [o w]. simpl. split_and!; try done.
  intros q. apply lookup_lt_Some in Hs as Hlt. destruct (decide (q = p)) as [->|Hne].
  - rewrite list_lookup_insert_eq, Hs by done. done.
  - by rewrite list_lookup_insert_ne.
Qed.

Lemma inv_lock s ths p : inv (System s ths) → inv (System (set_locked ({[p]} ∪ locked s) s) ths).
Proof.
  intros [Hc Hf He Hl Ht Hh]. split; simpl in *; try done.
  - intros q sl Hq Hlive. destruct (Hl q sl Hq Hlive) as [?|[?|?]]; [by left|by right; left|].
    right; right; simpl. set_solver.
  - intros i th q Hi Hq. specialize (Hh i th q Hi Hq). set_solver.
Qed.

Lemma inv_release s ths p :
  inv (System s ths) →
  (∀ sl, slots s !! p = Some sl → live (slot_ctx sl) →
     cache_find (wcache s) (slot_run sl) = Some p ∨ pending_eviction s p) →
  (∀ i th, ths !! i = Some th → th_phase th ≠ Holding p) →
  inv (System (set_locked (locked s ∖ {[p]}) s) ths).
Proof.
  intros [Hc Hf He Hl Ht Hh] Hp Hno. split; simpl in *; try done.
  - intros q sl Hq Hlive. unfold accounted; simpl. destruct (decide (q = p)) as [->|Hne].
    + destruct (Hp sl Hq Hlive); auto.
    + destruct (Hl q sl Hq Hlive) as [?|[?|?]]; [by left|by right; left|]. right; right. set_solver.
  - intros i th q Hi Hq. specialize (Hh i th q Hi Hq).
    destruct (decide (q = p)) as [->|?]; [by destruct (Hno i th Hi)|set_solver].
Qed.

Lemma inv_delete s ths i : inv (System s ths) → inv (System s (delete i ths)).
Proof.
  intros [Hc Hf He Hl Ht Hh]. split; simpl in *; try done.
  - intros j th [_ Hj]%lookup_delete_Some. eauto.
  - intros j th q [_ Hj]%lookup_delete_Some. eauto.
Qed.

Lemma inv_insert s ths i th :
  inv (System s ths) → thread_ok s th → (∀ p, th_phase th = Holding p → p ∈ locked s) →
  inv (System s (<[i := th]> ths)).
Proof.
  intros [Hc Hf He Hl Ht Hh] Hok Hp. split; simpl in *; try done.
  - intros j th' [[_ <-]|[_ Hj]]%lookup_insert_Some; eauto.
  - intros j th' q [[_ <-]|[_ Hj]]%lookup_insert_Some; eauto.
Qed.

(** The cache drops entries to the eviction function, and gains at most an entry
    of a run that no thread is at. *)
Lemma inv_cache_change s ths c' l :
  inv (System s ths) → cache_ok c' → cache_removed c' = cache_removed (wcache s) ++ l →
  (∀ k p, cache_find c' k = Some p → cache_find (wcache s) k = Some p ∨
     (slot_run <$> slots s !! p = Some k ∧ ∀ i th, ths !! i = Some th → th_run th ≠ k)) →
  (∀ k p, cache_find (wcache s) k = Some p → cache_find c' k = Some p ∨ p ∈ l) →
  inv (System (Worker (slots s) c' (locked s) (evicted s)) ths).
Proof.
  intros [Hc Hf He Hl Ht Hh] Hok Hrm Hnew Hold. split; simpl in *; try done.
  - intros k p [Hk|[Hk _]]%Hnew; eauto.
  - intros j Hj%He. rewrite Hrm, length_app. lia.
  - intros p sl Hp Hlive. unfold accounted, pending_eviction; simpl.
    destruct (Hl p sl Hp Hlive) as [Hfind|[(j & Hj & Hnj)|?]]; [| |by auto].
    + destruct (Hold _ _ Hfind) as [?|[n Hn]%list_elem_of_lookup_1]; [by left|]. right; left.
      exists (length (cache_removed (wcache s)) + n). rewrite Hrm. split.
      * rewrite lookup_app_r by lia. by replace (_ + n - _) with n by lia.
      * intros Hj%He. lia.
    + right; left. exists j. rewrite Hrm. by eauto using lookup_app_l_Some.
  - intros i th Hi. specialize (Ht i th Hi). unfold thread_ok in *; simpl.
    assert (Hsame : ∀ p, cache_find c' (th_run th) = Some p → cache_find (wcache s) (th_run th) = Some p).
    { intros p [?|[_ Hno]]%Hnew; [done|]. by destruct (Hno i th Hi). }
    destruct (cache_find c' (th_run th)) as [q|] eqn:Hq.
    + rewrite (Hsame q eq_refl) in Ht. done.
    + destruct (th_phase th); naive_solver.
Qed.

Lemma inv_alloc s ths sl :
  inv (System s ths) → ¬ live (slot_ctx sl) →
  inv (System (Worker (slots s ++ [sl]) (wcache s) (locked s) (evicted s)) ths).
Proof.
  intros [Hc Hf He Hl Ht Hh] Hsl.
  assert (Hrun : ∀ p r, slot_run <$> slots s !! p = Some r →
                        slot_run <$> (slots s ++ [sl]) !! p = Some r).
  { intros p r Hp. destruct (slots s !! p) as [sl'|] eqn:E; [|done].
    by erewrite lookup_app_l_Some. }
  split; simpl in *; try done.
  - eauto.
  - intros p sl' [Hp|[_ Hp]]%lookup_app_Some Hlive; [by apply Hl|].
    apply list_lookup_singleton_Some in Hp as [_ <-]. done.
  - intros i th Hi. specialize (Ht i th Hi). unfold thread_ok in *; simpl.
    destruct (th_phase th); naive_solver.
Qed.

(** ** What is not live *)

Lemma not_live_clearState w : ¬ live (snd (clearState w)).
Proof. intros (e & He & _). done. Qed.

Lemma not_live_onEviction w : ¬ live (snd (onEviction config w)).
Proof.
  unfold onEviction, queueResetStickinessTask. run.
  destruct (shouldResetStickyOnEviction w); [destruct (wth_laTunnel config)|];
    apply not_live_clearState.
Qed.

Lemma createWorkflowContext_fresh task w token :
  createWorkflowContext config task = Ret (inr w) → ¬ live (set_wtask task token w).
Proof.
  unfold createWorkflowContext. intros E.
  destruct (taskEvents task) as [|e es]; [done|].
  destruct (HistoryEvent_WorkflowExecutionStartedEventAttributes e) as [a|]; [|done].
  destruct (WorkflowExecutionStartedEventAttributes_TaskList a); [|done].
  destruct (PollForDecisionTaskResponse_WorkflowType task); [|done].
  simpl in E. injection E as <-. intros (e' & [= <-] & Hne). by apply Hne.
Qed.

(** ** The steps *)

Section laws.
Context `{!CacheLaws C}.

Lemma Unlock_keeps_orphans_out s ths i th p err s' :
  inv (System s ths) → ths !! i = Some th → th_phase th = Holding p ∨ (∃ hit, th_phase th = Waiting p hit) →
  p ∈ locked s → (∀ j thj, ths !! j = Some thj → th_run thj = th_run th → j = i) →
  Unlock disableStickyExecution p err s = (Ret tt, s') → inv (System s' (delete i ths)).
Proof.
  intros Hinv Hi Hph Hp Hone Hun. apply (inv_delete _ _ i) in Hinv as Hinv'.
  assert (Hok : slot_run <$> slots s !! p = Some (th_run th) ∧
    (cache_find (wcache s) (th_run th) = None ∨ cache_find (wcache s) (th_run th) = Some p)).
  { pose proof (inv_thread _ Hinv i th Hi) as H. unfold thread_ok in H.
    destruct Hph as [E|[hit E]]; by rewrite E in H. }
  destruct Hok as [Hrun Hfind].
  assert (Hno : ∀ j thj, delete i ths !! j = Some thj → th_phase thj ≠ Holding p).
  { intros j thj [Hne Hj]%lookup_delete_Some Hph'. apply Hne. symmetry. apply (Hone j thj Hj).
    pose proof (inv_thread _ Hinv j thj Hj) as H. unfold thread_ok in H. rewrite Hph' in H.
    destruct H as [H _]. simpl in H. congruence. }
  unfold Unlock in Hun. run_in Hun.
  destruct (slots s !! p) as [sl|] eqn:Hsl; [|done]. simpl in Hrun. injection Hrun as Hrun.
  pose proof (inv_cache _ Hinv) as Hc. simpl in Hc. rewrite (exist_law _ _ Hc), Hrun in Hun.
  destruct Hfind as [Hfind|Hfind]; rewrite Hfind in Hun; simpl in Hun.
  - assert (Hcl : on_ctx p clearState s =
      (Ret tt, snd (on_ctx p clearState s))) by (unfold on_ctx; by rewrite Hsl).
    assert (E : s' = set_locked (locked s ∖ {[p]}) (snd (on_ctx p clearState s))).
    { destruct (on_ctx_frame s p clearState) as (_ & <- & _).
      destruct (mustClear _ _ _); rewrite Hcl in Hun; by injection Hun as <-. }
    subst s'. destruct (on_ctx_frame s p clearState) as (_ & <- & _).
    apply inv_release; [|intros sl' Hsl' Hlive; exfalso|done].
    + apply inv_on_ctx; [done|]. right. apply not_live_clearState.
    + revert Hsl' Hlive. unfold on_ctx. rewrite Hsl. simpl.
      rewrite list_lookup_insert_eq by (by eapply lookup_lt_Some). intros [= <-].
      apply not_live_clearState.
  - destruct (mustClear _ _ _); [|injection Hun as <-; apply inv_release; [done| |done]].
    + unfold removeWorkflowContext, on_cache in Hun.
      destruct (delete_law (th_run th) _ Hc) as (c' & Hdel & Hok' & Hrm & Hview).
      rewrite Hdel in Hun. injection Hun as <-. rewrite Hfind in Hrm. simpl in Hrm.
      apply (inv_release (Worker (slots s) c' (locked s) (evicted s))); [| |done].
      * apply (inv_cache_change s _ c' [p]); [done..| |].
        -- intros k q Hq. rewrite Hview in Hq. case_decide; [done|by left].
        -- intros k q Hq. rewrite Hview. case_decide; [subst; right; set_solver|by left].
      * intros sl' _ _. right. exists (length (cache_removed (wcache s))). simpl. rewrite Hrm.
        split; [by rewrite list_lookup_middle|]. intros Hj%(inv_evicted _ Hinv). simpl in Hj. lia.
    + intros sl' Hsl' _. left. simplify_eq. by rewrite Hrun.
Qed.

Lemma inv_look s ths i th now r s' :
  inv (System s ths) → ths !! i = Some th → th_phase th = Looking →
  (is_query (th_task th) = true → isFullHistory (taskEvents (th_task th)) = true →
   cache_find (wcache s) (th_run th) = None) →
  look page config disableStickyExecution now th s = (Ret r, s') →
  inv (System s' (next_thread i r ths)).
Proof.
  intros Hinv Hi Hph Hq Hlook. pose proof (inv_cache _ Hinv) as Hc. simpl in Hc.
  assert (∃ s1 found, (if negb (is_query (th_task th)) || negb (isFullHistory (taskEvents (th_task th)))
      then getWorkflowContext now (runID (th_task th)) else mret None) s = (Ret found, s1) ∧
    inv (System s1 ths) ∧ cache_find (wcache s1) (th_run th) = found) as (s1 & found & E & Hinv1 & Hfound).
  { destruct (get_law now (runID (th_task th)) _ Hc) as (c' & Hget & Hok & Hsame & Hrm).
    destruct (is_query (th_task th)) eqn:Eq, (isFullHistory (taskEvents (th_task th))) eqn:Ef; simpl;
      [exists s, None; by auto|..];
      (eexists _, _; unfold getWorkflowContext, on_cache; rewrite Hget; split; [reflexivity|];
       split; [|simpl; by rewrite Hsame];
       apply (inv_cache_change s ths c' []); [done..|by rewrite app_nil_r| |];
       intros k p; rewrite Hsame; by auto). }
  unfold look in Hlook. run_in Hlook. run_in E. rewrite E in Hlook. destruct found as [p|].
  { injection Hlook as <- <-. simpl. apply inv_insert; [done| |done]. split; [|by right].
    by apply (inv_find _ Hinv1). }
  set (next := if isFullHistory _ then _ else _) in Hlook.
  assert (Hnext : ∀ task token, next = inr (task, token) → runID task = th_run th).
  { intros task token. unfold next. destruct (isFullHistory _); [by intros [= <- _]|].
    destruct (page None) as [|[]]; [done|]. by intros [= <- _]. }
  destruct next as [err|[task token]]; [injection Hlook as <- <-; by apply inv_delete|].
  specialize (Hnext task token eq_refl).
  destruct (createWorkflowContext config task) as [[err|w]|] eqn:Hcreate; [|..|done];
    [injection Hlook as <- <-; by apply inv_delete|].
  injection Hlook as <- <-. simpl. apply inv_insert; [|unfold thread_ok|].
  - apply inv_alloc; [done|]. by apply createWorkflowContext_fresh.
  - destruct (_ && _); unfold th_run at 1; simpl; rewrite list_lookup_middle by done; simpl;
      unfold th_run; simpl; rewrite Hnext; by auto.
  - intros q. simpl. by destruct (_ && _).
Qed.

Lemma inv_insertNew s ths i th p now th' s' :
  inv (System s ths) → ths !! i = Some th → th_phase th = Created p →
  (∀ j thj, ths !! j = Some thj → th_run thj = th_run th → j = i) →
  insertNew now th p s = (Ret th', s') → inv (System s' (<[i := th']> ths)).
Proof.
  intros Hinv Hi Hph Hone Hins. pose proof (inv_cache _ Hinv) as Hc. simpl in Hc.
  pose proof (inv_thread _ Hinv i th Hi) as Hok. unfold thread_ok in Hok. rewrite Hph in Hok.
  destruct Hok as [Hrun Hnone]. simpl in *.
  destruct (put_law now (th_run th) p _ Hc) as (c' & l & Hput & Hok' & Hrm & Hnew & Hold).
  unfold insertNew, putWorkflowContext, on_cache in Hins. run_in Hins.
  rewrite Hput, Hnone in Hins. simpl in Hins. injection Hins as <- <-.
  rewrite <- insert_delete_eq. apply inv_insert; [| |done].
  - apply (inv_cache_change s _ c' l); [by apply inv_delete|done..| |done].
    intros k q Hq. destruct (Hnew k q Hq) as [?|(-> & -> & _)]; [by left|]. right.
    split; [done|]. intros j thj [Hne Hj]%lookup_delete_Some Heq. by apply Hne, eq_sym, (Hone j thj).
  - unfold thread_ok, th_run; simpl. split; [done|].
    destruct (cache_find c' (runID (th_task th))) as [q|] eqn:Hq; [|by left]. right.
    destruct (Hnew _ q Hq) as [Hq'|(_ & -> & _)]; [|done]. unfold th_run in Hnone. congruence.
Qed.

(** The task of a context keeps its run. *)
Lemma refresh_run r : pres (λ w, runID (wtask w) = r) (refresh page).
Proof.
  intros w Hw. unfold refresh. run. destruct (_ && _); [done|].
  destruct (taskEvents (wtask w)) as [|e es] eqn:He; [done|]. case_decide; [done|].
  unfold ResetIfStale, resetStateIfDestroyed, clearState, clearCurrentTask, createEventHandler,
    resetHistory. run. rewrite He. case_decide; [|done]. simpl. rewrite He.
  destruct (isFullHistory _); simpl; [done|]. by destruct (page None) as [|[]].
Qed.

Lemma resetStateIfDestroyed_run r : pres (λ w, runID (wtask w) = r) (resetStateIfDestroyed page).
Proof.
  intros w Hw. unfold resetStateIfDestroyed, createEventHandler, clearState, clearCurrentTask,
    resetHistory. run. destruct (IsDestroyed w); [|done].
  destruct (isFullHistory _); simpl; [done|]. by destruct (page None) as [|[]].
Qed.

(** A thread that has the lock of [p], whose task is of run [r]. *)
Definition owns ths p r s : Prop :=
  inv (System s ths) ∧ p ∈ locked s ∧
  ∃ sl, slots s !! p = Some sl ∧ runID (wtask (slot_ctx sl)) = r.

Lemma owns_on_ctx {A} ths p r (m : M wctx A) :
  pres (λ w, runID (wtask w) = r) m → pres (owns ths p r) (on_ctx p m).
Proof.
  intros Hm s (Hinv & Hp & sl & Hsl & Hr). split; [apply inv_on_ctx; auto|].
  destruct (on_ctx_frame s p m) as (_ & -> & _). split; [done|].
  specialize (Hm (slot_ctx sl) Hr). unfold on_ctx. rewrite Hsl.
  destruct (m (slot_ctx sl)) as [o w]. simpl in *. apply lookup_lt_Some in Hsl as Hlt.
  exists (Slot (slot_run sl) w). by rewrite list_lookup_insert_eq.
Qed.

Lemma owns_ready ths th p s :
  inv (System s ths) → slot_run <$> slots s !! p = Some (th_run th) →
  owns ths p (th_run th) (snd (on_ctx p (modify (set_wtask (th_task th) (th_token th)))
                                 (set_locked ({[p]} ∪ locked s) s))).
Proof.
  intros Hinv Hrun. destruct (slots s !! p) as [sl|] eqn:Hsl; [|done].
  apply (inv_lock s ths p) in Hinv. assert (Hp : p ∈ {[p]} ∪ locked s) by set_solver.
  split; [apply inv_on_ctx; auto|].
  unfold on_ctx; simpl. rewrite Hsl. simpl. split; [done|]. apply lookup_lt_Some in Hsl as Hlt.
  eexists. split; [by apply list_lookup_insert_eq|done].
Qed.

Lemma inv_acquire s ths i th p hit r s' :
  inv (System s ths) → ths !! i = Some th → th_phase th = Waiting p hit →
  (∀ j thj, ths !! j = Some thj → th_run thj = th_run th → j = i) →
  acquire page disableStickyExecution th p hit s = (Ret r, s') →
  inv (System s' (next_thread i r ths)).
Proof.
  intros Hinv Hi Hph Hone Hacq.
  pose proof (inv_thread _ Hinv i th Hi) as Hok. unfold thread_ok in Hok. rewrite Hph in Hok.
  destruct Hok as [Hrun _]. pose proof (owns_ready ths th p s Hinv Hrun) as H2.
  unfold acquire in Hacq. run_in Hacq.
  change (λ w : wctx, (Ret tt, set_wtask (th_task th) (th_token th) w))
    with (modify (set_wtask (th_task th) (th_token th))) in Hacq.
  destruct (on_ctx p (modify _) _) as [[[]|] s2]; [|done]. simpl in H2.
  assert (∃ s3, (if hit then on_ctx p (refresh page) else λ s : state, (Ret tt, s)) s2 = (Ret tt, s3) ∧
                owns ths p (th_run th) s3) as (s3 & E3 & H3).
  { destruct hit; [|by exists s2].
    pose proof (owns_on_ctx ths p _ _ (refresh_run (th_run th)) s2 H2) as H.
    destruct (on_ctx p (refresh page) s2) as [[[]|] s3]; [by exists s3|done]. }
  rewrite E3 in Hacq.
  pose proof (owns_on_ctx ths p _ _ (resetStateIfDestroyed_run (th_run th)) s3 H3) as H4.
  destruct (on_ctx p (resetStateIfDestroyed page) s3) as [[[err|]|] s4]; [|..|done];
    simpl in H4; destruct H4 as (Hinv4 & Hp4 & sl & Hsl & Hr).
  - destruct (Unlock _ p true s4) as [[[]|] s5] eqn:Hun; [|done]. injection Hacq as <- <-. simpl.
    eapply (Unlock_keeps_orphans_out s4 ths i th p); eauto.
  - unfold on_ctx in Hacq. rewrite Hsl in Hacq. simpl in Hacq. injection Hacq as <- <-. simpl.
    pose proof (inv_thread _ Hinv4 i th Hi) as Hok. unfold thread_ok in Hok. rewrite Hph in Hok.
    rewrite list_insert_id by (by rewrite Hsl; destruct sl).
    replace (Worker _ _ _ _) with s4 by (by destruct s4).
    apply inv_insert; [done| |by intros q [= <-]].
    unfold thread_ok, th_run in *; simpl in *. by rewrite Hr.
Qed.

Lemma inv_runEviction s ths j p s' :
  inv (System s ths) → cache_removed (wcache s) !! j = Some p →
  runEviction config j p s = (Ret tt, s') → inv (System s' ths).
Proof.
  intros Hinv Hj Hev. apply (inv_on_ctx s ths p (onEviction config)) in Hinv as Hinv';
    [|right; apply not_live_onEviction].
  destruct (on_ctx_frame s p (onEviction config)) as (Hc & _ & He & _).
  assert (Hdead : ∀ sl, slots (snd (on_ctx p (onEviction config) s)) !! p = Some sl →
                        ¬ live (slot_ctx sl)).
  { unfold on_ctx. destruct (slots s !! p) as [sl|] eqn:Hsl; [|simpl; congruence].
    destruct (onEviction config (slot_ctx sl)) as [o w] eqn:E. simpl. intros sl'.
    rewrite list_lookup_insert_eq by (by eapply lookup_lt_Some). intros [= <-]. simpl.
    pose proof (not_live_onEviction (slot_ctx sl)) as Hn. by rewrite E in Hn. }
  unfold runEviction in Hev. run_in Hev.
  destruct (on_ctx p (onEviction config) s) as [[[]|] s1]; [|done]. injection Hev as <-.
  simpl in *. destruct Hinv' as [Hc' Hf He' Hl Ht Hh]. split; simpl in *; try done.
  - intros n [->%elem_of_singleton|Hn]%elem_of_union; [|by auto].
    rewrite Hc. by eapply lookup_lt_Some.
  - intros q sl Hq Hlive. destruct (Hl q sl Hq Hlive) as [?|[(n & Hn & Hne)|?]];
      [by left| |by right; right]. right; left. exists n. split; [done|]. simpl.
    intros [->%elem_of_singleton|?]%elem_of_union; [|done].
    rewrite Hc in Hn. simplify_eq. by apply (Hdead sl).
Qed.

Lemma inv_step x y : inv x → disciplined x → step x y → inv y.
Proof.
  intros Hinv [Hone Hq] Hstep.
  destruct Hstep as [s ths i task token Hi Hck|s ths i th now r s' Hi Hph E
    |s ths i th p now th' s' Hi Hph E|s ths i th p hit r s' Hi Hph Hp E|A s ths i th p m Hi Hph Hm
    |s ths i th p err s' Hi Hph E|s ths j p s' Hj Hnj Hp E]; simpl in *.
  - by apply inv_insert.
  - eapply inv_look; eauto.
  - eapply inv_insertNew; eauto.
  - eapply inv_acquire; eauto.
  - apply inv_on_ctx; [done|]. left. by eapply (inv_held _ Hinv).
  - eapply Unlock_keeps_orphans_out; eauto. by eapply (inv_held _ Hinv).
  - by eapply inv_runEviction.
Qed.

(** A worker that starts, with an empty cache. *)
Definition started (c : C) : system := System (Worker [] c ∅ ∅) ∅.

Lemma inv_started c : cache_ok c → (∀ k, cache_find c k = None) → inv (started c).
Proof. intros Hc Hf. split; simpl; [done|intros k p; by rewrite Hf|done..]. Qed.

(** C17: No goroutine of a workflow is orphaned: whatever tasks arrive, however
    their steps and the evictions of the cache interleave, a context whose event
    handler has run is in the cache, or locked by a task that uses it, or about to
    be cleared by an eviction, provided that no two tasks of a run are under way
    at once and no query with the whole history arrives for a run in the cache. *)
Theorem no_context_orphaned c y p :
  cache_ok c → (∀ k, cache_find c k = None) → rtc disciplined_step (started c) y →
  ¬ orphaned (sys y) p.
Proof.
  intros Hc Hf Hrtc. assert (Hinv : inv y).
  { pose proof (inv_started c Hc Hf) as H0. clear Hc Hf. revert H0.
    induction Hrtc as [x|x z y [Hstep Hdis] _ IH]; [done|]. intros Hinv. by eapply IH, inv_step. }
  intros (sl & Hsl & Hlive & Hnc & Hnp & Hnl).
  by destruct (inv_live _ Hinv p sl Hsl Hlive) as [?|[?|?]].
Qed.

End laws.
End interleaving.
