(* ===== verification/TaskHandlerSample.v ===== *)
(** * Sample interleavings of workflow tasks

    An executable scheduler for the steps of TaskHandlerProps.v, the interleaving
    that instantiates its theorem, and the two interleavings that show why the
    theorem needs its conditions: each leaves a context behind. *)

From Stdlib Require Import ZArith Lia.
From stdpp Require Import base list gmap strings option relations.
From S2P Require Import Prelude.
From S2P Require Import Shared.
From S2P Require Import History.
From S2P Require Import Errors.
From S2P Require Import Environment.
From S2P Require Import EventHandlers.
From S2P Require Import EnvironmentProps.
From S2P Require Import WorkflowTask.
From S2P Require Import WorkflowTaskSample.
From S2P Require Import ContextCache.
From S2P Require Import TaskHandler.
From S2P Require Import TaskHandlerProps.

(** ** A scheduler *)

(** The history of WorkflowTaskSample.v, started on a task list. *)
Definition started_event : HistoryEvent :=
  numbered 1 (set_HistoryEvent_WorkflowExecutionStartedEventAttributes
    (Some (MkWorkflowExecutionStartedEventAttributes None None None None
       (Some (MkTaskList (Some "list") None None)) None None None None None None None None None
       None None None None None None None None None None None None None None None None))
    (Sample.event EventTypeWorkflowExecutionStarted)).
Definition run_events : list HistoryEvent := started_event :: tail (task_events "Act").

Definition sample_page : pageFunc := λ _, inr (run_events, None).
Definition the_config : workerConfig := sample_config NonDeterministicWorkflowPolicyBlockWorkflow.
Definition sample_scaled : LocalRetryPolicy → Z → Z := λ _ _, 0%Z.

Abbreviation psystem := (system (C:=plru)).
Abbreviation sstep := (step Sample.sample_dc Sample.workflow Sample.definition sample_page (λ _, 0%Z)
  the_config no_queries (λ _, "event") (λ _, "decision") (λ s, s) sample_scaled false).

Inductive action :=
| Arrive (i : nat) (task : PollForDecisionTaskResponse)
| Look (i : nat)
| Insert (i : nat)
| Lock (i : nat)
| Process (i : nat)
| Finish (i : nat) (err : bool)
| Evict (j : nat).

Global Instance phase_eq_dec : EqDecision phase.
Proof. solve_decision. Defined.

(** One step of the thread or the eviction that the action names, if it can be
    taken. *)
Definition act (a : action) (x : psystem) : option psystem :=
  let '(System s ths) := x in
  match a with
  | Arrive i task =>
      if decide (ths !! i = None ∧ checkTask task = None)
      then Some (System s (<[i := Thread task None Looking]> ths)) else None
  | Look i =>
      th ← ths !! i;
      if decide (th_phase th = Looking) then
        match look sample_page the_config false 0 th s with
        | (Ret r, s') => Some (System s' (next_thread i r ths))
        | _ => None
        end
      else None
  | Insert i =>
      th ← ths !! i;
      match th_phase th with
      | Created p =>
          match insertNew 0 th p s with
          | (Ret th', s') => Some (System s' (<[i := th']> ths))
          | _ => None
          end
      | _ => None
      end
  | Lock i =>
      th ← ths !! i;
      match th_phase th with
      | Waiting p hit =>
          if decide (p ∉ locked s) then
            match acquire sample_page false th p hit s with
            | (Ret r, s') => Some (System s' (next_thread i r ths))
            | _ => None
            end
          else None
      | _ => None
      end
  | Process i =>
      th ← ths !! i;
      match th_phase th with
      | Holding p => Some (System (snd (on_ctx p (process Sample.workflow Sample.definition
          sample_page (λ _, 0%Z) the_config no_queries (λ _, "event") (λ _, "decision") (λ s, s)
          10 17) s)) ths)
      | _ => None
      end
  | Finish i err =>
      th ← ths !! i;
      match th_phase th with
      | Holding p =>
          match Unlock false p err s with
          | (Ret _, s') => Some (System s' (delete i ths))
          | _ => None
          end
      | _ => None
      end
  | Evict j =>
      p ← (cache_removed (wcache s) !! j : option nat);
      if decide ((j ∉ evicted s) ∧ (p ∉ locked s)) then
        match runEviction the_config j p s with
        | (Ret _, s') => Some (System s' ths)
        | _ => None
        end
      else None
  end.

Lemma act_step a x y : act a x = Some y → sstep x y.
Proof.
  destruct x as [s ths]. unfold act. intros H.
  destruct a as [i task|i|i|i|i|i err|j].
  - case_decide as Hd; [|done]. destruct Hd. injection H as <-. by constructor.
  - destruct (ths !! i) as [th|] eqn:Hi; [|done]. simpl in H. case_decide; [|done].
    destruct (look _ _ _ _ _ _) as [[r|] s'] eqn:E; [|done]. injection H as <-.
    by eapply step_look.
  - destruct (ths !! i) as [th|] eqn:Hi; [|done]. simpl in H.
    destruct (th_phase th) as [|p| |] eqn:Hp; try done.
    destruct (insertNew _ _ _ _) as [[r|] s'] eqn:E; [|done]. injection H as <-.
    by eapply step_insert.
  - destruct (ths !! i) as [th|] eqn:Hi; [|done]. simpl in H.
    destruct (th_phase th) as [| |p hit|] eqn:Hp; try done. case_decide; [|done].
    destruct (acquire _ _ _ _ _ _) as [[r|] s'] eqn:E; [|done]. injection H as <-.
    by eapply step_lock.
  - destruct (ths !! i) as [th|] eqn:Hi; [|done]. simpl in H.
    destruct (th_phase th) as [| | |p] eqn:Hp; try done. injection H as <-.
    eapply step_work; [done..|]. constructor.
  - destruct (ths !! i) as [th|] eqn:Hi; [|done]. simpl in H.
    destruct (th_phase th) as [| | |p] eqn:Hp; try done.
    destruct (Unlock _ _ _ _) as [[[]|] s'] eqn:E; [|done]. injection H as <-.
    by eapply step_unlock.
  - destruct (cache_removed (wcache s) !! j) as [p|] eqn:Hj; [|done]. simpl in H.
    case_decide as Hd; [|done]. destruct Hd.
    destruct (runEviction _ _ _ _) as [[[]|] s'] eqn:E; [|done]. injection H as <-.
    by eapply step_evict.
Qed.

Fixpoint acts (l : list action) (x : psystem) : option psystem :=
  match l with [] => Some x | a :: l => act a x ≫= acts l end.

Lemma acts_steps l x y : acts l x = Some y → rtc sstep x y.
Proof.
  revert x. induction l as [|a l IH]; intros x; simpl; [by intros [= ->]|].
  destruct (act a x) as [z|] eqn:E; [|done]. intros Hz. eapply rtc_l; [by eapply act_step|by apply IH].
Qed.

(** The conditions of the theorem, computed. *)
Definition disciplinedb (x : psystem) : bool :=
  bool_decide (NoDup ((λ ith : nat * thread, th_run (snd ith)) <$> map_to_list (threads x)))
  && forallb (λ ith : nat * thread,
       negb (bool_decide (th_phase (snd ith) = Looking) && is_query (th_task (snd ith))
             && isFullHistory (taskEvents (th_task (snd ith))))
       || bool_decide (cache_find (wcache (sys x)) (th_run (snd ith)) = None))
     (map_to_list (threads x)).

Lemma disciplinedb_ok x : disciplinedb x = true → disciplined x.
Proof.
  intros [Hnd Hq]%andb_true_iff. apply bool_decide_eq_true in Hnd. rewrite forallb_forall in Hq.
  split.
  - intros i j thi thj Hi Hj Heq.
    apply elem_of_map_to_list, list_elem_of_lookup_1 in Hi as [n Hn].
    apply elem_of_map_to_list, list_elem_of_lookup_1 in Hj as [m Hm].
    assert (n = m) as ->; [|by simplify_eq].
    eapply (NoDup_lookup _ n m (th_run thi) Hnd); rewrite list_lookup_fmap.
    + by rewrite Hn.
    + rewrite Hm. simpl. by rewrite Heq.
  - intros i th Hi Hph Hquery Hfull.
    assert (Hin : (i, th) ∈ map_to_list (threads x)) by (by apply elem_of_map_to_list).
    apply list_elem_of_In, Hq in Hin. simpl in Hin. rewrite Hquery, Hfull in Hin.
    rewrite bool_decide_true in Hin by done. simpl in Hin. by apply bool_decide_eq_true in Hin.
Qed.

Fixpoint disciplined_acts (l : list action) (x : psystem) : option psystem :=
  match l with
  | [] => Some x
  | a :: l => if disciplinedb x then act a x ≫= disciplined_acts l else None
  end.

Abbreviation dstep := (disciplined_step Sample.sample_dc Sample.workflow Sample.definition
  sample_page (λ _, 0%Z) the_config no_queries (λ _, "event") (λ _, "decision") (λ s, s)
  sample_scaled false).

Lemma disciplined_acts_steps l x y : disciplined_acts l x = Some y → rtc dstep x y.
Proof.
  revert x. induction l as [|a l IH]; intros x; simpl; [by intros [= ->]|].
  destruct (disciplinedb x) eqn:Hd; [|done]. destruct (act a x) as [z|] eqn:E; [|done].
  intros Hz. eapply rtc_l; [|by apply IH]. split; [by eapply act_step|by apply disciplinedb_ok].
Qed.

(** ** Interleavings *)

(** A decision task with the whole history, a query with it, and a query with
    no history; the decision task of another run. *)
Definition task_of (run : string) (events : list HistoryEvent) (q : option WorkflowQuery) :=
  MkPollForDecisionTaskResponse (Some "token")
    (Some (MkWorkflowExecution (Some "flow-id") (Some run)))
    (Some (MkWorkflowType (Some "Flow"))) (Some 3%Z) (Some 8%Z) None None (Some events) None
    q None None None None (Some 9%Z) None None.
Definition some_query : option WorkflowQuery := Some (MkWorkflowQuery (Some "q") None).
Definition decision_task run := task_of run run_events None.
Definition full_query run := task_of run run_events some_query.
Definition partial_query run := task_of run [] some_query.

(** A cache that holds one entry. *)
Abbreviation start := (started (newWorkflowCache 2)).

Definition whole (i : nat) (task : PollForDecisionTaskResponse) (insert : bool) : list action :=
  [Arrive i task; Look i] ++ (if insert then [Insert i] else []) ++ [Lock i; Process i; Finish i false].

(** A decision task, a query of the cached context, a task of another run that
    evicts it, its eviction, and a query that has to build its own context. *)
Definition good_run : list action :=
  whole 0 (decision_task "run") true ++ whole 1 (partial_query "run") false ++
  whole 2 (decision_task "other") true ++ [Evict 0] ++ whole 3 (full_query "run") false.

Abbreviation good_end := (default start (disciplined_acts good_run start)).

Lemma no_context_orphaned_witness :
  length (slots (sys good_end)) = 3 ∧ ∀ p, ¬ orphaned (sys good_end) p.
Proof.
  split; [vm_compute; reflexivity|]. intros p.
  apply (no_context_orphaned Sample.sample_dc Sample.workflow Sample.definition
    sample_page (λ _, 0%Z) the_config no_queries (λ _, "event") (λ _, "decision") (λ s, s)
    sample_scaled false (newWorkflowCache 2) good_end p).
  - apply newWorkflowCache_ok.
  - intros k. reflexivity.
  - apply (disciplined_acts_steps good_run). vm_compute. reflexivity.
Defined.

Definition orphanedb (s : worker plru) (p : nat) : bool :=
  match slots s !! p with
  | None => false
  | Some sl =>
      match eventHandler (slot_ctx sl) with
      | inr e => bool_decide (calls e ≠ [] ∨ counterID e ≠ 0%Z)
      | inl _ => false
      end
      && bool_decide (cache_find (wcache s) (slot_run sl) ≠ Some p)
      && forallb (λ j, negb (bool_decide (cache_removed (wcache s) !! j = Some p))
                       || bool_decide (j ∈ evicted s))
           (seq 0 (length (cache_removed (wcache s))))
      && bool_decide (p ∉ locked s)
  end.

Lemma orphanedb_ok s p : orphanedb s p = true → orphaned s p.
Proof.
  unfold orphanedb. destruct (slots s !! p) as [sl|] eqn:Hsl; [|done].
  intros [[[Hl Hc]%andb_true_iff Hr]%andb_true_iff Hk]%andb_true_iff.
  apply bool_decide_eq_true in Hc, Hk. rewrite forallb_forall in Hr.
  exists sl. split_and!; [done| |done| |done].
  - unfold live. destruct (eventHandler (slot_ctx sl)) as [|e]; [done|]. exists e. split; [done|].
    apply bool_decide_eq_true in Hl. intros E. rewrite E in Hl. naive_solver.
  - intros (j & Hj & Hne). specialize (Hr j). rewrite in_seq in Hr.
    apply lookup_lt_Some in Hj as Hlt. specialize (Hr ltac:(lia)).
    rewrite (bool_decide_true (_ = Some p)) in Hr by done. simpl in Hr.
    by apply bool_decide_eq_true in Hr.
Qed.

(** A query with the whole history, for a run that is in the cache: its context
    is not put into the cache, but [Unlock] finds the run there and leaves it. *)
Definition query_run : list action :=
  whole 0 (decision_task "run") true ++ whole 1 (full_query "run") false.

Example full_history_query_orphans :
  ∃ y, rtc sstep start y ∧ orphaned (sys y) 1.
Proof.
  exists (default start (acts query_run start)). split.
  - apply (acts_steps query_run). vm_compute. reflexivity.
  - apply orphanedb_ok. vm_compute. reflexivity.
Qed.

(** A query gets the cached context, which is evicted and cleared before the
    query has the lock; a decision task puts another context of the run into the
    cache; the query builds its state again and, for the same reason, leaves it. *)
Definition race : list action :=
  whole 0 (decision_task "run") true ++ [Arrive 1 (partial_query "run"); Look 1] ++
  whole 2 (decision_task "other") true ++ [Evict 0] ++ whole 3 (decision_task "run") true ++
  [Lock 1; Process 1; Finish 1 false].

Example concurrent_tasks_orphan :
  ∃ y, rtc sstep start y ∧ orphaned (sys y) 0.
Proof.
  exists (default start (acts race start)). split.
  - apply (acts_steps race). vm_compute. reflexivity.
  - apply orphanedb_ok. vm_compute. reflexivity.
Qed.
