(* ===== verification/Backoff.v ===== *)
(** * Retries of calls to the service

    internal/common/backoff/retrypolicy.go and retry.go: the exponential retry
    policy, the retrier and the loop that retries an operation; and
    internal/internal_retry.go: the policy and the errors with which calls to the
    service are retried.  Durations are nanoseconds. *)

From Stdlib Require Import ZArith SpecFloat Lia.
From stdpp Require Import base list strings option.
From S2P Require Import Prelude.
From S2P Require Import Errors.

Local Open Scope Z_scope.

(** ** Floating point *)

Definition float_lt (x y : float64) : bool :=
  match SFcompare x y with Some Lt => true | _ => false end.
Definition float_le_zero (x : float64) : bool :=
  match SFcompare x (S754_zero false) with Some Lt | Some Eq => true | _ => false end.

(** [math.Min] and [math.Max]. *)
Definition Min (x y : float64) : float64 :=
  match x, y with
  | S754_nan, _ => match y with S754_infinity true => y | _ => S754_nan end
  | _, S754_nan => match x with S754_infinity true => x | _ => S754_nan end
  | S754_zero sx, S754_zero _ => if sx then x else y
  | _, _ => if float_lt x y then x else y
  end.
Definition Max (x y : float64) : float64 :=
  match x, y with
  | S754_nan, _ => match y with S754_infinity false => y | _ => S754_nan end
  | _, S754_nan => match x with S754_infinity false => x | _ => S754_nan end
  | S754_zero sx, S754_zero _ => if sx then y else x
  | _, _ => if float_lt y x then x else y
  end.

(** The conversion to an int64 truncates; what is out of range becomes the least
    integer, as on amd64. *)
Definition Trunc (f : float64) : Z :=
  match f with
  | S754_zero _ => 0
  | S754_finite s m e =>
      let n := Z.pos m in
      let a := if bool_decide (0 <= e) then n * 2 ^ e else n / 2 ^ (- e) in
      let z := if s then - a else a in
      if bool_decide (- 2 ^ 63 <= z < 2 ^ 63) then z else - 2 ^ 63
  | _ => - 2 ^ 63
  end.

Definition SFconst (n d : Z) : float64 := SFdiv 53 1024 (float_of_int n) (float_of_int d).

(** ** The policy *)

Definition NoInterval : Z := 0.
Definition done : Z := -1.
Definition noMaximumAttempts : Z := 0.
Definition DefaultBackoffCoefficient : float64 := float_of_int 2.
Definition Second : Z := 1000000000.

Record ExponentialRetryPolicy := MkExponentialRetryPolicy {
  initialInterval : Z;
  backoffCoefficient : float64;
  maximumInterval : Z;
  expirationInterval : Z;
  maximumAttempts : Z }.

Implicit Types (p : ExponentialRetryPolicy).

Definition NewExponentialRetryPolicy (initial : Z) : ExponentialRetryPolicy :=
  MkExponentialRetryPolicy initial DefaultBackoffCoefficient (10 * Second) (60 * Second)
    noMaximumAttempts.
Definition SetInitialInterval x p := MkExponentialRetryPolicy x (backoffCoefficient p)
  (maximumInterval p) (expirationInterval p) (maximumAttempts p).
Definition SetBackoffCoefficient x p := MkExponentialRetryPolicy (initialInterval p) x
  (maximumInterval p) (expirationInterval p) (maximumAttempts p).
Definition SetMaximumInterval x p := MkExponentialRetryPolicy (initialInterval p)
  (backoffCoefficient p) x (expirationInterval p) (maximumAttempts p).
Definition SetExpirationInterval x p := MkExponentialRetryPolicy (initialInterval p)
  (backoffCoefficient p) (maximumInterval p) x (maximumAttempts p).
Definition SetMaximumAttempts x p := MkExponentialRetryPolicy (initialInterval p)
  (backoffCoefficient p) (maximumInterval p) (expirationInterval p) x.

(** ** The errors of the service *)

(** With the fields that the code reads. *)
Inductive serviceError :=
| AccessDeniedError
| BadRequestError
| CancellationAlreadyRequestedError
| ClientVersionNotSupportedError
| DomainAlreadyExistsError
| DomainNotActiveError
| EntityNotExistsError (currentCluster activeCluster : option string)
| FeatureNotEnabledError
| LimitExceededError
| QueryFailedError
| WorkflowExecutionAlreadyCompletedError
| WorkflowExecutionAlreadyStartedError (runId : option string)
| errShutdown
| ServiceBusyError
| InternalServiceError
| OtherError (text : string).

Definition isServiceTransientError (err : serviceError) : bool :=
  match err with
  | AccessDeniedError | BadRequestError | CancellationAlreadyRequestedError
  | ClientVersionNotSupportedError | DomainAlreadyExistsError | DomainNotActiveError
  | EntityNotExistsError _ _ | FeatureNotEnabledError | LimitExceededError | QueryFailedError
  | WorkflowExecutionAlreadyCompletedError | WorkflowExecutionAlreadyStartedError _
  | errShutdown => false
  | ServiceBusyError | InternalServiceError | OtherError _ => true
  end.

Definition ErrRetryableAfter (err : serviceError) : Z :=
  match err with ServiceBusyError => Second | _ => 0 end.

Definition retryServiceOperationInitialInterval : Z := 20 * 1000000.
Definition retryServiceOperationExpirationInterval : Z := 60 * Second.
Definition retryServiceOperationBackoff : float64 := SFconst 12 10.

(** [remaining]: the time to the deadline of the context, if it has one that is
    not over. *)
Definition createDynamicServiceRetryPolicy (remaining : option Z) : ExponentialRetryPolicy :=
  let timeout := default retryServiceOperationExpirationInterval remaining in
  let maximum := Z.quot timeout 10 in
  let maximum := if bool_decide (maximum < retryServiceOperationInitialInterval)
                 then retryServiceOperationInitialInterval else maximum in
  SetExpirationInterval timeout (SetMaximumInterval maximum
    (SetBackoffCoefficient retryServiceOperationBackoff
       (NewExponentialRetryPolicy retryServiceOperationInitialInterval))).

Section delays.
(** [math.Pow], whose result is not specified to the last bit. *)
Context (Pow : float64 → float64 → float64).

(** [rand] is what [rand.Intn(jitterPortion)] returns. *)
Definition ComputeNextDelay p (elapsedTime numAttempts : Z) (rand : Z → Z) : Z :=
  if negb (bool_decide (maximumAttempts p = noMaximumAttempts))
     && bool_decide (numAttempts >= maximumAttempts p) then done
  else if negb (bool_decide (expirationInterval p = NoInterval))
          && bool_decide (elapsedTime > expirationInterval p) then done
  else
  let nextInterval := SFmul 53 1024 (float_of_int (initialInterval p))
                        (Pow (backoffCoefficient p) (float_of_int numAttempts)) in
  if float_le_zero nextInterval then done else
  let nextInterval := if bool_decide (maximumInterval p = NoInterval) then nextInterval
                      else Min nextInterval (float_of_int (maximumInterval p)) in
  let nextInterval := if bool_decide (expirationInterval p = NoInterval) then nextInterval
                      else Min (Max (S754_zero false)
                                  (float_of_int (int64 (expirationInterval p - elapsedTime))))
                             nextInterval in
  if bool_decide (Trunc nextInterval < initialInterval p) then done else
  let jitterPortion := Z.max 1 (Trunc (SFmul 53 1024 (SFconst 1 5) nextInterval)) in
  Trunc (SFadd 53 1024 (SFmul 53 1024 nextInterval (SFconst 4 5))
           (float_of_int (rand jitterPortion))).

(** ** The retrier *)

Record retrierImpl := Retrier {
  re_policy : ExponentialRetryPolicy;
  currentAttempt : Z;
  startTime : Z }.

Definition NewRetrier p (now : Z) : retrierImpl := Retrier p 0 now.

Definition Reset (now : Z) : M retrierImpl unit :=
  modify (λ r, Retrier (re_policy r) 0 now).

(** [Sub] of package time saturates. *)
Definition getElapsedTime (now : Z) (r : retrierImpl) : Z :=
  Z.max (- 2 ^ 63) (Z.min (2 ^ 63 - 1) (now - startTime r)).

Definition NextBackOff (now : Z) (rand : Z → Z) : M retrierImpl Z :=
  r ← get;
  let next := ComputeNextDelay (re_policy r) (getElapsedTime now r) (currentAttempt r) rand in
  modify (λ r, Retrier (re_policy r) (int64 (currentAttempt r + 1)) (startTime r));;
  mret next.

(** ** Throttling *)

Record ConcurrentRetrier := MkConcurrentRetrier {
  cr_retrier : retrierImpl;
  failureCount : Z }.

Definition NewConcurrentRetrier p (now : Z) : ConcurrentRetrier :=
  MkConcurrentRetrier (NewRetrier p now) 0.

(** Returns the delay it slept; [done] for none. *)
Definition Throttle (now : Z) (rand : Z → Z) : M ConcurrentRetrier Z :=
  λ c, if bool_decide (failureCount c > 0) then
         let '(o, r) := NextBackOff now rand (cr_retrier c) in
         (o, MkConcurrentRetrier r (failureCount c))
       else (Ret done, c).

Definition Succeeded (now : Z) : M ConcurrentRetrier unit :=
  modify (λ c, MkConcurrentRetrier (snd (Reset now (cr_retrier c))) 0).
Definition Failed : M ConcurrentRetrier unit :=
  modify (λ c, MkConcurrentRetrier (cr_retrier c) (int64 (failureCount c + 1))).

(** ** The loop *)

(** What the loop meets at its [i]-th call of the operation: the error, the time
    and the random number when it asks for the delay, whether the context is done
    then, and whether it is done before the delay is over. *)
Record attempt := Attempt {
  at_result : option serviceError;
  at_now : Z;
  at_rand : Z → Z;
  at_ctxErr : bool;
  at_ctxDone : bool }.

Context (world : nat → attempt) (isRetriable : serviceError → bool).

(** Returns the error and the delays it waited for; [has_done]: the context can
    be canceled. *)
Fixpoint retryLoop (fuel : nat) (has_done : bool) (i : nat) (waited : list Z)
    : M retrierImpl (option serviceError * list Z) :=
  match fuel with
  | O => throw OutOfFuel
  | S fuel =>
      let a := world i in
      match at_result a with
      | None => mret (None, waited)
      | Some err =>
          next ← NextBackOff (at_now a) (at_rand a);
          if bool_decide (next = done) then mret (Some err, waited)
          else if negb (isRetriable err) then mret (Some err, waited)
          else
          let next := int64 (next + ErrRetryableAfter err) in
          if at_ctxErr a then mret (Some err, waited)
          else if has_done && at_ctxDone a then mret (Some err, waited)
          else retryLoop fuel has_done (i + 1) (waited ++ [next])
      end
  end.

Definition Retry (fuel : nat) (has_done : bool) p (now : Z)
    : outcome (option serviceError * list Z) :=
  fst (retryLoop fuel has_done 0 [] (NewRetrier p now)).

(** ** Properties *)

(** The loop goes on after its [i]-th call. *)
Definition goes_on (has_done : bool) p (now : Z) (i : nat) : Prop :=
  ∃ err, at_result (world i) = Some err ∧ isRetriable err = true ∧
    ComputeNextDelay p (getElapsedTime (at_now (world i)) (Retrier p (Z.of_nat i) now))
      (Z.of_nat i) (at_rand (world i)) ≠ done ∧
    at_ctxErr (world i) = false ∧ has_done && at_ctxDone (world i) = false.

Lemma retryLoop_step fuel has_done p now i waited :
  Z.of_nat i < 2 ^ 63 - 1 →
  (∃ delay, goes_on has_done p now i ∧
     retryLoop (S fuel) has_done i waited (Retrier p (Z.of_nat i) now) =
     retryLoop fuel has_done (i + 1) (waited ++ [delay]) (Retrier p (Z.of_nat (i + 1)) now)) ∨
  (¬ goes_on has_done p now i ∧
     fst (retryLoop (S fuel) has_done i waited (Retrier p (Z.of_nat i) now)) =
     Ret (at_result (world i), waited)).
Proof.
  intros Hi. cbn [retryLoop]. unfold goes_on.
  destruct (at_result (world i)) as [err|]; [|right; split; [naive_solver|done]].
  unfold NextBackOff. run. simpl.
  rewrite (int64_id (Z.of_nat i + 1)) by (unfold in_int64; lia).
  replace (Z.of_nat i + 1) with (Z.of_nat (i + 1)) by lia.
  case_bool_decide as Hd; [right; split; [naive_solver|done]|].
  destruct (isRetriable err) eqn:Hr; simpl; [|right; split; [naive_solver congruence|done]].
  destruct (at_ctxErr (world i)) eqn:Hc; [right; split; [naive_solver congruence|done]|].
  destruct (has_done && at_ctxDone (world i)) eqn:Hdn; [right; split; [naive_solver congruence|done]|].
  left. eexists. split; [naive_solver|reflexivity].
Qed.

(** After [n] calls that all ask for another one, the loop is at call [n]. *)
Lemma retryLoop_calls fuel has_done p now n i waited :
  Z.of_nat (i + n) < 2 ^ 63 - 1 → ¬ goes_on has_done p now (i + n) →
  (n < fuel)%nat →
  ∃ m delays, (m <= n)%nat ∧ length delays = m ∧
    (∀ j, (j < m)%nat → goes_on has_done p now (i + j)) ∧ ¬ goes_on has_done p now (i + m) ∧
    fst (retryLoop fuel has_done i waited (Retrier p (Z.of_nat i) now)) =
    Ret (at_result (world (i + m)), waited ++ delays).
Proof.
  revert fuel i waited. induction n as [|n IH]; intros fuel i waited Hi Hstop Hf;
    (destruct fuel as [|fuel]; [lia|]);
    destruct (retryLoop_step fuel has_done p now i waited) as [(delay & Hgo & E)|[Hno E]]; try lia.
  - exfalso. apply Hstop. by rewrite Nat.add_0_r.
  - exists 0%nat, []. rewrite Nat.add_0_r, app_nil_r. split_and!; try done; lia.
  - destruct (IH fuel (i + 1)%nat (waited ++ [delay])) as (m & ds & Hm & Hl & Hgos & Hno & E');
      [lia|by replace (i + 1 + n)%nat with (i + S n)%nat by lia|lia|].
    exists (S m), (delay :: ds). rewrite E, E', <- (assoc_L (++)). simpl.
    replace (i + S m)%nat with (i + 1 + m)%nat by lia. split_and!; try done; try lia.
    intros [|j] Hj; [by rewrite Nat.add_0_r|].
    replace (i + S j)%nat with (i + 1 + j)%nat by lia. apply Hgos. lia.
  - exists 0%nat, []. rewrite Nat.add_0_r, app_nil_r. split_and!; try done; lia.
Qed.

(** The policy gives up at call [n]: enough attempts were made, or enough time is
    over. *)
Definition gives_up p (now : Z) (n : nat) : Prop :=
  (maximumAttempts p ≠ 0 ∧ maximumAttempts p <= Z.of_nat n) ∨
  (expirationInterval p ≠ 0 ∧ expirationInterval p < 2 ^ 63 - 1 ∧
   expirationInterval p < at_now (world n) - now).

Lemma gives_up_stops has_done p now n : gives_up p now n → ¬ goes_on has_done p now n.
Proof.
  intros Hg (err & _ & _ & Hd & _). apply Hd. unfold ComputeNextDelay, noMaximumAttempts, NoInterval.
  destruct Hg as [[Hm Hn]|(He & Hb & Ht)].
  - rewrite (bool_decide_false (maximumAttempts p = 0)) by done.
    rewrite bool_decide_true by lia. done.
  - destruct (_ && _); [done|]. rewrite (bool_decide_false (expirationInterval p = 0)) by done.
    rewrite bool_decide_true; [done|]. unfold getElapsedTime. simpl. lia.
Qed.

(** C36: [Retry] ends when its policy gives up, and returns the outcome of the last
    call: it calls the operation until a call succeeds, fails with an error that
    is not to be retried, or the policy or the context ends the retries; all
    earlier calls failed with errors that are to be retried, and it waits once
    between two calls.  With a maximal number of attempts, there are at most as
    many retries; with an expiration, none after a call that ended later. *)
Theorem retry_bounded has_done p now n fuel :
  Z.of_nat n < 2 ^ 63 - 1 → gives_up p now n → (n < fuel)%nat →
  ∃ m delays, (m <= n)%nat ∧ length delays = m ∧
    Retry fuel has_done p now = Ret (at_result (world m), delays) ∧
    (∀ j, (j < m)%nat → goes_on has_done p now j) ∧ ¬ goes_on has_done p now m.
Proof.
  intros Hn Hg Hf.
  destruct (retryLoop_calls fuel has_done p now n 0 []) as (m & ds & Hm & Hl & Hgos & Hno & E);
    [done|by apply gives_up_stops|done|].
  exists m, ds. split_and!; done.
Qed.

End delays.

(** Calls to the service are retried until their context or a minute is over. *)
Definition retryWhileTransientError (Pow : float64 → float64 → float64) (world : nat → attempt)
    (fuel : nat) (has_done : bool) (remaining : option Z) (now : Z)
    : outcome (option serviceError * list Z) :=
  Retry Pow world isServiceTransientError fuel has_done
    (createDynamicServiceRetryPolicy remaining) now.

(** ** Calls of the service *)

(** What a call of the service meets: the time when it starts, the time to the
    deadline of the context, if any, and whether the context can be canceled; then
    for every attempt its answer, and the time, the random number and the context
    when it has failed. *)
Record rpc (R : Type) := Rpc {
  rpc_start : Z;
  rpc_remaining : option Z;
  rpc_hasDone : bool;
  rpc_answer : nat → serviceError + option R;
  rpc_now : nat → Z;
  rpc_rand : nat → Z → Z;
  rpc_ctxErr : nat → bool;
  rpc_ctxDone : nat → bool }.
Arguments Rpc {R} _ _ _ _ _ _ _ _.
Arguments rpc_start {R} _.
Arguments rpc_remaining {R} _.
Arguments rpc_hasDone {R} _.
Arguments rpc_answer {R} _ _.
Arguments rpc_now {R} _ _.
Arguments rpc_rand {R} _ _ _.
Arguments rpc_ctxErr {R} _ _.
Arguments rpc_ctxDone {R} _ _.

Definition attempts {R} (c : rpc R) (i : nat) : attempt :=
  Attempt (match rpc_answer c i with inl err => Some err | inr _ => None end)
    (rpc_now c i) (rpc_rand c i) (rpc_ctxErr c i) (rpc_ctxDone c i).

(** A call with its retries: the last answer, and how many there were. *)
Definition callService {R} (Pow : float64 → float64 → float64) (fuel : nat) (c : rpc R)
    : outcome ((serviceError + option R) * nat) :=
  match retryWhileTransientError Pow (attempts c) fuel (rpc_hasDone c) (rpc_remaining c)
          (rpc_start c) with
  | Panic p => Panic p
  | Ret (err, waited) =>
      Ret (match err with Some err => inl err | None => rpc_answer c (length waited) end,
           S (length waited))
  end.

(** A policy with two retries of a call that is refused three times. *)
Lemma retry_bounded_witness :
  let busy (i : nat) := Attempt (Some ServiceBusyError) (Z.of_nat i * Second) (λ _, 0) false false in
  let pow (x n : float64) := float_of_int 1 in
  let p := SetMaximumAttempts 2 (NewExponentialRetryPolicy Second) in
  ∃ m delays, (m <= 2)%nat ∧ length delays = m ∧
    Retry pow busy isServiceTransientError 3 true p 0 = Ret (at_result (busy m), delays) ∧
    (∀ j, (j < m)%nat → goes_on pow busy isServiceTransientError true p 0 j) ∧
    ¬ goes_on pow busy isServiceTransientError true p 0 m.
Proof.
  intros busy pow p.
  apply (retry_bounded pow busy isServiceTransientError true p 0 2 3).
  - lia.
  - left. simpl. lia.
  - lia.
Defined.

(** The delays of the sample: 80% of the interval and the second that the service
    asks for. *)
Example retry_sample :
  Retry (λ _ _, float_of_int 1)
    (λ i, Attempt (Some ServiceBusyError) (Z.of_nat i * Second) (λ _, 0) false false)
    isServiceTransientError 3 true (SetMaximumAttempts 2 (NewExponentialRetryPolicy Second)) 0
  = Ret (Some ServiceBusyError, [1800000000; 1800000000]).
Proof. vm_compute. reflexivity. Qed.
