(* ===== verification/Floats.v ===== *)
(** * Whole seconds in 64-bit floats

    The SDK converts a duration to seconds in a float64 and rounds it up
    (common.Int32Ceil, [Seconds] of package time).  For a whole number of seconds
    nothing is lost. *)

From Stdlib Require Import ZArith SpecFloat Lia.
From stdpp Require Import base list strings option.
From S2P Require Import Prelude.
From S2P Require Import Errors.
Local Open Scope Z_scope.

Lemma digits2_pos_bound m : Z.pos m < 2 ^ Z.pos (digits2_pos m) <= 2 * Z.pos m.
Proof.
  induction m as [m IH|m IH|]; simpl digits2_pos; [| |lia];
    rewrite Pos2Z.inj_succ, Z.pow_succ_r by lia; lia.
Qed.

Lemma iter_xO m d :
  Z.pos (Pos.iter xO m d) = Z.pos m * 2 ^ Z.pos d ∧
  digits2_pos (Pos.iter xO m d) = (digits2_pos m + d)%positive.
Proof.
  induction d as [|d [IH1 IH2]] using Pos.peano_ind; [simpl; lia|].
  rewrite Pos.iter_succ. simpl digits2_pos. rewrite IH2, Pos2Z.inj_xO, IH1.
  rewrite Pos2Z.inj_succ, Z.pow_succ_r by lia. lia.
Qed.

(** An integer of at most 53 binary digits is a float64. *)
Lemma binary_round_exact s m :
  Z.pos (digits2_pos m) <= 53 →
  ∃ m' e', binary_round 53 1024 s m 0 = S754_finite s m' e' ∧ -53 < e' <= 0 ∧
    Z.pos m' = Z.pos m * 2 ^ (- e') ∧ Z.pos (digits2_pos m') = 53.
Proof.
  intros Hd. unfold binary_round, shl_align.
  assert (∃ m' e', (match fexp 53 1024 (Z.pos (digits2_pos m) + 0) - 0 with
     | Z.neg d => (Pos.iter xO m d, fexp 53 1024 (Z.pos (digits2_pos m) + 0))
     | _ => (m, 0) end) = (m', e') ∧ -53 < e' <= 0 ∧ Z.pos m' = Z.pos m * 2 ^ (- e') ∧
     fexp 53 1024 (Z.pos (digits2_pos m') + e') = e') as (m' & e' & -> & He & Hm & Hf).
  { unfold fexp, emin. destruct (Z.max _ _ - 0) as [|d|d] eqn:E; [| |].
    - exists m, 0. change (2 ^ (- 0)) with 1. split_and!; try reflexivity; lia.
    - lia.
    - destruct (iter_xO m d) as [I1 I2]. eexists _, _. split; [reflexivity|].
      rewrite I2. split_and!; try lia. rewrite I1. do 2 f_equal. lia. }
  exists m', e'.
  assert (Z.pos (digits2_pos m') = 53) by (unfold fexp, emin in Hf; lia).
  split; [|done]. unfold binary_round_aux, shr_fexp, Zdigits2.
  rewrite Hf, Z.sub_diag. cbn [shr shr_m shr_record_of_loc loc_of_shr_record round_nearest_even].
  rewrite Hf, Z.sub_diag. cbn [shr shr_m shr_record_of_loc].
  by destruct (Z.leb_spec e' (1024 - 53)); [|lia].
Qed.

Lemma float_of_int_exact n :
  n ≠ 0 → Z.abs n < 2 ^ 53 →
  ∃ s m e, float_of_int n = S754_finite s m e ∧ Ceil (S754_finite s m e) = n.
Proof.
  intros H0 Hn. unfold float_of_int, binary_normalize.
  assert (∀ s p, Z.abs n = Z.pos p → (if s : bool then n = Z.neg p else n = Z.pos p) →
    ∃ s' m e, binary_round 53 1024 s p 0 = S754_finite s' m e ∧ Ceil (S754_finite s' m e) = n) as Hgo.
  { intros s p Hp Hs. destruct (binary_round_exact s p) as (m' & e' & E & He & Hm & _).
    - destruct (Z.le_gt_cases (Z.pos (digits2_pos p)) 53) as [?|Hgt]; [done|].
      pose proof (digits2_pos_bound p) as [_ Hb].
      pose proof (Z.pow_le_mono_r 2 54 (Z.pos (digits2_pos p))). lia.
    - exists s, m', e'. split; [done|]. unfold Ceil. 
      assert (Hneg : (if s then Z.neg m' else Z.pos m') = n * 2 ^ (- e')).
      { destruct s; subst n; rewrite <- ?Pos2Z.opp_pos, Hm; lia. }
      rewrite Hneg. case_decide as Hd.
      + assert (e' = 0) as -> by lia. lia.
      + rewrite <- Z.mul_opp_l, Z.div_mul by lia. lia. }
  destruct n as [|p|p]; [done|by apply (Hgo false p)|by apply (Hgo true p)].
Qed.

Lemma Seconds_whole n :
  n ≠ 0 → Z.abs n < 2 ^ 53 → Ceil (Seconds (n * 1000000000)) = n.
Proof.
  intros H0 Hn. unfold Seconds. rewrite Z.quot_mul, Z.rem_mul by lia.
  destruct (float_of_int_exact n H0 Hn) as (s & m & e & -> & <-).
  replace (SFdiv _ _ _ _) with (S754_zero false) by (vm_compute; done).
  reflexivity.
Qed.

Lemma durationToThriftSeconds_whole n :
  n ≠ 0 → - 2 ^ 31 <= n < 2 ^ 31 → durationToThriftSeconds (n * 1000000000) = Some n.
Proof.
  intros H0 Hn. unfold durationToThriftSeconds, Int32Ceil. rewrite decide_False by lia.
  by rewrite Seconds_whole, decide_True by lia.
Qed.
