(* ===== verification/Schedule.v ===== *)
(** * Schedules and their wire form

    internal/schedule.go: the types of the schedule API, which keep Go values; and
    internal/internal_schedule_convert_thrift.go: their conversions to and from the
    thrift types of SharedSchedule.v, with the checks made on the way. *)

From Stdlib Require Import ZArith.
From stdpp Require Import base list gmap strings option.
From S2P Require Import Prelude.
From S2P Require Import Shared.
From S2P Require Import SharedSchedule.
From S2P Require Import Errors.
From S2P Require Import Environment.
From S2P Require Import Backoff.

Local Open Scope Z_scope.

(** ** Times

    [time.Time]: the instant in nanoseconds of the Unix epoch, the location (0 is
    UTC) and the reading of the monotonic clock, if it has one. *)

Record Time := MkTime {
  instant : Z;
  location : nat;
  monotonic : option Z }.

Definition zeroInstant : Z := -62135596800 * Second.
Definition zeroTime : Time := MkTime zeroInstant 0 None.
Definition IsZero (t : Time) : bool := bool_decide (instant t = zeroInstant).
Definition UnixNano (t : Time) : Z := int64 (instant t).
Definition After (t u : Time) : bool :=
  match monotonic t, monotonic u with
  | Some a, Some b => bool_decide (b < a)
  | _, _ => bool_decide (instant u < instant t)
  end.

(** ** The types of schedule.go *)

(** The policies are of type [int]: the constants, and any other value. *)
Inductive ScheduleOverlapPolicy :=
| ScheduleOverlapPolicyUnspecified
| ScheduleOverlapPolicySkipNew
| ScheduleOverlapPolicyBuffer
| ScheduleOverlapPolicyConcurrent
| ScheduleOverlapPolicyCancelPrevious
| ScheduleOverlapPolicyTerminatePrevious
| ScheduleOverlapPolicyOther (value : Z).

Inductive ScheduleCatchUpPolicy :=
| ScheduleCatchUpPolicyUnspecified
| ScheduleCatchUpPolicySkip
| ScheduleCatchUpPolicyOne
| ScheduleCatchUpPolicyAll
| ScheduleCatchUpPolicyOther (value : Z).

Record ScheduleSpec := SdkScheduleSpec {
  spec_CronExpression : string;
  spec_StartTime : Time;
  spec_EndTime : Time;
  spec_Jitter : Z }.

(** [RetryPolicy] of client.go; the coefficient is the bit pattern of a float64. *)
Record RetryPolicy := SdkRetryPolicy {
  rp_InitialInterval : Z;
  rp_BackoffCoefficient : Z;
  rp_MaximumInterval : Z;
  rp_ExpirationInterval : Z;
  rp_MaximumAttempts : Z;
  rp_NonRetriableErrorReasons : option (list string) }.

(** The action of a request; [V] is the type of its memo and search attributes. *)
Record StartWorkflow (V : Type) := SdkStartWorkflow {
  sw_WorkflowType : string;
  sw_TaskList : string;
  sw_Input : bytes;
  sw_WorkflowIDPrefix : string;
  sw_ExecutionStartToCloseTimeout : Z;
  sw_DecisionTaskStartToCloseTimeout : Z;
  sw_RetryPolicy : option RetryPolicy;
  sw_Memo : option (gmap string V);
  sw_SearchAttributes : option (gmap string V) }.
Arguments SdkStartWorkflow {V} _ _ _ _ _ _ _ _ _.
Arguments sw_WorkflowType {V} _.
Arguments sw_TaskList {V} _.
Arguments sw_Input {V} _.
Arguments sw_WorkflowIDPrefix {V} _.
Arguments sw_ExecutionStartToCloseTimeout {V} _.
Arguments sw_DecisionTaskStartToCloseTimeout {V} _.
Arguments sw_RetryPolicy {V} _.
Arguments sw_Memo {V} _.
Arguments sw_SearchAttributes {V} _.

(** The write type has Go values, the read type the bytes that the server keeps. *)
Definition ScheduleStartWorkflowAction := StartWorkflow goValue.
Definition ScheduleStartWorkflowActionDescription := StartWorkflow bytes.

Record ScheduleAction := SdkScheduleAction {
  action_StartWorkflow : option ScheduleStartWorkflowAction }.
Record ScheduleActionDescription := SdkScheduleActionDescription {
  descr_StartWorkflow : option ScheduleStartWorkflowActionDescription }.

Record SchedulePolicies := SdkSchedulePolicies {
  pol_OverlapPolicy : ScheduleOverlapPolicy;
  pol_CatchUpPolicy : ScheduleCatchUpPolicy;
  pol_CatchUpWindow : Z;
  pol_PauseOnFailure : bool;
  pol_BufferLimit : Z;
  pol_ConcurrencyLimit : Z }.

Record SchedulePauseInfo := SdkSchedulePauseInfo {
  pause_Reason : string;
  pause_PausedAt : Time;
  pause_PausedBy : string }.

Record ScheduleState := SdkScheduleState {
  state_Paused : bool;
  state_PauseInfo : option SchedulePauseInfo }.

Record BackfillInfo := SdkBackfillInfo {
  bf_BackfillID : string;
  bf_StartTime : Time;
  bf_EndTime : Time;
  bf_RunsCompleted : Z;
  bf_RunsTotal : Z }.

Record ScheduleInfo := SdkScheduleInfo {
  info_LastRunTime : Time;
  info_NextRunTime : Time;
  info_TotalRuns : Z;
  info_CreateTime : Time;
  info_LastUpdateTime : Time;
  info_OngoingBackfills : option (list (option BackfillInfo));
  info_MissedRuns : Z;
  info_SkippedRuns : Z;
  info_BufferedFireCount : Z;
  info_RunningWorkflowCount : Z }.

Record ScheduleListEntry := SdkScheduleListEntry {
  entry_ScheduleID : string;
  entry_WorkflowType : string;
  entry_State : option ScheduleState;
  entry_CronExpression : string }.

Record CreateScheduleRequest := SdkCreateScheduleRequest {
  create_ScheduleID : string;
  create_Spec : option ScheduleSpec;
  create_Action : option ScheduleAction;
  create_Policies : option SchedulePolicies;
  create_Memo : option (gmap string goValue);
  create_SearchAttributes : option (gmap string goValue);
  create_State : option ScheduleState }.

Record ScheduleUpdate := SdkScheduleUpdate {
  up_Spec : option ScheduleSpec;
  up_Action : option ScheduleActionDescription;
  up_Policies : option SchedulePolicies;
  up_SearchAttributes : option (gmap string bytes) }.

Record BackfillRequest := SdkBackfillRequest {
  bfr_StartTime : Time;
  bfr_EndTime : Time;
  bfr_OverlapPolicy : ScheduleOverlapPolicy;
  bfr_BackfillID : string }.

Record DescribeScheduleResponse := SdkDescribeScheduleResponse {
  d_Spec : option ScheduleSpec;
  d_Action : option ScheduleActionDescription;
  d_Policies : option SchedulePolicies;
  d_State : option ScheduleState;
  d_Info : option ScheduleInfo;
  d_Memo : option (gmap string bytes);
  d_SearchAttributes : option (gmap string bytes) }.

Record ListSchedulesResponse := SdkListSchedulesResponse {
  list_Schedules : option (list (option ScheduleListEntry));
  list_NextPageToken : bytes }.

(** ** Errors *)

(** The variables of internal_schedule_client.go. *)
Inductive sentinel :=
| ErrScheduleIDRequired
| ErrMutateFunctionRequired
| ErrCronExpressionRequired
| ErrRequestRequired
| ErrActionStartWorkflowRequired
| ErrWorkflowTypeRequired
| ErrTaskListRequired
| ErrExecutionTimeoutRequired
| ErrNegativeDecisionTimeout
| ErrStartTimeRequired
| ErrEndTimeRequired
| ErrEndTimeBeforeStartTime.

(** [fmt.Errorf] with [%w] keeps the error it wraps. *)
Inductive scheduleErr :=
| Sentinel (e : sentinel)
| Wrapped (context : string) (e : scheduleErr)
| ServiceErr (e : serviceError)
| TextErr (text : string).

(** [errors.Is(err, e)]. *)
Fixpoint Is (err : scheduleErr) (e : sentinel) : Prop :=
  match err with
  | Sentinel e' => e' = e
  | Wrapped _ err => Is err e
  | _ => False
  end.

(** ** Conversions of enums, times and durations *)

Definition scheduleOverlapPolicyToThrift (p : ScheduleOverlapPolicy)
    : option SharedSchedule.ScheduleOverlapPolicy :=
  match p with
  | ScheduleOverlapPolicyUnspecified => None
  | ScheduleOverlapPolicySkipNew => Some SharedSchedule.ScheduleOverlapPolicySkipNew
  | ScheduleOverlapPolicyBuffer => Some SharedSchedule.ScheduleOverlapPolicyBuffer
  | ScheduleOverlapPolicyConcurrent => Some SharedSchedule.ScheduleOverlapPolicyConcurrent
  | ScheduleOverlapPolicyCancelPrevious => Some SharedSchedule.ScheduleOverlapPolicyCancelPrevious
  | ScheduleOverlapPolicyTerminatePrevious =>
      Some SharedSchedule.ScheduleOverlapPolicyTerminatePrevious
  | ScheduleOverlapPolicyOther _ => Some SharedSchedule.ScheduleOverlapPolicyInvalid
  end.

Definition scheduleOverlapPolicyFromThrift (p : option SharedSchedule.ScheduleOverlapPolicy)
    : ScheduleOverlapPolicy :=
  match p with
  | None => ScheduleOverlapPolicyUnspecified
  | Some SharedSchedule.ScheduleOverlapPolicySkipNew => ScheduleOverlapPolicySkipNew
  | Some SharedSchedule.ScheduleOverlapPolicyBuffer => ScheduleOverlapPolicyBuffer
  | Some SharedSchedule.ScheduleOverlapPolicyConcurrent => ScheduleOverlapPolicyConcurrent
  | Some SharedSchedule.ScheduleOverlapPolicyCancelPrevious => ScheduleOverlapPolicyCancelPrevious
  | Some SharedSchedule.ScheduleOverlapPolicyTerminatePrevious =>
      ScheduleOverlapPolicyTerminatePrevious
  | Some _ => ScheduleOverlapPolicyUnspecified
  end.

Definition scheduleCatchUpPolicyToThrift (p : ScheduleCatchUpPolicy)
    : option SharedSchedule.ScheduleCatchUpPolicy :=
  match p with
  | ScheduleCatchUpPolicyUnspecified => None
  | ScheduleCatchUpPolicySkip => Some SharedSchedule.ScheduleCatchUpPolicySkip
  | ScheduleCatchUpPolicyOne => Some SharedSchedule.ScheduleCatchUpPolicyOne
  | ScheduleCatchUpPolicyAll => Some SharedSchedule.ScheduleCatchUpPolicyAll
  | ScheduleCatchUpPolicyOther _ => Some SharedSchedule.ScheduleCatchUpPolicyInvalid
  end.

Definition scheduleCatchUpPolicyFromThrift (p : option SharedSchedule.ScheduleCatchUpPolicy)
    : ScheduleCatchUpPolicy :=
  match p with
  | None => ScheduleCatchUpPolicyUnspecified
  | Some SharedSchedule.ScheduleCatchUpPolicySkip => ScheduleCatchUpPolicySkip
  | Some SharedSchedule.ScheduleCatchUpPolicyOne => ScheduleCatchUpPolicyOne
  | Some SharedSchedule.ScheduleCatchUpPolicyAll => ScheduleCatchUpPolicyAll
  | Some _ => ScheduleCatchUpPolicyUnspecified
  end.

Definition timeToThriftNano (t : Time) : option Z :=
  if IsZero t then None else Some (UnixNano t).
Definition thriftNanoToTime (n : option Z) : Time :=
  match n with None => zeroTime | Some n => MkTime n 0 None end.
Definition thriftSecondsToDuration (n : option Z) : Z :=
  match n with None => 0 | Some n => int64 (n * Second) end.

(** ** From the SDK to thrift *)

Definition scheduleSpecToThrift (spec : option ScheduleSpec)
    : option SharedSchedule.ScheduleSpec :=
  spec ← spec;
  Some (MkScheduleSpec (Some (spec_CronExpression spec)) (timeToThriftNano (spec_StartTime spec))
          (timeToThriftNano (spec_EndTime spec)) (durationToThriftSeconds (spec_Jitter spec))).

(** On bit patterns: a float64 that is zero, of either sign, and 2.0. *)
Definition float_is_zero (bits : Z) : bool := bool_decide (bits = 0 ∨ bits = 2 ^ 63).
Definition defaultCoefficient : Z := 0x4000000000000000.

Definition scheduleRetryPolicyToThrift (p : option RetryPolicy) : option Shared.RetryPolicy :=
  p ← p;
  let backoffCoeff := if float_is_zero (rp_BackoffCoefficient p) then defaultCoefficient
                      else rp_BackoffCoefficient p in
  Some (MkRetryPolicy (durationToThriftSeconds (rp_InitialInterval p)) (Some backoffCoeff)
          (durationToThriftSeconds (rp_MaximumInterval p)) (Some (rp_MaximumAttempts p))
          (rp_NonRetriableErrorReasons p) (durationToThriftSeconds (rp_ExpirationInterval p))).

Definition defaultDecisionTaskTimeoutInSecs : Z := 10.

(** The checks that the two forms of the action share: the decision task timeout. *)
Definition checkStartWorkflow {V} (a : StartWorkflow V) : scheduleErr + Z :=
  if bool_decide (sw_WorkflowType a = "") then
    inl (Wrapped "StartWorkflow" (Sentinel ErrWorkflowTypeRequired))
  else if bool_decide (sw_TaskList a = "") then
    inl (Wrapped "StartWorkflow" (Sentinel ErrTaskListRequired))
  else if bool_decide (sw_ExecutionStartToCloseTimeout a <= 0) then
    inl (Wrapped "StartWorkflow" (Sentinel ErrExecutionTimeoutRequired))
  else if bool_decide (sw_DecisionTaskStartToCloseTimeout a < 0) then
    inl (Wrapped "StartWorkflow" (Sentinel ErrNegativeDecisionTimeout))
  else if bool_decide (sw_DecisionTaskStartToCloseTimeout a = 0) then
    inr (defaultDecisionTaskTimeoutInSecs * Second)
  else inr (sw_DecisionTaskStartToCloseTimeout a).

(** The struct that both build. *)
Definition buildStartWorkflow {V} (a : StartWorkflow V) (decisionTaskTimeout : Z)
    (memo searchAttr : option (gmap string bytes)) : SharedSchedule.ScheduleStartWorkflowAction :=
  MkScheduleStartWorkflowAction
    (Some (MkWorkflowType (Some (sw_WorkflowType a))))
    (Some (MkTaskList (Some (sw_TaskList a)) None None))
    (if bool_decide (0 < len_bytes (sw_Input a))%nat then sw_Input a else None)
    (Some (sw_WorkflowIDPrefix a))
    (durationToThriftSeconds (sw_ExecutionStartToCloseTimeout a))
    (durationToThriftSeconds decisionTaskTimeout)
    (scheduleRetryPolicyToThrift (sw_RetryPolicy a))
    (MkMemo ∘ Some <$> memo)
    (MkSearchAttributes ∘ Some <$> searchAttr).

(** A nil or empty map is left out. *)
Definition nonEmpty {V} (m : option (gmap string V)) : option (gmap string V) :=
  m ← m; if bool_decide (m = ∅) then None else Some m.

Definition schedulePoliciesToThrift (p : option SchedulePolicies)
    : option SharedSchedule.SchedulePolicies :=
  p ← p;
  Some (MkSchedulePolicies (scheduleOverlapPolicyToThrift (pol_OverlapPolicy p))
          (scheduleCatchUpPolicyToThrift (pol_CatchUpPolicy p))
          (durationToThriftSeconds (pol_CatchUpWindow p)) (Some (pol_PauseOnFailure p))
          (Some (pol_BufferLimit p)) (Some (pol_ConcurrencyLimit p))).

(** The time of the pause is not sent. *)
Definition schedulePauseInfoToThrift (pi : option SchedulePauseInfo)
    : option SharedSchedule.SchedulePauseInfo :=
  pi ← pi; Some (MkSchedulePauseInfo (Some (pause_Reason pi)) None (Some (pause_PausedBy pi))).
Definition scheduleStateToThrift (s : option ScheduleState)
    : option SharedSchedule.ScheduleState :=
  s ← s;
  Some (MkScheduleState (Some (state_Paused s)) (schedulePauseInfoToThrift (state_PauseInfo s))).

(** The read form of the action, for updates: memo and search attributes as they
    are. *)
Definition scheduleStartWorkflowActionDescriptionToThrift
    (a : option ScheduleStartWorkflowActionDescription)
    : scheduleErr + option SharedSchedule.ScheduleStartWorkflowAction :=
  match a with
  | None => inr None
  | Some a =>
      match checkStartWorkflow a with
      | inl err => inl err
      | inr decisionTaskTimeout =>
          inr (Some (buildStartWorkflow a decisionTaskTimeout (nonEmpty (sw_Memo a))
                       (nonEmpty (sw_SearchAttributes a))))
      end
  end.

Definition scheduleActionDescriptionToThrift (a : option ScheduleActionDescription)
    : scheduleErr + option SharedSchedule.ScheduleAction :=
  match a with
  | None => inr None
  | Some a =>
      match descr_StartWorkflow a with
      | None => inl (Sentinel ErrActionStartWorkflowRequired)
      | Some _ =>
          match scheduleStartWorkflowActionDescriptionToThrift (descr_StartWorkflow a) with
          | inl err => inl err
          | inr sw => inr (Some (MkScheduleAction sw))
          end
      end
  end.

Definition backfillRequestToThrift (domain scheduleID : string) (r : option BackfillRequest)
    : scheduleErr + BackfillScheduleRequest :=
  let error e := inl (Wrapped "Backfill" (Sentinel e)) in
  if bool_decide (scheduleID = "") then error ErrScheduleIDRequired else
  match r with
  | None => error ErrRequestRequired
  | Some r =>
      if IsZero (bfr_StartTime r) then error ErrStartTimeRequired
      else if IsZero (bfr_EndTime r) then error ErrEndTimeRequired
      else if negb (After (bfr_EndTime r) (bfr_StartTime r)) then error ErrEndTimeBeforeStartTime
      else inr (MkBackfillScheduleRequest (Some domain) (Some scheduleID)
                  (timeToThriftNano (bfr_StartTime r)) (timeToThriftNano (bfr_EndTime r))
                  (scheduleOverlapPolicyToThrift (bfr_OverlapPolicy r)) (Some (bfr_BackfillID r)))
  end.

Section encoding.
(** [getDefaultDataConverter], encoding/json, and the format [%q]. *)
Context (defaultConverter : DataConverter).
Context (json_Marshal : goValue → string + bytes) (Quote : string → string).
Implicit Types (dc : option DataConverter).

Definition encodeArg dc (v : goValue) : string + bytes :=
  @ToData (default defaultConverter dc) [v].

Definition encodeWith (encode : goValue → string + bytes) (what : string)
    (m : option (gmap string goValue)) : scheduleErr + option (gmap string bytes) :=
  match nonEmpty m with
  | None => inr None
  | Some m =>
      match encode_fields encode (λ k err, "encode " +:+ what +:+ " " +:+ Quote k +:+ ": " +:+ err) m with
      | inl err => inl (TextErr err)
      | inr fields => inr (Some fields)
      end
  end.

Definition encodeMemo dc : option (gmap string goValue) → scheduleErr + option (gmap string bytes) :=
  encodeWith (encodeArg dc) "memo field".
Definition encodeSearchAttributes
    : option (gmap string goValue) → scheduleErr + option (gmap string bytes) :=
  encodeWith json_Marshal "search attribute".

Definition scheduleStartWorkflowActionToThrift (a : option ScheduleStartWorkflowAction) dc
    : scheduleErr + option SharedSchedule.ScheduleStartWorkflowAction :=
  match a with
  | None => inr None
  | Some a =>
      match checkStartWorkflow a with
      | inl err => inl err
      | inr decisionTaskTimeout =>
          match encodeMemo dc (sw_Memo a), encodeSearchAttributes (sw_SearchAttributes a) with
          | inl err, _ | inr _, inl err => inl err
          | inr memo, inr searchAttr =>
              inr (Some (buildStartWorkflow a decisionTaskTimeout memo searchAttr))
          end
      end
  end.

Definition scheduleActionToThrift (a : option ScheduleAction) dc
    : scheduleErr + option SharedSchedule.ScheduleAction :=
  match a with
  | None => inr None
  | Some a =>
      match action_StartWorkflow a with
      | None => inl (Sentinel ErrActionStartWorkflowRequired)
      | Some _ =>
          match scheduleStartWorkflowActionToThrift (action_StartWorkflow a) dc with
          | inl err => inl err
          | inr sw => inr (Some (MkScheduleAction sw))
          end
      end
  end.

Definition scheduleCreateRequestToThrift (domain : string) (r : option CreateScheduleRequest) dc
    : scheduleErr + SharedSchedule.CreateScheduleRequest :=
  let error e := inl (Wrapped "Create" (Sentinel e)) in
  match r with
  | None => error ErrRequestRequired
  | Some r =>
      if bool_decide (create_ScheduleID r = "") then error ErrScheduleIDRequired
      else if bool_decide (default "" (spec_CronExpression <$> create_Spec r) = "")
      then error ErrCronExpressionRequired
      else if bool_decide (create_Action r ≫= action_StartWorkflow = None :> option _)
      then error ErrActionStartWorkflowRequired
      else
      match scheduleActionToThrift (create_Action r) dc with
      | inl err => inl err
      | inr action =>
          match encodeMemo dc (create_Memo r), encodeSearchAttributes (create_SearchAttributes r) with
          | inl err, _ | inr _, inl err => inl err
          | inr memo, inr searchAttr =>
              inr (MkCreateScheduleRequest (Some domain) (Some (create_ScheduleID r))
                     (scheduleSpecToThrift (create_Spec r)) action
                     (schedulePoliciesToThrift (create_Policies r)) (MkMemo ∘ Some <$> memo)
                     (MkSearchAttributes ∘ Some <$> searchAttr)
                     (scheduleStateToThrift (create_State r)))
          end
      end
  end.

(** *** The helpers of an update *)

Definition set_StartWorkflow {V} memo searchAttributes (a : StartWorkflow V) : StartWorkflow V :=
  SdkStartWorkflow (sw_WorkflowType a) (sw_TaskList a) (sw_Input a) (sw_WorkflowIDPrefix a)
    (sw_ExecutionStartToCloseTimeout a) (sw_DecisionTaskStartToCloseTimeout a) (sw_RetryPolicy a)
    memo searchAttributes.

Definition set_up_Action a (u : ScheduleUpdate) : ScheduleUpdate :=
  SdkScheduleUpdate (up_Spec u) a (up_Policies u) (up_SearchAttributes u).

Definition SetActionMemo dc (memo : option (gmap string goValue)) (u : ScheduleUpdate)
    : scheduleErr + ScheduleUpdate :=
  match up_Action u ≫= descr_StartWorkflow with
  | None => inl (TextErr "SetActionMemo: Action.StartWorkflow is nil")
  | Some sw =>
      match encodeMemo dc memo with
      | inl err => inl err
      | inr encoded =>
          inr (set_up_Action (Some (SdkScheduleActionDescription
                 (Some (set_StartWorkflow encoded (sw_SearchAttributes sw) sw)))) u)
      end
  end.

Definition SetSearchAttributes (searchAttributes : option (gmap string goValue))
    (u : ScheduleUpdate) : scheduleErr + ScheduleUpdate :=
  match encodeSearchAttributes searchAttributes with
  | inl err => inl err
  | inr encoded => inr (SdkScheduleUpdate (up_Spec u) (up_Action u) (up_Policies u) encoded)
  end.

Definition SetActionSearchAttributes (searchAttributes : option (gmap string goValue))
    (u : ScheduleUpdate) : scheduleErr + ScheduleUpdate :=
  match up_Action u ≫= descr_StartWorkflow with
  | None => inl (TextErr "SetActionSearchAttributes: Action.StartWorkflow is nil")
  | Some sw =>
      match encodeSearchAttributes searchAttributes with
      | inl err => inl err
      | inr encoded =>
          inr (set_up_Action (Some (SdkScheduleActionDescription
                 (Some (set_StartWorkflow (sw_Memo sw) encoded sw)))) u)
      end
  end.

End encoding.

(** ** From thrift to the SDK *)

Definition scheduleSpecFromThrift (spec : option SharedSchedule.ScheduleSpec)
    : option ScheduleSpec :=
  spec ← spec;
  Some (SdkScheduleSpec (default "" (ScheduleSpec_CronExpression spec))
          (thriftNanoToTime (ScheduleSpec_StartTimeNano spec))
          (thriftNanoToTime (ScheduleSpec_EndTimeNano spec))
          (thriftSecondsToDuration (ScheduleSpec_JitterInSeconds spec))).

Definition scheduleRetryPolicyFromThrift (p : option Shared.RetryPolicy) : option RetryPolicy :=
  p ← p;
  Some (SdkRetryPolicy (thriftSecondsToDuration (RetryPolicy_InitialIntervalInSeconds p))
          (default 0 (RetryPolicy_BackoffCoefficient p))
          (thriftSecondsToDuration (RetryPolicy_MaximumIntervalInSeconds p))
          (thriftSecondsToDuration (RetryPolicy_ExpirationIntervalInSeconds p))
          (default 0 (RetryPolicy_MaximumAttempts p)) (RetryPolicy_NonRetriableErrorReasons p)).

Definition scheduleStartWorkflowActionDescriptionFromThrift
    (a : option SharedSchedule.ScheduleStartWorkflowAction)
    : option ScheduleStartWorkflowActionDescription :=
  a ← a;
  Some (SdkStartWorkflow
    (get_string WorkflowType_Name (ScheduleStartWorkflowAction_WorkflowType a))
    (get_string TaskList_Name (ScheduleStartWorkflowAction_TaskList a))
    (ScheduleStartWorkflowAction_Input a)
    (default "" (ScheduleStartWorkflowAction_WorkflowIdPrefix a))
    (thriftSecondsToDuration (ScheduleStartWorkflowAction_ExecutionStartToCloseTimeoutSeconds a))
    (thriftSecondsToDuration (ScheduleStartWorkflowAction_TaskStartToCloseTimeoutSeconds a))
    (scheduleRetryPolicyFromThrift (ScheduleStartWorkflowAction_RetryPolicy a))
    (ScheduleStartWorkflowAction_Memo a ≫= Memo_Fields)
    (ScheduleStartWorkflowAction_SearchAttributes a ≫= SearchAttributes_IndexedFields)).

Definition scheduleActionDescriptionFromThrift (a : option SharedSchedule.ScheduleAction)
    : option ScheduleActionDescription :=
  a ← a;
  Some (SdkScheduleActionDescription
          (scheduleStartWorkflowActionDescriptionFromThrift (ScheduleAction_StartWorkflow a))).

Definition schedulePoliciesFromThrift (p : option SharedSchedule.SchedulePolicies)
    : option SchedulePolicies :=
  p ← p;
  Some (SdkSchedulePolicies (scheduleOverlapPolicyFromThrift (SchedulePolicies_OverlapPolicy p))
          (scheduleCatchUpPolicyFromThrift (SchedulePolicies_CatchUpPolicy p))
          (thriftSecondsToDuration (SchedulePolicies_CatchUpWindowInSeconds p))
          (default false (SchedulePolicies_PauseOnFailure p))
          (default 0 (SchedulePolicies_BufferLimit p))
          (default 0 (SchedulePolicies_ConcurrencyLimit p))).

Definition schedulePauseInfoFromThrift (pi : option SharedSchedule.SchedulePauseInfo)
    : option SchedulePauseInfo :=
  pi ← pi;
  Some (SdkSchedulePauseInfo (default "" (SchedulePauseInfo_Reason pi))
          (thriftNanoToTime (SchedulePauseInfo_PausedTimeNano pi))
          (default "" (SchedulePauseInfo_PausedBy pi))).

Definition scheduleStateFromThrift (st : option SharedSchedule.ScheduleState)
    : option ScheduleState :=
  st ← st;
  Some (SdkScheduleState (default false (ScheduleState_Paused st))
          (schedulePauseInfoFromThrift (ScheduleState_PauseInfo st))).

Definition backfillInfoFromThrift (b : option SharedSchedule.BackfillInfo) : option BackfillInfo :=
  b ← b;
  Some (SdkBackfillInfo (default "" (BackfillInfo_BackfillId b))
          (thriftNanoToTime (BackfillInfo_StartTimeNano b))
          (thriftNanoToTime (BackfillInfo_EndTimeNano b))
          (default 0 (BackfillInfo_RunsCompleted b)) (default 0 (BackfillInfo_RunsTotal b))).

Definition scheduleInfoFromThrift (si : option SharedSchedule.ScheduleInfo)
    : option ScheduleInfo :=
  si ← si;
  Some (SdkScheduleInfo (thriftNanoToTime (ScheduleInfo_LastRunTimeNano si))
          (thriftNanoToTime (ScheduleInfo_NextRunTimeNano si))
          (default 0 (ScheduleInfo_TotalRuns si))
          (thriftNanoToTime (ScheduleInfo_CreateTimeNano si))
          (thriftNanoToTime (ScheduleInfo_LastUpdateTimeNano si))
          (option_map (map backfillInfoFromThrift) (ScheduleInfo_OngoingBackfills si))
          (default 0 (ScheduleInfo_MissedRuns si)) (default 0 (ScheduleInfo_SkippedRuns si))
          (default 0 (ScheduleInfo_BufferedFireCount si))
          (default 0 (ScheduleInfo_RunningWorkflowCount si))).

Definition scheduleListEntryFromThrift (e : option SharedSchedule.ScheduleListEntry)
    : option ScheduleListEntry :=
  e ← e;
  Some (SdkScheduleListEntry (default "" (ScheduleListEntry_ScheduleId e))
          (get_string WorkflowType_Name (ScheduleListEntry_WorkflowType e))
          (scheduleStateFromThrift (ScheduleListEntry_State e))
          (default "" (ScheduleListEntry_CronExpression e))).

Definition describeScheduleResponseFromThrift (r : option SharedSchedule.DescribeScheduleResponse)
    : option DescribeScheduleResponse :=
  r ← r;
  Some (SdkDescribeScheduleResponse (scheduleSpecFromThrift (DescribeScheduleResponse_Spec r))
          (scheduleActionDescriptionFromThrift (DescribeScheduleResponse_Action r))
          (schedulePoliciesFromThrift (DescribeScheduleResponse_Policies r))
          (scheduleStateFromThrift (DescribeScheduleResponse_State r))
          (scheduleInfoFromThrift (DescribeScheduleResponse_Info r))
          (DescribeScheduleResponse_Memo r ≫= Memo_Fields)
          (DescribeScheduleResponse_SearchAttributes r ≫= SearchAttributes_IndexedFields)).

Definition listSchedulesResponseFromThrift (r : option SharedSchedule.ListSchedulesResponse)
    : option ListSchedulesResponse :=
  r ← r;
  Some (SdkListSchedulesResponse
          (option_map (map scheduleListEntryFromThrift) (ListSchedulesResponse_Schedules r))
          (ListSchedulesResponse_NextPageToken r)).
