(* ===== verification/ScheduleClient.v ===== *)
(** * The schedule client

    internal/internal_schedule_client.go: the calls of [scheduleClient], with the
    retries of Backoff.v.  [Update] hands a copy of the schedule to a callback and
    compares it with the schedule afterwards, so that the objects of both are kept
    on a heap, on which the copy is made (internal_schedule_convert_thrift.go,
    [scheduleUpdateFromDescribe]) and the callback works. *)

From Stdlib Require Import ZArith.
From stdpp Require Import base list gmap strings option.
From S2P Require Import Prelude.
From S2P Require Import Shared.
From S2P Require Import SharedSchedule.
From S2P Require Import Errors.
From S2P Require Import Backoff.
From S2P Require Import Schedule.

(** ** Objects *)

(** The pointers and the map of a [ScheduleUpdate], and the same fields of a
    [DescribeScheduleResponse]. *)
Record refs := Refs {
  ref_Spec : option nat;
  ref_Action : option nat;
  ref_Policies : option nat;
  ref_SearchAttributes : option nat }.

(** Slices, maps and structs; the fields of a struct that are references are kept
    apart, and not read from the value. *)
Inductive object :=
| ObjBytes (b : string)
| ObjStrings (l : list string)
| ObjMap (m : gmap string (option nat))
| ObjSpec (s : ScheduleSpec)
| ObjPolicies (p : SchedulePolicies)
| ObjRetry (p : RetryPolicy) (reasons : option nat)
| ObjStart (a : ScheduleStartWorkflowActionDescription)
    (input retry memo searchAttributes : option nat)
| ObjAction (startWorkflow : option nat)
| ObjUpdate (r : refs).

Abbreviation heap := (list object).

Definition alloc (o : object) : M heap nat := λ h, (Ret (length h), h ++ [o]).

Definition set_reasons (l : option (list string)) (p : RetryPolicy) : RetryPolicy :=
  SdkRetryPolicy (rp_InitialInterval p) (rp_BackoffCoefficient p) (rp_MaximumInterval p)
    (rp_ExpirationInterval p) (rp_MaximumAttempts p) l.
Definition set_references (input : bytes) retry memo searchAttributes
    (a : ScheduleStartWorkflowActionDescription) : ScheduleStartWorkflowActionDescription :=
  SdkStartWorkflow (sw_WorkflowType a) (sw_TaskList a) input (sw_WorkflowIDPrefix a)
    (sw_ExecutionStartToCloseTimeout a) (sw_DecisionTaskStartToCloseTimeout a)
    retry memo searchAttributes.

(** What is read through a reference.  A reference to an object of another type,
    which does not occur, reads a zero value. *)
Section load.
Context (h : heap).

Definition load_bytes (p : option nat) : bytes :=
  p ← p; Some (match h !! p with Some (ObjBytes b) => b | _ => "" end).
Definition load_strings (p : option nat) : option (list string) :=
  p ← p; Some (match h !! p with Some (ObjStrings l) => l | _ => [] end).
Definition map_at (p : nat) : gmap string (option nat) :=
  match h !! p with Some (ObjMap m) => m | _ => ∅ end.
Definition load_map (p : option nat) : option (gmap string bytes) :=
  p ← p; Some (load_bytes <$> map_at p).
Definition load_spec (p : option nat) : option ScheduleSpec :=
  p ← p; Some (match h !! p with
               | Some (ObjSpec s) => s | _ => SdkScheduleSpec "" zeroTime zeroTime 0 end).
Definition load_policies (p : option nat) : option SchedulePolicies :=
  p ← p; Some (match h !! p with
               | Some (ObjPolicies s) => s
               | _ => SdkSchedulePolicies ScheduleOverlapPolicyUnspecified
                        ScheduleCatchUpPolicyUnspecified 0 false 0 0
               end).
Definition retry_at (p : nat) : RetryPolicy * option nat :=
  match h !! p with
  | Some (ObjRetry p r) => (p, r)
  | _ => (SdkRetryPolicy 0 0 0 0 0 None, None)
  end.
Definition load_retry (p : option nat) : option RetryPolicy :=
  p ← p; Some (set_reasons (load_strings (snd (retry_at p))) (fst (retry_at p))).
Definition start_at (p : nat)
    : ScheduleStartWorkflowActionDescription * (option nat * option nat * option nat * option nat) :=
  match h !! p with
  | Some (ObjStart a i r m s) => (a, (i, r, m, s))
  | _ => (SdkStartWorkflow "" "" None "" 0 0 None None None, (None, None, None, None))
  end.
Definition load_start (p : option nat) : option ScheduleStartWorkflowActionDescription :=
  p ← p;
  let '(a, (i, r, m, s)) := start_at p in
  Some (set_references (load_bytes i) (load_retry r) (load_map m) (load_map s) a).
Definition action_at (p : nat) : option nat :=
  match h !! p with Some (ObjAction s) => s | _ => None end.
Definition load_action (p : option nat) : option ScheduleActionDescription :=
  p ← p; Some (SdkScheduleActionDescription (load_start (action_at p))).
Definition update_at (p : nat) : refs :=
  match h !! p with Some (ObjUpdate r) => r | _ => Refs None None None None end.

(** The value that the references stand for. *)
Definition view (r : refs) : ScheduleUpdate :=
  SdkScheduleUpdate (load_spec (ref_Spec r)) (load_action (ref_Action r))
    (load_policies (ref_Policies r)) (load_map (ref_SearchAttributes r)).
End load.

(** ** New objects *)

Definition new_object {A} (make : A → object) (v : option A) : M heap (option nat) :=
  match v with
  | None => mret None
  | Some v => p ← alloc (make v); mret (Some p)
  end.

Definition new_bytes : bytes → M heap (option nat) := new_object ObjBytes.

Fixpoint new_entries (l : list (string * bytes)) : M heap (list (string * option nat)) :=
  match l with
  | [] => mret []
  | (k, v) :: l =>
      v ← new_bytes v;
      l ← new_entries l;
      mret ((k, v) :: l)
  end.

Definition new_map (m : option (gmap string bytes)) : M heap (option nat) :=
  match m with
  | None => mret None
  | Some m =>
      l ← new_entries (map_to_list m);
      p ← alloc (ObjMap (list_to_map l));
      mret (Some p)
  end.

(** The response that [Describe] returns. *)
Definition new_retry (r : option RetryPolicy) : M heap (option nat) :=
  match r with
  | None => mret None
  | Some p =>
      reasons ← new_object ObjStrings (rp_NonRetriableErrorReasons p);
      p ← alloc (ObjRetry p reasons);
      mret (Some p)
  end.
Definition new_start (a : option ScheduleStartWorkflowActionDescription) : M heap (option nat) :=
  match a with
  | None => mret None
  | Some a =>
      i ← new_bytes (sw_Input a);
      r ← new_retry (sw_RetryPolicy a);
      m ← new_map (sw_Memo a);
      s ← new_map (sw_SearchAttributes a);
      p ← alloc (ObjStart a i r m s);
      mret (Some p)
  end.
Definition new_action (a : option ScheduleActionDescription) : M heap (option nat) :=
  match a with
  | None => mret None
  | Some a =>
      s ← new_start (descr_StartWorkflow a);
      p ← alloc (ObjAction s);
      mret (Some p)
  end.
Definition new_response (d : option DescribeScheduleResponse) : M heap (option refs) :=
  match d with
  | None => mret None
  | Some d =>
      spec ← new_object ObjSpec (d_Spec d);
      action ← new_action (d_Action d);
      policies ← new_object ObjPolicies (d_Policies d);
      searchAttributes ← new_map (d_SearchAttributes d);
      mret (Some (Refs spec action policies searchAttributes))
  end.

(** ** Deep copies *)

Definition copyBytes (b : option nat) : M heap (option nat) :=
  h ← get; new_bytes (load_bytes h b).
Definition copyStrings (s : option nat) : M heap (option nat) :=
  h ← get; new_object ObjStrings (load_strings h s).
Definition copyByteMap (m : option nat) : M heap (option nat) :=
  h ← get; new_map (load_map h m).

(** [s := *desc.Spec; u.Spec = &s], and the same for the policies. *)
Definition copySpec (s : option nat) : M heap (option nat) :=
  h ← get; new_object ObjSpec (load_spec h s).
Definition copyPolicies (s : option nat) : M heap (option nat) :=
  h ← get; new_object ObjPolicies (load_policies h s).

Definition copyRetry (r : option nat) : M heap (option nat) :=
  match r with
  | None => mret None
  | Some p =>
      h ← get;
      reasons ← copyStrings (snd (retry_at h p));
      p ← alloc (ObjRetry (fst (retry_at h p)) reasons);
      mret (Some p)
  end.

Definition copyStart (p : nat) : M heap (option nat) :=
  h ← get;
  let '(a, (i, r, m, s)) := start_at h p in
  i ← copyBytes i;
  r ← copyRetry r;
  m ← copyByteMap m;
  s ← copyByteMap s;
  p ← alloc (ObjStart a i r m s);
  mret (Some p).

(** An action without [StartWorkflow] is not copied. *)
Definition copyAction (a : option nat) : M heap (option nat) :=
  h ← get;
  match a ≫= action_at h with
  | None => mret None
  | Some s =>
      s ← copyStart s;
      p ← alloc (ObjAction s);
      mret (Some p)
  end.

(** Returns the pointer to the update. *)
Definition scheduleUpdateFromDescribe (desc : option refs) : M heap nat :=
  match desc with
  | None => alloc (ObjUpdate (Refs None None None None))
  | Some d =>
      spec ← copySpec (ref_Spec d);
      action ← copyAction (ref_Action d);
      policies ← copyPolicies (ref_Policies d);
      searchAttributes ← copyByteMap (ref_SearchAttributes d);
      alloc (ObjUpdate (Refs spec action policies searchAttributes))
  end.

(** ** Comparison *)

Global Instance Time_eq_dec : EqDecision Time.
Proof. solve_decision. Defined.
Global Instance ScheduleOverlapPolicy_eq_dec : EqDecision ScheduleOverlapPolicy.
Proof. solve_decision. Defined.
Global Instance ScheduleCatchUpPolicy_eq_dec : EqDecision ScheduleCatchUpPolicy.
Proof. solve_decision. Defined.
Global Instance ScheduleSpec_eq_dec : EqDecision ScheduleSpec.
Proof. solve_decision. Defined.
Global Instance SchedulePolicies_eq_dec : EqDecision SchedulePolicies.
Proof. solve_decision. Defined.

(** [==] on the bit patterns of two float64s. *)
Definition is_nan (bits : Z) : bool :=
  bool_decide (0x7FF0000000000000 < Z.land bits (2 ^ 63 - 1))%Z.
Definition float_equal (a b : Z) : bool :=
  negb (is_nan a) && negb (is_nan b)
  && (bool_decide (a = b) || (float_is_zero a && float_is_zero b)).

(** [reflect.DeepEqual] on pointers to different objects: a nil slice or map is
    different from an empty one, and a NaN from itself. *)
Definition deepEqual {A} (equal : A → A → bool) (x y : option A) : bool :=
  match x, y with
  | None, None => true
  | Some x, Some y => equal x y
  | _, _ => false
  end.
Definition deepEqual_retry (p q : RetryPolicy) : bool :=
  bool_decide (rp_InitialInterval p = rp_InitialInterval q)
  && float_equal (rp_BackoffCoefficient p) (rp_BackoffCoefficient q)
  && bool_decide (rp_MaximumInterval p = rp_MaximumInterval q)
  && bool_decide (rp_ExpirationInterval p = rp_ExpirationInterval q)
  && bool_decide (rp_MaximumAttempts p = rp_MaximumAttempts q)
  && bool_decide (rp_NonRetriableErrorReasons p = rp_NonRetriableErrorReasons q).
Definition deepEqual_start (a b : ScheduleStartWorkflowActionDescription) : bool :=
  bool_decide (sw_WorkflowType a = sw_WorkflowType b)
  && bool_decide (sw_TaskList a = sw_TaskList b)
  && bool_decide (sw_Input a = sw_Input b)
  && bool_decide (sw_WorkflowIDPrefix a = sw_WorkflowIDPrefix b)
  && bool_decide (sw_ExecutionStartToCloseTimeout a = sw_ExecutionStartToCloseTimeout b)
  && bool_decide (sw_DecisionTaskStartToCloseTimeout a = sw_DecisionTaskStartToCloseTimeout b)
  && deepEqual deepEqual_retry (sw_RetryPolicy a) (sw_RetryPolicy b)
  && bool_decide (sw_Memo a = sw_Memo b)
  && bool_decide (sw_SearchAttributes a = sw_SearchAttributes b).
Definition deepEqual_action (a b : ScheduleActionDescription) : bool :=
  deepEqual deepEqual_start (descr_StartWorkflow a) (descr_StartWorkflow b).
Definition equal {A} `{!EqDecision A} (x y : A) : bool := bool_decide (x = y).

(** ** Calls *)

(** The requests, in the order in which they are sent. *)
Inductive request :=
| CreateSchedule_ (r : SharedSchedule.CreateScheduleRequest)
| DescribeSchedule_ (r : DescribeScheduleRequest)
| UpdateSchedule_ (r : UpdateScheduleRequest)
| DeleteSchedule_ (r : DeleteScheduleRequest)
| PauseSchedule_ (r : PauseScheduleRequest)
| UnpauseSchedule_ (r : UnpauseScheduleRequest)
| BackfillSchedule_ (r : BackfillScheduleRequest)
| ListSchedules_ (r : ListSchedulesRequest).

Record client := Client { objects : heap; sent : list request }.

Record scheduleClient := MkScheduleClient {
  sc_domain : string;
  sc_identity : string;
  sc_dataConverter : option DataConverter }.

Definition on_heap {A} (m : M heap A) : M client A := λ s,
  let '(o, h) := m (objects s) in (o, Client h (sent s)).

Section client.
Context (Pow : float64 → float64 → float64) (fuel : nat).
Context (defaultConverter : DataConverter).
Context (json_Marshal : goValue → string + bytes) (Quote : string → string).
Context (sc : scheduleClient).
(** The service. *)
Context (CreateSchedule : SharedSchedule.CreateScheduleRequest → rpc CreateScheduleResponse).
Context (DescribeSchedule : DescribeScheduleRequest → rpc SharedSchedule.DescribeScheduleResponse).
Context (UpdateSchedule : UpdateScheduleRequest → rpc unit).
Context (DeleteSchedule : DeleteScheduleRequest → rpc unit).
Context (PauseSchedule : PauseScheduleRequest → rpc unit).
Context (UnpauseSchedule : UnpauseScheduleRequest → rpc unit).
Context (BackfillSchedule : BackfillScheduleRequest → rpc unit).
Context (ListSchedules : ListSchedulesRequest → rpc SharedSchedule.ListSchedulesResponse).

Definition invoke {R} (req : request) (c : rpc R) : M client (serviceError + option R) := λ s,
  match callService Pow fuel c with
  | Panic p => (Panic p, s)
  | Ret (r, calls) => (Ret r, Client (objects s) (sent s ++ replicate calls req))
  end.

(** The error of a call whose response is not used. *)
Definition invoke_ {R} (req : request) (c : rpc R) : M client (option scheduleErr) :=
  r ← invoke req c;
  mret (match r with inl err => Some (ServiceErr err) | inr _ => None end).

Definition Create (r : option CreateScheduleRequest) : M client (string * option scheduleErr) :=
  match scheduleCreateRequestToThrift defaultConverter json_Marshal Quote (sc_domain sc) r
          (sc_dataConverter sc) with
  | inl err => mret ("", Some err)
  | inr thriftReq =>
      resp ← invoke (CreateSchedule_ thriftReq) (CreateSchedule thriftReq);
      mret (match resp with
            | inl err => ("", Some (ServiceErr err))
            | inr resp => (get_string CreateScheduleResponse_ScheduleId resp, None)
            end)
  end.

Definition Describe (scheduleID : string)
    : M client (scheduleErr + option DescribeScheduleResponse) :=
  if bool_decide (scheduleID = "") then
    mret (inl (Wrapped "Describe" (Sentinel ErrScheduleIDRequired)))
  else
  let req := MkDescribeScheduleRequest (Some (sc_domain sc)) (Some scheduleID) in
  r ← invoke (DescribeSchedule_ req) (DescribeSchedule req);
  mret (match r with
        | inl err => inl (ServiceErr err)
        | inr r => inr (describeScheduleResponseFromThrift r)
        end).

(** A field is sent if it is not nil and differs from the baseline, which is read
    only then. *)
Definition changedField {A B} (equal : A → A → bool) (convert : A → scheduleErr + option B)
    (baseline : ScheduleUpdate → option A) (desc : option ScheduleUpdate) (cur : option A)
    : outcome (scheduleErr + option B) :=
  match cur with
  | None => Ret (inr None)
  | Some x =>
      d ← deref desc;
      if deepEqual equal (Some x) (baseline d) then Ret (inr None) else Ret (convert x)
  end.

Definition convertSpec (x : ScheduleSpec) : scheduleErr + option SharedSchedule.ScheduleSpec :=
  if bool_decide (spec_CronExpression x = "") then
    inl (Wrapped "Update" (Sentinel ErrCronExpressionRequired))
  else inr (scheduleSpecToThrift (Some x)).

(** The request, [None] when nothing changed. *)
Definition updateRequest (scheduleID : string) (desc : option ScheduleUpdate) (cur : ScheduleUpdate)
    : outcome (scheduleErr + option UpdateScheduleRequest) :=
  spec ← changedField equal convertSpec up_Spec desc (up_Spec cur);
  match spec with inl err => Ret (inl err) | inr spec =>
  action ← changedField deepEqual_action (λ a, scheduleActionDescriptionToThrift (Some a))
             up_Action desc (up_Action cur);
  match action with inl err => Ret (inl err) | inr action =>
  policies ← changedField equal (λ p, inr (schedulePoliciesToThrift (Some p)))
               up_Policies desc (up_Policies cur);
  match policies with inl err => Ret (inl err) | inr policies =>
  attributes ← changedField equal (λ m, inr (Some (MkSearchAttributes (Some m))))
                 up_SearchAttributes desc (nonEmpty (up_SearchAttributes cur));
  match attributes with inl err => Ret (inl err) | inr attributes =>
  match spec, action, policies, attributes with
  | None, None, None, None => Ret (inr None)
  | _, _, _, _ =>
      Ret (inr (Some (MkUpdateScheduleRequest (Some (sc_domain sc)) (Some scheduleID)
                        spec action policies attributes)))
  end
  end end end end.

Definition Update (scheduleID : string) (mutate : option (nat → M heap (option scheduleErr)))
    : M client (option scheduleErr) :=
  if bool_decide (scheduleID = "") then
    mret (Some (Wrapped "Update" (Sentinel ErrScheduleIDRequired)))
  else
  match mutate with
  | None => mret (Some (Wrapped "Update" (Sentinel ErrMutateFunctionRequired)))
  | Some mutate =>
      desc ← Describe scheduleID;
      match (desc : scheduleErr + option DescribeScheduleResponse) with
      | inl err => mret (Some (Wrapped "Update: describe failed" err))
      | inr desc =>
          desc ← on_heap (new_response desc);
          cur ← on_heap (scheduleUpdateFromDescribe desc);
          err ← on_heap (mutate cur);
          match (err : option scheduleErr) with
          | Some err => mret (Some err)
          | None =>
              s ← get;
              let h := objects s in
              match updateRequest scheduleID (view h <$> desc) (view h (update_at h cur)) with
              | Panic p => throw p
              | Ret (inl err) => mret (Some err)
              | Ret (inr None) => mret None
              | Ret (inr (Some req)) => invoke_ (UpdateSchedule_ req) (UpdateSchedule req)
              end
          end
      end
  end.

Definition Delete (scheduleID : string) : M client (option scheduleErr) :=
  if bool_decide (scheduleID = "") then
    mret (Some (Wrapped "Delete" (Sentinel ErrScheduleIDRequired)))
  else
  let req := MkDeleteScheduleRequest (Some (sc_domain sc)) (Some scheduleID) in
  invoke_ (DeleteSchedule_ req) (DeleteSchedule req).

Definition Pause (scheduleID reason : string) : M client (option scheduleErr) :=
  if bool_decide (scheduleID = "") then
    mret (Some (Wrapped "Pause" (Sentinel ErrScheduleIDRequired)))
  else
  let req := {| PauseScheduleRequest_Domain := Some (sc_domain sc);
                PauseScheduleRequest_ScheduleId := Some scheduleID;
                PauseScheduleRequest_Reason := Some reason;
                PauseScheduleRequest_Identity := Some (sc_identity sc) |} in
  invoke_ (PauseSchedule_ req) (PauseSchedule req).

Definition Unpause (scheduleID reason : string) (catchUpPolicy : ScheduleCatchUpPolicy)
    : M client (option scheduleErr) :=
  if bool_decide (scheduleID = "") then
    mret (Some (Wrapped "Unpause" (Sentinel ErrScheduleIDRequired)))
  else
  let req := {| UnpauseScheduleRequest_Domain := Some (sc_domain sc);
                UnpauseScheduleRequest_ScheduleId := Some scheduleID;
                UnpauseScheduleRequest_Reason := Some reason;
                UnpauseScheduleRequest_CatchUpPolicy :=
                  scheduleCatchUpPolicyToThrift catchUpPolicy |} in
  invoke_ (UnpauseSchedule_ req) (UnpauseSchedule req).

Definition Backfill (scheduleID : string) (r : option BackfillRequest)
    : M client (option scheduleErr) :=
  match backfillRequestToThrift (sc_domain sc) scheduleID r with
  | inl err => mret (Some err)
  | inr thriftReq => invoke_ (BackfillSchedule_ thriftReq) (BackfillSchedule thriftReq)
  end.

Definition List_ (pageSize : Z) (nextPageToken : bytes)
    : M client (scheduleErr + option ListSchedulesResponse) :=
  let req := {| ListSchedulesRequest_Domain := Some (sc_domain sc);
                ListSchedulesRequest_PageSize := Some pageSize;
                ListSchedulesRequest_NextPageToken := nextPageToken |} in
  r ← invoke (ListSchedules_ req) (ListSchedules req);
  mret (match r with
        | inl err => inl (ServiceErr err)
        | inr r => inr (listSchedulesResponseFromThrift r)
        end).

End client.
