(* ===== verification/ScheduleCopy.v ===== *)
(** * The copy that an update works on

    The callback of [Update] gets a deep copy of the described schedule: it cannot
    reach the objects that its result is compared with.  Reachability on the heap
    of ScheduleClient.v, the objects that an operation may have touched, and the
    specifications of the copies. *)

From Stdlib Require Import ZArith Lia.
From stdpp Require Import base list gmap strings option.
From S2P Require Import Prelude.
From S2P Require Import Schedule.
From S2P Require Import ScheduleClient.

(** The objects that an object refers to. *)
Definition succs (o : object) : list nat :=
  match o with
  | ObjBytes _ | ObjStrings _ | ObjSpec _ | ObjPolicies _ => []
  | ObjMap m => omap snd (map_to_list m)
  | ObjRetry _ r => option_list r
  | ObjStart _ i r m s => option_list i ++ option_list r ++ option_list m ++ option_list s
  | ObjAction s => option_list s
  | ObjUpdate r => option_list (ref_Spec r) ++ option_list (ref_Action r)
                   ++ option_list (ref_Policies r) ++ option_list (ref_SearchAttributes r)
  end.

Inductive reachable (h : heap) : nat → nat → Prop :=
| reachable_self p : reachable h p p
| reachable_step p o q r : h !! p = Some o → q ∈ succs o → reachable h q r → reachable h p r.

(** Code that is given the pointer [p] changes no object that it cannot reach. *)
Definition confined {A} (m : nat → M heap A) : Prop := ∀ p h q,
  (q < length h)%nat → ¬ reachable h p q → snd (m p h) !! q = h !! q.

(** No object refers to one that does not exist. *)
Definition within (n : nat) (h : heap) : Prop := ∀ q o r,
  (q < n)%nat → h !! q = Some o → r ∈ succs o → (r < n)%nat.
Definition closed (h : heap) : Prop := within (length h) h.

Definition below (n : nat) (p : option nat) : Prop := ∀ q, p = Some q → (q < n)%nat.
Definition refs_below (n : nat) (r : refs) : Prop :=
  below n (ref_Spec r) ∧ below n (ref_Action r) ∧ below n (ref_Policies r)
  ∧ below n (ref_SearchAttributes r).

(** ** What is read depends on what is reachable *)

Section agree.
Context (n : nat) (h h' : heap).
Hypothesis same : ∀ q, (q < n)%nat → h' !! q = h !! q.
Hypothesis inside : within n h.

Lemma below_succ p o q : (p < n)%nat → h !! p = Some o → q ∈ succs o → below n (Some q).
Proof. intros Hp Ho Hq ? [= <-]. eauto. Qed.

Lemma below_field p o q : (p < n)%nat → h !! p = Some o → (∀ x, q = Some x → x ∈ succs o) → below n q.
Proof. intros Hp Ho Hq x ->. eauto. Qed.

Lemma load_bytes_agree p : below n p → load_bytes h' p = load_bytes h p.
Proof. intros Hp. destruct p as [p|]; [|done]. unfold load_bytes. simpl. by rewrite same by auto. Qed.
Lemma load_strings_agree p : below n p → load_strings h' p = load_strings h p.
Proof. intros Hp. destruct p as [p|]; [|done]. unfold load_strings. simpl. by rewrite same by auto. Qed.
Lemma load_spec_agree p : below n p → load_spec h' p = load_spec h p.
Proof. intros Hp. destruct p as [p|]; [|done]. unfold load_spec. simpl. by rewrite same by auto. Qed.
Lemma load_policies_agree p : below n p → load_policies h' p = load_policies h p.
Proof. intros Hp. destruct p as [p|]; [|done]. unfold load_policies. simpl. by rewrite same by auto. Qed.

Lemma load_map_agree p : below n p → load_map h' p = load_map h p.
Proof.
  intros Hp. destruct p as [p|]; [|done]. unfold load_map, map_at. simpl.
  rewrite same by auto. f_equal.
  destruct (h !! p) as [[]|] eqn:E; try by rewrite !fmap_empty. apply map_fmap_ext. intros k x Hk.
  apply load_bytes_agree, (below_field p _ x (Hp p eq_refl) E). intros y ->. simpl.
  apply list_elem_of_omap. exists (k, Some y). by rewrite elem_of_map_to_list.
Qed.

Lemma load_retry_agree p : below n p → load_retry h' p = load_retry h p.
Proof.
  intros Hp. destruct p as [p|]; [|done]. unfold load_retry, retry_at. simpl.
  rewrite same by auto. destruct (h !! p) as [[]|] eqn:E; try done. simpl.
  rewrite load_strings_agree; [done|]. apply (below_field p _ reasons (Hp p eq_refl) E).
  intros x ->. simpl. set_solver.
Qed.

Lemma load_start_agree p : below n p → load_start h' p = load_start h p.
Proof.
  intros Hp. destruct p as [p|]; [|done]. unfold load_start, start_at. simpl.
  rewrite same by auto. destruct (h !! p) as [[| | | | | |a i r m s| |]|] eqn:E; try done.
  rewrite load_bytes_agree, load_retry_agree, !load_map_agree; [done|..];
    (eapply below_field; [by apply Hp|exact E|intros ? ->; simpl; set_solver]).
Qed.

Lemma load_action_agree p : below n p → load_action h' p = load_action h p.
Proof.
  intros Hp. destruct p as [p|]; [|done]. unfold load_action, action_at. simpl.
  rewrite same by auto. destruct (h !! p) as [[]|] eqn:E; try done.
  rewrite load_start_agree; [done|]. eapply below_field; [by apply Hp|exact E|].
  intros x ->. simpl. set_solver.
Qed.

Lemma view_agree r : refs_below n r → view h' r = view h r.
Proof.
  intros (H1 & H2 & H3 & H4). unfold view.
  by rewrite load_spec_agree, load_action_agree, load_policies_agree, load_map_agree.
Qed.
End agree.

(** ** New objects *)

(** [h'] has new objects, which refer to new objects only. *)
Definition grows (h h' : heap) : Prop := ∃ l, h' = h ++ l ∧
  ∀ o r, o ∈ l → r ∈ succs o → (length h <= r < length h')%nat.
Definition fresh (h h' : heap) (p : option nat) : Prop :=
  ∀ q, p = Some q → (length h <= q < length h')%nat.

Lemma grows_refl h : grows h h.
Proof. exists []. rewrite app_nil_r. split; [done|]. set_solver. Qed.

Lemma grows_length h h' : grows h h' → (length h <= length h')%nat.
Proof. intros (l & -> & _). rewrite length_app. lia. Qed.

Lemma grows_trans h h1 h2 : grows h h1 → grows h1 h2 → grows h h2.
Proof.
  intros (l & -> & H1) (k & -> & H2). exists (l ++ k). rewrite (assoc_L (++)).
  split; [done|]. rewrite !length_app in *.
  intros o r [Ho|Ho]%elem_of_app Hr; [specialize (H1 o r Ho Hr)|specialize (H2 o r Ho Hr)]; lia.
Qed.

Lemma grows_alloc h h' o :
  grows h h' → (∀ r, r ∈ succs o → (length h <= r < length h')%nat) → grows h (h' ++ [o]).
Proof.
  intros (l & -> & H) Ho. exists (l ++ [o]). rewrite (assoc_L (++)). split; [done|].
  rewrite !length_app in *. simpl.
  intros x r [Hx| ->%list_elem_of_singleton]%elem_of_app Hr;
    [specialize (H x r Hx Hr)|specialize (Ho r Hr)]; lia.
Qed.

Lemma grows_same h h' q : grows h h' → (q < length h)%nat → h' !! q = h !! q.
Proof. intros (l & -> & _) Hq. by apply lookup_app_l. Qed.

Lemma grows_closed h h' : closed h → grows h h' → closed h'.
Proof.
  intros Hc (l & -> & H) q o r Hq Ho Hr. rewrite length_app in *.
  destruct (decide (q < length h)%nat) as [Hl|Hl].
  - rewrite lookup_app_l in Ho by done. specialize (Hc q o r Hl Ho Hr). lia.
  - rewrite lookup_app_r in Ho by lia. apply list_elem_of_lookup_2 in Ho.
    specialize (H o r Ho Hr). lia.
Qed.

Lemma fresh_none h h' : fresh h h' None.
Proof. done. Qed.
Lemma fresh_below h h' p : fresh h h' p → below (length h') p.
Proof. intros Hp q Hq. destruct (Hp q Hq). lia. Qed.
Lemma fresh_mono h h1 h2 h3 p : grows h h1 → grows h2 h3 → fresh h1 h2 p → fresh h h3 p.
Proof. intros ?%grows_length ?%grows_length Hp q Hq. specialize (Hp q Hq). lia. Qed.
Lemma below_grows h h' p : grows h h' → below (length h) p → below (length h') p.
Proof. intros ?%grows_length Hp q Hq. specialize (Hp q Hq). lia. Qed.

#[local] Hint Resolve grows_refl grows_closed fresh_none fresh_below : core.

(** [m] makes a new object, or returns nil, and [v] is what is read through the
    reference afterwards. *)
Definition makes {A} (load : heap → option nat → A) (v : A) (h : heap)
    (m : M heap (option nat)) : Prop :=
  ∃ p h', m h = (Ret p, h') ∧ grows h h' ∧ fresh h h' p ∧ load h' p = v.

Lemma makes_alloc {A} (load : heap → option nat → A) (v : A) h h' o :
  grows h h' → (∀ r, r ∈ succs o → (length h <= r < length h')%nat) →
  load (h' ++ [o]) (Some (length h')) = v →
  grows h (h' ++ [o]) ∧ fresh h (h' ++ [o]) (Some (length h')) ∧
  load (h' ++ [o]) (Some (length h')) = v.
Proof.
  intros Hg Ho Hv. split_and!; [by apply grows_alloc| |done].
  intros q [= <-]. rewrite length_app. simpl. apply grows_length in Hg. lia.
Qed.

Lemma new_object_makes {A} (make : A → object) (load : heap → option nat → option A) v h :
  (∀ v, succs (make v) = []) → (∀ h v, load (h ++ [make v]) (Some (length h)) = Some v) →
  (∀ h, load h None = None) → makes load v h (new_object make v).
Proof.
  intros Hs Hl Hn. destruct v as [v|]; [|exists None, h; by auto].
  eexists _, _. split; [reflexivity|]. apply makes_alloc; auto. rewrite Hs. set_solver.
Qed.

Lemma lookup_new (h : heap) o : (h ++ [o]) !! length h = Some o.
Proof. by apply list_lookup_middle. Qed.

Lemma new_bytes_makes b h : makes load_bytes b h (new_bytes b).
Proof. apply (new_object_makes ObjBytes load_bytes); [done| |done]. intros. simpl. by rewrite lookup_new. Qed.
Lemma new_strings_makes l h : makes load_strings l h (new_object ObjStrings l).
Proof. apply (new_object_makes ObjStrings load_strings); [done| |done]. intros. simpl. by rewrite lookup_new. Qed.
Lemma new_spec_makes x h : makes load_spec x h (new_object ObjSpec x).
Proof. apply (new_object_makes ObjSpec load_spec); [done| |done]. intros. simpl. by rewrite lookup_new. Qed.
Lemma new_policies_makes x h : makes load_policies x h (new_object ObjPolicies x).
Proof. apply (new_object_makes ObjPolicies load_policies); [done| |done]. intros. simpl. by rewrite lookup_new. Qed.

Lemma new_entries_makes l h :
  closed h → ∃ l' h', new_entries l h = (Ret l', h') ∧ grows h h' ∧
    Forall (λ kp, fresh h h' kp.2) l' ∧ prod_map id (load_bytes h') <$> l' = l.
Proof.
  revert h. induction l as [|[k v] l IH]; intros h Hc; [exists [], h; by auto|].
  destruct (new_bytes_makes v h) as (p & h1 & E1 & G1 & F1 & L1).
  destruct (IH h1) as (l' & h2 & E2 & G2 & F2 & L2); [by eauto|].
  exists ((k, p) :: l'), h2. cbn [new_entries]. run. rewrite E1, E2.
  split_and!; [done|by eapply grows_trans| |].
  - constructor; [by apply (fresh_mono h h h1 h2)|]. eapply Forall_impl; [|exact F2].
    intros kp. by apply (fresh_mono h h1 h2 h2).
  - rewrite fmap_cons, L2. f_equal. unfold prod_map. simpl. f_equal.
    rewrite (load_bytes_agree (length h1) h1 h2); [done| |by eauto].
    intros. by apply grows_same.
Qed.

Lemma new_map_makes m h : closed h → makes load_map m h (new_map m).
Proof.
  intros Hc. destruct m as [m|]; [|exists None, h; by auto].
  destruct (new_entries_makes (map_to_list m) h Hc) as (l & h1 & E & G & F & L).
  unfold new_map. eexists _, _. run. rewrite E. split; [reflexivity|].
  assert (Hin : ∀ k p, (list_to_map l : gmap string (option nat)) !! k = Some p → fresh h h1 p).
  { intros k p Hk. apply elem_of_list_to_map_2 in Hk.
    by apply (proj1 (list.Forall_forall _ _) F (k, p)). }
  apply makes_alloc; [done| |].
  - intros r [[k p] [Hk Hp]]%list_elem_of_omap. simpl in Hp. subst p.
    apply elem_of_map_to_list in Hk. by apply (Hin k (Some r)).
  - unfold load_map, map_at. simpl. rewrite lookup_new. f_equal.
    rewrite (map_fmap_ext _ (load_bytes h1)).
    + by rewrite <- list_to_map_fmap, L, list_to_map_to_list.
    + intros k p Hk. apply (load_bytes_agree (length h1)); [|by eauto].
      intros. by apply lookup_app_l.
Qed.

(** [m] makes [v] in every heap that grew out of [h]. *)
Definition makes_later {A} (load : heap → option nat → A) (v : A) (h : heap)
    (m : M heap (option nat)) : Prop := ∀ h', closed h' → grows h h' → makes load v h' m.

(** What is read through an old reference does not change. *)
Definition stable {A} (load : heap → option nat → A) : Prop := ∀ h h' p,
  closed h → h `prefix_of` h' → below (length h) p → load h' p = load h p.

Lemma prefix_same (h h' : heap) q : h `prefix_of` h' → (q < length h)%nat → h' !! q = h !! q.
Proof. intros [l ->] Hq. by apply lookup_app_l. Qed.
Lemma grows_prefix h h' : grows h h' → h `prefix_of` h'.
Proof. intros (l & -> & _). by exists l. Qed.

Lemma stable_bytes : stable load_bytes.
Proof. intros h h' p Hc Hp Hb. by apply (load_bytes_agree (length h)); [eauto using prefix_same|]. Qed.
Lemma stable_strings : stable load_strings.
Proof. intros h h' p Hc Hp Hb. by apply (load_strings_agree (length h)); [eauto using prefix_same|]. Qed.
Lemma stable_spec : stable load_spec.
Proof. intros h h' p Hc Hp Hb. by apply (load_spec_agree (length h)); [eauto using prefix_same|]. Qed.
Lemma stable_policies : stable load_policies.
Proof. intros h h' p Hc Hp Hb. by apply (load_policies_agree (length h)); [eauto using prefix_same|]. Qed.
Lemma stable_map : stable load_map.
Proof. intros h h' p Hc Hp Hb. by apply (load_map_agree (length h)); [eauto using prefix_same|..]. Qed.
Lemma stable_retry : stable load_retry.
Proof. intros h h' p Hc Hp Hb. by apply (load_retry_agree (length h)); [eauto using prefix_same|..]. Qed.
Lemma stable_start : stable load_start.
Proof. intros h h' p Hc Hp Hb. by apply (load_start_agree (length h)); [eauto using prefix_same|..]. Qed.
Lemma stable_action : stable load_action.
Proof. intros h h' p Hc Hp Hb. by apply (load_action_agree (length h)); [eauto using prefix_same|..]. Qed.

Lemma fresh_in h h1 h2 h3 p x :
  grows h h1 → grows h2 h3 → fresh h1 h2 p → x ∈ option_list p → (length h <= x < length h3)%nat.
Proof.
  intros G1 G2 F Hx. apply (fresh_mono h h1 h2 h3 p G1 G2 F). destruct p; set_solver.
Qed.

#[local] Hint Resolve grows_prefix prefix_app_r : core.

Lemma retry_makes p m v h :
  closed h → makes_later load_strings v h m →
  makes load_retry (Some (set_reasons v p)) h
    (reasons ← m; q ← alloc (ObjRetry p reasons); mret (Some q)).
Proof.
  intros Hc Hm. destruct (Hm h) as (r & h1 & E & G & F & L); [by auto..|].
  eexists _, _. run. rewrite E. split; [reflexivity|].
  apply makes_alloc; [done|by intros x; apply (fresh_in h h h1 h1)|].
  unfold load_retry, retry_at. simpl. rewrite lookup_new. simpl.
  rewrite (stable_strings h1), L by eauto. done.
Qed.

Lemma start_makes a mi mr mm ms vi vr vm vs h :
  closed h → makes_later load_bytes vi h mi → makes_later load_retry vr h mr →
  makes_later load_map vm h mm → makes_later load_map vs h ms →
  makes load_start (Some (set_references vi vr vm vs a)) h
    (i ← mi; r ← mr; m ← mm; s ← ms; p ← alloc (ObjStart a i r m s); mret (Some p)).
Proof.
  intros Hc Hi Hr Hm Hs.
  destruct (Hi h) as (i & h1 & E1 & G1 & F1 & L1); [by auto..|].
  assert (C1 : closed h1) by eauto.
  destruct (Hr h1) as (r & h2 & E2 & G2 & F2 & L2); [done..|].
  assert (C2 : closed h2) by eauto. assert (G02 := grows_trans _ _ _ G1 G2).
  destruct (Hm h2) as (m & h3 & E3 & G3 & F3 & L3); [done..|].
  assert (C3 : closed h3) by eauto. assert (G03 := grows_trans _ _ _ G02 G3).
  destruct (Hs h3) as (s & h4 & E4 & G4 & F4 & L4); [done..|].
  assert (C4 : closed h4) by eauto. assert (G24 := grows_trans _ _ _ G3 G4).
  assert (G14 := grows_trans _ _ _ G2 G24).
  eexists _, _. run. rewrite E1, E2, E3, E4. split; [reflexivity|].
  apply makes_alloc; [by apply (grows_trans h h3)| |].
  - intros x Hx. simpl in Hx. rewrite !elem_of_app in Hx.
    destruct Hx as [Hx|[Hx|[Hx|Hx]]]; (eapply fresh_in; [| | |exact Hx]; [| |eassumption]; auto).
  - unfold load_start, start_at. simpl. rewrite lookup_new. simpl.
    rewrite (stable_bytes h1), (stable_retry h2), (stable_map h3 _ m), (stable_map h4 _ s),
      L1, L2, L3, L4; eauto.
Qed.

Lemma action_makes m v h :
  closed h → makes load_start v h m →
  makes load_action (Some (SdkScheduleActionDescription v)) h
    (s ← m; p ← alloc (ObjAction s); mret (Some p)).
Proof.
  intros Hc (s & h1 & E & G & F & L). eexists _, _. run. rewrite E. split; [reflexivity|].
  apply makes_alloc; [done|by intros x; apply (fresh_in h h h1 h1)|].
  unfold load_action, action_at. simpl. rewrite lookup_new. simpl.
  rewrite (stable_start h1), L by eauto. done.
Qed.

Lemma new_retry_makes r h : closed h → makes load_retry r h (new_retry r).
Proof.
  intros Hc. destruct r as [p|]; [|exists None, h; by auto].
  replace (Some p) with (Some (set_reasons (rp_NonRetriableErrorReasons p) p)) at 1 by (by destruct p).
  apply retry_makes; [done|]. intros h' _ _. apply new_strings_makes.
Qed.

Lemma new_action_makes a h : closed h → makes load_action a h (new_action a).
Proof.
  intros Hc. destruct a as [[a]|]; [|exists None, h; by auto].
  apply action_makes; [done|]. destruct a as [a|]; [|exists None, h; by auto]. simpl.
  replace (Some a) with (Some (set_references (sw_Input a) (sw_RetryPolicy a) (sw_Memo a)
    (sw_SearchAttributes a) a)) at 1 by (by destruct a).
  apply start_makes; [done|..]; intros h' Hc' _;
    auto using new_bytes_makes, new_retry_makes, new_map_makes.
Qed.

(** ** Copies *)

(** [m] copies what is read through [p]. *)
Definition copies {A} (load : heap → option nat → A) (p : option nat)
    (m : M heap (option nat)) : Prop := ∀ h,
  closed h → below (length h) p → makes load (load h p) h m.

Lemma copies_later {A} (load : heap → option nat → A) p m h :
  stable load → copies load p m → closed h → below (length h) p →
  makes_later load (load h p) h m.
Proof.
  intros Hs Hm Hc Hp h' Hc' Hg. rewrite <- (Hs h h' p) by auto.
  apply Hm; [done|by eapply below_grows].
Qed.

Lemma copyBytes_copies p : copies load_bytes p (copyBytes p).
Proof. intros h _ _. exact (new_bytes_makes (load_bytes h p) h). Qed.
Lemma copyStrings_copies p : copies load_strings p (copyStrings p).
Proof. intros h _ _. exact (new_strings_makes (load_strings h p) h). Qed.
Lemma copyByteMap_copies p : copies load_map p (copyByteMap p).
Proof. intros h Hc _. exact (new_map_makes (load_map h p) h Hc). Qed.
Lemma copySpec_copies p : copies load_spec p (copySpec p).
Proof. intros h _ _. exact (new_spec_makes (load_spec h p) h). Qed.
Lemma copyPolicies_copies p : copies load_policies p (copyPolicies p).
Proof. intros h _ _. exact (new_policies_makes (load_policies h p) h). Qed.

Lemma copyRetry_copies p : copies load_retry p (copyRetry p).
Proof.
  intros h Hc Hp. destruct p as [p|]; [|exists None, h; by auto].
  apply (retry_makes (fst (retry_at h p)) (copyStrings (snd (retry_at h p)))
           (load_strings h (snd (retry_at h p)))); [done|].
  apply copies_later; auto using stable_strings, copyStrings_copies.
  unfold retry_at. destruct (h !! p) as [[]|] eqn:E; try done. simpl.
  eapply (below_field (length h) h Hc p _ reasons (Hp p eq_refl) E). intros x ->. simpl. set_solver.
Qed.

Lemma start_below h p a i r m s :
  closed h → (p < length h)%nat → start_at h p = (a, (i, r, m, s)) →
  below (length h) i ∧ below (length h) r ∧ below (length h) m ∧ below (length h) s.
Proof.
  unfold start_at. intros Hc Hp. destruct (h !! p) as [[]|] eqn:E; intros [= <- <- <- <- <-]; try done.
  split_and!; (eapply (below_field (length h) h Hc p _ _ Hp E); intros x ->; simpl; set_solver).
Qed.

Lemma copyStart_copies p : copies load_start (Some p) (copyStart p).
Proof.
  intros h Hc Hp. unfold load_start. simpl.
  destruct (start_at h p) as [a [[[i r] m] s]] eqn:E.
  destruct (start_below _ _ _ _ _ _ _ Hc (Hp p eq_refl) E) as (Hi & Hr & Hm & Hs).
  assert (copyStart p h = (i ← copyBytes i; r ← copyRetry r; m ← copyByteMap m;
    s ← copyByteMap s; p ← alloc (ObjStart a i r m s); mret (Some p)) h) as Heq.
  { unfold copyStart. run. by rewrite E. }
  unfold makes. rewrite Heq.
  apply start_makes; auto using copies_later, stable_bytes, stable_retry, stable_map,
    copyBytes_copies, copyRetry_copies, copyByteMap_copies.
Qed.

(** An action without a workflow to start is not copied. *)
Definition copied_action (a : option ScheduleActionDescription) : option ScheduleActionDescription :=
  a ← a; sw ← descr_StartWorkflow a; Some (SdkScheduleActionDescription (Some sw)).

Lemma copyAction_makes p h :
  closed h → below (length h) p → makes load_action (copied_action (load_action h p)) h (copyAction p).
Proof.
  intros Hc Hp. destruct p as [p|]; [|exists None, h; by auto].
  change (load_action h (Some p))
    with (Some (SdkScheduleActionDescription (load_start h (action_at h p)))).
  unfold makes. change (copyAction (Some p) h) with
    (match action_at h p with
     | None => mret None
     | Some s => s ← copyStart s; p ← alloc (ObjAction s); mret (Some p)
     end h).
  destruct (action_at h p) as [s|] eqn:E; [|exists None, h; by auto].
  assert (Hs : below (length h) (Some s)).
  { unfold action_at in E. destruct (h !! p) as [[]|] eqn:E'; try done. subst.
    eapply (below_field (length h) h Hc p _ _ (Hp p eq_refl) E'). intros x ->. simpl. set_solver. }
  assert (Hv := copyStart_copies s h Hc Hs).
  assert (∃ sw, load_start h (Some s) = Some sw) as [sw Hsw].
  { unfold load_start. simpl. destruct (start_at h s) as [a [[[i r] m] t]]. by eexists. }
  rewrite Hsw in *. exact (action_makes (copyStart s) _ h Hc Hv).
Qed.

(** ** The response and the update *)

(** Four new references, whatever is done with them. *)
Lemma refs_make (ms ma mp mm : M heap (option nat)) vs va vp vm h :
  closed h → makes_later load_spec vs h ms → makes_later load_action va h ma →
  makes_later load_policies vp h mp → makes_later load_map vm h mm →
  ∃ r h', (∀ B (k : refs → M heap B),
      (spec ← ms; action ← ma; policies ← mp; attributes ← mm;
       k (Refs spec action policies attributes)) h = k r h') ∧
    grows h h' ∧ (∀ x, x ∈ succs (ObjUpdate r) → (length h <= x < length h')%nat) ∧
    view h' r = SdkScheduleUpdate vs va vp vm.
Proof.
  intros Hc Hs Ha Hp Hm.
  destruct (Hs h) as (s & h1 & E1 & G1 & F1 & L1); [by auto..|].
  assert (C1 : closed h1) by eauto.
  destruct (Ha h1) as (a & h2 & E2 & G2 & F2 & L2); [done..|].
  assert (C2 : closed h2) by eauto. assert (G02 := grows_trans _ _ _ G1 G2).
  destruct (Hp h2) as (p & h3 & E3 & G3 & F3 & L3); [done..|].
  assert (C3 : closed h3) by eauto. assert (G03 := grows_trans _ _ _ G02 G3).
  destruct (Hm h3) as (m & h4 & E4 & G4 & F4 & L4); [done..|].
  assert (G24 := grows_trans _ _ _ G3 G4). assert (G14 := grows_trans _ _ _ G2 G24).
  exists (Refs s a p m), h4. split_and!.
  - intros B k. run. by rewrite E1, E2, E3, E4.
  - by apply (grows_trans h h3).
  - intros x Hx. simpl in Hx. rewrite !elem_of_app in Hx.
    destruct Hx as [Hx|[Hx|[Hx|Hx]]]; (eapply fresh_in; [| | |exact Hx]; [| |eassumption]; auto).
  - unfold view. simpl. rewrite (stable_spec h1), (stable_action h2), (stable_policies h3),
      L1, L2, L3, L4; eauto.
Qed.

Lemma refs_below_succs n r : (∀ x, x ∈ succs (ObjUpdate r) → (x < n)%nat) → refs_below n r.
Proof.
  intros Hr. unfold refs_below, below.
  split_and!; intros q Hq; apply Hr; simpl; rewrite Hq; simpl; set_solver.
Qed.

(** The fields of the response that an update starts from, and the update. *)
Definition described (d : DescribeScheduleResponse) : ScheduleUpdate :=
  SdkScheduleUpdate (d_Spec d) (d_Action d) (d_Policies d) (d_SearchAttributes d).
Definition copied (u : ScheduleUpdate) : ScheduleUpdate :=
  SdkScheduleUpdate (up_Spec u) (copied_action (up_Action u)) (up_Policies u)
    (up_SearchAttributes u).

Lemma new_response_made d h :
  closed h → ∃ r h', new_response (Some d) h = (Ret (Some r), h') ∧ grows h h' ∧
    refs_below (length h') r ∧ view h' r = described d.
Proof.
  intros Hc.
  destruct (refs_make (new_object ObjSpec (d_Spec d)) (new_action (d_Action d))
    (new_object ObjPolicies (d_Policies d)) (new_map (d_SearchAttributes d))
    (d_Spec d) (d_Action d) (d_Policies d) (d_SearchAttributes d) h Hc) as (r & h' & E & G & F & V);
    try (intros h1 C1 _; auto using new_spec_makes, new_policies_makes, new_action_makes,
      new_map_makes).
  exists r, h'. split_and!; [exact (E _ (λ r, mret (Some r)))|done| |done].
  apply refs_below_succs. intros x Hx. by apply F.
Qed.

Lemma update_made d h :
  closed h → refs_below (length h) d →
  ∃ cur h', scheduleUpdateFromDescribe (Some d) h = (Ret cur, h') ∧ grows h h' ∧
    (length h <= cur)%nat ∧ view h' (update_at h' cur) = copied (view h d).
Proof.
  intros Hc (B1 & B2 & B3 & B4).
  destruct (refs_make (copySpec (ref_Spec d)) (copyAction (ref_Action d))
    (copyPolicies (ref_Policies d)) (copyByteMap (ref_SearchAttributes d))
    (load_spec h (ref_Spec d)) (copied_action (load_action h (ref_Action d)))
    (load_policies h (ref_Policies d)) (load_map h (ref_SearchAttributes d)) h Hc)
    as (r & h' & E & G & F & V);
    [auto using copies_later, stable_spec, copySpec_copies| |
     auto using copies_later, stable_policies, copyPolicies_copies|
     auto using copies_later, stable_map, copyByteMap_copies|].
  { intros h1 C1 G1. rewrite <- (stable_action h h1) by auto.
    apply copyAction_makes; [done|by eapply below_grows]. }
  exists (length h'), (h' ++ [ObjUpdate r]). split_and!.
  - exact (E _ (λ r, alloc (ObjUpdate r))).
  - by apply grows_alloc.
  - by apply grows_length.
  - change (copied (view h d)) with (SdkScheduleUpdate (load_spec h (ref_Spec d))
      (copied_action (load_action h (ref_Action d))) (load_policies h (ref_Policies d))
      (load_map h (ref_SearchAttributes d))).
    unfold update_at. rewrite lookup_new, <- V. apply (view_agree (length h'));
      [intros; by apply lookup_app_l|exact (grows_closed h h' Hc G)|].
    apply refs_below_succs. intros x Hx. by apply F.
Qed.

(** A callback that is given new objects only does not change old ones. *)
Lemma reachable_fresh h h' p q :
  grows h h' → (length h <= p)%nat → reachable h' p q → (length h <= q)%nat.
Proof.
  intros (l & -> & H) Hp Hr. induction Hr as [|p o q r Ho Hq Hr IH]; [done|].
  apply IH. rewrite lookup_app_r in Ho by done. apply list_elem_of_lookup_2 in Ho.
  by apply (H o q).
Qed.

Lemma confined_frame {A} (m : nat → M heap A) h h' p :
  confined m → grows h h' → (length h <= p)%nat →
  ∀ q, (q < length h)%nat → snd (m p h') !! q = h !! q.
Proof.
  intros Hm Hg Hp q Hq. rewrite (Hm p h' q); [by apply grows_same| |].
  - apply grows_length in Hg. lia.
  - intros Hr. apply (reachable_fresh h) in Hr; [lia|done..].
Qed.
