(* ===== verification/ScheduleProps.v ===== *)
(** * Schedules: theorems

    What [Update] sends, what the conversions keep, and what [Create] accepts. *)

From Stdlib Require Import ZArith Lia.
From stdpp Require Import base list gmap strings option.
From S2P Require Import Prelude.
From S2P Require Import Shared.
From S2P Require Import SharedSchedule.
From S2P Require Import Errors.
From S2P Require Import Floats.
From S2P Require Import Environment.
From S2P Require Import Backoff.
From S2P Require Import Schedule.
From S2P Require Import ScheduleClient.
From S2P Require Import ScheduleCopy.

(** ** Updates *)

Definition nothing : ScheduleUpdate := SdkScheduleUpdate None None None None.

Section update.
Context (Pow : float64 → float64 → float64) (fuel : nat) (sc : scheduleClient).
Context (DescribeSchedule : DescribeScheduleRequest → rpc SharedSchedule.DescribeScheduleResponse).
Context (UpdateSchedule : UpdateScheduleRequest → rpc unit).

Abbreviation Describe := (Describe Pow fuel sc DescribeSchedule).
Abbreviation Update := (Update Pow fuel sc DescribeSchedule UpdateSchedule).

Lemma invoke_objects {R} req (c : rpc R) s : objects (snd (invoke Pow fuel req c s)) = objects s.
Proof. unfold invoke. by destruct (callService _ _ _) as [[? ?]|?]. Qed.

Lemma Describe_objects id s : objects (snd (Describe id s)) = objects s.
Proof.
  unfold ScheduleClient.Describe. case_bool_decide; [done|]. run.
  set (req := MkDescribeScheduleRequest _ _).
  pose proof (invoke_objects (DescribeSchedule_ req) (DescribeSchedule req) s) as Hinv.
  by destruct (invoke _ _ _ _ s) as [[] ?].
Qed.

(** The response and its copy on the heap; the objects below [n] are not reachable
    from the copy. *)
Lemma copy_made desc h :
  closed h → ∃ r cur h1 h2, new_response desc h = (Ret r, h1) ∧
    scheduleUpdateFromDescribe r h1 = (Ret cur, h2) ∧
    view h2 (update_at h2 cur) = default nothing (copied ∘ described <$> desc) ∧
    grows h1 h2 ∧ (length h1 <= cur)%nat ∧
    ∀ h3, (∀ q, (q < length h1)%nat → h3 !! q = h1 !! q) → view h3 <$> r = described <$> desc.
Proof.
  intros Hc. destruct desc as [d|].
  - destruct (new_response_made d h Hc) as (r & h1 & E1 & G1 & B1 & V1).
    assert (C1 : closed h1) by (by eapply grows_closed).
    destruct (update_made r h1 C1 B1) as (cur & h2 & E2 & G2 & L2 & V2).
    exists (Some r), cur, h1, h2. split_and!; try done.
    + by rewrite V2, V1.
    + intros h3 Hs. simpl. by rewrite <- V1, (view_agree (length h1) h1).
  - exists None, (length h), h, (h ++ [ObjUpdate (Refs None None None None)]). split_and!; try done.
    + unfold update_at. by rewrite lookup_new.
    + apply grows_alloc; [apply grows_refl|]. simpl. set_solver.
Qed.

(** C22: The callback of [Update] works on a deep copy: it gets an update that holds
    the described schedule, and whatever it does with the objects that it can reach
    from there, what it leaves is compared with the schedule as it was described.
    A failure to describe the schedule, an error of the callback and an update
    without changes send no request; otherwise the request is sent. *)
Theorem update_baseline id mutate s :
  id ≠ "" → closed (objects s) → confined mutate →
  let '(d, s1) := Describe id s in
  match d with
  | Panic p => Update id (Some mutate) s = (Panic p, s1)
  | Ret (inl err) =>
      Update id (Some mutate) s = (Ret (Some (Wrapped "Update: describe failed" err)), s1)
  | Ret (inr desc) =>
      ∃ h cur, view h (update_at h cur) = default nothing (copied ∘ described <$> desc) ∧
      let '(r, h') := mutate cur h in
      let s2 := Client h' (sent s1) in
      Update id (Some mutate) s =
      match r with
      | Panic p => (Panic p, s2)
      | Ret (Some err) => (Ret (Some err), s2)
      | Ret None =>
          match updateRequest sc id (described <$> desc) (view h' (update_at h' cur)) with
          | Panic p => (Panic p, s2)
          | Ret (inl err) => (Ret (Some err), s2)
          | Ret (inr None) => (Ret None, s2)
          | Ret (inr (Some req)) =>
              invoke_ Pow fuel (UpdateSchedule_ req) (UpdateSchedule req) s2
          end
      end
  end.
Proof.
  intros Hid Hc Hm. pose proof (Describe_objects id s) as Ho.
  destruct (Describe id s) as [d s1] eqn:E. simpl in Ho.
  unfold ScheduleClient.Update. rewrite bool_decide_false by done. run. rewrite E.
  destruct d as [[err|desc]|p]; [done| |done].
  destruct (copy_made desc (objects s1)) as (r & cur & h1 & h2 & E1 & E2 & V & G & L & Hr);
    [by rewrite Ho|].
  exists h2, cur. split; [done|].
  pose proof (confined_frame mutate h1 h2 cur Hm G L) as Hf.
  unfold on_heap. rewrite E1. simpl. rewrite E2. simpl.
  destruct (mutate cur h2) as [[[err|]|p] h'] eqn:E3; try done. simpl.
  rewrite Hr by done. destruct (updateRequest _ _ _ _) as [[err|[req|]]|p]; done.
Qed.
End update.

(** A field that is not nil and not the same. *)
Definition changed {A} `{!EqDecision A} (cur base : option A) : bool :=
  bool_decide (cur ≠ None ∧ cur ≠ base).
Definition action_changed (cur base : option ScheduleActionDescription) : bool :=
  bool_decide (is_Some cur) && negb (deepEqual deepEqual_action cur base).

(** The coefficient of the retry policy is a number. *)
Definition numeric (u : ScheduleUpdate) : Prop := ∀ a sw p,
  up_Action u = Some a → descr_StartWorkflow a = Some sw → sw_RetryPolicy sw = Some p →
  is_nan (rp_BackoffCoefficient p) = false.

Lemma changedField_eq {A B} `{!EqDecision A} (convert : A → scheduleErr + option B) baseline d cur :
  changedField equal convert baseline (Some d) cur =
  Ret (if changed cur (baseline d) then match cur with Some x => convert x | None => inr None end
       else inr None).
Proof.
  unfold changedField, changed, deref, deepEqual, equal. destruct cur as [x|]; [|done]. simpl.
  destruct (baseline d) as [y|]; repeat case_bool_decide; naive_solver.
Qed.

Lemma changedField_action {B} (convert : ScheduleActionDescription → scheduleErr + option B) d cur :
  changedField deepEqual_action convert up_Action (Some d) cur =
  Ret (if action_changed cur (up_Action d)
       then match cur with Some x => convert x | None => inr None end else inr None).
Proof.
  unfold changedField, action_changed, deref. destruct cur as [x|]; [|done].
  rewrite bool_decide_true by eauto. cbn [andb mbind outcome_bind].
  by destruct (deepEqual deepEqual_action (Some x) (up_Action d)).
Qed.

Lemma deepEqual_action_same u a :
  numeric u → up_Action u = Some a → deepEqual_action a a = true.
Proof.
  intros Hn Ha. unfold deepEqual_action. destruct (descr_StartWorkflow a) as [sw|] eqn:Hs; [|done].
  simpl. unfold deepEqual_start. rewrite !bool_decide_true by done.
  destruct (sw_RetryPolicy sw) as [p|] eqn:Hp; [|done]. simpl.
  unfold deepEqual_retry, float_equal. rewrite !bool_decide_true by done.
  by rewrite (Hn a sw p) by done.
Qed.

Lemma copied_unchanged sc id d : numeric d → updateRequest sc id (Some d) (copied d) = Ret (inr None).
Proof.
  intros Hn. unfold updateRequest. rewrite !changedField_eq, changedField_action.
  assert (Hsame : ∀ A (HA : EqDecision A) (x : option A), changed x x = false)
    by (intros; unfold changed; case_bool_decide; naive_solver).
  simpl. rewrite !Hsame.
  replace (action_changed _ _) with false; simpl.
  - unfold nonEmpty. destruct (up_SearchAttributes d) as [m|]; simpl; [|done].
    case_bool_decide; simpl; [done|]. by rewrite Hsame.
  - unfold action_changed, copied_action. destruct (up_Action d) as [a|] eqn:Ha; [|done]. simpl.
    destruct (descr_StartWorkflow a) as [sw|] eqn:Hs; [|done]. simpl.
    pose proof (deepEqual_action_same d a Hn Ha) as He.
    unfold deepEqual_action in *. simpl. rewrite Hs in He. simpl in He. by rewrite Hs, He.
Qed.

Lemma updateRequest_spec sc id d cur :
  let spec := changed (up_Spec cur) (up_Spec d) in
  let action := action_changed (up_Action cur) (up_Action d) in
  let policies := changed (up_Policies cur) (up_Policies d) in
  let attributes := changed (nonEmpty (up_SearchAttributes cur)) (up_SearchAttributes d) in
  (numeric d → updateRequest sc id (Some d) (copied d) = Ret (inr None)) ∧
  match updateRequest sc id (Some d) cur with
  | Panic _ => False
  | Ret (inl err) =>
      (spec = true ∧ spec_CronExpression <$> up_Spec cur = Some "" ∧
       Is err ErrCronExpressionRequired) ∨
      (action = true ∧ scheduleActionDescriptionToThrift (up_Action cur) = inl err)
  | Ret (inr None) => spec || action || policies || attributes = false
  | Ret (inr (Some req)) =>
      spec || action || policies || attributes = true ∧
      (spec = true → spec_CronExpression <$> up_Spec cur ≠ Some "") ∧
      UpdateScheduleRequest_Domain req = Some (sc_domain sc) ∧
      UpdateScheduleRequest_ScheduleId req = Some id ∧
      UpdateScheduleRequest_Spec req =
        (if spec then scheduleSpecToThrift (up_Spec cur) else None) ∧
      (if action then scheduleActionDescriptionToThrift (up_Action cur) else inr None)
        = inr (UpdateScheduleRequest_Action req) ∧
      UpdateScheduleRequest_Policies req =
        (if policies then schedulePoliciesToThrift (up_Policies cur) else None) ∧
      UpdateScheduleRequest_SearchAttributes req =
        (if attributes then MkSearchAttributes ∘ Some <$> nonEmpty (up_SearchAttributes cur)
         else None)
  end.
Proof.
  intros spec action policies attributes. split; [apply copied_unchanged|].
  unfold updateRequest. rewrite !changedField_eq, changedField_action.
  fold spec. fold action. fold policies. fold attributes.
  assert (Hsome : ∀ A (HA : EqDecision A) (x y : option A), changed x y = true → is_Some x).
  { intros A HA x y. unfold changed. case_bool_decide; [|done]. destruct x; naive_solver. }
  assert (spec = true → is_Some (up_Spec cur)) as Hs by apply Hsome.
  assert (policies = true → is_Some (up_Policies cur)) as Hp by apply Hsome.
  assert (attributes = true → is_Some (nonEmpty (up_SearchAttributes cur))) as Hm by apply Hsome.
  assert (action = true → is_Some (up_Action cur)) as Ha.
  { subst action. unfold action_changed. by case_bool_decide. }
  clearbody spec action policies attributes.
  assert (∀ x, is_Some (schedulePoliciesToThrift (Some x))) as Hpt by (by intros; eexists).
  assert (∀ x, is_Some (scheduleSpecToThrift (Some x))) as Hst by (by intros; eexists).
  assert (∀ x y, scheduleActionDescriptionToThrift (Some x) = inr y → is_Some y) as Hat.
  { intros [x] y. simpl. destruct x as [x|]; [|done]. simpl.
    destruct (checkStartWorkflow x); [done|]. intros [= <-]. by eexists. }
  cbn [mbind outcome_bind].
  destruct spec;
    [destruct (Hs eq_refl) as [x ->]; unfold convertSpec; destruct (bool_decide _) eqn:Hx;
     [left; apply bool_decide_eq_true in Hx; split_and!; [done|cbn; by rewrite Hx|done]
     |destruct (Hst x) as [x' ->]]|];
  (destruct action;
    [destruct (Ha eq_refl) as [a ->];
     destruct (scheduleActionDescriptionToThrift (Some a)) as [err|a'] eqn:E;
     [by right|destruct (Hat _ _ E) as [? ->]]|]);
  (destruct policies; [destruct (Hp eq_refl) as [p ->]; destruct (Hpt p) as [p' ->]|]);
  (destruct attributes; [destruct (Hm eq_refl) as [m ->]|]);
  cbn [orb]; try reflexivity; split; try reflexivity;
  (split; [intros Hc; try discriminate Hc; apply bool_decide_eq_false in Hx; cbn; congruence|]);
  repeat (split; [reflexivity|]); reflexivity.
Qed.

(** [Update] sends exactly the fields that the callback changed: a field is in
    the request, converted, if it is neither nil (or empty, for the search
    attributes) nor what it was, and no request is made when there is no such field,
    in particular when the callback changes nothing; a changed field that is not
    valid is an error. *)
Theorem update_sends_changes sc id d cur :
  let spec := changed (up_Spec cur) (up_Spec d) in
  let action := action_changed (up_Action cur) (up_Action d) in
  let policies := changed (up_Policies cur) (up_Policies d) in
  let attributes := changed (nonEmpty (up_SearchAttributes cur)) (up_SearchAttributes d) in
  (numeric d → updateRequest sc id (Some d) (copied d) = Ret (inr None)) ∧
  match updateRequest sc id (Some d) cur with
  | Panic _ => False
  | Ret (inl err) =>
      (spec = true ∧ spec_CronExpression <$> up_Spec cur = Some "" ∧
       Is err ErrCronExpressionRequired) ∨
      (action = true ∧ scheduleActionDescriptionToThrift (up_Action cur) = inl err)
  | Ret (inr None) => spec || action || policies || attributes = false
  | Ret (inr (Some req)) =>
      spec || action || policies || attributes = true ∧
      (spec = true → spec_CronExpression <$> up_Spec cur ≠ Some "") ∧
      UpdateScheduleRequest_Domain req = Some (sc_domain sc) ∧
      UpdateScheduleRequest_ScheduleId req = Some id ∧
      UpdateScheduleRequest_Spec req =
        (if spec then scheduleSpecToThrift (up_Spec cur) else None) ∧
      (if action then scheduleActionDescriptionToThrift (up_Action cur) else inr None)
        = inr (UpdateScheduleRequest_Action req) ∧
      UpdateScheduleRequest_Policies req =
        (if policies then schedulePoliciesToThrift (up_Policies cur) else None) ∧
      UpdateScheduleRequest_SearchAttributes req =
        (if attributes then MkSearchAttributes ∘ Some <$> nonEmpty (up_SearchAttributes cur)
         else None)
  end.
Proof. apply updateRequest_spec. Qed.

(** ** Round trips *)

Local Open Scope Z_scope.

(** A duration of whole seconds that fit into an int32; a time in UTC that fits into
    an int64, or none. *)
Definition whole (d : Z) : Prop := ∃ n, - 2 ^ 31 <= n < 2 ^ 31 ∧ d = n * Second.
Definition plain (t : Time) : Prop :=
  t = zeroTime ∨ (location t = 0%nat ∧ monotonic t = None ∧ in_int64 (instant t)).

Lemma time_round_trip t : plain t → thriftNanoToTime (timeToThriftNano t) = t.
Proof.
  intros [->|(Hl & Hm & Hi)]; [done|]. unfold timeToThriftNano, IsZero, UnixNano.
  rewrite bool_decide_false by (unfold in_int64, zeroInstant, Second in *; lia).
  rewrite int64_id by done. destruct t; simpl in *. by subst.
Qed.

Lemma duration_round_trip d : whole d → thriftSecondsToDuration (durationToThriftSeconds d) = d.
Proof.
  intros (n & Hn & ->). destruct (decide (n = 0)) as [->|H0]; [done|].
  unfold Second. rewrite durationToThriftSeconds_whole by done. simpl.
  apply int64_id. unfold in_int64, Second. lia.
Qed.

Definition whole_spec (s : ScheduleSpec) : Prop :=
  plain (spec_StartTime s) ∧ plain (spec_EndTime s) ∧ whole (spec_Jitter s).
Definition whole_retry (p : RetryPolicy) : Prop :=
  whole (rp_InitialInterval p) ∧ whole (rp_MaximumInterval p) ∧ whole (rp_ExpirationInterval p).
Definition whole_start {V} (a : StartWorkflow V) : Prop :=
  whole (sw_ExecutionStartToCloseTimeout a) ∧ whole (sw_DecisionTaskStartToCloseTimeout a) ∧
  ∀ p, sw_RetryPolicy a = Some p → whole_retry p.
(** The constants of the policies are declared ones. *)
Definition whole_policies (p : SchedulePolicies) : Prop :=
  whole (pol_CatchUpWindow p) ∧ (∀ v, pol_OverlapPolicy p ≠ ScheduleOverlapPolicyOther v) ∧
  (∀ v, pol_CatchUpPolicy p ≠ ScheduleCatchUpPolicyOther v).
Definition whole_request (r : CreateScheduleRequest) : Prop :=
  (∀ s, create_Spec r = Some s → whole_spec s) ∧
  (∀ a, create_Action r ≫= action_StartWorkflow = Some a → whole_start a) ∧
  (∀ p, create_Policies r = Some p → whole_policies p).

Lemma spec_round_trip s :
  (∀ x, s = Some x → whole_spec x) → scheduleSpecFromThrift (scheduleSpecToThrift s) = s.
Proof.
  intros Hs. destruct s as [s|]; [|done]. destruct (Hs s) as (H1 & H2 & H3); [done|].
  simpl. rewrite !time_round_trip, duration_round_trip by done. by destruct s.
Qed.

Lemma policies_round_trip p :
  (∀ x, p = Some x → whole_policies x) → schedulePoliciesFromThrift (schedulePoliciesToThrift p) = p.
Proof.
  intros Hp. destruct p as [[o c w f b l]|]; [|done].
  destruct (Hp _ eq_refl) as (Hw & Ho & Hc). simpl in *.
  rewrite duration_round_trip by done. by destruct o, c; naive_solver.
Qed.

(** The pause is read back without its time. *)
Definition without_time (s : ScheduleState) : ScheduleState :=
  SdkScheduleState (state_Paused s)
    ((λ i, SdkSchedulePauseInfo (pause_Reason i) zeroTime (pause_PausedBy i)) <$> state_PauseInfo s).

Lemma state_round_trip s : scheduleStateFromThrift (scheduleStateToThrift s) = without_time <$> s.
Proof. by destruct s as [[p [i|]]|]. Qed.

Lemma nonzero_coefficient b :
  float_is_zero (if float_is_zero b then defaultCoefficient else b) = false.
Proof. by destruct (float_is_zero b) eqn:E; [|rewrite E]. Qed.

Lemma retry_write_back p :
  (∀ x, p = Some x → whole_retry x) →
  scheduleRetryPolicyToThrift (scheduleRetryPolicyFromThrift (scheduleRetryPolicyToThrift p)) =
  scheduleRetryPolicyToThrift p.
Proof.
  intros Hp. destruct p as [p|]; [|done]. destruct (Hp p) as (H1 & H2 & H3); [done|].
  cbn -[float_is_zero durationToThriftSeconds thriftSecondsToDuration].
  by rewrite !duration_round_trip, nonzero_coefficient by done.
Qed.

(** *** Encoded maps *)

(** [r] has the encodings of the values of [m]; an empty map becomes nil. *)
Definition encoded (encode : goValue → string + bytes) (m : option (gmap string goValue))
    (r : option (gmap string bytes)) : Prop :=
  match nonEmpty m with
  | None => r = None
  | Some m => ∃ fields, r = Some fields ∧ ∀ k,
      match m !! k with
      | None => fields !! k = None
      | Some v => ∃ b, encode v = inr b ∧ fields !! k = Some b
      end
  end.

Lemma encode_list {A} (encode : A → string + bytes) describe l acc fields :
  foldl (λ acc kv,
    match acc with
    | inl err => inl err
    | inr m => match encode kv.2 with
               | inr b => inr (<[kv.1 := b]> m)
               | inl err => inl (describe kv.1 err)
               end
    end) (inr acc) l = (inr fields : string + gmap string bytes) →
  NoDup l.*1 →
  (∀ k v, (k, v) ∈ l → ∃ b, encode v = inr b ∧ fields !! k = Some b) ∧
  (∀ k, k ∉ l.*1 → fields !! k = acc !! k).
Proof.
  revert acc. induction l as [|[k v] l IH]; intros acc Hf Hd; simpl in *.
  { injection Hf as ->. split; [set_solver|done]. }
  apply list.NoDup_cons in Hd as [Hk Hd].
  destruct (encode v) as [err|b] eqn:He.
  { exfalso. clear -Hf. induction l; simpl in *; [done|auto]. }
  destruct (IH _ Hf Hd) as [H1 H2]. split.
  - intros k' v' [[= -> ->]|Hin]%elem_of_cons; [|eauto].
    exists b. split; [done|]. by rewrite H2, lookup_insert_eq.
  - intros k' Hk'. apply not_elem_of_cons in Hk' as [Hne Hk']. by rewrite H2, lookup_insert_ne.
Qed.

Lemma encodeWith_encoded Quote encode what m r :
  encodeWith Quote encode what m = inr r → encoded encode m r.
Proof.
  unfold encodeWith, encoded. destruct (nonEmpty m) as [m'|]; [|by intros [= <-]].
  unfold encode_fields. destruct (foldl _ _ _) as [err|fields] eqn:E; [done|]. intros [= <-].
  exists fields. split; [done|]. intros k.
  destruct (encode_list encode (λ k err, "encode " +:+ what +:+ " " +:+ Quote k +:+ ": " +:+ err)
    _ _ _ E) as [H1 H2]; [apply NoDup_fst_map_to_list|].
  destruct (m' !! k) as [v|] eqn:Hk.
  - apply H1. by apply elem_of_map_to_list.
  - rewrite H2; [apply lookup_empty|]. intros ([? v] & -> & Hin)%list_elem_of_fmap.
    apply elem_of_map_to_list in Hin. simpl in Hk. congruence.
Qed.

(** What is encoded is sent as it is when it is written back. *)
Lemma encoded_nonEmpty encode m r : encoded encode m r → nonEmpty r = r.
Proof.
  unfold encoded, nonEmpty. destruct m as [m|]; simpl; [|by intros ->].
  case_bool_decide as He; [by intros ->|]. intros (fields & -> & Hf). simpl.
  rewrite bool_decide_false; [done|]. intros ->.
  destruct (map_choose m He) as (k & v & Hk). specialize (Hf k). rewrite Hk in Hf.
  destruct Hf as (b & _ & Hb). by rewrite lookup_empty in Hb.
Qed.

(** *** Actions *)

(** [b] is what is read back after [a] was sent. *)
Definition read_back {V} (a : StartWorkflow V) (b : ScheduleStartWorkflowActionDescription) : Prop :=
  sw_WorkflowType b = sw_WorkflowType a ∧ sw_TaskList b = sw_TaskList a ∧
  bytes_to_string (sw_Input b) = bytes_to_string (sw_Input a) ∧
  sw_WorkflowIDPrefix b = sw_WorkflowIDPrefix a ∧
  sw_ExecutionStartToCloseTimeout b = sw_ExecutionStartToCloseTimeout a ∧
  sw_DecisionTaskStartToCloseTimeout b =
    (if decide (sw_DecisionTaskStartToCloseTimeout a = 0)
     then defaultDecisionTaskTimeoutInSecs * Second else sw_DecisionTaskStartToCloseTimeout a) ∧
  sw_RetryPolicy b =
    (λ p, SdkRetryPolicy (rp_InitialInterval p)
       (if float_is_zero (rp_BackoffCoefficient p) then defaultCoefficient
        else rp_BackoffCoefficient p)
       (rp_MaximumInterval p) (rp_ExpirationInterval p) (rp_MaximumAttempts p)
       (rp_NonRetriableErrorReasons p)) <$> sw_RetryPolicy a.

(** The checks passed. *)
Definition complete {V} (a : StartWorkflow V) : Prop :=
  sw_WorkflowType a ≠ "" ∧ sw_TaskList a ≠ "" ∧ 0 < sw_ExecutionStartToCloseTimeout a ∧
  0 <= sw_DecisionTaskStartToCloseTimeout a.

Lemma checkStartWorkflow_ok {V} (a : StartWorkflow V) t :
  checkStartWorkflow a = inr t ↔
  complete a ∧ t = (if decide (sw_DecisionTaskStartToCloseTimeout a = 0)
     then defaultDecisionTaskTimeoutInSecs * Second else sw_DecisionTaskStartToCloseTimeout a).
Proof.
  unfold checkStartWorkflow, complete. repeat case_bool_decide; case_decide;
    (split; [intros [= <-]; split_and!; try done; lia|intros [(?&?&?&?) ?]; try done; try lia; by f_equal]).
Qed.

Lemma checkStartWorkflow_refused {V} (a : StartWorkflow V) err :
  checkStartWorkflow a = inl err → ∃ e, Is err e.
Proof.
  unfold checkStartWorkflow. repeat case_bool_decide; intros [= <-]; by eexists.
Qed.

Lemma start_round_trip {V} (a : StartWorkflow V) t memo attributes :
  checkStartWorkflow a = inr t → whole_start a → nonEmpty memo = memo →
  nonEmpty attributes = attributes →
  let wire := buildStartWorkflow a t memo attributes in
  ∃ b, scheduleStartWorkflowActionDescriptionFromThrift (Some wire) = Some b ∧
    read_back a b ∧ sw_Memo b = memo ∧ sw_SearchAttributes b = attributes ∧
    scheduleStartWorkflowActionDescriptionToThrift (Some b) = inr (Some wire).
Proof.
  intros [(H1 & H2 & H3 & H4) Ht]%checkStartWorkflow_ok (W1 & W2 & W3) Hm Ha wire.
  assert (Wt : whole t).
  { subst t. case_decide; [|done]. exists 10. split; [lia|done]. }
  assert (Hmemo : ScheduleStartWorkflowAction_Memo wire ≫= Memo_Fields = memo)
    by (by destruct memo).
  assert (Hattr : ScheduleStartWorkflowAction_SearchAttributes wire ≫= SearchAttributes_IndexedFields
    = attributes) by (by destruct attributes).
  eexists. split; [reflexivity|].
  split; [|split_and!; [exact Hmemo|exact Hattr|]].
  - unfold read_back. cbn -[thriftSecondsToDuration durationToThriftSeconds len_bytes bytes_to_string].
    rewrite !duration_round_trip by done. split_and!; try done.
    + case_bool_decide as Hl; [done|]. unfold len_bytes in Hl.
      by destruct (bytes_to_string (sw_Input a)) eqn:E; simpl in *; [|lia].
    + destruct (sw_RetryPolicy a) as [p|]; [|done]. destruct (W3 p eq_refl) as (P1 & P2 & P3).
      cbn -[thriftSecondsToDuration durationToThriftSeconds float_is_zero].
      by rewrite !duration_round_trip.
  - assert (Ht0 : 0 < t) by (subst t; case_decide; [reflexivity|lia]).
    unfold scheduleStartWorkflowActionDescriptionToThrift.
    match goal with |- match checkStartWorkflow ?b with _ => _ end = _ =>
      assert (checkStartWorkflow b = inr t) as -> end.
    { apply checkStartWorkflow_ok. unfold complete, sw_DecisionTaskStartToCloseTimeout,
        sw_ExecutionStartToCloseTimeout.
      cbn -[thriftSecondsToDuration durationToThriftSeconds].
      rewrite !duration_round_trip by done. rewrite decide_False by lia. split_and!; try done; lia. }
    do 2 f_equal. unfold sw_Memo at 1, sw_SearchAttributes at 1. rewrite Hmemo, Hattr, Hm, Ha.
    unfold buildStartWorkflow.
    cbn -[thriftSecondsToDuration durationToThriftSeconds len_bytes scheduleRetryPolicyToThrift
          scheduleRetryPolicyFromThrift].
    rewrite !duration_round_trip, retry_write_back by done.
    subst wire. unfold buildStartWorkflow. f_equal.
    by destruct (bool_decide (0 < len_bytes (sw_Input a))%nat) eqn:Hl; [rewrite Hl|].
Qed.

(** *** Requests *)

Definition complete_request (r : option CreateScheduleRequest) : Prop :=
  match r with
  | None => False
  | Some r =>
      create_ScheduleID r ≠ "" ∧
      (∃ s, create_Spec r = Some s ∧ spec_CronExpression s ≠ "") ∧
      ∃ sw, create_Action r ≫= action_StartWorkflow = Some sw ∧ complete sw
  end.

Section create.
Context (defaultConverter : DataConverter).
Context (json_Marshal : goValue → string + bytes) (Quote : string → string).
Implicit Types (dc : option DataConverter) (domain : string).

Abbreviation toThrift := (scheduleCreateRequestToThrift defaultConverter json_Marshal Quote).
Abbreviation memoOf dc := (encoded (encodeArg defaultConverter dc)).

(** The request that is sent. *)
Lemma toThrift_ok domain r dc t :
  toThrift domain (Some r) dc = inr t →
  complete_request (Some r) ∧
  ∃ sw timeout memo attributes memo' attributes',
    create_Action r ≫= action_StartWorkflow = Some sw ∧ checkStartWorkflow sw = inr timeout ∧
    memoOf dc (sw_Memo sw) memo ∧ encoded json_Marshal (sw_SearchAttributes sw) attributes ∧
    memoOf dc (create_Memo r) memo' ∧ encoded json_Marshal (create_SearchAttributes r) attributes' ∧
    t = MkCreateScheduleRequest (Some domain) (Some (create_ScheduleID r))
          (scheduleSpecToThrift (create_Spec r))
          (Some (MkScheduleAction (Some (buildStartWorkflow sw timeout memo attributes))))
          (schedulePoliciesToThrift (create_Policies r)) (MkMemo ∘ Some <$> memo')
          (MkSearchAttributes ∘ Some <$> attributes') (scheduleStateToThrift (create_State r)).
Proof.
  unfold scheduleCreateRequestToThrift, scheduleActionToThrift, scheduleStartWorkflowActionToThrift.
  case_bool_decide as H1; [done|]. case_bool_decide as H2; [done|]. case_bool_decide as H3; [done|].
  destruct (create_Action r) as [[[sw|]]|] eqn:Ha; simpl in H3; [|done..]. cbn [action_StartWorkflow].
  destruct (checkStartWorkflow sw) as [|timeout] eqn:Hc; [done|].
  destruct (encodeMemo _ _ dc (sw_Memo sw)) as [|memo] eqn:E1; [done|].
  destruct (encodeSearchAttributes _ _ (sw_SearchAttributes sw)) as [|attr] eqn:E2; [done|].
  destruct (encodeMemo _ _ dc (create_Memo r)) as [|memo'] eqn:E3; [done|].
  destruct (encodeSearchAttributes _ _ (create_SearchAttributes r)) as [|attr'] eqn:E4; [done|].
  intros [= <-].
  apply encodeWith_encoded in E1, E2, E3, E4. split.
  - split_and!; [done| |].
    + destruct (create_Spec r) as [s|]; [|done]. by exists s.
    + exists sw. rewrite Ha. split; [done|]. by apply checkStartWorkflow_ok in Hc as [??].
  - exists sw, timeout, memo, attr, memo', attr'. by split_and!.
Qed.

(** A request that is not complete is refused with one of the errors of the API. *)
Lemma toThrift_refused domain r dc :
  ¬ complete_request r → ∃ err e, toThrift domain r dc = inl err ∧ Is err e.
Proof.
  unfold scheduleCreateRequestToThrift, scheduleActionToThrift, scheduleStartWorkflowActionToThrift.
  intros Hr. destruct r as [r|]; [|by eexists _, _].
  case_bool_decide as H1; [by eexists _, _|]. case_bool_decide as H2; [by eexists _, _|].
  case_bool_decide as H3; [by eexists _, _|].
  destruct (create_Action r) as [[[sw|]]|] eqn:Ha; simpl in H3; [|done..]. cbn [action_StartWorkflow].
  destruct (checkStartWorkflow sw) as [err|timeout] eqn:Hc.
  - destruct (checkStartWorkflow_refused sw err Hc) as [e He]. by exists err, e.
  - destruct Hr. split_and!; [done| |].
    + destruct (create_Spec r) as [s|]; [|done]. by exists s.
    + exists sw. rewrite Ha. split; [done|]. by apply checkStartWorkflow_ok in Hc as [??].
Qed.

(** What a server that stores the request describes. *)
Definition stored (t : SharedSchedule.CreateScheduleRequest)
    : SharedSchedule.DescribeScheduleResponse :=
  MkDescribeScheduleResponse (CreateScheduleRequest_Spec t) (CreateScheduleRequest_Action t)
    (CreateScheduleRequest_Policies t) (CreateScheduleRequest_State t) None
    (CreateScheduleRequest_Memo t) (CreateScheduleRequest_SearchAttributes t).

(** C23: A schedule is described as it was created: when the request has whole
    seconds, times in UTC and declared policies, the specification, the policies,
    the state and the action are read back from what was sent, with the defaults
    that were filled in, without the time of a pause, and with the encodings of the
    memo and the search attributes; and writing back what was read gives the same
    wire values, byte for byte. *)
Theorem schedule_round_trip domain r dc t :
  whole_request r → toThrift domain (Some r) dc = inr t →
  ∃ d sw b, describeScheduleResponseFromThrift (Some (stored t)) = Some d ∧
    d_Spec d = create_Spec r ∧ d_Policies d = create_Policies r ∧
    d_State d = without_time <$> create_State r ∧
    memoOf dc (create_Memo r) (d_Memo d) ∧
    encoded json_Marshal (create_SearchAttributes r) (d_SearchAttributes d) ∧
    create_Action r ≫= action_StartWorkflow = Some sw ∧
    d_Action d = Some (SdkScheduleActionDescription (Some b)) ∧ read_back sw b ∧
    memoOf dc (sw_Memo sw) (sw_Memo b) ∧
    encoded json_Marshal (sw_SearchAttributes sw) (sw_SearchAttributes b) ∧
    scheduleSpecToThrift (d_Spec d) = CreateScheduleRequest_Spec t ∧
    scheduleActionDescriptionToThrift (d_Action d) = inr (CreateScheduleRequest_Action t) ∧
    schedulePoliciesToThrift (d_Policies d) = CreateScheduleRequest_Policies t.
Proof.
  intros (W1 & W2 & W3) (_ & sw & timeout & memo & attr & memo' & attr' & Ha & Hc & E1 & E2 & E3 & E4 & ->)%toThrift_ok.
  destruct (start_round_trip sw timeout memo attr Hc (W2 sw Ha) (encoded_nonEmpty _ _ _ E1)
    (encoded_nonEmpty _ _ _ E2)) as (b & Hb & Hr & M1 & M2 & Hw).
  eexists _, sw, b. split; [reflexivity|].
  cbn [d_Spec d_Policies d_State d_Memo d_SearchAttributes d_Action stored
       CreateScheduleRequest_Spec CreateScheduleRequest_Action CreateScheduleRequest_Policies
       CreateScheduleRequest_State CreateScheduleRequest_Memo CreateScheduleRequest_SearchAttributes
       DescribeScheduleResponse_Spec DescribeScheduleResponse_Action DescribeScheduleResponse_Policies
       DescribeScheduleResponse_State DescribeScheduleResponse_Memo
       DescribeScheduleResponse_SearchAttributes].
  rewrite spec_round_trip, policies_round_trip, state_round_trip by done.
  rewrite M1, M2. split_and!; try done.
  - by destruct memo'.
  - by destruct attr'.
  - unfold scheduleActionDescriptionFromThrift. cbn [mbind option_bind ScheduleAction_StartWorkflow].
    by rewrite Hb.
  - unfold scheduleActionDescriptionFromThrift. cbn [mbind option_bind ScheduleAction_StartWorkflow].
    rewrite Hb. unfold scheduleActionDescriptionToThrift. cbn [descr_StartWorkflow]. by rewrite Hw.
Qed.

End create.

(** ** What the client sends *)

Definition start_well_formed (a : option SharedSchedule.ScheduleAction) : Prop :=
  ∃ w, a ≫= ScheduleAction_StartWorkflow = Some w ∧
    get_string WorkflowType_Name (ScheduleStartWorkflowAction_WorkflowType w) ≠ "" ∧
    get_string TaskList_Name (ScheduleStartWorkflowAction_TaskList w) ≠ "" ∧
    is_Some (ScheduleStartWorkflowAction_ExecutionStartToCloseTimeoutSeconds w) ∧
    is_Some (ScheduleStartWorkflowAction_TaskStartToCloseTimeoutSeconds w).
Definition spec_well_formed (s : option SharedSchedule.ScheduleSpec) : Prop :=
  get_string ScheduleSpec_CronExpression s ≠ "".

(** The domain of the client, a schedule id, and what else a request needs. *)
Definition well_formed (sc : scheduleClient) (q : request) : Prop :=
  let domain := Some (sc_domain sc) in
  match q with
  | CreateSchedule_ r =>
      CreateScheduleRequest_Domain r = domain ∧
      default "" (CreateScheduleRequest_ScheduleId r) ≠ "" ∧
      spec_well_formed (CreateScheduleRequest_Spec r) ∧
      start_well_formed (CreateScheduleRequest_Action r)
  | DescribeSchedule_ r =>
      DescribeScheduleRequest_Domain r = domain ∧
      default "" (DescribeScheduleRequest_ScheduleId r) ≠ ""
  | UpdateSchedule_ r =>
      UpdateScheduleRequest_Domain r = domain ∧
      default "" (UpdateScheduleRequest_ScheduleId r) ≠ "" ∧
      (is_Some (UpdateScheduleRequest_Spec r) → spec_well_formed (UpdateScheduleRequest_Spec r)) ∧
      (is_Some (UpdateScheduleRequest_Action r) →
       start_well_formed (UpdateScheduleRequest_Action r)) ∧
      ¬ (UpdateScheduleRequest_Spec r = None ∧ UpdateScheduleRequest_Action r = None ∧
         UpdateScheduleRequest_Policies r = None ∧ UpdateScheduleRequest_SearchAttributes r = None)
  | DeleteSchedule_ r =>
      DeleteScheduleRequest_Domain r = domain ∧
      default "" (DeleteScheduleRequest_ScheduleId r) ≠ ""
  | PauseSchedule_ r =>
      PauseScheduleRequest_Domain r = domain ∧
      default "" (PauseScheduleRequest_ScheduleId r) ≠ "" ∧
      PauseScheduleRequest_Identity r = Some (sc_identity sc)
  | UnpauseSchedule_ r =>
      UnpauseScheduleRequest_Domain r = domain ∧
      default "" (UnpauseScheduleRequest_ScheduleId r) ≠ ""
  | BackfillSchedule_ r =>
      BackfillScheduleRequest_Domain r = domain ∧
      default "" (BackfillScheduleRequest_ScheduleId r) ≠ "" ∧
      is_Some (BackfillScheduleRequest_StartTimeNano r) ∧
      is_Some (BackfillScheduleRequest_EndTimeNano r)
  | ListSchedules_ r => ListSchedulesRequest_Domain r = domain
  end.

Lemma build_well_formed {V} (a : StartWorkflow V) t memo attributes :
  checkStartWorkflow a = inr t →
  start_well_formed (Some (MkScheduleAction (Some (buildStartWorkflow a t memo attributes)))).
Proof.
  intros [(H1 & H2 & H3 & H4) Ht]%checkStartWorkflow_ok.
  assert (Ht0 : t ≠ 0) by (subst t; case_decide; [done|lia]).
  eexists. split; [reflexivity|]. split_and!; [done|done|..]; simpl;
    unfold durationToThriftSeconds; rewrite decide_False by (try done; lia); by eexists.
Qed.

Lemma create_well_formed defaultConverter json_Marshal Quote sc r dc t :
  scheduleCreateRequestToThrift defaultConverter json_Marshal Quote (sc_domain sc) r dc = inr t →
  well_formed sc (CreateSchedule_ t).
Proof.
  destruct r as [r|]; [|done].
  intros [(H1 & (s & Hs & H2) & _) (sw & timeout & ? & ? & ? & ? & Ha & Hc & _ & _ & _ & _ & ->)]%toThrift_ok.
  split_and!; [done|done| |by apply build_well_formed].
  unfold spec_well_formed. simpl. by rewrite Hs.
Qed.

Lemma action_well_formed a t :
  scheduleActionDescriptionToThrift a = inr t → is_Some t → start_well_formed t.
Proof.
  unfold scheduleActionDescriptionToThrift, scheduleStartWorkflowActionDescriptionToThrift.
  destruct a as [[[a|]]|]; cbn [descr_StartWorkflow]; [|done|by intros [= <-] []].
  destruct (checkStartWorkflow a) eqn:Hc; [done|]. intros [= <-] _. by apply build_well_formed.
Qed.

Lemma updateRequest_nonempty sc id desc cur req :
  updateRequest sc id desc cur = Ret (inr (Some req)) →
  ¬ (UpdateScheduleRequest_Spec req = None ∧ UpdateScheduleRequest_Action req = None ∧
     UpdateScheduleRequest_Policies req = None ∧ UpdateScheduleRequest_SearchAttributes req = None).
Proof.
  unfold updateRequest. cbn [mbind outcome_bind].
  destruct (changedField equal convertSpec _ _ _) as [[|s]|]; [done| |done].
  destruct (changedField deepEqual_action _ _ _ _) as [[|a]|]; [done| |done].
  destruct (changedField equal (λ p, inr (schedulePoliciesToThrift (Some p))) _ _ _)
    as [[|p]|]; [done| |done].
  destruct (changedField equal _ up_SearchAttributes _ _) as [[|m]|]; [done| |done].
  destruct s, a, p, m; intros [= <-]; naive_solver.
Qed.

Lemma update_well_formed sc id desc cur req :
  id ≠ "" → updateRequest sc id desc cur = Ret (inr (Some req)) → well_formed sc (UpdateSchedule_ req).
Proof.
  intros Hid Hreq. destruct desc as [d|].
  2:{ revert Hreq. unfold updateRequest, changedField. destruct (up_Spec cur); [done|].
      destruct (up_Action cur); [done|]. destruct (up_Policies cur); [done|].
      by destruct (nonEmpty (up_SearchAttributes cur)). }
  pose proof (updateRequest_spec sc id d cur) as [_ Hspec]. rewrite Hreq in Hspec.
  destruct Hspec as (Hany & Hcron & Hd & Hi & Hs & Ha & Hp & Hm).
  split_and!; [done|by rewrite Hi| | |].
  - rewrite Hs. unfold spec_well_formed. destruct (changed (up_Spec cur) _); [|by intros []].
    destruct (up_Spec cur) as [x|]; [|by intros []]. intros _ Hx. apply (Hcron eq_refl).
    cbn in Hx |- *. by rewrite Hx.
  - destruct (action_changed _ _); [by apply (action_well_formed (up_Action cur))|].
    injection Ha as <-. by intros [].
  - by eapply updateRequest_nonempty.
Qed.

(** The operations of the client. *)
Inductive operation :=
| OpCreate (r : option CreateScheduleRequest)
| OpDescribe (id : string)
| OpUpdate (id : string) (mutate : option (nat → M heap (option scheduleErr)))
| OpDelete (id : string)
| OpPause (id reason : string)
| OpUnpause (id reason : string) (p : ScheduleCatchUpPolicy)
| OpBackfill (id : string) (r : option BackfillRequest)
| OpList (pageSize : Z) (token : bytes).

Section operations.
Context (Pow : float64 → float64 → float64) (fuel : nat).
Context (defaultConverter : DataConverter).
Context (json_Marshal : goValue → string + bytes) (Quote : string → string).
Context (sc : scheduleClient).
Context (CreateSchedule : SharedSchedule.CreateScheduleRequest → rpc CreateScheduleResponse).
Context (DescribeSchedule : DescribeScheduleRequest → rpc SharedSchedule.DescribeScheduleResponse).
Context (UpdateSchedule : UpdateScheduleRequest → rpc unit).
Context (DeleteSchedule : DeleteScheduleRequest → rpc unit).
Context (PauseSchedule : PauseScheduleRequest → rpc unit).
Context (UnpauseSchedule : UnpauseScheduleRequest → rpc unit).
Context (BackfillSchedule : BackfillScheduleRequest → rpc unit).
Context (ListSchedules : ListSchedulesRequest → rpc SharedSchedule.ListSchedulesResponse).

Definition ignore {A} (m : M client A) : M client unit := m;; mret tt.

Definition perform (o : operation) : M client unit :=
  match o with
  | OpCreate r =>
      ignore (Create Pow fuel defaultConverter json_Marshal Quote sc CreateSchedule r)
  | OpDescribe id => ignore (Describe Pow fuel sc DescribeSchedule id)
  | OpUpdate id mutate => ignore (Update Pow fuel sc DescribeSchedule UpdateSchedule id mutate)
  | OpDelete id => ignore (Delete Pow fuel sc DeleteSchedule id)
  | OpPause id reason => ignore (Pause Pow fuel sc PauseSchedule id reason)
  | OpUnpause id reason p => ignore (Unpause Pow fuel sc UnpauseSchedule id reason p)
  | OpBackfill id r => ignore (Backfill Pow fuel sc BackfillSchedule id r)
  | OpList n token => ignore (List_ Pow fuel sc ListSchedules n token)
  end.

(** [m] sends well-formed requests only. *)
Definition sends {A} (m : M client A) : Prop := ∀ s,
  ∃ l, sent (snd (m s)) = sent s ++ l ∧ Forall (well_formed sc) l.

Lemma sends_ret {A} (a : A) : sends (mret a).
Proof. intros s. exists []. by rewrite app_nil_r. Qed.
Lemma sends_throw {A} p : sends (throw (A := A) p).
Proof. intros s. exists []. by rewrite app_nil_r. Qed.
Lemma sends_on_heap {A} (m : M heap A) : sends (on_heap m).
Proof. intros s. exists []. unfold on_heap. destruct (m (objects s)). by rewrite app_nil_r. Qed.
Lemma sends_get : sends get.
Proof. intros s. exists []. by rewrite app_nil_r. Qed.
Lemma sends_bind {A B} (m : M client A) (k : A → M client B) :
  sends m → (∀ a, sends (k a)) → sends (m ≫= k).
Proof.
  intros Hm Hk s. destruct (Hm s) as (l & E & Hl). run.
  destruct (m s) as [[a|p] s1]; simpl in E; [|by exists l].
  destruct (Hk a s1) as (l' & E' & Hl'). exists (l ++ l').
  split; [|by apply Forall_app]. etransitivity; [exact E'|]. by rewrite E, (assoc_L (++)).
Qed.
Lemma sends_invoke {R} req (c : rpc R) : well_formed sc req → sends (invoke Pow fuel req c).
Proof.
  intros Hr s. unfold invoke. destruct (callService _ _ _) as [[? n]|?].
  - eexists. split; [reflexivity|]. by apply Forall_replicate.
  - exists []. by rewrite app_nil_r.
Qed.
Lemma sends_invoke_ {R} req (c : rpc R) : well_formed sc req → sends (invoke_ Pow fuel req c).
Proof. intros Hr. apply sends_bind; [by apply sends_invoke|]. intros ?. apply sends_ret. Qed.

#[local] Hint Resolve sends_ret sends_throw sends_on_heap sends_get sends_bind sends_invoke
  sends_invoke_ : core.

Lemma sends_Describe id : sends (Describe Pow fuel sc DescribeSchedule id).
Proof. unfold Describe. case_bool_decide; [by auto|]. apply sends_bind; [by apply sends_invoke|by auto]. Qed.

Lemma sends_Update id mutate : sends (Update Pow fuel sc DescribeSchedule UpdateSchedule id mutate).
Proof.
  unfold Update. case_bool_decide as Hid; [by auto|]. destruct mutate as [mutate|]; [|by auto].
  apply sends_bind; [apply sends_Describe|]. intros [err|desc]; [by auto|].
  apply sends_bind; [by auto|intros r]. apply sends_bind; [by auto|intros cur].
  apply sends_bind; [by auto|intros [err|]; [by auto|]].
  apply sends_bind; [by auto|intros s]. cbv zeta.
  destruct (updateRequest sc id _ _) as [[err|[req|]]|p] eqn:E; [by auto| |by auto..].
  apply sends_invoke_. by eapply update_well_formed.
Qed.

Lemma backfill_well_formed id r t :
  backfillRequestToThrift (sc_domain sc) id r = inr t → well_formed sc (BackfillSchedule_ t).
Proof.
  unfold backfillRequestToThrift. case_bool_decide; [done|]. destruct r as [r|]; [|done].
  destruct (IsZero (bfr_StartTime r)) eqn:Hs; [done|]. destruct (IsZero (bfr_EndTime r)) eqn:He; [done|].
  destruct (After _ _); [|done]. intros [= <-]. simpl. unfold timeToThriftNano. rewrite Hs, He.
  by split_and!.
Qed.

End operations.
