(* ===== verification/ScheduleSample.v ===== *)
(** * Schedules: executions

    A schedule that is created, described and updated, for the theorems of
    ScheduleProps.v, and two boundary cases. *)

From Stdlib Require Import ZArith Lia.
From stdpp Require Import base list gmap strings option.
From S2P Require Import Prelude.
From S2P Require Import Shared.
From S2P Require Import SharedSchedule.
From S2P Require Import Errors.
From S2P Require Import Backoff.
From S2P Require Import Schedule.
From S2P Require Import ScheduleClient.
From S2P Require Import ScheduleCopy.
From S2P Require Import ScheduleProps.

Local Open Scope Z_scope.

Definition sampleClient : scheduleClient := MkScheduleClient "domain" "worker" None.
Definition sampleJson (v : goValue) : string + bytes := inr (Some "1").

Definition sampleRequest (timeout : Z) : CreateScheduleRequest :=
  SdkCreateScheduleRequest "nightly"
    (Some (SdkScheduleSpec "0 2 * * *" zeroTime (MkTime (1700000000 * Second) 0 None) 0))
    (Some (SdkScheduleAction (Some (SdkStartWorkflow "Report" "reports" None "" (timeout * Second) 0
       None (Some {[ "owner" := GBytes (Some "me") ]}) None))))
    (Some (SdkSchedulePolicies ScheduleOverlapPolicyBuffer ScheduleCatchUpPolicyUnspecified
       (60 * Second) true 5 0))
    None (Some {[ "team" := GBytes None ]})
    (Some (SdkScheduleState true (Some (SdkSchedulePauseInfo "wait" zeroTime "me")))).

Abbreviation sampleToThrift timeout :=
  (scheduleCreateRequestToThrift bitConverter sampleJson id "domain" (Some (sampleRequest timeout)) None).

Lemma whole_sample timeout : 0 < timeout < 2 ^ 31 → whole_request (sampleRequest timeout).
Proof.
  intros Ht. split_and!; intros x [= <-]; split_and!; simpl.
  - by left.
  - right. split_and!; [done|done|]. unfold in_int64. cbn [instant]. unfold Second. lia.
  - by exists 0.
  - exists timeout. split; [lia|done].
  - by exists 0.
  - done.
  - exists 60. split; [lia|done].
  - done.
  - done.
Qed.

Lemma schedule_round_trip_witness :
  ∃ t d (sw : ScheduleStartWorkflowAction) b, sampleToThrift 3600 = inr t ∧
    describeScheduleResponseFromThrift (Some (stored t)) = Some d ∧
    d_Spec d = create_Spec (sampleRequest 3600) ∧
    d_Action d = Some (SdkScheduleActionDescription (Some b)) ∧ read_back sw b ∧
    scheduleActionDescriptionToThrift (d_Action d) = inr (CreateScheduleRequest_Action t).
Proof.
  destruct (sampleToThrift 3600) as [err|t] eqn:E; [exfalso; vm_compute in E; discriminate E|].
  destruct (schedule_round_trip bitConverter sampleJson id "domain" (sampleRequest 3600) None t)
    as (d & sw & b & H1 & H2 & _ & _ & _ & _ & _ & H3 & H4 & _ & _ & _ & H5 & _).
  - apply whole_sample. lia.
  - exact E.
  - exists t, d, sw, b. split_and!; assumption || reflexivity.
Defined.

(** An answer without failures. *)
Definition answer {R} (r : option R) : rpc R :=
  Rpc 0 None false (λ _, inr r) (λ _, 0) (λ _ _, 0) (λ _, false) (λ _, false).

Definition sampleResponse : SharedSchedule.DescribeScheduleResponse :=
  MkDescribeScheduleResponse (Some (MkScheduleSpec (Some "0 2 * * *") None None None)) None
    (Some (MkSchedulePolicies None None None None None None)) None None None
    (Some (MkSearchAttributes (Some {[ "team" := Some "1" ]}))).

(** A callback that writes into the specification it is given. *)
Definition setCron (cur : nat) : M heap (option scheduleErr) := λ h,
  match ref_Spec (update_at h cur) with
  | None => (Ret None, h)
  | Some p => (Ret None, <[p := ObjSpec (SdkScheduleSpec "0 3 * * *" zeroTime zeroTime 0)]> h)
  end.

Lemma setCron_confined : confined setCron.
Proof.
  intros p h q Hq Hr. unfold setCron, update_at.
  destruct (h !! p) as [[]|] eqn:E; try done.
  destruct (ref_Spec r) as [x|] eqn:Hx; [|done]. simpl. apply list_lookup_insert_ne.
  intros ->. apply Hr. eapply reachable_step; [exact E| |apply reachable_self].
  simpl. rewrite Hx. simpl. set_solver.
Qed.

Definition sampleDescribe : request :=
  DescribeSchedule_ (MkDescribeScheduleRequest (Some "domain") (Some "nightly")).

Abbreviation sampleUpdate desc :=
  (Update (λ x _, x) 1 sampleClient (λ _, answer desc) (λ _, answer None) "nightly").

(** The callback gets the described schedule, and its change is seen. *)
Lemma update_baseline_witness :
  ∃ h cur, view h (update_at h cur) =
      SdkScheduleUpdate (Some (SdkScheduleSpec "0 2 * * *" zeroTime zeroTime 0)) None
        (Some (SdkSchedulePolicies ScheduleOverlapPolicyUnspecified
           ScheduleCatchUpPolicyUnspecified 0 false 0 0)) (Some {[ "team" := Some "1" ]}) ∧
    let '(r, h') := setCron cur h in
    sampleUpdate (Some sampleResponse) (Some setCron) (Client [] []) =
    match r with
    | Panic p => (Panic p, Client h' [sampleDescribe])
    | Ret (Some err) => (Ret (Some err), Client h' [sampleDescribe])
    | Ret None =>
        match updateRequest sampleClient "nightly"
                (described <$> describeScheduleResponseFromThrift (Some sampleResponse))
                (view h' (update_at h' cur)) with
        | Panic p => (Panic p, Client h' [sampleDescribe])
        | Ret (inl err) => (Ret (Some err), Client h' [sampleDescribe])
        | Ret (inr None) => (Ret None, Client h' [sampleDescribe])
        | Ret (inr (Some req)) =>
            invoke_ (λ x _, x) 1 (UpdateSchedule_ req) (answer (R := unit) None)
              (Client h' [sampleDescribe])
        end
    end.
Proof.
  pose proof (update_baseline (λ x _, x) 1 sampleClient (λ _, answer (Some sampleResponse))
    (λ _, answer None) "nightly" setCron (Client [] [])) as H.
  assert (closed []) as Hc by (intros q o r Hq; simpl in Hq; lia).
  specialize (H ltac:(discriminate) Hc setCron_confined).
  exact H.
Defined.

(** One field is sent. *)
Example update_sample :
  sent (snd (sampleUpdate (Some sampleResponse) (Some setCron) (Client [] []))) =
  [sampleDescribe;
   UpdateSchedule_ (MkUpdateScheduleRequest (Some "domain") (Some "nightly")
     (Some (MkScheduleSpec (Some "0 3 * * *") None None None)) None None None)].
Proof. vm_compute. reflexivity. Qed.

(** A timeout of more than an int32 of seconds is accepted, and sent as a negative
    number of seconds. *)
Example long_timeout_wraps :
  ∃ t w, sampleToThrift (2 ^ 31) = inr t ∧
    CreateScheduleRequest_Action t ≫= ScheduleAction_StartWorkflow = Some w ∧
    ScheduleStartWorkflowAction_ExecutionStartToCloseTimeoutSeconds w = Some (- 2 ^ 31).
Proof. vm_compute. eexists _, _. split_and!; reflexivity. Qed.

(** [Update] dereferences a response that is nil, as soon as the callback sets a
    field of the update, which was made for that case. *)
Example nil_response_panics :
  let setSpec (cur : nat) : M heap (option scheduleErr) := λ h,
    (Ret None, <[cur := ObjUpdate (Refs (Some (length h)) None None None)]> h
               ++ [ObjSpec (SdkScheduleSpec "0 3 * * *" zeroTime zeroTime 0)]) in
  fst (sampleUpdate None (Some setSpec) (Client [] [])) = Panic NilDereference.
Proof. vm_compute. reflexivity. Qed.
