(* ===== verification/SharedActivity.v ===== *)
(** * Thrift data types of activities

    The structs with which activity tasks are polled and heartbeats are sent, in the
    generated package [.gen/go/shared] (shared.go), in the form of Shared.v. *)

From stdpp Require Import base gmap strings.
From S2P Require Import Prelude.
From S2P Require Import Shared.

Record PollForActivityTaskResponse := MkPollForActivityTaskResponse {
  PollForActivityTaskResponse_TaskToken : bytes;
  PollForActivityTaskResponse_WorkflowExecution : option WorkflowExecution;
  PollForActivityTaskResponse_ActivityId : option string;
  PollForActivityTaskResponse_ActivityType : option ActivityType;
  PollForActivityTaskResponse_Input : bytes;
  PollForActivityTaskResponse_ScheduledTimestamp : option Z;
  PollForActivityTaskResponse_ScheduleToCloseTimeoutSeconds : option Z;
  PollForActivityTaskResponse_StartedTimestamp : option Z;
  PollForActivityTaskResponse_StartToCloseTimeoutSeconds : option Z;
  PollForActivityTaskResponse_HeartbeatTimeoutSeconds : option Z;
  PollForActivityTaskResponse_Attempt : option Z;
  PollForActivityTaskResponse_ScheduledTimestampOfThisAttempt : option Z;
  PollForActivityTaskResponse_HeartbeatDetails : bytes;
  PollForActivityTaskResponse_WorkflowType : option WorkflowType;
  PollForActivityTaskResponse_WorkflowDomain : option string;
  PollForActivityTaskResponse_Header : option Header;
  PollForActivityTaskResponse_AutoConfigHint : option AutoConfigHint }.

Record RecordActivityTaskHeartbeatRequest := MkRecordActivityTaskHeartbeatRequest {
  RecordActivityTaskHeartbeatRequest_TaskToken : bytes;
  RecordActivityTaskHeartbeatRequest_Details : bytes;
  RecordActivityTaskHeartbeatRequest_Identity : option string }.

Record RecordActivityTaskHeartbeatResponse := MkRecordActivityTaskHeartbeatResponse {
  RecordActivityTaskHeartbeatResponse_CancelRequested : option bool }.
