(* ===== verification/Heartbeat.v ===== *)
(** * Heartbeats of activities

    internal/internal_task_handlers.go, lines 1438-1700: [cadenceInvoker] sends the
    heartbeats of an activity.  The first one is sent at once and opens a window, in
    which the details of later ones are kept; a goroutine waits for the end of the
    window, or for the worker to stop, and sends what was kept.  The methods and the
    goroutine hold the mutex of the invoker, so that each of them is one step. *)

From Stdlib Require Import ZArith SpecFloat.
From stdpp Require Import base list strings option.
From S2P Require Import Prelude.
From S2P Require Import Shared.
From S2P Require Import SharedActivity.
From S2P Require Import Errors.
From S2P Require Import Backoff.

Local Open Scope Z_scope.

(** ** The call of the service *)

(** [NewCanceledError()], or the error of the service. *)
Inductive heartbeatErr :=
| CanceledByServer
| HeartbeatFailed (err : serviceError).

Definition defaultHeartBeatIntervalInSec : Z := 10 * 60.

(** ** The invoker *)

(** [hbBatchEndTimer]: the duration of the timer, if there is one.  Besides the
    fields of the struct: whether [cancelHandler] was called; the goroutines in
    their [select] and past it; and what was sent, with the error. *)
Record cadenceInvoker := MkCadenceInvoker {
  ci_identity : string;
  ci_taskToken : bytes;
  heartBeatTimeoutInSec : Z;
  hbBatchEndTimer : option Z;
  detailsToReport : option bytes;
  lastDetailsReported : option bytes;
  ci_closed : bool;
  ci_canceled : bool;
  waiting : nat;
  woken : nat;
  beats : list (RecordActivityTaskHeartbeatRequest * option heartbeatErr) }.

Definition newServiceInvoker (taskToken : bytes) (identity : string) (heartBeatTimeoutInSec : Z)
    : cadenceInvoker :=
  MkCadenceInvoker identity taskToken heartBeatTimeoutInSec None None None false false 0 0 [].

Definition set_batch (timer : option Z) (report last : option bytes) (i : cadenceInvoker) :=
  MkCadenceInvoker (ci_identity i) (ci_taskToken i) (heartBeatTimeoutInSec i) timer report last
    (ci_closed i) (ci_canceled i) (waiting i) (woken i) (beats i).
Definition set_goroutines (wait woke : nat) (i : cadenceInvoker) :=
  MkCadenceInvoker (ci_identity i) (ci_taskToken i) (heartBeatTimeoutInSec i) (hbBatchEndTimer i)
    (detailsToReport i) (lastDetailsReported i) (ci_closed i) (ci_canceled i) wait woke (beats i).
Definition set_closed (closed : bool) (i : cadenceInvoker) :=
  MkCadenceInvoker (ci_identity i) (ci_taskToken i) (heartBeatTimeoutInSec i) (hbBatchEndTimer i)
    (detailsToReport i) (lastDetailsReported i) closed (ci_canceled i) (waiting i) (woken i) (beats i).
Definition add_beat b (cancel : bool) (i : cadenceInvoker) :=
  MkCadenceInvoker (ci_identity i) (ci_taskToken i) (heartBeatTimeoutInSec i) (hbBatchEndTimer i)
    (detailsToReport i) (lastDetailsReported i) (ci_closed i) (ci_canceled i || cancel)
    (waiting i) (woken i) (beats i ++ [b]).

(** The window: [time.Duration(0.8*float32(deadline)) * time.Second]. *)
Definition float32_of_int (z : Z) : spec_float := binary_normalize 24 128 z 0 false.
Definition batchWindow (seconds : Z) : Z :=
  Trunc (SFmul 24 128 (SFdiv 24 128 (float32_of_int 8) (float32_of_int 10)) (float32_of_int seconds))
  * Second.

(** The errors that cancel the activity. *)
Definition cancels (err : option heartbeatErr) : bool :=
  match err with
  | Some CanceledByServer => true
  | Some (HeartbeatFailed (EntityNotExistsError _ _ | WorkflowExecutionAlreadyCompletedError
                          | DomainNotActiveError)) => true
  | _ => false
  end.

Section invoker.
Context (Pow : float64 → float64 → float64) (fuel : nat).
(** What the service answers to a heartbeat. *)
Abbreviation call := (rpc RecordActivityTaskHeartbeatResponse).

Definition recordActivityHeartbeat (c : call) : outcome (option heartbeatErr) :=
  r ← callService Pow fuel c;
  match fst (r : (serviceError + option RecordActivityTaskHeartbeatResponse) * nat) with
  | inl err => mret (Some (HeartbeatFailed err))
  | inr (Some resp) =>
      mret (if default false (RecordActivityTaskHeartbeatResponse_CancelRequested resp)
            then Some CanceledByServer else None)
  | inr None => mret None
  end.

(** Whether the activity is canceled, and the error. *)
Definition internalHeartBeat (details : bytes) (c : call)
    : M cadenceInvoker (bool * option heartbeatErr) := λ i,
  match recordActivityHeartbeat c with
  | Panic p => (Panic p, i)
  | Ret err =>
      (Ret (cancels err, err),
       add_beat (MkRecordActivityTaskHeartbeatRequest (ci_taskToken i) details (Some (ci_identity i)),
                 err) (cancels err) i)
  end.

(** Starts a goroutine when the heartbeat was sent. *)
Definition heartbeatAndScheduleNextRun (details : bytes) (c : call)
    : M cadenceInvoker (option heartbeatErr) :=
  r ← internalHeartBeat details c;
  let '(isActivityCancelled, err) := r : bool * option heartbeatErr in
  (if bool_decide (err = None :> option heartbeatErr) || isActivityCancelled then
     modify (λ i,
       let deadline := if bool_decide (heartBeatTimeoutInSec i <= 0)
                       then defaultHeartBeatIntervalInSec else heartBeatTimeoutInSec i in
       set_goroutines (S (waiting i)) (woken i)
         (set_batch (Some (batchWindow deadline)) None (Some details) i))
   else mret tt);;
  mret err.

Definition Heartbeat (details : bytes) (c : call) : M cadenceInvoker (option heartbeatErr) :=
  r ← internalHeartBeat details c; mret (snd (r : bool * option heartbeatErr)).

Definition BackgroundHeartbeat (c : call) : M cadenceInvoker (option heartbeatErr) :=
  i ← get;
  match hbBatchEndTimer i with
  | Some _ =>
      modify (λ i, set_batch (hbBatchEndTimer i)
        (match detailsToReport i with None => lastDetailsReported i | d => d end)
        (lastDetailsReported i) i);;
      mret None
  | None =>
      heartbeatAndScheduleNextRun
        (match detailsToReport i with
         | Some d => d
         | None => default None (lastDetailsReported i)
         end) c
  end.

Definition BatchHeartbeat (details : bytes) (c : call) : M cadenceInvoker (option heartbeatErr) :=
  i ← get;
  match hbBatchEndTimer i with
  | Some _ =>
      modify (λ i, set_batch (hbBatchEndTimer i) (Some details) (lastDetailsReported i) i);;
      mret None
  | None => heartbeatAndScheduleNextRun details c
  end.

Definition Close (flushBufferedHeartbeat : bool) (c : call) : M cadenceInvoker unit :=
  i ← get;
  if ci_closed i then throw (StringPanic "close of closed channel") else
  modify (set_closed true);;
  match hbBatchEndTimer i, flushBufferedHeartbeat, detailsToReport i with
  | Some _, true, Some details =>
      internalHeartBeat details c;;
      modify (λ i, set_batch (hbBatchEndTimer i) None (detailsToReport i) i)
  | _, _, _ => mret tt
  end.

(** *** The goroutine *)

(** Its [select] ends with the timer, or with the stop of the worker. *)
Definition wake : M cadenceInvoker unit :=
  modify (λ i, set_goroutines (pred (waiting i)) (S (woken i)) i).
(** It sees that the invoker is closed. *)
Definition leave : M cadenceInvoker unit :=
  modify (λ i, set_goroutines (pred (waiting i)) (woken i) i).
(** The end of the window; the error is logged. *)
Definition report (c : call) : M cadenceInvoker unit :=
  modify (λ i, set_goroutines (waiting i) (pred (woken i)) i);;
  i ← get;
  match hbBatchEndTimer i with
  | None => throw NilDereference
  | Some _ =>
      modify (λ i, set_batch None (detailsToReport i) (lastDetailsReported i) i);;
      match detailsToReport i with
      | Some details => heartbeatAndScheduleNextRun details c;; mret tt
      | None => mret tt
      end
  end.

(** ** What happens while an activity runs *)

Inductive event :=
| Batched (details : bytes) (c : call)  (** of the activity *)
| Background (c : call)                 (** of the auto heartbeater *)
| Direct (details : bytes) (c : call)   (** of the session framework *)
| Woken
| Left
| Reported (c : call).

Definition enabled (e : event) (i : cadenceInvoker) : bool :=
  match e with
  | Woken => bool_decide (0 < waiting i)%nat
  | Left => bool_decide (0 < waiting i)%nat && ci_closed i
  | Reported _ => bool_decide (0 < woken i)%nat
  | _ => true
  end.

Definition happens (e : event) : M cadenceInvoker unit :=
  match e with
  | Batched details c => BatchHeartbeat details c;; mret tt
  | Background c => BackgroundHeartbeat c;; mret tt
  | Direct details c => Heartbeat details c;; mret tt
  | Woken => wake
  | Left => leave
  | Reported c => report c
  end.

(** The events in turn; one that cannot happen does nothing. *)
Fixpoint happen (l : list event) : M cadenceInvoker unit :=
  match l with
  | [] => mret tt
  | e :: l =>
      i ← get;
      (if enabled e i then happens e else mret tt);;
      happen l
  end.

End invoker.
