(* ===== verification/ActivityTask.v ===== *)
(** * Activity tasks

    internal/activity_task_handler.go: [activityTaskHandlerImpl] runs an activity and
    converts its result; internal/activity.go: the environment of an activity and
    [RecordActivityHeartbeat]; internal/auto_heartbeater.go.  The code of the
    activity, the context propagators and the clock are parameters; what the
    activity does to its invoker is a list of the events of Heartbeat.v. *)

From Stdlib Require Import ZArith.
From stdpp Require Import base list strings option.
From S2P Require Import Prelude.
From S2P Require Import Shared.
From S2P Require Import SharedActivity.
From S2P Require Import Errors.
From S2P Require Import Backoff.
From S2P Require Import Heartbeat.

Local Open Scope Z_scope.

(** ** The environment of an activity *)

Record activityEnvironment := MkActivityEnvironment {
  ae_taskToken : bytes;
  ae_workflowID : string;
  ae_runID : string;
  ae_activityID : string;
  ae_activityType : string;
  ae_isLocalActivity : bool;
  ae_heartbeatTimeout : Z;
  ae_deadline : Z;
  ae_scheduledTimestamp : Z;
  ae_startedTimestamp : Z;
  ae_taskList : string;
  ae_attempt : Z;
  ae_heartbeatDetails : bytes;
  ae_workflowType : string;
  ae_workflowDomain : string }.

Abbreviation activityTask := PollForActivityTaskResponse.

(** The earlier of the two deadlines, in nanoseconds of the Unix epoch. *)
Definition activityDeadline (task : activityTask) : Z :=
  let scheduled := default 0 (PollForActivityTaskResponse_ScheduledTimestampOfThisAttempt task) in
  let started := default 0 (PollForActivityTaskResponse_StartedTimestamp task) in
  let scheduleToClose :=
    default 0 (PollForActivityTaskResponse_ScheduleToCloseTimeoutSeconds task) * Second in
  let startToClose :=
    default 0 (PollForActivityTaskResponse_StartToCloseTimeoutSeconds task) * Second in
  if bool_decide (scheduled + scheduleToClose < started + startToClose)
  then scheduled + scheduleToClose else started + startToClose.

(** The fields that it dereferences must be there. *)
Definition WithActivityTask (task : activityTask) (taskList : string)
    : outcome activityEnvironment :=
  activityID ← deref (PollForActivityTaskResponse_ActivityId task);
  activityType ← deref (PollForActivityTaskResponse_ActivityType task);
  activityName ← deref (ActivityType_Name activityType);
  workflowType ← deref (PollForActivityTaskResponse_WorkflowType task);
  workflowName ← deref (WorkflowType_Name workflowType);
  execution ← deref (PollForActivityTaskResponse_WorkflowExecution task);
  workflowID ← deref (WorkflowExecution_WorkflowId execution);
  runID ← deref (WorkflowExecution_RunId execution);
  domain ← deref (PollForActivityTaskResponse_WorkflowDomain task);
  mret (MkActivityEnvironment (PollForActivityTaskResponse_TaskToken task) workflowID runID
          activityID activityName false
          (default 0 (PollForActivityTaskResponse_HeartbeatTimeoutSeconds task) * Second)
          (activityDeadline task)
          (default 0 (PollForActivityTaskResponse_ScheduledTimestampOfThisAttempt task))
          (default 0 (PollForActivityTaskResponse_StartedTimestamp task)) taskList
          (default 0 (PollForActivityTaskResponse_Attempt task))
          (PollForActivityTaskResponse_HeartbeatDetails task) workflowName domain).

(** ** The answer *)

(** A request for the service, or an error that is not reported: of a propagator,
    or that the deadline is over. *)
Inductive executeResult :=
| Responded (r : activityResponse)
| PropagationFailed (err : string)
| DeadlineExceeded.

Definition activityOutcome (r : executeResult) : string :=
  match r with
  | DeadlineExceeded => "timeout"
  | PropagationFailed _ => "failed_to_report"
  | Responded RespondNothing => "pending"
  | Responded (RespondActivityTaskCompletedRequest _ _ _) => "succeeded"
  | Responded (RespondActivityTaskCanceledRequest _ _ _) => "canceled"
  | Responded (RespondActivityTaskFailedRequest _ _ _ _ _) => "failed"
  end.

Definition activityCompleted (r : outcome executeResult) : bool :=
  match r with
  | Ret (Responded (RespondActivityTaskCompletedRequest _ _ _)) => true
  | _ => false
  end.

(** How the code of an activity ends. *)
Inductive activityEnd :=
| Returned (output : bytes) (err : option goError)
| Panicked (value stack : string).

Section handler.
Context (Pow : float64 → float64 → float64) (fuel : nat) {dc : DataConverter}.
Abbreviation call := (rpc RecordActivityTaskHeartbeatResponse).

(** Nil as the only detail is no data; an error of the heartbeat is only logged. *)
Definition RecordActivityHeartbeat (env : activityEnvironment) (details : list goValue) (c : call)
    : M cadenceInvoker unit :=
  if ae_isLocalActivity env then mret tt else
  match (if bool_decide (details = [GNil]) then inr None else ToData details) with
  | inl err => throw (ErrorPanic err)
  | inr data => BatchHeartbeat Pow fuel data c;; mret tt
  end.

(** What ends a wait of the auto heartbeater. *)
Inductive tick :=
| Stopped
| ContextDone
| Ticked (c : call).

Fixpoint autoHeartbeater_Run (ticks : list tick) : M cadenceInvoker unit :=
  match ticks with
  | [] => mret tt
  | Stopped :: _ | ContextDone :: _ => mret tt
  | Ticked c :: ticks => BackgroundHeartbeat Pow fuel c;; autoHeartbeater_Run ticks
  end.

(** ** The handler *)

(** What the handler is configured with and what it meets. *)
Record world := World {
  wo_identity : string;
  (** the registered activities, with what happens to the invoker while one runs *)
  getActivity : string → option (activityEnvironment → bytes → list event * activityEnd);
  getRegisteredActivityNames : list string;
  (** the context propagators: an error, or nothing *)
  propagators : list (outcome (option string));
  (** whether the deadline is over when the activity returns *)
  deadlineOver : activityEnvironment → bool;
  (** the stack trace of a panic of the handler *)
  stackTrace : string;
  (** the call of the heartbeat that is flushed *)
  flushCall : call }.

Fixpoint propagate (l : list (outcome (option string))) : outcome (option string) :=
  match l with
  | [] => Ret None
  | p :: l => err ← p; match (err : option string) with Some err => Ret (Some err) | None => propagate l end
  end.

Definition convert (w : world) (task : activityTask) (output : bytes) (err : option goError)
    : outcome executeResult :=
  r ← convertActivityResultToRespondRequest (wo_identity w)
        (PollForActivityTaskResponse_TaskToken task) output err;
  mret (Responded r).

(** The deferred function that recovers a panic of the activity, or of the code
    around it. *)
Definition recovering (w : world) (task : activityTask) (r : outcome executeResult)
    : outcome executeResult :=
  match r with
  | Ret r => Ret r
  | Panic p => convert w task None (Some (newPanicError (panic_text p) (stackTrace w)))
  end.

(** From the panic handler on.  A panic of the goroutine of the invoker would not
    be recovered. *)
Definition runActivity (w : world) (task : activityTask) (env : activityEnvironment)
    (implementation : activityEnvironment → bytes → list event * activityEnd)
    : M cadenceInvoker executeResult := λ i,
  match propagate (propagators w) with
  | Panic p => (recovering w task (Panic p), i)
  | Ret (Some err) => (Ret (PropagationFailed ("unable to propagate context " +:+ err)), i)
  | Ret None =>
      let '(events, result) := implementation env (PollForActivityTaskResponse_Input task) in
      match happen Pow fuel events i with
      | (Panic p, i) => (Panic p, i)
      | (Ret _, i) =>
          (match result with
           | Panicked value stack => convert w task None (Some (newPanicError value stack))
           | Returned output err =>
               recovering w task
                 (if deadlineOver w env then Ret DeadlineExceeded else convert w task output err)
           end, i)
      end
  end.

(** Up to the deferred [Close]. *)
Definition executeTask (w : world) (taskList : string) (task : activityTask)
    : M cadenceInvoker executeResult := λ i,
  match WithActivityTask task taskList with
  | Panic p => (Panic p, i)
  | Ret env =>
      let name := get_string ActivityType_Name (PollForActivityTaskResponse_ActivityType task) in
      match getActivity w name with
      | None =>
          (convert w task None (Some (ErrText ("unable to find activityType=" +:+ name
             +:+ ". Supported types: [" +:+ String.concat ", " (getRegisteredActivityNames w)
             +:+ "]"))), i)
      | Some implementation => runActivity w task env implementation i
      end
  end.

(** The invoker is closed whatever happens; what is buffered is flushed unless the
    activity completed. *)
Definition Execute (w : world) (taskList : string) (task : activityTask)
    : outcome executeResult * cadenceInvoker :=
  let invoker := newServiceInvoker (PollForActivityTaskResponse_TaskToken task) (wo_identity w)
                   (default 0 (PollForActivityTaskResponse_HeartbeatTimeoutSeconds task)) in
  let '(r, i) := executeTask w taskList task invoker in
  match Close Pow fuel (negb (activityCompleted r)) (flushCall w) i with
  | (Ret _, i) => (r, i)
  | (Panic p, i) => (Panic p, i)
  end.

End handler.
