(* ===== verification/HeartbeatProps.v ===== *)
(** * Heartbeats and activity tasks: theorems

    The invariant of the invoker and its goroutine, how many heartbeats are sent,
    and what becomes of an activity task and of its last progress. *)

From Stdlib Require Import ZArith Lia.
From stdpp Require Import base sets list strings option.
From S2P Require Import Prelude.
From S2P Require Import Shared.
From S2P Require Import SharedActivity.
From S2P Require Import Errors.
From S2P Require Import Backoff.
From S2P Require Import Heartbeat.
From S2P Require Import ActivityTask.

Section heartbeats.
Context (Pow : float64 → float64 → float64) (fuel : nat).
Abbreviation call := (rpc RecordActivityTaskHeartbeatResponse).
Implicit Types (c : call) (i : cadenceInvoker) (e : event) (d : bytes).

(** The retries of the call end; the service took the heartbeat, or asked to cancel
    the activity. *)
Definition answered c : Prop := ∃ err, recordActivityHeartbeat Pow fuel c = Ret err.
Definition accepted c : Prop := ∃ err,
  recordActivityHeartbeat Pow fuel c = Ret err ∧ (err = None ∨ cancels err = true).

Definition call_of e : option call :=
  match e with
  | Batched _ c | Background c | Direct _ c | Reported c => Some c
  | Woken | Left => None
  end.
Definition all_answered (l : list event) : Prop := ∀ e c, e ∈ l → call_of e = Some c → answered c.
(** Heartbeats of the activity and of the auto heartbeater that are all accepted. *)
Definition batching e : Prop :=
  (∀ c, call_of e = Some c → accepted c) ∧ (∀ d c, e ≠ Direct d c).

(** ** The goroutine *)

(** There is a goroutine for a timer, unless the invoker was closed. *)
Record inv i : Prop := {
  inv_one : (waiting i + woken i <= 1)%nat;
  inv_timer : hbBatchEndTimer i = None → (waiting i + woken i = 0)%nat;
  inv_running : ci_closed i = false → is_Some (hbBatchEndTimer i) → (waiting i + woken i = 1)%nat }.

Lemma inv_new token identity timeout : inv (newServiceInvoker token identity timeout).
Proof. split; simpl; [lia|lia|by intros _ []]. Qed.

(** What sending does. *)
Lemma schedule_run details c i err :
  recordActivityHeartbeat Pow fuel c = Ret err →
  heartbeatAndScheduleNextRun Pow fuel details c i =
  (Ret err,
   let i := add_beat (MkRecordActivityTaskHeartbeatRequest (ci_taskToken i) details
                        (Some (ci_identity i)), err) (cancels err) i in
   if bool_decide (err = None) || cancels err then
     set_goroutines (S (waiting i)) (woken i)
       (set_batch (Some (batchWindow (if bool_decide (heartBeatTimeoutInSec i <= 0)%Z
                                      then defaultHeartBeatIntervalInSec
                                      else heartBeatTimeoutInSec i))) None (Some details) i)
   else i).
Proof.
  intros Hr. unfold heartbeatAndScheduleNextRun, internalHeartBeat. run. rewrite Hr.
  by destruct (bool_decide (err = None) || cancels err).
Qed.

Lemma inv_schedule details c i :
  answered c → inv i → hbBatchEndTimer i = None →
  ∃ err i', heartbeatAndScheduleNextRun Pow fuel details c i = (Ret err, i') ∧ inv i'.
Proof.
  intros [err Hr] Hi Ht. rewrite (schedule_run _ _ _ _ Hr).
  eexists _, _. split; [reflexivity|]. pose proof (inv_timer i Hi Ht) as H0.
  destruct (bool_decide (err = None) || cancels err); split; simpl; try lia.
  - done.
  - rewrite Ht. by intros _ [].
Qed.

Lemma inv_happens e i :
  (∀ c, call_of e = Some c → answered c) → inv i → enabled e i = true →
  ∃ i', happens Pow fuel e i = (Ret tt, i') ∧ inv i'.
Proof.
  intros Hc Hi He. destruct e as [d c|c|d c| | |c]; simpl in He.
  - unfold happens, BatchHeartbeat. run. destruct (hbBatchEndTimer i) as [t|] eqn:Ht.
    + eexists. split; [reflexivity|]. destruct Hi as [H1 H2 H3]. rewrite Ht in *. by split.
    + destruct (inv_schedule d c i (Hc c eq_refl) Hi Ht) as (err & i' & E & Hi').
      exists i'. by rewrite E.
  - unfold happens, BackgroundHeartbeat. run. destruct (hbBatchEndTimer i) as [t|] eqn:Ht.
    + eexists. split; [reflexivity|]. destruct Hi as [H1 H2 H3]. rewrite Ht in *. by split.
    + destruct (inv_schedule (match detailsToReport i with
        | Some d => d | None => default None (lastDetailsReported i) end) c i (Hc c eq_refl) Hi Ht)
        as (err & i' & E & Hi').
      exists i'. by rewrite E.
  - unfold happens, Heartbeat, internalHeartBeat. run. destruct (Hc c eq_refl) as [err ->].
    eexists. split; [reflexivity|]. by destruct Hi; split.
  - apply bool_decide_eq_true in He. eexists. split; [reflexivity|].
    destruct Hi as [H1 H2 H3]. split; simpl; [lia|intros Ht; specialize (H2 Ht); lia|].
    intros Hx Ht. specialize (H3 Hx Ht). lia.
  - apply andb_true_iff in He as [He Hcl]. apply bool_decide_eq_true in He.
    eexists. split; [reflexivity|]. destruct Hi as [H1 H2 H3].
    split; simpl; [lia|intros Ht; specialize (H2 Ht); lia|congruence].
  - apply bool_decide_eq_true in He. unfold happens, report. run. simpl.
    destruct (hbBatchEndTimer i) as [t|] eqn:Ht; [|by pose proof (inv_timer i Hi Ht); lia].
    destruct (detailsToReport i) as [d|] eqn:Hd.
    + match goal with |- context [heartbeatAndScheduleNextRun _ _ _ _ ?x] => set (j := x) end.
      assert (Hj : inv j) by (destruct Hi; split; simpl; [lia|lia|by intros _ []]).
      destruct (inv_schedule d c j (Hc c eq_refl) Hj eq_refl) as (err & i' & -> & Hi'). by exists i'.
    + eexists. split; [reflexivity|]. destruct Hi; split; simpl; [lia|lia|by intros _ []].
Qed.

(** No event panics: in particular the goroutine finds its timer. *)
Lemma inv_happen l i :
  all_answered l → inv i → ∃ i', happen Pow fuel l i = (Ret tt, i') ∧ inv i'.
Proof.
  revert i. induction l as [|e l IH]; intros i Ha Hi; [by exists i|]. cbn [happen]. run.
  assert (Ha' : all_answered l) by (intros e' c He; apply Ha; set_solver).
  destruct (enabled e i) eqn:He; [|by apply IH].
  destruct (inv_happens e i) as (i1 & -> & Hi1); [|done|done|by apply IH].
  intros c. apply Ha. set_solver.
Qed.

(** ** Progress *)

(** The details that the activity recorded last. *)
Definition batched e : option bytes := match e with Batched d _ => Some d | _ => None end.
Definition recorded (l : list event) : option bytes := list.last (omap batched l).
Definition reports (l : list event) : nat :=
  length (omap (λ e, match e with Reported _ => Some tt | _ => None end) l).

(** The last heartbeat that was sent has the details [d]. *)
Definition reported d i : Prop := ∃ req err, list.last (beats i) = Some (req, err) ∧
  RecordActivityTaskHeartbeatRequest_Details req = d ∧
  RecordActivityTaskHeartbeatRequest_TaskToken req = ci_taskToken i.

(** While everything is accepted: details are kept only in a window; what was
    recorded last is kept, or was sent last; and a heartbeat is sent only at the
    beginning or at the end of a window. *)
Record progress (r : option bytes) (n : nat) i : Prop := {
  pr_inv : inv i;
  pr_open : ci_closed i = false;
  pr_kept : is_Some (detailsToReport i) → is_Some (hbBatchEndTimer i);
  pr_last d : lastDetailsReported i = Some d → reported d i;
  pr_recorded d : r = Some d →
    detailsToReport i = Some d ∨ (detailsToReport i = None ∧ lastDetailsReported i = Some d);
  pr_count : (length (beats i) <= n + if decide (hbBatchEndTimer i = None) then 0 else 1)%nat }.

Lemma progress_new token identity timeout :
  progress None 0 (newServiceInvoker token identity timeout).
Proof. split; try done; [apply inv_new|by intros []]. Qed.

(** A heartbeat that is accepted outside a window. *)
Lemma progress_schedule r n d c i :
  accepted c → inv i → ci_closed i = false → hbBatchEndTimer i = None →
  (length (beats i) <= n)%nat → (∀ d', r = Some d' → d' = d) →
  ∃ err i', heartbeatAndScheduleNextRun Pow fuel d c i = (Ret err, i') ∧ progress r n i'.
Proof.
  intros (err & Hr & Ha) Hi Hcl Ht Hn Hd. rewrite (schedule_run _ _ _ _ Hr).
  eexists _, _. split; [reflexivity|].
  replace (bool_decide (err = None) || cancels err) with true.
  2:{ destruct Ha as [->| ->]; [done|by rewrite orb_true_r]. }
  pose proof (inv_timer i Hi Ht) as H0. cbv zeta. split; simpl.
  - split; simpl; [lia|done|lia].
  - done.
  - by intros [].
  - intros d' [= ->]. unfold reported. simpl. rewrite last_snoc. by eexists _, _.
  - intros d' Hr'. right. by rewrite (Hd d' Hr').
  - rewrite length_app. simpl. lia.
Qed.

Lemma progress_happens r n e i :
  batching e → progress r n i → enabled e i = true →
  ∃ i', happens Pow fuel e i = (Ret tt, i') ∧
    progress (match batched e with Some d => Some d | None => r end)
      (n + match e with Reported _ => 1 | _ => 0 end) i'.
Proof.
  intros [Hc Hd] [Hi Hcl Hk Hl Hr Hn] He. destruct e as [d c|c|d c| | |c]; simpl in He.
  - unfold happens, BatchHeartbeat. run. cbn [batched].
    destruct (hbBatchEndTimer i) as [t|] eqn:Ht.
    + eexists. split; [reflexivity|]. split; simpl; try done.
      * destruct Hi as [H1 H2 H3]. rewrite Ht in *. by split.
      * intros d' [= ->]. by left.
      * repeat case_decide; first [lia|congruence].
    + rewrite decide_True in Hn by done.
      destruct (progress_schedule (Some d) n d c i (Hc c eq_refl) Hi Hcl Ht) as (err & i' & -> & Hp);
        [lia|congruence|]. exists i'. by rewrite Nat.add_0_r.
  - unfold happens, BackgroundHeartbeat. run. cbn [batched].
    destruct (hbBatchEndTimer i) as [t|] eqn:Ht.
    + eexists. split; [reflexivity|]. split; simpl; try done.
      * destruct Hi as [H1 H2 H3]. rewrite Ht in *. by split.
      * intros d' Hd'. destruct (Hr d' Hd') as [->|[-> ->]]; by left.
      * repeat case_decide; first [lia|congruence].
    + rewrite decide_True in Hn by done.
      destruct (detailsToReport i) as [x|] eqn:Hx; [by destruct Hk; eauto|].
      destruct (progress_schedule r n (default None (lastDetailsReported i)) c i (Hc c eq_refl) Hi Hcl Ht)
        as (err & i' & -> & Hp); [lia| |exists i'; by rewrite Nat.add_0_r].
      intros d' Hd'. destruct (Hr d' Hd') as [?|[_ ->]]; done.
  - by destruct (Hd d c).
  - apply bool_decide_eq_true in He. eexists. split; [reflexivity|].
    destruct Hi as [H1 H2 H3]. split; simpl; try done; [|lia].
    split; simpl; [lia|intros Ht; specialize (H2 Ht); lia|intros Hx Ht; specialize (H3 Hx Ht); lia].
  - by rewrite Hcl, andb_false_r in He.
  - apply bool_decide_eq_true in He. unfold happens, report. run. simpl.
    destruct (hbBatchEndTimer i) as [t|] eqn:Ht; [|by pose proof (inv_timer i Hi Ht); lia].
    rewrite decide_False in Hn by done.
    destruct (detailsToReport i) as [d|] eqn:Hx.
    + match goal with |- context [heartbeatAndScheduleNextRun _ _ _ _ ?x] => set (j := x) end.
      destruct (progress_schedule r (n + 1) d c j) as (err & i' & -> & Hp).
      * by apply Hc.
      * destruct Hi; split; simpl; [lia|lia|by intros _ []].
      * done.
      * done.
      * simpl. lia.
      * intros d' Hd'. destruct (Hr d' Hd') as [[= ->]|[? _]]; done.
      * by exists i'.
    + eexists. split; [reflexivity|]. split; simpl; rewrite ?Hx; try done; [|lia].
      destruct Hi; split; simpl; [lia|lia|by intros _ []].
Qed.

Lemma recorded_cons e l r :
  match recorded (e :: l) with Some d => Some d | None => r end =
  match recorded l with
  | Some d => Some d
  | None => match batched e with Some d => Some d | None => r end
  end.
Proof.
  unfold recorded. simpl. destruct (batched e) as [d|]; [|done].
  rewrite last_cons. by destruct (list.last _).
Qed.

Lemma reports_cons e l :
  reports (e :: l) = ((match e with Reported _ => 1 | _ => 0 end) + reports l)%nat.
Proof. by destruct e. Qed.

Lemma progress_happen r n l i :
  Forall batching l → progress r n i →
  ∃ i', happen Pow fuel l i = (Ret tt, i') ∧
    progress (match recorded l with Some d => Some d | None => r end) (n + reports l) i'.
Proof.
  revert r n i. induction l as [|e l IH]; intros r n i Hb Hp.
  { exists i. unfold reports. simpl. by rewrite Nat.add_0_r. }
  apply list.Forall_cons in Hb as [He Hb]. rewrite recorded_cons, reports_cons, Nat.add_assoc. cbn [happen]. run.
  destruct (enabled e i) eqn:Hen.
  - destruct (progress_happens r n e i He Hp Hen) as (i1 & -> & Hp1).
    destruct (IH _ _ _ Hb Hp1) as (i2 & -> & Hp2). by exists i2.
  - destruct (IH r (n + match e with Reported _ => 1 | _ => 0 end)%nat i Hb) as (i2 & -> & Hp2).
    + destruct Hp. split; try done. lia.
    + exists i2. split; [done|].
      by replace (batched e) with (@None bytes) by (by destruct e).
Qed.

(** C37: Heartbeats are batched: as long as the service accepts every heartbeat and
    the session framework sends none of its own ([batching]), at most one heartbeat
    more is sent than windows end, however often the activity and the auto
    heartbeater record progress; the goroutine that waits for the end of a window is
    alone, and always finds its timer. *)
Theorem heartbeats_bounded token identity timeout l :
  Forall batching l →
  ∃ i, happen Pow fuel l (newServiceInvoker token identity timeout) = (Ret tt, i) ∧
    (length (beats i) <= 1 + reports l)%nat ∧ (waiting i + woken i <= 1)%nat ∧
    (is_Some (hbBatchEndTimer i) ↔ (waiting i + woken i = 1)%nat).
Proof.
  intros Hb. destruct (progress_happen None 0 l _ Hb (progress_new token identity timeout))
    as (i & E & [Hi Hcl Hk Hl Hr Hn]).
  exists i. split_and!; [done| |apply Hi|split].
  - destruct (decide (hbBatchEndTimer i = None)); lia.
  - by apply inv_running.
  - intros H1. destruct (hbBatchEndTimer i) eqn:Ht; [by eexists|]. pose proof (inv_timer i Hi Ht). lia.
Qed.

(** ** Closing *)

Lemma schedule_closed d c i :
  ci_closed (snd (heartbeatAndScheduleNextRun Pow fuel d c i)) = ci_closed i.
Proof.
  unfold heartbeatAndScheduleNextRun, internalHeartBeat. run.
  destruct (recordActivityHeartbeat Pow fuel c) as [err|]; [|done].
  by destruct (bool_decide (err = None) || cancels err).
Qed.

Lemma happens_closed e i : ci_closed (snd (happens Pow fuel e i)) = ci_closed i.
Proof.
  destruct e as [d c|c|d c| | |c];
    unfold happens, BatchHeartbeat, BackgroundHeartbeat, Heartbeat, internalHeartBeat, wake, leave,
      report; run; simpl; try done.
  - destruct (hbBatchEndTimer i); [done|]. pose proof (schedule_closed d c i) as H.
    by destruct (heartbeatAndScheduleNextRun _ _ _ _ i) as [[] ?].
  - destruct (hbBatchEndTimer i); [done|].
    match goal with |- context [heartbeatAndScheduleNextRun _ _ ?d ?c ?i] =>
      pose proof (schedule_closed d c i) as H end.
    by destruct (heartbeatAndScheduleNextRun _ _ _ _ i) as [[] ?].
  - by destruct (recordActivityHeartbeat Pow fuel c).
  - destruct (hbBatchEndTimer i); [|done]. destruct (detailsToReport i) as [d|]; [|done].
    match goal with |- context [heartbeatAndScheduleNextRun _ _ ?d ?c ?j] =>
      pose proof (schedule_closed d c j) as H end.
    by destruct (heartbeatAndScheduleNextRun _ _ _ _ _) as [[] ?].
Qed.

Lemma happen_closed l i : ci_closed (snd (happen Pow fuel l i)) = ci_closed i.
Proof.
  revert i. induction l as [|e l IH]; intros i; [done|]. cbn [happen]. run.
  destruct (enabled e i); [|apply IH].
  pose proof (happens_closed e i) as He. destruct (happens Pow fuel e i) as [[] i1]; [|done].
  rewrite <- He. apply IH.
Qed.

Lemma Close_closes flush c i :
  answered c → ci_closed i = false →
  ∃ i', Close Pow fuel flush c i = (Ret tt, i') ∧ ci_closed i' = true.
Proof.
  intros [err Hr] Hcl. unfold Close, internalHeartBeat. run. rewrite Hcl.
  destruct (hbBatchEndTimer i), flush, (detailsToReport i); simpl; rewrite ?Hr; by eexists.
Qed.

Lemma Close_reports r n d c i :
  progress r n i → answered c → r = Some d →
  ∃ i', Close Pow fuel true c i = (Ret tt, i') ∧ reported d i'.
Proof.
  intros [Hi Hcl Hk Hl Hr Hn] [err Hc] Hd. unfold Close, internalHeartBeat. run. rewrite Hcl.
  destruct (Hr d Hd) as [Hx|[Hx Hy]]; rewrite Hx in *.
  - destruct (Hk ltac:(by eexists)) as [t Ht]. rewrite Ht. simpl. rewrite Hc.
    eexists. split; [reflexivity|]. unfold reported. simpl. rewrite last_snoc. by eexists _, _.
  - destruct (hbBatchEndTimer i); (eexists; split; [reflexivity|exact (Hl d Hy)]).
Qed.

End heartbeats.

(** ** Activity tasks *)

Section tasks.
Context (Pow : float64 → float64 → float64) (fuel : nat) {dc : DataConverter}.

(** The answers, for the task and with the identity of the worker. *)
Definition failure (w : world) (task : activityTask) (reason : string) (details : bytes)
    (options : option FailureOptions) : executeResult :=
  Responded (RespondActivityTaskFailedRequest (PollForActivityTaskResponse_TaskToken task)
    reason details (wo_identity w) options).
Definition cancellation (w : world) (task : activityTask) (details : bytes) : executeResult :=
  Responded (RespondActivityTaskCanceledRequest (PollForActivityTaskResponse_TaskToken task)
    details (wo_identity w)).

(** A panic is a failure with its value and the stack. *)
Definition panicked (w : world) (task : activityTask) (value stack : string)
    (r : executeResult) : Prop :=
  ∃ data, ToData [GString value; GString stack] = inr data ∧
    r = failure w task errReasonPanic data None.

(** The answer carries the details of an error; details that cannot be encoded are
    a panic of the handler. *)
Definition carrying (w : world) (task : activityTask) (v : Values)
    (answer : bytes → executeResult) (r : executeResult) : Prop :=
  match match v with ErrorDetailsValues l => ToData l | EncodedValues b => inr b end with
  | inr data => r = answer data
  | inl err => panicked w task err (stackTrace w) r
  end.

(** What an error is answered with. *)
Definition answer_to (w : world) (task : activityTask) (err : goError) (r : executeResult) : Prop :=
  let generic text := failure w task errReasonGeneric (string_to_bytes text) None in
  match err with
  | ErrActivityResultPending => r = Responded RespondNothing
  | ErrContextCanceled => r = cancellation w task (string_to_bytes "context canceled")
  | ErrCanceled (Some v) => carrying w task v (cancellation w task) r
  | ErrCanceled None =>
      r = cancellation w task (string_to_bytes (badNilErrMsg "*internal.CanceledError"))
  | ErrCustom (Some e) =>
      carrying w task (details e) (λ data, failure w task (reason e) data
        (Some (MkFailureOptions (Some (default FailureCategoryStandard (failureCategory e)))
                 (durationToThriftSeconds (nextRetryDelay e))))) r
  | ErrCustom None => panicked w task (panic_text NilDereference) (stackTrace w) r
  | ErrTimeout (Some (t, v)) =>
      carrying w task v (λ data,
        failure w task (errReasonTimeout +:+ " " +:+ TimeoutType_String t) data None) r
  | ErrTimeout None => r = generic (badNilErrMsg "*internal.TimeoutError")
  | ErrPanic (Some (value, stack)) => panicked w task value stack r
  | ErrPanic None => r = generic (badNilErrMsg "*internal.PanicError")
  | _ => ∃ text, Error err = Ret text ∧ r = generic text
  end.

(** What an activity that ended is answered with. *)
Definition answer_of (w : world) (task : activityTask) (over : bool) (e : activityEnd)
    (r : executeResult) : Prop :=
  match e with
  | Panicked value stack => panicked w task value stack r
  | Returned output err =>
      if over then r = DeadlineExceeded else
      match err with
      | None => r = Responded (RespondActivityTaskCompletedRequest
                  (PollForActivityTaskResponse_TaskToken task) output (wo_identity w))
      | Some err => answer_to w task err r
      end
  end.

Definition unknown_activity (w : world) (task : activityTask) (name : string) : executeResult :=
  failure w task errReasonGeneric
    (string_to_bytes ("unable to find activityType=" +:+ name +:+ ". Supported types: ["
       +:+ String.concat ", " (getRegisteredActivityNames w) +:+ "]")) None.

Hypothesis strings_encoded : ∀ a b, ∃ data, ToData [GString a; GString b] = inr data.

Lemma panic_answered w task value stack :
  ∃ r, convert w task None (Some (newPanicError value stack)) = Ret r ∧
    panicked w task value stack r.
Proof.
  destruct (strings_encoded value stack) as [data Hd].
  unfold convert, convertActivityResultToRespondRequest, newPanicError. simpl. rewrite Hd.
  eexists. split; [reflexivity|]. by exists data.
Qed.

Lemma recovered w task p :
  ∃ r, recovering w task (Panic p) = Ret r ∧ panicked w task (panic_text p) (stackTrace w) r.
Proof. apply panic_answered. Qed.

(** The encoding of details, and what follows it. *)
Lemma carrying_run w task v (m : outcome executeResult) answer :
  m = (data ← encodeDetails v; Ret (answer data)) →
  ∃ r, recovering w task m = Ret r ∧ carrying w task v answer r.
Proof.
  intros ->. unfold carrying, encodeDetails. destruct v as [l|b]; [|by eexists].
  destruct (ToData l) as [err|data]; [exact (recovered w task (ErrorPanic err))|by eexists].
Qed.

(** An error that was returned in time. *)
Lemma error_answered w task output err :
  ∃ r, recovering w task (convert w task output (Some err)) = Ret r ∧ answer_to w task err r.
Proof.
  unfold convert, convertActivityResultToRespondRequest.
  destruct err as [[e|]| |[[t v]|]|[v|]|[[value stack]|]| | | | | | | |]; cbn [getErrorDetails];
    try (eexists; split; [reflexivity|]; simpl; by eauto).
  - apply carrying_run. by destruct (encodeDetails _).
  - exact (recovered w task NilDereference).
  - apply carrying_run. by destruct (encodeDetails _).
  - apply carrying_run. by destruct (encodeDetails _).
  - destruct (panic_answered w task value stack) as (r & E & Hp). exists r.
    split; [|exact Hp]. revert E. unfold convert, convertActivityResultToRespondRequest. simpl.
    by destruct (ToData _).
Qed.

Lemma returned_answered w task output err :
  ∃ r, recovering w task (convert w task output err) = Ret r ∧
    answer_of w task false (Returned output err) r.
Proof. destruct err as [err|]; [apply error_answered|by eexists]. Qed.

(** Up to the deferred [Close]: the answer, and the invoker as the events left it. *)
Lemma executeTask_run w taskList task env i :
  WithActivityTask task taskList = Ret env → inv i →
  let name := get_string ActivityType_Name (PollForActivityTaskResponse_ActivityType task) in
  let input := PollForActivityTaskResponse_Input task in
  (∀ impl, getActivity w name = Some impl → all_answered Pow fuel (fst (impl env input))) →
  ∃ r i', executeTask Pow fuel w taskList task i = (Ret r, i') ∧ ci_closed i' = ci_closed i ∧
    match getActivity w name with
    | None => r = unknown_activity w task name
    | Some impl =>
        match propagate (propagators w) with
        | Panic p => panicked w task (panic_text p) (stackTrace w) r
        | Ret (Some err) => r = PropagationFailed ("unable to propagate context " +:+ err)
        | Ret None =>
            answer_of w task (deadlineOver w env) (snd (impl env input)) r ∧
            i' = snd (happen Pow fuel (fst (impl env input)) i)
        end
    end.
Proof.
  intros He Hi name input Ha. unfold executeTask, runActivity. rewrite He. fold name input.
  destruct (getActivity w name) as [impl|].
  2:{ eexists _, i. split; [reflexivity|]. done. }
  specialize (Ha impl eq_refl).
  destruct (propagate (propagators w)) as [[err|]|p].
  - by eexists _, i.
  - destruct (impl env input) as [events result]. simpl in Ha |- *.
    pose proof (happen_closed Pow fuel events i) as Hc.
    destruct (inv_happen Pow fuel events i Ha Hi) as (i' & E & _). rewrite E in *. simpl in Hc.
    destruct result as [output err|value stack].
    + destruct (deadlineOver w env); [by eexists _, i'|].
      destruct (returned_answered w task output err) as (r & -> & Hr). by eexists _, i'.
    + destruct (panic_answered w task value stack) as (r & -> & Hr). by eexists _, i'.
  - destruct (recovered w task p) as (r & -> & Hf). by eexists _, i.
Qed.

End tasks.

(** ** Executions *)

Module SampleActivity.

(** The service takes the heartbeat, or refuses it. *)
Definition taken : rpc RecordActivityTaskHeartbeatResponse :=
  Rpc 0 None true (λ _, inr (Some (MkRecordActivityTaskHeartbeatResponse None)))
    (λ _, 0%Z) (λ _ _, 0%Z) (λ _, false) (λ _, false).
Definition refused : rpc RecordActivityTaskHeartbeatResponse :=
  Rpc 0 None true (λ _, inl BadRequestError) (λ _, 0%Z) (λ _ _, 0%Z) (λ _, false) (λ _, false).

Abbreviation pow := (λ x _ : float64, x).

(** Two steps of progress, and the end of the window. *)
Definition sampleEvents : list event :=
  [Batched (Some "1") taken; Batched (Some "2") taken; Background taken; Woken; Reported taken].

Lemma taken_accepted : accepted pow 1 taken.
Proof. exists None. split; [vm_compute; reflexivity|by left]. Qed.

Lemma sampleEvents_batching : Forall (batching pow 1) sampleEvents.
Proof.
  repeat constructor; try (by intros ? ?); intros c Hc; simpl in Hc; try discriminate Hc;
    injection Hc as <-; apply taken_accepted.
Qed.

Lemma heartbeats_bounded_witness :
  ∃ i, happen pow 1 sampleEvents (newServiceInvoker (Some "task") "worker" 10) = (Ret tt, i) ∧
    (length (beats i) <= 1 + reports sampleEvents)%nat ∧ (waiting i + woken i <= 1)%nat ∧
    (is_Some (hbBatchEndTimer i) ↔ (waiting i + woken i = 1)%nat).
Proof.
  apply (heartbeats_bounded pow 1 (Some "task") "worker" 10 sampleEvents).
  exact sampleEvents_batching.
Defined.

Definition sampleTask : activityTask :=
  MkPollForActivityTaskResponse (Some "task") (Some (MkWorkflowExecution (Some "w") (Some "r")))
    (Some "5") (Some (MkActivityType (Some "work"))) None None (Some 60%Z) None (Some 60%Z) (Some 10%Z)
    None None None (Some (MkWorkflowType (Some "flow"))) (Some "domain") None None.

(** An activity that records progress and is then canceled. *)
Definition sampleWorld : world :=
  World "worker" (λ name, if decide (name = "work")
      then Some (λ _ _, ([Batched (Some "1") taken; Batched (Some "2") taken],
                         Returned None (Some (ErrCanceled (Some (EncodedValues (Some "done 2"))))))) else None)
    ["work"] [Ret None] (λ _, false) "" taken.


(** Details whose heartbeat was refused at the end of a window are still buffered,
    but no timer is left, and [Close] does not flush them. *)
Example refused_details_not_flushed :
  let i := snd (happen pow 1 [Batched (Some "1") taken; Batched (Some "2") taken; Woken;
                              Reported refused] (newServiceInvoker (Some "task") "worker" 10)) in
  let i' := snd (Close pow 1 true taken i) in
  detailsToReport i' = Some (Some "2") ∧ lastDetailsReported i' = Some (Some "1") ∧
  length (beats i') = length (beats i).
Proof. vm_compute. done. Qed.

(** A typed nil [*CanceledError] is reported as a cancellation, with the text that
    is meant for a failure. *)
Example typed_nil_canceled_error_cancels :
  convertActivityResultToRespondRequest (dc := bitConverter) "worker" (Some "task") None
    (Some (ErrCanceled None)) =
  Ret (RespondActivityTaskCanceledRequest (Some "task")
         (Some (badNilErrMsg "*internal.CanceledError")) "worker").
Proof. reflexivity. Qed.

End SampleActivity.
