(* ===== verification/Goroutines.v ===== *)
(** * Goroutines

    What the models of concurrent code share: a system takes labelled steps, each
    what one goroutine does between two points where another may run, and its
    invariants count the goroutines in a given place. *)

From Stdlib Require Import ZArith Lia.
From stdpp Require Import base list option.
From S2P Require Import Prelude.

Local Open Scope Z_scope.

(** ** Runs *)

Section runs.
Context {S E : Type} (step : E → S → option S).
Implicit Types (x y z : S) (ev : E) (evs : list E).

Fixpoint exec evs x : option S :=
  match evs with [] => Some x | ev :: evs => y ← step ev x; exec evs y end.

Lemma exec_app evs evs' x y : exec evs x = Some y → exec (evs ++ evs') x = exec evs' y.
Proof.
  revert x. induction evs as [|ev evs IH]; simpl; intros x; [by intros [= ->]|].
  destruct (step ev x); simpl; [apply IH|done].
Qed.

Lemma exec_invariant (P : S → Prop) evs x y :
  (∀ ev x y, P x → step ev x = Some y → P y) → P x → exec evs x = Some y → P y.
Proof.
  intros Hstep. revert x. induction evs as [|ev evs IH]; simpl; intros x Hx; [by intros [= <-]|].
  destruct (step ev x) eqn:Hs; simpl; [|done]. by eapply IH, Hstep.
Qed.

(** Runs whose steps satisfy a condition on their label and state. *)
Inductive reachable (allowed : E → S → Prop) x : S → Prop :=
| reach_init : reachable allowed x x
| reach_step y z ev :
    reachable allowed x y → allowed ev y → step ev y = Some z → reachable allowed x z.

Lemma reachable_exec allowed x y : reachable allowed x y → ∃ evs, exec evs x = Some y.
Proof.
  induction 1 as [|y z ev _ [evs IH] _ Hz]; [by exists []|].
  exists (evs ++ [ev]). rewrite (exec_app _ _ _ _ IH). simpl. by rewrite Hz.
Qed.

End runs.

Lemma exec_reachable {S E} (step : E → S → option S) (allowed : E → S → bool) evs x y z :
  reachable step (λ ev x, allowed ev x) x y →
  exec (λ ev x, if allowed ev x then step ev x else None) evs y = Some z →
  reachable step (λ ev x, allowed ev x) x z.
Proof.
  revert y. induction evs as [|ev evs IH]; simpl; intros y Hy; [by intros [= <-]|].
  destruct (allowed ev y) eqn:Ha; [|done].
  destruct (step ev y) as [y'|] eqn:Hs; [|done].
  intros Hz. eapply IH; [|done]. eapply reach_step; [done| |done]. by rewrite Ha.
Qed.

(** ** Counting *)

Section count.
Context {A : Type} (f : A → bool).
Implicit Types (l : list A) (a b : A).

Definition count l : Z := Z.of_nat (length (List.filter f l)).

Lemma count_nil : count [] = 0.
Proof. done. Qed.
Lemma count_cons a l : count (a :: l) = (if f a then 1 else 0) + count l.
Proof. unfold count. simpl. destruct (f a); simpl length; lia. Qed.
Lemma count_app l l' : count (l ++ l') = count l + count l'.
Proof. induction l as [|a l IH]; [done|]. simpl app. rewrite !count_cons, IH. lia. Qed.
Lemma count_nonneg l : 0 <= count l.
Proof. unfold count. lia. Qed.

Lemma count_insert l (i : nat) a b :
  l !! i = Some a →
  count (<[i := b]> l) = count l - (if f a then 1 else 0) + (if f b then 1 else 0).
Proof.
  revert i. induction l as [|c l IH]; intros [|i] Hi; simplify_eq/=; rewrite !count_cons; [lia|].
  rewrite (IH _ Hi). lia.
Qed.

Lemma count_delete l (k : nat) a :
  l !! k = Some a → count (delete k l) = count l - (if f a then 1 else 0).
Proof.
  revert k. induction l as [|b l IH]; intros [|k] Hk; simplify_eq/=; rewrite !count_cons; [lia|].
  rewrite (IH _ Hk). lia.
Qed.

Lemma count_le_length l : count l <= Z.of_nat (length l).
Proof. induction l as [|a l IH]; [done|]. rewrite count_cons. simpl length. destruct (f a); lia. Qed.

Lemma count_pos l : 0 < count l ↔ ∃ (i : nat) a, l !! i = Some a ∧ f a = true.
Proof.
  induction l as [|a l IH]; [split; [unfold count; simpl; lia|by intros (?&?&?&?)]|].
  rewrite count_cons. destruct (f a) eqn:E.
  - split; [intros _; by exists 0%nat, a|]. pose proof (count_nonneg l). lia.
  - rewrite Z.add_0_l, IH. split; [intros (i & c & ?); by exists (S i), c|].
    intros ([|i] & c & ? & ?); simplify_eq/=; [congruence|by exists i, c].
Qed.

Lemma count_replicate n a : count (replicate n a) = if f a then Z.of_nat n else 0.
Proof.
  induction n as [|n IH]; [by destruct (f a)|].
  simpl. rewrite count_cons, IH. destruct (f a); lia.
Qed.

Lemma count_all l : count l = Z.of_nat (length l) ↔ ∀ (i : nat) a, l !! i = Some a → f a = true.
Proof.
  induction l as [|c l IH]; [done|]. rewrite count_cons. simpl length.
  pose proof (count_le_length l). destruct (f c) eqn:E.
  - split.
    + intros Hc [|i] a Ha; simplify_eq/=; [done|]. revert i a Ha. apply IH. lia.
    + intros Hall. enough (count l = Z.of_nat (length l)) by lia.
      apply IH. intros i a Ha. by apply (Hall (S i)).
  - split; [lia|]. intros Hall. specialize (Hall 0%nat c eq_refl). congruence.
Qed.
End count.
