(* ===== verification/Session.v ===== *)
(** * Sessions on a worker

    internal/session.go, the side of the worker: the bucket of tokens that bounds
    the sessions of a worker, the environment that its activities share, and the
    two activities of the framework.  Activities and pollers are goroutines; what
    one of them does while it holds a lock is one atomic step, and the steps of all
    of them interleave. *)

From Stdlib Require Import ZArith Lia.
From stdpp Require Import base list gmap strings option.
From S2P Require Import Prelude.
From S2P Require Import Errors.
From S2P Require Import Backoff.
From S2P Require Import Goroutines.

Local Open Scope Z_scope.

(** ** The token bucket *)

(** [waiting] is the list of the goroutines in [Wait] of the condition variable,
    the longest waiting first. *)
Record sessionTokenBucket := Bucket { availableToken : Z; waiting : list nat }.
Implicit Types (b : sessionTokenBucket).

Definition newSessionTokenBucket (concurrentSessionExecutionSize : Z) : sessionTokenBucket :=
  Bucket concurrentSessionExecutionSize [].

(** One test of the loop by the goroutine [w]: it returns, or waits until it is
    signalled and tests again. *)
Definition waitForAvailableToken (w : nat) : M sessionTokenBucket bool :=
  b ← get;
  if bool_decide (availableToken b = 0)
  then modify (λ b, Bucket (availableToken b) (waiting b ++ [w]));; mret false
  else mret true.

(** [addToken] increments under the lock and signals after it. *)
Definition addToken_locked : M sessionTokenBucket unit :=
  modify (λ b, Bucket (int64 (availableToken b + 1)) (waiting b)).
Definition addToken_signal : M sessionTokenBucket (option nat) :=
  b ← get;
  modify (λ b, Bucket (availableToken b) (tail (waiting b)));;
  mret (head (waiting b)).

Definition getToken : M sessionTokenBucket bool :=
  b ← get;
  if bool_decide (availableToken b = 0) then mret false
  else modify (λ b, Bucket (int64 (availableToken b - 1)) (waiting b));; mret true.

(** ** The environment *)

(** A [doneCh] is an index into [channels], which says whether it is closed. *)
Record sessionEnvironmentImpl := Environment {
  doneChanMap : gmap string nat;
  resourceID : string;
  resourceSpecificTasklist : string;
  tokenBucket : sessionTokenBucket;
  channels : list bool }.
Implicit Types (e : sessionEnvironmentImpl).

Definition set_map m cs e :=
  Environment m (resourceID e) (resourceSpecificTasklist e) (tokenBucket e) cs.

Definition on_bucket {A} (m : M sessionTokenBucket A) : M sessionEnvironmentImpl A :=
  λ e, let '(o, b) := m (tokenBucket e) in
       (o, Environment (doneChanMap e) (resourceID e) (resourceSpecificTasklist e) b (channels e)).

Definition getCreationTasklist (base : string) : string := base +:+ "__internal_session_creation".
Definition getResourceSpecificTasklist (hostName resourceID : string) : string :=
  resourceID +:+ "@" +:+ hostName.

Definition newSessionEnvironment (hostName resourceID : string) (concurrentSessionExecutionSize : Z)
    : sessionEnvironmentImpl :=
  Environment ∅ resourceID (getResourceSpecificTasklist hostName resourceID)
    (newSessionTokenBucket concurrentSessionExecutionSize) [].

Record sessionCreationResponse := CreationResponse {
  resp_Tasklist : string; resp_HostName : string; resp_ResourceID : string }.

Definition getCreationResponse (hostName : string) e : sessionCreationResponse :=
  CreationResponse (resourceSpecificTasklist e) hostName (resourceID e).

Definition errTooManySessionsMsg : string := "too many outstanding sessions".
Definition tooManySessions : goError :=
  ErrCustom (Some (MkCustomError errTooManySessionsMsg (ErrorDetailsValues []) None 0)).

(** [CreateSession] takes a token; then, under the lock of the environment, it
    makes the channel. *)
Definition CreateSession_token : M sessionEnvironmentImpl (option goError) :=
  ok ← on_bucket getToken;
  if (ok : bool) then mret None else mret (Some tooManySessions).
Definition CreateSession_register (sessionID : string) : M sessionEnvironmentImpl nat :=
  e ← get;
  modify (λ e, set_map (<[sessionID := length (channels e)]> (doneChanMap e))
                 (channels e ++ [false]) e);;
  mret (length (channels e)).

Definition closeChannel (ch : nat) : M sessionEnvironmentImpl unit :=
  e ← get;
  match channels e !! ch with
  | Some false => modify (λ e, set_map (doneChanMap e) (<[ch := true]> (channels e)) e)
  | Some true => throw (ErrorPanic "close of closed channel")
  | None => throw NilDereference
  end.

Definition CompleteSession (sessionID : string) : M sessionEnvironmentImpl unit :=
  e ← get;
  match doneChanMap e !! sessionID with
  | Some ch =>
      modify (λ e, set_map (delete sessionID (doneChanMap e)) (channels e) e);;
      closeChannel ch
  | None => mret tt
  end.

(** ** The activities *)

Definition maxSessionHeartbeatInterval : Z := 10 * Second.

Definition heartbeatInterval (heartbeatTimeout : Z) : Z :=
  let interval := Z.quot heartbeatTimeout 3 in
  if bool_decide (interval > maxSessionHeartbeatInterval) then maxSessionHeartbeatInterval
  else interval.

Definition heartbeatRetryPolicy (interval : Z) : ExponentialRetryPolicy :=
  SetExpirationInterval interval
    (SetMaximumInterval (2 * Second) (NewExponentialRetryPolicy Second)).

(** The heartbeats of one tick: [world] gives the results of the calls, and
    whether the context is done after each, on which [isRetryable] depends. *)
Definition heartbeat (Pow : float64 → float64 → float64) (world : nat → attempt) (fuel : nat)
    (heartbeatTimeout now : Z) : outcome (option serviceError * list Z) :=
  Retry Pow world (λ _, true) fuel true
    (heartbeatRetryPolicy (heartbeatInterval heartbeatTimeout)) now.

(** Where a goroutine is.  A creation activity is in order [Starting],
    [TokenTaken], [Registered], [Running] and, in its deferred call of
    [AddSessionToken], [Returning] and [TokenReturned]. *)
Inductive pc :=
| Starting
| TokenTaken
| Registered (doneCh : nat)
| Running (doneCh : nat)
| Returning (result : outcome (option goError))
| TokenReturned (result : outcome (option goError))
| Completing
| Returned (result : outcome (option goError)).

Record activity := Activity {
  sessionID : string;
  heartbeatTimeout : Z;
  ctxErr : option goError;   (** [ctx.Err()] *)
  at_ : pc }.

Definition set_pc (p : pc) (a : activity) : activity :=
  Activity (sessionID a) (heartbeatTimeout a) (ctxErr a) p.
Definition set_ctxErr (err : option goError) (a : activity) : activity :=
  Activity (sessionID a) (heartbeatTimeout a) err (at_ a).

Definition startCreation (id : string) (timeout : Z) : activity := Activity id timeout None Starting.
Definition startCompletion (id : string) : activity := Activity id 0 None Completing.

(** A step of [sessionCreationActivity], [None] where the activity waits. *)
Inductive input :=
| Go_                               (** the next statement *)
| SignalResult (err : option goError) (** [SignalCreationResponse] returns *)
| SelectDone                        (** the case [ctx.Done()] *)
| SelectTick                        (** the case of the ticker, with its heartbeats *)
| SelectDoneCh.                     (** the case [doneCh] *)

Definition sessionCreationActivity (a : activity) (i : input)
    : option (M sessionEnvironmentImpl pc) :=
  match at_ a, i with
  | Starting, Go_ => Some (
      err ← CreateSession_token;
      match err with Some _ => mret (Returned (Ret err)) | None => mret TokenTaken end)
  | TokenTaken, Go_ => Some (ch ← CreateSession_register (sessionID a); mret (Registered ch))
  | Registered _, SignalResult (Some err) => Some (mret (Returning (Ret (Some err))))
  | Registered ch, SignalResult None => Some (
      if bool_decide (heartbeatInterval (heartbeatTimeout a) <= 0)
      then mret (Returning (Panic (ErrorPanic "non-positive interval for NewTicker")))
      else mret (Running ch))
  | Running _, SelectDone =>
      match ctxErr a with
      | Some err => Some (λ e,
          match CompleteSession (sessionID a) e with
          | (Ret _, e) => (Ret (Returning (Ret (Some err))), e)
          | (Panic p, e) => (Ret (Returning (Panic p)), e)
          end)
      | None => None
      end
  | Running ch, SelectTick => Some (mret (Running ch))
  | Running ch, SelectDoneCh => Some (
      e ← get;
      if bool_decide (channels e !! ch = Some true) then mret (Returning (Ret None))
      else mret (Running ch))
  | Returning r, Go_ => Some (on_bucket addToken_locked;; mret (TokenReturned r))
  | _, _ => None
  end.

Definition sessionCompletionActivity (a : activity) : option (M sessionEnvironmentImpl pc) :=
  match at_ a with
  | Completing => Some (λ e,
      match CompleteSession (sessionID a) e with
      | (Ret _, e) => (Ret (Returned (Ret None)), e)
      | (Panic p, e) => (Ret (Returned (Panic p)), e)
      end)
  | _ => None
  end.

(** ** The system *)

(** A poller of the worker that creates sessions: outside
    [waitForAvailableToken], about to test, or waiting. *)
Inductive poller := Away | Testing | Asleep.

Record system := System {
  environment : sessionEnvironmentImpl;
  activities : list activity;
  pollers : list poller }.
Implicit Types (x y : system) (a : activity) (w : poller) (i j ch : nat) (id : string).

Definition bucket x : sessionTokenBucket := tokenBucket (environment x).
Definition init (hostName resourceID : string) (size : Z) (pollerCount : nat) : system :=
  System (newSessionEnvironment hostName resourceID size) [] (replicate pollerCount Away).

Definition run_activity i (f : activity → option (M sessionEnvironmentImpl pc)) x : option system :=
  a ← activities x !! i;
  m ← f a;
  match m (environment x) with
  | (Ret p, e) => Some (System e (<[i := set_pc p a]> (activities x)) (pollers x))
  | (Panic _, _) => None
  end.

Inductive event :=
| Arrive id (timeout : Z)   (** the task of a creation activity is dispatched *)
| ArriveCompletion id       (** that of a completion activity *)
| Create i (inp : input)
| Complete i
| Cancel i (err : goError)  (** the context of an activity ends *)
| Signal i                  (** [Signal] of [addToken] *)
| Enter i                   (** a poller calls [waitForAvailableToken] *)
| Test i.

Definition step (ev : event) x : option system :=
  match ev with
  | Arrive id timeout =>
      Some (System (environment x) (activities x ++ [startCreation id timeout]) (pollers x))
  | ArriveCompletion id =>
      Some (System (environment x) (activities x ++ [startCompletion id]) (pollers x))
  | Create i inp => run_activity i (λ a, sessionCreationActivity a inp) x
  | Complete i => run_activity i sessionCompletionActivity x
  | Cancel i err =>
      a ← activities x !! i;
      Some (System (environment x)
              (<[i := match ctxErr a with None => set_ctxErr (Some err) a | Some _ => a end]>
                 (activities x)) (pollers x))
  | Signal i =>
      a ← activities x !! i;
      match at_ a with
      | TokenReturned r =>
          match on_bucket addToken_signal (environment x) with
          | (Ret woken, e) =>
              Some (System e (<[i := set_pc (Returned r) a]> (activities x))
                     (match woken with Some w => <[w := Testing]> (pollers x) | None => pollers x end))
          | (Panic _, _) => None
          end
      | _ => None
      end
  | Enter w => match pollers x !! w with
               | Some Away => Some (System (environment x) (activities x) (<[w := Testing]> (pollers x)))
               | _ => None
               end
  | Test w =>
      match pollers x !! w with
      | Some Testing =>
          match on_bucket (waitForAvailableToken w) (environment x) with
          | (Ret ok, e) =>
              Some (System e (activities x) (<[w := if (ok : bool) then Away else Asleep]> (pollers x)))
          | (Panic _, _) => None
          end
      | _ => None
      end
  end.
