(* ===== verification/SessionProps.v ===== *)
(** * Sessions on a worker: theorems

    The invariant of the interleaving system of Session.v, and what it gives: a
    worker runs as many sessions as it has tokens and loses none, a session that is
    completed gives its token back, and no poller sleeps through a token. *)

From Stdlib Require Import ZArith Lia.
From stdpp Require Import base list gmap strings option.
From S2P Require Import Prelude.
From S2P Require Import Errors.
From S2P Require Import Backoff.
From S2P Require Import Goroutines.
From S2P Require Import Session.

Local Open Scope Z_scope.
Implicit Types (e : sessionEnvironmentImpl) (x y : system) (a : activity) (i j ch w : nat) (id : string).

(** ** The invariant *)

(** The activity has taken a token and not yet given it back. *)
Definition holds a : bool :=
  match at_ a with
  | TokenTaken | Registered _ | Running _ | Returning _ => true
  | _ => false
  end.
Definition holding x : Z := count holds (activities x).

(** The activity has given its token back and not yet signalled. *)
Definition signalling a : bool := match at_ a with TokenReturned _ => true | _ => false end.

Definition result_of (p : pc) : option (outcome (option goError)) :=
  match p with Returning r | TokenReturned r | Returned r => Some r | _ => None end.

Definition result_ok a : Prop :=
  ∀ p, result_of (at_ a) = Some (Panic p) →
    heartbeatInterval (heartbeatTimeout a) <= 0 ∧
    p = ErrorPanic "non-positive interval for NewTicker".

(** Every channel in the map is open, and no two sessions share one. *)
Record env_ok e : Prop := {
  map_open id ch : doneChanMap e !! id = Some ch → channels e !! ch = Some false;
  map_inj id id' ch : doneChanMap e !! id = Some ch → doneChanMap e !! id' = Some ch → id = id' }.

(** The condition variable and its pollers; [signals]: somebody is about to
    signal. *)
Record wake_ok (b : sessionTokenBucket) (signals : Prop) (ps : list poller) : Prop := {
  waiting_nodup : NoDup (waiting b);
  waiting_asleep w : w ∈ waiting b ↔ ps !! w = Some Asleep;
  not_all_asleep : ps ≠ [] → availableToken b ≠ 0 → ¬ signals →
    ∃ w p, ps !! w = Some p ∧ p ≠ Asleep }.

Definition signals x : Prop := 0 < count signalling (activities x).

Record inv (size : Z) x : Prop := {
  inv_nonneg : 0 <= availableToken (bucket x);
  inv_tokens : availableToken (bucket x) + holding x = size;
  inv_env : env_ok (environment x);
  inv_result i a : activities x !! i = Some a → result_ok a;
  inv_wake : wake_ok (bucket x) (signals x) (pollers x) }.

(** ** The environment *)

Lemma env_ok_bucket e b :
  env_ok e → env_ok (Environment (doneChanMap e) (resourceID e) (resourceSpecificTasklist e) b (channels e)).
Proof. by intros []. Qed.

Lemma env_ok_register id e :
  env_ok e → env_ok (set_map (<[id := length (channels e)]> (doneChanMap e)) (channels e ++ [false]) e).
Proof.
  intros [Ho Hi].
  assert (∀ id' ch, doneChanMap e !! id' = Some ch → (ch < length (channels e))%nat) as Hlt.
  { intros id' ch H%Ho. by apply lookup_lt_Some in H. }
  constructor; simpl; intros ??*; rewrite !lookup_insert_Some.
  - intros [[<- <-]|[? H]]; [by apply list_lookup_middle|].
    apply lookup_app_l_Some. by eapply Ho.
  - intros [[<- <-]|[? H]] [[? ?]|[? H']]; simplify_eq; try done; [| |by eapply Hi].
    + apply Hlt in H'. lia.
    + apply Hlt in H. lia.
Qed.

(** [CompleteSession] never closes a channel twice. *)
Lemma CompleteSession_run id e :
  env_ok e → ∃ e', CompleteSession id e = (Ret tt, e') ∧ env_ok e' ∧
    tokenBucket e' = tokenBucket e ∧ doneChanMap e' = delete id (doneChanMap e) ∧
    channels e' = match doneChanMap e !! id with
                  | Some ch => <[ch := true]> (channels e)
                  | None => channels e
                  end.
Proof.
  intros [Ho Hi]. unfold CompleteSession. run. destruct (doneChanMap e !! id) as [ch|] eqn:Hid.
  - unfold closeChannel. run. simpl. rewrite (Ho _ _ Hid). simpl. eexists. split; [done|].
    split_and!; try done. constructor; simpl; intros ??*; rewrite !lookup_delete_Some.
    + intros [? H]. rewrite list_lookup_insert_ne; [by eapply Ho|]. intros ->. eauto.
    + intros [? ?] [? ?]. eauto.
  - exists e. split; [done|]. split_and!; try done. by rewrite delete_id.
Qed.

(** ** Activities *)

Definition effect a p (bump : Z) (b b' : sessionTokenBucket) : Prop :=
  waiting b' = waiting b ∧ availableToken b' = int64 (availableToken b + bump) ∧
  (if holds a then 1 else 0) - bump = (if holds (set_pc p a) then 1 else 0) ∧
  (bump = -1 → availableToken b ≠ 0).

Lemma creation_step a inp m e p e' :
  env_ok e → in_int64 (availableToken (tokenBucket e)) → result_ok a →
  sessionCreationActivity a inp = Some m → m e = (Ret p, e') →
  env_ok e' ∧ result_ok (set_pc p a) ∧ signalling a = false ∧
  ∃ bump, effect a p bump (tokenBucket e) (tokenBucket e') ∧
    (bump = 1 → signalling (set_pc p a) = true).
Proof.
  intros He Hr Hok Hm Hrun. unfold sessionCreationActivity, effect, result_ok, holds, signalling in *.
  destruct (at_ a) eqn:Ha; simpl in *; destruct inp as [|[err|]| | |]; simplify_eq/=.
  - unfold CreateSession_token, on_bucket, getToken in Hrun. run_in Hrun.
    case_bool_decide; simplify_eq/=; split_and!; try done; try by apply env_ok_bucket.
    + exists 0. rewrite Z.add_0_r, int64_id by done. done.
    + exists (-1). split_and!; done || (rewrite ?Z.add_opp_r; done).
  - unfold CreateSession_register in Hrun. run_in Hrun. simplify_eq/=.
    split_and!; try done; [by apply env_ok_register|].
    exists 0. rewrite Z.add_0_r, int64_id by done. done.
  - run_in Hrun. simplify_eq/=. split_and!; try done.
    exists 0. rewrite Z.add_0_r, int64_id by done. done.
  - case_bool_decide; run_in Hrun; simplify_eq/=; split_and!; try done;
      try (intros ? [= <-]; done);
      exists 0; rewrite Z.add_0_r, int64_id by done; done.
  - destruct (ctxErr a) as [err|]; simplify_eq/=.
    destruct (CompleteSession_run (sessionID a) e He) as (e1 & Hc & He1 & Hb & _).
    rewrite Hc in Hrun. simplify_eq/=. split_and!; try done.
    exists 0. rewrite Hb, Z.add_0_r, int64_id by done. done.
  - run_in Hrun. simplify_eq/=. split_and!; try done.
    exists 0. rewrite Z.add_0_r, int64_id by done. done.
  - run_in Hrun. case_bool_decide; simplify_eq/=; split_and!; try done;
      exists 0; rewrite Z.add_0_r, int64_id by done; done.
  - unfold on_bucket, addToken_locked in Hrun. run_in Hrun. simplify_eq/=.
    split_and!; try done; [by apply env_ok_bucket|]. by exists 1.
Qed.

Lemma completion_step a m e p e' :
  env_ok e → sessionCompletionActivity a = Some m → m e = (Ret p, e') →
  env_ok e' ∧ result_ok (set_pc p a) ∧ tokenBucket e' = tokenBucket e ∧
  at_ a = Completing ∧ p = Returned (Ret None).
Proof.
  intros He Hm Hrun. unfold sessionCompletionActivity in Hm.
  destruct (at_ a) eqn:Ha; simplify_eq/=.
  destruct (CompleteSession_run (sessionID a) e He) as (e1 & Hc & He1 & Hb & _).
  rewrite Hc in Hrun. simplify_eq/=. split_and!; done.
Qed.

(** ** The pollers *)

(** A token that is taken, or given back with a signal to come, wakes nobody. *)
Lemma wake_ok_bump b b' (S S' : Prop) ps :
  waiting b' = waiting b →
  (availableToken b' ≠ 0 → ¬ S' → availableToken b ≠ 0 ∧ ¬ S) →
  wake_ok b S ps → wake_ok b' S' ps.
Proof.
  intros Hw Ht [Hn Ha Hs]. constructor; rewrite ?Hw; [done|done|].
  intros Hne Hb HS'. destruct (Ht Hb HS'). eauto.
Qed.

Lemma wake_ok_signal b (S S' : Prop) ps :
  wake_ok b S ps →
  wake_ok (Bucket (availableToken b) (tail (waiting b))) S'
    (match head (waiting b) with Some w => <[w := Testing]> ps | None => ps end).
Proof.
  intros [Hn Ha Hs]. destruct (waiting b) as [|w ws]; simpl in *.
  - constructor; simpl; [done|done|]. intros Hne _ _. destruct ps as [|p ps]; [done|].
    exists 0%nat, p. split; [done|]. intros ->. by apply (elem_of_nil 0%nat), Ha.
  - apply list.NoDup_cons in Hn as [Hw Hn]. assert (ps !! w = Some Asleep) as Hwa.
    { apply Ha. apply list_elem_of_here. }
    constructor; simpl; [done| |].
    + intros w'. specialize (Ha w'). rewrite elem_of_cons in Ha.
      destruct (decide (w' = w)) as [->|Hne].
      * rewrite list_lookup_insert_eq by (by eapply lookup_lt_Some). split; [done|by intros [=]].
      * rewrite list_lookup_insert_ne by done. rewrite <- Ha. naive_solver.
    + intros _ _ _. exists w, Testing.
      by rewrite list_lookup_insert_eq by (by eapply lookup_lt_Some).
Qed.

Lemma wake_ok_awake b (S : Prop) ps w p p' :
  ps !! w = Some p → p ≠ Asleep → p' ≠ Asleep → wake_ok b S ps → wake_ok b S (<[w := p']> ps).
Proof.
  intros Hw Hp Hp' [Hn Ha Hs]. pose proof (lookup_lt_Some _ _ _ Hw) as Hlt.
  constructor; [done| |].
  - intros w'. rewrite Ha. destruct (decide (w' = w)) as [->|].
    + rewrite list_lookup_insert_eq by done. split; congruence.
    + by rewrite list_lookup_insert_ne.
  - intros _ _ _. exists w, p'. by rewrite list_lookup_insert_eq.
Qed.

Lemma wake_ok_sleep b (S : Prop) ps w p :
  ps !! w = Some p → p ≠ Asleep → availableToken b = 0 → wake_ok b S ps →
  wake_ok (Bucket (availableToken b) (waiting b ++ [w])) S (<[w := Asleep]> ps).
Proof.
  intros Hw Hp Hb [Hn Ha Hs]. pose proof (lookup_lt_Some _ _ _ Hw) as Hlt.
  assert (w ∉ waiting b) by (rewrite Ha; congruence).
  constructor; simpl; [| |done].
  - apply list.NoDup_app. split_and!; [done| |apply NoDup_singleton].
    intros w' Hw' ->%list_elem_of_singleton. done.
  - intros w'. rewrite elem_of_app, list_elem_of_singleton.
    destruct (decide (w' = w)) as [->|].
    + rewrite list_lookup_insert_eq by done. naive_solver.
    + rewrite list_lookup_insert_ne by done. rewrite <- Ha. naive_solver.
Qed.

(** ** Preservation *)

Section steps.
Context (size : Z) (Hsize : 0 <= size < 2 ^ 63).

Lemma inv_int64 x : inv size x → in_int64 (availableToken (bucket x)).
Proof.
  intros [Hn Ht _ _ _]. pose proof (count_nonneg holds (activities x)). unfold holding, in_int64 in *. lia.
Qed.

Lemma results_insert (l : list activity) i a a' :
  (∀ j a, l !! j = Some a → result_ok a) → l !! i = Some a → result_ok a' →
  ∀ j a, <[i := a']> l !! j = Some a → result_ok a.
Proof. intros Hl Hi Ha j b. rewrite list_lookup_insert_Some. intros [(_ & <- & _)|[_ ?]]; eauto. Qed.

(** An activity that moves without signalling. *)
Lemma inv_activity x e i a a' bump :
  inv size x → activities x !! i = Some a → env_ok e → result_ok a' →
  signalling a = false → (bump = 1 → signalling a' = true) → (bump = 0 ∨ bump = -1 ∨ bump = 1) →
  waiting (tokenBucket e) = waiting (bucket x) →
  availableToken (tokenBucket e) = int64 (availableToken (bucket x) + bump) →
  (if holds a then 1 else 0) - bump = (if holds a' then 1 else 0) →
  (bump = -1 → availableToken (bucket x) ≠ 0) →
  inv size (System e (<[i := a']> (activities x)) (pollers x)).
Proof.
  intros Hx Hi He Hr Hs Hs' Hb Hw Ht Hh Hnz. pose proof (inv_int64 x Hx) as Hin.
  pose proof Hx as [Hn Htok _ Hres Hwake].
  pose proof (count_insert holds (activities x) i a a' Hi) as Hc.
  pose proof (count_insert signalling (activities x) i a a' Hi) as Hcs.
  rewrite Hs in Hcs. pose proof (count_nonneg signalling (activities x)).
  pose proof (count_nonneg holds (<[i := a']> (activities x))).
  unfold holding in *. unfold bucket in *.
  rewrite int64_id in Ht by (unfold in_int64 in *; lia).
  constructor; simpl; [unfold bucket; simpl; lia|unfold holding, bucket; simpl; lia|done| |].
  - eapply results_insert; eauto.
  - eapply wake_ok_bump; [exact Hw| |exact Hwake]. unfold bucket, signals. simpl.
    destruct (signalling a'), Hb as [ -> | [ -> | -> ] ]; try lia; intuition (try lia; try discriminate).
Qed.

Lemma inv_append x a :
  inv size x → holds a = false → signalling a = false → result_ok a →
  inv size (System (environment x) (activities x ++ [a]) (pollers x)).
Proof.
  intros [Hn Ht He Hr Hw] Hh Hs Ha.
  constructor; simpl; [done| |done| |].
  - unfold holding, bucket in *. simpl. rewrite count_app, count_cons, Hh, count_nil. lia.
  - intros i b [?|[_ [_ <-]%list_lookup_singleton_Some]]%lookup_app_Some; eauto.
  - eapply wake_ok_bump; [done| |exact Hw]. unfold signals, bucket. simpl.
    rewrite count_app, count_cons, Hs, count_nil. intuition lia.
Qed.

Lemma inv_run_activity x y i f :
  inv size x →
  (∀ a m e p e', activities x !! i = Some a → f a = Some m → environment x = e → m e = (Ret p, e') →
     env_ok e' ∧ result_ok (set_pc p a) ∧ signalling a = false ∧
     ∃ bump, effect a p bump (tokenBucket e) (tokenBucket e') ∧
       (bump = 1 → signalling (set_pc p a) = true)) →
  run_activity i f x = Some y → inv size y.
Proof.
  intros Hx Hf Hrun. unfold run_activity in Hrun.
  destruct (activities x !! i) as [a|] eqn:Hi; [|done]. simpl in Hrun.
  destruct (f a) as [m|] eqn:Hm; [|done]. simpl in Hrun.
  destruct (m (environment x)) as [[p|p] e'] eqn:Hmrun; simplify_eq.
  destruct (Hf a m _ p e' eq_refl Hm eq_refl Hmrun)
    as (He & Hr & Hs & bump & (Hw & Ht & Hh & Hnz) & Hs').
  eapply (inv_activity _ _ _ a _ bump); eauto.
  destruct (holds a), (holds (set_pc p a)); lia.
Qed.

(** An activity whose context changes. *)
Lemma inv_context x i a a' :
  inv size x → activities x !! i = Some a →
  at_ a' = at_ a → heartbeatTimeout a' = heartbeatTimeout a →
  inv size (System (environment x) (<[i := a']> (activities x)) (pollers x)).
Proof.
  intros [Hn Ht He Hr Hw] Hi Hat Hhb.
  assert (∀ f : pc → bool, count (f ∘ at_) (<[i := a']> (activities x)) = count (f ∘ at_) (activities x)) as Hc.
  { intros f. rewrite (count_insert _ _ _ a) by done. simpl. rewrite Hat. lia. }
  constructor; simpl; [done| |done| |].
  - rewrite <- Ht. unfold bucket, holding. simpl. f_equal. exact (Hc (λ p, holds (Activity "" 0 None p))).
  - eapply results_insert; eauto. unfold result_ok. rewrite Hat, Hhb. by eapply Hr.
  - eapply wake_ok_bump; [done| |exact Hw]. unfold signals, bucket. simpl.
    pose proof (Hc (λ p, signalling (Activity "" 0 None p))) as Hs.
    change (count signalling (<[i := a']> (activities x)) = count signalling (activities x)) in Hs.
    by rewrite Hs.
Qed.

Lemma inv_session_step ev x y : inv size x → step ev x = Some y → inv size y.
Proof.
  intros Hx. pose proof (inv_int64 x Hx) as Hin.
  pose proof Hx as [Hn Ht He Hr Hw]. destruct ev; simpl; intros Hstep.
  - injection Hstep as <-. by apply inv_append.
  - injection Hstep as <-. by apply inv_append.
  - eapply inv_run_activity; [done| |exact Hstep]. intros a m e p e' Ha Hm <- Hrun.
    eapply (creation_step a inp); eauto.
  - eapply inv_run_activity; [done| |exact Hstep]. intros a m e p e' Ha Hm <- Hrun.
    destruct (completion_step a m _ p e' He Hm Hrun) as (? & ? & Hb & Hat & ->).
    split_and!; [done|done|unfold signalling; by rewrite Hat|].
    exists 0. unfold effect, holds. rewrite Hb, Hat, Z.add_0_r, int64_id by done. done.
  - destruct (activities x !! i) as [a|] eqn:Hi; [injection Hstep as <-|done].
    set (a' := match ctxErr a with Some _ => a | None => set_ctxErr (Some err) a end).
    assert (at_ a' = at_ a ∧ heartbeatTimeout a' = heartbeatTimeout a) as [Hat Hhb]
      by (unfold a'; by destruct (ctxErr a)).
    by eapply inv_context.
  - destruct (activities x !! i) as [a|] eqn:Hi; simplify_eq/=.
    destruct (at_ a) as [| | | | |r| |] eqn:Ha; simplify_eq/=.
    pose proof (count_insert holds (activities x) i a (set_pc (Returned r) a) Hi) as Hc.
    unfold holds in Hc at 3 4. rewrite Ha in Hc. simpl in Hc.
    constructor; simpl; [done| |by apply env_ok_bucket| |].
    + unfold holding, bucket in *. simpl. lia.
    + eapply results_insert; eauto. intros p Hp. apply (Hr _ _ Hi). by rewrite Ha.
    + unfold bucket. simpl. by eapply wake_ok_signal.
  - destruct (pollers x !! i) as [[]|] eqn:Hi; simplify_eq/=.
    constructor; try done. simpl. by eapply wake_ok_awake.
  - destruct (pollers x !! i) as [[]|] eqn:Hi; simplify_eq/=.
    unfold on_bucket, waitForAvailableToken in Hstep. run_in Hstep.
    case_bool_decide as Hz; simplify_eq/=.
    + constructor; try done; [by apply env_ok_bucket|]. simpl. by eapply wake_ok_sleep.
    + constructor; try done; [by apply env_ok_bucket|]. simpl. unfold bucket. simpl.
      by eapply wake_ok_awake.
Qed.

Lemma inv_init hostName resourceID n : inv size (init hostName resourceID size n).
Proof.
  unfold init. constructor; simpl; [lia|unfold holding, count; simpl; lia|..].
  - constructor; simpl; intros ??*; by rewrite lookup_empty.
  - done.
  - constructor; simpl; [constructor|..].
    + intros w. rewrite elem_of_nil, lookup_replicate. naive_solver.
    + intros Hne _ _. destruct n; [done|]. by exists 0%nat, Away.
Qed.

End steps.

(** ** A worker never runs more sessions than it has tokens *)

(** C10: for every interleaving of the creation and completion activities of a
    worker, the failures and panics of an activity and the ends of its context
    included: the tokens of the bucket and those that activities hold add up to
    the size of the bucket, so that at most [size] sessions run and none of the
    tokens is lost; no channel is closed twice, so that the only panic of an
    activity is that of a ticker without an interval; and when a token is there
    and nobody is about to signal, some poller is awake. *)
Theorem sessions_bounded size hostName resourceID n evs x :
  0 <= size < 2 ^ 63 → exec step evs (init hostName resourceID size n) = Some x →
  0 <= availableToken (bucket x) ∧ availableToken (bucket x) + holding x = size ∧
  (∀ i a p, activities x !! i = Some a → result_of (at_ a) = Some (Panic p) →
     heartbeatInterval (heartbeatTimeout a) <= 0 ∧
     p = ErrorPanic "non-positive interval for NewTicker") ∧
  (pollers x ≠ [] → 0 < availableToken (bucket x) → (∀ i a, activities x !! i = Some a → signalling a = false) →
     ∃ w p, pollers x !! w = Some p ∧ p ≠ Asleep).
Proof.
  intros Hsize Hexec.
  assert (inv size x) as [Hn Ht He Hr Hw].
  { eapply exec_invariant; [|by apply (inv_init size Hsize)|exact Hexec]. by apply inv_session_step. }
  split_and!; [done|done|intros i a p Ha Hp; by eapply Hr|].
  intros Hne Hpos Hs. eapply not_all_asleep; [exact Hw|done|lia|].
  intros (i & a & Hi & Ha)%count_pos. rewrite (Hs i a Hi) in Ha. done.
Qed.

(** ** A session that is completed ends *)

(** The activity may still register a session or wait for its end. *)
Definition active a : bool :=
  match at_ a with Starting | TokenTaken | Registered _ | Running _ => true | _ => false end.

Definition channel_of (p : pc) : option nat :=
  match p with Registered ch | Running ch => Some ch | _ => None end.

(** A creation activity is not started again while it is running: the framework
    retries it only after it has returned. *)
Definition one_attempt (ev : event) x : bool :=
  match ev with
  | Arrive id _ => forallb (λ a, negb (active a && bool_decide (sessionID a = id))) (activities x)
  | _ => true
  end.

(** The channel that the activity waits for is closed, or [CompleteSession] will
    close it. *)
Definition completable e a : Prop :=
  ∀ ch, channel_of (at_ a) = Some ch →
    channels e !! ch = Some true ∨ doneChanMap e !! sessionID a = Some ch.

Record attempts_ok x : Prop := {
  one_active i j a b : activities x !! i = Some a → activities x !! j = Some b →
    active a = true → active b = true → sessionID a = sessionID b → i = j;
  all_completable i a : activities x !! i = Some a → completable (environment x) a }.

(** What a step of an activity does to the sessions. *)
Inductive moves a e : pc → sessionEnvironmentImpl → Prop :=
| move_local p e' :
    doneChanMap e' = doneChanMap e → channels e' = channels e →
    (active (set_pc p a) = true → active a = true) →
    (∀ ch, channel_of p = Some ch → channel_of (at_ a) = Some ch) → moves a e p e'
| move_register e' :
    active a = true → at_ a = TokenTaken →
    doneChanMap e' = <[sessionID a := length (channels e)]> (doneChanMap e) →
    channels e' = channels e ++ [false] → moves a e (Registered (length (channels e))) e'
| move_complete p e' :
    CompleteSession (sessionID a) e = (Ret tt, e') → active (set_pc p a) = false → moves a e p e'.

Lemma creation_moves a inp m e p e' :
  env_ok e → sessionCreationActivity a inp = Some m → m e = (Ret p, e') → moves a e p e'.
Proof.
  intros He Hm Hrun. unfold sessionCreationActivity in Hm.
  assert (e = e' → (active (set_pc p a) = true → active a = true) →
    (∀ ch, channel_of p = Some ch → channel_of (at_ a) = Some ch) → moves a e p e') as Hlocal.
  { intros <- ??. by apply move_local. }
  destruct (at_ a) eqn:Ha; simpl in *; destruct inp as [|[err|]| | |]; simplify_eq/=.
  - unfold CreateSession_token, on_bucket, getToken in Hrun. run_in Hrun.
    case_bool_decide; simplify_eq/=; apply move_local; try done. unfold active. by rewrite Ha.
  - unfold CreateSession_register in Hrun. run_in Hrun. simplify_eq/=.
    apply move_register; try done. unfold active. by rewrite Ha.
  - run_in Hrun. simplify_eq/=. by eapply Hlocal.
  - case_bool_decide; run_in Hrun; simplify_eq/=; (eapply Hlocal; [done| |done]); [done|].
    unfold active. by rewrite Ha.
  - destruct (ctxErr a) as [err|]; simplify_eq/=.
    destruct (CompleteSession_run (sessionID a) e He) as (e1 & Hc & _).
    rewrite Hc in Hrun. simplify_eq/=. by apply move_complete.
  - run_in Hrun. simplify_eq/=. eapply Hlocal; [done| |done]. unfold active. by rewrite Ha.
  - run_in Hrun. case_bool_decide; simplify_eq/=; (eapply Hlocal; [done| |done]); [done|].
    unfold active. by rewrite Ha.
  - unfold on_bucket, addToken_locked in Hrun. run_in Hrun. simplify_eq/=. by apply move_local.
Qed.

Lemma completion_moves a m e p e' :
  env_ok e → sessionCompletionActivity a = Some m → m e = (Ret p, e') → moves a e p e'.
Proof.
  intros He Hm Hrun. unfold sessionCompletionActivity in Hm. destruct (at_ a); simplify_eq/=.
  destruct (CompleteSession_run (sessionID a) e He) as (e1 & Hc & _).
  rewrite Hc in Hrun. simplify_eq/=. by apply move_complete.
Qed.

(** The other activities stay completable. *)
Lemma moves_others a e p e' b :
  env_ok e → moves a e p e' → (active a = true → active b = true → sessionID a ≠ sessionID b) →
  completable e b → completable e' b.
Proof.
  intros He Hm Hne Hb ch Hch. destruct (Hb ch Hch) as [Ho|Ho].
  - left. inversion Hm as [p1 e1 Hmap Hcs _ _|e1 _ _ Hmap Hcs|p1 e1 Hrun _]; subst.
    + by rewrite Hcs.
    + rewrite Hcs. by apply lookup_app_l_Some.
    + destruct (CompleteSession_run (sessionID a) e He) as (e2 & Hc & _ & _ & _ & Hcs).
      assert (e2 = e') as -> by congruence. rewrite Hcs. destruct (doneChanMap e !! sessionID a); [|done].
      destruct (decide (n = ch)) as [->|]; [|by rewrite list_lookup_insert_ne].
      rewrite list_lookup_insert_eq; [done|by eapply lookup_lt_Some].
  - inversion Hm as [p1 e1 Hmap Hcs _ _|e1 Ha _ Hmap Hcs|p1 e1 Hrun _]; subst.
    + right. by rewrite Hmap.
    + right. rewrite Hmap. rewrite lookup_insert_ne; [done|]. apply Hne; [done|].
      unfold active. by destruct (at_ b).
    + destruct (CompleteSession_run (sessionID a) e He) as (e2 & Hc & _ & _ & Hmap & Hcs).
      assert (e2 = e') as -> by congruence. rewrite Hmap, Hcs. destruct (decide (sessionID a = sessionID b)) as [Heq|].
      * rewrite Heq, Ho. left. rewrite list_lookup_insert_eq; [done|].
        by eapply lookup_lt_Some, map_open.
      * right. by rewrite lookup_delete_ne.
Qed.

Lemma moves_self a e p e' : moves a e p e' → completable e a → completable e' (set_pc p a).
Proof.
  intros [p1 e1 Hmap Hcs _ Hch|e1 _ _ Hmap Hcs|p1 e1 _ Hact] Ha ch; simpl.
  - rewrite Hmap, Hcs. intros H%Hch. by apply Ha.
  - intros [= <-]. right. by rewrite Hmap, lookup_insert_eq.
  - intros Hc. unfold active in Hact. simpl in Hact. by destruct p1.
Qed.

Lemma moves_active a e p e' : moves a e p e' → active (set_pc p a) = true → active a = true.
Proof. intros [p1 e1 _ _ H _|e1 H _ _ _|p1 e1 _ H]; [done|done|by rewrite H]. Qed.

(** An activity that is replaced by one of the same session, not more active. *)
Lemma attempts_insert x e i a a' :
  attempts_ok x → activities x !! i = Some a → sessionID a' = sessionID a →
  (active a' = true → active a = true) → completable e a' →
  (∀ j b, j ≠ i → activities x !! j = Some b → completable e b) →
  ∀ ps, attempts_ok (System e (<[i := a']> (activities x)) ps).
Proof.
  intros [Hone Hall] Hi Hid Hact Ha Hothers ps. pose proof (lookup_lt_Some _ _ _ Hi) as Hlt.
  assert (∀ j b, <[i := a']> (activities x) !! j = Some b →
    ∃ b', activities x !! j = Some b' ∧ sessionID b = sessionID b' ∧ (active b = true → active b' = true)) as Hold.
  { intros j b. rewrite list_lookup_insert_Some. intros [(<- & <- & _)|[_ ?]]; eauto. }
  constructor; simpl.
  - intros j k b c (b' & Hb & Hbid & Hba)%Hold (c' & Hc & Hcid & Hca)%Hold ???.
    eapply Hone; eauto. congruence.
  - intros j b. rewrite list_lookup_insert_Some. intros [(<- & <- & _)|[? ?]]; eauto.
Qed.

Lemma attempts_run x y i f :
  env_ok (environment x) → attempts_ok x →
  (∀ a m p e', f a = Some m → m (environment x) = (Ret p, e') → moves a (environment x) p e') →
  run_activity i f x = Some y → attempts_ok y.
Proof.
  intros He Hok Hf Hrun. unfold run_activity in Hrun.
  destruct (activities x !! i) as [a|] eqn:Hi; [|done]. simpl in Hrun.
  destruct (f a) as [m|] eqn:Hm; [|done]. simpl in Hrun.
  destruct (m (environment x)) as [[p|p] e'] eqn:Hmrun; simplify_eq.
  specialize (Hf a m p e' Hm Hmrun). eapply attempts_insert; eauto.
  - by eapply moves_active.
  - eapply moves_self; [done|]. by eapply all_completable.
  - intros j b Hj Hb. eapply moves_others; [done|done| |by eapply all_completable].
    intros ?? Heq. apply Hj. by eapply one_active.
Qed.

Lemma completable_env e e' b :
  doneChanMap e' = doneChanMap e → channels e' = channels e → completable e b → completable e' b.
Proof. unfold completable. by intros -> ->. Qed.

Lemma attempts_append x a :
  attempts_ok x → channel_of (at_ a) = None →
  (∀ i b, activities x !! i = Some b → active a = true → active b = true → sessionID a ≠ sessionID b) →
  attempts_ok (System (environment x) (activities x ++ [a]) (pollers x)).
Proof.
  intros [Hone Hall] Hch Hnew. constructor; simpl.
  - intros j k b c [Hb|[Hj [? <-]%list_lookup_singleton_Some]]%lookup_app_Some
      [Hc|[Hk [? <-]%list_lookup_singleton_Some]]%lookup_app_Some ???; [by eapply Hone| | |lia].
    + edestruct Hnew; eauto.
    + edestruct Hnew; eauto.
  - intros i b [?|[_ [_ <-]%list_lookup_singleton_Some]]%lookup_app_Some; [by eapply Hall|].
    intros ch. by rewrite Hch.
Qed.

Lemma attempts_step ev x y :
  env_ok (environment x) → attempts_ok x → one_attempt ev x → step ev x = Some y → attempts_ok y.
Proof.
  intros He Hok Hone. destruct ev; simpl in *; intros Hstep.
  - simplify_eq. apply attempts_append; [done|done|]. intros i b Hb _ Hact Heq.
    apply Is_true_true in Hone. rewrite forallb_forall in Hone.
    specialize (Hone b). rewrite Hact in Hone. simpl in *.
    rewrite bool_decide_true in Hone by done.
    discriminate Hone. by eapply list_elem_of_In, list_elem_of_lookup_2.
  - simplify_eq. by apply attempts_append.
  - eapply attempts_run; [done|done| |exact Hstep]. intros a m p e'. by apply creation_moves.
  - eapply attempts_run; [done|done| |exact Hstep]. intros a m p e'. by apply completion_moves.
  - destruct (activities x !! i) as [a|] eqn:Hi; simplify_eq/=.
    eapply attempts_insert; eauto using all_completable; destruct (ctxErr a); try done.
    + by eapply all_completable.
    + intros ch Hch. by apply (all_completable _ Hok _ _ Hi).
  - destruct (activities x !! i) as [a|] eqn:Hi; simplify_eq/=.
    destruct (at_ a) eqn:Ha; simplify_eq/=. eapply attempts_insert; eauto; [done|done|].
    intros j b _ Hb. eapply completable_env; [done|done|]. by eapply all_completable.
  - destruct (pollers x !! i) as [[]|] eqn:Hi; simplify_eq/=. by destruct Hok.
  - destruct (pollers x !! i) as [[]|] eqn:Hi; simplify_eq/=.
    unfold on_bucket, waitForAvailableToken in Hstep. run_in Hstep.
    case_bool_decide; simplify_eq/=; by destruct Hok.
Qed.

Lemma attempts_reachable size hostName resourceID n x :
  0 <= size < 2 ^ 63 →
  reachable step (λ ev x, one_attempt ev x) (init hostName resourceID size n) x →
  inv size x ∧ attempts_ok x.
Proof.
  intros Hsize. induction 1 as [|x y ev _ [Hinv Hok] Hone Hstep].
  - split; [by apply inv_init|]. constructor; simpl; naive_solver.
  - split; [by eapply inv_session_step|]. eapply attempts_step; eauto. by apply (inv_env size).
Qed.

(** A step of one activity, computed. *)
Lemma run_activity_eq i f x a m p e :
  activities x !! i = Some a → f a = Some m → m (environment x) = (Ret p, e) →
  run_activity i f x = Some (System e (<[i := set_pc p a]> (activities x)) (pollers x)).
Proof. intros Hi Hf Hm. unfold run_activity. rewrite Hi. simpl. rewrite Hf. simpl. by rewrite Hm. Qed.

(** The end of an activity whose channel is closed. *)
Lemma activity_ends x i a ch :
  activities x !! i = Some a → at_ a = Running ch → channels (environment x) !! ch = Some true →
  in_int64 (availableToken (bucket x) + 1) →
  ∃ y, exec step [Create i SelectDoneCh; Create i Go_; Signal i] x = Some y ∧
    activities y !! i = Some (set_pc (Returned (Ret None)) a) ∧
    availableToken (bucket y) = availableToken (bucket x) + 1 ∧
    doneChanMap (environment y) = doneChanMap (environment x).
Proof.
  intros Hi Ha Hch Hint. pose proof (lookup_lt_Some _ _ _ Hi) as Hlt. eexists. split.
  - cbn [exec step].
    erewrite (run_activity_eq i _ x a _ (Returning (Ret None)) (environment x) Hi);
      [|unfold sessionCreationActivity; by rewrite Ha|run; by rewrite bool_decide_true].
    cbn [mbind option_bind].
    erewrite run_activity_eq; [|simpl; by apply list_lookup_insert_eq|done|done].
    cbn [mbind option_bind activities pollers environment].
    rewrite list_insert_insert_eq, list_lookup_insert_eq by done. cbn. done.
  - cbn. rewrite list_lookup_insert_eq by (by rewrite length_insert).
    split_and!; [done|by rewrite int64_id|done].
Qed.

(** C38: a session whose completion activity runs ends: in every state that the
    worker reaches, the activity that created the session can take the steps that
    follow the completion, it then returns without an error, its token is in the
    bucket again and the environment has forgotten the session. *)
Theorem session_released size hostName resourceID n x i a ch :
  0 <= size < 2 ^ 63 →
  reachable step (λ ev x, one_attempt ev x) (init hostName resourceID size n) x →
  activities x !! i = Some a → at_ a = Running ch →
  let j := length (activities x) in
  ∃ y, exec step [ArriveCompletion (sessionID a); Complete j; Create i SelectDoneCh;
                  Create i Go_; Signal i] x = Some y ∧
    activities y !! i = Some (set_pc (Returned (Ret None)) a) ∧
    availableToken (bucket y) = availableToken (bucket x) + 1 ∧
    doneChanMap (environment y) = delete (sessionID a) (doneChanMap (environment x)).
Proof.
  intros Hsize Hreach Hi Ha j. destruct (attempts_reachable _ _ _ _ _ Hsize Hreach) as [Hinv Hok].
  destruct (CompleteSession_run (sessionID a) (environment x) (inv_env _ _ Hinv))
    as (e' & Hrun & _ & Hb & Hmap & Hcs).
  set (x1 := System e' (<[j := set_pc (Returned (Ret None)) (startCompletion (sessionID a))]>
    (activities x ++ [startCompletion (sessionID a)])) (pollers x)).
  pose proof (lookup_lt_Some _ _ _ Hi) as Hlt.
  destruct (activity_ends x1 i a ch) as (y & Hy & Hact & Htok & Hmapy).
  - simpl. rewrite list_lookup_insert_ne by (unfold j; lia). by apply lookup_app_l_Some.
  - done.
  - simpl. rewrite Hcs. destruct (all_completable _ Hok i a Hi ch) as [Hc|Hc]; [by rewrite Ha|..].
    + destruct (doneChanMap (environment x) !! sessionID a) as [c|]; [|done].
      apply list_lookup_insert_Some. destruct (decide (c = ch)) as [->|]; [left|by right].
      split_and!; [done|done|by eapply lookup_lt_Some].
    + rewrite Hc, list_lookup_insert_eq; [done|]. by eapply lookup_lt_Some, (inv_env _ _ Hinv).
  - pose proof Hinv as [? Htok _ _ _]. unfold holding in Htok.
    assert (0 < count holds (activities x)).
    { apply count_pos. exists i, a. split; [done|]. unfold holds. by rewrite Ha. }
    unfold x1, bucket in *. simpl. rewrite Hb. unfold in_int64. lia.
  - exists y. split_and!; [|done|unfold x1, bucket in *; simpl in *; by rewrite Hb in Htok|].
    + change (exec step ([Complete j] ++ [Create i SelectDoneCh; Create i Go_; Signal i])
        (System (environment x) (activities x ++ [startCompletion (sessionID a)]) (pollers x)) = Some y).
      erewrite exec_app; [exact Hy|]. cbn [exec step].
      erewrite run_activity_eq; [reflexivity|by apply list_lookup_middle|done|].
      simpl. by rewrite Hrun.
    + rewrite Hmapy. exact Hmap.
Qed.

(** ** Executions *)

Module SampleSessions.

(** A worker for one session with two pollers; the pollers find the bucket empty
    when the first session runs, and the second session is refused. *)
Definition worker : system := init "host" "resource" 1 2.
Definition busy : list event :=
  [Arrive "s" (30 * Second); Create 0 Go_; Create 0 Go_; Create 0 (SignalResult None);
   Arrive "t" (30 * Second); Create 1 Go_; Create 0 SelectTick;
   Enter 0; Enter 1; Test 0; Test 1].
Definition state_of (o : option system) : list pc * Z * list poller :=
  match o with
  | Some x => (at_ <$> activities x, availableToken (bucket x), pollers x)
  | None => ([], 0, [])
  end.

Example busy_state :
  state_of (exec step busy worker) =
    ([Running 0; Returned (Ret (Some tooManySessions))], 0, [Asleep; Asleep]).
Proof. vm_compute. reflexivity. Qed.

(** The end of the session wakes one of them. *)
Example released_state :
  state_of (exec step (busy ++ [ArriveCompletion "s"; Complete 2; Create 0 SelectDoneCh;
                                Create 0 Go_; Signal 0; Test 0]) worker) =
    ([Returned (Ret None); Returned (Ret (Some tooManySessions)); Returned (Ret None)], 1,
     [Away; Asleep]).
Proof. vm_compute. reflexivity. Qed.

(** When the response cannot be signalled the activity fails without
    [CompleteSession]: the token is given back, but the channel stays in the map
    of the environment. *)
Example failed_response_leaks :
  (λ x, (doneChanMap (environment x), availableToken (bucket x), at_ <$> activities x)) <$>
    exec step [Arrive "s" (30 * Second); Create 0 Go_; Create 0 Go_;
               Create 0 (SignalResult (Some (ErrText "unavailable"))); Create 0 Go_; Signal 0] worker =
    Some ({[ "s" := 0%nat ]}, 1, [Returned (Ret (Some (ErrText "unavailable")))]).
Proof. vm_compute. reflexivity. Qed.

Definition busy_worker : system := default worker (exec step busy worker).

Lemma sessions_bounded_witness :
  holding busy_worker = 1 ∧
  0 <= availableToken (bucket busy_worker) ∧
  availableToken (bucket busy_worker) + holding busy_worker = 1 ∧
  (∀ i a p, activities busy_worker !! i = Some a → result_of (at_ a) = Some (Panic p) →
     heartbeatInterval (heartbeatTimeout a) <= 0 ∧
     p = ErrorPanic "non-positive interval for NewTicker") ∧
  (pollers busy_worker ≠ [] → 0 < availableToken (bucket busy_worker) →
     (∀ i a, activities busy_worker !! i = Some a → signalling a = false) →
     ∃ w p, pollers busy_worker !! w = Some p ∧ p ≠ Asleep).
Proof.
  split; [vm_compute; reflexivity|].
  apply (sessions_bounded 1 "host" "resource" 2 busy busy_worker); [lia|vm_compute; reflexivity].
Defined.

Lemma session_released_witness :
  ∃ a y, activities busy_worker !! 0%nat = Some a ∧ at_ a = Running 0 ∧
    exec step [ArriveCompletion (sessionID a); Complete (length (activities busy_worker));
               Create 0 SelectDoneCh; Create 0 Go_; Signal 0] busy_worker = Some y ∧
    activities y !! 0%nat = Some (set_pc (Returned (Ret None)) a) ∧
    availableToken (bucket y) = availableToken (bucket busy_worker) + 1 ∧
    doneChanMap (environment y) = delete (sessionID a) (doneChanMap (environment busy_worker)).
Proof.
  exists (Activity "s" (30 * Second) None (Running 0)).
  destruct (session_released 1 "host" "resource" 2 busy_worker 0
    (Activity "s" (30 * Second) None (Running 0)) 0) as (y & Hy).
  - lia.
  - apply (exec_reachable step one_attempt busy _ worker); [apply reach_init|vm_compute; reflexivity].
  - vm_compute. reflexivity.
  - reflexivity.
  - exists y. split; [vm_compute; reflexivity|]. split; [reflexivity|exact Hy].
Defined.

End SampleSessions.
