(* ===== verification/ActivityOptions.v ===== *)
(** * Options of activities, and how an activity of a session is scheduled

    The options of an activity travel in the context as a pointer to a struct
    (internal/internal_activity.go, internal/workflow.go): the [With] functions
    copy it, validation and [ExecuteActivity] write into it.  The structs are
    entries of a heap here.  The objects of sessions (internal/session.go) are on
    the same heap, because [ExecuteActivity] reads them. *)

From Stdlib Require Import ZArith Lia.
From stdpp Require Import base list gmap strings option.
From S2P Require Import Prelude.
From S2P Require Import Shared.
From S2P Require Import Errors.
From S2P Require Import Environment.
From S2P Require Import Schedule.
From S2P Require Import Channels.
From S2P Require Import Contexts.

Local Open Scope Z_scope.

(** ** The heap *)

(** What contexts carry: pointers to options and to sessions, and the rest. *)
Inductive contextValue :=
| VOptions (p : nat)
| VSession (p : nat)
| VOther (v : goValue).
Abbreviation context := (ctx string contextValue).

(** The retry policy is kept inside the struct that points to it, because
    [setActivityParametersIfNotExist] copies it with the struct.  Fields that point
    into a policy of the caller have the values of the call. *)
Record activityOptions := MkActivityOptions {
  opt_ActivityID : option string;
  opt_TaskListName : string;
  opt_TaskListKind : TaskListKind;
  opt_ScheduleToCloseTimeoutSeconds : Z;
  opt_ScheduleToStartTimeoutSeconds : Z;
  opt_StartToCloseTimeoutSeconds : Z;
  opt_HeartbeatTimeoutSeconds : Z;
  opt_WaitForCancellation : bool;
  opt_OriginalTaskListName : string;
  opt_RetryPolicy : option Shared.RetryPolicy }.

Definition zeroOptions : activityOptions :=
  MkActivityOptions None "" TaskListKindNormal 0 0 0 0 false "" None.

Inductive sessionState := sessionStateOpen | sessionStateFailed | sessionStateClosed.
Global Instance sessionState_eq_dec : EqDecision sessionState.
Proof. solve_decision. Defined.

(** [sessionCancelFunc] is the context it cancels: its parent and its entry. *)
Record SessionInfo := MkSessionInfo {
  si_SessionID : string;
  si_HostName : string;
  si_resourceID : string;
  si_tasklist : string;
  si_sessionState : sessionState;
  si_sessionCancelFunc : option (context * nat);
  si_completionCtx : context }.

Record wheap := WHeap {
  contexts : Contexts.heap contextValue;
  optionStructs : list activityOptions;
  sessionInfos : list SessionInfo;
  openSessions : gmap string nat;
  scheduled : list executeActivityParams  (** the activities passed to the environment *) }.
Implicit Types (h : wheap) (o : activityOptions) (c : context) (p : nat).

Definition set_contexts x h := WHeap x (optionStructs h) (sessionInfos h) (openSessions h) (scheduled h).
Definition set_options x h := WHeap (contexts h) x (sessionInfos h) (openSessions h) (scheduled h).
Definition set_infos x h := WHeap (contexts h) (optionStructs h) x (openSessions h) (scheduled h).
Definition set_open x h := WHeap (contexts h) (optionStructs h) (sessionInfos h) x (scheduled h).
Definition set_scheduled x h := WHeap (contexts h) (optionStructs h) (sessionInfos h) (openSessions h) x.

(** ** Options in a context *)

Definition activityOptionsContextKey : string := "activityOptions".
Definition sessionInfoContextKey : string := "sessionInfo".

Definition getActivityOptions c : option nat :=
  match Value c activityOptionsContextKey with Some (VOptions p) => Some p | _ => None end.
Definition getSessionInfo c : option nat :=
  match Value c sessionInfoContextKey with Some (VSession p) => Some p | _ => None end.

Definition optionsAt p : M wheap activityOptions :=
  h ← get;
  match optionStructs h !! p with Some o => mret o | None => throw NilDereference end.
Definition updateOptions p (f : activityOptions → activityOptions) : M wheap unit :=
  modify (λ h, set_options (alter f p (optionStructs h)) h).

Definition setActivityParametersIfNotExist c : M wheap context :=
  newParams ← match getActivityOptions c with
              | Some p => optionsAt p
              | None => mret zeroOptions
              end;
  h ← get;
  modify (λ h, set_options (optionStructs h ++ [newParams]) h);;
  mret (WithValue c activityOptionsContextKey (VOptions (length (optionStructs h)))).

(** The [With] functions: they write one or more fields of the copy. *)
Definition withOptions (f : activityOptions → activityOptions) c : M wheap context :=
  c1 ← setActivityParametersIfNotExist c;
  match getActivityOptions c1 with
  | Some p => updateOptions p f;; mret c1
  | None => throw NilDereference
  end.

Definition set_TaskListName x o := MkActivityOptions (opt_ActivityID o) x (opt_TaskListKind o)
  (opt_ScheduleToCloseTimeoutSeconds o) (opt_ScheduleToStartTimeoutSeconds o)
  (opt_StartToCloseTimeoutSeconds o) (opt_HeartbeatTimeoutSeconds o) (opt_WaitForCancellation o)
  (opt_OriginalTaskListName o) (opt_RetryPolicy o).
Definition set_TaskListKind x o := MkActivityOptions (opt_ActivityID o) (opt_TaskListName o) x
  (opt_ScheduleToCloseTimeoutSeconds o) (opt_ScheduleToStartTimeoutSeconds o)
  (opt_StartToCloseTimeoutSeconds o) (opt_HeartbeatTimeoutSeconds o) (opt_WaitForCancellation o)
  (opt_OriginalTaskListName o) (opt_RetryPolicy o).
Definition set_timeouts close start run heartbeat o :=
  MkActivityOptions (opt_ActivityID o) (opt_TaskListName o) (opt_TaskListKind o) close start run
    heartbeat (opt_WaitForCancellation o) (opt_OriginalTaskListName o) (opt_RetryPolicy o).
Definition set_ScheduleToClose x o := set_timeouts x (opt_ScheduleToStartTimeoutSeconds o)
  (opt_StartToCloseTimeoutSeconds o) (opt_HeartbeatTimeoutSeconds o) o.
Definition set_WaitForCancellation x o := MkActivityOptions (opt_ActivityID o) (opt_TaskListName o)
  (opt_TaskListKind o) (opt_ScheduleToCloseTimeoutSeconds o) (opt_ScheduleToStartTimeoutSeconds o)
  (opt_StartToCloseTimeoutSeconds o) (opt_HeartbeatTimeoutSeconds o) x (opt_OriginalTaskListName o)
  (opt_RetryPolicy o).
Definition set_RetryPolicy x o := MkActivityOptions (opt_ActivityID o) (opt_TaskListName o)
  (opt_TaskListKind o) (opt_ScheduleToCloseTimeoutSeconds o) (opt_ScheduleToStartTimeoutSeconds o)
  (opt_StartToCloseTimeoutSeconds o) (opt_HeartbeatTimeoutSeconds o) (opt_WaitForCancellation o)
  (opt_OriginalTaskListName o) x.

(** Whole seconds, rounded up. *)
Definition seconds (d : Z) : Z := Int32Ceil (Seconds d).

Definition convertRetryPolicy (retryPolicy : option RetryPolicy) : option Shared.RetryPolicy :=
  p ← retryPolicy;
  let coefficient := if float_is_zero (rp_BackoffCoefficient p) then defaultCoefficient
                     else rp_BackoffCoefficient p in
  Some (MkRetryPolicy (Some (seconds (rp_InitialInterval p))) (Some coefficient)
          (Some (seconds (rp_MaximumInterval p))) (Some (rp_MaximumAttempts p))
          (rp_NonRetriableErrorReasons p) (Some (seconds (rp_ExpirationInterval p)))).

Record ActivityOptions := SdkActivityOptions {
  ao_TaskList : string;
  ao_ScheduleToCloseTimeout : Z;
  ao_ScheduleToStartTimeout : Z;
  ao_StartToCloseTimeout : Z;
  ao_HeartbeatTimeout : Z;
  ao_WaitForCancellation : bool;
  ao_ActivityID : string;
  ao_RetryPolicy : option RetryPolicy }.

Definition WithActivityOptions c (ao : ActivityOptions) : M wheap context :=
  withOptions (λ eap,
    MkActivityOptions (Some (ao_ActivityID ao)) (ao_TaskList ao) (opt_TaskListKind eap)
      (seconds (ao_ScheduleToCloseTimeout ao)) (seconds (ao_ScheduleToStartTimeout ao))
      (seconds (ao_StartToCloseTimeout ao)) (seconds (ao_HeartbeatTimeout ao))
      (ao_WaitForCancellation ao) (opt_OriginalTaskListName eap)
      (convertRetryPolicy (ao_RetryPolicy ao))) c.

Definition WithTaskList c (name : string) : M wheap context := withOptions (set_TaskListName name) c.
Definition WithScheduleToCloseTimeout c (d : Z) : M wheap context :=
  withOptions (set_ScheduleToClose (seconds d)) c.
Definition WithScheduleToStartTimeout c (d : Z) : M wheap context :=
  withOptions (λ o, set_timeouts (opt_ScheduleToCloseTimeoutSeconds o) (seconds d)
    (opt_StartToCloseTimeoutSeconds o) (opt_HeartbeatTimeoutSeconds o) o) c.
Definition WithStartToCloseTimeout c (d : Z) : M wheap context :=
  withOptions (λ o, set_timeouts (opt_ScheduleToCloseTimeoutSeconds o)
    (opt_ScheduleToStartTimeoutSeconds o) (seconds d) (opt_HeartbeatTimeoutSeconds o) o) c.
Definition WithHeartbeatTimeout c (d : Z) : M wheap context :=
  withOptions (λ o, set_timeouts (opt_ScheduleToCloseTimeoutSeconds o)
    (opt_ScheduleToStartTimeoutSeconds o) (opt_StartToCloseTimeoutSeconds o) (seconds d) o) c.
Definition WithWaitForCancellation c (wait : bool) : M wheap context :=
  withOptions (set_WaitForCancellation wait) c.
Definition WithRetryPolicy c (retryPolicy : RetryPolicy) : M wheap context :=
  withOptions (set_RetryPolicy (convertRetryPolicy (Some retryPolicy))) c.

(** ** Validation *)

(** [f < 1] on the bit pattern of a float64: the positive numbers below one and
    everything with a sign down to minus infinity. *)
Definition lessThanOne (bits : Z) : bool :=
  bool_decide (bits < 0x3FF0000000000000 ∨ 2 ^ 63 <= bits <= 2 ^ 63 + 0x7FF0000000000000).

Definition set_MaximumInterval x (p : Shared.RetryPolicy) : Shared.RetryPolicy :=
  MkRetryPolicy (RetryPolicy_InitialIntervalInSeconds p) (RetryPolicy_BackoffCoefficient p) x
    (RetryPolicy_MaximumAttempts p) (RetryPolicy_NonRetriableErrorReasons p)
    (RetryPolicy_ExpirationIntervalInSeconds p).

(** Returns the error and the policy as it is left. *)
Definition validateRetryPolicy (p : option Shared.RetryPolicy)
    : option goError * option Shared.RetryPolicy :=
  match p with
  | None => (None, None)
  | Some p =>
      let initial := default 0 (RetryPolicy_InitialIntervalInSeconds p) in
      let maximum := default 0 (RetryPolicy_MaximumIntervalInSeconds p) in
      let fail msg (p : Shared.RetryPolicy) := (Some (ErrText msg), Some p) in
      if bool_decide (initial <= 0) then
        fail "missing or negative InitialIntervalInSeconds on retry policy" p
      else if bool_decide (maximum < 0) then
        fail "negative MaximumIntervalInSeconds on retry policy is invalid" p
      else
      let p := if bool_decide (maximum = 0)
               then set_MaximumInterval (Some (int32 (100 * initial))) p else p in
      if bool_decide (default 0 (RetryPolicy_MaximumAttempts p) < 0) then
        fail "negative MaximumAttempts on retry policy is invalid" p
      else if bool_decide (default 0 (RetryPolicy_ExpirationIntervalInSeconds p) < 0) then
        fail "ExpirationIntervalInSeconds cannot be less than 0 on retry policy" p
      else if lessThanOne (default 0 (RetryPolicy_BackoffCoefficient p)) then
        fail "BackoffCoefficient on retry policy cannot be less than 1.0" p
      else if bool_decide (default 0 (RetryPolicy_MaximumAttempts p) = 0 ∧
                           default 0 (RetryPolicy_ExpirationIntervalInSeconds p) = 0) then
        fail "both MaximumAttempts and ExpirationIntervalInSeconds on retry policy are not set, at least one of them must be set" p
      else (None, Some p)
  end.

Definition errActivityParamsBadRequest : goError :=
  ErrText "missing activity parameters through context, check ActivityOptions".

(** The checks on the struct: the error, and the struct as they leave it. *)
Definition checkOptions o : option goError * activityOptions :=
  let o := if bool_decide (opt_TaskListName o = "")
           then set_TaskListName (opt_OriginalTaskListName o) o else o in
  if bool_decide (opt_ScheduleToStartTimeoutSeconds o <= 0) then
    (Some (ErrText "missing or negative ScheduleToStartTimeoutSeconds"), o)
  else if bool_decide (opt_StartToCloseTimeoutSeconds o <= 0) then
    (Some (ErrText "missing or negative StartToCloseTimeoutSeconds"), o)
  else if bool_decide (opt_ScheduleToCloseTimeoutSeconds o < 0) then
    (Some (ErrText "invalid negative ScheduleToCloseTimeoutSeconds"), o)
  else
  let o := if bool_decide (opt_ScheduleToCloseTimeoutSeconds o = 0)
           then set_ScheduleToClose (int32 (opt_ScheduleToStartTimeoutSeconds o +
                                            opt_StartToCloseTimeoutSeconds o)) o else o in
  if bool_decide (opt_HeartbeatTimeoutSeconds o < 0) then
    (Some (ErrText "invalid negative HeartbeatTimeoutSeconds"), o)
  else
  let '(err, policy) := validateRetryPolicy (opt_RetryPolicy o) in (err, set_RetryPolicy policy o).

Definition getValidatedActivityOptions c : M wheap (goError + nat) :=
  match getActivityOptions c with
  | None => mret (inl errActivityParamsBadRequest)
  | Some p =>
      o ← optionsAt p;
      updateOptions p (λ _, snd (checkOptions o));;
      mret (match fst (checkOptions o) with Some err => inl err | None => inr p end)
  end.

(** ** Scheduling an activity *)

Definition sessionCreationActivityName : string := "internalSessionCreationActivity".
Definition sessionCompletionActivityName : string := "internalSessionCompletionActivity".
Definition isSessionCreationActivity (activity : string) : bool :=
  bool_decide (activity = sessionCreationActivityName).
Definition ErrSessionFailed : goError := ErrText "session has failed".

Definition infoAt p : M wheap SessionInfo :=
  h ← get;
  match sessionInfos h !! p with Some i => mret i | None => throw NilDereference end.

Definition sessionOf c : M wheap (option SessionInfo) :=
  match getSessionInfo c with Some p => i ← infoAt p; mret (Some i) | None => mret None end.

Definition in_state (s : sessionState) (i : option SessionInfo) : bool :=
  match i with Some i => bool_decide (si_sessionState i = s) | None => false end.
Definition tasklist_of (i : option SessionInfo) : string :=
  match i with Some i => si_tasklist i | None => "" end.

Definition toParams o (activityType : string) (input : bytes) (header : option Header)
    : executeActivityParams :=
  MkExecuteActivityParams (opt_ActivityID o) (opt_TaskListName o) (opt_TaskListKind o)
    (opt_ScheduleToCloseTimeoutSeconds o) (opt_ScheduleToStartTimeoutSeconds o)
    (opt_StartToCloseTimeoutSeconds o) (opt_HeartbeatTimeoutSeconds o) (opt_WaitForCancellation o)
    (opt_RetryPolicy o) activityType input header.

Section execute.
Context (ephemeralTaskLists : bool) (header : context → option Header).

(** [ExecuteActivity] of the interceptor up to the call of the environment; an
    error becomes the value of the future.  [validated] is the result of
    [getValidatedActivityFunction], [encoded] that of [encodeArgs]. *)
Definition executeActivity (validated : goError + string) (encoded : string + bytes)
    (typeName : string) c : M wheap (goError + executeActivityParams) :=
  match validated with
  | inl err => mret (inl err)
  | inr activityType =>
  r ← getValidatedActivityOptions c;
  match r with
  | inl err => mret (inl err)
  | inr p =>
  info ← sessionOf c;
  let user := negb (isSessionCreationActivity typeName) in
  if in_state sessionStateFailed info && user then mret (inl ErrSessionFailed) else
  old ← optionsAt p;
  let inSession := in_state sessionStateOpen info && user in
  (if inSession then
     updateOptions p (λ o,
       (if ephemeralTaskLists then set_TaskListKind TaskListKindEphemeral else id)
         (set_TaskListName (tasklist_of info) o))
   else mret tt);;
  let restore := if inSession then
      updateOptions p (λ o,
        set_TaskListKind TaskListKindNormal (set_TaskListName (opt_TaskListName old) o))
    else mret tt in
  match encoded with
  | inl err => restore;; throw (ErrorPanic err)
  | inr input =>
      o ← optionsAt p;
      let params := toParams o activityType input (header c) in
      modify (λ h, set_scheduled (scheduled h ++ [params]) h);;
      restore;;
      mret (inr params)
  end end end.

End execute.
