(* ===== verification/SessionWorkflow.v ===== *)
(** * Sessions in a workflow

    internal/session.go, the side of the workflow: creating, recreating and
    completing a session.  Workflow code runs as coroutines; what
    one of them does between two points where it blocks is one operation. *)

From Stdlib Require Import ZArith Lia.
From stdpp Require Import base list gmap strings option fin_sets fin_maps.
From S2P Require Import Prelude.
From S2P Require Import Shared.
From S2P Require Import Errors.
From S2P Require Import Environment.
From S2P Require Import Schedule.
From S2P Require Import Channels.
From S2P Require Import Contexts.
From S2P Require Import Session.
From S2P Require Import ActivityOptions.

Local Open Scope Z_scope.
Implicit Types (h : wheap) (c : context) (p : nat) (i : SessionInfo).

(** ** Contexts and session objects *)

Definition on_contexts {A} (m : M (Contexts.heap contextValue) A) : M wheap A :=
  λ h, let '(o, σ) := m (contexts h) in (o, set_contexts σ h).

(** Enough for a cancellation, which visits every context at most once. *)
Definition ctx_fuel h : nat := S (S (length (cancels (contexts h)))).

Definition newDone h : nat := fresh (dom (Channels.channels (chans (contexts h)))).

Definition withCancel c : M wheap context :=
  h ← get; on_contexts (Contexts.WithCancel (ctx_fuel h) (newDone h) c).
Definition callCancel (f : context * nat) : M wheap unit :=
  h ← get; on_contexts (CancelFunc (ctx_fuel h) (fst f) (snd f)).

Definition updateInfo p (f : SessionInfo → SessionInfo) : M wheap unit :=
  modify (λ h, set_infos (alter f p (sessionInfos h)) h).
Definition set_state s i := MkSessionInfo (si_SessionID i) (si_HostName i) (si_resourceID i)
  (si_tasklist i) s (si_sessionCancelFunc i) (si_completionCtx i).
Definition set_established (r : sessionCreationResponse) (f : context * nat) i :=
  MkSessionInfo (si_SessionID i) (resp_HostName r) (resp_ResourceID r) (resp_Tasklist r)
    (si_sessionState i) (Some f) (si_completionCtx i).

(** Of the workflow environment. *)
Definition AddSession (id : string) p : M wheap unit :=
  modify (λ h, set_open (<[id := p]> (openSessions h)) h).
Definition RemoveSession (id : string) : M wheap unit :=
  modify (λ h, set_open (delete id (openSessions h)) h).

Definition setSessionInfo c p : context := WithValue c sessionInfoContextKey (VSession p).

(** ** Creating a session *)

Record SessionOptions := MkSessionOptions {
  so_ExecutionTimeout : Z; so_CreationTimeout : Z; so_HeartbeatTimeout : Z }.

Definition Second : Z := 1000000000.
Definition defaultSessionHeartbeatTimeout : Z := 20 * Second.
Definition errFoundExistingOpenSession : goError := ErrText "found exisiting open session in the context".

(** The coefficient is the bit pattern of 1.1. *)
Definition creationRetryPolicy (options : SessionOptions) : RetryPolicy :=
  SdkRetryPolicy Second 0x3FF199999999999A (10 * Second) (so_CreationTimeout options) 0
    (Some ["cadenceInternal:Panic"; "cadenceInternal:Generic";
           "cadenceInternal:Timeout START_TO_CLOSE"; "cadenceInternal:Timeout HEARTBEAT"]).

Definition creationOptions (creationTasklist : string) (options : SessionOptions) (retryable : bool)
    : ActivityOptions :=
  let heartbeatTimeout := if bool_decide (so_HeartbeatTimeout options = 0)
                          then defaultSessionHeartbeatTimeout else so_HeartbeatTimeout options in
  SdkActivityOptions creationTasklist 0 (so_CreationTimeout options) (so_ExecutionTimeout options)
    heartbeatTimeout false "" (if retryable then Some (creationRetryPolicy options) else None).

(** A session that is being created: its object, its context and what became of
    the creation activity. *)
Record creation := Creation {
  cr_info : nat;
  cr_parent : context;   (** the completion context, parent of the session context *)
  cr_id : nat;
  cr_activity : goError + executeActivityParams }.

Section sessions.
Context (ephemeralTaskLists : bool) (header : context → option Header).
Context (validated : string → goError + string) (encoded : string → string + bytes).

Definition ExecuteActivity (typeName arg : string) c : M wheap (goError + executeActivityParams) :=
  executeActivity ephemeralTaskLists header (validated typeName) (encoded arg) typeName c.

(** [createSession] up to [Select]; [generated] is what [generateSessionID]
    returns. *)
Definition createSession (generated : goError + string) c (creationTasklist : string)
    (options : SessionOptions) (retryable : bool) : M wheap (goError + creation) :=
  prev ← sessionOf c;
  if in_state sessionStateOpen prev then mret (inl errFoundExistingOpenSession) else
  match generated with
  | inl err => mret (inl err)
  | inr sessionID =>
      h ← get;
      let p := length (sessionInfos h) in
      let completionCtx := setSessionInfo c p in
      modify (λ h, set_infos (sessionInfos h ++
        [MkSessionInfo sessionID "" "" "" sessionStateOpen None completionCtx]) h);;
      let id := length (cancels (contexts h)) in
      sessionCtx ← withCancel completionCtx;
      creationCtx ← WithActivityOptions sessionCtx (creationOptions creationTasklist options retryable);
      a ← ExecuteActivity sessionCreationActivityName sessionID creationCtx;
      mret (inr (Creation p completionCtx id a))
  end.

Definition CreateSession (generated : goError + string) c (options : SessionOptions)
    : M wheap (goError + creation) :=
  match getActivityOptions c with
  | None => throw NilDereference
  | Some p =>
      o ← optionsAt p;
      let base := if bool_decide (opt_TaskListName o = "") then opt_OriginalTaskListName o
                  else opt_TaskListName o in
      createSession generated c (getCreationTasklist base) options true
  end.

(** The case that [Select] runs. *)
Inductive selected :=
| CreationSignal (response : sessionCreationResponse)
| CreationDone (err : option goError).

(** [createSession] after [Select].  The coroutine that watches the creation
    activity is started on success. *)
Definition createSession_selected (cr : creation) (s : selected) : M wheap (goError + context) :=
  let cancelFunc := (cr_parent cr, cr_id cr) in
  let established r :=
    updateInfo (cr_info cr) (set_established r cancelFunc);;
    i ← infoAt (cr_info cr);
    AddSession (si_SessionID i) (cr_info cr);;
    mret (inr (CancelCtx (cr_parent cr) (cr_id cr))) in
  match s with
  | CreationDone (Some err) => callCancel cancelFunc;; mret (inl err)
  | CreationDone None => established (CreationResponse "" "" "")
  | CreationSignal r => established r
  end.

(** That coroutine, when the creation activity has ended. *)
Definition watchCreation p (err : option goError) : M wheap unit :=
  match err with
  | None | Some (ErrCanceled _) => mret tt
  | Some _ =>
      i ← infoAt p;
      RemoveSession (si_SessionID i);;
      updateInfo p (set_state sessionStateFailed);;
      match si_sessionCancelFunc i with
      | Some f => callCancel f
      | None => throw NilDereference
      end
  end.

(** ** Completing a session *)

Definition completionOptions : ActivityOptions :=
  SdkActivityOptions "" 0 (3 * Second) (3 * Second) 0 false "" None.

(** [CompleteSession] up to its wait for the completion activity: the session, if
    there is something to complete. *)
Definition CompleteSession c : M wheap (option nat) :=
  match getSessionInfo c with
  | None => mret None
  | Some p =>
      i ← infoAt p;
      if bool_decide (si_sessionState i ≠ sessionStateOpen) then mret None else
      match si_sessionCancelFunc i with
      | None => throw NilDereference
      | Some f =>
          callCancel f;;
          completionCtx ← WithActivityOptions (si_completionCtx i) completionOptions;
          ExecuteActivity sessionCompletionActivityName (si_SessionID i) completionCtx;;
          mret (Some p)
      end
  end.

(** After the wait, whatever the result. *)
Definition CompleteSession_done p : M wheap unit :=
  updateInfo p (set_state sessionStateClosed);;
  i ← infoAt p;
  RemoveSession (si_SessionID i).

(** ** Recreating a session *)

Context {dc : DataConverter}.

(** [recreateSessionParams] has one field. *)
Definition mustSerializeRecreateToken (tasklist : string) : outcome bytes :=
  match ToData [GStruct [inl tasklist]] with
  | inl err => Panic (ErrorPanic err)
  | inr token => Ret token
  end.
Definition GetRecreateToken i : outcome bytes := mustSerializeRecreateToken (si_tasklist i).

Definition deserializeRecreateToken (token : bytes) : string + string :=
  match FromData token [TStruct] with
  | inl err => inl err
  | inr [GStruct [inl tasklist]] => inr tasklist
  | inr _ => inr ""
  end.

Definition RecreateSession (generated : goError + string) c (recreateToken : bytes)
    (options : SessionOptions) : M wheap (goError + creation) :=
  match deserializeRecreateToken recreateToken with
  | inl err => mret (inl (ErrText ("failed to deserilalize recreate token: " +:+ err)))
  | inr tasklist => createSession generated c tasklist options true
  end.

End sessions.
