(* ===== verification/SessionWorkflowProps.v ===== *)
(** * Sessions in a workflow: theorems

    How activities are scheduled with the options of their context and the state
    of their session, and the states that a session goes through while the
    coroutines of a workflow create, watch and complete sessions in any order. *)

From Stdlib Require Import ZArith Lia.
From stdpp Require Import base list gmap strings option fin_sets relations.
From S2P Require Import Prelude.
From S2P Require Import Shared.
From S2P Require Import Errors.
From S2P Require Import Environment.
From S2P Require Import Schedule.
From S2P Require Import Channels.
From S2P Require Import Contexts.
From S2P Require Import ContextsProps.
From S2P Require Import Session.
From S2P Require Import ActivityOptions.
From S2P Require Import SessionWorkflow.

Implicit Types (h : wheap) (o : activityOptions) (c : context) (p q : nat) (i : SessionInfo).

(** ** Options *)

Definition optionsOf h c : activityOptions :=
  default zeroOptions (getActivityOptions c ≫= λ p, optionStructs h !! p).
Definition options_known h c : Prop :=
  ∀ p, getActivityOptions c = Some p → p < length (optionStructs h).

(** A [With] function leaves every struct alone and returns a context with a
    struct of its own. *)
Lemma withOptions_run f c h :
  options_known h c →
  ∃ c', withOptions f c h =
      (Ret c', set_options (optionStructs h ++ [f (optionsOf h c)]) h) ∧
    getActivityOptions c' = Some (length (optionStructs h)) ∧
    getSessionInfo c' = getSessionInfo c ∧ parentCancelCtx c' = parentCancelCtx c.
Proof.
  intros Hk. exists (WithValue c activityOptionsContextKey (VOptions (length (optionStructs h)))).
  split; [|done]. unfold withOptions, setActivityParametersIfNotExist.
  assert (∀ o, alter f (length (optionStructs h)) (optionStructs h ++ [o]) =
    optionStructs h ++ [f o]) as Halter.
  { intros o. by rewrite alter_app_r_alt, Nat.sub_diag by lia. }
  unfold optionsOf. destruct (getActivityOptions c) as [p|] eqn:Hp.
  - destruct (lookup_lt_is_Some_2 _ _ (Hk p Hp)) as [o Ho]. unfold optionsAt, updateOptions. run.
    rewrite Ho. unfold getActivityOptions. simpl. rewrite Ho. simpl. by rewrite Halter.
  - unfold updateOptions. run. unfold getActivityOptions. simpl. by rewrite Halter.
Qed.

Lemma optionsAt_run p o h : optionStructs h !! p = Some o → optionsAt p h = (Ret o, h).
Proof. intros Ho. unfold optionsAt. run. by rewrite Ho. Qed.

Lemma alter_insert {A} (l : list A) p a f : l !! p = Some a → alter f p l = <[p := f a]> l.
Proof.
  intros Ha. apply list_eq. intros j. destruct (decide (j = p)) as [->|].
  - rewrite list_lookup_alter_eq, Ha, list_lookup_insert_eq; [done|]. by eapply lookup_lt_Some.
  - by rewrite list_lookup_alter_ne, list_lookup_insert_ne.
Qed.

Lemma updateOptions_run p o f h :
  optionStructs h !! p = Some o →
  updateOptions p f h = (Ret tt, set_options (<[p := f o]> (optionStructs h)) h).
Proof. intros Ho. unfold updateOptions. run. by rewrite (alter_insert _ _ o). Qed.

(** ** Valid options *)

Definition valid_policy (p : Shared.RetryPolicy) : Prop :=
  (0 < default 0 (RetryPolicy_InitialIntervalInSeconds p) ∧
   0 <= default 0 (RetryPolicy_MaximumAttempts p) ∧
   0 <= default 0 (RetryPolicy_ExpirationIntervalInSeconds p) ∧
   (0 < default 0 (RetryPolicy_MaximumAttempts p) ∨
    0 < default 0 (RetryPolicy_ExpirationIntervalInSeconds p)))%Z ∧
  lessThanOne (default 0%Z (RetryPolicy_BackoffCoefficient p)) = false.

Record valid_options o o' : Prop := {
  vo_task_list : opt_TaskListName o' =
    if bool_decide (opt_TaskListName o = "") then opt_OriginalTaskListName o else opt_TaskListName o;
  vo_start : (0 < opt_ScheduleToStartTimeoutSeconds o')%Z;
  vo_run : (0 < opt_StartToCloseTimeoutSeconds o')%Z;
  vo_close : opt_ScheduleToCloseTimeoutSeconds o' =
    if bool_decide (opt_ScheduleToCloseTimeoutSeconds o = 0%Z)
    then int32 (opt_ScheduleToStartTimeoutSeconds o + opt_StartToCloseTimeoutSeconds o)
    else opt_ScheduleToCloseTimeoutSeconds o;
  vo_given : (0 <= opt_ScheduleToCloseTimeoutSeconds o)%Z;
  vo_close_positive :
    (opt_ScheduleToStartTimeoutSeconds o + opt_StartToCloseTimeoutSeconds o < 2 ^ 31)%Z →
    (0 < opt_ScheduleToCloseTimeoutSeconds o')%Z;
  vo_heartbeat : (0 <= opt_HeartbeatTimeoutSeconds o')%Z;
  vo_policy : ∀ r, opt_RetryPolicy o' = Some r → valid_policy r;
  vo_same : (opt_ScheduleToStartTimeoutSeconds o', opt_StartToCloseTimeoutSeconds o',
    opt_HeartbeatTimeoutSeconds o', opt_ActivityID o', opt_WaitForCancellation o',
    opt_OriginalTaskListName o', opt_TaskListKind o') =
    (opt_ScheduleToStartTimeoutSeconds o, opt_StartToCloseTimeoutSeconds o,
     opt_HeartbeatTimeoutSeconds o, opt_ActivityID o, opt_WaitForCancellation o,
     opt_OriginalTaskListName o, opt_TaskListKind o) }.

Lemma validateRetryPolicy_ok (p p' : option Shared.RetryPolicy) (q : Shared.RetryPolicy) :
  validateRetryPolicy p = (None, p') → p' = Some q → valid_policy q.
Proof.
  unfold validateRetryPolicy. destruct p as [p|]; [|by intros [= <-]].
  intros Hv ->. revert Hv. do 2 (case_bool_decide; [done|]).
  set (p1 := if bool_decide (default 0%Z (RetryPolicy_MaximumIntervalInSeconds p) = 0%Z) then _ else p).
  assert (RetryPolicy_InitialIntervalInSeconds p1 = RetryPolicy_InitialIntervalInSeconds p) as Hi
    by (unfold p1; by case_bool_decide).
  clearbody p1. do 2 (case_bool_decide; [done|]). destruct (lessThanOne _) eqn:Hl; [done|].
  case_bool_decide; [done|]. intros [= <-]. unfold valid_policy. rewrite Hi, Hl. split; [lia|done].
Qed.

Lemma checkOptions_ok o o' : checkOptions o = (None, o') → valid_options o o'.
Proof.
  unfold checkOptions.
  set (o1 := if bool_decide (opt_TaskListName o = "") then _ else o).
  assert (opt_TaskListName o1 =
    (if bool_decide (opt_TaskListName o = "") then opt_OriginalTaskListName o else opt_TaskListName o) ∧
    opt_OriginalTaskListName o1 = opt_OriginalTaskListName o ∧
    opt_ScheduleToStartTimeoutSeconds o1 = opt_ScheduleToStartTimeoutSeconds o ∧
    opt_StartToCloseTimeoutSeconds o1 = opt_StartToCloseTimeoutSeconds o ∧
    opt_ScheduleToCloseTimeoutSeconds o1 = opt_ScheduleToCloseTimeoutSeconds o ∧
    opt_HeartbeatTimeoutSeconds o1 = opt_HeartbeatTimeoutSeconds o ∧
    opt_ActivityID o1 = opt_ActivityID o ∧ opt_WaitForCancellation o1 = opt_WaitForCancellation o ∧
    opt_TaskListKind o1 = opt_TaskListKind o)
    as (Htl & Ho & Hs & Hr & Hc & Hh & Hid & Hw & Hk) by (unfold o1; by case_bool_decide).
  clearbody o1. set (name := if bool_decide (opt_TaskListName o = "") then _ else _) in Htl.
  do 3 (case_bool_decide; [done|]). rewrite Hs, Hr, Hc in *.
  destruct (decide (opt_ScheduleToCloseTimeoutSeconds o = 0%Z)) as [Hz|Hz];
    [rewrite (bool_decide_true _ Hz)|rewrite (bool_decide_false _ Hz)];
    simpl; (case_bool_decide; [done|]);
    destruct (validateRetryPolicy _) as [err policy] eqn:Hv; intros [= -> <-];
    constructor; simpl; rewrite ?Htl, ?Ho, ?Hs, ?Hr, ?Hc, ?Hh, ?Hid, ?Hw, ?Hk; try done; try lia;
    try (by rewrite ?bool_decide_true, ?bool_decide_false by done);
    try (intros ?; rewrite ?int32_id by (unfold in_int32; lia); lia);
    intros p' Hp'; by eapply validateRetryPolicy_ok.
Qed.

(** ** Scheduling an activity *)

Definition infoOf h c : option SessionInfo := getSessionInfo c ≫= λ p, sessionInfos h !! p.
Definition session_known h c : Prop := ∀ p, getSessionInfo c = Some p → p < length (sessionInfos h).

Lemma sessionOf_run c h : session_known h c → sessionOf c h = (Ret (infoOf h c), h).
Proof.
  intros Hk. unfold sessionOf, infoOf, session_known in *.
  destruct (getSessionInfo c) as [p|]; [|done].
  destruct (lookup_lt_is_Some_2 _ _ (Hk p eq_refl)) as [i Hi]. unfold infoAt. run. simpl.
  by rewrite Hi.
Qed.

(** The struct that an activity of a session is scheduled with. *)
Definition in_session (ephemeral : bool) (tasklist : string) o : activityOptions :=
  (if ephemeral then set_TaskListKind TaskListKindEphemeral else id) (set_TaskListName tasklist o).

Definition with_struct p o h : wheap := set_options (<[p := o]> (optionStructs h)) h.
Definition with_activity (params : executeActivityParams) h : wheap :=
  set_scheduled (scheduled h ++ [params]) h.

Lemma with_struct_update p f o h :
  p < length (optionStructs h) → updateOptions p f (with_struct p o h) = (Ret tt, with_struct p (f o) h).
Proof.
  intros Hlt. rewrite (updateOptions_run p o) by (by apply list_lookup_insert_eq).
  unfold with_struct. simpl. by rewrite list_insert_insert_eq.
Qed.

Section routing.
Context (ephemeral : bool) (header : context → option Header).

(** C24: how an activity is scheduled, for every state of its session.  The struct
    of options of the context is checked first and left with its defaults.  In a
    failed session the result is [ErrSessionFailed] and nothing is scheduled; in an
    open one the activity goes to the task list of the worker that runs the
    session, and the struct has its own task list again afterwards; in a closed one,
    or without a session, it goes to the task list of the options.  The activity
    that creates a session is never routed by it.  What is scheduled has a
    positive schedule-to-start and start-to-close timeout, a heartbeat timeout that
    is not negative, and a retry policy with a limit of attempts or of time; its
    schedule-to-close timeout is the given one or the sum of the other two as an
    int32, which is positive only when the sum fits ([default_timeout_wraps]). *)
Theorem activity_routed ty input name c h p o :
  getActivityOptions c = Some p → optionStructs h !! p = Some o → session_known h c →
  let user := negb (isSessionCreationActivity name) in
  let '(err, o') := checkOptions o in
  let schedule o1 o2 := let params := toParams o1 ty input (header c) in
    (Ret (inr params), with_activity params (with_struct p o2 h)) in
  executeActivity ephemeral header (inr ty) (inr input) name c h =
    match err with
    | Some err => (Ret (inl err), with_struct p o' h)
    | None =>
        if in_state sessionStateFailed (infoOf h c) && user then
          (Ret (inl ErrSessionFailed), with_struct p o' h)
        else if in_state sessionStateOpen (infoOf h c) && user then
          schedule (in_session ephemeral (tasklist_of (infoOf h c)) o')
            (set_TaskListKind TaskListKindNormal o')
        else schedule o' o'
    end ∧
  (err = None → valid_options o o').
Proof.
  intros Hp Ho Hk user. destruct (checkOptions o) as [err o'] eqn:Hchk.
  split; [|intros ->; by apply checkOptions_ok].
  pose proof (lookup_lt_Some _ _ _ Ho) as Hlt.
  assert (∀ x, optionStructs (with_struct p x h) !! p = Some x) as Hp'
    by (intros x; by apply list_lookup_insert_eq).
  unfold executeActivity, getValidatedActivityOptions. rewrite Hp. run.
  rewrite (optionsAt_run _ _ _ Ho), (updateOptions_run _ _ _ _ Ho). run. rewrite Hchk. simpl.
  fold (with_struct p o' h). destruct err as [err|]; [done|].
  rewrite sessionOf_run by exact Hk. run.
  change (infoOf (with_struct p o' h) c) with (infoOf h c). fold user.
  destruct (in_state sessionStateFailed (infoOf h c) && user); [done|].
  rewrite (optionsAt_run _ _ _ (Hp' o')). run.
  destruct (in_state sessionStateOpen (infoOf h c) && user).
  - rewrite with_struct_update by done. run.
    fold (in_session ephemeral (tasklist_of (infoOf h c)) o').
    set (o1 := in_session ephemeral (tasklist_of (infoOf h c)) o').
    rewrite (optionsAt_run _ _ _ (Hp' o1)). run.
    rewrite (updateOptions_run p o1) by (simpl; by apply list_lookup_insert_eq). run.
    unfold with_activity, with_struct. simpl. rewrite list_insert_insert_eq.
    do 3 f_equal. unfold o1, in_session. by destruct ephemeral.
  - by rewrite (optionsAt_run _ _ _ (Hp' o')).
Qed.

End routing.

(** ** What options and activities leave alone *)

Definition core h := (contexts h, sessionInfos h, openSessions h).

Lemma core_modify f x : (∀ h, core (f h) = core h) → pres (λ h, core h = x) (modify f).
Proof. intros Hf. apply pres_modify. intros h. by rewrite Hf. Qed.

Lemma core_executeActivity ephemeral header validated encoded name c x :
  pres (λ h, core h = x) (executeActivity ephemeral header validated encoded name c).
Proof.
  assert (∀ p, pres (λ h, core h = x) (optionsAt p)) as H1.
  { intros p. apply pres_bind; [apply pres_get|]. intros h. destruct (_ !! _); auto with pres. }
  assert (∀ p f, pres (λ h, core h = x) (updateOptions p f)) as H2.
  { intros p f. by apply core_modify. }
  assert (pres (λ h, core h = x) (sessionOf c)) as H3.
  { unfold sessionOf. destruct (getSessionInfo c) as [p|]; [|auto with pres].
    apply pres_bind; [|auto with pres]. apply pres_bind; [apply pres_get|].
    intros h. destruct (_ !! _); auto with pres. }
  assert (∀ params, pres (λ h, core h = x) (modify (with_activity params))) as H4.
  { intros params. by apply core_modify. }
  unfold executeActivity, getValidatedActivityOptions.
  destruct validated; [auto with pres|]. apply pres_bind.
  { destruct (getActivityOptions c); [|auto with pres]. auto with pres. }
  intros [?|p]; [auto with pres|]. apply pres_bind; [done|]. intros info.
  destruct (_ && _); [auto with pres|]. apply pres_bind; [done|]. intros old.
  apply pres_bind; [destruct (_ && _); auto with pres|]. intros _.
  destruct encoded; (apply pres_bind; [|intros ?]); try destruct (_ && _); auto with pres.
  all: apply pres_bind; [apply H4|intros _]; apply pres_bind; auto with pres.
Qed.

Lemma core_withOptions f c x : pres (λ h, core h = x) (withOptions f c).
Proof.
  unfold withOptions, setActivityParametersIfNotExist, updateOptions. apply pres_bind.
  - apply pres_bind.
    + destruct (getActivityOptions c); [|auto with pres]. apply pres_bind; [apply pres_get|].
      intros h. destruct (_ !! _); auto with pres.
    + intros o. apply pres_bind; [apply pres_get|]. intros h.
      apply pres_bind; [by apply core_modify|auto with pres].
  - intros c'. destruct (getActivityOptions c'); [|auto with pres].
    apply pres_bind; [by apply core_modify|auto with pres].
Qed.

(** ** The system *)

(** The heap of a workflow, the sessions that coroutines wait to have created, the
    coroutines that watch a creation activity, and those that wait in
    [CompleteSession]. *)
Record wsystem := WSystem {
  wh : wheap;
  creating : list creation;
  watching : list nat;
  completing : list nat }.
Implicit Types (x y : wsystem) (k : nat) (id : nat).

Definition established h p : Prop :=
  ∃ i f, sessionInfos h !! p = Some i ∧ si_sessionCancelFunc i = Some f.

(** A context that workflow code can have: a session is in it once it is created. *)
Definition known h c : Prop :=
  valid (contexts h) c ∧ ∀ p, getSessionInfo c = Some p → established h p.

Definition unused h (sid : string) : Prop :=
  ∀ p i, sessionInfos h !! p = Some i → si_SessionID i ≠ sid.

Section lifecycle.
Context (ephemeral : bool) (header : context → option Header).
Context (validated : string → goError + string) (encoded : string → string + bytes).

(** Session IDs are UUIDs: a new one was not used before. *)
Inductive wstep x : wsystem → Prop :=
| wstep_create generated c tasklist options retryable r h' :
    known (wh x) c → (∀ sid, generated = inr sid → unused (wh x) sid) →
    createSession ephemeral header validated encoded generated c tasklist options retryable (wh x) = (r, h') →
    wstep x (WSystem h' (match r with Ret (inr cr) => creating x ++ [cr] | _ => creating x end)
               (watching x) (completing x))
| wstep_selected k cr s r h' :
    creating x !! k = Some cr → (∀ err, cr_activity cr = inl err → s = CreationDone (Some err)) →
    createSession_selected cr s (wh x) = (r, h') →
    wstep x (WSystem h' (delete k (creating x))
               (match r with Ret (inr _) => watching x ++ [cr_info cr] | _ => watching x end)
               (completing x))
| wstep_watch k p err r h' :
    watching x !! k = Some p → watchCreation p err (wh x) = (r, h') →
    wstep x (WSystem h' (creating x) (delete k (watching x)) (completing x))
| wstep_complete c r h' :
    known (wh x) c →
    CompleteSession ephemeral header validated encoded c (wh x) = (r, h') →
    wstep x (WSystem h' (creating x) (watching x)
               (match r with Ret (Some p) => completing x ++ [p] | _ => completing x end))
| wstep_completed k p r h' :
    completing x !! k = Some p → CompleteSession_done p (wh x) = (r, h') →
    wstep x (WSystem h' (creating x) (watching x) (delete k (completing x)))
| wstep_activity v e name c r h' :
    executeActivity ephemeral header v e name c (wh x) = (r, h') →
    wstep x (WSystem h' (creating x) (watching x) (completing x))
| wstep_options f c r h' :
    withOptions f c (wh x) = (r, h') →
    wstep x (WSystem h' (creating x) (watching x) (completing x))
| wstep_withCancel c r h' :
    known (wh x) c → withCancel c (wh x) = (r, h') →
    wstep x (WSystem h' (creating x) (watching x) (completing x))
| wstep_cancel c id r h' :
    known (wh x) c → id < length (cancels (contexts (wh x))) → callCancel (c, id) (wh x) = (r, h') →
    wstep x (WSystem h' (creating x) (watching x) (completing x)).

Definition winit (w : store (V:=contextValue)) : wsystem :=
  WSystem (WHeap (Heap [] w) [] [] ∅ []) [] [] [].

(** ** The invariant *)

(** What holds of the object [i] at [p]; [σ] are the contexts. *)
Record info_ok (σ : Contexts.heap contextValue) (opened : gmap string nat) p i : Prop := {
  ok_valid : valid σ (si_completionCtx i);
  ok_value : getSessionInfo (si_completionCtx i) = Some p;
  ok_unestablished : si_sessionCancelFunc i = None → si_sessionState i = sessionStateOpen;
  ok_cancelFunc f : si_sessionCancelFunc i = Some f →
    fst f = si_completionCtx i ∧ snd f < length (cancels σ) ∧
    (si_sessionState i ≠ sessionStateOpen → canceled_in σ (snd f));
  ok_open : opened !! si_SessionID i = Some p ↔
    is_Some (si_sessionCancelFunc i) ∧ si_sessionState i = sessionStateOpen }.

Record sessions_ok h : Prop := {
  all_ok p i : sessionInfos h !! p = Some i → info_ok (contexts h) (openSessions h) p i;
  ids_distinct p q i j : sessionInfos h !! p = Some i → sessionInfos h !! q = Some j →
    si_SessionID i = si_SessionID j → p = q;
  open_known sid p : openSessions h !! sid = Some p →
    ∃ i, sessionInfos h !! p = Some i ∧ si_SessionID i = sid }.

Definition creation_ok h (cr : creation) : Prop :=
  ∃ i, sessionInfos h !! cr_info cr = Some i ∧ si_sessionCancelFunc i = None ∧
    si_completionCtx i = cr_parent cr ∧ cr_id cr < length (cancels (contexts h)).

Record winv x (att : gmap nat nat) : Prop := {
  winv_contexts : inv (contexts (wh x)) att;
  winv_sessions : sessions_ok (wh x);
  winv_creating k cr : creating x !! k = Some cr → creation_ok (wh x) cr;
  winv_creating_once k k' cr cr' : creating x !! k = Some cr → creating x !! k' = Some cr' →
    cr_info cr = cr_info cr' → k = k';
  winv_watching k p : watching x !! k = Some p → established (wh x) p;
  winv_completing k p : completing x !! k = Some p →
    ∃ i f, sessionInfos (wh x) !! p = Some i ∧ si_sessionCancelFunc i = Some f ∧
      canceled_in (contexts (wh x)) (snd f) }.

(** ** Steps that change the contexts only *)

Lemma valid_grows (σ σ' : Contexts.heap contextValue) c :
  length (cancels σ) <= length (cancels σ') → valid σ c → valid σ' c.
Proof. intros Hl Hv p Hp. specialize (Hv p Hp). lia. Qed.

Lemma info_ok_grows (σ σ' : Contexts.heap contextValue) opened p i :
  length (cancels σ) <= length (cancels σ') → (∀ z, canceled_in σ z → canceled_in σ' z) →
  info_ok σ opened p i → info_ok σ' opened p i.
Proof.
  intros Hl Hm [Hv Hval Hun Hf Ho]. constructor; try done; [by eapply valid_grows|].
  intros f Hfi. destruct (Hf f Hfi) as (? & ? & ?). split_and!; [done|lia|eauto].
Qed.

Lemma winv_core x att h' :
  winv x att → core h' = core (wh x) → winv (WSystem h' (creating x) (watching x) (completing x)) att.
Proof.
  intros [H1 [H2 H2' H2o] H3 H4 H5 H6] Hc. unfold core in Hc. injection Hc as Hc1 Hc2 Hc3.
  constructor; simpl; unfold creation_ok, established in *; rewrite ?Hc1, ?Hc2, ?Hc3; try done.
  constructor; rewrite ?Hc1, ?Hc2, ?Hc3; done.
Qed.

Lemma winv_grows x att att' σ' :
  winv x att → inv σ' att' → length (cancels (contexts (wh x))) <= length (cancels σ') →
  (∀ z, canceled_in (contexts (wh x)) z → canceled_in σ' z) →
  winv (WSystem (set_contexts σ' (wh x)) (creating x) (watching x) (completing x)) att'.
Proof.
  intros [H1 [H2 H2' H2o] H3 H4 H5 H6] Hinv Hl Hm. constructor; simpl; [done| | |done|done|].
  - constructor; simpl; [|done|done]. intros p i Hi. eapply info_ok_grows; [done|done|by apply H2].
  - intros k cr Hk. destruct (H3 k cr Hk) as (i & ? & ? & ? & ?). exists i. simpl. split_and!; try done. lia.
  - intros k p Hk. destruct (H6 k p Hk) as (i & f & ? & ? & ?). exists i, f. eauto.
Qed.

Lemma withCancel_run h att c :
  inv (contexts h) att → valid (contexts h) c →
  ∃ σ' att', withCancel c h = (Ret (CancelCtx c (length (cancels (contexts h)))), set_contexts σ' h) ∧
    inv σ' att' ∧ length (cancels σ') = length (cancels (contexts h)) + 1 ∧
    (∀ z, canceled_in (contexts h) z → canceled_in σ' z).
Proof.
  intros Hinv Hv.
  destruct (WithCancel_spec (contexts h) att (ctx_fuel h) (newDone h) c) as (σ' & Hrun & Hi & Hl & Hm);
    [done|done| |unfold ctx_fuel; lia|].
  { unfold newDone. apply not_elem_of_dom, is_fresh. }
  exists σ', (attach c (length (cancels (contexts h))) att). split_and!; [|done|done|done].
  unfold withCancel, on_contexts. run. by rewrite Hrun.
Qed.

Lemma callCancel_run h att c id :
  inv (contexts h) att → id < length (cancels (contexts h)) → valid (contexts h) c →
  ∃ σ', (∀ h', contexts h' = contexts h → callCancel (c, id) h' = (Ret tt, set_contexts σ' h')) ∧
    inv σ' att ∧
    length (cancels σ') = length (cancels (contexts h)) ∧
    (∀ z, canceled_in (contexts h) z → canceled_in σ' z) ∧ canceled_in σ' id.
Proof.
  intros Hinv Hlt Hv.
  destruct (CancelFunc_spec (contexts h) att (ctx_fuel h) c id Hinv Hlt) as
    (σ1 & σ' & Hrun & Hi & (_ & Hev & Hin & _) & Hc & Hl); [unfold ctx_fuel; lia|done|].
  exists σ'. split_and!; [|done|done| |by apply Hc, Hin].
  - intros h' Hh. unfold callCancel, on_contexts, ctx_fuel. run. simpl. rewrite Hh.
    unfold ctx_fuel in Hrun. by rewrite Hrun.
  - intros z Hz. by eapply Hc, evolves_canceled.
Qed.

(** ** Creating *)

Definition newInfo h c (sid : string) : SessionInfo :=
  MkSessionInfo sid "" "" "" sessionStateOpen None (setSessionInfo c (length (sessionInfos h))).

Lemma lookup_snoc {A} (l : list A) (a b : A) k :
  (l ++ [a]) !! k = Some b → l !! k = Some b ∨ (k = length l ∧ b = a).
Proof.
  intros [?|[? [? ->]%list_lookup_singleton_Some]]%lookup_app_Some; [by left|right]. split; [lia|done].
Qed.

(** Objects are only ever added. *)
Lemma established_app h p l :
  established h p → established (set_infos (sessionInfos h ++ l) h) p.
Proof. intros (i & f & Hi & Hf). exists i, f. split; [by apply lookup_app_l_Some|done]. Qed.

(** An object whose session nobody has yet. *)
Lemma winv_newInfo x att c sid :
  winv x att → known (wh x) c → unused (wh x) sid →
  winv (WSystem (set_infos (sessionInfos (wh x) ++ [newInfo (wh x) c sid]) (wh x))
          (creating x) (watching x) (completing x)) att.
Proof.
  intros [H1 [H2 H2' H2o] H3 H4 H5 H6] [Hv Hk] Hu.
  assert (∀ p, openSessions (wh x) !! sid ≠ Some p) as Hno.
  { intros p (i & Hi & Hs)%H2o. by eapply Hu. }
  constructor; simpl; [done| | |done| |].
  - constructor; simpl.
    + intros p i [Hi|[-> ->]]%lookup_snoc; [by apply H2|].
      constructor; simpl; try done. split; [by intros ?%Hno|]. intros [[? ?] _]. done.
    + intros p q i j [Hi|[-> ->]]%lookup_snoc [Hj|[-> ->]]%lookup_snoc; simpl; [by eapply H2'| | |done].
      * intros Hs. by edestruct Hu.
      * intros Hs. by edestruct Hu.
    + intros s p (i & Hi & Hs)%H2o. exists i. split; [by apply lookup_app_l_Some|done].
  - intros k cr Hcr. destruct (H3 k cr Hcr) as (i & Hi & ?). exists i. simpl.
    split; [by apply lookup_app_l_Some|done].
  - intros k p Hp. by eapply established_app, H5.
  - intros k p Hp. destruct (H6 k p Hp) as (i & f & Hi & ?). exists i, f.
    split; [by apply lookup_app_l_Some|done].
Qed.

Lemma known_session h c : known h c → session_known h c.
Proof. intros [_ Hk] p (i & f & Hi & _)%Hk. by eapply lookup_lt_Some. Qed.

(** The rest of [createSession] touches options and activities only. *)
Lemma core_createSession_tail c p c1 n ao sid z :
  pres (λ h, core h = z) (
    creationCtx ← WithActivityOptions c1 ao;
    a ← ExecuteActivity ephemeral header validated encoded sessionCreationActivityName sid creationCtx;
    mret (inr (Creation p c n a) : goError + creation)).
Proof.
  apply pres_bind; [apply core_withOptions|]. intros c'.
  apply pres_bind; [apply core_executeActivity|auto with pres].
Qed.

Lemma createSession_run x att generated c tasklist options retryable r h' :
  winv x att → known (wh x) c →
  createSession ephemeral header validated encoded generated c tasklist options retryable (wh x) = (r, h') →
  (h' = wh x ∧ ∃ err, r = Ret (inl err)) ∨
  ∃ sid σ' att', generated = inr sid ∧
    core h' = core (set_contexts σ' (set_infos (sessionInfos (wh x) ++ [newInfo (wh x) c sid]) (wh x))) ∧
    inv σ' att' ∧ length (cancels σ') = length (cancels (contexts (wh x))) + 1 ∧
    (∀ z, canceled_in (contexts (wh x)) z → canceled_in σ' z) ∧
    ((∃ pa, r = Panic pa) ∨ ∃ a, r = Ret (inr (Creation (length (sessionInfos (wh x)))
       (setSessionInfo c (length (sessionInfos (wh x)))) (length (cancels (contexts (wh x)))) a))).
Proof.
  intros Hx Hk Hrun. unfold createSession in Hrun.
  cbv beta delta [mbind M_bind] in Hrun. rewrite sessionOf_run in Hrun by (by apply known_session).
  destruct (in_state sessionStateOpen (infoOf (wh x) c)).
  { left. run_in Hrun. simplify_eq. eauto. }
  destruct generated as [err|sid].
  { left. run_in Hrun. simplify_eq. eauto. }
  right. run_in Hrun.
  set (h1 := set_infos _ (wh x)) in Hrun.
  destruct (withCancel_run h1 att (setSessionInfo c (length (sessionInfos (wh x)))))
    as (σ' & att' & Hwc & Hinv & Hlen & Hm); [by apply Hx|by apply Hk|].
  rewrite Hwc in Hrun.
  match type of Hrun with context [WithActivityOptions ?c1 ?ao] =>
    pose proof (core_createSession_tail (setSessionInfo c (length (sessionInfos (wh x))))
      (length (sessionInfos (wh x))) c1 (length (cancels (contexts (wh x)))) ao sid
      (core (set_contexts σ' h1)) (set_contexts σ' h1) eq_refl) as Hcore end.
  run_in Hcore. exists sid, σ', att'. split; [done|].
  destruct (WithActivityOptions _ _ _) as [[c2|pa] h2].
  2:{ injection Hrun as <- <-. split_and!; [exact Hcore|done|exact Hlen|exact Hm|left; by eexists]. }
  destruct (ExecuteActivity _ _ _ _ _ _ _ _) as [[a|pa] h3]; injection Hrun as <- <-;
    (split_and!; [exact Hcore|done|exact Hlen|exact Hm|]); [right|left]; by eexists.
Qed.

Lemma winv_creating_snoc x att cr :
  winv x att → creation_ok (wh x) cr →
  (∀ k cr', creating x !! k = Some cr' → cr_info cr' ≠ cr_info cr) →
  winv (WSystem (wh x) (creating x ++ [cr]) (watching x) (completing x)) att.
Proof.
  intros [H1 H2 H3 H4 H5 H6] Hok Hnew. constructor; simpl; try done.
  - intros k cr' [?|[_ ->]]%lookup_snoc; eauto.
  - intros k k' c1 c2 [Hk|[-> ->]]%lookup_snoc [Hk'|[-> ->]]%lookup_snoc Heq; [by eapply H4| | |done].
    + by edestruct Hnew.
    + by edestruct Hnew.
Qed.

Lemma winv_create x att generated c tasklist options retryable r h' :
  winv x att → known (wh x) c → (∀ sid, generated = inr sid → unused (wh x) sid) →
  createSession ephemeral header validated encoded generated c tasklist options retryable (wh x) = (r, h') →
  ∃ att', winv (WSystem h' (match r with Ret (inr cr) => creating x ++ [cr] | _ => creating x end)
    (watching x) (completing x)) att'.
Proof.
  intros Hx Hk Hu Hrun.
  destruct (createSession_run _ _ _ _ _ _ _ _ _ Hx Hk Hrun)
    as [[-> (err & ->)]|(sid & σ' & att' & -> & Hcore & Hinv & Hlen & Hm & Hr)].
  { exists att. by destruct x. }
  exists att'. specialize (Hu sid eq_refl).
  pose proof (winv_newInfo _ _ _ _ Hx Hk Hu) as H1.
  pose proof (winv_grows _ _ att' σ' H1 Hinv) as H2. simpl in H2.
  specialize (H2 ltac:(lia) Hm). pose proof (winv_core _ _ h' H2 Hcore) as H3. simpl in H3.
  destruct Hr as [(pa & ->)|(a & ->)]; [exact H3|].
  apply (winv_creating_snoc _ _ _ H3).
  - unfold core in Hcore. injection Hcore as Hc1 Hc2 Hc3. eexists. simpl. rewrite Hc1, Hc2.
    split; [by apply list_lookup_middle|]. split_and!; [done|done|lia].
  - intros k cr Hcr. simpl. destruct (winv_creating _ _ Hx k cr Hcr) as (i & Hi & _).
    apply lookup_lt_Some in Hi. lia.
Qed.

(** ** Established sessions *)

Lemma lookup_delete_inv {A} (l : list A) k j a :
  delete k l !! j = Some a → l !! (if decide (j < k) then j else S j) = Some a.
Proof. by rewrite list_lookup_delete. Qed.

(** The object [i] at [p] is replaced; the sessions in the map change with it. *)
Lemma sessions_update h p i i' opened :
  sessions_ok h → sessionInfos h !! p = Some i → si_SessionID i' = si_SessionID i →
  info_ok (contexts h) opened p i' →
  (∀ sid, sid ≠ si_SessionID i → opened !! sid = openSessions h !! sid) →
  (∀ q, opened !! si_SessionID i = Some q → q = p) →
  sessions_ok (set_open opened (set_infos (<[p := i']> (sessionInfos h)) h)).
Proof.
  intros [H1 H2 H3] Hi Hid Hok Hothers Hself. pose proof (lookup_lt_Some _ _ _ Hi) as Hlt.
  assert (∀ q j, q ≠ p → sessionInfos h !! q = Some j → si_SessionID j ≠ si_SessionID i) as Hne.
  { intros q j Hq Hj Heq. apply Hq. by eapply H2. }
  constructor; simpl.
  - intros q j. rewrite list_lookup_insert_Some. intros [(<- & <- & _)|[Hq Hj]]; [done|].
    destruct (H1 q j Hj) as [A1 A2 A3 A4 A5]. constructor; try done.
    rewrite Hothers by eauto. exact A5.
  - intros q q' j j'. rewrite !list_lookup_insert_Some.
    intros [(<- & <- & _)|[Hq Hj]] [(<- & <- & _)|[Hq' Hj']]; rewrite ?Hid; intros Heq; try done.
    + by edestruct Hne.
    + by edestruct (Hne q j).
    + by eapply H2.
  - intros sid q Hq. destruct (decide (sid = si_SessionID i)) as [->|Hs].
    + apply Hself in Hq as ->. exists i'. rewrite list_lookup_insert_eq by done. done.
    + rewrite Hothers in Hq by done. destruct (H3 sid q Hq) as (j & Hj & Hjs). exists j.
      rewrite list_lookup_insert_ne; [done|]. intros <-. congruence.
Qed.

Lemma winv_establish x att k cr resp i :
  winv x att → creating x !! k = Some cr → sessionInfos (wh x) !! cr_info cr = Some i →
  let i' := set_established resp (cr_parent cr, cr_id cr) i in
  winv (WSystem (set_open (<[si_SessionID i := cr_info cr]> (openSessions (wh x)))
                  (set_infos (<[cr_info cr := i']> (sessionInfos (wh x))) (wh x)))
         (delete k (creating x)) (watching x ++ [cr_info cr]) (completing x)) att.
Proof.
  intros [H1 H2 H3 H4 H5 H6] Hk Hi i'. destruct (H3 k cr Hk) as (j & Hj & Hf & Hp & Hlen).
  assert (j = i) as -> by congruence. pose proof (lookup_lt_Some _ _ _ Hi) as Hlt.
  destruct (all_ok _ H2 _ _ Hi) as [A1 A2 A3 A4 A5].
  assert (∀ q, established (wh x) q → established (set_infos (<[cr_info cr := i']> (sessionInfos (wh x))) (wh x)) q) as He.
  { intros q (jq & f & Hq & Hfq). unfold established. simpl.
    destruct (decide (q = cr_info cr)) as [->|]; [congruence|]. exists jq, f.
    by rewrite list_lookup_insert_ne. }
  constructor; simpl; [done| | | | |].
  - eapply sessions_update; [done|done|done| | |].
    + constructor; simpl; [done|done|done| |].
      * intros f [= <-]. simpl. split_and!; [by rewrite Hp|done|]. intros Hno. by destruct Hno, A3.
      * rewrite lookup_insert_eq. split; [|done]. intros _. split; [by eexists|by apply A3].
    + intros sid Hs. by rewrite lookup_insert_ne.
    + intros q. rewrite lookup_insert_eq. by intros [= ->].
  - intros j cr' Hj'%lookup_delete_inv. destruct (H3 _ _ Hj') as (jq & Hq & ?). exists jq. simpl.
    rewrite list_lookup_insert_ne; [done|]. intros Heq. specialize (H4 _ _ _ _ Hk Hj' Heq).
    case_decide; lia.
  - intros j j' c1 c2 Hj1%lookup_delete_inv Hj2%lookup_delete_inv Heq.
    specialize (H4 _ _ _ _ Hj1 Hj2 Heq). repeat case_decide; lia.
  - intros j q [Hq|[-> ->]]%lookup_snoc; [by eapply He, H5|].
    exists i', (cr_parent cr, cr_id cr). simpl. by rewrite list_lookup_insert_eq.
  - intros j q Hq. destruct (H6 j q Hq) as (jq & f & Hjq & Hfq & ?). exists jq, f.
    rewrite list_lookup_insert_ne; [done|]. intros <-. congruence.
Qed.

(** A session whose context is canceled fails or is closed. *)
Lemma winv_close x att p i f s :
  winv x att → sessionInfos (wh x) !! p = Some i → si_sessionCancelFunc i = Some f →
  canceled_in (contexts (wh x)) (snd f) → s ≠ sessionStateOpen →
  winv (WSystem (set_open (delete (si_SessionID i) (openSessions (wh x)))
                  (set_infos (<[p := set_state s i]> (sessionInfos (wh x))) (wh x)))
         (creating x) (watching x) (completing x)) att.
Proof.
  intros [H1 H2 H3 H4 H5 H6] Hi Hf Hc Hs. pose proof (lookup_lt_Some _ _ _ Hi) as Hlt.
  destruct (all_ok _ H2 _ _ Hi) as [A1 A2 A3 A4 A5].
  assert (∀ q j g, sessionInfos (wh x) !! q = Some j → si_sessionCancelFunc j = Some g →
    ∃ j', <[p := set_state s i]> (sessionInfos (wh x)) !! q = Some j' ∧ si_sessionCancelFunc j' = Some g) as He.
  { intros q j g Hq Hg. destruct (decide (q = p)) as [->|].
    - exists (set_state s i). rewrite list_lookup_insert_eq by done. split; [done|]. simpl. congruence.
    - exists j. by rewrite list_lookup_insert_ne. }
  constructor; simpl; [done| | |done| |].
  - eapply sessions_update; [done|done|done| | |].
    + constructor; simpl; [done|done|congruence| |].
      * intros g Hg. assert (g = f) as -> by congruence. destruct (A4 f Hf) as (? & ? & _). done.
      * rewrite lookup_delete_eq. split; [done|]. by intros [_ ?].
    + intros sid Hsid. by rewrite lookup_delete_ne.
    + intros q. by rewrite lookup_delete_eq.
  - intros k cr Hcr. destruct (H3 k cr Hcr) as (j & Hj & Hjf & ?). exists j. simpl.
    rewrite list_lookup_insert_ne; [done|]. intros ->. congruence.
  - intros k q Hq. destruct (H5 k q Hq) as (j & g & Hj & Hg).
    destruct (He q j g Hj Hg) as (j' & ? & ?). by exists j', g.
  - intros k q Hq. destruct (H6 k q Hq) as (j & g & Hj & Hg & ?).
    destruct (He q j g Hj Hg) as (j' & ? & ?). by exists j', g.
Qed.

Lemma winv_drop x att (cs : list creation) (ws ds : list nat) :
  winv x att → (∀ k cr, cs !! k = Some cr → creation_ok (wh x) cr) →
  (∀ k k' a b, cs !! k = Some a → cs !! k' = Some b → cr_info a = cr_info b → k = k') →
  (∀ k p, ws !! k = Some p → established (wh x) p) →
  (∀ k p, ds !! k = Some p → ∃ k', completing x !! k' = Some p) →
  winv (WSystem (wh x) cs ws ds) att.
Proof.
  intros [H1 H2 H3 H4 H5 H6] Hc Ho Hw Hd. constructor; simpl; try done.
  intros k p (k' & Hk')%Hd. eauto.
Qed.

Lemma infoAt_run p i h : sessionInfos h !! p = Some i → infoAt p h = (Ret i, h).
Proof. intros Hi. unfold infoAt. run. by rewrite Hi. Qed.

Lemma updateInfo_run p i f h :
  sessionInfos h !! p = Some i →
  updateInfo p f h = (Ret tt, set_infos (<[p := f i]> (sessionInfos h)) h).
Proof.
  intros Hi. unfold updateInfo. run. by rewrite (alter_insert _ _ i).
Qed.

Lemma winv_selected x att k cr s r h' :
  winv x att → creating x !! k = Some cr →
  createSession_selected cr s (wh x) = (r, h') →
  winv (WSystem h' (delete k (creating x))
    (match r with Ret (inr _) => watching x ++ [cr_info cr] | _ => watching x end) (completing x)) att.
Proof.
  intros Hx Hk Hrun. destruct (winv_creating _ _ Hx k cr Hk) as (i & Hi & Hf & Hp & Hlen).
  pose proof (all_ok _ (winv_sessions _ _ Hx) _ _ Hi) as Hok.
  assert (∀ resp, (updateInfo (cr_info cr) (set_established resp (cr_parent cr, cr_id cr));;
     i ← infoAt (cr_info cr); AddSession (si_SessionID i) (cr_info cr);;
     mret (inr (CancelCtx (cr_parent cr) (cr_id cr)) : goError + context)) (wh x) = (r, h') →
    winv (WSystem h' (delete k (creating x))
      (match r with Ret (inr _) => watching x ++ [cr_info cr] | _ => watching x end) (completing x)) att) as Hest.
  { intros resp. run. rewrite (updateInfo_run _ i) by done.
    rewrite (infoAt_run (cr_info cr) (set_established resp (cr_parent cr, cr_id cr) i)).
    2:{ simpl. apply list_lookup_insert_eq. by eapply lookup_lt_Some. }
    unfold AddSession. run. intros [= <- <-]. by apply winv_establish. }
  destruct s as [resp|[err|]]; [by eapply Hest| |by eapply Hest].
  unfold createSession_selected in Hrun. run_in Hrun.
  destruct (callCancel_run (wh x) att (cr_parent cr) (cr_id cr)) as (σ' & Hcc & Hinv & Hl & Hm & _);
    [by apply Hx|done|rewrite <- Hp; by apply (ok_valid _ _ _ _ Hok)|].
  rewrite Hcc in Hrun by done. simplify_eq.
  pose proof (winv_grows x att att σ' Hx Hinv ltac:(lia) Hm) as H1.
  eapply (winv_drop _ _ (delete k (creating x)) (watching x) (completing x) H1); simpl.
  - intros j c' Hj%lookup_delete_inv. by eapply (winv_creating _ _ H1).
  - intros j j' a b Hj%lookup_delete_inv Hj'%lookup_delete_inv Heq.
    pose proof (winv_creating_once _ _ H1 _ _ _ _ Hj Hj' Heq). repeat case_decide; lia.
  - apply (winv_watching _ _ H1).
  - eauto.
Qed.

Lemma winv_watch x att k p err r h' :
  winv x att → watching x !! k = Some p → watchCreation p err (wh x) = (r, h') →
  winv (WSystem h' (creating x) (delete k (watching x)) (completing x)) att.
Proof.
  intros Hx Hk Hrun.
  assert (∀ y, winv y att → creating y = creating x → watching y = watching x → completing y = completing x →
    winv (WSystem (wh y) (creating x) (delete k (watching x)) (completing x)) att) as Hdrop.
  { intros y Hy H1 H2 H3. rewrite <- H1, <- H2, <- H3. apply winv_drop; [done|..].
    - apply (winv_creating _ _ Hy).
    - apply (winv_creating_once _ _ Hy).
    - intros j q Hj%lookup_delete_inv. by eapply (winv_watching _ _ Hy).
    - eauto. }
  destruct (winv_watching _ _ Hx k p Hk) as (i & f & Hi & Hf).
  pose proof (all_ok _ (winv_sessions _ _ Hx) _ _ Hi) as Hok.
  destruct (ok_cancelFunc _ _ _ _ Hok f Hf) as (Hf1 & Hf2 & _). destruct f as [c id]. simpl in *.
  assert ((∃ y, wh y = h' ∧ winv y att ∧ creating y = creating x ∧ watching y = watching x ∧
    completing y = completing x)) as (y & <- & Hy & ? & ? & ?); [|by apply Hdrop].
  unfold watchCreation in Hrun.
  destruct err as [err|]; [|run_in Hrun; simplify_eq; by exists x].
  assert (∀ rest, (i ← infoAt p; RemoveSession (si_SessionID i);;
      updateInfo p (set_state sessionStateFailed);; rest i) (wh x) = (r, h') →
    rest = (λ i, match si_sessionCancelFunc i with Some f => callCancel f | None => throw NilDereference end) →
    ∃ y, wh y = h' ∧ winv y att ∧ creating y = creating x ∧ watching y = watching x ∧
      completing y = completing x) as Hgo.
  { intros rest Hr ->. run_in Hr. rewrite (infoAt_run p i) in Hr by done.
    unfold RemoveSession in Hr. run_in Hr. rewrite (updateInfo_run p i) in Hr by done.
    rewrite Hf in Hr.
    destruct (callCancel_run (wh x) att c id) as (σ' & Hcc & Hinv & Hl & Hm & Hin);
      [by apply Hx|done|rewrite Hf1; by apply (ok_valid _ _ _ _ Hok)|].
    rewrite Hcc in Hr by done. simplify_eq.
    pose proof (winv_grows x att att σ' Hx Hinv ltac:(lia) Hm) as H1.
    pose proof (winv_close _ _ p i _ sessionStateFailed H1 Hi Hf Hin ltac:(done)) as H2.
    eexists. split; [|split; [exact H2|done]]. done. }
  destruct err; first [exact (Hgo _ Hrun eq_refl)|run_in Hrun; simplify_eq; by exists x].
Qed.

Lemma winv_complete x att c r h' :
  winv x att → known (wh x) c →
  CompleteSession ephemeral header validated encoded c (wh x) = (r, h') →
  winv (WSystem h' (creating x) (watching x)
    (match r with Ret (Some p) => completing x ++ [p] | _ => completing x end)) att.
Proof.
  intros Hx [_ Hk] Hrun. unfold CompleteSession in Hrun.
  destruct (getSessionInfo c) as [p|]; [|run_in Hrun; simplify_eq; by destruct x].
  destruct (Hk p eq_refl) as (i & [c' id] & Hi & Hf).
  pose proof (all_ok _ (winv_sessions _ _ Hx) _ _ Hi) as Hok.
  destruct (ok_cancelFunc _ _ _ _ Hok _ Hf) as (Hf1 & Hf2 & _). simpl in *.
  run_in Hrun. rewrite (infoAt_run p i) in Hrun by done.
  case_bool_decide; [simplify_eq; by destruct x|]. rewrite Hf in Hrun.
  destruct (callCancel_run (wh x) att c' id) as (σ' & Hcc & Hinv & Hl & Hm & Hin);
    [by apply Hx|done|rewrite Hf1; by apply (ok_valid _ _ _ _ Hok)|].
  rewrite Hcc in Hrun by done.
  pose proof (winv_grows x att att σ' Hx Hinv ltac:(lia) Hm) as H1.
  set (h1 := set_contexts σ' (wh x)) in *.
  pose proof (core_withOptions (λ eap, MkActivityOptions (Some "") "" (opt_TaskListKind eap)
    (seconds 0) (seconds (3 * Second)) (seconds (3 * Second)) (seconds 0) false
    (opt_OriginalTaskListName eap) None) (si_completionCtx i) (core h1) h1 eq_refl) as Hc1.
  unfold WithActivityOptions in Hrun. simpl in Hrun.
  destruct (withOptions _ _ h1) as [[c2|pa] h2]; simpl in Hc1.
  2:{ injection Hrun as <- <-. exact (winv_core _ _ _ H1 Hc1). }
  pose proof (core_executeActivity ephemeral header (validated sessionCompletionActivityName)
    (encoded (si_SessionID i)) sessionCompletionActivityName c2 (core h1) h2 Hc1) as Hc2.
  unfold ExecuteActivity in Hrun.
  destruct (executeActivity _ _ _ _ _ _ h2) as [[a|pa] h3]; simpl in Hc2; injection Hrun as <- <-;
    pose proof (winv_core _ _ _ H1 Hc2) as H2; [|exact H2].
  destruct H2 as [B1 B2 B3 B4 B5 B6]. constructor; simpl in *; try done.
  intros k q [Hq|[-> ->]]%lookup_snoc; [by eapply B6|].
  unfold core in Hc2. injection Hc2 as E1 E2 E3. rewrite E1, E2. by exists i, (c', id).
Qed.

Lemma winv_completed x att k p r h' :
  winv x att → completing x !! k = Some p → CompleteSession_done p (wh x) = (r, h') →
  winv (WSystem h' (creating x) (watching x) (delete k (completing x))) att.
Proof.
  intros Hx Hk Hrun. destruct (winv_completing _ _ Hx k p Hk) as (i & f & Hi & Hf & Hc).
  unfold CompleteSession_done in Hrun. run_in Hrun. rewrite (updateInfo_run p i) in Hrun by done.
  rewrite (infoAt_run p (set_state sessionStateClosed i)) in Hrun.
  2:{ simpl. apply list_lookup_insert_eq. by eapply lookup_lt_Some. }
  unfold RemoveSession in Hrun. run_in Hrun. simplify_eq.
  pose proof (winv_close _ _ p i f sessionStateClosed Hx Hi Hf Hc ltac:(done)) as H1.
  eapply (winv_drop _ _ (creating x) (watching x) (delete k (completing x)) H1);
    [apply (winv_creating _ _ H1)|apply (winv_creating_once _ _ H1)|apply (winv_watching _ _ H1)|].
  intros j q Hj%lookup_delete_inv. eauto.
Qed.

Lemma winv_step x y att : winv x att → wstep x y → ∃ att', winv y att'.
Proof.
  intros Hx Hs. destruct Hs as [gen c tl opts rt r h' Hk Hu Hrun|k cr s r h' Hk _ Hrun|k p err r h' Hk Hrun
    |c r h' Hk Hrun|k p r h' Hk Hrun|v e name c r h' Hrun|f c r h' Hrun|c r h' Hk Hrun|c id r h' Hk Hid Hrun].
  - by eapply winv_create.
  - exists att. by eapply winv_selected.
  - exists att. by eapply winv_watch.
  - exists att. by eapply winv_complete.
  - exists att. by eapply winv_completed.
  - exists att. apply winv_core; [done|].
    pose proof (core_executeActivity ephemeral header v e name c _ (wh x) eq_refl) as Hc.
    by rewrite Hrun in Hc.
  - exists att. apply winv_core; [done|].
    pose proof (core_withOptions f c _ (wh x) eq_refl) as Hc. by rewrite Hrun in Hc.
  - destruct (withCancel_run (wh x) att c) as (σ' & att' & Hwc & Hinv & Hl & Hm); [by apply Hx|apply Hk|].
    exists att'. rewrite Hwc in Hrun. simplify_eq. eapply winv_grows; [done|done|lia|done].
  - destruct (callCancel_run (wh x) att c id) as (σ' & Hcc & Hinv & Hl & Hm & _); [by apply Hx|done|apply Hk|].
    exists att. rewrite Hcc in Hrun by done. simplify_eq. eapply winv_grows; [done|done|lia|done].
Qed.

Lemma winv_init w : winv (winit w) ∅.
Proof.
  constructor; simpl; try done.
  split; [split|..]; unfold child, attached; simpl; naive_solver.
Qed.

(** C9: the life of a session in a workflow.  However the coroutines of a workflow
    create, watch, complete and cancel sessions and contexts: a session that was
    created is found in its context; it is among the open sessions of the workflow
    exactly while its state is open; and once it has failed or was closed its
    context has the error [ErrCanceled] and its [Done] channel, on which the
    activities of the session are canceled, is closed. *)
Theorem session_lifecycle w x p i c id :
  rtc wstep (winit w) x →
  sessionInfos (wh x) !! p = Some i → si_sessionCancelFunc i = Some (c, id) →
  getSessionInfo (CancelCtx c id) = Some p ∧
  (openSessions (wh x) !! si_SessionID i = Some p ↔ si_sessionState i = sessionStateOpen) ∧
  (si_sessionState i ≠ sessionStateOpen →
     Err (contexts (wh x)) (CancelCtx c id : context) = Some ErrCanceled_ ∧
     ∃ d, Done_ (contexts (wh x)) (CancelCtx c id : context) = Some d ∧
       is_closed (chans (contexts (wh x))) d = Some true).
Proof.
  intros Hreach Hi Hf.
  assert (∃ att, winv x att) as [att Hx].
  { assert (∃ att, winv (winit w) att) as H0 by (eexists; apply winv_init). revert H0.
    induction Hreach as [|? ? ? Hs _ IH]; [done|]. intros [att H0].
    destruct (winv_step _ _ _ H0 Hs). eauto. }
  destruct (all_ok _ (winv_sessions _ _ Hx) _ _ Hi) as [A1 A2 A3 A4 A5].
  destruct (A4 _ Hf) as (Hc & Hlt & Hcan). simpl in *. subst c. split_and!.
  - exact A2.
  - rewrite A5, Hf. split; [by intros [_ ?]|]. intros ?. split; [by eexists|done].
  - intros Hs. destruct (Hcan Hs) as (e & He & Ht). rewrite He. simpl.
    pose proof (winv_contexts _ _ Hx) as Hinv.
    rewrite (wf_err _ (inv_wf _ _ Hinv) _ _ He), Ht. split; [done|].
    exists (done e). split; [done|]. rewrite (wf_done _ (inv_wf _ _ Hinv) _ _ He). by rewrite Ht.
Qed.

(** ** Recreating *)

(** The token of a session leads back to the worker that ran it. *)
Theorem recreate_same_worker {dc : DataConverter} `{!DataConverterRoundTrip dc}
    generated c options i token :
  GetRecreateToken i = Ret token →
  RecreateSession ephemeral header validated encoded generated c token options =
  createSession ephemeral header validated encoded generated c (si_tasklist i) options true.
Proof.
  unfold GetRecreateToken, mustSerializeRecreateToken. destruct (ToData _) as [|b] eqn:Hb; [done|].
  intros [= <-]. unfold RecreateSession, deserializeRecreateToken.
  apply FromData_ToData in Hb. simpl in Hb. by rewrite Hb.
Qed.

End lifecycle.

(** ** Options that overflow *)

Module SampleOptions.

(** Two valid timeouts whose sum does not fit: the default for the schedule-to-close
    timeout is negative, which the check on a given one refuses. *)
Example default_timeout_wraps :
  let '(err, o) := checkOptions (set_timeouts 0 (2 ^ 30) (2 ^ 30) 0 zeroOptions) in
  (err, opt_ScheduleToCloseTimeoutSeconds o) = (None, (- 2 ^ 31)%Z).
Proof. vm_compute. reflexivity. Qed.

(** An initial interval of a year: the default for the maximal interval is
    negative. *)
Example default_interval_wraps :
  let p := MkRetryPolicy (Some 31536000%Z) (Some defaultCoefficient) None (Some 3%Z) None None in
  let '(err, q) := validateRetryPolicy (Some p) in
  (err, q ≫= RetryPolicy_MaximumIntervalInSeconds) = (None, Some (-1141367296)%Z).
Proof. vm_compute. reflexivity. Qed.

End SampleOptions.

(** ** A workflow with a session whose worker dies *)

Module SampleSession.

Definition header : context → option Header := λ _, None.
Definition validated (name : string) : goError + string := inr name.
Definition encoded (arg : string) : string + bytes := inr (Some arg).

Definition minute : Z := (60 * Second)%Z.
Definition base (o : activityOptions) : activityOptions :=
  set_timeouts 0 60 60 0 (set_TaskListName "tl" o).
Definition start : wsystem := winit (Store ∅ ∅ ∅ ∅ ∅).
Definition c1 : context := WithValue Background activityOptionsContextKey (VOptions 0).
Definition s1 : wsystem := Eval vm_compute in
  WSystem (snd (withOptions base Background (wh start))) [] [] [].
Definition create : M wheap (goError + creation) :=
  createSession true header validated encoded (inr "uuid") c1 (getCreationTasklist "tl")
    (MkSessionOptions minute minute 0) true.
Definition created : outcome (goError + creation) * wheap := Eval vm_compute in create (wh s1).
Definition cr : creation := Eval vm_compute in
  match fst created with Ret (inr cr) => cr | _ => Creation 0 Background 0 (inl ErrSessionFailed) end.
Definition s2 : wsystem := Eval vm_compute in WSystem (snd created) [cr] [] [].
Definition s3 : wsystem := Eval vm_compute in
  WSystem (snd (createSession_selected cr
    (CreationSignal (CreationResponse "resource@host" "host" "resource")) (wh s2))) [] [0] [].
Definition s4 : wsystem := Eval vm_compute in
  WSystem (snd (watchCreation 0 (Some (ErrTimeout None)) (wh s3))) [] [] [].
Definition sessionCtx : context := CancelCtx (cr_parent cr) (cr_id cr).
Definition info4 : SessionInfo := Eval vm_compute in
  match sessionInfos (wh s4) with i :: _ => i | [] => MkSessionInfo "" "" "" "" sessionStateOpen None Background end.

(** What the activities of the context are scheduled on, and with which error, in
    the three states. *)
Definition task_list (x : wsystem) (name : string) (c : context) : option (string + goError) :=
  match fst (executeActivity true header (validated name) (encoded "") name c (wh x)) with
  | Ret (inr params) => Some (inl (act_TaskListName params))
  | Ret (inl err) => Some (inr err)
  | Panic _ => None
  end.

Example creation_activity :
  act_TaskListName <$> scheduled (wh s2) = ["tl__internal_session_creation"].
Proof. vm_compute. reflexivity. Qed.

Example open_session : task_list s3 "user" sessionCtx = Some (inl "resource@host").
Proof. vm_compute. reflexivity. Qed.

Example failed_session : task_list s4 "user" sessionCtx = Some (inr ErrSessionFailed).
Proof. vm_compute. reflexivity. Qed.

Example outside_session : task_list s3 "user" c1 = Some (inl "tl").
Proof. vm_compute. reflexivity. Qed.

Lemma reaches : rtc (wstep true header validated encoded) start s4.
Proof.
  apply (rtc_l _ _ s1).
  { apply (wstep_options _ _ _ _ start base Background (Ret c1) (wh s1)). vm_compute. reflexivity. }
  apply (rtc_l _ _ s2).
  { apply (wstep_create _ _ _ _ s1 (inr "uuid") c1 (getCreationTasklist "tl")
      (MkSessionOptions minute minute 0) true (Ret (inr cr)) (wh s2)).
    - split; [done|]. intros p. done.
    - intros sid _ p i. done.
    - vm_compute. reflexivity. }
  apply (rtc_l _ _ s3).
  { apply (wstep_selected _ _ _ _ s2 0 cr
      (CreationSignal (CreationResponse "resource@host" "host" "resource")) (Ret (inr sessionCtx)) (wh s3));
      [reflexivity|done|vm_compute; reflexivity]. }
  apply (rtc_l _ _ s4); [|apply rtc_refl].
  apply (wstep_watch _ _ _ _ s3 0 0 (Some (ErrTimeout None)) (Ret tt) (wh s4));
    [reflexivity|vm_compute; reflexivity].
Qed.

Lemma session_lifecycle_witness :
  sessionInfos (wh s4) !! 0 = Some info4 ∧ si_sessionState info4 = sessionStateFailed ∧
  getSessionInfo sessionCtx = Some 0 ∧
  (openSessions (wh s4) !! si_SessionID info4 = Some 0 ↔ si_sessionState info4 = sessionStateOpen) ∧
  (si_sessionState info4 ≠ sessionStateOpen →
     Err (contexts (wh s4)) sessionCtx = Some ErrCanceled_ ∧
     ∃ d, Done_ (contexts (wh s4)) sessionCtx = Some d ∧
       is_closed (chans (contexts (wh s4))) d = Some true).
Proof.
  split; [reflexivity|]. split; [reflexivity|].
  apply (session_lifecycle true header validated encoded (Store ∅ ∅ ∅ ∅ ∅) s4 0 info4
    (cr_parent cr) (cr_id cr) reaches); reflexivity.
Defined.

Lemma activity_routed_witness :
  let o := optionsOf (wh s3) sessionCtx in
  let '(err, o') := checkOptions o in
  executeActivity true header (inr "user") (inr None) "user" sessionCtx (wh s3) =
    (let params := toParams (in_session true "resource@host" o') "user" None None in
     (Ret (inr params),
      with_activity params (with_struct 0 (set_TaskListKind TaskListKindNormal o') (wh s3)))) ∧
  (err = None → valid_options o o').
Proof.
  refine (activity_routed true header "user" None "user" sessionCtx (wh s3) 0
    (optionsOf (wh s3) sessionCtx) _ _ _).
  - reflexivity.
  - reflexivity.
  - intros p [= <-]. vm_compute. lia.
Defined.

End SampleSession.
