(* ===== verification/AutoScaler.v ===== *)
(** * Permits and the auto scaler of pollers

    internal/worker: the permits of a worker on a semaphore that can be resized
    (concurrency.go, resizable_permit.go), and the auto scaler that resizes the one
    of the pollers after the hints of the service (concurrency_auto_scaler.go).
    Durations and times are nanoseconds. *)

From Stdlib Require Import ZArith SpecFloat Lia.
From stdpp Require Import base list strings option.
From S2P Require Import Prelude.
From S2P Require Import Shared.
From S2P Require Import Errors.
From S2P Require Import Backoff.

Local Open Scope Z_scope.

(** ** The semaphore

    github.com/marusama/semaphore is not part of the repository.  What the code
    calls: a semaphore has a limit and a count, an acquisition waits until the
    count is below the limit, a release that was not acquired panics, and the
    limit can be set at any time. *)
Class Semaphore (S : Type) := {
  sem_New : Z → S;
  sem_Acquire : S → option S;   (** [None]: it has to wait *)
  sem_Release : S → option S;   (** [None]: it panics *)
  sem_GetLimit : S → Z;
  sem_GetCount : S → Z;
  sem_SetLimit : Z → S → S }.

Class SemaphoreLaws (S : Type) `{!Semaphore S} : Prop := {
  New_count n : sem_GetCount (sem_New n) = 0;
  New_limit n : sem_GetLimit (sem_New n) = n;
  Acquire_blocks s : sem_GetLimit s <= sem_GetCount s → sem_Acquire s = None;
  Acquire_succeeds s : sem_GetCount s < sem_GetLimit s → is_Some (sem_Acquire s);
  Acquire_count s s' : sem_Acquire s = Some s' → sem_GetCount s' = sem_GetCount s + 1;
  Acquire_limit s s' : sem_Acquire s = Some s' → sem_GetLimit s' = sem_GetLimit s;
  Release_succeeds s : 0 < sem_GetCount s → is_Some (sem_Release s);
  Release_count s s' : sem_Release s = Some s' → sem_GetCount s' = sem_GetCount s - 1;
  Release_limit s s' : sem_Release s = Some s' → sem_GetLimit s' = sem_GetLimit s;
  SetLimit_count n s : sem_GetCount (sem_SetLimit n s) = sem_GetCount s;
  SetLimit_limit n s : sem_GetLimit (sem_SetLimit n s) = n }.

(** A semaphore that keeps the two numbers. *)
Definition counting := (Z * Z)%type.
Global Instance counting_semaphore : Semaphore counting := {|
  sem_New n := (0, n);
  sem_Acquire s := if bool_decide (fst s < snd s) then Some (fst s + 1, snd s) else None;
  sem_Release s := if bool_decide (0 < fst s) then Some (fst s - 1, snd s) else None;
  sem_GetLimit := snd;
  sem_GetCount := fst;
  sem_SetLimit n s := (fst s, n) |}.
Global Instance counting_laws : SemaphoreLaws counting.
Proof.
  split; simpl; try done; intros [c l]; simpl; repeat case_bool_decide; intros; simplify_eq/=;
    try done; try lia; by eexists.
Qed.

(** ** Rolling averages *)

Record rollingAverage := RollingAverage {
  window : list Z;
  index : nat;
  sum : Z;
  ra_count : Z }.

Definition newRollingAverage (capacity : nat) : rollingAverage :=
  RollingAverage (replicate capacity 0) 0 0 0.

Definition Add (value : Z) (r : rollingAverage) : rollingAverage :=
  match window r with
  | [] => r
  | w =>
      let old := default 0 (w !! index r) in
      RollingAverage (<[index r := value]> w) ((index r + 1) mod length w)%nat
        (int64 (sum r + int64 (value - old)))
        (if bool_decide (ra_count r < Z.of_nat (length w)) then ra_count r + 1 else ra_count r)
  end.

Definition Average (r : rollingAverage) : Z :=
  if bool_decide (ra_count r = 0) then 0 else Z.quot (sum r) (ra_count r).

(** ** The auto scaler *)

Definition Millisecond : Z := 1000000.
Definition numberOfPollsInRollingAverage : nat := 5.

Record ConcurrencyAutoScaler := AutoScaler {
  cooldown : Z;
  enabled : bool;
  pollerInitCount : Z;
  pollerMaxCount : Z;
  pollerMinCount : Z;
  pollerWaitTime : rollingAverage;
  pollerPermitLastUpdate : Z;
  pollerWaitTimeUpperBound : Z;
  pollerWaitTimeLowerBound : Z }.
Implicit Types (c : ConcurrencyAutoScaler).

Definition set_enabled b c := AutoScaler (cooldown c) b (pollerInitCount c) (pollerMaxCount c)
  (pollerMinCount c) (pollerWaitTime c) (pollerPermitLastUpdate c) (pollerWaitTimeUpperBound c)
  (pollerWaitTimeLowerBound c).
Definition set_waitTime r c := AutoScaler (cooldown c) (enabled c) (pollerInitCount c)
  (pollerMaxCount c) (pollerMinCount c) r (pollerPermitLastUpdate c) (pollerWaitTimeUpperBound c)
  (pollerWaitTimeLowerBound c).
Definition set_lastUpdate t c := AutoScaler (cooldown c) (enabled c) (pollerInitCount c)
  (pollerMaxCount c) (pollerMinCount c) (pollerWaitTime c) t (pollerWaitTimeUpperBound c)
  (pollerWaitTimeLowerBound c).

(** [math.Round]: half away from zero. *)
Definition Round (f : float64) : float64 :=
  match f with
  | S754_finite s m e =>
      if bool_decide (0 <= e) then f
      else let n := (Z.pos m + 2 ^ (- e - 1)) / 2 ^ (- e) in
           if bool_decide (n = 0) then S754_zero s else float_of_int (if s then - n else n)
  | _ => f
  end.

Section scaling.
Context {S : Type} `{!Semaphore S}.
Context (Log2 : float64 → float64).

(** The scaler with the permit of the pollers; the locks make each operation
    atomic. *)
Record scaling := Scaling { scaler : ConcurrencyAutoScaler; pollerPermit : S }.
Implicit Types (x : scaling).

Definition NewConcurrencyAutoScaler (permit : S) (cool now maxCount minCount upper lower : Z)
    : ConcurrencyAutoScaler :=
  AutoScaler cool false (sem_GetLimit permit) maxCount minCount
    (newRollingAverage numberOfPollsInRollingAverage) now upper lower.

Definition SetQuota (n : Z) : M scaling unit :=
  modify (λ x, Scaling (scaler x) (sem_SetLimit n (pollerPermit x))).
Definition on_scaler (f : ConcurrencyAutoScaler → ConcurrencyAutoScaler) : M scaling unit :=
  modify (λ x, Scaling (f (scaler x)) (pollerPermit x)).

Definition resetConcurrency : M scaling unit := x ← get; SetQuota (pollerInitCount (scaler x)).

Definition ProcessPollerHint (hint : option AutoConfigHint) : M scaling unit :=
  match hint with
  | None => mret tt
  | Some hint =>
      match AutoConfigHint_PollerWaitTimeInMs hint with
      | Some waitTimeInMs =>
          if bool_decide (waitTimeInMs >= 0) then
            on_scaler (λ c, set_waitTime
              (Add (int64 (Millisecond * waitTimeInMs)) (pollerWaitTime c)) c)
          else mret tt
      | None => mret tt
      end;;
      let shouldEnable := default false (AutoConfigHint_EnableAutoConfig hint) in
      x ← get;
      if bool_decide (shouldEnable ≠ enabled (scaler x)) then
        on_scaler (set_enabled shouldEnable);;
        if shouldEnable then mret tt else resetConcurrency
      else mret tt
  end.

Definition smoothingFunc (x : Z) : float64 :=
  Log2 (SFadd 53 1024 (float_of_int 2) (float_of_int (Z.quot x Millisecond))).

(** [scaleUpPollerPermit] and [scaleDownPollerPermit] differ in the bound. *)
Definition scalePollerPermit (bound waitTime : Z) x : Z :=
  let c := scaler x in
  let currentQuota := sem_GetLimit (pollerPermit x) in
  let newQuota := Round (SFdiv 53 1024
    (SFmul 53 1024 (float_of_int currentQuota) (smoothingFunc bound)) (smoothingFunc waitTime)) in
  let newQuota := Max (float_of_int (pollerMinCount c))
                    (Min (float_of_int (pollerMaxCount c)) newQuota) in
  Trunc newQuota.
Definition scaleUpPollerPermit (waitTime : Z) x : Z :=
  scalePollerPermit (pollerWaitTimeLowerBound (scaler x)) waitTime x.
Definition scaleDownPollerPermit (waitTime : Z) x : Z :=
  scalePollerPermit (pollerWaitTimeUpperBound (scaler x)) waitTime x.

Definition updatePollerPermit (now : Z) : M scaling unit :=
  x ← get;
  let c := scaler x in
  if negb (enabled c) then mret tt else
  if bool_decide (now < pollerPermitLastUpdate c + cooldown c) then mret tt else
  let waitTime := Average (pollerWaitTime c) in
  if bool_decide (waitTime < pollerWaitTimeLowerBound c) then
    SetQuota (scaleUpPollerPermit waitTime x);; on_scaler (set_lastUpdate now)
  else if bool_decide (waitTime > pollerWaitTimeUpperBound c) then
    SetQuota (scaleDownPollerPermit waitTime x);; on_scaler (set_lastUpdate now)
  else mret tt.

End scaling.
Arguments scaling : clear implicits.
