(* ===== verification/AutoScalerProps.v ===== *)
(** * The auto scaler: theorems

    The rolling average is that of the last values, and the quota of the pollers
    stays between its bounds. *)

From Stdlib Require Import ZArith SpecFloat Lia.
From stdpp Require Import base list strings option.
From S2P Require Import Prelude.
From S2P Require Import Shared.
From S2P Require Import Errors.
From S2P Require Import Floats.
From S2P Require Import Backoff.
From S2P Require Import AutoScaler.

Local Open Scope Z_scope.

(** ** Rounding keeps 53 digits *)

Lemma shr_1_half r : 0 <= shr_m r → shr_m (shr_1 r) = shr_m r / 2 ∧ 0 <= shr_m (shr_1 r).
Proof.
  destruct r as [m b1 b2]. cbn [shr_m shr_1]. intros Hm.
  destruct m as [|[p|p|]|p]; cbn [shr_m]; [done| | |done|lia]; (split; [|lia]).
  - rewrite Pos2Z.inj_xI, Z.mul_comm, Z.div_add_l by lia. change (1 / 2) with 0. lia.
  - by rewrite Pos2Z.inj_xO, Z.mul_comm, Z.div_mul by lia.
Qed.

Lemma iter_shr_1 p r :
  0 <= shr_m r →
  shr_m (SpecFloat.iter_pos shr_1 p r) = shr_m r / 2 ^ Z.pos p ∧ 0 <= shr_m (SpecFloat.iter_pos shr_1 p r).
Proof.
  revert r. induction p as [p IH|p IH|]; intros r Hr; cbn [SpecFloat.iter_pos].
  - destruct (shr_1_half r Hr) as [E1 P1]. destruct (IH _ P1) as [E2 P2]. destruct (IH _ P2) as [E3 P3].
    split; [|done]. rewrite E3, E2, E1, !Z.div_div by lia. f_equal.
    replace (Z.pos p~1) with (1 + Z.pos p + Z.pos p) by lia. rewrite !Z.pow_add_r by lia. lia.
  - destruct (IH _ Hr) as [E2 P2]. destruct (IH _ P2) as [E3 P3].
    split; [|done]. rewrite E3, E2, !Z.div_div by lia. f_equal.
    replace (Z.pos p~0) with (Z.pos p + Z.pos p) by lia. by rewrite Z.pow_add_r by lia.
  - apply shr_1_half, Hr.
Qed.

Lemma digits_bound m : 0 <= m → 0 <= Zdigits2 m ∧ m < 2 ^ Zdigits2 m.
Proof.
  destruct m as [|p|p]; cbn [Zdigits2]; [done| |lia]. intros _.
  pose proof (digits2_pos_bound p). lia.
Qed.

Lemma shr_fexp_bound m e l r e' :
  0 <= m → shr_fexp 53 1024 m e l = (r, e') → 0 <= shr_m r < 2 ^ 53.
Proof.
  intros Hm. unfold shr_fexp. set (r0 := shr_record_of_loc m l).
  assert (shr_m r0 = m) as H0 by (unfold r0; by destruct l as [|[]]).
  destruct (digits_bound m Hm) as [Hd1 Hd2]. unfold shr.
  destruct (fexp 53 1024 (Zdigits2 m + e) - e) as [|p|p] eqn:E; intros [= <- _];
    unfold fexp, emin in E.
  - rewrite H0. pose proof (Z.pow_le_mono_r 2 (Zdigits2 m) 53). lia.
  - destruct (iter_shr_1 p r0) as [-> ?]; [by rewrite H0|]. rewrite H0. split; [by apply Z.div_pos; lia|].
    apply Z.div_lt_upper_bound; [lia|]. rewrite <- Z.pow_add_r by lia.
    pose proof (Z.pow_le_mono_r 2 (Zdigits2 m) (Z.pos p + 53)). lia.
  - rewrite H0. pose proof (Z.pow_le_mono_r 2 (Zdigits2 m) 53). lia.
Qed.

(** Where there are digits enough, all 53 are kept, above the least exponent. *)
Lemma shr_fexp_normal m e l r e' :
  0 <= m → e <= fexp 53 1024 (Zdigits2 m + e) → shr_fexp 53 1024 m e l = (r, e') →
  e' = fexp 53 1024 (Zdigits2 m + e) ∧ (-1074 < e' → 2 ^ 52 <= shr_m r).
Proof.
  intros Hm He. unfold shr_fexp. set (r0 := shr_record_of_loc m l).
  assert (shr_m r0 = m) as H0 by (unfold r0; by destruct l as [|[]]).
  assert (0 < Zdigits2 m → 2 ^ (Zdigits2 m - 1) <= m) as Hd2.
  { destruct m as [|p|p]; [done| |done]. cbn [Zdigits2]. pose proof (digits2_pos_bound p) as [_ Hb].
    rewrite <- (Z.sub_add 1 (Z.pos (digits2_pos p))), Z.pow_add_r in Hb by lia. lia. }
  destruct (digits_bound m Hm) as [Hd1 _].
  unfold shr, fexp, emin in *. set (d := Zdigits2 m) in *.
  destruct (Z.max _ _ - e) as [|p|p] eqn:E; intros [= <- <-]; [| |lia].
  - split; [lia|]. intros ?. rewrite H0. pose proof (Z.pow_le_mono_r 2 52 (d - 1)). lia.
  - split; [lia|]. intros ?. destruct (iter_shr_1 p r0) as [-> _]; [rewrite H0; lia|]. rewrite H0.
    apply Z.div_le_lower_bound; [lia|]. rewrite <- Z.pow_add_r by lia.
    pose proof (Z.pow_le_mono_r 2 (Z.pos p + 52) (d - 1)). lia.
Qed.

(** What an operation on floats returns: a number of 53 digits, or an infinity. *)
Definition rounded (f : float64) : Prop :=
  match f with S754_nan => False | S754_finite _ m _ => Z.pos m < 2 ^ 53 | _ => True end.
Definition normal (f : float64) : Prop :=
  match f with S754_finite _ m e => -1074 < e → 2 ^ 52 <= Z.pos m | _ => True end.

Lemma binary_round_aux_rounded s m e l : 0 <= m → rounded (binary_round_aux 53 1024 s m e l).
Proof.
  intros Hm. unfold binary_round_aux.
  destruct (shr_fexp 53 1024 m e l) as [r1 e1] eqn:E1.
  pose proof (shr_fexp_bound _ _ _ _ _ Hm E1) as H1.
  set (m1 := round_nearest_even _ _). assert (0 <= m1).
  { unfold m1, round_nearest_even. destruct (loc_of_shr_record r1) as [|[]]; [lia| |lia|lia].
    destruct (Z.even _); lia. }
  destruct (shr_fexp 53 1024 m1 e1 loc_Exact) as [r2 e2] eqn:E2.
  pose proof (shr_fexp_bound m1 _ _ _ _ ltac:(done) E2) as H2.
  destruct (shr_m r2) as [|p|p]; [done| |lia].
  destruct (_ <=? _); [exact (proj2 H2)|done].
Qed.

Lemma binary_round_rounded s m e : rounded (binary_round 53 1024 s m e).
Proof.
  unfold binary_round. destruct (shl_align _ _ _) as [mz ez]. by apply binary_round_aux_rounded.
Qed.

Lemma float_of_int_rounded n : rounded (float_of_int n).
Proof. unfold float_of_int, binary_normalize. destruct n; [done|apply binary_round_rounded..]. Qed.

(** The quotient that is scaled: the factors are positive. *)
Lemma scaled_rounded q m1 e1 m2 e2 :
  rounded (SFdiv 53 1024 (SFmul 53 1024 (float_of_int q) (S754_finite false m1 e1))
             (S754_finite false m2 e2)).
Proof.
  assert (rounded (SFmul 53 1024 (float_of_int q) (S754_finite false m1 e1))) as Hm.
  { pose proof (float_of_int_rounded q) as Hq. destruct (float_of_int q) as [s|s| |s m e]; simpl; try done.
    by apply binary_round_aux_rounded. }
  destruct (SFmul _ _ _ _) as [s|s| |s m e]; simpl; try done.
  destruct (SFdiv_core_binary _ _ _ _ _ _) as [[q' e'] l] eqn:E. apply binary_round_aux_rounded.
  unfold SFdiv_core_binary in E.
  match type of E with context [Z.div_eucl ?n ?d] =>
    assert (0 <= n) as Hn; [|pose proof (Z.div_pos n d Hn ltac:(lia)) as Hpos; unfold Z.div in Hpos] end.
  { destruct (_ - _) as [|p|p]; [lia| |lia]. by apply Z.shiftl_nonneg. }
  destruct (Z.div_eucl _ _) as [a b]. by simplify_eq.
Qed.

Lemma binary_round_aux_normal s m e l :
  0 <= m → e <= fexp 53 1024 (Zdigits2 m + e) → normal (binary_round_aux 53 1024 s m e l).
Proof.
  intros Hm He. unfold binary_round_aux.
  destruct (shr_fexp 53 1024 m e l) as [r1 e1] eqn:E1.
  pose proof (shr_fexp_bound _ _ _ _ _ Hm E1) as Hb.
  destruct (shr_fexp_normal _ _ _ _ _ Hm He E1) as [He1 Hn1].
  set (m1 := round_nearest_even _ _). assert (shr_m r1 <= m1).
  { unfold m1, round_nearest_even. destruct (loc_of_shr_record r1) as [|[]]; [lia| |lia|lia].
    destruct (Z.even _); lia. }
  destruct (shr_fexp 53 1024 m1 e1 loc_Exact) as [r2 e2] eqn:E2.
  destruct (shr_fexp_normal m1 e1 loc_Exact r2 e2) as [He2 Hn2]; [lia| |done|].
  - destruct (digits_bound m1) as [Hd1 Hd2]; [lia|]. unfold fexp, emin in *.
    destruct (Z.le_gt_cases 53 (Zdigits2 m1)) as [?|Hlt]; [lia|].
    destruct (decide (e1 = -1074)) as [->|]; [lia|].
    assert (2 ^ 52 <= shr_m r1) by (apply Hn1; lia).
    pose proof (Z.pow_le_mono_r 2 (Zdigits2 m1) 52). lia.
  - destruct (shr_m r2) as [|p|p]; [done| |done]. by destruct (_ <=? _).
Qed.

Lemma digits_ge m k : 0 <= m → 2 ^ k <= m → k < Zdigits2 m.
Proof.
  intros Hm Hk. destruct (digits_bound m Hm) as [_ Hd].
  apply (Z.pow_lt_mono_r_iff 2); [lia|apply digits_bound, Hm|lia].
Qed.

Lemma scaled_normal q m1 e1 m2 e2 :
  normal (SFdiv 53 1024 (SFmul 53 1024 (float_of_int q) (S754_finite false m1 e1))
             (S754_finite false m2 e2)).
Proof.
  destruct (SFmul _ _ _ _) as [s|s| |s m e]; cbn [SFdiv]; try done.
  unfold SFdiv_core_binary. set (d1 := Zdigits2 (Z.pos m)). set (d2 := Zdigits2 (Z.pos m2)).
  set (K := d1 + e - (d2 + e2)). set (e' := Z.min (fexp 53 1024 K) (e - e2)).
  set (n := match e - e2 - e' with Z0 => _ | Z.pos _ => _ | Z.neg _ => _ end).
  assert (n = Z.pos m * 2 ^ (e - e2 - e')) as Hn.
  { assert (0 <= e - e2 - e') by (unfold e'; lia). unfold n.
    destruct (e - e2 - e') eqn:E; [lia| |lia]. by rewrite Z.shiftl_mul_pow2 by lia. }
  destruct (digits_bound (Z.pos m2)) as [_ Hm2]; [lia|]. fold d2 in Hm2.
  assert (0 <= n / Z.pos m2) as Hq by (apply Z.div_pos; [rewrite Hn; lia|lia]).
  assert (K - e' <= Zdigits2 (n / Z.pos m2)) as Hdq.
  { destruct (Z.le_gt_cases (K - e') 0) as [?|Hk]; [pose proof (digits_bound _ Hq); lia|].
    pose proof (digits_ge (n / Z.pos m2) (K - e' - 1) Hq) as Hg. enough (2 ^ (K - e' - 1) <= n / Z.pos m2) by lia.
    apply Z.div_le_lower_bound; [lia|]. rewrite Hn.
    assert (2 ^ (d1 - 1) <= Z.pos m ∧ 0 < d1) as [Hd1 ?].
    { unfold d1. cbn [Zdigits2]. pose proof (digits2_pos_bound m) as [_ Hb].
      rewrite <- (Z.sub_add 1 (Z.pos (digits2_pos m))), Z.pow_add_r in Hb by lia. lia. }
    assert (0 < d2) by (unfold d2; cbn [Zdigits2]; lia).
    assert (0 <= e - e2 - e') by (unfold e'; lia).
    transitivity (2 ^ d2 * 2 ^ (K - e' - 1)); [nia|]. rewrite <- Z.pow_add_r by lia.
    replace (d2 + (K - e' - 1)) with (d1 - 1 + (e - e2 - e')) by (unfold K; lia).
    rewrite Z.pow_add_r by lia. nia. }
  unfold Z.div in Hq, Hdq. destruct (Z.div_eucl n (Z.pos m2)) as [a b].
  apply binary_round_aux_normal; [exact Hq|]. cbn iota beta in Hdq. 
  pose proof (Z.le_min_l (fexp 53 1024 K) (e - e2)) as He'. fold e' in He'.
  clearbody e'. unfold fexp, emin in *. lia.
Qed.

(** ** Comparing whole numbers *)

(** A positive whole number of at most 53 digits, as a float64. *)
Definition whole (n : Z) (f : float64) : Prop :=
  ∃ m e, f = S754_finite false m e ∧ -53 < e <= 0 ∧ Z.pos m = n * 2 ^ (- e) ∧ 2 ^ 52 <= Z.pos m < 2 ^ 53.

Lemma float_of_int_whole n : 0 < n < 2 ^ 53 → whole n (float_of_int n).
Proof.
  intros Hn. destruct n as [|p|p]; [lia| |lia]. unfold float_of_int, binary_normalize.
  destruct (binary_round_exact false p) as (m & e & -> & He & Hm & Hd).
  - destruct (Z.le_gt_cases (Z.pos (digits2_pos p)) 53) as [?|Hgt]; [done|].
    pose proof (digits2_pos_bound p) as [_ Hb].
    pose proof (Z.pow_le_mono_r 2 54 (Z.pos (digits2_pos p))). lia.
  - exists m, e. split_and!; try done; [lia..| |];
      pose proof (digits2_pos_bound m) as Hb; rewrite Hd in Hb; lia.
Qed.

Lemma float_of_int_negative p :
  Z.pos p < 2 ^ 53 → ∃ m e, float_of_int (Z.neg p) = S754_finite true m e.
Proof.
  intros Hn. unfold float_of_int, binary_normalize.
  destruct (binary_round_exact true p) as (m & e & -> & _); [|by eexists _, _].
  destruct (Z.le_gt_cases (Z.pos (digits2_pos p)) 53) as [?|Hgt]; [done|].
  pose proof (digits2_pos_bound p) as [_ Hb].
  pose proof (Z.pow_le_mono_r 2 54 (Z.pos (digits2_pos p))). lia.
Qed.


(** A natural number below [2 ^ 53], as a float64. *)
Definition natural (n : Z) (f : float64) : Prop :=
  (n = 0 ∧ f = S754_zero false) ∨ (0 < n < 2 ^ 53 ∧ whole n f).

Lemma float_of_int_natural n : 0 <= n < 2 ^ 53 → natural n (float_of_int n).
Proof.
  intros Hn. destruct (decide (n = 0)) as [->|]; [by left|].
  right. split; [lia|]. apply float_of_int_whole. lia.
Qed.

Lemma whole_trunc n f : 0 < n < 2 ^ 53 → whole n f → Trunc f = n.
Proof.
  intros Hn (m & e & -> & He & Hm & _). cbn [Trunc].
  assert ((if bool_decide (0 <= e) then Z.pos m * 2 ^ e else Z.pos m / 2 ^ (- e)) = n) as ->.
  { case_bool_decide.
    - assert (e = 0) as -> by lia. lia.
    - rewrite Hm, Z.div_mul by lia. done. }
  rewrite bool_decide_true by lia. done.
Qed.

Lemma natural_trunc n f : natural n f → Trunc f = n.
Proof. intros [[-> ->]|[? ?]]; [done|by apply whole_trunc]. Qed.

(** With the larger exponent the larger number. *)
Lemma exponent_lt a b e1 e2 :
  0 < a → e1 < e2 <= 0 → a * 2 ^ (- e1) < 2 ^ 53 → 2 ^ 52 <= b * 2 ^ (- e2) → a < b.
Proof.
  intros Ha He H1 H2. replace (- e1) with (- e2 + (e2 - e1 - 1) + 1) in H1 by lia.
  rewrite !Z.pow_add_r in H1 by lia. assert (0 < 2 ^ (- e2)) by lia.
  assert (0 < 2 ^ (e2 - e1 - 1)) by (apply Z.pow_pos_nonneg; lia).
  assert (a * 2 ^ (- e2) <= a * (2 ^ (- e2) * 2 ^ (e2 - e1 - 1))) by nia. nia.
Qed.

Lemma whole_lt a b f g : 0 < a → 0 < b → whole a f → whole b g → float_lt f g = bool_decide (a < b).
Proof.
  intros Ha Hb (m1 & e1 & -> & He1 & Hm1 & Hd1) (m2 & e2 & -> & He2 & Hm2 & Hd2).
  unfold float_lt, SFcompare. symmetry. destruct (Z.compare_spec e1 e2) as [->|Hlt|Hgt].
  - assert (0 < 2 ^ (- e2)) by lia. change (Pos.compare_cont Eq m1 m2) with (m1 ?= m2)%positive.
    destruct (Pos.compare_spec m1 m2) as [->|Hc|Hc]; [apply bool_decide_false|apply bool_decide_true|apply bool_decide_false]; nia.
  - apply bool_decide_true. rewrite Hm1 in Hd1. rewrite Hm2 in Hd2. apply (exponent_lt a b e1 e2 Ha); [lia|apply Hd1|apply Hd2].
  - apply bool_decide_false. rewrite Hm1 in Hd1. rewrite Hm2 in Hd2.
    assert (b < a); [|lia]. apply (exponent_lt b a e2 e1 Hb); [lia|apply Hd2|apply Hd1].
Qed.

Lemma natural_min a b f g : natural a f → natural b g → natural (Z.min a b) (Min f g).
Proof.
  intros [[-> ->]|[Ha Hf]] [[-> ->]|[Hb Hg]].
  - by left.
  - destruct Hg as (m & e & -> & ?). rewrite Z.min_l by lia. by left.
  - destruct Hf as (m & e & -> & ?). rewrite Z.min_r by lia. by left.
  - pose proof (whole_lt a b f g ltac:(lia) ltac:(lia) Hf Hg) as Hlt. right. split; [lia|].
    assert (Min f g = if float_lt f g then f else g) as ->.
    { by destruct Hf as (? & ? & -> & _), Hg as (? & ? & -> & _). }
    rewrite Hlt. case_bool_decide; [by rewrite Z.min_l by lia|by rewrite Z.min_r by lia].
Qed.

Lemma natural_max a b f g : natural a f → natural b g → natural (Z.max a b) (Max f g).
Proof.
  intros [[-> ->]|[Ha Hf]] [[-> ->]|[Hb Hg]].
  - by left.
  - destruct (Hg) as (m & e & -> & ?). rewrite Z.max_r by lia. by right.
  - destruct (Hf) as (m & e & -> & ?). rewrite Z.max_l by lia. by right.
  - pose proof (whole_lt b a g f ltac:(lia) ltac:(lia) Hg Hf) as Hlt. right. split; [lia|].
    assert (Max f g = if float_lt g f then f else g) as ->.
    { by destruct Hf as (? & ? & -> & _), Hg as (? & ? & -> & _). }
    rewrite Hlt. case_bool_decide; [by rewrite Z.max_l by lia|by rewrite Z.max_r by lia].
Qed.

(** ** The bounds of the quota *)

(** What [Round] returns for such a number. *)
Inductive rounds : float64 → Prop :=
| rounds_natural n f : natural n f → rounds f
| rounds_negative_zero : rounds (S754_zero true)
| rounds_infinity s : rounds (S754_infinity s)
| rounds_negative m e : rounds (S754_finite true m e)
| rounds_large m e : 0 < e → rounds (S754_finite false m e).

Lemma Round_rounds f : rounded f → normal f → rounds (Round f).
Proof.
  destruct f as [s|s| |s m e]; cbn [rounded normal Round]; intros Hr Hn; try done.
  - destruct s; [constructor|]. apply (rounds_natural 0). by left.
  - constructor.
  - case_bool_decide as He.
    + destruct s; [constructor|]. destruct (decide (e = 0)) as [->|]; [|constructor; lia].
      apply (rounds_natural (Z.pos m)). right. split; [lia|]. exists m, 0. split_and!; try done; lia.
    + set (n := (Z.pos m + 2 ^ (- e - 1)) / 2 ^ (- e)).
      assert (0 <= n < 2 ^ 53) as Hb.
      { assert (2 ^ (- e) = 2 * 2 ^ (- e - 1)) as E.
        { rewrite <- Z.pow_succ_r by lia. f_equal. lia. }
        assert (0 < 2 ^ (- e - 1)) by lia. unfold n. split; [apply Z.div_pos; lia|].
        apply Z.div_lt_upper_bound; nia. }
      case_bool_decide as Hz; [destruct s; [constructor|apply (rounds_natural 0); by left]|].
      destruct s; [|by apply (rounds_natural n), float_of_int_natural].
      destruct n as [|p|p] eqn:Ep; [lia| |lia]. change (- Z.pos p) with (Z.neg p).
      destruct (float_of_int_negative p) as (m' & e' & ->); [lia|constructor].
Qed.

Lemma clamp_bounds lo hi f :
  0 <= lo <= hi → hi < 2 ^ 53 → rounds f →
  lo <= Trunc (Max (float_of_int lo) (Min (float_of_int hi) f)) <= hi.
Proof.
  intros Hlo Hhi Hf. pose proof (float_of_int_natural lo ltac:(lia)) as Nlo.
  pose proof (float_of_int_natural hi ltac:(lia)) as Nhi.
  assert (∀ n g, natural n g → n <= hi → lo <= Trunc (Max (float_of_int lo) g) <= hi) as Hmax.
  { intros n g Hg Hn. rewrite (natural_trunc (Z.max lo n)); [lia|by apply natural_max]. }
  assert (∀ g, (∃ m e, g = S754_finite true m e) ∨ g = S754_infinity true →
    Max (float_of_int lo) g = float_of_int lo) as Hneg.
  { intros g Hg. destruct Nlo as [[-> ->]|[_ (ml & el & -> & _)]];
      by destruct Hg as [(? & ? & ->)| ->]. }
  destruct Hf as [n f Hn| |s|m e|m e He].
  - eapply Hmax; [by apply natural_min|lia].
  - assert (Min (float_of_int hi) (S754_zero true) = S754_zero true) as ->.
    { destruct Nhi as [[-> ->]|[_ (? & ? & -> & _)]]; done. }
    destruct Nlo as [[-> ->]|[? (ml & el & E & H)]].
    + assert (Trunc (Max (S754_zero false) (S754_zero true)) = 0) by done. lia.
    + assert (Max (float_of_int lo) (S754_zero true) = float_of_int lo) as -> by (by rewrite E).
      rewrite (whole_trunc lo); [lia|lia|]. by exists ml, el.
  - destruct s.
    + assert (Min (float_of_int hi) (S754_infinity true) = S754_infinity true) as ->.
      { destruct Nhi as [[-> ->]|[_ (? & ? & -> & _)]]; done. }
      rewrite Hneg by auto. rewrite (natural_trunc lo); [lia|done].
    + assert (Min (float_of_int hi) (S754_infinity false) = float_of_int hi) as ->.
      { destruct Nhi as [[-> ->]|[_ (? & ? & -> & _)]]; done. }
      by eapply Hmax.
  - assert (Min (float_of_int hi) (S754_finite true m e) = S754_finite true m e) as ->.
    { destruct Nhi as [[-> ->]|[_ (? & ? & -> & _)]]; done. }
    rewrite Hneg by eauto. rewrite (natural_trunc lo); [lia|done].
  - assert (Min (float_of_int hi) (S754_finite false m e) = float_of_int hi) as ->; [|by eapply Hmax].
    destruct Nhi as [[-> ->]|[_ (mh & eh & -> & Heh & _)]]; [done|].
    unfold Min, float_lt, SFcompare. by destruct (Z.compare_spec eh e); [lia|..|lia].
Qed.

(** ** The rolling average *)

Definition sumZ (l : list Z) : Z := foldr Z.add 0 l.
Definition lastn (k : nat) (l : list Z) : list Z := drop (length l - k) l.

Lemma sumZ_app l l' : sumZ (l ++ l') = sumZ l + sumZ l'.
Proof. induction l as [|a l IH]; simpl; [done|]. rewrite IH. lia. Qed.

Lemma sumZ_insert l i old v : l !! i = Some old → sumZ (<[i := v]> l) = sumZ l + v - old.
Proof.
  revert i. induction l as [|a l IH]; intros [|i] Hi; simplify_eq/=; [lia|]. rewrite (IH _ Hi). lia.
Qed.

Lemma sumZ_bound b l : Forall (λ v, 0 <= v <= b) l → 0 <= sumZ l <= b * Z.of_nat (length l).
Proof.
  induction 1 as [|v l Hv _ IH]; [simpl; lia|].
  change (sumZ (v :: l)) with (v + sumZ l). cbn [length]. nia.
Qed.

(** The window after the values [vs]. *)
Record ra_ok (k : nat) (vs : list Z) (r : rollingAverage) : Prop := {
  ra_length : length (window r) = k;
  ra_index : index r = (length vs mod k)%nat;
  ra_counted : ra_count r = Z.of_nat (length vs `min` k);
  ra_sum : sum r = int64 (sumZ (lastn k vs));
  ra_window : sumZ (window r) = sumZ (lastn k vs);
  ra_value (i : nat) : (length vs - k <= i < length vs)%nat → window r !! (i mod k)%nat = vs !! i;
  ra_zero (j : nat) : (length vs <= j < k)%nat → window r !! j = Some 0 }.

Lemma ra_new k : (0 < k)%nat → ra_ok k [] (newRollingAverage k).
Proof.
  intros Hk. constructor; simpl; try done.
  - by rewrite length_replicate.
  - by rewrite Nat.Div0.mod_0_l.
  - clear Hk. induction k; simpl; [done|lia].
  - lia.
  - intros j Hj. apply lookup_replicate. split; [done|lia].
Qed.

(** The value that the next one replaces. *)
Lemma ra_replaced k vs r v :
  (0 < k)%nat → ra_ok k vs r →
  ∃ old, window r !! index r = Some old ∧
    sumZ (lastn k (vs ++ [v])) = sumZ (lastn k vs) + v - old.
Proof.
  intros Hk [Hl Hi Hc Hs Hw Hv Hz]. unfold lastn. rewrite length_app. simpl.
  destruct (Nat.lt_ge_cases (length vs) k) as [Hlt|Hge].
  - exists 0. split; [rewrite Hi, Nat.mod_small by done; apply Hz; lia|].
    replace (length vs + 1 - k)%nat with 0%nat by lia. replace (length vs - k)%nat with 0%nat by lia.
    rewrite !drop_0, sumZ_app. simpl. lia.
  - destruct (lookup_lt_is_Some_2 vs (length vs - k)) as [old Hold]; [lia|]. exists old. split.
    + rewrite Hi, <- Hold, <- (Hv (length vs - k)%nat) by lia. f_equal.
      rewrite <- (Nat.Div0.mod_add (length vs - k) 1 k). f_equal. lia.
    + replace (length vs + 1 - k)%nat with (S (length vs - k)) by lia.
      rewrite (drop_S vs old (length vs - k)) by done.
      rewrite (drop_app_le vs [v]), sumZ_app by lia. simpl. lia.
Qed.

Lemma ra_add k vs r v : (0 < k)%nat → ra_ok k vs r → ra_ok k (vs ++ [v]) (Add v r).
Proof.
  intros Hk Hok. destruct (ra_replaced k vs r v Hk Hok) as (old & Hold & Hsum).
  destruct Hok as [Hl Hi Hc Hs Hw Hv Hz]. pose proof (lookup_lt_Some _ _ _ Hold) as Hlt.
  assert (length vs mod k < k)%nat by (apply Nat.mod_upper_bound; lia).
  unfold Add. destruct (window r) as [|w0 w] eqn:Ew; [simpl in Hl; lia|]. rewrite <- Ew in *.
  rewrite Hold. cbn [default]. rewrite Hl.
  constructor; cbn [window index sum ra_count]; rewrite ?length_app; simpl length.
  - by rewrite length_insert.
  - rewrite Hi. rewrite Nat.Div0.add_mod_idemp_l. done.
  - rewrite Hc. case_bool_decide; lia.
  - rewrite Hs, Hsum, int64_add. by rewrite Z.add_sub_assoc.
  - rewrite (sumZ_insert _ _ old) by done. lia.
  - intros i Hrange. destruct (decide (i = length vs)) as [->|].
    + rewrite Hi, list_lookup_insert_eq by lia. by rewrite list_lookup_middle.
    + rewrite list_lookup_insert_ne.
      * rewrite Hv by lia. by rewrite lookup_app_l by lia.
      * rewrite Hi. intros Heq. assert (length vs - i < k)%nat by lia.
        pose proof (Nat.div_mod_eq (length vs) k). pose proof (Nat.div_mod_eq i k).
        assert (length vs - i = k * (length vs / k - i / k))%nat as E by nia.
        destruct (length vs / k - i / k)%nat; nia.
  - intros j Hj. rewrite list_lookup_insert_ne; [apply Hz; lia|].
    rewrite Hi, Nat.mod_small by lia. lia.
Qed.

(** The rolling average of the wait times is the average of the last values,
    at most as many as the window has places, whatever was added before; sums wrap
    around like the int64 they are. *)
Theorem average_of_last k vs :
  (0 < k)%nat →
  Average (foldl (flip Add) (newRollingAverage k) vs) =
    match vs with
    | [] => 0
    | _ => Z.quot (int64 (sumZ (lastn k vs))) (Z.of_nat (length vs `min` k))
    end.
Proof.
  intros Hk.
  assert (ra_ok k vs (foldl (flip Add) (newRollingAverage k) vs)) as [_ _ Hc Hs _ _ _].
  { induction vs as [|v vs IH] using rev_ind; [by apply ra_new|].
    rewrite foldl_app. simpl. by apply ra_add. }
  unfold Average. rewrite Hc, Hs. destruct vs as [|v vs]; [done|].
  rewrite bool_decide_false; [done|]. cbn [length]. lia.
Qed.

(** ** The quota *)

Section quota.
Context {S : Type} `{!Semaphore S, !SemaphoreLaws S}.
Context (Log2 : float64 → float64).

(** [math.Log2] of a whole number from two up is a positive number. *)
Context (Log2_positive : ∀ n, 0 <= n < 2 ^ 53 →
  ∃ m e, Log2 (SFadd 53 1024 (float_of_int 2) (float_of_int n)) = S754_finite false m e).
Implicit Types (x : scaling S).

Lemma smoothing_positive d : 0 <= d < 2 ^ 63 → ∃ m e, smoothingFunc Log2 d = S754_finite false m e.
Proof.
  intros Hd. apply Log2_positive. unfold Millisecond. rewrite Z.quot_div_nonneg by lia.
  split; [by apply Z.div_pos; lia|]. apply Z.div_lt_upper_bound; lia.
Qed.

(** Limits that make sense: the pollers are counted, and the bounds are durations. *)
Record config_ok (c : ConcurrencyAutoScaler) : Prop := {
  co_counts : 0 <= pollerMinCount c <= pollerMaxCount c;
  co_max : pollerMaxCount c < 2 ^ 53;
  co_lower : 0 <= pollerWaitTimeLowerBound c < 2 ^ 63;
  co_upper : 0 <= pollerWaitTimeUpperBound c < 2 ^ 63 }.

Lemma scale_bounds bound wait x :
  config_ok (scaler x) → 0 <= bound < 2 ^ 63 → 0 <= wait < 2 ^ 63 →
  pollerMinCount (scaler x) <= scalePollerPermit Log2 bound wait x <= pollerMaxCount (scaler x).
Proof.
  intros [Hc Hm _ _] Hb Hw. unfold scalePollerPermit.
  destruct (smoothing_positive bound Hb) as (m1 & e1 & ->).
  destruct (smoothing_positive wait Hw) as (m2 & e2 & ->).
  apply clamp_bounds; [done|done|]. apply Round_rounds; [apply scaled_rounded|apply scaled_normal].
Qed.

(** A hint of the service, or a tick of the scaler. *)
Inductive operation := Hint_ (hint : option AutoConfigHint) | Tick (now : Z).
Definition perform (op : operation) : M (scaling S) unit :=
  match op with Hint_ hint => ProcessPollerHint hint | Tick now => updatePollerPermit Log2 now end.

(** A wait time of at most ten to the twelfth milliseconds, some thirty years. *)
Definition plausible (op : operation) : Prop :=
  match op with
  | Hint_ (Some hint) =>
      ∀ ms, AutoConfigHint_PollerWaitTimeInMs hint = Some ms → ms <= 10 ^ 12
  | _ => True
  end.

Definition static (c : ConcurrencyAutoScaler) :=
  (pollerInitCount c, pollerMinCount c, pollerMaxCount c, pollerWaitTimeLowerBound c,
   pollerWaitTimeUpperBound c).

Record scaling_ok (c0 : ConcurrencyAutoScaler) x : Prop := {
  so_static : static (scaler x) = static c0;
  so_quota : sem_GetLimit (pollerPermit x) = pollerInitCount c0 ∨
    pollerMinCount c0 <= sem_GetLimit (pollerPermit x) <= pollerMaxCount c0;
  so_disabled : enabled (scaler x) = false → sem_GetLimit (pollerPermit x) = pollerInitCount c0;
  so_times : ∃ vs, ra_ok 5 vs (pollerWaitTime (scaler x)) ∧ Forall (λ v, 0 <= v <= 10 ^ 18) vs }.

Lemma average_plausible vs r :
  ra_ok 5 vs r → Forall (λ v, 0 <= v <= 10 ^ 18) vs → 0 <= Average r < 2 ^ 63.
Proof.
  intros [_ _ Hc Hs _ _ _] Hv. unfold Average. case_bool_decide; [lia|]. rewrite Hs.
  pose proof (sumZ_bound (10 ^ 18) (lastn 5 vs) (Forall_drop _ _ _ Hv)) as Hsum.
  assert (length (lastn 5 vs) <= 5)%nat by (unfold lastn; rewrite length_drop; lia).
  rewrite int64_id by (unfold in_int64; lia). rewrite Z.quot_div_nonneg by lia.
  split; [apply Z.div_pos; lia|]. apply Z.div_lt_upper_bound; nia.
Qed.

Lemma hint_ok c0 hint x :
  scaling_ok c0 x → plausible (Hint_ hint) → scaling_ok c0 (snd (ProcessPollerHint hint x)).
Proof.
  intros Hok Hp. destruct hint as [hint|]; [|done]. cbn [ProcessPollerHint].
  set (waited := match AutoConfigHint_PollerWaitTimeInMs hint with Some _ => _ | None => _ end).
  assert (∃ x1, waited x = (Ret tt, x1) ∧ scaling_ok c0 x1) as (x1 & Hx1 & [Hst Hq Hd Hv]).
  { unfold waited. destruct (AutoConfigHint_PollerWaitTimeInMs hint) as [ms|] eqn:Hms; [|by eexists].
    case_bool_decide; [|by eexists]. specialize (Hp ms Hms). eexists. split; [reflexivity|].
    destruct Hok as [Hst Hq Hd (vs & Hvs & Hf)]. constructor; try done. simpl.
    exists (vs ++ [int64 (Millisecond * ms)]). split; [by apply ra_add; [lia|]|].
    apply Forall_app. split; [done|]. constructor; [|done].
    unfold Millisecond. rewrite int64_id by (unfold in_int64; lia). lia. }
  run. rewrite Hx1. simpl. case_bool_decide; [|by constructor].
  destruct (default false (AutoConfigHint_EnableAutoConfig hint)).
  - constructor; try done. 
  - injection Hst as E1 E2 E3 E4 E5. constructor; simpl; rewrite ?SetLimit_limit, ?E1, ?E2, ?E3, ?E4, ?E5; auto.
    unfold static. simpl. by rewrite E1, E2, E3, E4, E5.
Qed.

Lemma tick_ok c0 now x :
  config_ok c0 → scaling_ok c0 x → scaling_ok c0 (snd (updatePollerPermit Log2 now x)).
Proof.
  intros Hc Hok. pose proof Hok as [Hst Hq Hd (vs & Hvs & Hf)].
  assert (config_ok (scaler x)) as Hcx.
  { injection Hst as E1 E2 E3 E4 E5. destruct Hc. by constructor; rewrite ?E2, ?E3, ?E4, ?E5. }
  pose proof (average_plausible vs _ Hvs Hf) as Hw.
  unfold updatePollerPermit. run. destruct (enabled (scaler x)) eqn:He; simpl; [|done].
  case_bool_decide; [done|].
  assert (∀ bound, 0 <= bound < 2 ^ 63 →
    scaling_ok c0 (Scaling (set_lastUpdate now (scaler x))
      (sem_SetLimit (scalePollerPermit Log2 bound (Average (pollerWaitTime (scaler x))) x) (pollerPermit x)))) as Hset.
  { intros bound Hb. pose proof (scale_bounds bound _ x Hcx Hb Hw) as Hs.
    injection Hst as E1 E2 E3 E4 E5. rewrite E2, E3 in Hs.
    constructor; simpl; rewrite ?SetLimit_limit; [|by right| |by exists vs].
    - unfold static. simpl. by rewrite E1, E2, E3, E4, E5.
    - congruence. }
  case_bool_decide; [apply Hset, Hcx|]. case_bool_decide; [apply Hset, Hcx|done].
Qed.

(** C39: the auto scaler keeps the quota of pollers within its limits.  After any
    sequence of hints, whose wait times are at most thirty years, and of ticks, the
    quota is the initial one or lies between the configured counts, it is the
    initial one while the scaler is disabled, and the wait time that it scales
    with is not negative. *)
Theorem quota_bounded permit cool now maxCount minCount upper lower ops :
  let c := NewConcurrencyAutoScaler permit cool now maxCount minCount upper lower in
  config_ok c → Forall plausible ops →
  let x := foldl (λ x op, snd (perform op x)) (Scaling c permit) ops in
  (sem_GetLimit (pollerPermit x) = sem_GetLimit permit ∨
   minCount <= sem_GetLimit (pollerPermit x) <= maxCount) ∧
  (enabled (scaler x) = false → sem_GetLimit (pollerPermit x) = sem_GetLimit permit) ∧
  0 <= Average (pollerWaitTime (scaler x)) < 2 ^ 63.
Proof.
  intros c Hc Hops x.
  assert (scaling_ok c x) as [_ Hq Hd (vs & Hvs & Hf)].
  { unfold x. assert (scaling_ok c (Scaling c permit)) as H0.
    { constructor; simpl; auto. exists []. split; [apply ra_new; unfold numberOfPollsInRollingAverage; lia|done]. }
    revert H0. generalize (Scaling c permit). clear x.
    induction Hops as [|op ops Hop _ IH]; simpl; intros y Hy; [done|]. apply IH.
    destruct op; [by apply hint_ok|by apply tick_ok]. }
  split_and!; [done|done|..]; by apply (average_plausible vs).
Qed.

End quota.

(** ** Executions *)

Module SampleScaler.

(** A logarithm: whole, and at least one. *)
Definition log2 (f : float64) : float64 := float_of_int (Z.log2 (Z.max 2 (Trunc f))).
Definition permit : counting := sem_New 4.
Definition config : ConcurrencyAutoScaler :=
  NewConcurrencyAutoScaler permit 0 0 10 2 (256 * Millisecond) (16 * Millisecond).
Definition hint (enable : bool) (ms : Z) : operation :=
  Hint_ (Some (MkAutoConfigHint (Some enable) (Some ms))).
Definition quotas (ops : list operation) : list Z :=
  (λ n, sem_GetLimit (pollerPermit
     (foldl (λ x op, snd (perform log2 op x)) (Scaling config permit) (take n ops)))) <$>
    seq 0 (length ops + 1).

(** Busy pollers: the quota grows to its maximum; idle ones: it shrinks to its
    minimum; disabled: it is reset. *)
Definition day : list operation :=
  [hint true 0; Tick 1; Tick 2; hint true 100000; hint true 100000; hint true 100000;
   Tick 3; Tick 4; Tick 5; hint false 0].
Example quotas_of_day : quotas day = [4; 4; 10; 10; 10; 10; 10; 5; 3; 2; 4].
Proof. vm_compute. reflexivity. Qed.

Lemma log2_positive n : ∃ m e, log2 (SFadd 53 1024 (float_of_int 2) (float_of_int n)) = S754_finite false m e.
Proof.
  unfold log2. set (z := Trunc _).
  assert (z < 2 ^ 63) as Hz.
  { unfold z, Trunc. destruct (SFadd _ _ _ _); try lia. case_bool_decide; lia. }
  destruct (float_of_int_whole (Z.log2 (Z.max 2 z))) as (m & e & -> & _); [|by eexists _, _].
  pose proof (Z.log2_le_mono 2 (Z.max 2 z) ltac:(lia)) as H1. change (Z.log2 2) with 1 in H1.
  pose proof (Z.log2_le_mono (Z.max 2 z) (2 ^ 63) ltac:(lia)) as H2. rewrite Z.log2_pow2 in H2 by lia. lia.
Qed.

Lemma average_of_last_witness :
  Average (foldl (flip Add) (newRollingAverage 3) [10; 20; 30; 40]) = 30 ∧
  Average (foldl (flip Add) (newRollingAverage 3) [10; 20; 30; 40]) =
    Z.quot (int64 (sumZ (lastn 3 [10; 20; 30; 40]))) (Z.of_nat (4 `min` 3)).
Proof. split; [reflexivity|]. apply (average_of_last 3 [10; 20; 30; 40]). lia. Defined.

Lemma quota_bounded_witness :
  let x := foldl (λ x op, snd (perform log2 op x)) (Scaling config permit) day in
  (sem_GetLimit (pollerPermit x) = sem_GetLimit permit ∨ 2 <= sem_GetLimit (pollerPermit x) <= 10) ∧
  (enabled (scaler x) = false → sem_GetLimit (pollerPermit x) = sem_GetLimit permit) ∧
  0 <= Average (pollerWaitTime (scaler x)) < 2 ^ 63.
Proof.
  refine (quota_bounded log2 (λ n _, log2_positive n) permit 0 0 10 2 (256 * Millisecond)
    (16 * Millisecond) day _ _).
  - constructor; vm_compute; split; congruence.
  - repeat constructor; intros ms [= <-]; vm_compute; congruence.
Defined.

(** A wait time that does not fit in a duration: it becomes negative, so that the
    average is below the bound, the logarithm is not a number and the quota becomes
    the least int64. *)
Definition nan_log2 (f : float64) : float64 :=
  match f with S754_finite true _ _ => S754_nan | _ => log2 f end.
Example long_wait_time_quota :
  sem_GetLimit (pollerPermit (foldl (λ x op, snd (perform nan_log2 op x)) (Scaling config permit)
    [hint true (10 ^ 13); Tick 1])) = - 2 ^ 63.
Proof. vm_compute. reflexivity. Qed.

End SampleScaler.
