(* ===== verification/BaseWorker.v ===== *)
(** * The base worker

    [baseWorker] (internal/internal_worker_base.go): pollers that wait for a permit
    and poll for a task, a dispatcher that starts a goroutine for every task, and
    the shutdown of all of them; and the goroutine with which a permit is awaited
    through a channel (internal/worker/resizable_permit.go).  A step is what one
    goroutine does between two points where it can wait for another; a
    rendezvous on an unbuffered channel is a step of both sides.  What the worker
    polls and how a task is processed is up to its [taskPoller]: the tasks have
    an abstract type, and a poll returns anything. *)

From Stdlib Require Import ZArith Lia.
From stdpp Require Import base list strings option.
From S2P Require Import Prelude.
From S2P Require Import Shared.
From S2P Require Import Errors.
From S2P Require Import Backoff.
From S2P Require Import Goroutines.
From S2P Require Import Session.
From S2P Require Import AutoScaler.

Local Open Scope Z_scope.

Section worker.
Context {S : Type} `{!Semaphore S} {T : Type}.
Context (Pow : float64 → float64 → float64) (Log2 : float64 → float64).

(** The goroutine of [permitChannel.Start]: in [Acquire], sending, or gone. *)
Inductive permitGo := GAcquire | GSend | GGone.

(** A poller in [runPoller] and [pollTask]. *)
Inductive pollerAt :=
| PTop
| PSelect (g : permitGo)                 (** in [select], with its permit goroutine *)
| PClosing (got : bool) (g : permitGo)   (** in [channelDone]; whether it got the permit *)
| PToken                                 (** about to test the bucket of session tokens *)
| PAsleep                                (** in [Wait] of that bucket *)
| PPermit                                (** in [Acquire] of the poller permit *)
| PPoll
| PQueue (t : T)                         (** sending the task to the dispatcher *)
| PLeaving                               (** about to release the poller permit *)
| PReturned.

Inductive dispatcherAt :=
| DWait
| DGot (t : T) (isPolledTask : bool)     (** waiting for the rate limiter *)
| DReturned.

Record baseWorker := BaseWorker {
  shutdown : bool;          (** [shutdownCh] is closed *)
  limiterDone : bool;       (** [limiterContext] is canceled *)
  taskPermit : S;
  scaledPermit : scaling S; (** the poller permit, with the auto scaler *)
  hasScaler : bool;
  hasPollLimiter : bool;
  retrier : ConcurrentRetrier;
  tokens : option sessionTokenBucket;
  pollers : list pollerAt;
  dispatcher : dispatcherAt;
  running : list (T * bool);  (** the goroutines in [processTask] *)
  shutdownWG : Z;
  panicked : bool }.
Implicit Types (x : baseWorker) (i k : nat) (t : T).

Definition set_shutdown b x := BaseWorker b (limiterDone x) (taskPermit x) (scaledPermit x) (hasScaler x)
  (hasPollLimiter x) (retrier x) (tokens x) (pollers x) (dispatcher x) (running x) (shutdownWG x) (panicked x).
Definition set_limiterDone b x := BaseWorker (shutdown x) b (taskPermit x) (scaledPermit x) (hasScaler x)
  (hasPollLimiter x) (retrier x) (tokens x) (pollers x) (dispatcher x) (running x) (shutdownWG x) (panicked x).
Definition set_taskPermit s x := BaseWorker (shutdown x) (limiterDone x) s (scaledPermit x) (hasScaler x)
  (hasPollLimiter x) (retrier x) (tokens x) (pollers x) (dispatcher x) (running x) (shutdownWG x) (panicked x).
Definition set_scaled s x := BaseWorker (shutdown x) (limiterDone x) (taskPermit x) s (hasScaler x)
  (hasPollLimiter x) (retrier x) (tokens x) (pollers x) (dispatcher x) (running x) (shutdownWG x) (panicked x).
Definition set_retrier r x := BaseWorker (shutdown x) (limiterDone x) (taskPermit x) (scaledPermit x) (hasScaler x)
  (hasPollLimiter x) r (tokens x) (pollers x) (dispatcher x) (running x) (shutdownWG x) (panicked x).
Definition set_tokens b x := BaseWorker (shutdown x) (limiterDone x) (taskPermit x) (scaledPermit x) (hasScaler x)
  (hasPollLimiter x) (retrier x) b (pollers x) (dispatcher x) (running x) (shutdownWG x) (panicked x).
Definition set_pollers ps x := BaseWorker (shutdown x) (limiterDone x) (taskPermit x) (scaledPermit x) (hasScaler x)
  (hasPollLimiter x) (retrier x) (tokens x) ps (dispatcher x) (running x) (shutdownWG x) (panicked x).
Definition set_dispatcher d x := BaseWorker (shutdown x) (limiterDone x) (taskPermit x) (scaledPermit x) (hasScaler x)
  (hasPollLimiter x) (retrier x) (tokens x) (pollers x) d (running x) (shutdownWG x) (panicked x).
Definition set_running r x := BaseWorker (shutdown x) (limiterDone x) (taskPermit x) (scaledPermit x) (hasScaler x)
  (hasPollLimiter x) (retrier x) (tokens x) (pollers x) (dispatcher x) r (shutdownWG x) (panicked x).
Definition set_wg n x := BaseWorker (shutdown x) (limiterDone x) (taskPermit x) (scaledPermit x) (hasScaler x)
  (hasPollLimiter x) (retrier x) (tokens x) (pollers x) (dispatcher x) (running x) n (panicked x).
Definition set_panicked x := BaseWorker (shutdown x) (limiterDone x) (taskPermit x) (scaledPermit x) (hasScaler x)
  (hasPollLimiter x) (retrier x) (tokens x) (pollers x) (dispatcher x) (running x) (shutdownWG x) true.

(** ** Construction and start *)

Record AutoScalerOptions := MkAutoScalerOptions {
  as_Enabled : bool;
  as_PollerMinCount : Z;
  as_PollerMaxCount : Z;
  as_PollerInitCount : Z;
  as_Cooldown : Z;
  as_PollerWaitTimeUpperBound : Z;
  as_PollerWaitTimeLowerBound : Z }.

Record baseWorkerOptions := MkBaseWorkerOptions {
  pollerAutoScaler : AutoScalerOptions;
  pollerCountWithoutAutoScaling : Z;
  pollerRate : Z;
  maxConcurrentTask : Z }.

Definition retryPollOperationInitialInterval : Z := 20 * 1000000.
Definition retryPollOperationMaxInterval : Z := 10 * Second.
Definition createPollRetryPolicy : ExponentialRetryPolicy :=
  SetExpirationInterval NoInterval
    (SetMaximumInterval retryPollOperationMaxInterval
      (NewExponentialRetryPolicy retryPollOperationInitialInterval)).

(** [newBaseWorker] and [Start]: the pollers and the dispatcher run. *)
Definition Start (options : baseWorkerOptions) (bucket : option sessionTokenBucket) (now : Z)
    : baseWorker :=
  let a := pollerAutoScaler options in
  let permit := sem_New (if as_Enabled a then as_PollerInitCount a
                         else pollerCountWithoutAutoScaling options) in
  let maxPollerCount := Z.to_nat (if as_Enabled a then as_PollerMaxCount a
                                  else pollerCountWithoutAutoScaling options) in
  let scaler := NewConcurrencyAutoScaler permit (as_Cooldown a) now (as_PollerMaxCount a)
                  (as_PollerMinCount a) (as_PollerWaitTimeUpperBound a) (as_PollerWaitTimeLowerBound a) in
  BaseWorker false false (sem_New (maxConcurrentTask options)) (Scaling scaler permit) (as_Enabled a)
    (bool_decide (pollerRate options > 0)) (NewConcurrentRetrier createPollRetryPolicy now) bucket
    (replicate maxPollerCount PTop) DWait [] (Z.of_nat maxPollerCount + 1) false.

(** ** Steps *)

Definition at_poller i (p : pollerAt) x : baseWorker := set_pollers (<[i := p]> (pollers x)) x.

(** [Release] of the permits; it panics when nothing is acquired. *)
Definition releaseTask x : baseWorker :=
  match sem_Release (taskPermit x) with Some s => set_taskPermit s x | None => set_panicked x end.
Definition releasePoller x : baseWorker :=
  let sc := scaledPermit x in
  match sem_Release (pollerPermit sc) with
  | Some s => set_scaled (Scaling (scaler sc) s) x
  | None => set_panicked x
  end.
Definition wgDone x : baseWorker := set_wg (shutdownWG x - 1) x.

(** What [PollTask] returns; [hint] for a task with an auto-config hint. *)
Record polled := Polled {
  poll_task : option T;
  poll_err : option serviceError;
  poll_hint : option (option AutoConfigHint) }.

Definition processHint (hint : option (option AutoConfigHint)) x : baseWorker :=
  match hint with
  | Some hint => if hasScaler x then set_scaled (snd (ProcessPollerHint hint (scaledPermit x))) x else x
  | None => x
  end.

(** [pollTask] from the throttling on; [None]: the rate limiter fails. *)
Definition poll i (now : Z) (rand : Z → Z) (r : option polled) x : baseWorker :=
  let x := set_retrier (snd (Throttle Pow now rand (retrier x))) x in
  let '(task, x) :=
    match r with
    | None => (None, x)
    | Some r =>
        (poll_task r,
         match poll_err r with
         | Some _ => set_retrier (snd (Failed (retrier x))) x
         | None => processHint (poll_hint r) (set_retrier (snd (Succeeded now (retrier x))) x)
         end)
    end in
  match task with
  | Some t => at_poller i (PQueue t) x
  | None => at_poller i PLeaving (releaseTask x)
  end.

Inductive event :=
| AcquireChan i | GoAcquire i | GoFail i | GoRelease i
| Receive i | Shutdown i | Closed i
| TestToken i | AcquirePoller i | AcquireFails i
| Poll i (now : Z) (rand : Z → Z) (r : option polled)
| Queue i | Drop_ i | Leave i
| External t | Dispatch (limiterOk : bool) | DispatcherStops
| Finish k
| StopClose | StopCancel
| ScalerTick (now : Z)
| TakeToken | AddToken | SignalToken.

(** The permit goroutine of a poller, and whether its context is done. *)
Definition go_of x (p : pollerAt) : option (permitGo * bool * (permitGo → pollerAt)) :=
  match p with
  | PSelect g => Some (g, limiterDone x, PSelect)
  | PClosing got g => Some (g, true, PClosing got)
  | _ => None
  end.

Definition poller_step (ev : event) x : option baseWorker :=
  match ev with
  | AcquireChan i =>
      match pollers x !! i with Some PTop => Some (at_poller i (PSelect GAcquire) x) | _ => None end
  | GoAcquire i =>
      '(g, _, back) ← pollers x !! i ≫= go_of x;
      match g with
      | GAcquire => s ← sem_Acquire (taskPermit x); Some (at_poller i (back GSend) (set_taskPermit s x))
      | _ => None
      end
  | GoFail i =>
      '(g, ctxDone, back) ← pollers x !! i ≫= go_of x;
      match g, ctxDone with
      | GAcquire, true => Some (at_poller i (back GGone) x)
      | _, _ => None
      end
  | GoRelease i =>
      '(g, ctxDone, back) ← pollers x !! i ≫= go_of x;
      match g, ctxDone with
      | GSend, true => Some (at_poller i (back GGone) (releaseTask x))
      | _, _ => None
      end
  | Receive i =>
      match pollers x !! i with
      | Some (PSelect GSend) => Some (at_poller i (PClosing true GGone) x)
      | _ => None
      end
  | Shutdown i =>
      match pollers x !! i, shutdown x with
      | Some (PSelect g), true => Some (at_poller i (PClosing false g) x)
      | _, _ => None
      end
  | Closed i =>
      match pollers x !! i with
      | Some (PClosing true GGone) =>
          Some (at_poller i (match tokens x with Some _ => PToken | None => PPermit end) x)
      | Some (PClosing false GGone) => Some (at_poller i PReturned (wgDone x))
      | _ => None
      end
  | TestToken i =>
      match pollers x !! i, tokens x with
      | Some PToken, Some b =>
          match waitForAvailableToken i b with
          | (Ret true, b) => Some (at_poller i PPermit (set_tokens (Some b) x))
          | (Ret false, b) => Some (at_poller i PAsleep (set_tokens (Some b) x))
          | (Panic _, _) => None
          end
      | _, _ => None
      end
  | AcquirePoller i =>
      match pollers x !! i with
      | Some PPermit =>
          s ← sem_Acquire (pollerPermit (scaledPermit x));
          Some (at_poller i PPoll (set_scaled (Scaling (scaler (scaledPermit x)) s) x))
      | _ => None
      end
  | AcquireFails i =>
      match pollers x !! i, limiterDone x with
      | Some PPermit, true => Some (at_poller i PTop x)
      | _, _ => None
      end
  | Poll i now rand r =>
      match pollers x !! i, r with
      | Some PPoll, Some _ => Some (poll i now rand r x)
      | Some PPoll, None =>
          if hasPollLimiter x && limiterDone x then Some (poll i now rand None x) else None
      | _, _ => None
      end
  | Queue i =>
      match pollers x !! i, dispatcher x with
      | Some (PQueue t), DWait => Some (at_poller i PLeaving (set_dispatcher (DGot t true) x))
      | _, _ => None
      end
  | Drop_ i =>
      match pollers x !! i, shutdown x with
      | Some (PQueue _), true => Some (at_poller i PLeaving x)
      | _, _ => None
      end
  | Leave i =>
      match pollers x !! i with Some PLeaving => Some (at_poller i PTop (releasePoller x)) | _ => None end
  | _ => None
  end.

(** A task that was not polled, like the result of a local activity, is not
    limited; without a shutdown a failure of the limiter is ignored. *)
Definition other_step (ev : event) x : option baseWorker :=
  match ev with
  | External t =>
      match dispatcher x with DWait => Some (set_dispatcher (DGot t false) x) | _ => None end
  | Dispatch limiterOk =>
      match dispatcher x with
      | DGot t isPolled =>
          if isPolled && negb limiterOk && shutdown x then
            Some (set_dispatcher DReturned (wgDone x))
          else Some (set_dispatcher DWait
                       (set_running (running x ++ [(t, isPolled)]) (set_wg (shutdownWG x + 1) x)))
      | _ => None
      end
  | DispatcherStops =>
      match dispatcher x, shutdown x with
      | DWait, true => Some (set_dispatcher DReturned (wgDone x))
      | _, _ => None
      end
  | Finish k =>
      '(_, isPolled) ← running x !! k;
      let x := wgDone (set_running (delete k (running x)) x) in
      Some (if (isPolled : bool) then releaseTask x else x)
  | StopClose => if shutdown x then None else Some (set_shutdown true x)
  | StopCancel => if shutdown x && negb (limiterDone x) then Some (set_limiterDone true x) else None
  | ScalerTick now =>
      if hasScaler x then Some (set_scaled (snd (updatePollerPermit Log2 now (scaledPermit x))) x) else None
  | TakeToken => b ← tokens x; Some (set_tokens (Some (snd (getToken b))) x)
  | AddToken => b ← tokens x; Some (set_tokens (Some (snd (addToken_locked b))) x)
  | SignalToken =>
      b ← tokens x;
      match addToken_signal b with
      | (Ret (Some w), b) => Some (at_poller w PToken (set_tokens (Some b) x))
      | (_, b) => Some (set_tokens (Some b) x)
      end
  | _ => None
  end.

Definition step (ev : event) x : option baseWorker :=
  match poller_step ev x with Some y => Some y | None => other_step ev x end.

(** [Stop] of a worker that was started closes the channel. *)
Definition Stop x : outcome baseWorker :=
  if shutdown x then Panic (ErrorPanic "close of closed channel")
  else Ret (set_limiterDone true (set_shutdown true x)).

End worker.
