(* ===== verification/BaseWorkerProps.v ===== *)
(** * The base worker: theorems

    The permits bound the tasks that run and the pollers that poll, none is lost
    before the worker is stopped, and a stopped worker does not deadlock. *)

From Stdlib Require Import ZArith Lia.
From stdpp Require Import base list strings option.
From S2P Require Import Prelude.
From S2P Require Import Shared.
From S2P Require Import Errors.
From S2P Require Import Backoff.
From S2P Require Import Goroutines.
From S2P Require Import Session.
From S2P Require Import AutoScaler.
From S2P Require Import BaseWorker.

Local Open Scope Z_scope.

Section worker.
Context {S : Type} `{!Semaphore S, !SemaphoreLaws S} {T : Type}.
Context (Pow : float64 → float64 → float64) (Log2 : float64 → float64).
Implicit Types (x y : baseWorker (S:=S) (T:=T)) (p q : pollerAt (T:=T)) (i w : nat).

(** ** Who has a permit *)

Definition got p : bool :=
  match p with PClosing true _ | PToken | PAsleep | PPermit | PPoll | PQueue _ => true | _ => false end.
Definition sends p : bool :=
  match p with PSelect GSend | PClosing _ GSend => true | _ => false end.
Definition polls p : bool := match p with PPoll | PQueue _ | PLeaving => true | _ => false end.
Definition live p : bool := match p with PReturned => false | _ => true end.
Definition one (b : bool) : Z := if b then 1 else 0.

Definition dispatching (d : dispatcherAt (T:=T)) : bool := match d with DGot _ true => true | _ => false end.
Definition dispatching_live (d : dispatcherAt (T:=T)) : bool := match d with DReturned => false | _ => true end.

(** The tasks that were polled and are running. *)
Definition polledTasks x : Z := count snd (running x).
Definition holders x : Z :=
  count got (pollers x) + count sends (pollers x) + one (dispatching (dispatcher x)) + polledTasks x.
Definition goroutines x : Z :=
  count live (pollers x) + one (dispatching_live (dispatcher x)) + Z.of_nat (length (running x)).

Definition taskCount x : Z := sem_GetCount (taskPermit x).
Definition pollerCount x : Z := sem_GetCount (pollerPermit (scaledPermit x)).
Definition waiters x : list nat := match tokens x with Some b => waiting b | None => [] end.

Record worker_ok (max : Z) x : Prop := {
  wo_panic : panicked x = false;
  wo_limit : sem_GetLimit (taskPermit x) = max;
  wo_count : taskCount x <= max;
  wo_holders : holders x <= taskCount x;
  wo_exact : shutdown x = false → holders x = taskCount x;
  wo_cancel : limiterDone x = true → shutdown x = true;
  wo_pollers : pollerCount x = count polls (pollers x);
  wo_wg : shutdownWG x = goroutines x;
  wo_waiters : NoDup (waiters x);
  wo_asleep w : w ∈ waiters x → pollers x !! w = Some PAsleep }.

(** ** A poller moves *)

(** The changes of the permits that a move of a poller from [p] to [q] brings. *)
Record moved x y i p q : Prop := {
  mv_from : pollers x !! i = Some p;
  mv_to : pollers y = <[i := q]> (pollers x);
  mv_same : (dispatcher y, running y, shutdown y, limiterDone y, panicked y) =
            (dispatcher x, running x, shutdown x, limiterDone x, panicked x);
  mv_limit : sem_GetLimit (taskPermit y) = sem_GetLimit (taskPermit x);
  mv_count : taskCount y = taskCount x + one (got q) + one (sends q) - one (got p) - one (sends p) ∨
    (shutdown x = true ∧ taskCount y = taskCount x ∧ one (got q) + one (sends q) <= one (got p) + one (sends p));
  mv_bound : taskCount y <= sem_GetLimit (taskPermit x);
  mv_polls : pollerCount y = pollerCount x + one (polls q) - one (polls p);
  mv_wg : shutdownWG y = shutdownWG x + one (live q) - one (live p) }.

Lemma worker_moved max x y i p q :
  worker_ok max x → moved x y i p q →
  NoDup (waiters y) → (∀ w, w ∈ waiters y → pollers y !! w = Some PAsleep) → worker_ok max y.
Proof.
  intros [H1 H2 H3 H4 H5 H6 H7 H8 _ _] [Hf Ht Hs Hl Hc Hb Hp Hw] Hn Ha.
  injection Hs as S1 S2 S3 S4 S5.
  assert (∀ f : pollerAt → bool, count f (pollers y) = count f (pollers x) - one (f p) + one (f q)) as Hcount.
  { intros f. rewrite Ht. by apply count_insert. }
  assert (holders y = holders x - one (got p) - one (sends p) + one (got q) + one (sends q)) as Hh.
  { unfold holders, polledTasks. rewrite !Hcount, S1, S2. lia. }
  constructor; [congruence|congruence|lia|lia| |by rewrite S3, S4| | |done|done].
  - intros Hsd. rewrite S3 in Hsd. specialize (H5 Hsd). destruct Hc as [Hc|[Hc _]]; [lia|congruence].
  - rewrite Hcount. lia.
  - rewrite Hw, H8. unfold goroutines. rewrite Hcount, S1, S2. lia.
Qed.

(** The same waiters, and a poller that was not one of them. *)
Lemma worker_moved_awake max x y i p q :
  worker_ok max x → moved x y i p q → tokens y = tokens x → p ≠ PAsleep → worker_ok max y.
Proof.
  intros Hx Hm Ht Hp. pose proof Hx as [_ _ _ _ _ _ _ _ Hn Ha]. unfold waiters in *.
  eapply worker_moved; [done|done|unfold waiters; by rewrite Ht|].
  intros w. unfold waiters. rewrite Ht. intros Hw. rewrite (mv_to _ _ _ _ _ Hm).
  specialize (Ha w Hw). rewrite list_lookup_insert_ne; [done|].
  intros ->. pose proof (mv_from _ _ _ _ _ Hm). congruence.
Qed.

Lemma release_ok x y :
  0 < taskCount x → releaseTask x = y →
  ∃ s, y = set_taskPermit s x ∧ sem_GetCount s = taskCount x - 1 ∧
    sem_GetLimit s = sem_GetLimit (taskPermit x).
Proof.
  intros Hpos <-. unfold releaseTask. destruct (Release_succeeds (taskPermit x) Hpos) as [s Hs].
  rewrite Hs. exists s. split; [done|]. split; [by apply Release_count|by apply Release_limit].
Qed.

Lemma acquire_ok x s :
  sem_Acquire (taskPermit x) = Some s →
  sem_GetCount s = taskCount x + 1 ∧ sem_GetLimit s = sem_GetLimit (taskPermit x) ∧
  taskCount x < sem_GetLimit (taskPermit x).
Proof.
  intros Hs. split_and!; [by apply Acquire_count|by apply Acquire_limit|].
  destruct (Z.lt_ge_cases (taskCount x) (sem_GetLimit (taskPermit x))) as [?|Hge]; [done|].
  rewrite Acquire_blocks in Hs by done. done.
Qed.

(** A poller that counts is counted. *)
Lemma counted (f : pollerAt → bool) x i p :
  pollers x !! i = Some p → f p = true → 0 < count f (pollers x).
Proof. intros Hi Hf. apply count_pos. by exists i, p. Qed.

Lemma holder_counted max x i p :
  worker_ok max x → pollers x !! i = Some p → got p || sends p = true → 0 < taskCount x.
Proof.
  intros Hx Hi Hp. pose proof (wo_holders _ _ Hx) as Hh. unfold holders, polledTasks in Hh.
  pose proof (count_nonneg got (pollers x)). pose proof (count_nonneg sends (pollers x)).
  pose proof (count_nonneg snd (running x)). unfold one in Hh.
  apply orb_true_iff in Hp as [Hp|Hp]; pose proof (counted _ x i p Hi Hp); destruct (dispatching _); lia.
Qed.

(** ** The auto scaler keeps the count *)

Lemma hint_count hint (sc : scaling S) :
  sem_GetCount (pollerPermit (snd (ProcessPollerHint hint sc))) = sem_GetCount (pollerPermit sc).
Proof.
  destruct hint as [hint|]; [|done]. unfold ProcessPollerHint, resetConcurrency, SetQuota, on_scaler. run.
  destruct (AutoConfigHint_PollerWaitTimeInMs hint) as [ms|]; repeat case_bool_decide;
    destruct (default false _); simpl; rewrite ?SetLimit_count; done.
Qed.

Lemma update_count now (sc : scaling S) :
  sem_GetCount (pollerPermit (snd (updatePollerPermit Log2 now sc))) = sem_GetCount (pollerPermit sc).
Proof.
  unfold updatePollerPermit, SetQuota, on_scaler. run.
  destruct (enabled _); simpl; [|done]. repeat case_bool_decide; simpl; rewrite ?SetLimit_count; done.
Qed.

Lemma processHint_count hint x :
  pollerCount (processHint hint x) = pollerCount x ∧
  processHint hint x = set_scaled (scaledPermit (processHint hint x)) x.
Proof.
  unfold processHint, pollerCount. destruct hint as [hint|]; [|by destruct x].
  destruct (hasScaler x); [|by destruct x]. split; [apply hint_count|done].
Qed.

(** ** Steps of the pollers *)

Lemma go_step max x y i p g ctxDone back g' :
  worker_ok max x → pollers x !! i = Some p → go_of x p = Some (g, ctxDone, back) →
  pollers y = <[i := back g']> (pollers x) →
  (dispatcher y, running y, shutdown y, limiterDone y, panicked y, tokens y, shutdownWG y) =
    (dispatcher x, running x, shutdown x, limiterDone x, panicked x, tokens x, shutdownWG x) →
  sem_GetLimit (taskPermit y) = sem_GetLimit (taskPermit x) → taskCount y <= sem_GetLimit (taskPermit x) →
  taskCount y = taskCount x + one (sends (back g')) - one (sends (back g)) →
  pollerCount y = pollerCount x → worker_ok max y.
Proof.
  intros Hx Hi Hgo Hy Hs Hl Hb Hc Hp. injection Hs as S1 S2 S3 S4 S5 S6 S7.
  assert (p = back g ∧ got (back g') = got (back g) ∧ polls (back g') = polls (back g) ∧
    live (back g') = live (back g) ∧ p ≠ PAsleep) as (-> & E1 & E2 & E3 & E4).
  { destruct p; simplify_eq/=; done. }
  eapply (worker_moved_awake max x y i (back g) (back g') Hx); [|done|done].
  constructor; try done; rewrite ?S1, ?S2, ?S3, ?S4, ?S5, ?S7, ?E1, ?E2, ?E3; try done; lia.
Qed.

(** A move that leaves the task permit alone. *)
Lemma plain_move max x y i p q :
  worker_ok max x → pollers x !! i = Some p → p ≠ PAsleep → pollers y = <[i := q]> (pollers x) →
  (dispatcher y, running y, shutdown y, limiterDone y, panicked y, tokens y, taskPermit y) =
    (dispatcher x, running x, shutdown x, limiterDone x, panicked x, tokens x, taskPermit x) →
  one (got q) + one (sends q) = one (got p) + one (sends p) ∨
    (shutdown x = true ∧ one (got q) + one (sends q) <= one (got p) + one (sends p)) →
  pollerCount y = pollerCount x + one (polls q) - one (polls p) →
  shutdownWG y = shutdownWG x + one (live q) - one (live p) → worker_ok max y.
Proof.
  intros Hx Hi Hp Hy Hs Hg Hpc Hw. injection Hs as S1 S2 S3 S4 S5 S6 S7.
  pose proof (wo_count _ _ Hx). pose proof (wo_limit _ _ Hx).
  eapply (worker_moved_awake max x y i p q Hx); [|done|done].
  constructor; unfold taskCount in *; rewrite ?S1, ?S2, ?S3, ?S4, ?S5, ?S7; try done; try lia.
  destruct Hg as [Hg|[? Hg]]; [left; lia|right; done].
Qed.

(** A poller that gives the task permit back. *)
Lemma release_move max x y i p q :
  worker_ok max x → pollers x !! i = Some p → p ≠ PAsleep → got p || sends p = true →
  pollers y = <[i := q]> (pollers x) →
  (dispatcher y, running y, shutdown y, limiterDone y, tokens y, shutdownWG y) =
    (dispatcher x, running x, shutdown x, limiterDone x, tokens x, shutdownWG x) →
  (panicked y, taskPermit y) = (panicked (releaseTask x), taskPermit (releaseTask x)) →
  one (got q) + one (sends q) = one (got p) + one (sends p) - 1 →
  pollerCount y = pollerCount x + one (polls q) - one (polls p) → live q = live p → worker_ok max y.
Proof.
  intros Hx Hi Hp Hh Hy Hs Hr Hg Hpc Hl. injection Hs as S1 S2 S3 S4 S5 S6.
  destruct (release_ok x _ (holder_counted _ _ _ _ Hx Hi Hh) eq_refl) as (s & Hrel & Hc & Hlim).
  rewrite Hrel in Hr. injection Hr as R1 R2. simpl in R1, R2.
  pose proof (wo_count _ _ Hx). pose proof (wo_limit _ _ Hx).
  eapply (worker_moved_awake max x y i p q Hx); [|done|done].
  constructor; unfold taskCount in *; rewrite ?S1, ?S2, ?S3, ?S4, ?S6, ?R1, ?R2, ?Hl; try done; try lia.
Qed.

(** The retrier, and the quota of the pollers, do not matter. *)
Lemma polled_ok max x i (task : option T) r sc :
  worker_ok max x → pollers x !! i = Some PPoll → sem_GetCount (pollerPermit sc) = pollerCount x →
  worker_ok max (match task with
    | Some t => at_poller i (PQueue t) (set_retrier r (set_scaled sc x))
    | None => at_poller i PLeaving (releaseTask (set_retrier r (set_scaled sc x))) end).
Proof.
  intros Hx Hi Hsc. destruct task as [t|].
  - eapply (plain_move max x _ i PPoll (PQueue t)); try done; unfold pollerCount in *; simpl; auto; lia.
  - eapply (release_move max x _ i PPoll PLeaving); try done;
      unfold releaseTask, pollerCount in *; simpl; destruct (sem_Release (taskPermit x)); simpl; done || lia.
Qed.

Lemma poll_ok max x i now rand r :
  worker_ok max x → pollers x !! i = Some PPoll → worker_ok max (poll Pow i now rand r x).
Proof.
  intros Hx Hi. unfold poll. destruct r as [r|].
  - destruct (poll_err r); [by apply (polled_ok max x i (poll_task r) _ (scaledPermit x))|].
    match goal with |- context [processHint ?hint ?z] =>
      destruct (processHint_count hint z) as [Hc ->]; generalize dependent (processHint hint z) end.
    intros z Hc. by apply (polled_ok max x i (poll_task r) _ (scaledPermit z)).
  - by apply (polled_ok max x i None _ (scaledPermit x)).
Qed.

Lemma releasePoller_run x :
  0 < pollerCount x →
  ∃ s, releasePoller x = set_scaled (Scaling (scaler (scaledPermit x)) s) x ∧
    sem_GetCount s = pollerCount x - 1.
Proof.
  intros Hpos. unfold releasePoller.
  destruct (Release_succeeds (pollerPermit (scaledPermit x)) Hpos) as [s Hs].
  rewrite Hs. exists s. split; [done|by apply Release_count].
Qed.

Lemma queue_ok max x i t :
  worker_ok max x → pollers x !! i = Some (PQueue t) → dispatcher x = DWait →
  worker_ok max (at_poller i PLeaving (set_dispatcher (DGot t true) x)).
Proof.
  intros Hx Hi Hd. pose proof Hx as [H1 H2 H3 H4 H5 H6 H7 H8 H9 H10].
  assert (∀ f : pollerAt → bool, count f (<[i := PLeaving]> (pollers x)) =
    count f (pollers x) - one (f (PQueue t)) + one (f PLeaving)) as Hc by (intros f; by apply count_insert).
  unfold holders, goroutines, polledTasks in *. rewrite Hd in *. simpl in *.
  constructor; try done; unfold holders, goroutines, polledTasks, pollerCount, taskCount in *; simpl; rewrite ?Hc;
    simpl; try lia.
  - intros Hs. specialize (H5 Hs). lia.
  - intros w Hw. specialize (H10 w Hw). rewrite list_lookup_insert_ne; [done|]. intros ->. congruence.
Qed.

Lemma token_ok max x i b b' ok :
  worker_ok max x → pollers x !! i = Some PToken → tokens x = Some b →
  waitForAvailableToken i b = (Ret ok, b') →
  worker_ok max (at_poller i (if ok then PPermit else PAsleep) (set_tokens (Some b') x)).
Proof.
  intros Hx Hi Hb Hrun. pose proof Hx as [_ H2 H3 _ _ _ _ _ Hn Ha].
  pose proof (lookup_lt_Some _ _ _ Hi) as Hlt.
  unfold waitForAvailableToken in Hrun. run_in Hrun. unfold waiters in Hn, Ha. rewrite Hb in Hn, Ha.
  eapply (worker_moved max x _ i PToken (if ok then PPermit else PAsleep) Hx).
  - constructor; unfold taskCount, pollerCount in *; simpl; try done; destruct ok; simpl; auto; lia.
  - unfold waiters. simpl. case_bool_decide; simplify_eq; simpl; [|done].
    apply list.NoDup_app. split_and!; [done| |apply NoDup_singleton].
    intros w Hw ->%list_elem_of_singleton. specialize (Ha i Hw). congruence.
  - unfold waiters. simpl. intros w. case_bool_decide; simplify_eq; simpl.
    + rewrite elem_of_app, list_elem_of_singleton. intros [Hw| ->]; [|by apply list_lookup_insert_eq].
      specialize (Ha w Hw). rewrite list_lookup_insert_ne; [done|]. intros ->. congruence.
    + intros Hw. specialize (Ha w Hw). rewrite list_lookup_insert_ne; [done|]. intros ->. congruence.
Qed.

Ltac plain Hx Hi :=
  eapply (plain_move _ _ _ _ _ _ Hx Hi); [done|reflexivity|reflexivity|..];
  unfold pollerCount in *; simpl; auto; try lia; try (right; split; [assumption|lia]).

Lemma poller_step_ok max ev x y : worker_ok max x → poller_step Pow ev x = Some y → worker_ok max y.
Proof.
  intros Hx Hs. pose proof (wo_count _ _ Hx) as Hcnt. pose proof (wo_limit _ _ Hx) as Hlim.
  destruct ev; simpl in Hs; try done; destruct (pollers x !! i) as [p|] eqn:Hi; try done; simpl in Hs.
  - destruct p; simplify_eq. plain Hx Hi.
  - destruct (go_of x p) as [[[g d] back]|] eqn:Hg; simpl in Hs; [|done]. destruct g; try done.
    destruct (sem_Acquire (taskPermit x)) as [s|] eqn:Hsem; simplify_eq/=.
    destruct (acquire_ok x s Hsem) as (Hc & Hl & Hlt).
    eapply (go_step _ x _ i p GAcquire d back GSend); eauto; unfold taskCount in *; simpl; try lia.
    destruct p; simplify_eq/=; lia.
  - destruct (go_of x p) as [[[g d] back]|] eqn:Hg; simpl in Hs; [|done]. destruct g, d; simplify_eq/=.
    eapply (go_step _ x _ i p GAcquire true back GGone); eauto; unfold taskCount in *; simpl; try lia.
    destruct p; simplify_eq/=; lia.
  - destruct (go_of x p) as [[[g d] back]|] eqn:Hg; simpl in Hs; [|done]. destruct g, d; simplify_eq/=.
    assert (got p || sends p = true) as Hh by (destruct p; simplify_eq/=; by rewrite ?orb_true_r).
    destruct (release_ok x _ (holder_counted _ _ _ _ Hx Hi Hh) eq_refl) as (s & -> & Hc & Hl).
    eapply (go_step _ x _ i p GSend true back GGone); eauto; unfold taskCount in *; simpl; try lia.
    destruct p; simplify_eq/=; lia.
  - destruct p as [|[]| | | | | | | |]; simplify_eq. plain Hx Hi.
  - destruct p; try done. destruct (shutdown x) eqn:?; simplify_eq. destruct g; plain Hx Hi.
  - destruct p as [| |[] []| | | | | | |]; simplify_eq; [destruct (tokens x)|]; plain Hx Hi.
  - destruct p; try done. destruct (tokens x) as [b|] eqn:Hb; [|done].
    destruct (waitForAvailableToken i b) as [[[]|] b'] eqn:Hw; simplify_eq;
      by apply (token_ok _ x i b b' _ Hx Hi Hb Hw).
  - destruct p; try done. destruct (sem_Acquire _) as [s|] eqn:Hsem; simplify_eq/=.
    apply Acquire_count in Hsem. plain Hx Hi.
  - destruct p; try done. destruct (limiterDone x) eqn:Hd; simplify_eq.
    pose proof (wo_cancel _ _ Hx Hd). plain Hx Hi.
  - destruct p; try done. destruct r as [r|]; [simplify_eq; by apply poll_ok|].
    destruct (_ && _); simplify_eq. by apply poll_ok.
  - destruct p; try done. destruct (dispatcher x) eqn:Hd; simplify_eq. by apply queue_ok.
  - destruct p; try done. destruct (shutdown x) eqn:Hd; simplify_eq. plain Hx Hi.
  - destruct p; simplify_eq. destruct (releasePoller_run x) as (s & -> & Hc).
    { rewrite (wo_pollers _ _ Hx). by eapply counted. }
    plain Hx Hi.
Qed.

(** ** The other steps *)

(** Only what the invariant reads of the rest of the state. *)
Lemma worker_same max x y :
  worker_ok max x →
  (pollers y, dispatcher y, running y, shutdownWG y, panicked y, taskPermit y) =
    (pollers x, dispatcher x, running x, shutdownWG x, panicked x, taskPermit x) →
  pollerCount y = pollerCount x → waiters y = waiters x →
  (shutdown y = false → shutdown x = false) → (limiterDone y = true → shutdown y = true) →
  worker_ok max y.
Proof.
  intros [H1 H2 H3 H4 H5 H6 H7 H8 H9 H10] Hs Hp Hw Hsd Hl. injection Hs as S1 S2 S3 S4 S5 S6.
  constructor; unfold holders, goroutines, polledTasks, taskCount in *;
    rewrite ?S1, ?S2, ?S3, ?S4, ?S5, ?S6, ?Hp, ?Hw; try done. auto.
Qed.

(** The dispatcher starts a goroutine, or returns. *)
Lemma dispatch_ok max x (d : dispatcherAt (T:=T)) (r : list (T * bool)) (n : Z) :
  worker_ok max x →
  one (dispatching d) + count snd r <= one (dispatching (dispatcher x)) + polledTasks x →
  (shutdown x = false →
     one (dispatching d) + count snd r = one (dispatching (dispatcher x)) + polledTasks x) →
  n = shutdownWG x + one (dispatching_live d) - one (dispatching_live (dispatcher x))
      + Z.of_nat (length r) - Z.of_nat (length (running x)) →
  worker_ok max (set_dispatcher d (set_running r (set_wg n x))).
Proof.
  intros [H1 H2 H3 H4 H5 H6 H7 H8 H9 H10] Hle Heq ->.
  constructor; unfold holders, goroutines, polledTasks, taskCount in *; simpl; try done; try lia.
  intros Hs. specialize (H5 Hs). specialize (Heq Hs). lia.
Qed.

Lemma finish_ok max x k (t : T) (polled : bool) :
  worker_ok max x → running x !! k = Some (t, polled) →
  let y := wgDone (set_running (delete k (running x)) x) in
  worker_ok max (if polled then releaseTask y else y).
Proof.
  intros Hx Hk y. pose proof Hx as [H1 H2 H3 H4 H5 H6 H7 H8 H9 H10].
  pose proof (count_delete snd (running x) k _ Hk) as Hc. simpl in Hc.
  assert (length (delete k (running x)) = length (running x) - 1)%nat as Hlen
    by (apply length_delete; by eexists).
  pose proof (lookup_lt_Some _ _ _ Hk) as Hlt.
  pose proof (count_nonneg snd (delete k (running x))).
  pose proof (count_nonneg got (pollers x)). pose proof (count_nonneg sends (pollers x)).
  assert (0 <= one (dispatching (dispatcher x))) by (unfold one; destruct (dispatching _); lia).
  unfold holders, polledTasks in H4, H5.
  destruct polled; simpl in Hc.
  - destruct (release_ok y _ ltac:(unfold y, taskCount in *; simpl; lia) eq_refl) as (s & -> & Hs & Hl).
    unfold y, taskCount in *. simpl in Hs, Hl.
    constructor; unfold holders, goroutines, polledTasks, taskCount, pollerCount in *; simpl; try done; try lia.
    intros Hsd. specialize (H5 Hsd). lia.
  - constructor; unfold y, holders, goroutines, polledTasks, taskCount, pollerCount in *; simpl; try done; try lia.
    intros Hsd. specialize (H5 Hsd). lia.
Qed.

(** A poller is woken. *)
Lemma signal_ok max x b w ws :
  worker_ok max x → tokens x = Some b → waiting b = w :: ws →
  worker_ok max (at_poller w PToken (set_tokens (Some (Bucket (availableToken b) ws)) x)).
Proof.
  intros Hx Hb Hw. pose proof Hx as [_ H2 H3 _ _ _ _ _ Hn Ha]. unfold waiters in Hn, Ha.
  rewrite Hb, Hw in Hn, Ha. apply list.NoDup_cons in Hn as [Hnw Hn].
  assert (pollers x !! w = Some PAsleep) as Hi by (apply Ha, list_elem_of_here).
  eapply (worker_moved max x _ w PAsleep PToken Hx).
  - constructor; unfold taskCount, pollerCount in *; simpl; try done; auto; lia.
  - done.
  - intros v Hv. simpl in *. rewrite list_lookup_insert_ne; [|by intros ->].
    apply Ha. by apply list_elem_of_further.
Qed.

Lemma other_step_ok max ev x y : worker_ok max x → other_step Log2 ev x = Some y → worker_ok max y.
Proof.
  intros Hx Hs. destruct ev; simpl in Hs; try done.
  - destruct (dispatcher x) eqn:Hd; simplify_eq.
    apply (dispatch_ok max x (DGot _ false) (running x) (shutdownWG x) Hx); rewrite ?Hd; simpl; unfold polledTasks; lia.
  - destruct (dispatcher x) as [|t p|] eqn:Hd; simplify_eq. destruct (p && negb limiterOk && shutdown x) eqn:Hp; simplify_eq.
    + apply andb_true_iff in Hp as [[Hp _]%andb_true_iff Hsd]. subst p.
      apply (dispatch_ok max x DReturned (running x) (shutdownWG x - 1) Hx); rewrite ?Hd; simpl; unfold polledTasks;
        [lia|congruence|lia].
    + apply (dispatch_ok max x DWait _ _ Hx); rewrite ?Hd, ?length_app, ?count_app, ?count_cons, ?count_nil;
        unfold polledTasks; destruct p; simpl; lia.
  - destruct (dispatcher x) eqn:Hd; try done. destruct (shutdown x) eqn:Hsd; simplify_eq.
    apply (dispatch_ok max x DReturned (running x) (shutdownWG x - 1) Hx); rewrite ?Hd; simpl; unfold polledTasks; lia.
  - destruct (running x !! k) as [[t p]|] eqn:Hk; simplify_eq/=. by eapply finish_ok.
  - destruct (shutdown x) eqn:Hsd; simplify_eq. by apply (worker_same _ x).
  - destruct (shutdown x && _) eqn:Hsd; simplify_eq. apply andb_true_iff in Hsd as [Hsd _].
    by apply (worker_same _ x).
  - destruct (hasScaler x); simplify_eq.
    apply (worker_same _ x); try done; [apply update_count|apply (wo_cancel _ _ Hx)].
  - destruct (tokens x) as [b|] eqn:Hb; simplify_eq/=. pose proof (wo_cancel _ _ Hx).
    apply (worker_same _ x); try done. unfold waiters. rewrite Hb. simpl.
    unfold getToken. run. by case_bool_decide.
  - destruct (tokens x) as [b|] eqn:Hb; simplify_eq/=. pose proof (wo_cancel _ _ Hx).
    apply (worker_same _ x); try done. unfold waiters. rewrite Hb. done.
  - destruct (tokens x) as [b|] eqn:Hb; simplify_eq/=. pose proof (wo_cancel _ _ Hx).
    unfold addToken_signal in Hs. run_in Hs.
    destruct (waiting b) as [|w ws] eqn:Hw; simplify_eq/=.
    + apply (worker_same _ x); try done. unfold waiters. rewrite Hb. done.
    + by apply signal_ok.
Qed.

Lemma step_ok max ev x y : worker_ok max x → step Pow Log2 ev x = Some y → worker_ok max y.
Proof.
  intros Hx. unfold step. destruct (poller_step Pow ev x) eqn:Hp.
  - intros [= <-]. by eapply poller_step_ok.
  - by apply other_step_ok.
Qed.

Lemma worker_init options bucket now :
  0 <= maxConcurrentTask options → (∀ b, bucket = Some b → waiting b = []) →
  worker_ok (maxConcurrentTask options) (Start options bucket now).
Proof.
  intros Hmax Hb. constructor; unfold holders, goroutines, polledTasks, taskCount, pollerCount; simpl;
    rewrite ?New_count, ?New_limit, ?count_replicate, ?count_nil; simpl; try done; try lia.
  all: unfold waiters; simpl; destruct bucket as [b|]; [rewrite (Hb b eq_refl)|]; [|done..|]; try apply NoDup_nil_2.
  all: by intros w Hw%elem_of_nil.
Qed.

(** ** Shutdown *)

(** The steps a poller still takes when it finds the worker stopped at every
    choice, and those of the whole worker. *)
Definition go_left (g : permitGo) : nat := match g with GAcquire | GSend => 1 | GGone => 0 end.
Definition left_ p : nat :=
  match p with
  | PReturned => 0
  | PClosing false g => 1 + go_left g
  | PSelect g => 2 + go_left g
  | PTop => 4
  | PPermit | PLeaving => 5
  | PClosing true g => 6 + go_left g
  | PQueue _ => 6
  | PPoll => 7
  | PToken | PAsleep => 0
  end.
Definition work x : nat :=
  sum_list_with left_ (pollers x) +
  match dispatcher x with DWait => 1 | DGot _ _ => 3 | DReturned => 0 end + length (running x).

Definition awake p : Prop := match p with PToken | PAsleep => False | _ => True end.
Definition no_tokens x : Prop := tokens x = None ∧ Forall awake (pollers x).
Definition stopped x : Prop := shutdown x = true ∧ limiterDone x = true.

Lemma sum_insert {A} (f : A → nat) (l : list A) (i : nat) a b :
  l !! i = Some a → (sum_list_with f (<[i := b]> l) + f a = sum_list_with f l + f b)%nat.
Proof.
  revert i. induction l as [|c l IH]; intros [|i] Hi; simplify_eq/=; [lia|]. specialize (IH _ Hi). lia.
Qed.

(** What the steps of a poller leave alone. *)
Definition rest x := (dispatcher x, running x, shutdown x, limiterDone x, tokens x).

Lemma rest_tokens x y : rest y = rest x → tokens y = tokens x.
Proof. by intros [=]. Qed.
Lemma rest_releaseTask x : rest (releaseTask x) = rest x ∧ pollers (releaseTask x) = pollers x.
Proof. unfold releaseTask. by destruct (sem_Release _). Qed.
Lemma rest_releasePoller x : rest (releasePoller x) = rest x ∧ pollers (releasePoller x) = pollers x.
Proof. unfold releasePoller. by destruct (sem_Release _). Qed.

Lemma poll_rest i now rand r x :
  rest (poll Pow i now rand r x) = rest x ∧
  ∃ q, pollers (poll Pow i now rand r x) = <[i := q]> (pollers x) ∧ awake q ∧
    ((r ≫= poll_task) = None → q = PLeaving).
Proof.
  unfold poll. destruct r as [[[t|] [e|] hint]|]; simpl;
    match goal with |- context [processHint ?h ?z] => destruct (processHint_count h z) as [_ ->] | _ => idtac end;
    unfold releaseTask; simpl; try destruct (sem_Release (taskPermit x)); simpl; split; try done; eexists; split; try done.
Qed.

(** A step of a poller moves it, and leaves the tokens alone when there are none. *)
Lemma poller_step_moves ev x y :
  no_tokens x → poller_step Pow ev x = Some y →
  ∃ i q, pollers y = <[i := q]> (pollers x) ∧ awake q ∧ tokens y = None.
Proof.
  intros [Ht Ha] Hs. destruct ev; simpl in Hs; try done;
    destruct (pollers x !! i) as [p|] eqn:Hi; try done; simpl in Hs; exists i.
  4: destruct (rest_releaseTask x) as [Hr%rest_tokens Hp].
  14: destruct (rest_releasePoller x) as [Hr%rest_tokens Hp].
  11: { destruct (poll_rest i now rand r x) as [Hr (q & Hq & Hw & _)]. exists q.
    assert (y = poll Pow i now rand r x) as -> by (destruct p; try done; repeat case_match; by simplify_eq/=).
    by rewrite (rest_tokens _ _ Hr). }
  9: destruct (sem_Acquire (pollerPermit (scaledPermit x))); destruct p; simplify_eq/=; by eexists.
  2: destruct (sem_Acquire (taskPermit x)); destruct p as [|[]|? []| | | | | | |]; simplify_eq/=; by eexists.
  all: destruct p; simplify_eq/=; repeat case_match; simplify_eq/=; eexists;
    (split_and!; [rewrite ?Hp; reflexivity|done|congruence]).
Qed.

Lemma no_tokens_step ev x y : no_tokens x → step Pow Log2 ev x = Some y → no_tokens y.
Proof.
  intros Hx. unfold step. destruct (poller_step Pow ev x) eqn:Hp.
  - intros [= <-]. destruct (poller_step_moves _ _ _ Hx Hp) as (i & q & Hy & Hq & Ht).
    split; [done|]. rewrite Hy. apply Forall_insert; [apply Hx|done].
  - destruct Hx as [Ht Ha]. destruct ev; simpl; rewrite ?Ht; simpl; try done; intros Hs;
      repeat case_match; simplify_eq/=; try done.
    destruct (running x !! k) as [[t []]|]; simplify_eq/=; [|done].
    unfold releaseTask. simpl. by destruct (sem_Release _).
Qed.

(** A poller of a stopped worker comes closer to its return. *)
Lemma poller_drains x i p :
  no_tokens x → stopped x → pollers x !! i = Some p → p ≠ PReturned →
  ∃ ev y q, poller_step Pow ev x = Some y ∧ rest y = rest x ∧
    pollers y = <[i := q]> (pollers x) ∧ (left_ q < left_ p)%nat.
Proof.
  intros [Ht Ha] [Hsd Hl] Hi Hp. assert (awake p) as Hw by (by eapply Forall_lookup_1).
  destruct (rest_releaseTask x) as [Hr1 Hp1]. destruct (rest_releasePoller x) as [Hr2 Hp2].
  destruct p as [|g|[] []| | | | |t| |]; try done.
  - exists (AcquireChan i). do 2 eexists. simpl. rewrite Hi. split_and!; [done..|simpl; lia].
  - exists (Shutdown i). do 2 eexists. simpl. rewrite Hi, Hsd. split_and!; [done..|simpl; lia].
  - exists (GoFail i). do 2 eexists. simpl. rewrite Hi. split_and!; [done..|simpl; lia].
  - exists (GoRelease i). do 2 eexists. simpl. rewrite Hi. simpl.
    split_and!; [done..|simpl; by rewrite Hp1|simpl; lia].
  - exists (Closed i). do 2 eexists. simpl. rewrite Hi, Ht. split_and!; [done..|simpl; lia].
  - exists (GoFail i). do 2 eexists. simpl. rewrite Hi. split_and!; [done..|simpl; lia].
  - exists (GoRelease i). do 2 eexists. simpl. rewrite Hi. simpl.
    split_and!; [done..|simpl; by rewrite Hp1|simpl; lia].
  - exists (Closed i). do 2 eexists. simpl. rewrite Hi. split_and!; [done..|simpl; lia].
  - exists (AcquireFails i). do 2 eexists. simpl. rewrite Hi, Hl. split_and!; [done..|simpl; lia].
  - destruct (poll_rest i 0 (λ z, z) (Some (Polled None None None)) x) as [Hr (q & Hq & _ & Hleave)].
    exists (Poll i 0 (λ z, z) (Some (Polled None None None))). do 2 eexists. simpl. rewrite Hi.
    split_and!; [done..|]. rewrite (Hleave eq_refl). simpl. lia.
  - exists (Drop_ i). do 2 eexists. simpl. rewrite Hi, Hsd. split_and!; [done..|simpl; lia].
  - exists (Leave i). do 2 eexists. simpl. rewrite Hi. split_and!; [done..|simpl; by rewrite Hp2|simpl; lia].
Qed.

Lemma drains_once x :
  no_tokens x → stopped x → (0 < work x)%nat →
  ∃ ev y, step Pow Log2 ev x = Some y ∧ stopped y ∧ (work y < work x)%nat.
Proof.
  intros Hx Hst Hw. pose proof Hst as [Hsd Hl].
  destruct (decide (Exists (λ p, left_ p ≠ 0%nat) (pollers x))) as [(p & [i Hi]%list_elem_of_lookup & Hp)%list.Exists_exists|Hn].
  { destruct (poller_drains x i p Hx Hst Hi) as (ev & y & q & Hs & Hr & Hq & Hlt); [by intros ->|].
    exists ev, y. unfold step. rewrite Hs. injection Hr as Hd Hrun Hs' Hl' _.
    split; [done|]. split; [split; congruence|].
    pose proof (sum_insert left_ (pollers x) i p q Hi). unfold work. rewrite Hq, Hd, Hrun. lia. }
  destruct (dispatcher x) as [|t b|] eqn:Hd.
  - exists DispatcherStops. eexists. unfold step. simpl. rewrite Hd, Hsd. split; [done|].
    split; [done|]. unfold work. rewrite Hd. simpl. lia.
  - exists (Dispatch true). eexists. unfold step. simpl. rewrite Hd, andb_false_r. simpl. split; [done|].
    split; [done|]. unfold work. rewrite Hd. simpl. rewrite length_app. simpl. lia.
  - assert (sum_list_with left_ (pollers x) = 0%nat) as Hz.
    { apply not_Exists_Forall in Hn; [|intros p; apply _]. clear -Hn.
      induction Hn as [|p l Hp _ IH]; [done|]. simpl in *. lia. }
    unfold work in Hw. rewrite Hz, Hd in Hw. destruct (running x) as [|[t b] r] eqn:Hr; [simpl in Hw; lia|].
    destruct (rest_releaseTask (wgDone (set_running r x))) as [Hrest Hp].
    exists (Finish 0). eexists. unfold step. simpl. rewrite Hr. simpl. split; [done|].
    destruct b; [|split; [done|]; unfold work; simpl; rewrite Hr; simpl; lia].
    injection Hrest as Hd' Hr' Hs' Hl' _. split; [split; [by rewrite Hs'|by rewrite Hl']|].
    unfold work. rewrite Hp, Hd', Hr', Hr. simpl. lia.
Qed.

Lemma drains n x :
  no_tokens x → stopped x → (work x <= n)%nat → ∃ evs y, exec (step Pow Log2) evs x = Some y ∧ work y = 0%nat.
Proof.
  revert x. induction n as [|n IH]; intros x Hx Hs Hn; [exists [], x; split; [done|lia]|].
  destruct (work x) eqn:Hw; [by exists [], x|].
  destruct (drains_once x Hx Hs ltac:(lia)) as (ev & y & Hy & Hsy & Hlt).
  destruct (IH y) as (evs & z & Hz & H0); [by eapply no_tokens_step|done|lia|].
  exists (ev :: evs), z. simpl. by rewrite Hy.
Qed.

Lemma drained x :
  no_tokens x → work x = 0%nat →
  Forall (eq PReturned) (pollers x) ∧ dispatcher x = DReturned ∧ running x = [].
Proof.
  intros [_ Ha] Hw. unfold work in Hw. split_and!.
  - assert (sum_list_with left_ (pollers x) = 0%nat) as Hz by lia. clear Hw.
    induction Ha as [|p l Hp _ IH]; [done|]. simpl in Hz.
    constructor; [|apply IH; lia]. destruct p as [| |[]| | | | | | |]; simpl in *; done || lia.
  - destruct (dispatcher x); [lia..|done].
  - apply length_zero_iff_nil. lia.
Qed.

Lemma drained_goroutines x :
  Forall (eq PReturned) (pollers x) → dispatcher x = DReturned → running x = [] → goroutines x = 0.
Proof.
  intros Hp Hd Hr. unfold goroutines. rewrite Hd, Hr. simpl.
  induction Hp as [|p l <- _ IH]; [done|]. by rewrite count_cons.
Qed.

(** ** The theorems *)

(** C8: A worker that is started runs its pollers, its dispatcher and its tasks in
    any order of their steps, whatever the polls return and the auto scaler does.
    It never panics on a release; the pollers that have a task permit, the task
    that waits to be dispatched and the polled tasks that run are together at most
    [maxConcurrentTask]; as long as the worker is not stopped every permit that is
    taken is held by one of them, so that none is lost; the poller permits that are
    taken are those of the pollers that poll; and the wait group of the shutdown
    counts exactly the goroutines that have not returned. *)
Theorem permits_bound_tasks options bucket now evs y :
  0 <= maxConcurrentTask options → (∀ b, bucket = Some b → waiting b = []) →
  exec (step Pow Log2) evs (Start options bucket now) = Some y →
  panicked y = false ∧
  polledTasks y <= holders y <= maxConcurrentTask options ∧
  (shutdown y = false → taskCount y = holders y) ∧
  pollerCount y = count polls (pollers y) ∧
  shutdownWG y = goroutines y.
Proof.
  intros Hmax Hb Hrun.
  assert (worker_ok (maxConcurrentTask options) y) as [H1 H2 H3 H4 H5 H6 H7 H8 H9 H10].
  { eapply exec_invariant; [|by apply worker_init|exact Hrun]. intros ev x z. apply step_ok. }
  pose proof (count_nonneg got (pollers y)). pose proof (count_nonneg sends (pollers y)).
  split_and!; try done; [|lia|intros Hs; symmetry; by apply H5].
  unfold holders, one. destruct (dispatching (dispatcher y)); lia.
Qed.

(** C25: A worker without sessions that was stopped, in any state, does not
    deadlock: from there the goroutines can all return (when the polls and the
    tasks under way return), and then the wait group that [Stop] waits for is at
    zero and no release has panicked. *)
Theorem stopped_worker_drains options now evs x :
  0 <= maxConcurrentTask options →
  exec (step Pow Log2) evs (Start options None now) = Some x →
  shutdown x = true → limiterDone x = true →
  ∃ evs' y, exec (step Pow Log2) evs' x = Some y ∧
    Forall (eq PReturned) (pollers y) ∧ dispatcher y = DReturned ∧ running y = [] ∧
    shutdownWG y = 0 ∧ panicked y = false.
Proof.
  intros Hmax Hrun Hs Hl.
  assert (worker_ok (maxConcurrentTask options) x ∧ no_tokens x) as [Hok Hn].
  { split; (eapply exec_invariant; [|..|exact Hrun]).
    - intros ev y z. apply step_ok.
    - by apply worker_init.
    - intros ev y z. apply no_tokens_step.
    - split; [done|]. by apply Forall_replicate. }
  destruct (drains (work x) x Hn) as (evs' & y & Hy & Hw); [done|done|]. exists evs', y.
  assert (worker_ok (maxConcurrentTask options) y) as Hoky
    by (eapply exec_invariant; [|exact Hok|exact Hy]; intros ev z z'; apply step_ok).
  assert (no_tokens y) as Hny
    by (eapply exec_invariant; [|exact Hn|exact Hy]; intros ev z z'; apply no_tokens_step).
  destruct (drained y Hny Hw) as (Hp & Hd & Hr). split_and!; try done; [|apply (wo_panic _ _ Hoky)].
  rewrite (wo_wg _ _ Hoky). by apply drained_goroutines.
Qed.
End worker.

(** ** Sample executions *)

Module SampleWorker.
Definition noScaling := MkAutoScalerOptions false 0 0 0 0 0 0.
Definition options := MkBaseWorkerOptions noScaling 2 0 1.
Definition run (bucket : option sessionTokenBucket) (evs : list event) : option baseWorker :=
  exec (S:=baseWorker (S:=counting) (T:=string)) (step (λ a _, a) (λ a, a)) evs (Start options bucket 0).
Definition task := Polled (Some "t"%string) None None.
Definition obtain (i : nat) : list (event (T:=string)) := [AcquireChan i; GoAcquire i; Receive i; Closed i].

(** One of two pollers gets the only permit, and its task runs. *)
Definition busy : list event :=
  obtain 0 ++ [AcquirePoller 0; Poll 0 0 (λ z, z) (Some task); AcquireChan 1; Queue 0; Dispatch true; Leave 0].
Definition busy_worker : baseWorker := default (Start options None 0) (run None busy).

Example busy_blocks :
  (polledTasks busy_worker, taskCount busy_worker, pollerCount busy_worker, shutdownWG busy_worker,
   run None (busy ++ [GoAcquire 1]), bool_decide (is_Some (run None (busy ++ [Finish 0; GoAcquire 1]))))
  = (1, 1, 0, 4, None, true).
Proof. by vm_compute. Qed.

Lemma permits_bound_tasks_witness :
  polledTasks busy_worker <= holders busy_worker <= 1 ∧ taskCount busy_worker = holders busy_worker.
Proof.
  destruct (permits_bound_tasks (λ a _, a) (λ a, a) options None 0 busy busy_worker)
    as (_ & H & Hc & _); [by vm_compute|by intros b [=]|by vm_compute|].
  split; [exact H|by apply Hc; vm_compute].
Defined.

Definition stopped_worker : baseWorker := default (Start options None 0) (run None (busy ++ [StopClose; StopCancel])).
Lemma stopped_worker_drains_witness :
  ∃ evs y, exec (step (λ a _, a) (λ a, a)) evs stopped_worker = Some y ∧ shutdownWG y = 0.
Proof.
  destruct (stopped_worker_drains (λ a _, a) (λ a, a) options 0 (busy ++ [StopClose; StopCancel]) stopped_worker)
    as (evs & y & Hy & _ & _ & _ & Hwg & _); [by vm_compute..|].
  by exists evs, y.
Defined.

(** A second [Stop] closes the channel again. *)
Example Stop_twice : match Stop busy_worker with Ret x => Stop x | Panic p => Panic p end =
  Panic (ErrorPanic "close of closed channel").
Proof. done. Qed.

(** A poller that waits for a session token does not see the shutdown: every
    other goroutine has returned and it cannot take a step. *)
Definition asleep : option (baseWorker (S:=counting) (T:=string)) :=
  run (Some (Bucket 0 []))
    (obtain 0 ++ [TestToken 0; StopClose; StopCancel;
      AcquireChan 1; Shutdown 1; GoFail 1; Closed 1; DispatcherStops]).
Example asleep_at_shutdown :
  (x ← asleep; Some (pollers x, shutdownWG x,
    (λ ev, bool_decide (is_Some (step (λ a _, a) (λ a, a) ev x))) <$>
      [AcquireChan 0; GoAcquire 0; GoFail 0; GoRelease 0; Receive 0; Shutdown 0; Closed 0; TestToken 0;
       AcquirePoller 0; AcquireFails 0; Queue 0; Drop_ 0; Leave 0; DispatcherStops; Dispatch true; Finish 0]))
  = Some ([PAsleep; PReturned], 1, replicate 16 false).
Proof. by vm_compute. Qed.
End SampleWorker.
