(* ===== verification/SharedPoll.v ===== *)
(** * Thrift data types of the pollers

    The structs with which tasks are polled and decision tasks are answered, in the
    generated package [.gen/go/shared] (shared.go), in the form of Shared.v. *)

From stdpp Require Import base gmap strings.
From S2P Require Import Prelude.
From S2P Require Import Shared.

Record PollForDecisionTaskRequest := MkPollForDecisionTaskRequest {
  PollForDecisionTaskRequest_Domain : option string;
  PollForDecisionTaskRequest_TaskList : option TaskList;
  PollForDecisionTaskRequest_Identity : option string;
  PollForDecisionTaskRequest_BinaryChecksum : option string }.

Record ActivityLocalDispatchInfo := MkActivityLocalDispatchInfo {
  ActivityLocalDispatchInfo_ActivityId : option string;
  ActivityLocalDispatchInfo_ScheduledTimestamp : option Z;
  ActivityLocalDispatchInfo_StartedTimestamp : option Z;
  ActivityLocalDispatchInfo_ScheduledTimestampOfThisAttempt : option Z;
  ActivityLocalDispatchInfo_TaskToken : bytes }.

Record RespondDecisionTaskCompletedResponse := MkRespondDecisionTaskCompletedResponse {
  RespondDecisionTaskCompletedResponse_DecisionTask : option PollForDecisionTaskResponse;
  RespondDecisionTaskCompletedResponse_ActivitiesToDispatchLocally : option (gmap string (option ActivityLocalDispatchInfo)) }.

Record TaskListMetadata := MkTaskListMetadata {
  TaskListMetadata_MaxTasksPerSecond : option Z }.

Record PollForActivityTaskRequest := MkPollForActivityTaskRequest {
  PollForActivityTaskRequest_Domain : option string;
  PollForActivityTaskRequest_TaskList : option TaskList;
  PollForActivityTaskRequest_Identity : option string;
  PollForActivityTaskRequest_TaskListMetadata : option TaskListMetadata }.
