(* ===== verification/DecisionPoller.v ===== *)
(** * The poller of decision tasks

    [workflowTaskPoller] (internal/internal_task_pollers.go): which task list is
    polled next, how the answer to a poll becomes a task, and how a task is
    answered, with the retries of the call and the dispatch of activities to the
    pollers of the same process.  The task handler is a tree of the heartbeats it
    sends and of its result, so that the loop over the tasks that the service
    returns can be run with any handler. *)

From Stdlib Require Import ZArith Lia.
From stdpp Require Import base list gmap strings option.
From S2P Require Import Prelude.
From S2P Require Import Shared.
From S2P Require Import SharedPoll.
From S2P Require Import Errors.
From S2P Require Import Backoff.
From S2P Require Import WorkflowTask.
From S2P Require Import Goroutines.

Local Open Scope Z_scope.

(** The configuration; the domain, the identity and the checksum are those of the
    handler. *)
Record workflowTaskPoller := WorkflowTaskPoller {
  wtp_config : workerConfig;
  wtp_taskListName : string;
  wtp_stickyTaskList : string;
  wtp_disableStickyExecution : bool;
  wtp_StickyScheduleToStartTimeout : Z;
  wtp_hasTunnel : bool  (** [ldaTunnel] is not nil *) }.

Record historyIteratorImpl := HistoryIterator {
  it_nextPageToken : bytes;
  it_execution : option WorkflowExecution;
  it_domain : string;
  it_startedEventID : Z;
  it_maxEventID : Z }.

Record workflowTask := MkWorkflowTask {
  wt_task : option PollForDecisionTaskResponse;
  wt_historyIterator : option historyIteratorImpl;
  wt_autoConfigHint : option AutoConfigHint }.

(** [workflowTaskPoller], the fields under [requestLock]. *)
Record polling := Polling {
  pendingRegularPollCount : Z;
  pendingStickyPollCount : Z;
  stickyBacklog : Z }.
Implicit Types (cfg : workflowTaskPoller) (c : polling) (k : nat).

(** ** Choosing the task list *)

Definition kindOf (request : PollForDecisionTaskRequest) : TaskListKind :=
  default TaskListKindNormal (PollForDecisionTaskRequest_TaskList request ≫= TaskList_Kind).

Definition getNextPollRequest cfg : M polling PollForDecisionTaskRequest :=
  let request taskList := MkPollForDecisionTaskRequest (Some (wth_domain (wtp_config cfg)))
    (Some taskList) (Some (wth_identity (wtp_config cfg)))
    (Some (wth_binaryChecksum (wtp_config cfg))) in
  let regular := MkTaskList (Some (wtp_taskListName cfg)) (Some TaskListKindNormal) None in
  let sticky := MkTaskList (Some (wtp_stickyTaskList cfg)) (Some TaskListKindSticky)
                  (Some (wtp_taskListName cfg)) in
  if wtp_disableStickyExecution cfg then mret (request regular) else
  c ← get;
  if bool_decide (stickyBacklog c > 0)
     || bool_decide (pendingStickyPollCount c <= pendingRegularPollCount c) then
    modify (λ c, Polling (pendingRegularPollCount c) (int64 (pendingStickyPollCount c + 1))
                   (stickyBacklog c));;
    mret (request sticky)
  else
    modify (λ c, Polling (int64 (pendingRegularPollCount c + 1)) (pendingStickyPollCount c)
                   (stickyBacklog c));;
    mret (request regular).

Definition release cfg (kind : TaskListKind) : M polling unit :=
  if wtp_disableStickyExecution cfg then mret tt else
  modify (λ c,
    match kind with
    | TaskListKindSticky => Polling (pendingRegularPollCount c)
        (int64 (pendingStickyPollCount c - 1)) (stickyBacklog c)
    | _ => Polling (int64 (pendingRegularPollCount c - 1)) (pendingStickyPollCount c)
        (stickyBacklog c)
    end).

Definition updateBacklog cfg (kind : TaskListKind) (backlogCountHint : Z) : M polling unit :=
  match kind with
  | TaskListKindNormal => mret tt
  | _ =>
      if wtp_disableStickyExecution cfg then mret tt else
      modify (λ c, Polling (pendingRegularPollCount c) (pendingStickyPollCount c) backlogCountHint)
  end.

(** ** The answer to a poll *)

Definition toWorkflowTask cfg (response : PollForDecisionTaskResponse) : workflowTask :=
  let startEventID := GetStartedEventId response in
  let nextEventID := default 0 (PollForDecisionTaskResponse_NextEventId response) in
  let nextEventID :=
    if bool_decide (nextEventID ≠ 0) && bool_decide (startEventID ≠ 0) then
      if bool_decide (int64 (nextEventID - 1) ≠ startEventID)
         && bool_decide (int64 (nextEventID + 1) ≠ startEventID)
      then nextEventID else int64 (startEventID + 1)
    else nextEventID in
  MkWorkflowTask (Some response)
    (Some (HistoryIterator (PollForDecisionTaskResponse_NextPageToken response)
       (PollForDecisionTaskResponse_WorkflowExecution response) (wth_domain (wtp_config cfg))
       startEventID (int64 (nextEventID - 1))))
    (PollForDecisionTaskResponse_AutoConfigHint response).

(** [poll] after the call of the service, up to the deferred [release]. *)
Definition pollAnswered cfg (kind : TaskListKind)
    (answer : serviceError + option PollForDecisionTaskResponse)
    : M polling (serviceError + workflowTask) :=
  match answer with
  | inl err => updateBacklog cfg kind 0;; mret (inl err)
  | inr None => updateBacklog cfg kind 0;; mret (inr (MkWorkflowTask None None None))
  | inr (Some response) =>
      if bool_decide (default ""%string (PollForDecisionTaskResponse_TaskToken response) = ""%string) then
        updateBacklog cfg kind 0;;
        mret (inr (MkWorkflowTask None None (PollForDecisionTaskResponse_AutoConfigHint response)))
      else
        updateBacklog cfg kind (default 0 (PollForDecisionTaskResponse_BacklogCountHint response));;
        mret (inr (toWorkflowTask cfg response))
  end.

(** [doPoll]: [stopping] when it starts, [stopped] when it sees the shutdown
    before the answer; the poll itself goes on. *)
Definition doPoll {A} (stopping stopped : bool) (answer : serviceError + A) : serviceError + A :=
  if stopping || stopped then inl errShutdown else answer.

(** The goroutines of [doPoll]: in the call of the service, or after it. *)
Inductive pollAt := InCall (kind : TaskListKind) | InRelease (kind : TaskListKind).
Definition poll_kind (p : pollAt) : TaskListKind :=
  match p with InCall kind => kind | InRelease kind => kind end.

Record pollers := Pollers { counts : polling; polls : list pollAt }.

Inductive pollEvent :=
| BeginPoll
| AnswerPoll k (answer : serviceError + option PollForDecisionTaskResponse)
| EndPoll k.

Definition pollStep cfg (ev : pollEvent) (x : pollers) : option pollers :=
  match ev with
  | BeginPoll =>
      match getNextPollRequest cfg (counts x) with
      | (Ret request, c) => Some (Pollers c (polls x ++ [InCall (kindOf request)]))
      | (Panic _, _) => None
      end
  | AnswerPoll k answer =>
      match polls x !! k with
      | Some (InCall kind) =>
          Some (Pollers (snd (pollAnswered cfg kind answer (counts x)))
                  (<[k := InRelease kind]> (polls x)))
      | _ => None
      end
  | EndPoll k =>
      match polls x !! k with
      | Some (InRelease kind) =>
          Some (Pollers (snd (release cfg kind (counts x))) (delete k (polls x)))
      | _ => None
      end
  end.

(** ** Activities for the pollers of the same process *)

(** [readyCh] has room for one value. *)
Record locallyDispatchedActivityTask := LocallyDispatched {
  lda_readyCh : option bool;
  lda_TaskToken : bytes;
  lda_WorkflowExecution : option WorkflowExecution;
  lda_ActivityID : option string;
  lda_ActivityType : option ActivityType;
  lda_Input : bytes;
  lda_ScheduledTimestamp : option Z;
  lda_ScheduleToCloseTimeoutSeconds : option Z;
  lda_StartedTimestamp : option Z;
  lda_StartToCloseTimeoutSeconds : option Z;
  lda_HeartbeatTimeoutSeconds : option Z;
  lda_ScheduledTimestampOfThisAttempt : option Z;
  lda_WorkflowType : option WorkflowType;
  lda_WorkflowDomain : option string;
  lda_Header : option Header }.
Implicit Types (lda : locallyDispatchedActivityTask) (d : Decision).

Definition newLocallyDispatched cfg (task : PollForDecisionTaskResponse)
    (attr : ScheduleActivityTaskDecisionAttributes) : locallyDispatchedActivityTask :=
  LocallyDispatched None None (PollForDecisionTaskResponse_WorkflowExecution task)
    (ScheduleActivityTaskDecisionAttributes_ActivityId attr)
    (ScheduleActivityTaskDecisionAttributes_ActivityType attr)
    (ScheduleActivityTaskDecisionAttributes_Input attr) None
    (ScheduleActivityTaskDecisionAttributes_ScheduleToCloseTimeoutSeconds attr) None
    (ScheduleActivityTaskDecisionAttributes_StartToCloseTimeoutSeconds attr)
    (ScheduleActivityTaskDecisionAttributes_HeartbeatTimeoutSeconds attr) None
    (PollForDecisionTaskResponse_WorkflowType task)
    (Some (wth_domain (wtp_config cfg))) (ScheduleActivityTaskDecisionAttributes_Header attr).

(** [at.readyCh <- false]. *)
Definition refuse lda : locallyDispatchedActivityTask :=
  LocallyDispatched (Some false) (lda_TaskToken lda) (lda_WorkflowExecution lda) (lda_ActivityID lda)
    (lda_ActivityType lda) (lda_Input lda) (lda_ScheduledTimestamp lda)
    (lda_ScheduleToCloseTimeoutSeconds lda) (lda_StartedTimestamp lda)
    (lda_StartToCloseTimeoutSeconds lda) (lda_HeartbeatTimeoutSeconds lda)
    (lda_ScheduledTimestampOfThisAttempt lda) (lda_WorkflowType lda) (lda_WorkflowDomain lda)
    (lda_Header lda).
Definition start (adl : ActivityLocalDispatchInfo) lda : locallyDispatchedActivityTask :=
  LocallyDispatched (Some true) (ActivityLocalDispatchInfo_TaskToken adl) (lda_WorkflowExecution lda)
    (lda_ActivityID lda) (lda_ActivityType lda) (lda_Input lda)
    (ActivityLocalDispatchInfo_ScheduledTimestamp adl) (lda_ScheduleToCloseTimeoutSeconds lda)
    (ActivityLocalDispatchInfo_StartedTimestamp adl) (lda_StartToCloseTimeoutSeconds lda)
    (lda_HeartbeatTimeoutSeconds lda) (ActivityLocalDispatchInfo_ScheduledTimestampOfThisAttempt adl)
    (lda_WorkflowType lda) (lda_WorkflowDomain lda) (lda_Header lda).

Definition requestLocalDispatch (a : ScheduleActivityTaskDecisionAttributes) :=
  MkScheduleActivityTaskDecisionAttributes (ScheduleActivityTaskDecisionAttributes_ActivityId a)
    (ScheduleActivityTaskDecisionAttributes_ActivityType a)
    (ScheduleActivityTaskDecisionAttributes_Domain a)
    (ScheduleActivityTaskDecisionAttributes_TaskList a)
    (ScheduleActivityTaskDecisionAttributes_Input a)
    (ScheduleActivityTaskDecisionAttributes_ScheduleToCloseTimeoutSeconds a)
    (ScheduleActivityTaskDecisionAttributes_ScheduleToStartTimeoutSeconds a)
    (ScheduleActivityTaskDecisionAttributes_StartToCloseTimeoutSeconds a)
    (ScheduleActivityTaskDecisionAttributes_HeartbeatTimeoutSeconds a)
    (ScheduleActivityTaskDecisionAttributes_RetryPolicy a)
    (ScheduleActivityTaskDecisionAttributes_Header a) (Some true).

Definition set_schedule (a : ScheduleActivityTaskDecisionAttributes) d : Decision :=
  MkDecision (Decision_DecisionType d) (Some a) (Decision_StartTimerDecisionAttributes d)
    (Decision_CompleteWorkflowExecutionDecisionAttributes d)
    (Decision_FailWorkflowExecutionDecisionAttributes d)
    (Decision_RequestCancelActivityTaskDecisionAttributes d)
    (Decision_CancelTimerDecisionAttributes d)
    (Decision_CancelWorkflowExecutionDecisionAttributes d)
    (Decision_RequestCancelExternalWorkflowExecutionDecisionAttributes d)
    (Decision_RecordMarkerDecisionAttributes d)
    (Decision_ContinueAsNewWorkflowExecutionDecisionAttributes d)
    (Decision_StartChildWorkflowExecutionDecisionAttributes d)
    (Decision_SignalExternalWorkflowExecutionDecisionAttributes d)
    (Decision_UpsertWorkflowSearchAttributesDecisionAttributes d).

(** ** Answering a task *)

(** The request is one object for all attempts, and is recorded as it is when it
    is sent. *)
Record responding := Responding {
  resp_request : completeRequest;
  resp_calls : nat;                                     (** the calls of [respondTaskCompleted] *)
  resp_offers : nat;                                    (** the calls of [SendTask] *)
  resp_handed : list locallyDispatchedActivityTask;     (** the tasks that were taken *)
  resp_sent : list completeRequest }.
Implicit Types (x : responding).

Definition set_request r x := Responding r (resp_calls x) (resp_offers x) (resp_handed x) (resp_sent x).
Definition set_handed l x := Responding (resp_request x) (resp_calls x) (resp_offers x) l (resp_sent x).

Definition set_completed (ds : list Decision) (sticky : option StickyExecutionAttributes)
    (return_ : option bool) (r : RespondDecisionTaskCompletedRequest) :=
  MkRespondDecisionTaskCompletedRequest (RespondDecisionTaskCompletedRequest_TaskToken r) ds
    (RespondDecisionTaskCompletedRequest_ExecutionContext r)
    (RespondDecisionTaskCompletedRequest_Identity r) sticky return_
    (RespondDecisionTaskCompletedRequest_ForceCreateNewDecisionTask r)
    (RespondDecisionTaskCompletedRequest_BinaryChecksum r)
    (RespondDecisionTaskCompletedRequest_QueryResults r).

Section respond.
Context (cfg : workflowTaskPoller).
(** Whether a local poller waits at the [n]-th call of [SendTask]. *)
Context (takes : nat → bool).
Abbreviation answer := (serviceError + option RespondDecisionTaskCompletedResponse)%type.

Definition SendTask lda : M responding bool :=
  x ← get;
  let ok := takes (resp_offers x) in
  modify (λ x, Responding (resp_request x) (resp_calls x) (S (resp_offers x))
                 (if ok then resp_handed x ++ [lda] else resp_handed x) (resp_sent x));;
  mret ok.

(** Of the loop over the decisions: the decision, and the number of the task that
    was handed over. *)
Definition offerDecision (task : PollForDecisionTaskResponse) d : M responding (Decision * list nat) :=
  match Decision_ScheduleActivityTaskDecisionAttributes d with
  | Some attr =>
      if bool_decide (wtp_taskListName cfg =
           get_string TaskList_Name (ScheduleActivityTaskDecisionAttributes_TaskList attr)) then
        x ← get;
        ok ← SendTask (newLocallyDispatched cfg task attr);
        if (ok : bool) then mret (set_schedule (requestLocalDispatch attr) d, [length (resp_handed x)])
        else mret (d, [])
      else mret (d, [])
  | None => mret (d, [])
  end.

Fixpoint offerDecisions (task : PollForDecisionTaskResponse) (ds : list Decision)
    : M responding (list Decision * list nat) :=
  match ds with
  | [] => mret ([], [])
  | d :: ds =>
      r ← offerDecision task d;
      rs ← offerDecisions task ds;
      mret (fst (r : Decision * list nat) :: fst (rs : list Decision * list nat), snd r ++ snd rs)
  end.

(** The deferred loop over the tasks that were handed over. *)
Definition makeReady (a : answer) (i : nat) : M responding unit :=
  x ← get;
  match resp_handed x !! i with
  | None => throw IndexOutOfRange
  | Some lda =>
      match a with
      | inr (Some response) =>
          match lda_ActivityID lda with
          | None => throw NilDereference
          | Some id =>
              match RespondDecisionTaskCompletedResponse_ActivitiesToDispatchLocally response
                      ≫= (λ m, m !! id) with
              | Some (Some adl) => modify (set_handed (<[i := start adl lda]> (resp_handed x)))
              | Some None => throw NilDereference
              | None => modify (set_handed (<[i := refuse lda]> (resp_handed x)))
              end
          end
      | _ => modify (set_handed (<[i := refuse lda]> (resp_handed x)))
      end
  end.

Fixpoint makeAllReady (a : answer) (js : list nat) : M responding unit :=
  match js with [] => mret tt | i :: js => makeReady a i;; makeAllReady a js end.

(** The service gets the request as it is now. *)
Definition sendRequest : M responding unit :=
  modify (λ x, Responding (resp_request x) (resp_calls x) (resp_offers x) (resp_handed x)
                 (resp_sent x ++ [resp_request x])).

Definition stickyAttributes : StickyExecutionAttributes :=
  MkStickyExecutionAttributes (Some (MkTaskList (Some (wtp_stickyTaskList cfg)) None None))
    (Some (Int32Ceil (Seconds (wtp_StickyScheduleToStartTimeout cfg)))).

Definition handleDecisionTaskCompletedRequest (task : PollForDecisionTaskResponse)
    (request : RespondDecisionTaskCompletedRequest) (a : answer) : M responding answer :=
  let ds := RespondDecisionTaskCompletedRequest_Decisions request in
  let request :=
    match RespondDecisionTaskCompletedRequest_StickyAttributes request with
    | None =>
        if wtp_disableStickyExecution cfg then set_completed ds None (Some false) request
        else set_completed ds (Some stickyAttributes)
               (RespondDecisionTaskCompletedRequest_ReturnNewDecisionTask request) request
    | sticky => set_completed ds sticky (Some false) request
    end in
  r ← (if wtp_hasTunnel cfg then offerDecisions task ds else mret (ds, []));
  modify (set_request (RespondCompleted (set_completed (fst (r : list Decision * list nat))
    (RespondDecisionTaskCompletedRequest_StickyAttributes request)
    (RespondDecisionTaskCompletedRequest_ReturnNewDecisionTask request) request)));;
  sendRequest;;
  makeAllReady a (snd r);;
  mret a.

(** Whether a failure is reported at all. *)
Definition firstAttempt (task : PollForDecisionTaskResponse) : bool :=
  bool_decide (PollForDecisionTaskResponse_Attempt task = Some 0).

Definition respondTaskCompletedAttempt (task : PollForDecisionTaskResponse) (a : answer)
    : M responding answer :=
  x ← get;
  match resp_request x with
  | RespondFailed _ =>
      if firstAttempt task then
        sendRequest;; mret (match a with inl err => inl err | inr _ => inr None end)
      else mret (inr None)
  | RespondCompleted request => handleDecisionTaskCompletedRequest task request a
  | RespondQuery _ => sendRequest;; mret (match a with inl err => inl err | inr _ => inr None end)
  end.

Fixpoint respondAttempts (n i : nat) (task : PollForDecisionTaskResponse) (answers : nat → answer)
    : M responding unit :=
  match n with
  | O => mret tt
  | S n => respondTaskCompletedAttempt task (answers i);; respondAttempts n (S i) task answers
  end.

Context (Pow : float64 → float64 → float64) (fuel : nat).

(** What the attempts return: a failure that is not reported succeeds. *)
Definition attemptAnswer (request : completeRequest) (task : PollForDecisionTaskResponse) (a : answer)
    : answer :=
  match request with
  | RespondFailed _ =>
      if firstAttempt task then match a with inl err => inl err | inr _ => inr None end else inr None
  | RespondCompleted _ => a
  | RespondQuery _ => match a with inl err => inl err | inr _ => inr None end
  end.

(** What the calls of the service meet, in order. *)
Context (calls : nat → rpc RespondDecisionTaskCompletedResponse).

(** The context of the retries is the background. *)
Definition respondTaskCompleted (request : completeRequest) (task : PollForDecisionTaskResponse)
    : M responding answer :=
  x ← get;
  let c := calls (resp_calls x) in
  modify (λ x, Responding request (S (resp_calls x)) (resp_offers x) (resp_handed x) (resp_sent x));;
  match callService Pow fuel
          (Rpc (rpc_start c) None false (λ i, attemptAnswer request task (rpc_answer c i))
             (rpc_now c) (rpc_rand c) (λ _, false) (λ _, false)) with
  | Panic p => throw p
  | Ret (a, n) => respondAttempts n 0 task (rpc_answer c);; mret a
  end.

(** [getErrorDetails(err, nil)] uses the default converter. *)
Context (defaultConverter : DataConverter).

Definition RespondTaskCompletedWithMetrics (completedRequest : option completeRequest)
    (taskErr : option goError) (task : PollForDecisionTaskResponse) : M responding answer :=
  match taskErr, completedRequest with
  | Some err, _ =>
      match errorToFailDecisionTask (dc:=defaultConverter) (wtp_config cfg)
              (PollForDecisionTaskResponse_TaskToken task) err with
      | Ret request => respondTaskCompleted (RespondFailed request) task
      | Panic p => throw p
      end
  | None, Some request => respondTaskCompleted request task
  | None, None => throw (StringPanic "unknown request type from ProcessWorkflowTask()")
  end.

(** ** The tasks of a workflow *)

Inductive taskErr :=
| HeartbeatFailed (message : string)   (** a [decisionHeartbeatError] *)
| TaskFailed (err : goError).

(** What [ProcessWorkflowTask] of the handler does with a task: it calls the
    heartbeat function, and goes on with the answer, or returns. *)
Inductive handled :=
| Heartbeats (request : completeRequest) (k : serviceError + option workflowTask → handled)
| Finishes (request : option completeRequest) (err : option taskErr).

(** The next task, if the service has returned one. *)
Definition nextTask (a : option RespondDecisionTaskCompletedResponse) : option workflowTask :=
  toWorkflowTask cfg <$> (a ≫= RespondDecisionTaskCompletedResponse_DecisionTask).

(** The heartbeat function answers for the task of the loop, whatever tasks it has
    returned since. *)
Fixpoint runHandler (task : PollForDecisionTaskResponse) (h : handled)
    : M responding (option completeRequest * option taskErr) :=
  match h with
  | Finishes request err => mret (request, err)
  | Heartbeats request k =>
      a ← RespondTaskCompletedWithMetrics (Some request) None task;
      match (a : answer) with
      | inl err => runHandler task (k (inl err))
      | inr a => runHandler task (k (inr (nextTask a)))
      end
  end.

Inductive loopErr := LoopHeartbeat (message : string) | LoopService (err : serviceError).

(** [None] is a nil error. *)
Fixpoint processWorkflowTask (steps : nat) (handler : workflowTask → handled) (wt : workflowTask)
    : M responding (option loopErr) :=
  match wt_task wt, steps with
  | None, _ => mret None
  | Some _, O => throw OutOfFuel
  | Some task, S steps =>
      r ← runHandler task (handler wt);
      match (r : option completeRequest * option taskErr) with
      | (None, None) => mret None
      | (_, Some (HeartbeatFailed message)) => mret (Some (LoopHeartbeat message))
      | (request, err) =>
          a ← RespondTaskCompletedWithMetrics request
                (match err with Some (TaskFailed err) => Some err | _ => None end) task;
          match (a : answer) with
          | inl err => mret (Some (LoopService err))
          | inr a =>
              match nextTask a with
              | None => mret None
              | Some wt => processWorkflowTask steps handler wt
              end
          end
      end
  end.

(** [ProcessTask]; resetting the stickiness of a workflow is one call. *)
Inductive polledTask := DecisionTask (wt : workflowTask) | ResetStickiness.

Definition ProcessTask (shuttingDown : bool) (steps : nat) (handler : workflowTask → handled)
    (reset : option serviceError) (task : polledTask) : M responding (option loopErr) :=
  if shuttingDown then mret (Some (LoopService errShutdown)) else
  match task with
  | DecisionTask wt => processWorkflowTask steps handler wt
  | ResetStickiness => mret (LoopService <$> reset)
  end.

End respond.
