(* ===== verification/ActivityPoller.v ===== *)
(** * The pollers of activity tasks and of local activities

    [activityTaskPoller], [locallyDispatchedActivityTaskPoller] and
    [localActivityTaskHandler] (internal/internal_task_pollers.go).  A poller gets
    its tasks from the service, or from the decision pollers of the same process
    through a tunnel (DecisionPoller.v); it runs them with the handler of
    ActivityTask.v and reports the result. *)

From Stdlib Require Import ZArith Lia.
From stdpp Require Import base list gmap strings option.
From S2P Require Import Prelude.
From S2P Require Import Shared.
From S2P Require Import SharedActivity.
From S2P Require Import SharedPoll.
From S2P Require Import Errors.
From S2P Require Import Environment.
From S2P Require Import EventHandlers.
From S2P Require Import Backoff.
From S2P Require Import Contexts.
From S2P Require Import Heartbeat.
From S2P Require Import ActivityTask.
From S2P Require Import WorkflowTask.
From S2P Require Import DecisionPoller.

Local Open Scope Z_scope.

(** ** Tasks from the same process *)

(** [received]: what the first [select] receives, [None] when the worker stops;
    the second one takes the value of [readyCh], unless the worker stops first. *)
Definition getTask (received : option locallyDispatchedActivityTask) (stopped : bool)
    : option locallyDispatchedActivityTask :=
  lda ← received;
  if stopped then None else
  match lda_readyCh lda with Some true => Some lda | _ => None end.

Definition pollLocallyDispatchedActivity (task : option locallyDispatchedActivityTask)
    : option PollForActivityTaskResponse :=
  (λ lda, MkPollForActivityTaskResponse (lda_TaskToken lda) (lda_WorkflowExecution lda)
     (lda_ActivityID lda) (lda_ActivityType lda) (lda_Input lda) (lda_ScheduledTimestamp lda)
     (lda_ScheduleToCloseTimeoutSeconds lda) (lda_StartedTimestamp lda)
     (lda_StartToCloseTimeoutSeconds lda) (lda_HeartbeatTimeoutSeconds lda) (Some 0)
     (lda_ScheduledTimestampOfThisAttempt lda) None (lda_WorkflowType lda) (lda_WorkflowDomain lda)
     (lda_Header lda) None) <$> task.

(** ** Polling *)

Record activityTaskPoller := ActivityTaskPoller {
  atp_domain : string;
  atp_taskList : option TaskList;
  atp_identity : string;
  atp_activitiesPerSecond : Z  (** the bits of a float64 *) }.

Record activityTask := MkActivityTask {
  act_task : option PollForActivityTaskResponse;
  act_autoConfigHint : option AutoConfigHint }.

Definition pollRequest (p : activityTaskPoller) : PollForActivityTaskRequest :=
  MkPollForActivityTaskRequest (Some (atp_domain p)) (atp_taskList p) (Some (atp_identity p))
    (Some (MkTaskListMetadata (Some (atp_activitiesPerSecond p)))).

Definition pollWithMetrics (answer : serviceError + option PollForActivityTaskResponse)
    : serviceError + activityTask :=
  match answer with
  | inl err => inl err
  | inr None => inr (MkActivityTask None None)
  | inr (Some response) =>
      let hint := PollForActivityTaskResponse_AutoConfigHint response in
      if bool_decide (default ""%string (PollForActivityTaskResponse_TaskToken response) = ""%string)
      then inr (MkActivityTask None hint)
      else inr (MkActivityTask (Some response) hint)
  end.

Definition PollTask (stopping stopped : bool) (answer : serviceError + option PollForActivityTaskResponse)
    : serviceError + activityTask :=
  doPoll stopping stopped (pollWithMetrics answer).
Definition PollTask_local (stopping stopped : bool) (received : option locallyDispatchedActivityTask)
    (stoppedWaiting : bool) : serviceError + activityTask :=
  doPoll stopping stopped
    (pollWithMetrics (inr (pollLocallyDispatchedActivity (getTask received stoppedWaiting)))).

(** ** Processing *)

Section process.
Context (Pow : float64 → float64 → float64) (fuel : nat) {dc : DataConverter}.

(** The error, and how often the service was called. *)
Definition reportActivityComplete (request : activityResponse) (c : rpc unit)
    : outcome (option serviceError * nat) :=
  match request with
  | RespondNothing => Ret (None, 0%nat)
  | _ =>
      match callService Pow fuel (Rpc (rpc_start c) None false (rpc_answer c) (rpc_now c)
                                    (rpc_rand c) (λ _, false) (λ _, false)) with
      | Panic p => Panic p
      | Ret (inl err, n) => Ret (Some err, n)
      | Ret (inr _, n) => Ret (None, n)
      end
  end.

Inductive processErr :=
| ShuttingDown
| ExecuteFailed (r : executeResult)   (** a propagator failed or the deadline is over *)
| ReportFailed (err : serviceError).

(** The error, and the request that was reported with the number of calls. *)
Definition ProcessTask (shuttingDown : bool) (w : world) (p : activityTaskPoller)
    (task : activityTask) (shuttingDown' : bool) (c : rpc unit)
    : outcome (option processErr * option (activityResponse * nat)) :=
  if shuttingDown then Ret (Some ShuttingDown, None) else
  match act_task task with
  | None => Ret (None, None)
  | Some task =>
      r ← fst (Execute Pow fuel w (get_string TaskList_Name (atp_taskList p)) task);
      match r with
      | Responded RespondNothing => Ret (None, None)
      | Responded request =>
          if shuttingDown' then Ret (Some ShuttingDown, None) else
          report ← reportActivityComplete request c;
          Ret (ReportFailed <$> fst (report : option serviceError * nat), Some (request, snd report))
      | r => Ret (Some (ExecuteFailed r), None)
      end
  end.

End process.

(** ** Local activities *)

Definition ErrDeadlineExceeded : goError := NewTimeoutError TimeoutTypeScheduleToClose [].

(** [timeoutSeconds] is [params.ScheduleToCloseTimeoutSeconds]. *)
Definition localDeadline (now timeoutSeconds : Z) (task : localActivityTask) : Z :=
  let deadline := now + timeoutSeconds * Second in
  if bool_decide (task_attempt task > 0) && negb (bool_decide (task_expireTime task = 0))
     && bool_decide (task_expireTime task < deadline)
  then task_expireTime task else deadline.

(** What a local activity meets: when and how its code ends, if it does; when its
    context is canceled, if it is; and when the handler, woken by the end of the
    context, looks for the result again. *)
Record localRun := LocalRun {
  run_end : option (Z * activityEnd);
  run_canceled : option Z;
  run_checked : Z }.

(** When the context is done, and with which error. *)
Definition contextEnd (deadline : Z) (run : localRun) : Z * goError :=
  match run_canceled run with
  | Some t => if bool_decide (t < deadline) then (t, ErrCanceled_) else (deadline, ErrDeadlineExceeded)
  | None => (deadline, ErrDeadlineExceeded)
  end.

Definition localOutcome (e : activityEnd) : bytes * option goError :=
  match e with
  | Returned output err => (output, err)
  | Panicked value stack => (None, Some (newPanicError value stack))
  end.

Definition executeLocalActivityTask (now timeoutSeconds : Z) (propagated : option string)
    (task : localActivityTask) (run : localRun) : localActivityResult :=
  let result r err := LocalActivityResult task r err 0 in
  match propagated with
  | Some err => result None (Some (ErrText ("unable to propagate context " +:+ err)))
  | None =>
      if task_canceled task then result None (Some ErrCanceled_) else
      let '(done_, err) := contextEnd (localDeadline now timeoutSeconds task) run in
      match run_end run with
      | Some (t, e) =>
          if bool_decide (t < done_) || bool_decide (t <= run_checked run)
          then let '(r, err) := localOutcome e in result r err
          else result None (Some err)
      | None => result None (Some err)
      end
  end.

(** [ProcessTask] of the local poller sends the result, unless the decision task
    is over. *)
Definition deliverLocalResult (doneCh : bool) (r : localActivityResult) : option localActivityResult :=
  if doneCh then None else Some r.
