(* ===== verification/PollerProps.v ===== *)
(** * The pollers: theorems

    The poller of decision tasks counts its polls; an activity that is handed to a
    poller of the same process runs there exactly when the service has agreed; and
    a local activity ends by its deadline. *)

From Stdlib Require Import ZArith Lia.
From stdpp Require Import base list gmap strings option.
From S2P Require Import Prelude.
From S2P Require Import Shared.
From S2P Require Import SharedActivity.
From S2P Require Import SharedPoll.
From S2P Require Import Errors.
From S2P Require Import Environment.
From S2P Require Import EventHandlers.
From S2P Require Import Backoff.
From S2P Require Import Contexts.
From S2P Require Import WorkflowTask.
From S2P Require Import ActivityTask.
From S2P Require Import Goroutines.
From S2P Require Import DecisionPoller.
From S2P Require Import ActivityPoller.

Local Open Scope Z_scope.

(** ** Calls with retries *)

(** Every answer before the last one is an error that is retried. *)
Lemma retryLoop_result Pow world isRetriable fuel has_done i waited s err waited' :
  fst (retryLoop Pow world isRetriable fuel has_done i waited s) = Ret (err, waited') →
  ∃ m, length waited' = (length waited + m)%nat ∧ err = at_result (world (i + m)%nat) ∧
    ∀ j, (j < m)%nat → ∃ e, at_result (world (i + j)%nat) = Some e ∧ isRetriable e = true.
Proof.
  revert i waited s. induction fuel as [|fuel IH]; simpl; intros i waited s Hr; [done|].
  destruct (at_result (world i)) as [e|] eqn:He.
  - unfold NextBackOff in Hr. run_in Hr. case_bool_decide; simplify_eq/=.
    { exists 0%nat. rewrite !Nat.add_0_r. split_and!; [done|done|lia]. }
    destruct (isRetriable e) eqn:Hre; simpl in Hr.
    2: { simplify_eq. exists 0%nat. rewrite !Nat.add_0_r. split_and!; [done|done|lia]. }
    destruct (at_ctxErr (world i)); simplify_eq/=.
    { exists 0%nat. rewrite !Nat.add_0_r. split_and!; [done|done|lia]. }
    destruct (has_done && at_ctxDone (world i)); simplify_eq/=.
    { exists 0%nat. rewrite !Nat.add_0_r. split_and!; [done|done|lia]. }
    destruct (IH _ _ _ Hr) as (m & Hl & Herr & Hall). exists (S m).
    rewrite length_app in Hl. simpl in Hl. split_and!; [lia| |].
    + rewrite Herr. do 2 f_equal. lia.
    + intros [|j] Hj; [rewrite Nat.add_0_r; by exists e|].
      destruct (Hall j) as (e' & He' & Hr'); [lia|]. exists e'.
      replace (i + S j)%nat with (i + 1 + j)%nat by lia. done.
  - simpl in Hr. simplify_eq. exists 0%nat. rewrite !Nat.add_0_r. split_and!; [done|done|lia].
Qed.

Lemma callService_result {R} Pow fuel (c : rpc R) a n :
  callService Pow fuel c = Ret (a, n) →
  ∃ m, n = S m ∧ a = rpc_answer c m ∧
    ∀ j, (j < m)%nat → ∃ e, rpc_answer c j = inl e ∧ isServiceTransientError e = true.
Proof.
  unfold callService, retryWhileTransientError, Retry.
  destruct (fst _) as [[err waited]|p] eqn:Hr; [|done]. intros Ha. simplify_eq.
  destruct (retryLoop_result _ _ _ _ _ _ _ _ _ _ Hr) as (m & Hl & Herr & Hall).
  simpl in Hl, Herr, Hall. exists m. rewrite Hl. split; [done|]. split.
  - unfold attempts in Herr. simpl in Herr. destruct (rpc_answer c m); by rewrite Herr.
  - intros j Hj. destruct (Hall j Hj) as (e & He & Hre). exists e. split; [|done].
    unfold attempts in He. simpl in He. destruct (rpc_answer c j); congruence.
Qed.

(** ** The polls in flight *)

Section sticky.
Context (cfg : workflowTaskPoller).
Implicit Types (x y : pollers).

Definition is_sticky (p : pollAt) : bool :=
  match poll_kind p with TaskListKindSticky => true | _ => false end.
Definition stickyPolls x : Z := count is_sticky (polls x).
Definition regularPolls x : Z := count (λ p, negb (is_sticky p)) (polls x).

Definition polls_ok x : Prop :=
  if wtp_disableStickyExecution cfg
  then counts x = Polling 0 0 0 ∧ Forall (λ p, poll_kind p = TaskListKindNormal) (polls x)
  else pendingStickyPollCount (counts x) = int64 (stickyPolls x) ∧
       pendingRegularPollCount (counts x) = int64 (regularPolls x).

(** A count that is incremented or decremented, at its width. *)
Lemma int64_shift a b : in_int64 b → int64 (int64 a + b) = int64 (a + b).
Proof. intros Hb. rewrite <- (int64_id b Hb) at 1. apply int64_add. Qed.
Lemma int64_succ a : int64 (int64 a + 1) = int64 (a + 1).
Proof. apply int64_shift. unfold in_int64. lia. Qed.
Lemma int64_pred a : int64 (int64 a - 1) = int64 (a - 1).
Proof. apply (int64_shift a (-1)). unfold in_int64. lia. Qed.

Lemma updateBacklog_counts kind n c :
  let c' := snd (updateBacklog cfg kind n c) in
  (pendingStickyPollCount c', pendingRegularPollCount c') =
    (pendingStickyPollCount c, pendingRegularPollCount c) ∧
  (wtp_disableStickyExecution cfg = true → c' = c).
Proof. unfold updateBacklog. destruct kind, (wtp_disableStickyExecution cfg); done. Qed.

Lemma pollAnswered_counts kind answer c :
  ∃ n, snd (pollAnswered cfg kind answer c) = snd (updateBacklog cfg kind n c).
Proof.
  assert (∀ {A B} (m : M polling A) (v : B), (∃ a, m c = (Ret a, snd (m c))) →
    snd ((m;; mret v) c) = snd (m c)) as Hseq.
  { intros A B m v [a Ha]. unfold mbind, M_bind. by rewrite Ha. }
  assert (∀ n, ∃ a, updateBacklog cfg kind n c = (Ret a, snd (updateBacklog cfg kind n c))) as Hret.
  { intros n. exists tt. unfold updateBacklog. by destruct kind, (wtp_disableStickyExecution cfg). }
  unfold pollAnswered. destruct answer as [err|[r|]]; [|case_bool_decide|]; eexists; by apply Hseq.
Qed.

Lemma polls_step ev x y : polls_ok x → pollStep cfg ev x = Some y → polls_ok y.
Proof.
  unfold polls_ok, stickyPolls, regularPolls. destruct ev as [|k answer|k]; simpl.
  - unfold getNextPollRequest. run. destruct (wtp_disableStickyExecution cfg).
    + intros [Hc Hf] [= <-]. split; [done|]. simpl. apply Forall_app. split; [done|]. by constructor.
    + intros [Hs Hr] Hy. destruct (_ || _); simplify_eq/=; rewrite !count_app, !count_cons, !count_nil;
        simpl; rewrite ?Hs, ?Hr, ?int64_succ, ?Z.add_0_r; done.
  - destruct (polls x !! k) as [[kind|]|] eqn:Hk; try done. intros Hx [= <-]. simpl.
    destruct (pollAnswered_counts kind answer (counts x)) as [n ->].
    destruct (updateBacklog_counts kind n (counts x)) as [Hc Hd]. simpl in Hc. injection Hc as C1 C2.
    destruct (wtp_disableStickyExecution cfg).
    + destruct Hx as [Hc Hf]. rewrite Hd by done. split; [done|]. apply Forall_insert; [done|].
      by apply (Forall_lookup_1 _ _ _ _ Hf Hk).
    + rewrite C1, C2, !(count_insert _ _ _ (InCall kind)) by done. unfold is_sticky. simpl.
      by rewrite !Z.sub_add.
  - destruct (polls x !! k) as [[|kind]|] eqn:Hk; try done. unfold release.
    destruct (wtp_disableStickyExecution cfg) eqn:Hdis; intros Hx [= <-]; simpl.
    + destruct Hx as [Hc Hf]. split; [done|]. by apply Forall_delete.
    + destruct Hx as [Hs Hr]. rewrite !(count_delete _ _ _ (InRelease kind)) by done. unfold is_sticky. simpl.
      destruct kind; simpl; rewrite ?Hs, ?Hr, ?int64_pred, ?Z.sub_0_r; done.
Qed.

(** The request for one of the two task lists. *)
Definition request_for (sticky : bool) : PollForDecisionTaskRequest :=
  MkPollForDecisionTaskRequest (Some (wth_domain (wtp_config cfg)))
    (Some (if sticky then MkTaskList (Some (wtp_stickyTaskList cfg)) (Some TaskListKindSticky)
                            (Some (wtp_taskListName cfg))
           else MkTaskList (Some (wtp_taskListName cfg)) (Some TaskListKindNormal) None))
    (Some (wth_identity (wtp_config cfg))) (Some (wth_binaryChecksum (wtp_config cfg))).

(** Whatever polls of a worker begin, are answered and end in whatever order, the
    counters of the poller are the numbers of polls of the two task lists that are
    in flight, those that have seen a shutdown included.  So the next poll is for
    the sticky task list exactly when sticky execution is enabled and either the
    last answer reported a backlog or no more polls wait there than at the regular
    task list. *)
Theorem sticky_polls_counted evs x :
  exec (pollStep cfg) evs (Pollers (Polling 0 0 0) []) = Some x →
  Z.of_nat (length (polls x)) < 2 ^ 63 →
  (wtp_disableStickyExecution cfg = false →
     pendingStickyPollCount (counts x) = stickyPolls x ∧
     pendingRegularPollCount (counts x) = regularPolls x) ∧
  fst (getNextPollRequest cfg (counts x)) =
    Ret (request_for (negb (wtp_disableStickyExecution cfg) &&
           (bool_decide (stickyBacklog (counts x) > 0)
            || bool_decide (stickyPolls x <= regularPolls x)))).
Proof.
  intros Hrun Hlen. assert (polls_ok x) as Hx.
  { eapply exec_invariant; [apply polls_step| |exact Hrun].
    unfold polls_ok. by destruct (wtp_disableStickyExecution cfg). }
  unfold polls_ok in Hx. unfold getNextPollRequest. run.
  destruct (wtp_disableStickyExecution cfg); [done|].
  pose proof (count_le_length is_sticky (polls x)).
  pose proof (count_le_length (λ p, negb (is_sticky p)) (polls x)).
  pose proof (count_nonneg is_sticky (polls x)).
  pose proof (count_nonneg (λ p, negb (is_sticky p)) (polls x)).
  rewrite !int64_id in Hx by (unfold in_int64, stickyPolls, regularPolls; lia).
  destruct Hx as [Hs Hr]. split; [done|]. rewrite Hs, Hr. simpl. by destruct (_ || _).
Qed.
End sticky.

(** ** Activities for the pollers of the same process *)

Section dispatch.
Context (cfg : workflowTaskPoller) (takes : nat → bool).
Context (task : PollForDecisionTaskResponse).
Abbreviation lda := locallyDispatchedActivityTask.
Abbreviation answer := (serviceError + option RespondDecisionTaskCompletedResponse)%type.
Implicit Types (x y : responding) (ds : list Decision) (l : list lda) (a : answer)
  (request r : RespondDecisionTaskCompletedRequest).

Definition decisionsOf request : list Decision := RespondDecisionTaskCompletedRequest_Decisions request.

(** Some of the activities of [ds] are handed over as [l], and requested in [ds']. *)
Inductive offered : list Decision → list Decision → list lda → Prop :=
| offered_nil : offered [] [] []
| offered_not d ds ds' l : offered ds ds' l → offered (d :: ds) (d :: ds') l
| offered_taken d ds ds' l attr :
    Decision_ScheduleActivityTaskDecisionAttributes d = Some attr →
    get_string TaskList_Name (ScheduleActivityTaskDecisionAttributes_TaskList attr) =
      wtp_taskListName cfg →
    offered ds ds' l →
    offered (d :: ds) (set_schedule (requestLocalDispatch attr) d :: ds')
      (newLocallyDispatched cfg task attr :: l).
Hint Constructors offered : core.

Lemma offered_refl ds : offered ds ds [].
Proof. induction ds; auto. Qed.

Lemma offerDecision_run d x :
  ∃ d' l n, offerDecision cfg takes task d x =
    (Ret (d', seq (length (resp_handed x)) (length l)),
     Responding (resp_request x) (resp_calls x) n (resp_handed x ++ l) (resp_sent x)) ∧
    ∀ ds ds' l', offered ds ds' l' → offered (d :: ds) (d' :: ds') (l ++ l').
Proof.
  assert (∀ n, Responding (resp_request x) (resp_calls x) n (resp_handed x ++ []) (resp_sent x) =
               Responding (resp_request x) (resp_calls x) n (resp_handed x) (resp_sent x)) as Hnil
    by (intros n; by rewrite app_nil_r).
  unfold offerDecision, SendTask.
  destruct (Decision_ScheduleActivityTaskDecisionAttributes d) as [attr|] eqn:Hd.
  - case_bool_decide as Hl.
    + run. destruct (takes (resp_offers x)).
      * exists (set_schedule (requestLocalDispatch attr) d), [newLocallyDispatched cfg task attr], (S (resp_offers x)).
        split; [done|]. intros ds ds' l' Ho. simpl. by constructor.
      * exists d, [], (S (resp_offers x)). rewrite Hnil. split; [done|]. simpl. auto.
    + exists d, [], (resp_offers x). rewrite Hnil. split; [by destruct x|]. simpl. auto.
  - exists d, [], (resp_offers x). rewrite Hnil. split; [by destruct x|]. simpl. auto.
Qed.

Lemma offerDecisions_run ds x :
  ∃ ds' l n, offerDecisions cfg takes task ds x =
    (Ret (ds', seq (length (resp_handed x)) (length l)),
     Responding (resp_request x) (resp_calls x) n (resp_handed x ++ l) (resp_sent x)) ∧
    offered ds ds' l.
Proof.
  revert x. induction ds as [|d ds IH]; intros x; simpl.
  - exists [], [], (resp_offers x). rewrite app_nil_r. split; [by destruct x|auto].
  - destruct (offerDecision_run d x) as (d' & l & n & E & Ho).
    set (y := Responding (resp_request x) (resp_calls x) n (resp_handed x ++ l) (resp_sent x)) in E.
    destruct (IH y) as (ds' & l' & n' & E' & Ho').
    exists (d' :: ds'), (l ++ l'), n'. split; [|auto].
    unfold mbind, M_bind. rewrite E, E'. simpl.
    rewrite !length_app, seq_app, (assoc_L (++)). done.
Qed.

(** What the deferred loop makes of a task. *)
Definition settle a (t : lda) : lda :=
  match a with
  | inr (Some response) =>
      match lda_ActivityID t ≫= λ id,
              RespondDecisionTaskCompletedResponse_ActivitiesToDispatchLocally response ≫= (λ m, m !! id) with
      | Some (Some adl) => start adl t
      | _ => refuse t
      end
  | _ => refuse t
  end.

(** The service sends no nil pointers in its map. *)
Definition no_nil a : Prop :=
  match a with
  | inr (Some response) =>
      ∀ m id, RespondDecisionTaskCompletedResponse_ActivitiesToDispatchLocally response = Some m →
        m !! id ≠ Some None
  | _ => True
  end.

Lemma makeReady_run a i t x :
  no_nil a → resp_handed x !! i = Some t → is_Some (lda_ActivityID t) →
  makeReady a i x = (Ret tt, set_handed (<[i := settle a t]> (resp_handed x)) x).
Proof.
  intros Ha Hi [id Hid]. unfold makeReady, settle. run. rewrite Hi.
  destruct a as [err|[response|]]; try done. rewrite Hid. simpl.
  unfold no_nil in Ha.
  destruct (RespondDecisionTaskCompletedResponse_ActivitiesToDispatchLocally response) as [m|]; simpl; [|done].
  specialize (Ha m id eq_refl). destruct (m !! id) as [[adl|]|]; done.
Qed.

Lemma makeAllReady_run a pre l x :
  no_nil a → Forall (λ t, is_Some (lda_ActivityID t)) l → resp_handed x = pre ++ l →
  makeAllReady a (seq (length pre) (length l)) x = (Ret tt, set_handed (pre ++ (settle a <$> l)) x).
Proof.
  intros Ha Hl. revert pre x. induction Hl as [|t l Ht _ IH]; intros pre x Hx; simpl.
  - by destruct x; simpl in *; rewrite Hx.
  - unfold mbind, M_bind. rewrite (makeReady_run a (length pre) t) by (rewrite ?Hx, ?list_lookup_middle; done).
    assert (resp_handed (set_handed (<[length pre := settle a t]> (resp_handed x)) x) =
            (pre ++ [settle a t]) ++ l) as Hy.
    { simpl. rewrite Hx. rewrite insert_app_r_alt by lia. rewrite Nat.sub_diag. simpl. by rewrite <- (assoc_L (++)). }
    specialize (IH _ _ Hy). rewrite length_app in IH. simpl in IH.
    rewrite Nat.add_1_r in IH. rewrite IH. unfold set_handed. simpl. by rewrite <- (assoc_L (++)).
Qed.

(** The request of an attempt, with the decisions [ds] as they were offered. *)
Definition attemptRequest ds request : RespondDecisionTaskCompletedRequest :=
  match RespondDecisionTaskCompletedRequest_StickyAttributes request with
  | None =>
      if wtp_disableStickyExecution cfg then set_completed ds None (Some false) request
      else set_completed ds (Some (stickyAttributes cfg))
             (RespondDecisionTaskCompletedRequest_ReturnNewDecisionTask request) request
  | sticky => set_completed ds sticky (Some false) request
  end.

(** The activities that can be handed over have an id. *)
Definition named ds : Prop :=
  ∀ d attr, d ∈ ds → Decision_ScheduleActivityTaskDecisionAttributes d = Some attr →
    is_Some (ScheduleActivityTaskDecisionAttributes_ActivityId attr).

Lemma offered_named ds ds' l :
  offered ds ds' l → named ds → named ds' ∧ Forall (λ t, is_Some (lda_ActivityID t)) l.
Proof.
  unfold named. induction 1 as [|d ds ds' l _ IH|d ds ds' l attr Hd _ _ IH]; intros Hn; [done| |].
  - destruct IH as [IH1 IH2]; [intros d' attr' Hin; apply Hn; set_solver|]. split; [|done].
    intros d' attr' [->|Hin]%elem_of_cons; [apply Hn; set_solver|by apply IH1].
  - destruct IH as [IH1 IH2]; [intros d' attr' Hin; apply Hn; set_solver|].
    assert (is_Some (ScheduleActivityTaskDecisionAttributes_ActivityId attr)) as Hid
      by (apply (Hn d); [set_solver|done]).
    split; [|by constructor].
    intros d' attr' [->|Hin]%elem_of_cons; [|by apply IH1]. simpl. by intros [= <-].
Qed.

Lemma attempt_run a request x :
  no_nil a → named (decisionsOf request) → resp_request x = RespondCompleted request →
  ∃ ds l n, offered (decisionsOf request) ds l ∧
    respondTaskCompletedAttempt cfg takes task a x =
    (Ret a, Responding (RespondCompleted (attemptRequest ds request)) (resp_calls x) n
              (resp_handed x ++ (settle a <$> l))
              (resp_sent x ++ [RespondCompleted (attemptRequest ds request)])).
Proof.
  intros Ha Hn Hx. unfold respondTaskCompletedAttempt, handleDecisionTaskCompletedRequest. run.
  rewrite Hx.
  assert (∃ ds l n, offered (decisionsOf request) ds l ∧
    (if wtp_hasTunnel cfg then offerDecisions cfg takes task (decisionsOf request)
     else mret (decisionsOf request, [])) x =
    (Ret (ds, seq (length (resp_handed x)) (length l)),
     Responding (resp_request x) (resp_calls x) n (resp_handed x ++ l) (resp_sent x)))
    as (ds & l & n & Ho & E).
  { destruct (wtp_hasTunnel cfg).
    - destruct (offerDecisions_run (decisionsOf request) x) as (ds & l & n & E & Ho). by exists ds, l, n.
    - exists (decisionsOf request), [], (resp_offers x). split; [apply offered_refl|].
      rewrite app_nil_r. by destruct x. }
  exists ds, l, n. split; [done|]. unfold decisionsOf in E. run_in E. rewrite E. simpl.
  destruct (offered_named _ _ _ Ho Hn) as [_ Hl].
  rewrite (makeAllReady_run a (resp_handed x) l) by done. unfold set_handed. simpl.
  assert (∀ ds' st rt, set_completed ds'
     (RespondDecisionTaskCompletedRequest_StickyAttributes (set_completed (decisionsOf request) st rt request))
     (RespondDecisionTaskCompletedRequest_ReturnNewDecisionTask (set_completed (decisionsOf request) st rt request))
     (set_completed (decisionsOf request) st rt request) = set_completed ds' st rt request) as Hset by done.
  unfold attemptRequest.
  destruct (RespondDecisionTaskCompletedRequest_StickyAttributes request) as [st|];
    [|destruct (wtp_disableStickyExecution cfg)]; done.
Qed.

(** The attempts from the [i]-th on: what is sent and what is handed over. *)
Inductive attempted (answers : nat → answer) :
    nat → nat → RespondDecisionTaskCompletedRequest → list RespondDecisionTaskCompletedRequest →
    list lda → Prop :=
| attempted_0 i request : attempted answers i 0 request [] []
| attempted_S i n request ds l sent handed :
    offered (decisionsOf request) ds l →
    attempted answers (S i) n (attemptRequest ds request) sent handed →
    attempted answers i (S n) request (attemptRequest ds request :: sent)
      ((settle (answers i) <$> l) ++ handed).

Lemma decisions_attempt ds request : decisionsOf (attemptRequest ds request) = ds.
Proof.
  unfold attemptRequest. destruct (RespondDecisionTaskCompletedRequest_StickyAttributes request);
    [|destruct (wtp_disableStickyExecution cfg)]; done.
Qed.

Lemma respondAttempts_run answers n i request x :
  (∀ j, no_nil (answers j)) → named (decisionsOf request) → resp_request x = RespondCompleted request →
  ∃ sent handed y, respondAttempts cfg takes n i task answers x = (Ret tt, y) ∧
    resp_sent y = resp_sent x ++ (RespondCompleted <$> sent) ∧ resp_handed y = resp_handed x ++ handed ∧
    attempted answers i n request sent handed.
Proof.
  intros Ha. revert i request x. induction n as [|n IH]; intros i request x Hn Hx; simpl.
  - exists [], [], x. rewrite !app_nil_r. split_and!; [done..|constructor].
  - destruct (attempt_run (answers i) request x (Ha i) Hn Hx) as (ds & l & k & Ho & E).
    unfold mbind, M_bind. rewrite E.
    destruct (offered_named _ _ _ Ho Hn) as [Hn' _].
    match type of E with _ = (_, ?z) =>
      destruct (IH (S i) (attemptRequest ds request) z) as (sent & handed & y & E' & Hs & Hh & Hat) end;
      [by rewrite decisions_attempt|done|].
    exists (attemptRequest ds request :: sent), ((settle (answers i) <$> l) ++ handed), y.
    split; [exact E'|]. simpl in Hs, Hh. rewrite Hs, Hh, <- !(assoc_L (++)).
    split_and!; [done..|by econstructor].
Qed.

(** A decision asks the service to let this task run locally. *)
Definition requests (t : lda) (d : Decision) : Prop :=
  ∃ attr, Decision_ScheduleActivityTaskDecisionAttributes d = Some attr ∧
    ScheduleActivityTaskDecisionAttributes_RequestLocalDispatch attr = Some true ∧
    lda_ActivityID t = ScheduleActivityTaskDecisionAttributes_ActivityId attr ∧
    lda_ActivityType t = ScheduleActivityTaskDecisionAttributes_ActivityType attr ∧
    lda_Input t = ScheduleActivityTaskDecisionAttributes_Input attr.

Lemma offered_requests ds ds' l t : offered ds ds' l → t ∈ l → ∃ d, d ∈ ds' ∧ requests t d.
Proof.
  induction 1 as [|d ds ds' l _ IH|d ds ds' l attr Hd _ _ IH]; intros Ht.
  - by apply elem_of_nil in Ht.
  - destruct (IH Ht) as (d' & ? & ?). exists d'. split; [set_solver|done].
  - apply elem_of_cons in Ht as [->|Ht].
    + exists (set_schedule (requestLocalDispatch attr) d). split; [set_solver|]. by exists (requestLocalDispatch attr).
    + destruct (IH Ht) as (d' & ? & ?). exists d'. split; [set_solver|done].
Qed.

Lemma offered_lookup ds ds' l (k : nat) d :
  offered ds ds' l → ds !! k = Some d →
  ∃ d', ds' !! k = Some d' ∧ (d' = d ∨ ∃ t, t ∈ l ∧ requests t d').
Proof.
  intros Ho. revert k. induction Ho as [|d0 ds ds' l _ IH|d0 ds ds' l attr Hd _ _ IH]; intros k Hk; [done| |].
  - destruct k as [|k]; simplify_eq/=; [eauto|]. by apply IH.
  - destruct k as [|k]; simplify_eq/=.
    + eexists. split; [done|]. right. eexists. split; [apply list_elem_of_here|].
      by exists (requestLocalDispatch attr).
    + destruct (IH k Hk) as (d' & ? & [?|(t & ? & ?)]); exists d'.
      * split; [done|by left].
      * split; [done|]. right. exists t. split; [set_solver|done].
Qed.

Lemma settle_requests a t d : requests (settle a t) d ↔ requests t d.
Proof. unfold settle. repeat case_match; done. Qed.
Lemma settle_ready a t : is_Some (lda_readyCh (settle a t)).
Proof. unfold settle. repeat case_match; by eexists. Qed.

(** The service lets the task run locally, with this information. *)
Definition agrees a (t : lda) (adl : ActivityLocalDispatchInfo) : Prop :=
  ∃ response m id, a = inr (Some response) ∧ lda_ActivityID t = Some id ∧
    RespondDecisionTaskCompletedResponse_ActivitiesToDispatchLocally response = Some m ∧
    m !! id = Some (Some adl).

Lemma settle_started a t :
  lda_readyCh (settle a t) = Some true → ∃ adl, agrees a t adl ∧ settle a t = start adl t.
Proof.
  unfold settle, agrees. destruct a as [err|[response|]]; try done.
  destruct (lda_ActivityID t) as [id|] eqn:Hid; simpl; [|done].
  destruct (RespondDecisionTaskCompletedResponse_ActivitiesToDispatchLocally response) as [m|] eqn:Hm; simpl; [|done].
  destruct (m !! id) as [[adl|]|] eqn:Hl; try done. intros _. exists adl. split; [|done]. by exists response, m, id.
Qed.

Lemma attempted_handed answers i n request sent handed t :
  attempted answers i n request sent handed → t ∈ handed →
  is_Some (lda_readyCh t) ∧ (∃ r d, r ∈ sent ∧ d ∈ decisionsOf r ∧ requests t d) ∧
  ∃ j t0, (j < n)%nat ∧ t = settle (answers (i + j)%nat) t0.
Proof.
  induction 1 as [|i n request ds l sent handed Ho _ IH]; intros Ht; [by apply elem_of_nil in Ht|].
  apply elem_of_app in Ht as [(t0 & -> & Ht)%list_elem_of_fmap|Ht].
  - split; [apply settle_ready|]. split.
    + destruct (offered_requests _ _ _ _ Ho Ht) as (d & Hd & Hr).
      exists (attemptRequest ds request), d. rewrite decisions_attempt, settle_requests.
      split_and!; [apply list_elem_of_here|done..].
    + exists 0%nat, t0. rewrite Nat.add_0_r. split; [lia|done].
  - destruct (IH Ht) as (Hready & (r & d & Hr & Hd) & (j & t0 & Hj & ->)). split; [done|]. split.
    + exists r, d. split; [by apply list_elem_of_further|done].
    + exists (S j), t0. split; [lia|]. by replace (i + S j)%nat with (S i + j)%nat by lia.
Qed.

(** All requests after the first one. *)
Lemma attempted_again answers i n request sent handed :
  attempted answers i n request sent handed →
  is_Some (RespondDecisionTaskCompletedRequest_StickyAttributes request) ∨ wtp_disableStickyExecution cfg = true →
  length sent = n ∧
  Forall (λ r, RespondDecisionTaskCompletedRequest_ReturnNewDecisionTask r = Some false) sent.
Proof.
  induction 1 as [|i n request ds l sent handed Ho _ IH]; intros Hs; [done|].
  assert (RespondDecisionTaskCompletedRequest_ReturnNewDecisionTask (attemptRequest ds request) = Some false ∧
    RespondDecisionTaskCompletedRequest_StickyAttributes (attemptRequest ds request) =
    RespondDecisionTaskCompletedRequest_StickyAttributes request) as [Hr He].
  { unfold attemptRequest. destruct Hs as [[st ->]| ->]; [done|].
    by destruct (RespondDecisionTaskCompletedRequest_StickyAttributes request). }
  rewrite He in IH. destruct (IH Hs) as [Hl Hf]. split; [simpl; lia|by constructor].
Qed.

(** The call of the service with its retries, in the background context. *)
Definition background (c : rpc RespondDecisionTaskCompletedResponse) :=
  Rpc (rpc_start c) None false (rpc_answer c) (rpc_now c) (rpc_rand c) (λ _, false) (λ _, false).

Lemma attempted_started answers m request sent handed t polled :
  attempted answers 0 (S m) request sent handed → t ∈ handed →
  (∀ j, (j < m)%nat → ∃ e, answers j = inl e) →
  pollLocallyDispatchedActivity (getTask (Some t) false) = Some polled →
  ∃ adl, agrees (answers m) t adl ∧
    PollForActivityTaskResponse_TaskToken polled = ActivityLocalDispatchInfo_TaskToken adl ∧
    PollForActivityTaskResponse_StartedTimestamp polled = ActivityLocalDispatchInfo_StartedTimestamp adl ∧
    PollForActivityTaskResponse_ActivityId polled = lda_ActivityID t ∧
    PollForActivityTaskResponse_Input polled = lda_Input t.
Proof.
  intros Hat Ht Hfail Hp. destruct (attempted_handed _ _ _ _ _ _ _ Hat Ht) as (_ & _ & j & t0 & Hj & ->).
  simpl in *. destruct (lda_readyCh (settle (answers j) t0)) as [[]|] eqn:Hr; try done.
  destruct (settle_started _ _ Hr) as (adl & Hag & Hs). exists adl.
  assert (j = m) as ->.
  { destruct (decide (j = m)) as [|Hne]; [done|]. destruct (Hfail j) as [e He]; [lia|].
    destruct Hag as (response & ? & ? & Ha & _). congruence. }
  rewrite Hs in Hp |- *. simpl in Hp. simplify_eq/=. split_and!; done.
Qed.

Lemma first_attempt answers n request sent handed :
  attempted answers 0 (S n) request sent handed →
  ∃ r0 rest, sent = r0 :: rest ∧ r0 = attemptRequest (decisionsOf r0) request ∧ length rest = n ∧
    Forall (λ r, RespondDecisionTaskCompletedRequest_ReturnNewDecisionTask r = Some false) rest ∧
    ∀ k d, decisionsOf request !! k = Some d →
      ∃ d', decisionsOf r0 !! k = Some d' ∧ (d' = d ∨ ∃ t, t ∈ handed ∧ requests t d').
Proof.
  intros Hat. inversion Hat as [|? ? ? ds l rest rh Ho Hrest]; subst.
  exists (attemptRequest ds request), rest. rewrite decisions_attempt.
  destruct (attempted_again _ _ _ _ _ _ Hrest) as [Hl Hf].
  { unfold attemptRequest. destruct (RespondDecisionTaskCompletedRequest_StickyAttributes request); [by left|].
    destruct (wtp_disableStickyExecution cfg); [by right|by left]. }
  split_and!; try done. intros k d Hk.
  destruct (offered_lookup _ _ _ k d Ho Hk) as (d' & Hd' & Hor). exists d'. split; [done|].
  destruct Hor as [Heq|(t & Ht & Hreq)]; [by left|right]. exists (settle (answers 0%nat) t).
  split; [|by apply settle_requests]. apply elem_of_app. left. apply list_elem_of_fmap. by exists t.
Qed.

(** C11: The answer to a decision task, whichever of its activities are taken by
    pollers of the same process and however often the call is repeated.  The
    requests that are sent differ from the one of the handler in the sticky
    attributes and in the activities that were handed over, which are requested;
    every repetition asks for no further task.  Every poller that took an activity
    is told how to go on; it runs the activity only if the call that succeeded
    has agreed to that, and then with the token of the service and the input of the
    decision. *)
Theorem local_dispatch_agreed Pow fuel calls request x a n :
  named (decisionsOf request) → (∀ i, no_nil (rpc_answer (calls (resp_calls x)) i)) →
  resp_handed x = [] → resp_sent x = [] →
  callService Pow fuel (background (calls (resp_calls x))) = Ret (a, n) →
  ∃ y r0 rest,
    respondTaskCompleted cfg takes Pow fuel calls (RespondCompleted request) task x = (Ret a, y) ∧
    resp_sent y = RespondCompleted <$> (r0 :: rest) ∧ n = S (length rest) ∧
    r0 = attemptRequest (decisionsOf r0) request ∧
    Forall (λ r, RespondDecisionTaskCompletedRequest_ReturnNewDecisionTask r = Some false) rest ∧
    (∀ k d, decisionsOf request !! k = Some d →
       ∃ d', decisionsOf r0 !! k = Some d' ∧ (d' = d ∨ ∃ t, t ∈ resp_handed y ∧ requests t d')) ∧
    (∀ t, t ∈ resp_handed y →
       is_Some (lda_readyCh t) ∧ (∃ r d, r ∈ r0 :: rest ∧ d ∈ decisionsOf r ∧ requests t d) ∧
       ∀ polled, pollLocallyDispatchedActivity (getTask (Some t) false) = Some polled →
         ∃ adl, agrees a t adl ∧
           PollForActivityTaskResponse_TaskToken polled = ActivityLocalDispatchInfo_TaskToken adl ∧
           PollForActivityTaskResponse_StartedTimestamp polled = ActivityLocalDispatchInfo_StartedTimestamp adl ∧
           PollForActivityTaskResponse_ActivityId polled = lda_ActivityID t ∧
           PollForActivityTaskResponse_Input polled = lda_Input t).
Proof.
  intros Hn Hnil Hh Hs Hcall. destruct (callService_result _ _ _ _ _ Hcall) as (m & -> & -> & Hfail).
  set (x' := Responding (RespondCompleted request) (S (resp_calls x)) (resp_offers x) (resp_handed x) (resp_sent x)).
  destruct (respondAttempts_run (rpc_answer (calls (resp_calls x))) (S m) 0 request x' Hnil Hn eq_refl)
    as (sent & handed & y & E & Hys & Hyh & Hat).
  simpl in Hys, Hyh. rewrite Hs in Hys. rewrite Hh in Hyh. simpl in Hys, Hyh.
  destruct (first_attempt _ _ _ _ _ Hat) as (r0 & rest & -> & Hr0 & Hl & Hf & Hfirst).
  exists y, r0, rest. rewrite Hys, Hyh. split.
  { unfold respondTaskCompleted. run.
    match goal with |- context [callService Pow fuel ?c] =>
      change c with (background (calls (resp_calls x))) end.
    rewrite Hcall. unfold x' in E. simpl in E |- *. by rewrite E. }
  split_and!; try done; [lia|]. intros t Ht.
  destruct (attempted_handed _ _ _ _ _ _ _ Hat Ht) as (Hready & Hreq & _). split_and!; try done.
  intros polled Hp. eapply attempted_started; [exact Hat|exact Ht| |exact Hp].
  intros j Hj. destruct (Hfail j Hj) as (e & He & _). by exists e.
Qed.
End dispatch.

(** ** Local activities *)

(** The code has not ended when its context has, and not when the handler looks
    again. *)
Definition ends_late (run : localRun) (contextDone : Z) : Prop :=
  ∀ t e, run_end run = Some (t, e) → contextDone <= t ∧ run_checked run < t.

Lemma local_late now timeout task run :
  task_canceled task = false → ends_late run (fst (contextEnd (localDeadline now timeout task) run)) →
  executeLocalActivityTask now timeout None task run =
    LocalActivityResult task None (Some (snd (contextEnd (localDeadline now timeout task) run))) 0.
Proof.
  intros Hc Hl. unfold executeLocalActivityTask. rewrite Hc.
  destruct (contextEnd _ run) as [d err]. simpl in *. destruct (run_end run) as [[t e]|] eqn:He; [|done].
  destruct (Hl t e He). rewrite !bool_decide_false by lia. done.
Qed.

Lemma local_in_time now timeout task run t e :
  task_canceled task = false → run_end run = Some (t, e) →
  t < localDeadline now timeout task → (∀ tc, run_canceled run = Some tc → t < tc) →
  executeLocalActivityTask now timeout None task run =
    LocalActivityResult task (fst (localOutcome e)) (snd (localOutcome e)) 0.
Proof.
  intros Hc He Ht Htc. unfold executeLocalActivityTask, contextEnd. rewrite Hc, He.
  destruct (run_canceled run) as [tc|]; [specialize (Htc tc eq_refl); case_bool_decide|];
    rewrite (bool_decide_true (t < _)) by lia; simpl; by destruct (localOutcome e).
Qed.

Lemma backoff_expires scaled p attempt reason now expire b :
  getRetryBackoffWithNowTime scaled p attempt reason now expire = b →
  b ≠ noRetryBackoff → expire ≠ 0 → 0 <= b ∧ now + b <= expire.
Proof.
  unfold getRetryBackoffWithNowTime. intros <-.
  destruct (bool_decide (MaximumAttempts p = 0) && _); [done|].
  destruct (bool_decide (MaximumAttempts p > 0) && _); [done|].
  destruct (bool_decide (scaled p attempt <= 0) && _) eqn:Hpos; [done|].
  set (v := if decide (scaled p attempt <= 0) then MaximumInterval p else scaled p attempt).
  assert (0 < v) as Hv.
  { unfold v. destruct (decide _); [|lia]. rewrite bool_decide_true in Hpos by done.
    simpl in Hpos. apply bool_decide_eq_false in Hpos. lia. }
  clearbody v. set (u := if _ && bool_decide (v > MaximumInterval p) then MaximumInterval p else v).
  assert (0 < u) as Hu.
  { unfold u. destruct (bool_decide (MaximumInterval p > 0)) eqn:Hm; simpl; [|done].
    apply bool_decide_eq_true in Hm. destruct (bool_decide (v > _)); [lia|done]. }
  clearbody u. destruct (negb _ && _) eqn:Hexp; [done|]. destruct (decide _); [done|]. intros _ He.
  rewrite (bool_decide_false (expire = 0)) in Hexp by done. simpl in Hexp.
  apply bool_decide_eq_false in Hexp. lia.
Qed.

(** A local activity that failed and is retried after its backoff does not run
    past the expiration of its policy: the retry starts by then, its context ends
    by then, and so does the wait for its result.  The result is that of the code if
    it ends before its context, and otherwise the error of the context. *)
Theorem local_retry_bounded scaled p task reason failed timeout b :
  task_expireTime task ≠ 0 → task_canceled task = false → 0 <= task_attempt task < 2 ^ 31 - 1 →
  getRetryBackoffWithNowTime scaled p (task_attempt task) reason failed (task_expireTime task) = b →
  b ≠ noRetryBackoff →
  let retry := set_attempt (int32 (task_attempt task + 1)) task in
  let deadline := localDeadline (failed + b) timeout retry in
  failed <= failed + b <= task_expireTime task ∧
  deadline <= task_expireTime task ∧ deadline <= failed + b + timeout * Second ∧
  ∀ run,
    let r := executeLocalActivityTask (failed + b) timeout None retry run in
    let canceled := match run_canceled run with Some tc => bool_decide (tc < deadline) | None => false end in
    fst (contextEnd deadline run) <= task_expireTime task ∧
    (ends_late run (fst (contextEnd deadline run)) →
       lar_result r = None ∧ lar_err r = Some (if canceled then ErrCanceled_ else ErrDeadlineExceeded)) ∧
    (∀ t e, run_end run = Some (t, e) → t < deadline → (∀ tc, run_canceled run = Some tc → t < tc) →
       (lar_result r, lar_err r) = localOutcome e).
Proof.
  intros He Hc Hat Hb Hne retry deadline.
  destruct (backoff_expires _ _ _ _ _ _ _ Hb Hne He) as [Hb0 Hbe].
  assert (deadline <= task_expireTime task ∧ deadline <= failed + b + timeout * Second) as [Hd1 Hd2].
  { unfold deadline, localDeadline, retry. simpl. rewrite int32_id by (unfold in_int32; lia).
    rewrite (bool_decide_true (_ > 0)) by lia. rewrite (bool_decide_false (_ = 0)) by done. simpl.
    case_bool_decide; lia. }
  split_and!; try lia. intros run r canceled.
  assert (fst (contextEnd deadline run) <= deadline ∧
    snd (contextEnd deadline run) = if canceled then ErrCanceled_ else ErrDeadlineExceeded) as [Hce Herr].
  { unfold contextEnd, canceled. destruct (run_canceled run) as [tc|]; [case_bool_decide|]; simpl; split; done || lia. }
  split; [lia|]. split.
  - intros Hl. unfold r. rewrite local_late by done. split; [done|]. cbn [lar_err]. f_equal. exact Herr.
  - intros t e Hend Ht Htc. unfold r. rewrite (local_in_time _ _ _ _ t e) by done. simpl.
    by destruct (localOutcome e).
Qed.

(** ** Sample executions *)

Module SamplePollers.
Definition config := WorkerConfig "domain" "worker" "checksum" NonDeterministicWorkflowPolicyBlockWorkflow None None.
Definition cfg := WorkflowTaskPoller config "tl" "sticky" false (5 * Second) true.

Definition polled (token : string) (backlog : Z) : PollForDecisionTaskResponse :=
  MkPollForDecisionTaskResponse (Some token) None None None (Some 3) (Some 0) (Some backlog) None None None
    None None None None (Some 4) None None.

(** Two polls, of both task lists; the sticky one reports a backlog. *)
Definition poll_events : list pollEvent :=
  [BeginPoll; BeginPoll; BeginPoll; AnswerPoll 0 (inr (Some (polled "t" 7))); EndPoll 0].
Definition polled_twice : pollers :=
  default (Pollers (Polling 0 0 0) []) (exec (pollStep cfg) poll_events (Pollers (Polling 0 0 0) [])).

Example polled_twice_eq : polled_twice = Pollers (Polling 1 1 7) [InCall TaskListKindNormal; InCall TaskListKindSticky].
Proof. by vm_compute. Qed.

Lemma sticky_polls_counted_witness :
  pendingStickyPollCount (counts polled_twice) = stickyPolls polled_twice ∧
  fst (getNextPollRequest cfg (counts polled_twice)) = Ret (request_for cfg true).
Proof.
  destruct (sticky_polls_counted cfg poll_events polled_twice) as [Hc Hn]; [by vm_compute..|].
  split; [by apply Hc|]. rewrite Hn. by vm_compute.
Defined.

(** A task that schedules the activity [a1]. *)
Definition attributes := MkScheduleActivityTaskDecisionAttributes (Some "a1"%string)
  (Some (MkActivityType (Some "Act"%string))) None (Some (MkTaskList (Some "tl"%string) None None)) (Some "in"%string)
  None None None None None None None.
Definition schedule := MkDecision (Some DecisionTypeScheduleActivityTask) (Some attributes)
  None None None None None None None None None None None None.
Definition request := MkRespondDecisionTaskCompletedRequest (Some "t"%string) [schedule] None None None (Some true)
  None None None.
Definition agreed := MkRespondDecisionTaskCompletedResponse None
  (Some {[ "a1"%string := Some (MkActivityLocalDispatchInfo (Some "a1"%string) None (Some 42) None (Some "token"%string)) ]}).
Definition call (answers : nat → serviceError + option RespondDecisionTaskCompletedResponse) :=
  Rpc 0 None false answers (λ _, 0) (λ _ _, 0) (λ _, false) (λ _, false).
Definition pow (_ _ : float64) : float64 := float_of_int 1.
Definition idle : responding := Responding (RespondCompleted request) 0 0 [] [].

Definition respond (takes : nat → bool) (c : rpc RespondDecisionTaskCompletedResponse) :=
  respondTaskCompleted cfg takes pow 3 (λ _, c) (RespondCompleted request) (polled "t" 0) idle.

(** Taken at once and agreed: the activity runs with the token of the service. *)
Example taken_locally :
  (λ t, PollForActivityTaskResponse_TaskToken <$> pollLocallyDispatchedActivity (getTask (Some t) false))
    <$> resp_handed (snd (respond (λ _, true) (call (λ _, inr (Some agreed))))) = [Some (Some "token"%string)].
Proof. by vm_compute. Qed.

Lemma sample_named : named (decisionsOf request).
Proof. intros d attr ->%list_elem_of_singleton. intros [= <-]. by eexists. Qed.
Lemma agreed_no_nil : no_nil (inr (Some agreed)).
Proof.
  intros m id [= <-]. destruct (decide (id = "a1"%string)) as [->|Hne].
  - by rewrite lookup_singleton_eq.
  - by rewrite lookup_singleton_ne.
Qed.

Lemma local_dispatch_agreed_witness :
  let y := snd (respond (λ _, true) (call (λ _, inr (Some agreed)))) in
  length (resp_sent y) = 1%nat ∧ Forall (λ t, is_Some (lda_readyCh t)) (resp_handed y).
Proof.
  intros y. destruct (local_dispatch_agreed cfg (λ _, true) (polled "t" 0) pow 3 (λ _, call (λ _, inr (Some agreed)))
              request idle (inr (Some agreed)) 1) as (z & r0 & rest & E & Hs & Hn & _ & _ & _ & Hh);
    [apply sample_named|intros i; apply agreed_no_nil|done|done|by vm_compute|].
  unfold y, respond. rewrite E. cbn [snd]. split; [rewrite Hs, length_fmap; simpl; lia|].
  apply list.Forall_forall. intros t Ht. destruct (Hh t Ht) as [Hr _]. exact Hr.
Defined.

(** When the first call fails with an error that is retried and no poller takes the
    activity the second time, the second request still asks for its local dispatch;
    and it asks for no further task. *)
Definition retried := respond (λ n, bool_decide (n = 0%nat))
  (call (λ n, if bool_decide (n = 0%nat) then inl InternalServiceError else inr (Some agreed))).
Example retry_requests_stale_dispatch :
  fst retried = Ret (inr (Some agreed)) ∧
  (λ r, match r with
        | RespondCompleted r =>
            (ScheduleActivityTaskDecisionAttributes_RequestLocalDispatch <$>
               (decisionsOf r !! 0%nat ≫= Decision_ScheduleActivityTaskDecisionAttributes),
             RespondDecisionTaskCompletedRequest_ReturnNewDecisionTask r)
        | _ => (None, None)
        end) <$> resp_sent (snd retried) = [(Some (Some true), Some true); (Some (Some true), Some false)] ∧
  (λ t, pollLocallyDispatchedActivity (getTask (Some t) false)) <$> resp_handed (snd retried) = [None].
Proof. by vm_compute. Qed.

(** A task that fails after a heartbeat has returned a new token is reported with
    the old one. *)
Definition heartbeating (wt : workflowTask) : handled :=
  Heartbeats (RespondCompleted request) (λ _, Finishes None (Some (TaskFailed (ErrText "failed")))).
Definition renewed := MkRespondDecisionTaskCompletedResponse (Some (polled "t2" 0)) None.
Definition failing_task := processWorkflowTask cfg (λ _, false) pow 3 (λ _, call (λ _, inr (Some renewed)))
  bitConverter 2 heartbeating (toWorkflowTask cfg (polled "t1" 0)) idle.
Example failure_has_old_token :
  fst failing_task = Ret None ∧
  (λ r, match r with RespondFailed r => Some (RespondDecisionTaskFailedRequest_TaskToken r) | _ => None end)
    <$> resp_sent (snd failing_task) = [None; Some (Some "t1"%string)].
Proof. by vm_compute. Qed.

Definition policy := MkLocalRetryPolicy Second (float_of_int 2) (10 * Second) (60 * Second) 0 [].
Definition local_task := LocalActivityTask "la" (MkExecuteLocalActivityParams "Act" (Some policy) 0 0 None) 0 false
  0 (Some policy) (60 * Second) None.
Lemma local_retry_bounded_witness :
  let retry := set_attempt 1 local_task in
  localDeadline (31 * Second) 45 retry <= 60 * Second ∧
  lar_err (executeLocalActivityTask (31 * Second) 45 None retry (LocalRun None None 0)) = Some ErrDeadlineExceeded.
Proof.
  destruct (local_retry_bounded (λ p _, InitialInterval p) policy local_task "reason" (30 * Second) 45 Second)
    as (_ & Hd & _ & Hrun); [by vm_compute..|]. split; [exact Hd|].
  apply (Hrun (LocalRun None None 0)). by intros t e.
Defined.
End SamplePollers.
