(* ===== verification/SharedClient.v ===== *)
(** * Thrift data types of the workflow client

    The structs of the requests that the workflow client sends and of the answers
    that it reads, in the generated package [.gen/go/shared] (shared.go), in the
    form of Shared.v. *)

From stdpp Require Import base gmap strings.
From S2P Require Import Prelude.
From S2P Require Import Shared.

Record DataBlob := MkDataBlob {
  DataBlob_EncodingType : option EncodingType;
  DataBlob_Data : bytes }.

Record GetWorkflowExecutionHistoryRequest := MkGetWorkflowExecutionHistoryRequest {
  GetWorkflowExecutionHistoryRequest_Domain : option string;
  GetWorkflowExecutionHistoryRequest_Execution : option WorkflowExecution;
  GetWorkflowExecutionHistoryRequest_MaximumPageSize : option Z;
  GetWorkflowExecutionHistoryRequest_NextPageToken : bytes;
  GetWorkflowExecutionHistoryRequest_WaitForNewEvent : option bool;
  GetWorkflowExecutionHistoryRequest_HistoryEventFilterType : option HistoryEventFilterType;
  GetWorkflowExecutionHistoryRequest_SkipArchival : option bool;
  GetWorkflowExecutionHistoryRequest_QueryConsistencyLevel : option QueryConsistencyLevel }.

Record GetWorkflowExecutionHistoryResponse := MkGetWorkflowExecutionHistoryResponse {
  GetWorkflowExecutionHistoryResponse_History : option (list HistoryEvent);
  GetWorkflowExecutionHistoryResponse_RawHistory : option (list (option DataBlob));
  GetWorkflowExecutionHistoryResponse_NextPageToken : bytes;
  GetWorkflowExecutionHistoryResponse_Archived : option bool }.

Record StartWorkflowExecutionRequest := MkStartWorkflowExecutionRequest {
  StartWorkflowExecutionRequest_Domain : option string;
  StartWorkflowExecutionRequest_WorkflowId : option string;
  StartWorkflowExecutionRequest_WorkflowType : option WorkflowType;
  StartWorkflowExecutionRequest_TaskList : option TaskList;
  StartWorkflowExecutionRequest_Input : bytes;
  StartWorkflowExecutionRequest_ExecutionStartToCloseTimeoutSeconds : option Z;
  StartWorkflowExecutionRequest_TaskStartToCloseTimeoutSeconds : option Z;
  StartWorkflowExecutionRequest_Identity : option string;
  StartWorkflowExecutionRequest_RequestId : option string;
  StartWorkflowExecutionRequest_WorkflowIdReusePolicy : option WorkflowIdReusePolicy;
  StartWorkflowExecutionRequest_RetryPolicy : option RetryPolicy;
  StartWorkflowExecutionRequest_CronSchedule : option string;
  StartWorkflowExecutionRequest_Memo : option Memo;
  StartWorkflowExecutionRequest_SearchAttributes : option SearchAttributes;
  StartWorkflowExecutionRequest_Header : option Header;
  StartWorkflowExecutionRequest_DelayStartSeconds : option Z;
  StartWorkflowExecutionRequest_JitterStartSeconds : option Z;
  StartWorkflowExecutionRequest_FirstRunAtTimestamp : option Z;
  StartWorkflowExecutionRequest_CronOverlapPolicy : option CronOverlapPolicy;
  StartWorkflowExecutionRequest_ActiveClusterSelectionPolicy : option ActiveClusterSelectionPolicy }.

Record StartWorkflowExecutionResponse := MkStartWorkflowExecutionResponse {
  StartWorkflowExecutionResponse_RunId : option string }.

Record SignalWithStartWorkflowExecutionRequest := MkSignalWithStartWorkflowExecutionRequest {
  SignalWithStartWorkflowExecutionRequest_Domain : option string;
  SignalWithStartWorkflowExecutionRequest_WorkflowId : option string;
  SignalWithStartWorkflowExecutionRequest_WorkflowType : option WorkflowType;
  SignalWithStartWorkflowExecutionRequest_TaskList : option TaskList;
  SignalWithStartWorkflowExecutionRequest_Input : bytes;
  SignalWithStartWorkflowExecutionRequest_ExecutionStartToCloseTimeoutSeconds : option Z;
  SignalWithStartWorkflowExecutionRequest_TaskStartToCloseTimeoutSeconds : option Z;
  SignalWithStartWorkflowExecutionRequest_Identity : option string;
  SignalWithStartWorkflowExecutionRequest_RequestId : option string;
  SignalWithStartWorkflowExecutionRequest_WorkflowIdReusePolicy : option WorkflowIdReusePolicy;
  SignalWithStartWorkflowExecutionRequest_SignalName : option string;
  SignalWithStartWorkflowExecutionRequest_SignalInput : bytes;
  SignalWithStartWorkflowExecutionRequest_Control : bytes;
  SignalWithStartWorkflowExecutionRequest_RetryPolicy : option RetryPolicy;
  SignalWithStartWorkflowExecutionRequest_CronSchedule : option string;
  SignalWithStartWorkflowExecutionRequest_Memo : option Memo;
  SignalWithStartWorkflowExecutionRequest_SearchAttributes : option SearchAttributes;
  SignalWithStartWorkflowExecutionRequest_Header : option Header;
  SignalWithStartWorkflowExecutionRequest_DelayStartSeconds : option Z;
  SignalWithStartWorkflowExecutionRequest_JitterStartSeconds : option Z;
  SignalWithStartWorkflowExecutionRequest_FirstRunAtTimestamp : option Z;
  SignalWithStartWorkflowExecutionRequest_CronOverlapPolicy : option CronOverlapPolicy;
  SignalWithStartWorkflowExecutionRequest_ActiveClusterSelectionPolicy : option ActiveClusterSelectionPolicy }.

Record RequestCancelWorkflowExecutionRequest := MkRequestCancelWorkflowExecutionRequest {
  RequestCancelWorkflowExecutionRequest_Domain : option string;
  RequestCancelWorkflowExecutionRequest_WorkflowExecution : option WorkflowExecution;
  RequestCancelWorkflowExecutionRequest_Identity : option string;
  RequestCancelWorkflowExecutionRequest_RequestId : option string;
  RequestCancelWorkflowExecutionRequest_Cause : option string;
  RequestCancelWorkflowExecutionRequest_FirstExecutionRunID : option string }.

Record TerminateWorkflowExecutionRequest := MkTerminateWorkflowExecutionRequest {
  TerminateWorkflowExecutionRequest_Domain : option string;
  TerminateWorkflowExecutionRequest_WorkflowExecution : option WorkflowExecution;
  TerminateWorkflowExecutionRequest_Reason : option string;
  TerminateWorkflowExecutionRequest_Details : bytes;
  TerminateWorkflowExecutionRequest_Identity : option string;
  TerminateWorkflowExecutionRequest_FirstExecutionRunID : option string }.

Record SignalWorkflowExecutionRequest := MkSignalWorkflowExecutionRequest {
  SignalWorkflowExecutionRequest_Domain : option string;
  SignalWorkflowExecutionRequest_WorkflowExecution : option WorkflowExecution;
  SignalWorkflowExecutionRequest_SignalName : option string;
  SignalWorkflowExecutionRequest_Input : bytes;
  SignalWorkflowExecutionRequest_Identity : option string;
  SignalWorkflowExecutionRequest_RequestId : option string;
  SignalWorkflowExecutionRequest_Control : bytes }.

Record RecordActivityTaskHeartbeatByIDRequest := MkRecordActivityTaskHeartbeatByIDRequest {
  RecordActivityTaskHeartbeatByIDRequest_Domain : option string;
  RecordActivityTaskHeartbeatByIDRequest_WorkflowID : option string;
  RecordActivityTaskHeartbeatByIDRequest_RunID : option string;
  RecordActivityTaskHeartbeatByIDRequest_ActivityID : option string;
  RecordActivityTaskHeartbeatByIDRequest_Details : bytes;
  RecordActivityTaskHeartbeatByIDRequest_Identity : option string }.

Record QueryWorkflowRequest := MkQueryWorkflowRequest {
  QueryWorkflowRequest_Domain : option string;
  QueryWorkflowRequest_Execution : option WorkflowExecution;
  QueryWorkflowRequest_Query : option WorkflowQuery;
  QueryWorkflowRequest_QueryRejectCondition : option QueryRejectCondition;
  QueryWorkflowRequest_QueryConsistencyLevel : option QueryConsistencyLevel }.

Record QueryRejected := MkQueryRejected {
  QueryRejected_CloseStatus : option WorkflowExecutionCloseStatus }.

Record QueryWorkflowResponse := MkQueryWorkflowResponse {
  QueryWorkflowResponse_QueryResult : bytes;
  QueryWorkflowResponse_QueryRejected : option QueryRejected }.

Record DescribeWorkflowExecutionRequest := MkDescribeWorkflowExecutionRequest {
  DescribeWorkflowExecutionRequest_Domain : option string;
  DescribeWorkflowExecutionRequest_Execution : option WorkflowExecution;
  DescribeWorkflowExecutionRequest_QueryConsistencyLevel : option QueryConsistencyLevel }.

Record DescribeTaskListRequest := MkDescribeTaskListRequest {
  DescribeTaskListRequest_Domain : option string;
  DescribeTaskListRequest_TaskList : option TaskList;
  DescribeTaskListRequest_TaskListType : option TaskListType;
  DescribeTaskListRequest_IncludeTaskListStatus : option bool }.

Record RefreshWorkflowTasksRequest := MkRefreshWorkflowTasksRequest {
  RefreshWorkflowTasksRequest_Domain : option string;
  RefreshWorkflowTasksRequest_Execution : option WorkflowExecution }.
