(* ===== verification/HistorySerializer.v ===== *)
(** * The encoding of history batches

    internal/common/serializer/history_serializer.go.  A batch of history events
    is a blob: a byte with the version and the binary encoding of thriftrw, or
    JSON.  Both encoders are libraries, hence the class [HistoryCodec]; the
    package also encodes other structs, which this client never asks for. *)

From Stdlib Require Import ZArith Ascii.
From stdpp Require Import base list gmap strings option pretty.
From S2P Require Import Prelude.
From S2P Require Import Shared.
From S2P Require Import Backoff.
From S2P Require Import SharedClient.

(** [protocol.Binary] with [FromWire] and [ToWire] of a [History], and
    encoding/json, on the events of the history. *)
Class HistoryCodec := {
  Binary_Encode : list HistoryEvent → string + string;
  Binary_Decode : string → string + list HistoryEvent;
  Json_Marshal : list HistoryEvent → string + string;
  Json_Unmarshal : string → string + list HistoryEvent }.

(** What they promise: decoding undoes encoding, and JSON is never empty.  JSON
    does not keep every history apart, such as an empty field of bytes from one
    that is not set: [json_exact] are the batches that survive it. *)
Class HistoryCodecLaws (codec : HistoryCodec) (json_exact : list HistoryEvent → Prop) : Prop := {
  Binary_Decode_Encode l data : Binary_Encode l = inr data → Binary_Decode data = inr l;
  Json_Unmarshal_Marshal l data :
    json_exact l → Json_Marshal l = inr data → Json_Unmarshal data = inr l;
  Json_Marshal_nonempty l data : Json_Marshal l = inr data → data ≠ "" }.

Definition preambleVersion0 : ascii := ascii_of_nat 89.

Definition MissingBinaryEncodingVersion := "BadRequestError{Message: Missing binary encoding version.}".
Definition InvalidBinaryEncodingVersion := "BadRequestError{Message: Invalid binary encoding version.}".

Definition EncodingType_String (t : EncodingType) : string :=
  match t with
  | EncodingTypeThriftRW => "ThriftRW"
  | EncodingTypeJSON => "JSON"
  | EncodingTypeUnknown z => "EncodingType(" +:+ pretty z +:+ ")"
  end.

(** The character that the format puts around the encoding. *)
Definition quote_mark : string := String (ascii_of_nat 34) "".

Section serializer.
Context {codec : HistoryCodec}.

Definition Encode (l : list HistoryEvent) : string + bytes :=
  match Binary_Encode l with
  | inl err => inl err
  | inr data => inr (Some (String preambleVersion0 data))
  end.

Definition Decode (binary : bytes) : string + list HistoryEvent :=
  match bytes_to_string binary with
  | "" => inl MissingBinaryEncodingVersion
  | String version rest =>
      if decide (version = preambleVersion0) then Binary_Decode rest
      else inl InvalidBinaryEncodingVersion
  end.

Definition NewDataBlob (data : bytes) (encodingType : EncodingType) : option DataBlob :=
  if decide (bytes_to_string data = "") then None
  else Some (MkDataBlob (Some encodingType) data).

Definition serialize (input : list HistoryEvent) (encodingType : EncodingType)
    : string + option DataBlob :=
  let data :=
    match encodingType with
    | EncodingTypeThriftRW => Some (Encode input)
    | EncodingTypeJSON => Some (match Json_Marshal input with
                                | inl err => inl err | inr data => inr (Some data) end)
    | EncodingTypeUnknown _ => None
    end in
  match data with
  | None => inl ("unknown or unsupported encoding type " +:+ EncodingType_String encodingType)
  | Some (inl err) => inl ("cadence serialization error: " +:+ err)
  | Some (inr data) => inr (NewDataBlob data encodingType)
  end.

Definition SerializeBatchEvents (events : list HistoryEvent) (encodingType : EncodingType)
    : string + option DataBlob := serialize events encodingType.

(** [deserialize] into an empty list of events; an unknown encoding leaves it empty. *)
Definition deserialize (data : DataBlob) : outcome (string + list HistoryEvent) :=
  if decide (bytes_to_string (DataBlob_Data data) = "")
  then Ret (inl "DeserializeEvent empty data") else
  encoding ← deref (DataBlob_EncodingType data);
  let decoded := match encoding with
                 | EncodingTypeThriftRW => Decode (DataBlob_Data data)
                 | EncodingTypeJSON => Json_Unmarshal (bytes_to_string (DataBlob_Data data))
                 | EncodingTypeUnknown _ => inr []
                 end in
  mret (match decoded with
        | inl err => inl ("DeserializeBatchEvents encoding: " +:+ quote_mark
                          +:+ EncodingType_String encoding +:+ quote_mark +:+ ", error: " +:+ err)
        | inr events => inr events
        end).

Definition DeserializeBatchEvents (data : option DataBlob) : outcome (string + list HistoryEvent) :=
  match data with
  | None => Ret (inr [])
  | Some data =>
      if decide (bytes_to_string (DataBlob_Data data) = "") then Ret (inr [])
      else deserialize data
  end.

(** The loop over the blobs; [historyEvents] are the events so far. *)
Fixpoint deserializeBlobs (dataBlobs : list (option DataBlob)) (historyEvents : list HistoryEvent)
    : outcome (serviceError + list HistoryEvent) :=
  match dataBlobs with
  | [] => Ret (inr historyEvents)
  | batch :: dataBlobs =>
      r ← DeserializeBatchEvents batch;
      match r with
      | inl err => Ret (inl (OtherError err))
      | inr [] => Ret (inl InternalServiceError)
      | inr events => deserializeBlobs dataBlobs (historyEvents ++ events)
      end
  end.

Definition DeserializeBlobDataToHistoryEvents (dataBlobs : list (option DataBlob))
    (filterType : HistoryEventFilterType) : outcome (serviceError + list HistoryEvent) :=
  r ← deserializeBlobs dataBlobs [];
  match r, filterType with
  | inr historyEvents, HistoryEventFilterTypeCloseEvent =>
      match last historyEvents with
      | Some event => Ret (inr [event])
      | None => Panic IndexOutOfRange
      end
  | r, _ => Ret r
  end.

(** ** The round trip *)

Context `{!HistoryCodecLaws codec json_exact}.

(** The blob that a batch was encoded as. *)
Definition encoded_as (batch : list HistoryEvent) (blob : option DataBlob) : Prop :=
  batch ≠ [] ∧ ∃ encodingType, (encodingType = EncodingTypeJSON → json_exact batch)
    ∧ SerializeBatchEvents batch encodingType = inr blob.

Lemma DeserializeBatch_Serialize batch blob encodingType :
  (encodingType = EncodingTypeJSON → json_exact batch) →
  SerializeBatchEvents batch encodingType = inr blob →
  DeserializeBatchEvents blob = Ret (inr batch).
Proof.
  intros Hj. unfold SerializeBatchEvents, serialize, Encode, NewDataBlob.
  destruct encodingType; [| |done].
  - destruct (Binary_Encode batch) as [|data] eqn:E; [done|]. intros [= <-]. simpl.
    unfold deserialize, Decode. simpl.
    rewrite (Binary_Decode_Encode _ _ E). done.
  - destruct (Json_Marshal batch) as [|data] eqn:E; [done|]. intros [= <-]. simpl.
    pose proof (Json_Marshal_nonempty _ _ E) as Hne.
    rewrite decide_False by done. simpl. rewrite decide_False by done.
    unfold deserialize. simpl. rewrite decide_False by done. simpl.
    by rewrite (Json_Unmarshal_Marshal _ _ (Hj eq_refl) E).
Qed.

Lemma deserializeBlobs_encoded batches blobs acc :
  Forall2 encoded_as batches blobs →
  deserializeBlobs blobs acc = Ret (inr (acc ++ concat batches)).
Proof.
  intros H. revert acc. induction H as [|b blob bs blobs [Hb (t & Hj & Ht)] _ IH]; intros acc; simpl.
  - by rewrite app_nil_r.
  - rewrite (DeserializeBatch_Serialize _ _ _ Hj Ht). simpl. destruct b as [|e b]; [done|].
    rewrite IH. by rewrite <- (assoc_L (++)).
Qed.

(** C40: A history that was encoded in batches is read back unchanged: the blobs of
    non-empty batches, each in one of the two encodings, decode to the events of
    all batches in order; a request for the close event gets the last of them. *)
Theorem blobs_round_trip batches blobs :
  Forall2 encoded_as batches blobs →
  DeserializeBlobDataToHistoryEvents blobs HistoryEventFilterTypeAllEvent
    = Ret (inr (concat batches))
  ∧ ∀ event, last (concat batches) = Some event →
    DeserializeBlobDataToHistoryEvents blobs HistoryEventFilterTypeCloseEvent = Ret (inr [event]).
Proof.
  intros H. unfold DeserializeBlobDataToHistoryEvents.
  rewrite (deserializeBlobs_encoded _ _ _ H). simpl. split; [done|].
  intros event Hl. unfold mbind, outcome_bind. by rewrite Hl.
Qed.

End serializer.

(** ** A codec

    Both encodings write the ids of the events, and refuse events with other
    fields. *)
Module SampleCodec.

Definition event (id : Z) : HistoryEvent := MkHistoryEvent (Some id)
  None None None None None None None None None None None None None None None None None None None
  None None None None None None None None None None None None None None None None None None None
  None None None None None None None None.

Definition only_id (e : HistoryEvent) : option Z :=
  match e with
  | MkHistoryEvent (Some id)
      None None None None None None None None None None None None None None None None None None None
      None None None None None None None None None None None None None None None None None None None
      None None None None None None None None => Some id
  | _ => None
  end.

Lemma only_id_event e id : only_id e = Some id → e = event id.
Proof.
  destruct e. simpl. intros H.
  repeat match type of H with (match ?x with _ => _ end) = _ => destruct x; try discriminate H end.
  by injection H as ->.
Qed.

Definition write (l : list HistoryEvent) : string + string :=
  match mapM only_id l with
  | Some ids => inr (String "[" (bits_of_pos (encode ids)))
  | None => inl "unsupported"
  end.
Definition read (s : string) : string + list HistoryEvent :=
  match s with
  | String _ s => match decode (pos_of_bits s) with
                  | Some ids => inr (event <$> (ids : list Z)) | None => inl "corrupted" end
  | "" => inl "empty"
  end.

Definition codec : HistoryCodec :=
  {| Binary_Encode := write; Binary_Decode := read; Json_Marshal := write; Json_Unmarshal := read |}.

Lemma read_write l data : write l = inr data → read data = inr l.
Proof.
  unfold write. destruct (mapM only_id l) as [ids|] eqn:E; [|done]. intros [= <-]. simpl.
  rewrite pos_of_bits_of_pos, decode_encode. f_equal.
  apply mapM_Some in E. induction E as [|e id l ids He _ IH]; [done|]. simpl.
  f_equal; [symmetry; by apply only_id_event|done].
Qed.

Lemma codec_laws : HistoryCodecLaws codec (λ _, True).
Proof.
  split; simpl; [apply read_write|intros l data _; apply read_write|].
  intros l data. unfold write. by destruct (mapM only_id l); [intros [= <-]|].
Qed.

(** Three events in two batches. *)
Lemma blobs_round_trip_witness :
  let _ := codec in
  ∃ blobs,
    DeserializeBlobDataToHistoryEvents blobs HistoryEventFilterTypeAllEvent
      = Ret (inr [event 1; event 2; event 3])
    ∧ ∀ e, last [event 1; event 2; event 3] = Some e →
      DeserializeBlobDataToHistoryEvents blobs HistoryEventFilterTypeCloseEvent = Ret (inr [e]).
Proof.
  eexists. apply (@blobs_round_trip codec _ codec_laws [[event 1; event 2]; [event 3]]).
  constructor; [split; [done|]; exists EncodingTypeThriftRW; split; reflexivity || done|].
  constructor; [split; [done|]; exists EncodingTypeJSON; split; reflexivity || done|]. constructor.
Defined.

(** A list of blobs that is empty but not nil has no close event to take. *)
Example empty_blobs_panic :
  @DeserializeBlobDataToHistoryEvents codec [] HistoryEventFilterTypeCloseEvent = Panic IndexOutOfRange.
Proof. reflexivity. Qed.

(** A blob without an encoding is dereferenced. *)
Example no_encoding_panics :
  @DeserializeBlobDataToHistoryEvents codec [Some (MkDataBlob None (Some "x"))]
    HistoryEventFilterTypeAllEvent = Panic NilDereference.
Proof. reflexivity. Qed.

End SampleCodec.
