(* ===== verification/ClientHistory.v ===== *)
(** * Reading the history of a workflow

    internal/internal_workflow_client.go: the iterator over the events of a
    history, the long poll that fetches its pages, and the handle of a run whose
    [Get] waits for the event that closes the workflow.  The service is a parameter
    that says what each call meets. *)

From Stdlib Require Import ZArith Lia.
From stdpp Require Import base list gmap strings option pretty.
From S2P Require Import Prelude.
From S2P Require Import Shared.
From S2P Require Import Errors.
From S2P Require Import Backoff.
From S2P Require Import SharedClient.
From S2P Require Import HistorySerializer.

Local Open Scope Z_scope.

(** The errors that the client returns: those of the service, of its own
    ([errors.New], [fmt.Errorf]), and of the workflow. *)
Inductive clientError :=
| ServiceErr (err : serviceError)
| TextErr (text : string)
| TimedOutWaiting   (** "timed out waiting for the workflow to finish", wraps [DeadlineExceeded] *)
| WorkflowErr (err : goError).

Definition defaultGetHistoryTimeoutInSecs : Z := 25.

Definition getRunID (runID : string) : option string :=
  if decide (runID = "") then None else Some runID.

Definition EventType_String (t : EventType) : string :=
  match t with
  | EventTypeWorkflowExecutionStarted => "WorkflowExecutionStarted"
  | EventTypeWorkflowExecutionCompleted => "WorkflowExecutionCompleted"
  | EventTypeWorkflowExecutionFailed => "WorkflowExecutionFailed"
  | EventTypeWorkflowExecutionTimedOut => "WorkflowExecutionTimedOut"
  | EventTypeDecisionTaskScheduled => "DecisionTaskScheduled"
  | EventTypeDecisionTaskStarted => "DecisionTaskStarted"
  | EventTypeDecisionTaskCompleted => "DecisionTaskCompleted"
  | EventTypeDecisionTaskTimedOut => "DecisionTaskTimedOut"
  | EventTypeDecisionTaskFailed => "DecisionTaskFailed"
  | EventTypeActivityTaskScheduled => "ActivityTaskScheduled"
  | EventTypeActivityTaskStarted => "ActivityTaskStarted"
  | EventTypeActivityTaskCompleted => "ActivityTaskCompleted"
  | EventTypeActivityTaskFailed => "ActivityTaskFailed"
  | EventTypeActivityTaskTimedOut => "ActivityTaskTimedOut"
  | EventTypeActivityTaskCancelRequested => "ActivityTaskCancelRequested"
  | EventTypeRequestCancelActivityTaskFailed => "RequestCancelActivityTaskFailed"
  | EventTypeActivityTaskCanceled => "ActivityTaskCanceled"
  | EventTypeTimerStarted => "TimerStarted"
  | EventTypeTimerFired => "TimerFired"
  | EventTypeCancelTimerFailed => "CancelTimerFailed"
  | EventTypeTimerCanceled => "TimerCanceled"
  | EventTypeWorkflowExecutionCancelRequested => "WorkflowExecutionCancelRequested"
  | EventTypeWorkflowExecutionCanceled => "WorkflowExecutionCanceled"
  | EventTypeRequestCancelExternalWorkflowExecutionInitiated => "RequestCancelExternalWorkflowExecutionInitiated"
  | EventTypeRequestCancelExternalWorkflowExecutionFailed => "RequestCancelExternalWorkflowExecutionFailed"
  | EventTypeExternalWorkflowExecutionCancelRequested => "ExternalWorkflowExecutionCancelRequested"
  | EventTypeMarkerRecorded => "MarkerRecorded"
  | EventTypeWorkflowExecutionSignaled => "WorkflowExecutionSignaled"
  | EventTypeWorkflowExecutionTerminated => "WorkflowExecutionTerminated"
  | EventTypeWorkflowExecutionContinuedAsNew => "WorkflowExecutionContinuedAsNew"
  | EventTypeStartChildWorkflowExecutionInitiated => "StartChildWorkflowExecutionInitiated"
  | EventTypeStartChildWorkflowExecutionFailed => "StartChildWorkflowExecutionFailed"
  | EventTypeChildWorkflowExecutionStarted => "ChildWorkflowExecutionStarted"
  | EventTypeChildWorkflowExecutionCompleted => "ChildWorkflowExecutionCompleted"
  | EventTypeChildWorkflowExecutionFailed => "ChildWorkflowExecutionFailed"
  | EventTypeChildWorkflowExecutionCanceled => "ChildWorkflowExecutionCanceled"
  | EventTypeChildWorkflowExecutionTimedOut => "ChildWorkflowExecutionTimedOut"
  | EventTypeChildWorkflowExecutionTerminated => "ChildWorkflowExecutionTerminated"
  | EventTypeSignalExternalWorkflowExecutionInitiated => "SignalExternalWorkflowExecutionInitiated"
  | EventTypeSignalExternalWorkflowExecutionFailed => "SignalExternalWorkflowExecutionFailed"
  | EventTypeExternalWorkflowExecutionSignaled => "ExternalWorkflowExecutionSignaled"
  | EventTypeUpsertWorkflowSearchAttributes => "UpsertWorkflowSearchAttributes"
  | EventTypeUnknown z => "EventType(" +:+ pretty z +:+ ")"
  end.

(** ** The iterator *)

Record historyEventIteratorImpl := HistoryEventIterator {
  initialized : bool;
  nextEventIndex : nat;
  events : list HistoryEvent;
  nexttoken : bytes;
  iter_err : option clientError }.

Definition newHistoryEventIterator : historyEventIteratorImpl :=
  HistoryEventIterator false 0 [] None None.

Section iterator.
(** The function that fetches a page, and the state it works on. *)
Context {C : Type}.
Context (paginate : bytes → M C (clientError + GetWorkflowExecutionHistoryResponse)).

Definition iteration : Type := historyEventIteratorImpl * C.

Definition available (it : historyEventIteratorImpl) : bool :=
  bool_decide (nextEventIndex it < length (events it))%nat
  || match iter_err it with Some _ => true | None => false end.

(** What [HasNext] makes of the answer of [paginate]. *)
Definition fetched (it : historyEventIteratorImpl)
    (r : clientError + GetWorkflowExecutionHistoryResponse) : outcome historyEventIteratorImpl :=
  match r with
  | inl err => Ret (HistoryEventIterator true 0 [] None (Some err))
  | inr response =>
      history ← deref (GetWorkflowExecutionHistoryResponse_History response);
      Ret (HistoryEventIterator true 0 history
             (GetWorkflowExecutionHistoryResponse_NextPageToken response) None)
  end.

Definition HasNext : M iteration bool := λ s,
  let '(it, c) := s in
  if available it then (Ret true, s)
  else if negb (initialized it) || bool_decide (0 < len_bytes (nexttoken it))%nat then
    let it := HistoryEventIterator true (nextEventIndex it) (events it) (nexttoken it) (iter_err it) in
    match paginate (nexttoken it) c with
    | (Panic p, c) => (Panic p, (it, c))
    | (Ret r, c) =>
        match fetched it r with
        | Ret it => (Ret (available it), (it, c))
        | Panic p => (Panic p, (HistoryEventIterator true 0 (events it) (nexttoken it) (iter_err it), c))
        end
    end
  else (Ret false, s).

Definition Next : M iteration (clientError + HistoryEvent) :=
  more ← HasNext;
  if negb more then throw (StringPanic "HistoryEventIterator Next() called without checking HasNext()")
  else λ s,
    let '(it, c) := s in
    match events it !! nextEventIndex it with
    | Some event =>
        (Ret (inr event), (HistoryEventIterator (initialized it) (nextEventIndex it + 1) (events it)
                             (nexttoken it) (iter_err it), c))
    | None =>
        match iter_err it with
        | Some err => (Ret (inl err), (HistoryEventIterator (initialized it) (nextEventIndex it)
                                         (events it) (nexttoken it) None, c))
        | None => (Panic (StringPanic
            "HistoryEventIterator Next() should return either a history event or a err"), s)
        end
    end.

End iterator.

(** ** Pages *)

(** [QueryConsistencyLevel] of the package: 0 is unspecified. *)
Definition convertQueryConsistencyLevel (level : Z) : option QueryConsistencyLevel :=
  if decide (level = 1) then Some QueryConsistencyLevelEventual
  else if decide (level = 2) then Some QueryConsistencyLevelStrong
  else None.

Record GetWorkflowHistoryWithOptionsRequest := MkGetWorkflowHistoryWithOptionsRequest {
  gh_WorkflowID : string;
  gh_RunID : string;
  gh_IsLongPoll : bool;
  gh_FilterType : HistoryEventFilterType;
  gh_QueryConsistencyLevel : Z }.

Definition isEntityNonExistFromPassive (err : serviceError) : bool :=
  match err with
  | EntityNotExistsError current active =>
      let current := default "" current in
      let active := default "" active in
      negb (bool_decide (active = "")) && negb (bool_decide (current = ""))
      && negb (bool_decide (active = current))
  | _ => false
  end.

Definition set_History (history : list HistoryEvent) (r : GetWorkflowExecutionHistoryResponse) :=
  MkGetWorkflowExecutionHistoryResponse (Some history)
    (GetWorkflowExecutionHistoryResponse_RawHistory r)
    (GetWorkflowExecutionHistoryResponse_NextPageToken r)
    (GetWorkflowExecutionHistoryResponse_Archived r).
Definition set_NextPageToken (token : bytes) (r : GetWorkflowExecutionHistoryRequest) :=
  MkGetWorkflowExecutionHistoryRequest (GetWorkflowExecutionHistoryRequest_Domain r)
    (GetWorkflowExecutionHistoryRequest_Execution r)
    (GetWorkflowExecutionHistoryRequest_MaximumPageSize r) token
    (GetWorkflowExecutionHistoryRequest_WaitForNewEvent r)
    (GetWorkflowExecutionHistoryRequest_HistoryEventFilterType r)
    (GetWorkflowExecutionHistoryRequest_SkipArchival r)
    (GetWorkflowExecutionHistoryRequest_QueryConsistencyLevel r).

(** What one poll meets: the answers to its attempts, and when each attempt starts. *)
Record historyPoll := HistoryPoll {
  hp_rpc : rpc GetWorkflowExecutionHistoryResponse;
  hp_start : nat → Z }.

(** The polls so far: how many, and their requests. *)
Record conn := Conn {
  cn_polls : nat;
  cn_sent : list GetWorkflowExecutionHistoryRequest }.

Section paging.
Context (Pow : float64 → float64 → float64) (fuel : nat) {codec : HistoryCodec}.
(** The polls in their order, and the deadline of the context, if it has one. *)
Context (world : nat → historyPoll) (deadline : option Z).

(** An attempt: a call, and the decoding of a history that comes in blobs.  A panic
    ends the retries. *)
Definition historyAnswer (filterType : HistoryEventFilterType)
    (answer : serviceError + option GetWorkflowExecutionHistoryResponse)
    : serviceError + option (outcome GetWorkflowExecutionHistoryResponse) :=
  match answer with
  | inl err => inl err
  | inr None => inr (Some (Panic NilDereference))
  | inr (Some response) =>
      match GetWorkflowExecutionHistoryResponse_RawHistory response with
      | None => inr (Some (Ret response))
      | Some blobs =>
          match DeserializeBlobDataToHistoryEvents blobs filterType with
          | Panic p => inr (Some (Panic p))
          | Ret (inl err) => inl err
          | Ret (inr history) => inr (Some (Ret (set_History history response)))
          end
      end
  end.

Definition isFinal (isLongPoll : bool) (start : Z) : bool :=
  isLongPoll && match deadline with
                | Some deadline => bool_decide (deadline < start + defaultGetHistoryTimeoutInSecs * Second)
                | None => false
                end.

(** A poll with its retries, and whether one of its attempts had to be the last. *)
Definition pollHistory (request : GetWorkflowHistoryWithOptionsRequest) (p : historyPoll)
    : outcome ((serviceError + GetWorkflowExecutionHistoryResponse) * bool) :=
  let c := hp_rpc p in
  let answer i := historyAnswer (gh_FilterType request) (rpc_answer c i) in
  let attempt i := Attempt (match answer i with inl err => Some err | inr _ => None end)
                     (rpc_now c i) (rpc_rand c i) (rpc_ctxErr c i) (rpc_ctxDone c i) in
  r ← Retry Pow attempt (λ err, isServiceTransientError err || isEntityNonExistFromPassive err)
        fuel (rpc_hasDone c) (createDynamicServiceRetryPolicy (rpc_remaining c)) (rpc_start c);
  let '(err, waited) := r : option serviceError * list Z in
  let final := existsb (λ i, isFinal (gh_IsLongPoll request) (hp_start p i))
                 (seq 0 (S (length waited))) in
  match err, answer (length waited) with
  | Some err, _ | None, inl err => Ret (inl err, final)
  | None, inr response =>
      response ← deref response; response ← response; Ret (inr response, final)
  end.

(** [Loop] of [paginate]. *)
Fixpoint pageLoop (polls : nat) (request : GetWorkflowHistoryWithOptionsRequest)
    (req : GetWorkflowExecutionHistoryRequest)
    : M conn (clientError + GetWorkflowExecutionHistoryResponse) :=
  match polls with
  | O => throw OutOfFuel
  | S polls =>
      cn ← get;
      modify (λ cn, Conn (S (cn_polls cn)) (cn_sent cn ++ [req]));;
      match pollHistory request (world (cn_polls cn)) with
      | Panic p => throw p
      | Ret (inl err, _) => mret (inl (ServiceErr err))
      | Ret (inr response, isFinalLongPoll) =>
          if gh_IsLongPoll request then
            match GetWorkflowExecutionHistoryResponse_History response with
            | None => throw NilDereference
            | Some [] =>
                if bool_decide (len_bytes (GetWorkflowExecutionHistoryResponse_NextPageToken response) = 0%nat)
                then mret (inr response)
                else if isFinalLongPoll then mret (inl TimedOutWaiting)
                else pageLoop polls request
                       (set_NextPageToken (GetWorkflowExecutionHistoryResponse_NextPageToken response) req)
            | Some _ => mret (inr response)
            end
          else mret (inr response)
      end
  end.

Context (polls : nat) (domain : string).

Definition pageRequest (request : GetWorkflowHistoryWithOptionsRequest) (nextToken : bytes)
    : GetWorkflowExecutionHistoryRequest :=
  MkGetWorkflowExecutionHistoryRequest (Some domain)
    (Some (MkWorkflowExecution (Some (gh_WorkflowID request)) (getRunID (gh_RunID request))))
    None nextToken (Some (gh_IsLongPoll request)) (Some (gh_FilterType request))
    (Some (gh_IsLongPoll request)) (convertQueryConsistencyLevel (gh_QueryConsistencyLevel request)).

Definition paginate (request : GetWorkflowHistoryWithOptionsRequest) (nextToken : bytes)
    : M conn (clientError + GetWorkflowExecutionHistoryResponse) :=
  pageLoop polls request (pageRequest request nextToken).

(** [GetWorkflowHistoryWithOptions] and [GetWorkflowHistory] return a fresh iterator,
    which fetches its pages with this [paginate]. *)
Definition historyRequest (workflowID runID : string) (isLongPoll : bool)
    (filterType : HistoryEventFilterType) : GetWorkflowHistoryWithOptionsRequest :=
  MkGetWorkflowHistoryWithOptionsRequest workflowID runID isLongPoll filterType 0.

(** ** The handle of a run *)

Record workflowRunImpl := WorkflowRun {
  run_workflowID : string;
  run_firstRunID : string;
  run_currentRunID : string }.

Definition GetRunID (run : workflowRunImpl) : string := run_firstRunID run.
Definition GetID (run : workflowRunImpl) : string := run_workflowID run.

Definition GetWorkflow (workflowID runID : string) : workflowRunImpl :=
  WorkflowRun workflowID runID runID.

Context {dc : DataConverter}.
(** [valuePtr]: nil, or whether it is a pointer; [deSerialize] decodes a result into
    it, by reflection on the workflow function. *)
Context (valuePtr : option bool) (deSerialize : bytes → option clientError).

Inductive closing :=
| Closed (err : option clientError)
| Continued (newRunID : string).

(** What [Get] makes of the close event. *)
Definition closeEvent_result (e : HistoryEvent) : outcome closing :=
  match GetEventType e with
  | EventTypeWorkflowExecutionCompleted =>
      match valuePtr with
      | None => Ret (Closed None)
      | Some pointer =>
          attributes ← deref (HistoryEvent_WorkflowExecutionCompletedEventAttributes e);
          match WorkflowExecutionCompletedEventAttributes_Result attributes with
          | None => Ret (Closed None)
          | result =>
              if pointer then Ret (Closed (deSerialize result))
              else Ret (Closed (Some (TextErr "value parameter is not a pointer")))
          end
      end
  | EventTypeWorkflowExecutionFailed =>
      attributes ← deref (HistoryEvent_WorkflowExecutionFailedEventAttributes e);
      err ← constructError
              (default "" (WorkflowExecutionFailedEventAttributes_Reason attributes))
              (WorkflowExecutionFailedEventAttributes_Details attributes);
      Ret (Closed (Some (WorkflowErr err)))
  | EventTypeWorkflowExecutionCanceled =>
      attributes ← deref (HistoryEvent_WorkflowExecutionCanceledEventAttributes e);
      Ret (Closed (Some (WorkflowErr (NewCanceledError
             [GEncodedValues (WorkflowExecutionCanceledEventAttributes_Details attributes)]))))
  | EventTypeWorkflowExecutionTerminated => Ret (Closed (Some (WorkflowErr ErrTerminated)))
  | EventTypeWorkflowExecutionTimedOut =>
      Ret (Closed (Some (WorkflowErr (NewTimeoutError
             (default TimeoutTypeStartToClose
                (HistoryEvent_WorkflowExecutionTimedOutEventAttributes e
                 ≫= WorkflowExecutionTimedOutEventAttributes_TimeoutType)) []))))
  | EventTypeWorkflowExecutionContinuedAsNew =>
      Ret (Continued (get_string WorkflowExecutionContinuedAsNewEventAttributes_NewExecutionRunId
                        (HistoryEvent_WorkflowExecutionContinuedAsNewEventAttributes e)))
  | t => Ret (Closed (Some (TextErr ("Unexpected event type " +:+ EventType_String t
                                     +:+ " when handling workflow execution result"))))
  end.

(** The close event of the current run: [iterFn], [HasNext] and [Next]. *)
Definition closeEvent (run : workflowRunImpl) : M conn (clientError + HistoryEvent) := λ cn,
  let request := historyRequest (run_workflowID run) (run_currentRunID run) true
                   HistoryEventFilterTypeCloseEvent in
  let '(r, (_, cn)) :=
    (more ← HasNext (paginate request);
     if (more : bool) then Next (paginate request)
     else throw (StringPanic "could not get last history event for workflow"))
    (newHistoryEventIterator, cn) in
  (r, cn).

(** [runs] bounds the runs that [Get] follows. *)
Fixpoint Get (runs : nat) : M (workflowRunImpl * conn) (option clientError) := λ s,
  let '(run, cn) := s in
  match runs with
  | O => (Panic OutOfFuel, s)
  | S runs =>
      let '(r, cn) := closeEvent run cn in
      match r with
      | Panic p => (Panic p, (run, cn))
      | Ret (inl err) => (Ret (Some err), (run, cn))
      | Ret (inr event) =>
          match closeEvent_result event with
          | Panic p => (Panic p, (run, cn))
          | Ret (Closed err) => (Ret err, (run, cn))
          | Ret (Continued newRunID) =>
              Get runs (WorkflowRun (run_workflowID run) (run_firstRunID run) newRunID, cn)
          end
      end
  end.

End paging.
