(* ===== verification/ClientHistoryProps.v ===== *)
(** * Reading histories: theorems

    The events that an iterator delivers are those of the polls, in order and once,
    and the handle of a run follows the runs that continue it. *)

From Stdlib Require Import ZArith Lia.
From stdpp Require Import base list gmap strings option.
From S2P Require Import Prelude.
From S2P Require Import Shared.
From S2P Require Import Errors.
From S2P Require Import Backoff.
From S2P Require Import SharedClient.
From S2P Require Import HistorySerializer.
From S2P Require Import ClientHistory.

Abbreviation History_of := GetWorkflowExecutionHistoryResponse_History.
Abbreviation Token_of := GetWorkflowExecutionHistoryResponse_NextPageToken.

(** ** The iterator over any source of pages *)

Section iterator.
Context {C : Type}.
Context (paginate : bytes → M C (clientError + GetWorkflowExecutionHistoryResponse)).

Abbreviation iteration := (@iteration C).

(** How a caller reads a history: [for iter.HasNext() { iter.Next() }], until an
    error. *)
Fixpoint readAll (n : nat) : M iteration (list HistoryEvent * option clientError) :=
  match n with
  | O => throw OutOfFuel
  | S n =>
      more ← HasNext paginate;
      if negb more then mret ([], None) else
      r ← Next paginate;
      match r with
      | inl err => mret ([], Some err)
      | inr event =>
          rest ← readAll n;
          mret (event :: fst (rest : list HistoryEvent * option clientError), snd rest)
      end
  end.

(** The pages from [tok] on hold these events, and end with this error, if any; a
    page that is not the last one has events. *)
Inductive serves : C → bytes → list HistoryEvent → option clientError → C → Prop :=
| serves_error c tok err c' :
    paginate tok c = (Ret (inl err), c') → serves c tok [] (Some err) c'
| serves_last c tok r page c' :
    paginate tok c = (Ret (inr r), c') → History_of r = Some page → len_bytes (Token_of r) = 0 →
    serves c tok page None c'
| serves_more c tok r page c' l o c'' :
    paginate tok c = (Ret (inr r), c') → History_of r = Some page → len_bytes (Token_of r) ≠ 0 →
    page ≠ [] → serves c' (Token_of r) l o c'' → serves c tok (page ++ l) o c''.

Definition at_index (it : historyEventIteratorImpl) (i : nat) : historyEventIteratorImpl :=
  HistoryEventIterator (initialized it) i (events it) (nexttoken it) (iter_err it).

(** An iterator that asks for the page of [tok] next. *)
Definition at_page (it : historyEventIteratorImpl) (tok : bytes) : Prop :=
  nextEventIndex it = length (events it) ∧ iter_err it = None ∧ nexttoken it = tok ∧
  (initialized it = false ∨ len_bytes tok ≠ 0).

Lemma available_event it e : events it !! nextEventIndex it = Some e → available it = true.
Proof.
  intros H%lookup_lt_Some. unfold available. by rewrite bool_decide_true.
Qed.

Lemma available_end it :
  nextEventIndex it = length (events it) → iter_err it = None → available it = false.
Proof. intros Hi He. unfold available. by rewrite He, bool_decide_false by lia. Qed.

Lemma readAll_event n it c e :
  events it !! nextEventIndex it = Some e →
  readAll (S n) (it, c) =
  match readAll n (at_index it (nextEventIndex it + 1), c) with
  | (Ret (l, o), s) => (Ret (e :: l, o), s)
  | (Panic p, s) => (Panic p, s)
  end.
Proof.
  intros He. cbn [readAll]. unfold Next, HasNext. run.
  rewrite (available_event it e He). simpl. rewrite (available_event it e He). simpl.
  rewrite He. unfold at_index. by destruct (readAll n _) as [[[]|] ?].
Qed.

(** The rest of a page. *)
Lemma readAll_page l it c n :
  drop (nextEventIndex it) (events it) = l →
  readAll (length l + n) (it, c) =
  match readAll n (at_index it (nextEventIndex it + length l), c) with
  | (Ret (l', o), s) => (Ret (l ++ l', o), s)
  | (Panic p, s) => (Panic p, s)
  end.
Proof.
  revert it. induction l as [|e l IH]; intros it Hl.
  - simpl. rewrite Nat.add_0_r. destruct it; simpl. by destruct (readAll n _) as [[[]|] ?].
  - assert (events it !! nextEventIndex it = Some e) as He.
    { rewrite <- (Nat.add_0_r (nextEventIndex it)), <- lookup_drop, Hl. done. }
    cbn [length Nat.add]. rewrite (readAll_event _ _ _ e He).
    rewrite (IH (at_index it (nextEventIndex it + 1))).
    + unfold at_index. simpl. replace (nextEventIndex it + 1 + length l) with (nextEventIndex it + S (length l)) by lia.
      by destruct (readAll n _) as [[[]|] ?].
    + simpl. rewrite <- drop_drop, Hl. done.
Qed.

Lemma asks_page it tok :
  at_page it tok → negb (initialized it) || bool_decide (0 < len_bytes (nexttoken it)) = true.
Proof.
  intros (_ & _ & -> & [->|?]); [done|]. rewrite bool_decide_true by lia. by destruct (initialized it).
Qed.

Lemma HasNext_page it tok c r page c' :
  at_page it tok → paginate tok c = (Ret (inr r), c') → History_of r = Some page →
  HasNext paginate (it, c) =
    (Ret (available (HistoryEventIterator true 0 page (Token_of r) None)),
     (HistoryEventIterator true 0 page (Token_of r) None, c')).
Proof.
  intros Hp Hc Hh. pose proof (asks_page _ _ Hp) as Ha. destruct Hp as (Hi & He & Ht & _).
  unfold HasNext. rewrite available_end by done. rewrite Ha. simpl. rewrite Ht, Hc. simpl.
  by rewrite Hh.
Qed.

Lemma HasNext_available it c : available it = true → HasNext paginate (it, c) = (Ret true, (it, c)).
Proof. intros H. unfold HasNext. by rewrite H. Qed.

Lemma HasNext_over it c :
  available it = false → initialized it = true → len_bytes (nexttoken it) = 0 →
  HasNext paginate (it, c) = (Ret false, (it, c)).
Proof. intros H Hi Ht. unfold HasNext. by rewrite H, Hi, Ht. Qed.

(** Asking twice is as good as asking once. *)
Lemma readAll_HasNext n s b s' :
  HasNext paginate s = (Ret b, s') → HasNext paginate s' = (Ret b, s') →
  readAll (S n) s = readAll (S n) s'.
Proof. intros H H'. cbn [readAll]. run. by rewrite H, H'. Qed.

Lemma readAll_serves c tok l o c' it :
  serves c tok l o c' → at_page it tok →
  ∃ it', readAll (S (length l)) (it, c) = (Ret (l, o), (it', c')) ∧
    HasNext paginate (it', c') = (Ret false, (it', c')).
Proof.
  intros Hs. revert it.
  induction Hs as [c tok err c' Hc|c tok r page c' Hc Hh Ht|c tok r page c' l o c'' Hc Hh Ht Hp _ IH];
    intros it Hit.
  - pose proof (asks_page _ _ Hit) as Ha. destruct Hit as (Hi & He & <- & _).
    eexists. cbn [readAll]. unfold Next, HasNext. run.
    rewrite available_end, Ha by done. simpl. rewrite Hc. simpl. split; reflexivity.
  - pose proof (HasNext_page _ _ _ _ _ _ Hit Hc Hh) as HN.
    set (it1 := HistoryEventIterator true 0 page (Token_of r) None) in *.
    assert (HasNext paginate (at_index it1 (length page), c')
            = (Ret false, (at_index it1 (length page), c'))) as Hover.
    { apply HasNext_over; [by apply available_end|done|done]. }
    exists (at_index it1 (length page)). split; [|done].
    rewrite (readAll_HasNext _ _ _ _ HN).
    + replace (S (length page)) with (length page + 1) by lia.
      rewrite (readAll_page page it1) by done. simpl. run. rewrite Hover. simpl. by rewrite app_nil_r.
    + destruct (available it1) eqn:E; [by apply HasNext_available|by apply HasNext_over].
  - pose proof (HasNext_page _ _ _ _ _ _ Hit Hc Hh) as HN.
    set (it1 := HistoryEventIterator true 0 page (Token_of r) None) in *.
    assert (available it1 = true) as Hav.
    { destruct page as [|e page]; [done|]. by apply (available_event it1 e). }
    destruct (IH (at_index it1 (length page))) as (it' & HR & HO).
    { split_and!; try done. by right. }
    exists it'. split; [|done]. rewrite Hav in HN.
    rewrite (readAll_HasNext _ _ _ _ HN) by by apply HasNext_available.
    replace (S (length (page ++ l))) with (length page + S (length l)) by (rewrite length_app; lia).
    rewrite (readAll_page page it1) by done. cbn [nextEventIndex it1]. by rewrite Nat.add_0_l, HR.
Qed.

End iterator.

(** ** The polls of one history *)

Section paging.
Context (Pow : float64 → float64 → float64) (fuel : nat) {codec : HistoryCodec}.
Context (world : nat → historyPoll) (deadline : option Z) (polls : nat) (domain : string).

Abbreviation poll request k := (pollHistory Pow fuel deadline request (world k)).
Abbreviation fetch request := (paginate Pow fuel world deadline polls domain request).
Abbreviation loop n request := (pageLoop Pow fuel world deadline n request).
Abbreviation asks := (pageRequest domain).

(** What the polls from the [k]-th on, the first of which asks for [tok], deliver:
    the events, the error that ends them, if any, and the requests. *)
Inductive stream (request : GetWorkflowHistoryWithOptionsRequest) :
    nat → bytes → list HistoryEvent → option clientError →
    list GetWorkflowExecutionHistoryRequest → Prop :=
| stream_fails k tok err final :
    poll request k = Ret (inl err, final) →
    stream request k tok [] (Some (ServiceErr err)) [asks request tok]
| stream_late k tok r :
    poll request k = Ret (inr r, true) → gh_IsLongPoll request = true →
    History_of r = Some [] → len_bytes (Token_of r) ≠ 0 →
    stream request k tok [] (Some TimedOutWaiting) [asks request tok]
| stream_last k tok r page final :
    poll request k = Ret (inr r, final) → History_of r = Some page → len_bytes (Token_of r) = 0 →
    stream request k tok page None [asks request tok]
| stream_more k tok r page final l o sent :
    poll request k = Ret (inr r, final) → History_of r = Some page → len_bytes (Token_of r) ≠ 0 →
    (page = [] → gh_IsLongPoll request = true ∧ final = false) →
    stream request (S k) (Token_of r) l o sent →
    stream request k tok (page ++ l) o (asks request tok :: sent).

Definition after (k : nat) log (sent : list GetWorkflowExecutionHistoryRequest) : conn :=
  Conn (k + length sent) (log ++ sent).

(** What a call of [paginate] makes of a stream. *)
Definition page_of request (l : list HistoryEvent) (o : option clientError) (finish : conn)
    (r : clientError + GetWorkflowExecutionHistoryResponse) (cn : conn) : Prop :=
  match r with
  | inl err => l = [] ∧ o = Some err ∧ cn = finish
  | inr r => ∃ page l', History_of r = Some page ∧ l = page ++ l' ∧
      ((len_bytes (Token_of r) = 0 ∧ l' = [] ∧ o = None ∧ cn = finish)
       ∨ (len_bytes (Token_of r) ≠ 0 ∧ page ≠ []
          ∧ serves (fetch request) cn (Token_of r) l' o finish))
  end.

Lemma page_of_serves request l o finish cn tok r cn' :
  fetch request tok cn = (Ret r, cn') → page_of request l o finish r cn' →
  serves (fetch request) cn tok l o finish.
Proof.
  intros Hf. destruct r as [err|r]; simpl.
  - intros (-> & -> & ->). by apply serves_error.
  - intros (page & l' & Hh & -> & [(Ht & -> & -> & ->)|(Ht & Hp & Hs)]).
    + rewrite app_nil_r. by eapply serves_last.
    + by eapply serves_more.
Qed.

(** One turn of the loop. *)
Lemma loop_poll n request req k log :
  loop (S n) request req (Conn k log) =
  match poll request k with
  | Panic p => (Panic p, Conn (S k) (log ++ [req]))
  | Ret (inl err, _) => (Ret (inl (ServiceErr err)), Conn (S k) (log ++ [req]))
  | Ret (inr r, final) =>
      if gh_IsLongPoll request then
        match History_of r with
        | None => (Panic NilDereference, Conn (S k) (log ++ [req]))
        | Some [] =>
            if bool_decide (len_bytes (Token_of r) = 0) then (Ret (inr r), Conn (S k) (log ++ [req]))
            else if final then (Ret (inl TimedOutWaiting), Conn (S k) (log ++ [req]))
            else loop n request (set_NextPageToken (Token_of r) req) (Conn (S k) (log ++ [req]))
        | Some _ => (Ret (inr r), Conn (S k) (log ++ [req]))
        end
      else (Ret (inr r), Conn (S k) (log ++ [req]))
  end.
Proof.
  cbn [pageLoop]. run. cbn [cn_polls cn_sent].
  destruct (pollHistory _ _ _ _ _) as [[[err|r] final]|p]; [done| |done].
  destruct (gh_IsLongPoll request); [|done].
  destruct (History_of r) as [[|]|]; [|done|done].
  case_bool_decide; [done|]. by destruct final.
Qed.

(** A page that has events or is the last one ends the loop. *)
Lemma loop_page n request req k log r page final :
  poll request k = Ret (inr r, final) → History_of r = Some page →
  page ≠ [] ∨ len_bytes (Token_of r) = 0 →
  loop (S n) request req (Conn k log) = (Ret (inr r), Conn (S k) (log ++ [req])).
Proof.
  intros Hk Hh Hp. rewrite loop_poll, Hk, Hh. destruct (gh_IsLongPoll request); [|done].
  destruct page as [|e page]; [|done]. rewrite bool_decide_true by naive_solver. done.
Qed.

Lemma after_cons k log req sent : after k log (req :: sent) = after (S k) (log ++ [req]) sent.
Proof. unfold after. rewrite <- (assoc_L (++)). f_equal. simpl. lia. Qed.

Lemma stream_page request k tok l o sent :
  stream request k tok l o sent → length sent ≤ polls →
  ∀ n log, length sent ≤ n → ∃ r cn,
    loop n request (asks request tok) (Conn k log) = (Ret r, cn) ∧
    page_of request l o (after k log sent) r cn.
Proof.
  induction 1 as [k tok err final Hk|k tok r Hk Hl Hh Ht|k tok r page final Hk Hh Ht
                 |k tok r page final l o sent Hk Hh Ht Hw _ IH];
    intros Hp n log Hn; simpl in Hn; (destruct n as [|n]; [lia|]); rewrite ?after_cons.
  - exists (inl (ServiceErr err)), (after k log [asks request tok]). rewrite loop_poll, Hk, after_cons.
    unfold after. simpl. by rewrite Nat.add_0_r, app_nil_r.
  - exists (inl TimedOutWaiting), (after k log [asks request tok]).
    rewrite loop_poll, Hk, Hl, Hh, bool_decide_false, after_cons by done.
    unfold after. simpl. by rewrite Nat.add_0_r, app_nil_r.
  - exists (inr r), (after k log [asks request tok]).
    rewrite (loop_page _ _ _ _ _ r page final) by auto. split.
    + rewrite after_cons. unfold after. simpl. by rewrite Nat.add_0_r, app_nil_r.
    + exists page, []. rewrite app_nil_r. rewrite after_cons. naive_solver.
  - simpl in Hp. destruct page as [|e page].
    + destruct (Hw eq_refl) as [Hl ->].
      rewrite loop_poll, Hk, Hl, Hh, bool_decide_false by done. apply IH; lia.
    + exists (inr r), (Conn (S k) (log ++ [asks request tok])).
      rewrite (loop_page _ _ _ _ _ r (e :: page) final) by auto. split; [done|].
      exists (e :: page), l. split_and!; try done. right. split_and!; try done.
      destruct (IH ltac:(lia) polls (log ++ [asks request tok]) ltac:(lia)) as (r' & cn & Hf & Hpg).
      by eapply page_of_serves.
Qed.

(** C12: A history is delivered completely, in order and once.  When the polls of an
    iterator answer with pages that are linked by their tokens, reading it with
    [HasNext] and [Next] gives the events of all pages, in order, then the error
    with which the polls end, if they do; each poll asks for the token of the page
    before it, and is made once.  A long poll goes on over empty pages, and ends
    with a timeout when there is no time for another poll.  Without a long poll,
    every page that has a token must have events: at an empty one the code ends the
    iteration ([empty_page_ends_iteration]).  Afterwards the iterator is over. *)
Theorem history_delivered request l o sent :
  stream request 0 None l o sent → length sent ≤ polls →
  ∃ it, readAll (fetch request) (S (length l)) (newHistoryEventIterator, Conn 0 [])
          = (Ret (l, o), (it, Conn (length sent) sent))
        ∧ HasNext (fetch request) (it, Conn (length sent) sent)
          = (Ret false, (it, Conn (length sent) sent)).
Proof.
  intros Hs Hp. destruct (stream_page _ _ _ _ _ _ Hs Hp polls [] Hp) as (r & cn & Hf & Hpg).
  apply (readAll_serves (fetch request) (Conn 0 []) None l o (Conn (length sent) sent)).
  - by eapply page_of_serves.
  - split_and!; try done. by left.
Qed.

(** ** The runs that [Get] follows *)

Context {dc : DataConverter} (valuePtr : option bool) (deSerialize : bytes → option clientError).

Abbreviation closes := (closeEvent Pow fuel world deadline polls domain).
Abbreviation get_result := (Get Pow fuel world deadline polls domain valuePtr deSerialize).
Abbreviation close_request workflowID runID :=
  (historyRequest workflowID runID true HistoryEventFilterTypeCloseEvent).

(** The first event that the polls from the [k]-th on deliver, or the error. *)
Inductive first_event (request : GetWorkflowHistoryWithOptionsRequest) :
    nat → bytes → clientError + HistoryEvent → list GetWorkflowExecutionHistoryRequest → Prop :=
| first_fails k tok err final :
    poll request k = Ret (inl err, final) →
    first_event request k tok (inl (ServiceErr err)) [asks request tok]
| first_late k tok r :
    poll request k = Ret (inr r, true) → History_of r = Some [] → len_bytes (Token_of r) ≠ 0 →
    first_event request k tok (inl TimedOutWaiting) [asks request tok]
| first_found k tok r event page final :
    poll request k = Ret (inr r, final) → History_of r = Some (event :: page) →
    first_event request k tok (inr event) [asks request tok]
| first_waits k tok r res sent :
    poll request k = Ret (inr r, false) → History_of r = Some [] → len_bytes (Token_of r) ≠ 0 →
    first_event request (S k) (Token_of r) res sent →
    first_event request k tok res (asks request tok :: sent).

Lemma first_event_page request k tok res sent n log :
  gh_IsLongPoll request = true → first_event request k tok res sent → length sent ≤ n →
  ∃ r, loop n request (asks request tok) (Conn k log) = (Ret r, after k log sent) ∧
    match res, r with
    | inl err, inl err' => err = err'
    | inr event, inr r => ∃ page, History_of r = Some (event :: page)
    | _, _ => False
    end.
Proof.
  intros Hl Hf. revert n log.
  induction Hf as [k tok err final Hk|k tok r Hk Hh Ht|k tok r event page final Hk Hh
                  |k tok r res sent Hk Hh Ht _ IH];
    intros n log Hn; simpl in Hn; (destruct n as [|n]; [lia|]);
    rewrite loop_poll, Hk, ?Hl, ?Hh, ?(bool_decide_false _ Ht), after_cons;
    [..|apply IH; lia]; unfold after; cbn [length]; rewrite Nat.add_0_r, app_nil_r;
    eexists; (split; [reflexivity|]); simpl; eauto.
Qed.

Lemma closeEvent_first run k log res sent :
  first_event (close_request (run_workflowID run) (run_currentRunID run)) k None res sent →
  length sent ≤ polls → closes run (Conn k log) = (Ret res, after k log sent).
Proof.
  intros Hf Hp.
  destruct (first_event_page (close_request (run_workflowID run) (run_currentRunID run))
              k None res sent polls log eq_refl Hf Hp) as (r & Hr & Hm).
  unfold closeEvent, Next, HasNext, paginate. run.
  simpl. rewrite Hr.
  destruct res as [err|event], r as [err'|r]; try done; simpl in Hm; subst; simpl; [done|].
  destruct Hm as [page Hh]. rewrite Hh. done.
Qed.

(** From the [k]-th poll on, [Get] of the run goes through [n] runs, of which the
    last one is [current], and returns the error, having sent these requests. *)
Inductive follows (workflowID : string) :
    nat → nat → string → option clientError → string → list GetWorkflowExecutionHistoryRequest → Prop :=
| follows_fails k run err sent :
    first_event (close_request workflowID run) k None (inl err) sent →
    follows workflowID 1 k run (Some err) run sent
| follows_closed k run event err sent :
    first_event (close_request workflowID run) k None (inr event) sent →
    closeEvent_result valuePtr deSerialize event = Ret (Closed err) →
    follows workflowID 1 k run err run sent
| follows_continued n k run event run' sent err current sent' :
    first_event (close_request workflowID run) k None (inr event) sent →
    closeEvent_result valuePtr deSerialize event = Ret (Continued run') →
    follows workflowID n (k + length sent) run' err current sent' →
    follows workflowID (S n) k run err current (sent ++ sent').

(** C13: [Get] returns the result of the last run.  It waits, with a long poll that
    asks for the close event only, until the run is closed; when the event says that
    the workflow continued as a new run it waits for that one, and so on.  It returns
    what the first run that was closed otherwise ended with, the decoded result or
    the error of the workflow, or the first error of a poll; then the handle keeps
    the id of the first run, and its current run is the one that ended. *)
Theorem get_follows_runs workflowID first run n err current sent runs :
  follows workflowID n 0 run err current sent → n ≤ runs → length sent ≤ polls →
  get_result runs (WorkflowRun workflowID first run, Conn 0 [])
  = (Ret err, (WorkflowRun workflowID first current, Conn (length sent) sent)).
Proof.
  assert (Hgo : ∀ n k run err current sent, follows workflowID n k run err current sent →
    ∀ runs log, n ≤ runs → length sent ≤ polls →
    get_result runs (WorkflowRun workflowID first run, Conn k log)
    = (Ret err, (WorkflowRun workflowID first current, after k log sent))).
  { clear. induction 1 as [k run err sent Hf|k run event err sent Hf Hc
                          |n k run event run' sent err current sent' Hf Hc _ IH];
      intros runs log Hr Hp; (destruct runs as [|runs]; [lia|]); cbn [Get];
      rewrite ?length_app in Hp;
      rewrite (closeEvent_first (WorkflowRun workflowID first run) _ _ _ _ Hf) by lia;
      rewrite ?Hc; [done|done|].
    cbn [run_workflowID run_firstRunID]. unfold after at 1.
    rewrite (IH runs (log ++ sent)) by lia. unfold after. rewrite length_app, <- (assoc_L (++)).
    do 3 f_equal. lia. }
  intros Hf Hn Hp. by rewrite (Hgo _ _ _ _ _ _ Hf).
Qed.

End paging.

(** ** Examples *)

Module SampleHistory.

Definition pow (x n : float64) : float64 := float_of_int 1.
Definition event := SampleCodec.event.

Definition typed (t : EventType) : HistoryEvent := set_HistoryEvent_EventType (Some t) HistoryEvent_nil.

Definition answer (history : list HistoryEvent) (token : bytes)
    : serviceError + option GetWorkflowExecutionHistoryResponse :=
  inr (Some (MkGetWorkflowExecutionHistoryResponse (Some history) None token None)).

(** A poll that is answered so at its first attempt, at second [start]. *)
Definition polled (start : Z) (a : serviceError + option GetWorkflowExecutionHistoryResponse)
    : historyPoll :=
  HistoryPoll (Rpc 0 None false (λ _, a) (λ _, 0%Z) (λ _ _, 0%Z) (λ _, false) (λ _, false))
    (λ _, start * Second)%Z.

Definition played (l : list historyPoll) (k : nat) : historyPoll :=
  default (polled 0 (inl InternalServiceError)) (l !! k).

Definition request (isLongPoll : bool) : GetWorkflowHistoryWithOptionsRequest :=
  historyRequest "order" "" isLongPoll HistoryEventFilterTypeAllEvent.

(** Three pages of a running workflow: the first is empty, the second one comes
    after a refused call. *)
Definition retried (a : serviceError + option GetWorkflowExecutionHistoryResponse) : historyPoll :=
  HistoryPoll (Rpc 0 None false (λ i, match i with O => inl ServiceBusyError | _ => a end)
                 (λ _, 0%Z) (λ _ _, 0%Z) (λ _, false) (λ _, false)) (λ _, 0%Z).
Definition threePages : nat → historyPoll := played
  [polled 0 (answer [] (Some "t1")); retried (answer [event 1; event 2] (Some "t2"));
   polled 0 (answer [event 3] None)].

Abbreviation asked tok := (pageRequest "domain" (request true) tok).
Abbreviation fetch_sample world deadline isLongPoll :=
  (paginate (codec := SampleCodec.codec) pow 3 world deadline 3 "domain" (request isLongPoll)).

Lemma history_delivered_witness :
  let fetch := fetch_sample threePages None true in
  let sent := [asked None; asked (Some "t1"); asked (Some "t2")] in
  ∃ it, readAll fetch 4 (newHistoryEventIterator, Conn 0 [])
          = (Ret ([event 1; event 2; event 3], None), (it, Conn 3 sent))
        ∧ HasNext fetch (it, Conn 3 sent) = (Ret false, (it, Conn 3 sent)).
Proof.
  apply (history_delivered (codec := SampleCodec.codec) pow 3 threePages None 3 "domain" (request true)
           [event 1; event 2; event 3] None [asked None; asked (Some "t1"); asked (Some "t2")]); [|simpl; lia].
  apply (stream_more _ _ _ _ _ (request true) 0 None
           (MkGetWorkflowExecutionHistoryResponse (Some []) None (Some "t1") None) [] false);
    [vm_compute; reflexivity|done|done|done|].
  apply (stream_more _ _ _ _ _ (request true) 1 (Some "t1")
           (MkGetWorkflowExecutionHistoryResponse (Some [event 1; event 2]) None (Some "t2") None)
           [event 1; event 2] false); [vm_compute; reflexivity|done|done|done|].
  apply (stream_last _ _ _ _ _ (request true) 2 (Some "t2")
           (MkGetWorkflowExecutionHistoryResponse (Some [event 3]) None None None) [event 3] false);
    [vm_compute; reflexivity|done|done].
Defined.

(** With a deadline in 20 seconds there is no time for a second poll. *)
Example deadline_ends_polls :
  fst (readAll (fetch_sample threePages (Some (20 * Second)%Z) true) 4 (newHistoryEventIterator, Conn 0 []))
  = Ret ([], Some TimedOutWaiting).
Proof. vm_compute. reflexivity. Qed.

(** Without a long poll the iteration ends at the empty page, which is not the last. *)
Example empty_page_ends_iteration :
  fst (readAll (fetch_sample threePages None false) 4 (newHistoryEventIterator, Conn 0 []))
  = Ret ([], None).
Proof. vm_compute. reflexivity. Qed.

(** A workflow that continues as a new run, which is terminated. *)
Definition continuedAs (run : string) : HistoryEvent :=
  MkHistoryEvent None None (Some EventTypeWorkflowExecutionContinuedAsNew)
    None None None None None None None None None None None None None None None None None None None None
    None None None None None None None None None None None
    (Some (MkWorkflowExecutionContinuedAsNewEventAttributes (Some run)
             None None None None None None None None None None None None None None None None))
    None None None None None None None None None None None None.

Definition twoRuns : nat → historyPoll := played
  [polled 0 (answer [] (Some "t1")); polled 0 (answer [continuedAs "run-2"] None);
   polled 0 (answer [typed EventTypeWorkflowExecutionTerminated] None)].

Abbreviation asked_close run tok := (pageRequest "domain"
  (historyRequest "order" run true HistoryEventFilterTypeCloseEvent) tok).
Abbreviation get_sample := (Get (codec := SampleCodec.codec) (dc := bitConverter) pow 3 twoRuns None 3
  "domain" None (λ _, None)).

Lemma get_follows_runs_witness :
  get_sample 2 (WorkflowRun "order" "run-1" "run-1", Conn 0 [])
  = (Ret (Some (WorkflowErr ErrTerminated)),
     (WorkflowRun "order" "run-1" "run-2",
      Conn 3 [asked_close "run-1" None; asked_close "run-1" (Some "t1"); asked_close "run-2" None])).
Proof.
  apply (get_follows_runs (codec := SampleCodec.codec) pow 3 twoRuns None 3 "domain" (dc := bitConverter)
           None (λ _, None) "order" "run-1" "run-1" 2 (Some (WorkflowErr ErrTerminated)) "run-2"
           [asked_close "run-1" None; asked_close "run-1" (Some "t1"); asked_close "run-2" None] 2);
    [|lia|simpl; lia].
  apply (follows_continued (codec := SampleCodec.codec) pow 3 twoRuns None "domain" (dc := bitConverter)
           None (λ _, None) "order" 1 0 "run-1" (continuedAs "run-2") "run-2"
           [asked_close "run-1" None; asked_close "run-1" (Some "t1")] _ _ [asked_close "run-2" None]);
    [|done|].
  - eapply (first_waits _ _ _ _ _ _ 0 None
        (MkGetWorkflowExecutionHistoryResponse (Some []) None (Some "t1") None));
      [vm_compute; reflexivity|done|done|].
    eapply first_found; [vm_compute; reflexivity|done].
  - eapply (follows_closed _ _ _ _ _ _ _ _ _ _ (typed EventTypeWorkflowExecutionTerminated)); [|done].
    eapply first_found; [vm_compute; reflexivity|done].
Defined.

End SampleHistory.
