(* ===== verification/WorkflowClient.v ===== *)
(** * The workflow client

    internal/internal_workflow_client.go: the calls of [workflowClient].  Each one
    builds its request from its arguments, checks it, and sends it with the retries
    of Backoff.v.  The service, the identifiers that uuid generates, the registry of
    workflow functions and the context propagators are parameters; histories and
    the handle of a run are in ClientHistory.v. *)

From Stdlib Require Import ZArith.
From stdpp Require Import base list gmap strings option.
From S2P Require Import Prelude.
From S2P Require Import Shared.
From S2P Require Import SharedActivity.
From S2P Require Import Errors.
From S2P Require Import DecisionsHelper.
From S2P Require Import Environment.
From S2P Require Import Backoff.
From S2P Require Import Schedule.
From S2P Require Import ActivityOptions.
From S2P Require Import Heartbeat.
From S2P Require Import SharedClient.
From S2P Require Import HistorySerializer.
From S2P Require Import ClientHistory.

Local Open Scope Z_scope.

Definition defaultDecisionTaskTimeoutInSecs : Z := 10.

Record workflowClient := WorkflowClient {
  wc_domain : string;
  wc_identity : string }.

Record ClusterAttribute := SdkClusterAttribute {
  ca_Scope : string;
  ca_Name : string }.

(** [swo_WorkflowIDReusePolicy]: the number of the policy;
    [swo_ActiveClusterSelectionPolicy]: a pointer to a struct with a pointer. *)
Record StartWorkflowOptions := SdkStartWorkflowOptions {
  swo_ID : string;
  swo_RequestID : string;
  swo_TaskList : string;
  swo_ExecutionStartToCloseTimeout : Z;
  swo_DecisionTaskStartToCloseTimeout : Z;
  swo_WorkflowIDReusePolicy : Z;
  swo_RetryPolicy : option Schedule.RetryPolicy;
  swo_CronSchedule : string;
  swo_Memo : option (gmap string goValue);
  swo_SearchAttributes : option (gmap string searchValue);
  swo_DelayStart : Z;
  swo_JitterStart : Z;
  swo_FirstRunAt : Time;
  swo_CronOverlapPolicy : CronOverlapPolicy;
  swo_ActiveClusterSelectionPolicy : option (option ClusterAttribute) }.

Record WorkflowExecution := SdkWorkflowExecution {
  we_ID : string;
  we_RunID : string }.

Definition convertClusterAttribute (attr : option ClusterAttribute) : option Shared.ClusterAttribute :=
  (λ a, MkClusterAttribute (Some (ca_Scope a)) (Some (ca_Name a))) <$> attr.

(** Its error is always nil. *)
Definition convertActiveClusterSelectionPolicy (policy : option (option ClusterAttribute))
    : option ActiveClusterSelectionPolicy :=
  (λ attr, MkActiveClusterSelectionPolicy (convertClusterAttribute attr)) <$> policy.

(** The propagators write into the map of the header, one after the other. *)
Definition getWorkflowHeader (contextPropagators : list (gmap string bytes → gmap string bytes))
    : Header :=
  MkHeader (Some (foldl (λ fields inject, inject fields) ∅ contextPropagators)).

Definition requestIDOrNew (newID requestID : string) : string :=
  if decide (requestID = "") then newID else requestID.

(** The requests whose domain the client fills in. *)
Class HasDomain (Q : Type) := {
  GetDomain : Q → option string;
  SetDomain : option string → Q → Q }.

Definition maxListArchivedWorkflowTimeout : Z := 3 * 60 * Second.
Definition minRPCTimeout : Z := Second.

(** [remaining]: the time to the deadline of the context, if there is one that is not
    over. *)
Definition archivedTimeout (remaining : option Z) : Z :=
  match remaining with
  | None => maxListArchivedWorkflowTimeout
  | Some timeout =>
      if bool_decide (timeout > maxListArchivedWorkflowTimeout) then maxListArchivedWorkflowTimeout
      else if bool_decide (timeout < minRPCTimeout) then minRPCTimeout
      else timeout
  end.

(** A call that returns only an error. *)
Definition failed {R} (r : outcome ((serviceError + option R) * nat)) : outcome (option clientError) :=
  match r with
  | Panic p => Panic p
  | Ret (inl err, _) => Ret (Some (ServiceErr err))
  | Ret (inr _, _) => Ret None
  end.
(** A call that returns the response, which may be nil. *)
Definition answered {R} (r : outcome ((serviceError + option R) * nat))
    : outcome (clientError + option R) :=
  match r with
  | Panic p => Panic p
  | Ret (inl err, _) => Ret (inl (ServiceErr err))
  | Ret (inr response, _) => Ret (inr response)
  end.

Section client.
Context (Pow : float64 → float64 → float64) (fuel : nat).
Context {dc : DataConverter} (json_Marshal : searchValue → string + bytes).
(** [uuid.Parse] accepts the text. *)
Context (uuid_Parse : string → bool).
Context (contextPropagators : list (gmap string bytes → gmap string bytes)).
Context (wc : workflowClient).

Definition validateRequestID (requestID : string) : option string :=
  if decide (requestID = "") then None
  else if uuid_Parse requestID then None
  else Some "invalid RequestID".

(** ** Starting workflows *)

(** The values that both ways to start a workflow compute from the options. *)
Record startValues := StartValues {
  sv_executionTimeout : Z;
  sv_decisionTaskTimeout : Z;
  sv_workflowType : string;
  sv_input : bytes;
  sv_memo : option Memo;
  sv_searchAttr : option SearchAttributes;
  sv_delayStartSeconds : Z;
  sv_jitterStartSeconds : Z;
  sv_firstRunAtTimestamp : Z }.

Definition firstRunAt (t : Time) : Z := if IsZero t then 0 else UnixNano t.

(** The checks of [getWorkflowStartRequest] and [getSignalWithStartRequest], in their
    order; [validated] is what [getValidatedWorkflowFunction] returns: the name of
    the workflow type and the encoded arguments. *)
Definition checkStartOptions (options : StartWorkflowOptions) (validated : string + (string * bytes))
    : clientError + startValues :=
  if decide (swo_TaskList options = "") then inl (TextErr "missing TaskList") else
  let executionTimeout := seconds (swo_ExecutionStartToCloseTimeout options) in
  if bool_decide (executionTimeout <= 0)
  then inl (TextErr "missing or invalid ExecutionStartToCloseTimeout") else
  let decisionTaskTimeout := seconds (swo_DecisionTaskStartToCloseTimeout options) in
  if bool_decide (decisionTaskTimeout < 0)
  then inl (TextErr "negative DecisionTaskStartToCloseTimeout provided") else
  let decisionTaskTimeout := if bool_decide (decisionTaskTimeout = 0)
                             then defaultDecisionTaskTimeoutInSecs else decisionTaskTimeout in
  match validateRequestID (swo_RequestID options) with
  | Some err => inl (TextErr err)
  | None =>
  match validated with
  | inl err => inl (TextErr err)
  | inr (workflowType, input) =>
  match getWorkflowMemo (swo_Memo options) with
  | inl err => inl (TextErr err)
  | inr memo =>
  match serializeSearchAttributes json_Marshal (swo_SearchAttributes options) with
  | inl err => inl (TextErr err)
  | inr searchAttr =>
  let delayStartSeconds := seconds (swo_DelayStart options) in
  if bool_decide (delayStartSeconds < 0) then inl (TextErr "Invalid DelayStart option") else
  let jitterStartSeconds := seconds (swo_JitterStart options) in
  if bool_decide (jitterStartSeconds < 0) then inl (TextErr "Invalid JitterStart option") else
  let firstRunAtTimestamp := firstRunAt (swo_FirstRunAt options) in
  if bool_decide (firstRunAtTimestamp < 0) then inl (TextErr "Invalid FirstRunAt option") else
  inr (StartValues executionTimeout decisionTaskTimeout workflowType input memo searchAttr
         delayStartSeconds jitterStartSeconds firstRunAtTimestamp)
  end end end end.

(** [workflowID']: the id that uuid would generate for the workflow, [newID] the one
    for the request. *)
Definition getWorkflowStartRequest (options : StartWorkflowOptions) (validated : string + (string * bytes))
    (workflowID' newID : string) : outcome (clientError + StartWorkflowExecutionRequest) :=
  let workflowID := if decide (swo_ID options = "") then workflowID' else swo_ID options in
  match checkStartOptions options validated with
  | inl err => Ret (inl err)
  | inr v =>
      reuse ← WorkflowIDReusePolicy_toThriftPtr (swo_WorkflowIDReusePolicy options);
      Ret (inr (MkStartWorkflowExecutionRequest (Some (wc_domain wc)) (Some workflowID)
        (Some (MkWorkflowType (Some (sv_workflowType v))))
        (Some (MkTaskList (Some (swo_TaskList options)) None None)) (sv_input v)
        (Some (sv_executionTimeout v)) (Some (sv_decisionTaskTimeout v)) (Some (wc_identity wc))
        (Some (requestIDOrNew newID (swo_RequestID options))) reuse
        (convertRetryPolicy (swo_RetryPolicy options)) (Some (swo_CronSchedule options))
        (sv_memo v) (sv_searchAttr v) (Some (getWorkflowHeader contextPropagators))
        (Some (sv_delayStartSeconds v)) (Some (sv_jitterStartSeconds v))
        (Some (sv_firstRunAtTimestamp v)) (Some (swo_CronOverlapPolicy options))
        (convertActiveClusterSelectionPolicy (swo_ActiveClusterSelectionPolicy options))))
  end.

Definition getSignalWithStartRequest (workflowID signalName : string) (signalArg : goValue)
    (options : StartWorkflowOptions) (validated : string + (string * bytes))
    (workflowID' newID : string) : outcome (clientError + SignalWithStartWorkflowExecutionRequest) :=
  match encodeArgs [signalArg] with
  | inl err => Ret (inl (TextErr err))
  | inr signalInput =>
  let workflowID := if decide (workflowID = "") then workflowID' else workflowID in
  match checkStartOptions options validated with
  | inl err => Ret (inl err)
  | inr v =>
      reuse ← WorkflowIDReusePolicy_toThriftPtr (swo_WorkflowIDReusePolicy options);
      Ret (inr (MkSignalWithStartWorkflowExecutionRequest (Some (wc_domain wc)) (Some workflowID)
        (Some (MkWorkflowType (Some (sv_workflowType v))))
        (Some (MkTaskList (Some (swo_TaskList options)) None None)) (sv_input v)
        (Some (sv_executionTimeout v)) (Some (sv_decisionTaskTimeout v)) (Some (wc_identity wc))
        (Some (requestIDOrNew newID (swo_RequestID options))) reuse
        (Some signalName) signalInput None
        (convertRetryPolicy (swo_RetryPolicy options)) (Some (swo_CronSchedule options))
        (sv_memo v) (sv_searchAttr v) (Some (getWorkflowHeader contextPropagators))
        (Some (sv_delayStartSeconds v)) (Some (sv_jitterStartSeconds v))
        (Some (sv_firstRunAtTimestamp v)) (Some (swo_CronOverlapPolicy options))
        (convertActiveClusterSelectionPolicy (swo_ActiveClusterSelectionPolicy options))))
  end end.

(** Below, a call of the service is a function of the request that was sent. *)

Definition StartWorkflow (options : StartWorkflowOptions) validated (workflowID' newID : string)
    (call : StartWorkflowExecutionRequest → rpc StartWorkflowExecutionResponse)
    : outcome (clientError + WorkflowExecution) :=
  r ← getWorkflowStartRequest options validated workflowID' newID;
  match r with
  | inl err => Ret (inl err)
  | inr startRequest =>
      r ← answered (callService Pow fuel (call startRequest));
      match r with
      | inl err => Ret (inl err)
      | inr response =>
          id ← deref (StartWorkflowExecutionRequest_WorkflowId startRequest);
          Ret (inr (SdkWorkflowExecution id (get_string StartWorkflowExecutionResponse_RunId response)))
      end
  end.

Definition StartWorkflowAsync (options : StartWorkflowOptions) validated (workflowID' newID : string)
    (call : StartWorkflowExecutionRequest → rpc unit) : outcome (clientError + string) :=
  r ← getWorkflowStartRequest options validated workflowID' newID;
  match r with
  | inl err => Ret (inl err)
  | inr startRequest =>
      r ← answered (callService Pow fuel (call startRequest));
      match r with
      | inl err => Ret (inl err)
      | inr _ =>
          id ← deref (StartWorkflowExecutionRequest_WorkflowId startRequest);
          Ret (inr id)
      end
  end.

Definition ExecuteWorkflow (options : StartWorkflowOptions) validated (workflowID' newID : string)
    (call : StartWorkflowExecutionRequest → rpc StartWorkflowExecutionResponse)
    : outcome (clientError + workflowRunImpl) :=
  r ← StartWorkflow options validated workflowID' newID call;
  match r with
  | inl (ServiceErr (WorkflowExecutionAlreadyStartedError runId)) =>
      let runID := default ""%string runId in Ret (inr (WorkflowRun (swo_ID options) runID runID))
  | inl err => Ret (inl err)
  | inr e => Ret (inr (WorkflowRun (we_ID e) (we_RunID e) (we_RunID e)))
  end.

Definition SignalWithStartWorkflow (workflowID signalName : string) (signalArg : goValue)
    (options : StartWorkflowOptions) validated (workflowID' newID : string)
    (call : SignalWithStartWorkflowExecutionRequest → rpc StartWorkflowExecutionResponse)
    : outcome (clientError + WorkflowExecution) :=
  r ← getSignalWithStartRequest workflowID signalName signalArg options validated workflowID' newID;
  match r with
  | inl err => Ret (inl err)
  | inr request =>
      r ← answered (callService Pow fuel (call request));
      match r with
      | inl err => Ret (inl err)
      | inr response =>
          Ret (inr (SdkWorkflowExecution (swo_ID options)
                      (get_string StartWorkflowExecutionResponse_RunId response)))
      end
  end.

Definition SignalWithStartWorkflowAsync (workflowID signalName : string) (signalArg : goValue)
    (options : StartWorkflowOptions) validated (workflowID' newID : string)
    (call : SignalWithStartWorkflowExecutionRequest → rpc unit) : outcome (clientError + string) :=
  r ← getSignalWithStartRequest workflowID signalName signalArg options validated workflowID' newID;
  match r with
  | inl err => Ret (inl err)
  | inr request =>
      r ← answered (callService Pow fuel (call request));
      match r with
      | inl err => Ret (inl err)
      | inr _ => Ret (inr (swo_ID options))
      end
  end.

(** ** Running workflows *)

Definition execution (workflowID runID : string) : Shared.WorkflowExecution :=
  MkWorkflowExecution (Some workflowID) (getRunID runID).

Definition signalWorkflow (identity domain workflowID runID signalName : string) (signalInput : bytes)
    (newID : string) (call : SignalWorkflowExecutionRequest → rpc unit) : outcome (option clientError) :=
  failed (callService Pow fuel (call (MkSignalWorkflowExecutionRequest (Some domain)
    (Some (execution workflowID runID)) (Some signalName) signalInput (Some identity) (Some newID) None))).

Definition SignalWorkflow (workflowID runID signalName : string) (arg : goValue) (newID : string)
    (call : SignalWorkflowExecutionRequest → rpc unit) : outcome (option clientError) :=
  match encodeArgs [arg] with
  | inl err => Ret (Some (TextErr err))
  | inr input => signalWorkflow (wc_identity wc) (wc_domain wc) workflowID runID signalName input newID call
  end.

(** [opts]: the reasons among the options; the last one counts. *)
Definition CancelWorkflow (workflowID runID newID : string) (opts : list string)
    (call : RequestCancelWorkflowExecutionRequest → rpc unit) : outcome (option clientError) :=
  failed (callService Pow fuel (call (MkRequestCancelWorkflowExecutionRequest (Some (wc_domain wc))
    (Some (execution workflowID runID)) (Some (wc_identity wc)) (Some newID)
    (foldl (λ _ cause, Some cause) None opts) None))).

Definition TerminateWorkflow (workflowID runID reason : string) (details : bytes)
    (call : TerminateWorkflowExecutionRequest → rpc unit) : outcome (option clientError) :=
  failed (callService Pow fuel (call (MkTerminateWorkflowExecutionRequest (Some (wc_domain wc))
    (Some (execution workflowID runID)) (Some reason) details (Some (wc_identity wc)) None))).

Definition RefreshWorkflowTasks (workflowID runID : string)
    (call : RefreshWorkflowTasksRequest → rpc unit) : outcome (option clientError) :=
  failed (callService Pow fuel (call (MkRefreshWorkflowTasksRequest (Some (wc_domain wc))
    (Some (execution workflowID runID))))).

(** ** Questions *)

Record QueryWorkflowWithOptionsRequest := SdkQueryWorkflow {
  qw_WorkflowID : string;
  qw_RunID : string;
  qw_QueryType : string;
  qw_Args : list goValue;
  qw_QueryRejectCondition : option QueryRejectCondition;
  qw_QueryConsistencyLevel : option QueryConsistencyLevel }.

(** The result, or why the query was rejected. *)
Definition QueryWorkflowWithOptions (request : QueryWorkflowWithOptionsRequest)
    (call : QueryWorkflowRequest → rpc QueryWorkflowResponse)
    : outcome (clientError + (bytes + QueryRejected)) :=
  let input := match qw_Args request with [] => inr None | args => encodeArgs args end in
  match input with
  | inl err => Ret (inl (TextErr err))
  | inr input =>
      r ← answered (callService Pow fuel (call (MkQueryWorkflowRequest (Some (wc_domain wc))
            (Some (execution (qw_WorkflowID request) (qw_RunID request)))
            (Some (MkWorkflowQuery (Some (qw_QueryType request)) input))
            (qw_QueryRejectCondition request) (qw_QueryConsistencyLevel request))));
      match r with
      | inl err => Ret (inl err)
      | inr resp =>
          resp ← deref resp;
          Ret (inr (match QueryWorkflowResponse_QueryRejected resp with
                    | Some rejected => inr rejected
                    | None => inl (QueryWorkflowResponse_QueryResult resp)
                    end))
      end
  end.

(** [None]: the value that a rejected query leaves nil. *)
Definition QueryWorkflow (workflowID runID queryType : string) (args : list goValue)
    (call : QueryWorkflowRequest → rpc QueryWorkflowResponse) : outcome (clientError + option bytes) :=
  r ← QueryWorkflowWithOptions (SdkQueryWorkflow workflowID runID queryType args None None) call;
  match r with
  | inl err => Ret (inl err)
  | inr (inl result) => Ret (inr (Some result))
  | inr (inr _) => Ret (inr None)
  end.

(** The response is passed on. *)
Definition DescribeWorkflowExecutionWithOptions {R} (workflowID runID : string) (level : Z)
    (call : DescribeWorkflowExecutionRequest → rpc R) : outcome (clientError + option R) :=
  answered (callService Pow fuel (call (MkDescribeWorkflowExecutionRequest (Some (wc_domain wc))
    (Some (MkWorkflowExecution (Some workflowID) (Some runID))) (convertQueryConsistencyLevel level)))).
Definition DescribeWorkflowExecution {R} (workflowID runID : string)
    (call : DescribeWorkflowExecutionRequest → rpc R) : outcome (clientError + option R) :=
  DescribeWorkflowExecutionWithOptions workflowID runID 0 call.

Definition DescribeTaskList {R} (tasklist : string) (tasklistType : TaskListType)
    (call : DescribeTaskListRequest → rpc R) : outcome (clientError + option R) :=
  answered (callService Pow fuel (call (MkDescribeTaskListRequest (Some (wc_domain wc))
    (Some (MkTaskList (Some tasklist) None None)) (Some tasklistType) None))).

(** ** Lists *)

(** [request.Domain], when it is empty, becomes the domain of the client, in the
    struct of the caller. *)
Definition withDomain {Q} `{HasDomain Q} (request : option Q) : outcome Q :=
  if decide (default "" (request ≫= GetDomain) = "") then
    request ← deref request; Ret (SetDomain (Some (wc_domain wc)) request)
  else deref request.

(** The request as the caller finds it afterwards, and the answer. *)
Definition forward {Q R} `{HasDomain Q} (request : option Q) (call : Q → rpc R)
    : outcome (Q * (clientError + option R)) :=
  request ← withDomain request;
  r ← answered (callService Pow fuel (call request));
  Ret (request, r).

Section lists.
Context {Q R : Type} `{HasDomain Q}.
Implicit Types (request : option Q) (call : Q → rpc R).

Definition ListClosedWorkflow request call := forward request call.
Definition ListOpenWorkflow request call := forward request call.
Definition ListWorkflow request call := forward request call.
(** [call] gets the timeout of the context of each attempt too. *)
Definition ListArchivedWorkflow (remaining : nat → option Z) request
    (call : (nat → Z) → Q → rpc R) :=
  forward request (call (λ i, archivedTimeout (remaining i))).
Definition ScanWorkflow request call := forward request call.
Definition CountWorkflow request call := forward request call.
Definition ResetWorkflow request call := forward request call.
End lists.

Definition GetSearchAttributes {R} (call : rpc R) : outcome (clientError + option R) :=
  answered (callService Pow fuel call).

(** ** Activities that complete asynchronously *)

(** The fields that name an activity. *)
Record activityKey := ActivityKey {
  ak_domain : string;
  ak_workflowID : string;
  ak_runID : string;
  ak_activityID : string }.

Inductive activityResponseByID :=
| RespondNothingByID
| RespondActivityTaskCompletedByIDRequest (key : activityKey) (result : bytes) (identity : string)
| RespondActivityTaskCanceledByIDRequest (key : activityKey) (details : bytes) (identity : string)
| RespondActivityTaskFailedByIDRequest (key : activityKey) (reason : string) (details : bytes)
    (identity : string) (failureOptions : option FailureOptions).

Definition convertActivityResultToRespondRequestByID (identity : string) (key : activityKey)
    (result : bytes) (err : option goError) : outcome activityResponseByID :=
  match err with
  | Some ErrActivityResultPending => Ret RespondNothingByID
  | None => Ret (RespondActivityTaskCompletedByIDRequest key result identity)
  | Some err =>
      rd ← getErrorDetails err;
      match err with
      | ErrCanceled _ | ErrContextCanceled =>
          mret (RespondActivityTaskCanceledByIDRequest key rd.2 identity)
      | _ =>
          options ← getFailureOptions err;
          mret (RespondActivityTaskFailedByIDRequest key rd.1 rd.2 identity options)
      end
  end.

(** [reportActivityComplete] and [reportActivityCompleteByID]: each kind of request is
    sent by the call of that name. *)
Definition reportByToken (request : activityResponse) (call : activityResponse → rpc unit)
    : outcome (option clientError) :=
  match request with
  | RespondNothing => Ret None
  | _ => failed (callService Pow fuel (call request))
  end.
Definition reportActivityCompleteByID (request : activityResponseByID)
    (call : activityResponseByID → rpc unit) : outcome (option clientError) :=
  match request with
  | RespondNothingByID => Ret None
  | _ => failed (callService Pow fuel (call request))
  end.

(** [result] is nil or a value. *)
Definition encodeResult (result : option goValue) : string + bytes :=
  match result with None => inr None | Some v => encodeArgs [v] end.

Definition CompleteActivity (taskToken : bytes) (result : option goValue) (err : option goError)
    (call : activityResponse → rpc unit) : outcome (option clientError) :=
  match taskToken with
  | None => Ret (Some (TextErr "invalid task token provided"))
  | Some _ =>
      match encodeResult result with
      | inl err0 => Ret (Some (TextErr err0))
      | inr data =>
          request ← convertActivityResultToRespondRequest (wc_identity wc) taskToken data err;
          reportByToken request call
      end
  end.

Definition CompleteActivityByID (key : activityKey) (result : option goValue) (err : option goError)
    (call : activityResponseByID → rpc unit) : outcome (option clientError) :=
  if decide (ak_activityID key = "") then
    Ret (Some (TextErr "empty activity or workflow id or domainName"))
  else if decide (ak_workflowID key = "") then
    Ret (Some (TextErr "empty activity or workflow id or domainName"))
  else if decide (ak_domain key = "") then
    Ret (Some (TextErr "empty activity or workflow id or domainName"))
  else
  match encodeResult result with
  | inl err0 => Ret (Some (TextErr err0))
  | inr data =>
      request ← convertActivityResultToRespondRequestByID (wc_identity wc) key data err;
      reportActivityCompleteByID request call
  end.

(** What a heartbeat reports back: the service asks for the cancellation. *)
Definition heartbeatResult (r : outcome ((serviceError + option RecordActivityTaskHeartbeatResponse) * nat))
    : outcome (option clientError) :=
  r ← answered r;
  match r with
  | inl err => Ret (Some err)
  | inr response =>
      Ret (if default false (response ≫= RecordActivityTaskHeartbeatResponse_CancelRequested)
           then Some (WorkflowErr (NewCanceledError [])) else None)
  end.

Definition RecordActivityHeartbeat (taskToken : bytes) (details : list goValue)
    (call : RecordActivityTaskHeartbeatRequest → rpc RecordActivityTaskHeartbeatResponse)
    : outcome (option clientError) :=
  match encodeArgs details with
  | inl err => Ret (Some (TextErr err))
  | inr data =>
      heartbeatResult (callService Pow fuel (call
        (MkRecordActivityTaskHeartbeatRequest taskToken data (Some (wc_identity wc)))))
  end.

Definition RecordActivityHeartbeatByID (key : activityKey) (details : list goValue)
    (call : RecordActivityTaskHeartbeatByIDRequest → rpc RecordActivityTaskHeartbeatResponse)
    : outcome (option clientError) :=
  match encodeArgs details with
  | inl err => Ret (Some (TextErr err))
  | inr data =>
      heartbeatResult (callService Pow fuel (call
        (MkRecordActivityTaskHeartbeatByIDRequest (Some (ak_domain key)) (Some (ak_workflowID key))
           (Some (ak_runID key)) (Some (ak_activityID key)) data (Some (wc_identity wc)))))
  end.

End client.
