(* ===== verification/WorkflowClientProps.v ===== *)
(** * The workflow client: theorems

    Which options start a workflow and with which request; the handle that
    [ExecuteWorkflow] returns; and that both ways to complete an activity report the
    same. *)

From Stdlib Require Import ZArith Lia.
From stdpp Require Import base list gmap strings option.
From S2P Require Import Prelude.
From S2P Require Import Shared.
From S2P Require Import SharedActivity.
From S2P Require Import Errors.
From S2P Require Import Floats.
From S2P Require Import DecisionsHelper.
From S2P Require Import Environment.
From S2P Require Import Backoff.
From S2P Require Import Schedule.
From S2P Require Import ActivityOptions.
From S2P Require Import SharedClient.
From S2P Require Import HistorySerializer.
From S2P Require Import ClientHistory.
From S2P Require Import WorkflowClient.

Local Open Scope Z_scope.

Lemma seconds_range d : in_int32 (seconds d).
Proof. unfold seconds, Int32Ceil, in_int32. case_decide; lia. Qed.

Lemma seconds_whole n : n ≠ 0 → - 2 ^ 31 <= n < 2 ^ 31 → seconds (n * Second) = n.
Proof.
  intros H0 Hn. unfold seconds, Int32Ceil, Second.
  by rewrite Seconds_whole, decide_True by lia.
Qed.

Section start.
Context {dc : DataConverter} (json_Marshal : searchValue → string + bytes).
Context (uuid_Parse : string → bool).
Context (contextPropagators : list (gmap string bytes → gmap string bytes)).
Context (wc : workflowClient).
Implicit Types (options : StartWorkflowOptions) (validated : string + (string * bytes)).

(** The options with which a workflow can be started. *)
Definition valid_options options validated : Prop :=
  swo_TaskList options ≠ ""%string ∧
  0 < seconds (swo_ExecutionStartToCloseTimeout options) ∧
  0 <= seconds (swo_DecisionTaskStartToCloseTimeout options) ∧
  (swo_RequestID options = ""%string ∨ uuid_Parse (swo_RequestID options) = true) ∧
  (∃ v, validated = inr v) ∧
  (∃ memo, getWorkflowMemo (swo_Memo options) = inr memo) ∧
  (∃ attr, serializeSearchAttributes json_Marshal (swo_SearchAttributes options) = inr attr) ∧
  0 <= seconds (swo_DelayStart options) ∧ 0 <= seconds (swo_JitterStart options) ∧
  0 <= firstRunAt (swo_FirstRunAt options).

(** The values that are sent for them. *)
Definition values_of options validated (v : startValues) : Prop :=
  sv_executionTimeout v = seconds (swo_ExecutionStartToCloseTimeout options) ∧
  sv_decisionTaskTimeout v =
    (if decide (seconds (swo_DecisionTaskStartToCloseTimeout options) = 0) then 10
     else seconds (swo_DecisionTaskStartToCloseTimeout options)) ∧
  validated = inr (sv_workflowType v, sv_input v) ∧
  getWorkflowMemo (swo_Memo options) = inr (sv_memo v) ∧
  serializeSearchAttributes json_Marshal (swo_SearchAttributes options) = inr (sv_searchAttr v) ∧
  sv_delayStartSeconds v = seconds (swo_DelayStart options) ∧
  sv_jitterStartSeconds v = seconds (swo_JitterStart options) ∧
  sv_firstRunAtTimestamp v = firstRunAt (swo_FirstRunAt options).

Lemma validateRequestID_spec requestID :
  validateRequestID uuid_Parse requestID = None ↔ requestID = ""%string ∨ uuid_Parse requestID = true.
Proof.
  unfold validateRequestID. case_decide; [naive_solver|].
  destruct (uuid_Parse requestID); naive_solver.
Qed.

Lemma checkStartOptions_spec options validated :
  match checkStartOptions json_Marshal uuid_Parse options validated with
  | inl _ => ¬ valid_options options validated
  | inr v => valid_options options validated ∧ values_of options validated v
  end.
Proof.
  unfold checkStartOptions, valid_options, values_of.
  pose proof (validateRequestID_spec (swo_RequestID options)) as Hid.
  case_decide; [naive_solver|]. case_bool_decide; [naive_solver lia|].
  case_bool_decide; [naive_solver lia|].
  destruct (validateRequestID _ _); [naive_solver|]. apply proj1 in Hid. specialize (Hid eq_refl).
  destruct validated as [|[type input]]; [naive_solver|].
  destruct (getWorkflowMemo _); [naive_solver|].
  destruct (serializeSearchAttributes _ _); [naive_solver|].
  do 3 (case_bool_decide; [naive_solver lia|]).
  split; [split_and!; eauto; lia|]. split_and!; try done. simpl.
  unfold defaultDecisionTaskTimeoutInSecs. repeat case_bool_decide; repeat case_decide; done || lia.
Qed.

(** The fields that both requests have: of the workflow and the request, the task
    list, and the numbers. *)
Record sentFields := SentFields {
  sf_ids : option string * option string;
  sf_taskList : option TaskList;
  sf_timeouts : option Z * option Z;
  sf_starts : option Z * option Z * option Z }.

Definition start_fields (r : StartWorkflowExecutionRequest) : sentFields :=
  SentFields (StartWorkflowExecutionRequest_WorkflowId r, StartWorkflowExecutionRequest_RequestId r)
    (StartWorkflowExecutionRequest_TaskList r)
    (StartWorkflowExecutionRequest_ExecutionStartToCloseTimeoutSeconds r,
     StartWorkflowExecutionRequest_TaskStartToCloseTimeoutSeconds r)
    (StartWorkflowExecutionRequest_DelayStartSeconds r,
     StartWorkflowExecutionRequest_JitterStartSeconds r,
     StartWorkflowExecutionRequest_FirstRunAtTimestamp r).
Definition signal_fields (r : SignalWithStartWorkflowExecutionRequest) : sentFields :=
  SentFields (SignalWithStartWorkflowExecutionRequest_WorkflowId r,
              SignalWithStartWorkflowExecutionRequest_RequestId r)
    (SignalWithStartWorkflowExecutionRequest_TaskList r)
    (SignalWithStartWorkflowExecutionRequest_ExecutionStartToCloseTimeoutSeconds r,
     SignalWithStartWorkflowExecutionRequest_TaskStartToCloseTimeoutSeconds r)
    (SignalWithStartWorkflowExecutionRequest_DelayStartSeconds r,
     SignalWithStartWorkflowExecutionRequest_JitterStartSeconds r,
     SignalWithStartWorkflowExecutionRequest_FirstRunAtTimestamp r).

Definition whole_seconds (duration sent : Z) : Prop :=
  ∀ n, duration = n * Second → 0 < n < 2 ^ 31 → sent = n.

(** [id]: the id that the caller asked for, if any. *)
Definition well_formed options (id : string) (f : sentFields) : Prop :=
  ∃ workflowID requestID execution decision delay jitter first,
    f = SentFields (Some workflowID, Some requestID)
          (Some (MkTaskList (Some (swo_TaskList options)) None None))
          (Some execution, Some decision) (Some delay, Some jitter, Some first) ∧
    workflowID ≠ ""%string ∧ (id ≠ ""%string → workflowID = id) ∧
    uuid_Parse requestID = true ∧ (swo_RequestID options ≠ ""%string → requestID = swo_RequestID options) ∧
    swo_TaskList options ≠ ""%string ∧
    0 < execution < 2 ^ 31 ∧ whole_seconds (swo_ExecutionStartToCloseTimeout options) execution ∧
    0 < decision < 2 ^ 31 ∧ whole_seconds (swo_DecisionTaskStartToCloseTimeout options) decision ∧
    0 <= delay < 2 ^ 31 ∧ 0 <= jitter < 2 ^ 31 ∧ 0 <= first < 2 ^ 63.

Lemma firstRunAt_range t : in_int64 (firstRunAt t).
Proof. unfold firstRunAt. destruct (IsZero t); [done|apply int64_range]. Qed.

Lemma values_well_formed options validated v id workflowID' newID :
  workflowID' ≠ ""%string → uuid_Parse newID = true →
  valid_options options validated → values_of options validated v →
  well_formed options id
    (SentFields (Some (if decide (id = ""%string) then workflowID' else id),
                 Some (requestIDOrNew newID (swo_RequestID options)))
       (Some (MkTaskList (Some (swo_TaskList options)) None None))
       (Some (sv_executionTimeout v), Some (sv_decisionTaskTimeout v))
       (Some (sv_delayStartSeconds v), Some (sv_jitterStartSeconds v), Some (sv_firstRunAtTimestamp v))).
Proof.
  intros Hw Hu (Ht & He & Hd & Hr & _ & _ & _ & Hdl & Hj & Hf) (-> & -> & _ & _ & _ & -> & -> & ->).
  pose proof (seconds_range (swo_ExecutionStartToCloseTimeout options)).
  pose proof (seconds_range (swo_DecisionTaskStartToCloseTimeout options)).
  pose proof (seconds_range (swo_DelayStart options)).
  pose proof (seconds_range (swo_JitterStart options)).
  pose proof (firstRunAt_range (swo_FirstRunAt options)). unfold in_int32, in_int64 in *.
  do 7 eexists. split; [reflexivity|]. unfold requestIDOrNew, whole_seconds.
  split_and!; try done; try lia; repeat case_decide; try done; try lia; try naive_solver;
    intros n Heq Hn; rewrite Heq in *; rewrite ?seconds_whole in * by lia; lia.
Qed.

Lemma reuse_policy p :
  match WorkflowIDReusePolicy_toThriftPtr p with
  | Ret r => is_Some r ∧ 0 <= p <= 3
  | Panic _ => ¬ 0 <= p <= 3
  end.
Proof. unfold WorkflowIDReusePolicy_toThriftPtr. repeat case_decide; try lia; (split; [by eexists|lia]). Qed.

(** C26: A workflow is started with a well-formed request or not at all.  The options
    are accepted exactly when they name a task list, their timeouts, delays and
    times are in range, the request id, if given, is a UUID, and the function and
    the attributes can be encoded; otherwise an error is returned.  The request then
    has the ids that were given or else new ones, a positive timeout of the workflow
    and of its decisions, ten seconds by default, and whole seconds are sent
    exactly; all numbers fit their fields.  The same holds for a start with a
    signal, when its argument can be encoded.  The only panic is for a reuse policy
    that does not exist. *)
Theorem start_request_checked options validated workflowID' newID id signalName signalArg :
  workflowID' ≠ ""%string → uuid_Parse newID = true →
  match getWorkflowStartRequest json_Marshal uuid_Parse contextPropagators wc options validated
          workflowID' newID with
  | Ret (inr req) => valid_options options validated ∧ well_formed options (swo_ID options) (start_fields req)
  | Ret (inl _) => ¬ valid_options options validated
  | Panic _ => valid_options options validated ∧ ¬ 0 <= swo_WorkflowIDReusePolicy options <= 3
  end
  ∧ match getSignalWithStartRequest json_Marshal uuid_Parse contextPropagators wc id signalName signalArg
            options validated workflowID' newID with
    | Ret (inr req) => valid_options options validated ∧ well_formed options id (signal_fields req)
    | Ret (inl _) => ¬ (valid_options options validated ∧ ∃ input, encodeArgs [signalArg] = inr input)
    | Panic _ => valid_options options validated ∧ ¬ 0 <= swo_WorkflowIDReusePolicy options <= 3
    end.
Proof.
  intros Hw Hu. unfold getWorkflowStartRequest, getSignalWithStartRequest.
  pose proof (checkStartOptions_spec options validated) as Hc.
  pose proof (reuse_policy (swo_WorkflowIDReusePolicy options)) as Hp.
  split; [|destruct (encodeArgs [signalArg]) as [|input] eqn:Ei; [naive_solver|]];
    (destruct (checkStartOptions _ _ _ _) as [err|v]; [naive_solver|]); destruct Hc as [Hv Hvs];
    (destruct (WorkflowIDReusePolicy_toThriftPtr _); simpl; [|done]);
    (split; [done|by apply (values_well_formed options validated)]).
Qed.

End start.

(** ** Completing activities *)

Section completion.
Context {dc : DataConverter}.

(** The request by id that corresponds to one by token. *)
Definition by_id (key : activityKey) (r : activityResponse) : activityResponseByID :=
  match r with
  | RespondNothing => RespondNothingByID
  | RespondActivityTaskCompletedRequest _ result identity =>
      RespondActivityTaskCompletedByIDRequest key result identity
  | RespondActivityTaskCanceledRequest _ details identity =>
      RespondActivityTaskCanceledByIDRequest key details identity
  | RespondActivityTaskFailedRequest _ reason details identity options =>
      RespondActivityTaskFailedByIDRequest key reason details identity options
  end.

(** An activity that is named by its ids is answered like one that is named by its
    token. *)
Theorem by_id_reports_same identity key taskToken result err :
  convertActivityResultToRespondRequestByID identity key result err
  = by_id key <$> convertActivityResultToRespondRequest identity taskToken result err.
Proof.
  unfold convertActivityResultToRespondRequestByID, convertActivityResultToRespondRequest.
  destruct err as [err|]; [|done].
  destruct (getErrorDetails err) as [rd|p] eqn:Ed; unfold mbind, outcome_bind;
    [|by destruct err; rewrite ?Ed].
  destruct (getFailureOptions err) as [o|p] eqn:Eo; unfold mbind, outcome_bind;
    destruct err; rewrite ?Ed, ?Eo; done.
Qed.

End completion.

(** ** Examples *)

Module SampleClient.

Definition pow (x n : float64) : float64 := float_of_int 1.
Definition client : workflowClient := WorkflowClient "domain" "me".
Definition isUUID (s : string) : bool := bool_decide (String.length s = 36%nat).
Definition newID : string := "6ba7b812-9dad-11d1-80b4-00c04fd430c8".
Definition noJson (v : searchValue) : string + bytes := inl "not encoded".

Definition options : StartWorkflowOptions :=
  SdkStartWorkflowOptions "" "" "orders" (90 * Second) 0 0 None "" None None 0 0 zeroTime
    CronOverlapPolicySkipped None.
Definition validated : string + (string * bytes) := inr ("Order"%string, None).

Lemma start_request_checked_witness :
  let _ := bitConverter in
  match getWorkflowStartRequest noJson isUUID [] client options validated "id" newID with
  | Ret (inr req) => valid_options noJson isUUID options validated
                     ∧ well_formed isUUID options "" (start_fields req)
  | Ret (inl _) => ¬ valid_options noJson isUUID options validated
  | Panic _ => valid_options noJson isUUID options validated ∧ ¬ 0 <= 0 <= 3
  end
  ∧ match getSignalWithStartRequest noJson isUUID [] client "order-7" "paid" (GInt 1) options validated
            "id" newID with
    | Ret (inr req) => valid_options noJson isUUID options validated
                       ∧ well_formed isUUID options "order-7" (signal_fields req)
    | Ret (inl _) => ¬ (valid_options noJson isUUID options validated
                        ∧ ∃ input, encodeArgs [GInt 1] = inr input)
    | Panic _ => valid_options noJson isUUID options validated ∧ ¬ 0 <= 0 <= 3
    end.
Proof.
  intros dc. apply (start_request_checked (dc := bitConverter) noJson isUUID [] client options validated
                      "id" newID "order-7" "paid" (GInt 1)).
  - done.
  - vm_compute. reflexivity.
Defined.

(** What is sent: 90 seconds, and ten seconds for a decision. *)
Example sample_started :
  match getWorkflowStartRequest (dc := bitConverter) noJson isUUID [] client options validated "id" newID with
  | Ret (inr req) => sf_timeouts (start_fields req) = (Some 90, Some 10)
                     ∧ sf_ids (start_fields req) = (Some "id"%string, Some newID)
  | _ => False
  end.
Proof. vm_compute. split; reflexivity. Qed.

Definition called {Q R} (r : R) (request : Q) : rpc R :=
  Rpc 0 None false (λ _, inr (Some r)) (λ _, 0) (λ _ _, 0) (λ _, false) (λ _, false).

(** [SignalWithStartWorkflow] signals the workflow that its argument names, and
    returns the id of the options instead. *)
Example signal_with_start_returns_other_id :
  SignalWithStartWorkflow (dc := bitConverter) pow 1 noJson isUUID [] client "order-7" "paid" (GInt 1)
    options validated "id" newID (called (MkStartWorkflowExecutionResponse (Some "run-1"%string)))
  = Ret (inr (SdkWorkflowExecution "" "run-1")).
Proof. vm_compute. reflexivity. Qed.

(** A start with a signal has the same default reuse policy as a start. *)
Example signal_with_start_reuse_policy :
  match getSignalWithStartRequest (dc := bitConverter) noJson isUUID [] client "order-7" "paid" (GInt 1)
          options validated "id" newID with
  | Ret (inr req) => SignalWithStartWorkflowExecutionRequest_WorkflowIdReusePolicy req
                     = Some WorkflowIdReusePolicyAllowDuplicateFailedOnly
  | _ => False
  end.
Proof. vm_compute. reflexivity. Qed.

End SampleClient.
