(* ===== verification/Registry.v ===== *)
(** * The registry of workflow and activity functions

    internal/registry.go, and the resolution of functions to names in
    internal/internal_worker.go, internal/internal_workflow.go and
    internal/internal_activity.go.  A worker has a registry of its own, chained to
    the global one.  Types of functions are those of package reflect, a class. *)

From Stdlib Require Import ZArith Ascii.
From stdpp Require Import base list gmap strings option pretty.
From S2P Require Import Prelude.
From S2P Require Import Replay.

(** ** Functions *)

(** What the code asks of the types of arguments and results. *)
Class Reflect (T : Type) := {
  isWorkflowContext : T → bool;
  isActivityContext : T → bool;
  isValidResultType : T → bool;
  isError : T → bool;
  AssignableTo : T → T → bool;
  Type_String : T → string;
  Kind_String : T → string;
  TypeOf : goValue → option T  (** nil has no type *) }.

Section functions.
Context {T : Type}.

(** A function: its name at run time, its type and its code. *)
Record goFunc := GoFunc {
  fn_fullName : string;
  fn_In : list T;
  fn_Out : list T;
  fn_code : nat }.

(** A method of a struct: its function, which takes the receiver too, and the method
    value. *)
Record goMethod := GoMethod {
  m_exported : bool;
  m_func : goFunc;
  m_value : goFunc }.

(** What is passed as an [interface{}]: nil, a name, a function, a pointer to a struct
    with these methods, or a value of another kind. *)
Inductive callable :=
| CNil
| CString (name : string)
| CFunc (f : goFunc)
| CStruct (methods : list goMethod)
| COther (kind : string).

End functions.
Arguments goFunc T : clear implicits.
Arguments goMethod T : clear implicits.
Arguments callable T : clear implicits.

Definition getFunctionName {T} (f : goFunc T) : string := TrimSuffix (fn_fullName f) "-fm".

(** What follows the last dot. *)
Definition getShortFunctionName (fnName : string) : string :=
  str (drop (Z.to_nat (LastIndex (chars fnName) dot + 1)) (chars fnName)).

Section validation.
Context {T : Type} `{!Reflect T}.

Definition callable_Kind (c : callable T) : string :=
  match c with
  | CNil => "invalid" | CString _ => "string" | CFunc _ => "func" | CStruct _ => "ptr" | COther k => k
  end.

(** The error, if any, for a function type. *)
Definition validateFnType (f : goFunc T) (isWorkflow : bool) : option string :=
  match isWorkflow, fn_In f with
  | true, [] => Some "expected at least one argument of type workflow.Context in function, found 0 input arguments"
  | _, _ =>
  if isWorkflow && negb (default false (isWorkflowContext <$> head (fn_In f)))
  then Some ("expected first argument to be workflow.Context but found "
             +:+ default "" (Type_String <$> head (fn_In f)))
  else
  match fn_Out f with
  | [] | _ :: _ :: _ :: _ =>
      Some ("expected function to return result, error or just error, but found "
            +:+ pretty (length (fn_Out f)) +:+ " return values")
  | [err] =>
      if isError err then None
      else Some ("expected function second return value to return error but found " +:+ Kind_String err)
  | [result; err] =>
      if negb (isValidResultType result)
      then Some ("expected function first return value to return valid type but found: " +:+ Kind_String result)
      else if isError err then None
      else Some ("expected function second return value to return error but found " +:+ Kind_String err)
  end end.

Definition validateFnFormat (c : callable T) (isWorkflow : bool) : outcome (option string) :=
  match c with
  | CNil => Panic NilDereference
  | CFunc f => Ret (validateFnType f isWorkflow)
  | _ => Ret (Some ("expected a func as input but was " +:+ callable_Kind c))
  end.

(** The arguments against the parameters; [i] is the number of the parameter. *)
Fixpoint validateArgs (i : nat) (params : list T) (args : list goValue) : option string :=
  match params, args with
  | param :: params, arg :: args =>
      match TypeOf arg with
      | Some t =>
          if AssignableTo t param then validateArgs (S i) params args
          else Some ("cannot assign function argument: " +:+ pretty i +:+ " from type: " +:+ Type_String t
                     +:+ " to type: " +:+ Type_String param)
      | None => validateArgs (S i) params args
      end
  | _, _ => None
  end.

Definition validateFunctionArgs (f : goFunc T) (args : list goValue) (isWorkflow : bool) : option string :=
  let context := match fn_In f with
                 | [] => false
                 | t :: _ => if isWorkflow then isWorkflowContext t else isActivityContext t
                 end in
  let fnArgIndex := if context then 1 else 0 in
  let params := drop fnArgIndex (fn_In f) in
  if decide (length params = length args)
  then validateArgs (S fnArgIndex) params args
  else Some ("expected " +:+ pretty (length params) +:+ " args for function: " +:+ getFunctionName f
             +:+ " but found " +:+ pretty (length args)).

End validation.

(** ** The registry *)

Record RegisterWorkflowOptions := MkRegisterWorkflowOptions {
  rw_Name : string;
  rw_EnableShortName : bool;
  rw_DisableAlreadyRegisteredCheck : bool }.

Record RegisterActivityOptions := MkRegisterActivityOptions {
  ra_Name : string;
  ra_EnableShortName : bool;
  ra_DisableAlreadyRegisteredCheck : bool;
  ra_EnableAutoHeartbeat : bool }.

(** [workflowExecutor] and [activityExecutor]; [O] is the type of the options they keep. *)
Record executor (T O : Type) := Executor {
  ex_name : string;
  ex_fn : goFunc T;
  ex_options : O;
  ex_path : string }.
Arguments Executor {T O} _ _ _ _.
Arguments ex_name {T O} _.
Arguments ex_fn {T O} _.
Arguments ex_options {T O} _.
Arguments ex_path {T O} _.

(** The two maps for workflows, or those for activities. *)
Record half (T O : Type) := Half {
  funcMap : gmap string (executor T O);
  aliasMap : gmap string string }.
Arguments Half {T O} _ _.
Arguments funcMap {T O} _.
Arguments aliasMap {T O} _.

Record level (T : Type) := Level {
  workflows : half T unit;
  activities : half T RegisterActivityOptions }.
Arguments Level {T} _ _.
Arguments workflows {T} _.
Arguments activities {T} _.

(** A registry: its own maps, and those of the registries that it is chained to. *)
Record registry (T : Type) := Registry {
  own : level T;
  next : list (level T) }.
Arguments Registry {T} _ _.
Arguments own {T} _.
Arguments next {T} _.

(** The first registry of a chain that has an entry. *)
Fixpoint chained {L A} (find : L → option A) (l : list L) : option A :=
  match l with
  | [] => None
  | r :: l => match find r with Some a => Some a | None => chained find l end
  end.

Section halves.
Context {T O : Type}.
Implicit Types (h : half T O).

Definition find_exact (name : string) h : option (executor T O) := funcMap h !! name.
(** With the fallback to the name without its suffix. *)
Definition find_name (name : string) h : option (executor T O) :=
  match funcMap h !! name with
  | Some e => Some e
  | None => funcMap h !! TrimSuffix name "-fm"
  end.
Definition find_alias (fnName : string) h : option string := aliasMap h !! fnName.

Definition registerNameOf (fnName alias : string) (short : bool) : string :=
  if decide (alias = "") then (if short then getShortFunctionName fnName else fnName) else alias.

Definition add_executor (e : executor T O) (aliased : bool) h : half T O :=
  Half (<[ex_name e := e]> (funcMap h))
    (if aliased then <[ex_path e := ex_name e]> (aliasMap h) else aliasMap h).

End halves.

Section registry.
Context {T : Type} `{!Reflect T}.
Implicit Types (r : registry T) (name fnName : string).

Definition chain r : list (level T) := own r :: next r.

Definition newRegistry (global : level T) : registry T := Registry (Level (Half ∅ ∅) (Half ∅ ∅)) [global].

Definition getWorkflowAlias r fnName : option string :=
  chained (λ l, find_alias fnName (workflows l)) (chain r).
Definition getWorkflowNoLock r name : option (executor T unit) :=
  chained (λ l, find_exact name (workflows l)) (chain r).
Definition getWorkflowFn r fnName : option (goFunc T) :=
  ex_fn <$> chained (λ l, find_name fnName (workflows l)) (chain r).
Definition getActivityAlias r fnName : option string :=
  chained (λ l, find_alias fnName (activities l)) (chain r).
Definition getActivityNoLock r name : option (executor T RegisterActivityOptions) :=
  chained (λ l, find_exact name (activities l)) (chain r).
Definition GetActivity r fnName : option (executor T RegisterActivityOptions) :=
  chained (λ l, find_name fnName (activities l)) (chain r).

(** In the order in which the maps are iterated. *)
Definition GetRegisteredWorkflowTypes r : list string :=
  concat ((λ l, (map_to_list (funcMap (workflows l))).*1) <$> chain r).
Definition GetRegisteredWorkflows r : list (executor T unit) :=
  concat ((λ l, (map_to_list (funcMap (workflows l))).*2) <$> chain r).
Definition getRegisteredActivities r : list (executor T RegisterActivityOptions) :=
  concat ((λ l, (map_to_list (funcMap (activities l))).*2) <$> chain r).

Definition on_workflows (f : half T unit → half T unit) : M (registry T) unit :=
  modify (λ r, Registry (Level (f (workflows (own r))) (activities (own r))) (next r)).
Definition on_activities (f : half T RegisterActivityOptions → half T RegisterActivityOptions)
    : M (registry T) unit :=
  modify (λ r, Registry (Level (workflows (own r)) (f (activities (own r)))) (next r)).

Definition quoted (s : string) : string :=
  let q := String (ascii_of_nat 34) "" in q +:+ s +:+ q.

Definition RegisterWorkflowWithOptions (wf : callable T) (options : RegisterWorkflowOptions)
    : M (registry T) unit :=
  match validateFnFormat wf true, wf with
  | Panic p, _ => throw p
  | Ret None, CFunc f =>
      let fnName := getFunctionName f in
      let alias := rw_Name options in
      let registerName := registerNameOf fnName alias (rw_EnableShortName options) in
      r ← get;
      match rw_DisableAlreadyRegisteredCheck options, getWorkflowNoLock r registerName with
      | false, Some _ => throw (StringPanic ("workflow name " +:+ quoted registerName +:+ " is already registered"))
      | _, _ =>
          on_workflows (add_executor (Executor registerName f tt fnName)
            (negb (bool_decide (alias = "")) || rw_EnableShortName options))
      end
  | Ret err, _ => throw (ErrorPanic (default "" err))
  end.

Definition RegisterWorkflow (wf : callable T) : M (registry T) unit :=
  RegisterWorkflowWithOptions wf (MkRegisterWorkflowOptions "" false false).

(** The check and the entries of one activity. *)
Definition registerActivity (registerName : string) (f : goFunc T) (path : string)
    (options : RegisterActivityOptions) : M (registry T) (option string) :=
  r ← get;
  match ra_DisableAlreadyRegisteredCheck options, getActivityNoLock r registerName with
  | false, Some _ => mret (Some ("activity type " +:+ quoted registerName +:+ " is already registered"))
  | _, _ =>
      on_activities (add_executor (Executor registerName f options path)
        (negb (bool_decide (ra_Name options = "")) || ra_EnableShortName options));;
      mret None
  end.

Definition registerActivityFunction (af : callable T) (options : RegisterActivityOptions)
    : M (registry T) (option string) :=
  match validateFnFormat af false, af with
  | Panic p, _ => throw p
  | Ret None, CFunc f =>
      let fnName := getFunctionName f in
      registerActivity (registerNameOf fnName (ra_Name options) (ra_EnableShortName options)) f fnName options
  | Ret err, _ => mret (Some ("failed to register activity method: " +:+ default "" err))
  end.

(** The loop over the methods; [count] are those registered so far.  The name of the
    type of a pointer is empty, and the format of the error does not fit it. *)
Fixpoint registerMethods (methods : list (goMethod T)) (options : RegisterActivityOptions) (count : nat)
    : M (registry T) (option string) :=
  match methods with
  | [] => mret (if decide (count = 0) then Some "no activities (public methods) found in  structure" else None)
  | m :: methods =>
      if negb (m_exported m) then registerMethods methods options count else
      let methodName := getFunctionName (m_func m) in
      match validateFnType (m_func m) false with
      | Some err => mret (Some ("failed to register activity method " +:+ methodName +:+ " of : &{%!e(string="
                                +:+ err +:+ ")}"))
      | None =>
          let structPrefix := ra_Name options in
          let short := getShortFunctionName methodName in
          let registerName := if decide (structPrefix = "")
                              then (if ra_EnableShortName options then short else methodName)
                              else structPrefix +:+ short in
          err ← registerActivity registerName (m_value m) methodName options;
          match err with
          | Some err => mret (Some err)
          | None => registerMethods methods options (S count)
          end
      end
  end.

Definition registerActivityStruct (methods : list (goMethod T)) (options : RegisterActivityOptions)
    : M (registry T) (option string) := registerMethods methods options 0.

Definition RegisterActivityWithOptions (af : callable T) (options : RegisterActivityOptions)
    : M (registry T) unit :=
  err ← match af with
        | CNil => throw NilDereference
        | CStruct methods => registerActivityStruct methods options
        | _ => registerActivityFunction af options
        end;
  match err with Some err => throw (ErrorPanic err) | None => mret tt end.

Definition RegisterActivity (af : callable T) : M (registry T) unit :=
  RegisterActivityWithOptions af (MkRegisterActivityOptions "" false false false).

(** ** Names of functions, and functions of names *)

Definition getWorkflowFunctionName r (f : goFunc T) : string :=
  let result := getFunctionName f in default result (getWorkflowAlias r result).
Definition getActivityFunctionName r (f : goFunc T) : string :=
  let result := getFunctionName f in default result (getActivityAlias r result).

(** The name of the workflow type, and the encoded arguments.  The error for a value of
    another kind also prints it. *)
Definition getValidatedWorkflowFunction {dc : DataConverter} r (workflowFunc : callable T)
    (args : list goValue) : string + (string * bytes) :=
  let name :=
    match workflowFunc with
    | CString fnName => inr fnName
    | CFunc f =>
        match validateFunctionArgs f args true with
        | Some err => inl err
        | None => inr (getWorkflowFunctionName r f)
        end
    | _ => inl ("invalid type 'workflowFunc' parameter provided, it can be either worker function or"
                +:+ " name of the worker type")
    end in
  match name with
  | inl err => inl err
  | inr fnName => match ToData args with inl err => inl err | inr input => inr (fnName, input) end
  end.

Definition getValidatedActivityFunction r (f : callable T) (args : list goValue) : string + string :=
  match f with
  | CString fnName => inr fnName
  | CFunc f =>
      match validateFunctionArgs f args false with
      | Some err => inl err
      | None => inr (getActivityFunctionName r f)
      end
  | _ => inl "invalid type 'f' parameter provided, it can be either activity function or name of the activity"
  end.

(** The executor of a workflow type, with the name under which it runs and its function; or
    the unknown name and the types that are registered. *)
Definition getWorkflowDefinition r (name : string) : (string * list string) + (string * goFunc T) :=
  let lookup := default name (getWorkflowAlias r name) in
  match getWorkflowFn r lookup with
  | None => inl (lookup, GetRegisteredWorkflowTypes r)
  | Some wf => inr (lookup, wf)
  end.

End registry.
