(* ===== verification/RegistryProps.v ===== *)
(** * The registry: theorems

    A function that was registered is found again under the name that a caller who
    refers to it gets. *)

From Stdlib Require Import ZArith Lia.
From stdpp Require Import base list gmap strings option.
From S2P Require Import Prelude.
From S2P Require Import Replay.
From S2P Require Import Registry.

(** ** The two maps *)

Section halves.
Context {T O : Type}.
Implicit Types (h : half T O) (hs : list (half T O)) (e : executor T O).

(** Executors are stored under their names and found through their paths; an alias
    leads to an executor of that path. *)
Definition half_ok h : Prop :=
  (∀ n e, funcMap h !! n = Some e →
     ex_name e = n ∧ (ex_path e = n ∨ is_Some (aliasMap h !! ex_path e))) ∧
  (∀ p n, aliasMap h !! p = Some n → ∃ e, funcMap h !! n = Some e ∧ ex_path e = p).

Fixpoint disjoint_names hs : Prop :=
  match hs with
  | [] => True
  | h :: hs => (∀ n, is_Some (funcMap h !! n) → chained (find_exact n) hs = None) ∧ disjoint_names hs
  end.

Definition chain_ok hs : Prop := Forall half_ok hs ∧ disjoint_names hs.

Lemma chained_elem n hs e : chained (find_exact n) hs = Some e → ∃ h, h ∈ hs ∧ funcMap h !! n = Some e.
Proof.
  induction hs as [|h hs IH]; simpl; [done|]. unfold find_exact at 1.
  destruct (funcMap h !! n) as [e'|] eqn:E.
  - intros [= ->]. exists h. split; [left|done].
  - intros (h' & ? & ?)%IH. exists h'. split; [by right|done].
Qed.

(** A name that a member has is found there. *)
Lemma chained_found hs h n e :
  disjoint_names hs → h ∈ hs → funcMap h !! n = Some e → chained (find_exact n) hs = Some e.
Proof.
  induction hs as [|h' hs IH]; simpl; [by intros ? ?%not_elem_of_nil|].
  intros [Hd Hds] [->|Hin]%elem_of_cons Hn.
  - unfold find_exact. by rewrite Hn.
  - specialize (IH Hds Hin Hn). unfold find_exact at 1. destruct (funcMap h' !! n) eqn:E; [|done].
    specialize (Hd n ltac:(by eexists)). congruence.
Qed.

Lemma chained_alias p hs n :
  chained (find_alias p) hs = Some n → ∃ h, h ∈ hs ∧ aliasMap h !! p = Some n.
Proof.
  induction hs as [|h hs IH]; simpl; [done|]. unfold find_alias at 1.
  destruct (aliasMap h !! p) as [n'|] eqn:E.
  - intros [= ->]. exists h. split; [left|done].
  - intros (h' & ? & ?)%IH. exists h'. split; [by right|done].
Qed.

Lemma chained_no_alias p hs h : chained (find_alias p) hs = None → h ∈ hs → aliasMap h !! p = None.
Proof.
  induction hs as [|h' hs IH]; simpl; [by intros ? ?%not_elem_of_nil|]. unfold find_alias at 1.
  destruct (aliasMap h' !! p) eqn:E; [done|]. intros Hc [->|?]%elem_of_cons; auto.
Qed.

(** The name of a path leads to an executor of that path. *)
Lemma path_resolves hs n0 e0 :
  chain_ok hs → chained (find_exact n0) hs = Some e0 →
  ∃ e, chained (find_exact (default (ex_path e0) (chained (find_alias (ex_path e0)) hs))) hs = Some e
       ∧ ex_path e = ex_path e0.
Proof.
  intros [Hok Hd] (h0 & Hin0 & Hn0)%chained_elem. rewrite list.Forall_forall in Hok.
  destruct (chained (find_alias _) hs) as [n|] eqn:Ea; simpl.
  - apply chained_alias in Ea as (h & Hin & Ha). apply (Hok h Hin) in Ha as (e & Hn & Hp).
    exists e. split; [|done]. by eapply chained_found.
  - destruct (proj1 (Hok h0 Hin0) _ _ Hn0) as [_ [Hp|[n Ha]]].
    + exists e0. split; [|done]. rewrite Hp. by eapply chained_found.
    + by rewrite (chained_no_alias _ _ _ Ea Hin0) in Ha.
Qed.

Lemma find_name_exact n hs : TrimSuffix n "-fm" = n → chained (find_name n) hs = chained (find_exact n) hs.
Proof.
  intros Ht. induction hs as [|h hs IH]; simpl; [done|]. rewrite IH. unfold find_name.
  change (find_exact n h) with (funcMap h !! n). rewrite Ht. by destruct (funcMap h !! n).
Qed.

(** Registering a name that no registry of the chain has. *)
Lemma add_executor_ok h hs e aliased :
  chained (find_exact (ex_name e)) (h :: hs) = None → (aliased = false → ex_path e = ex_name e) →
  chain_ok (h :: hs) → chain_ok (add_executor e aliased h :: hs).
Proof.
  intros Hnone Hal [[[H1 H2] Hok]%list.Forall_cons [Hd Hds]]. simpl in Hnone. unfold find_exact at 1 in Hnone.
  destruct (funcMap h !! ex_name e) eqn:Hh; [done|]. split; [constructor; [split|done]|split; [|done]]; simpl.
  - intros n e' [[<- <-]|[Hne Hn]]%lookup_insert_Some.
    + split; [done|]. destruct aliased; [right; rewrite lookup_insert_eq; by eexists|left; by apply Hal].
    + apply H1 in Hn as [? [?|Hs]]; (split; [done|]); [by left|right]. destruct aliased; [|done].
      destruct (decide (ex_path e = ex_path e')) as [->|]; [rewrite lookup_insert_eq; by eexists|].
      by rewrite lookup_insert_ne.
  - intros p n Ha. assert (∀ p n, aliasMap h !! p = Some n → ∃ e', <[ex_name e:=e]> (funcMap h) !! n = Some e'
                             ∧ ex_path e' = p) as Hold.
    { intros p' n' (e' & Hn & Hp)%H2. exists e'. split; [|done]. rewrite lookup_insert_ne; congruence. }
    destruct aliased; [|by apply Hold]. apply lookup_insert_Some in Ha as [[<- <-]|[_ Ha]]; [|by apply Hold].
    exists e. by rewrite lookup_insert_eq.
  - intros n [e' [[<- _]|[_ Hn]]%lookup_insert_Some]; [done|]. apply Hd. by eexists.
Qed.

Lemma add_executor_keeps h hs e aliased n e' :
  chained (find_exact (ex_name e)) (h :: hs) = None →
  chained (find_exact n) (h :: hs) = Some e' →
  chained (find_exact n) (add_executor e aliased h :: hs) = Some e'.
Proof.
  intros Hnone Hn. simpl in *. change (find_exact n (add_executor e aliased h)) with
    (<[ex_name e := e]> (funcMap h) !! n).
  destruct (decide (ex_name e = n)) as [<-|]; [|by rewrite lookup_insert_ne].
  by rewrite Hnone in Hn.
Qed.

Lemma add_executor_found h hs e aliased :
  chained (find_exact (ex_name e)) (add_executor e aliased h :: hs) = Some e.
Proof. simpl. unfold find_exact at 1. simpl. by rewrite lookup_insert_eq. Qed.

End halves.

(** ** Registrations *)

Section registry.
Context {T : Type} `{!Reflect T}.
Implicit Types (r : registry T).

Definition registry_ok r : Prop :=
  chain_ok (workflows <$> chain r) ∧ chain_ok (activities <$> chain r).

(** What is registered stays registered. *)
Definition keeps r r' : Prop :=
  (∀ n e, getWorkflowNoLock r n = Some e → getWorkflowNoLock r' n = Some e) ∧
  (∀ n e, getActivityNoLock r n = Some e → getActivityNoLock r' n = Some e).

(** A step that keeps both. *)
Definition grows r r' : Prop := registry_ok r → registry_ok r' ∧ keeps r r'.

Lemma chained_fmap {L L' A} (g : L → L') (find : L' → option A) (l : list L) :
  chained (λ x, find (g x)) l = chained find (g <$> l).
Proof. induction l as [|x l IH]; simpl; [done|]. by rewrite IH. Qed.

Lemma workflow_halves r n : getWorkflowNoLock r n = chained (find_exact n) (workflows <$> chain r).
Proof. apply (chained_fmap workflows). Qed.
Lemma activity_halves r n : getActivityNoLock r n = chained (find_exact n) (activities <$> chain r).
Proof. apply (chained_fmap activities). Qed.

Lemma registry_grows_refl r : grows r r.
Proof. done. Qed.
Lemma registry_grows_trans r1 r2 r3 : grows r1 r2 → grows r2 r3 → grows r1 r3.
Proof.
  intros H12 H23 H1. destruct (H12 H1) as [H2 [Kw Ka]]. destruct (H23 H2) as [H3 [Kw' Ka']].
  split; [done|]. split; auto.
Qed.

Lemma grows_workflow r e aliased :
  getWorkflowNoLock r (ex_name e) = None → (aliased = false → ex_path e = ex_name e) →
  grows r (snd (on_workflows (add_executor e aliased) r)).
Proof.
  rewrite workflow_halves. intros Hn Ha [Hw Hac]. split; [split|split]; simpl.
  - by apply (add_executor_ok _ _ e aliased Hn Ha).
  - done.
  - intros n e'. rewrite !workflow_halves.
    exact (add_executor_keeps _ _ e aliased n e' Hn).
  - done.
Qed.

Lemma grows_activity r e aliased :
  getActivityNoLock r (ex_name e) = None → (aliased = false → ex_path e = ex_name e) →
  grows r (snd (on_activities (add_executor e aliased) r)).
Proof.
  rewrite activity_halves. intros Hn Ha [Hw Hac]. split; [split|split]; simpl.
  - done.
  - by apply (add_executor_ok _ _ e aliased Hn Ha).
  - done.
  - intros n e'. rewrite !activity_halves.
    exact (add_executor_keeps _ _ e aliased n e' Hn).
Qed.

Inductive registration :=
| WithWorkflow (wf : callable T) (options : RegisterWorkflowOptions)
| WithActivity (af : callable T) (options : RegisterActivityOptions).

Definition register (op : registration) : M (registry T) unit :=
  match op with
  | WithWorkflow wf options => RegisterWorkflowWithOptions wf options
  | WithActivity af options => RegisterActivityWithOptions af options
  end.
(** Names are checked. *)
Definition checked (op : registration) : Prop :=
  match op with
  | WithWorkflow _ options => rw_DisableAlreadyRegisteredCheck options = false
  | WithActivity _ options => ra_DisableAlreadyRegisteredCheck options = false
  end.

(** Registrations one after the other, of which some may panic. *)
Definition register_all (ops : list registration) r : registry T :=
  foldl (λ r op, snd (register op r)) r ops.

Lemma registerNameOf_path fnName alias short :
  negb (bool_decide (alias = "")) || short = false → fnName = registerNameOf fnName alias short.
Proof.
  unfold registerNameOf. case_bool_decide; simpl; [|done]. intros ->. by rewrite decide_True.
Qed.

Lemma RegisterWorkflow_cases wf options r :
  rw_DisableAlreadyRegisteredCheck options = false →
  (∃ p, RegisterWorkflowWithOptions wf options r = (Panic p, r)) ∨
  (∃ f, wf = CFunc f ∧
     let e := Executor (registerNameOf (getFunctionName f) (rw_Name options) (rw_EnableShortName options))
                f tt (getFunctionName f) in
     getWorkflowNoLock r (ex_name e) = None ∧
     RegisterWorkflowWithOptions wf options r =
     on_workflows (add_executor e (negb (bool_decide (rw_Name options = "")) || rw_EnableShortName options)) r).
Proof.
  intros Hc. unfold RegisterWorkflowWithOptions.
  destruct (validateFnFormat wf true) as [[err|]|p] eqn:Ev; [left; by destruct wf; eexists| |left; by eexists].
  destruct wf as [| |f| |]; try (left; by eexists). run. rewrite Hc.
  destruct (getWorkflowNoLock r _) eqn:En; [left; by eexists|]. right. exists f. split_and!; done.
Qed.

Lemma registerActivity_grows name f path options r :
  ra_DisableAlreadyRegisteredCheck options = false →
  (negb (bool_decide (ra_Name options = "")) || ra_EnableShortName options = false → path = name) →
  grows r (snd (registerActivity name f path options r)).
Proof.
  intros Hc Hp. unfold registerActivity. run. rewrite Hc.
  destruct (getActivityNoLock r name) eqn:En; [apply registry_grows_refl|].
  by apply (grows_activity r (Executor name f options path)).
Qed.

Lemma registerMethods_grows methods options count r :
  ra_DisableAlreadyRegisteredCheck options = false →
  grows r (snd (registerMethods methods options count r)).
Proof.
  intros Hc. revert count r. induction methods as [|m methods IH]; intros count r; [apply registry_grows_refl|].
  cbn [registerMethods]. destruct (m_exported m); cbn [negb]; [|apply IH].
  destruct (validateFnType (m_func m) false); [apply registry_grows_refl|]. run.
  set (name := if decide _ then _ else _).
  assert (Hg := registerActivity_grows name (m_value m) (getFunctionName (m_func m)) options r Hc).
  destruct (registerActivity _ _ _ _ r) as [[[err|]|p] r']; simpl in *;
    [apply Hg|eapply registry_grows_trans; [apply Hg|apply IH]|apply Hg];
    unfold name; case_bool_decide; simpl; try done; intros ->; by rewrite decide_True.
Qed.

Lemma register_grows op r : checked op → grows r (snd (register op r)).
Proof.
  destruct op as [wf options|af options]; simpl; intros Hc.
  - destruct (RegisterWorkflow_cases wf options r Hc) as [[p ->]|(f & -> & Hn & ->)]; [apply registry_grows_refl|].
    apply grows_workflow; [done|]. apply registerNameOf_path.
  - unfold RegisterActivityWithOptions. run.
    assert (∀ c : M (registry T) (option string), grows r (snd (c r)) →
      grows r (snd match c r with
                   | (Ret a, s') => match a with
                                    | Some err => λ s, (Panic (ErrorPanic err), s)
                                    | None => λ s, (Ret tt, s) end s'
                   | (Panic p, s') => (Panic p, s') end)) as Hgo.
    { intros c. by destruct (c r) as [[[]|] ?]. }
    destruct af as [| |f|methods|]; try apply registry_grows_refl; apply (Hgo _).
    + unfold registerActivityFunction. cbn [validateFnFormat]. destruct (validateFnType f false); [apply registry_grows_refl|].
      apply registerActivity_grows; [done|]. apply registerNameOf_path.
    + by apply registerMethods_grows.
Qed.

Lemma register_all_grows ops r : Forall checked ops → grows r (register_all ops r).
Proof.
  intros H. revert r. induction H as [|op ops Hop _ IH]; intros r; [apply registry_grows_refl|].
  eapply registry_grows_trans; [by apply register_grows|apply IH].
Qed.

Lemma newRegistry_ok (global : level T) :
  half_ok (workflows global) → half_ok (activities global) → registry_ok (newRegistry global).
Proof.
  intros Hw Ha. unfold registry_ok, chain_ok, chain, newRegistry; simpl.
  assert (∀ O, half_ok (Half (T:=T) (O:=O) ∅ ∅)) as He.
  { intros O. split; simpl; intros ??; by rewrite lookup_empty. }
  split; (split; [constructor; [apply He|by constructor]|]); split_and!; try done;
    intros n [? Hn]; by rewrite lookup_empty in Hn.
Qed.

(** The executors that are registered with the same path have the same function. *)
Definition paths_identify r : Prop :=
  ∀ n n' e e', getWorkflowNoLock r n = Some e → getWorkflowNoLock r n' = Some e' →
    ex_path e = ex_path e' → ex_fn e = ex_fn e'.

Lemma workflow_resolves r n e f :
  registry_ok r → getWorkflowNoLock r n = Some e → ex_path e = getFunctionName f →
  let name := getWorkflowFunctionName r f in
  ∃ e', getWorkflowNoLock r name = Some e' ∧ ex_path e' = getFunctionName f ∧
    (TrimSuffix name "-fm" = name → default name (getWorkflowAlias r name) = name →
     getWorkflowDefinition r name = inr (name, ex_fn e')).
Proof.
  intros [Hok _] Hn Hp name. rewrite workflow_halves in Hn.
  destruct (path_resolves _ _ _ Hok Hn) as (e' & He' & Hp'). exists e'.
  assert (getWorkflowNoLock r name = Some e') as Hname.
  { rewrite workflow_halves, <- He'. do 2 f_equal. unfold name, getWorkflowFunctionName, getWorkflowAlias.
    by rewrite Hp, (chained_fmap workflows). }
  split_and!; [done|congruence|]. intros Ht Ha. unfold getWorkflowDefinition. rewrite Ha.
  unfold getWorkflowFn. rewrite (chained_fmap workflows), find_name_exact by done.
  rewrite <- workflow_halves, Hname. done.
Qed.

Lemma activity_resolves r n e f :
  registry_ok r → getActivityNoLock r n = Some e → ex_path e = getFunctionName f →
  let name := getActivityFunctionName r f in
  ∃ e', getActivityNoLock r name = Some e' ∧ ex_path e' = getFunctionName f ∧
    (TrimSuffix name "-fm" = name → GetActivity r name = Some e').
Proof.
  intros [_ Hok] Hn Hp name. rewrite activity_halves in Hn.
  destruct (path_resolves _ _ _ Hok Hn) as (e' & He' & Hp'). exists e'.
  assert (getActivityNoLock r name = Some e') as Hname.
  { rewrite activity_halves, <- He'. do 2 f_equal. unfold name, getActivityFunctionName, getActivityAlias.
    by rewrite Hp, (chained_fmap activities). }
  split_and!; [done|congruence|]. intros Ht.
  unfold GetActivity. rewrite (chained_fmap activities), find_name_exact by done.
  by rewrite <- activity_halves.
Qed.

Lemma register_all_app ops ops' r : register_all (ops ++ ops') r = register_all ops' (register_all ops r).
Proof. apply foldl_app. Qed.

(** C14: A function that was registered runs when it is referred to.  After any checked
    registrations, some of which may have panicked, a workflow function whose
    registration succeeded, under any name, is validated to a name with which the
    definition is found, and the definition is of a function registered with that
    path: of the function itself, when paths identify functions; likewise an
    activity that is referred to by its function is found by the name that it is
    scheduled with.  The name must not end like that of a method value, nor be the
    path of another function that has an alias. *)
Theorem registered_function_runs {dc : DataConverter} global before f options after args input :
  half_ok (workflows global) → half_ok (activities global) →
  Forall checked (before ++ WithWorkflow (CFunc f) options :: after) →
  fst (RegisterWorkflowWithOptions (CFunc f) options (register_all before (newRegistry global))) = Ret tt →
  validateFunctionArgs f args true = None → ToData args = inr input →
  let r := register_all (before ++ WithWorkflow (CFunc f) options :: after) (newRegistry global) in
  (∃ name, getValidatedWorkflowFunction r (CFunc f) args = inr (name, input) ∧
    (TrimSuffix name "-fm" = name → default name (getWorkflowAlias r name) = name →
     ∃ e, getWorkflowNoLock r name = Some e ∧ ex_path e = getFunctionName f ∧
       getWorkflowDefinition r name = inr (name, ex_fn e) ∧ (paths_identify r → ex_fn e = f))) ∧
  (∀ n e g args, getActivityNoLock r n = Some e → ex_path e = getFunctionName g →
    validateFunctionArgs g args false = None →
    ∃ name, getValidatedActivityFunction r (CFunc g) args = inr name ∧
      (TrimSuffix name "-fm" = name → ∃ e', GetActivity r name = Some e' ∧ ex_path e' = getFunctionName g)).
Proof.
  intros Hgw Hga Hc Hret Hargs Hdata r.
  assert (Hnew := newRegistry_ok global Hgw Hga).
  assert (registry_ok r) as Hok by apply (register_all_grows _ _ Hc Hnew).
  split.
  - exists (getWorkflowFunctionName r f). split; [unfold getValidatedWorkflowFunction; by rewrite Hargs, Hdata|].
    apply list.Forall_app in Hc as [Hb [Hop Ha]%list.Forall_cons].
    set (r1 := register_all before (newRegistry global)) in *.
    assert (∃ n e, getWorkflowNoLock r n = Some e ∧ ex_path e = getFunctionName f ∧ ex_fn e = f)
      as (n & e & Hn & Hp & Hf).
    { assert (registry_ok r1) as Hok1 by apply (register_all_grows _ _ Hb Hnew).
      destruct (RegisterWorkflow_cases (CFunc f) options r1 Hop) as [[p Hpn]|(f' & [= <-] & Hno & Hreg)];
        [by rewrite Hpn in Hret|].
      destruct (register_grows (WithWorkflow (CFunc f) options) r1 Hop Hok1) as [Hok2 _].
      eexists _, _. split; [|split; [|]].
      - unfold r. rewrite register_all_app. fold r1. cbn [register_all foldl].
        apply (register_all_grows after _ Ha Hok2). cbn [register]. rewrite Hreg, workflow_halves.
        apply (add_executor_found (workflows (own r1))).
      - done.
      - done. }
    intros Ht Hal. destruct (workflow_resolves r n e f Hok Hn Hp) as (e' & He' & Hp' & Hd).
    exists e'. split_and!; [done|done|by apply Hd|]. intros Hid. rewrite <- Hf.
    apply (Hid _ n _ _ He' Hn). congruence.
  - intros n e g args' Hn Hp Hv. destruct (activity_resolves r n e g Hok Hn Hp) as (e' & He' & Hp' & Hd).
    exists (getActivityFunctionName r g). split; [unfold getValidatedActivityFunction; by rewrite Hv|].
    intros Ht. exists e'. auto.
Qed.

End registry.

(** ** Examples *)

Module SampleRegistry.

Inductive sampleType := Ctx | Err | Num.
Global Instance sampleType_eq : EqDecision sampleType.
Proof. solve_decision. Defined.

Definition same (a b : sampleType) : bool := bool_decide (a = b).
Global Instance sampleReflect : Reflect sampleType :=
  {| isWorkflowContext := same Ctx; isActivityContext := λ _, false; isValidResultType := λ _, true;
     isError := same Err; AssignableTo := same; Type_String := λ _, "T"; Kind_String := λ _, "struct";
     TypeOf := λ v, match v with GNil => None | _ => Some Num end |}.

Definition order : goFunc sampleType := GoFunc "shop.Order" [Ctx; Num] [Err] 1.
Definition ship : goFunc sampleType := GoFunc "shop.Ship" [Ctx] [Err] 2.
Definition charge : goFunc sampleType := GoFunc "shop.(*Bank).Charge" [Num; Num] [Err] 3.
Definition refund : goFunc sampleType := GoFunc "shop.(*Bank).Refund-fm" [Num] [Num] 4.

Definition named (name : string) := MkRegisterWorkflowOptions name false false.
Definition global : level sampleType := Level (Half ∅ ∅) (Half ∅ ∅).

Definition before : list (registration (T := sampleType)) :=
  [WithWorkflow (CFunc ship) (named "")].
Definition after : list (registration (T := sampleType)) :=
  [WithWorkflow (CFunc ship) (named "order"); (* refused *)
   WithActivity (CStruct [GoMethod true charge charge])
     (MkRegisterActivityOptions "bank." false false false)].
Definition all := before ++ WithWorkflow (CFunc order) (named "order") :: after.
Definition r : registry sampleType := register_all all (newRegistry global).

Lemma empty_half {O} : half_ok (Half (T := sampleType) (O := O) ∅ ∅).
Proof. split; simpl; intros ??; by rewrite lookup_empty. Qed.

Lemma registered_function_runs_witness :
  let _ := bitConverter in
  (∃ name, getValidatedWorkflowFunction r (CFunc order) [GInt 7] = inr (name, Some (bits_of_pos (encode [GInt 7]))) ∧
    (TrimSuffix name "-fm" = name → default name (getWorkflowAlias r name) = name →
     ∃ e, getWorkflowNoLock r name = Some e ∧ ex_path e = "shop.Order" ∧
       getWorkflowDefinition r name = inr (name, ex_fn e) ∧ (paths_identify r → ex_fn e = order))) ∧
  (∀ n e g args, getActivityNoLock r n = Some e → ex_path e = getFunctionName g →
    validateFunctionArgs g args false = None →
    ∃ name, getValidatedActivityFunction r (CFunc g) args = inr name ∧
      (TrimSuffix name "-fm" = name → ∃ e', GetActivity r name = Some e' ∧ ex_path e' = getFunctionName g)).
Proof.
  intros dc. apply (registered_function_runs (dc := bitConverter) global before order (named "order") after
                      [GInt 7] (Some (bits_of_pos (encode [GInt 7])))).
  - apply empty_half.
  - apply empty_half.
  - repeat constructor.
  - vm_compute. reflexivity.
  - vm_compute. reflexivity.
  - reflexivity.
Defined.

(** The function is started as [order] and found; the activity by its prefix. *)
Example sample_resolved :
  getWorkflowFunctionName r order = "order"
  ∧ getWorkflowDefinition r "order" = inr ("order", order)
  ∧ getActivityFunctionName r charge = "bank.Charge"
  ∧ ex_fn <$> GetActivity r "bank.Charge" = Some charge.
Proof. vm_compute. repeat split; reflexivity. Qed.

(** A workflow type that is also the path of a function with an alias is never reached:
    a task of type [shop.Ship], which is registered for [order], runs [ship]. *)
Example alias_hides_type :
  let r := register_all [WithWorkflow (CFunc ship) (named "ship"); WithWorkflow (CFunc order) (named "shop.Ship")]
             (newRegistry global) in
  ex_fn <$> getWorkflowNoLock r "shop.Ship" = Some order
  ∧ getWorkflowDefinition r "shop.Ship" = inr ("ship", ship).
Proof. vm_compute. split; reflexivity. Qed.

(** A struct with a method that is not an activity panics, and the methods before it stay
    registered. *)
Example struct_registered_in_part :
  let '(o, r) := RegisterActivity (CStruct [GoMethod true charge charge; GoMethod true refund refund])
                   (newRegistry global) in
  ¬ returns o ∧ ex_fn <$> GetActivity r "shop.(*Bank).Charge" = Some charge.
Proof. vm_compute. split; [tauto|reflexivity]. Qed.

End SampleRegistry.
